(* ===== verification/_CoqProject ===== *)
-Q . S2P
Prelude.v
StdMap.v
Crc.v
Refcount.v
Locks.v
IoBuffer.v
Codec.v
OBuf.v
BitStream.v
Route.v
CLib.v
Text.v
HexUri.v
Url.v
UrlRoundtrip.v
Sockaddr.v
Config.v
UriParser.v
Support.v
Neighbours.v
Threads.v
Sql.v
Files.v
Events.v
EventCodec.v
Registry.v
SocketInfo.v
Service.v
ErrorLog.v
SocketService.v
SocketProto.v
WebSocket.v
Sha1.v
LlhttpNodes.v
Llhttp.v
LlhttpRun.v
HttpService.v
HttpResponse.v
HttpRequests.v
HttpParser.v
HttpWire.v
HttpFraming.v
WsClient.v
Telnet.v
TelnetEdit.v
TelnetCommands.v
Oscar.v
Listener.v
Timer.v
Rpc.v
Instance.v
ObjectProxy.v
Cluster.v
Bin2c.v
Bin2cText.v
Bin2cRun.v
