(* ===== verification/Prelude.v ===== *)
(** * Megatron: a verification of the event framework

    Megatron is a C++ framework of services that exchange events.  A service
    has a listener with a queue and a thread; the instance creates services on
    demand and delivers events to them; each event carries a route, a stack of
    hops that leads its answer back.  Events for another process are packed by
    the RPC service, framed by the Oscar service and written to a socket by the
    socket layer; the timer service sends ticks.

    ** Files and what they model

    - [Prelude]: exceptions as values ([res], with [UB] for undefined
      behaviour), machine integers, bytes, list lemmas.
    - [StdMap]: [std::map] and [std::set] as sorted association lists over a
      comparison, with the laws of a [StdOrder].
    - [IoBuffer], [Codec]: corelib/ioBuffer.{h,cpp}.  [outBuffer] and [inBuffer]
      with the variable-length numbers (PN), strings and containers.  A [Codec]
      is a writer with its reader; [CodecLaws] (what is read is what was
      written) and [CodecSafe] (any bytes are read within bounds) are the
      interfaces the later files are proved against.
    - [OBuf]: corelib/obuf.{h,cpp}, the writer over a fixed array.
    - [Route]: corelib/route_t.{h,cpp}.
    - [CLib]: the C library functions the sources use (strcmp, atoi, htonl).
    - [Sockaddr]: corelib/msockaddr_in.{h,cpp}; [inet_ntop] and [inet_pton] are
      parameters with the class [InetText].
    - [Events]: the classes of Events/**/*.h, [ghash] and [Event::Base].
    - [EventCodec]: their [pack] and [unpack], and [packEvent], [unpackEvent] and
      [registerEvent] of main/CUtils.cpp.
    - [SocketInfo]: corelib/epoll_socket_info.*, corelib/networkMultiplexor.cpp.
    - [Service]: what a service asks of its instance (corelib/broadcaster.cpp)
      and the monad of the handlers: state, exceptions, emitted calls.
    - [Oscar]: modules/oscar/oscarService.cpp.
    - [Listener]: corelib/eventDeque.*, corelib/listener*.cpp, as a step
      relation over producers, workers and [deinit].
    - [Timer]: modules/timer/timerService.*, as a step relation over handlers,
      the worker and the clock.
    - [Rpc]: modules/rpc/rpcService.*.
    - [Instance]: main/CInstance.*; its [Module Race] is the interleaving of
      callers that need the same service.
    - [ObjectProxy]: modules/objectProxy/*, corelib/objectHandler.cpp.
    - [Cluster]: two nodes together.
    - [Text], [HexUri]: the text functions of main/CUtils.cpp and
      corelib/splitStr.h, corelib/resplit.h: splitting, case tables, base64, hex
      and URI forms.
    - [Config]: main/configObj.*, corelib/configDB.*, with the environment and the
      files as parameters.
    - [SocketService], [SocketProto]: modules/socket/socketService.*, its pollers
      and requests over a heap of sockets; the protocol automaton of a socket
      and the proof that every run follows it.
    - [WebSocket], [Sha1]: the frames and the key of modules/http/httpService.cpp,
      with modules/http/sha1_1.hpp and base64.hpp.
    - [HttpService]: corelib/httpConnection.* and the handlers of
      modules/http/httpService.cpp; the parser is a parameter that gives the
      callbacks of each read.
    - [HttpResponse]: [HTTP::Response], with a client that reads what it writes.
    - [HttpRequests]: what a connection passes on, for the callbacks the parser
      is documented to make for a message.
    - [LlhttpNodes], [Llhttp]: corelib/llhttp: the blocks of llhttp.c as data, one
      definition per label, and the loop that runs them; its actions, http.c and
      api.c.
    - [LlhttpRun]: what the graph of blocks has (ranks, spans), checked on all of
      them, and that the loop ends.
    - [HttpParser]: the parser with the settings of the HTTP service, and that the
      cutting of the reads does not matter.
    - [HttpWire]: the text of requests, what the parser makes of it, and the
      composition with the service.
    - [HttpFraming]: the regions of the parser around Content-Length and
      Transfer-Encoding, and the invariant that a message has one length.
    - [Telnet], [TelnetEdit], [TelnetCommands]: modules/telnet/telnetService.*: the
      sessions, keys and tree of commands; the editor against a zipper and a
      terminal; completion, registration and ENTER.
    - [Crc]: corelib/__crc16.cpp, __crc32.cpp, __crc64.cpp.
    - [Refcount]: corelib/REF.h, the handles over a heap of objects whose
      destructors run the handles inside them.
    - [Locks]: corelib/mutexable.*, scopes of lockers and the interleaving of
      threads.
    - [BitStream]: corelib/_bitStream.*.
    - [Url], [UrlRoundtrip]: corelib/url.*; the laws of parsing and building.
    - [UriParser]: corelib/httpUrlParser.h.
    - [Sql]: corelib/_QUERY.*, corelib/DBH.* and modules/mysql/mysqlService.*, the
      answers of the client library being arguments.
    - [Files]: files, directories, host names and patterns of main/CUtils.cpp;
      the file system, the resolver and [regexec] are parameters.
    - [Registry]: services, events, interfaces, plugins and instances of
      main/CUtils.cpp and main/utils_local.h.
    - [ErrorLog]: modules/errorDispatcher/* and modules/logger/*.
    - [WsClient]: modules/webSocketClient/*.
    - [Neighbours]: corelib/neighbours.*, over the store of [Config].
    - [Threads]: main/threadNameCtl.cpp and corelib/mutexInspector.cpp.
    - [Support]: corelib/mtimespec.*, corelib/http_parse_cookie.h, the wire form
      of corelib/bigint.h, and the name of the program (main/megatron.cpp).
    - [Bin2c], [Bin2cText], [Bin2cRun]: tools/bin2c/bin2c.c; a reader of C
      declarations; the runs of the program and what they write.

    ** What the theorems show

    Round trips: numbers, containers, routes, addresses and all packable events
    come back as they were written.  Safety of reading: on any bytes
    [unpackEvent] stays in its buffer, except through Unix-domain addresses,
    where the overflow is proved.  Streams: Oscar's packets are reassembled
    under any cutting of the byte stream; sessions and sockets keep the order of
    what is sent.  Concurrency: listeners lose and duplicate nothing, the
    one-thread listener keeps order and stops, the N-thread one can sleep for
    good; alarms tick at most once; a stopped task is silent unless it was
    already taken.  Routing: a request reaches a service, which is started
    first, and the answer comes back, in one process and across two.
    Sockets: whatever is asked, answered and polled, the events about a socket
    are a run of its protocol automaton; the runs that leave it (an option call
    that fails, a close by the holder, TLS) are proved as errors.  Text: base64,
    hex, URI and configuration texts read back; the two base64 encoders agree;
    [sha1_calc] is SHA-1; WebSocket frames read back when they arrive whole.
    HTTP: the generated parser ends on any bytes, does not depend on how they are
    cut and never accepts a message with two lengths; from the bytes of requests
    to the events of the service, requests are assembled and passed one by one
    with url, headers, method and body;
    responses are read back by a client; an upgraded connection, and a message of
    a method other than GET and POST, are shown to go wrong.
    Telnet: editing keys keep the session and the terminal equal to a zipper, TAB
    completes to the longest common prefix, a registered command is run on the
    route of its registration; a window of width 0 divides by zero.
    Foundations: counted references never use a freed object, except in
    [x = x->member], and counts are exact; scoped lockers exclude each other and
    do not deadlock when taken in order; checksums are polynomial divisions; bit
    fields read back.  URLs: what is built is parsed back and parsing is total;
    request targets are taken apart.  Registry: its tables stay maps and sets,
    plugins are loaded on demand.  Queries are bound position by position.  The
    WebSocket client talks to the HTTP service of this program, for messages of
    125 bytes at most.
    The neighbours survive the process; arithmetic of times is exact; cookies
    read back; the inspector shows the open scopes of each thread.
    The arrays bin2c writes are the files it was given.

    ** Fuel

    Loops that are not structural take fuel: [get_PN_loop] one more than the
    bytes that remain (each round reads one), [oscar_loop] one more than the
    bytes in the buffer (each frame takes two or more), [parse_query] and
    [parse_query_params] one more than the characters (each entry takes one),
    [run_work] the [work_bound] of the heap (handles and objects only become
    fewer), [run] 32 blocks per byte and 32 at the end (the rank of a block is below
    32 and falls until a byte is taken).  The specifications show that the fuel is
    never used up.
    [threaded_sendEvent] and [rxfind_loop] have fuel to say that no number of
    calls is enough; [str_replace_all] shows the fuel that is when no match is
    empty.

    ** Not modelled

    Memory release outside [Refcount] (values stand for shared objects except
    where [ez->e] aliasing matters), logging, [double] and [float] on the wire,
    the TLS calls, the resolver, [dlopen], the database client library
    (parameters), the strict-mode copy of llhttp.c (compiled out) and its SSE4.2
    loops, the OpenSSL bindings, the code generators under tools, and the
    PostgreSQL and web handler modules, which do not compile against the headers
    of this tree. *)

From Stdlib Require Import ZArith Lia.
From stdpp Require Import base list strings numbers.

(** ** Scopes *)

Declare Scope megatron_scope.
Delimit Scope megatron_scope with meg.
Open Scope Z_scope.

(** ** Exceptions and results

    The C++ code reports an error by throwing; a function that may throw is
    modelled as a function into [res].  [UB] is not a C++ exception: it marks a
    point where the source reads or writes outside an object, dereferences a
    null pointer or recurses for ever, so that a theorem can state when this
    happens and when it does not.  [OutOfFuel] only exists because loops are
    Fixpoints on a bound; each loop has a theorem that it is never returned. *)

Inductive exn : Type :=
| CommonError (what : string)
| RuntimeError (what : string)
| BadAlloc
| UB (what : string)
| OutOfFuel.

Inductive res (A : Type) : Type :=
| Ok (a : A)
| Throw (e : exn).
Arguments Ok {A} a.
Arguments Throw {A} e.

#[export] Instance res_ret : MRet res := fun A a => Ok a.
#[export] Instance res_bind : MBind res :=
  fun A B f m => match m with Ok a => f a | Throw e => Throw e end.

#[export] Instance exn_eq_dec : EqDecision exn.
Proof. solve_decision. Defined.

Definition is_ok {A} (r : res A) : bool :=
  match r with Ok _ => true | Throw _ => false end.

(** The C++ exceptions proper: what a [catch (const std::exception &)] sees. *)
Definition catchable (e : exn) : bool :=
  match e with CommonError _ | RuntimeError _ | BadAlloc => true | _ => false end.

Lemma res_bind_ok {A B} (f : A -> res B) a : (Ok a ≫= f) = f a.
Proof. reflexivity. Qed.

Lemma res_bind_throw {A B} (f : A -> res B) e : (Throw e ≫= f) = Throw e.
Proof. reflexivity. Qed.

Lemma res_bind_inv {A B} (m : res A) (f : A -> res B) b :
  (m ≫= f) = Ok b -> exists a, m = Ok a /\ f a = Ok b.
Proof. destruct m; simpl; [eauto | discriminate]. Qed.

Lemma res_bind_assoc {A B C} (m : res A) (f : A -> res B) (g : B -> res C) :
  ((m ≫= f) ≫= g) = (m ≫= fun a => f a ≫= g).
Proof. by destruct m. Qed.

(** Run a step over a list, left to right, stopping at the first throw. *)
Fixpoint foldM {S A} (f : S -> A -> res S) (s : S) (l : list A) : res S :=
  match l with
  | [] => Ok s
  | x :: l' => s' ← f s x; foldM f s' l'
  end.

Lemma foldM_app {S A} (f : S -> A -> res S) l1 l2 s :
  foldM f s (l1 ++ l2) = (s' ← foldM f s l1; foldM f s' l2).
Proof.
  revert s; induction l1 as [|x l1 IH]; intros s; [reflexivity|].
  simpl. destruct (f s x); [apply IH | reflexivity].
Qed.

(** ** Machine integers *)

Definition wrapu (w z : Z) : Z := z mod 2 ^ w.
Definition wraps (w z : Z) : Z := (z + 2 ^ (w - 1)) mod 2 ^ w - 2 ^ (w - 1).

Inductive ity : Type := I8 | U8 | I16 | U16 | I32 | U32 | I64 | U64.

#[export] Instance ity_eq_dec : EqDecision ity.
Proof. solve_decision. Defined.

Definition width (t : ity) : Z :=
  match t with I8 | U8 => 8 | I16 | U16 => 16 | I32 | U32 => 32 | I64 | U64 => 64 end.
Definition is_signed (t : ity) : bool :=
  match t with I8 | I16 | I32 | I64 => true | _ => false end.

(** The value a C++ integral conversion to type [t] produces. *)
Definition cast (t : ity) (z : Z) : Z :=
  if is_signed t then wraps (width t) z else wrapu (width t) z.

Definition in_range (t : ity) (z : Z) : Prop :=
  if is_signed t then - 2 ^ (width t - 1) <= z < 2 ^ (width t - 1)
  else 0 <= z < 2 ^ width t.

Definition in_rangeb (t : ity) (z : Z) : bool :=
  if is_signed t
  then (- 2 ^ (width t - 1) <=? z) && (z <? 2 ^ (width t - 1))
  else (0 <=? z) && (z <? 2 ^ width t).

#[export] Instance in_range_dec t z : Decision (in_range t z).
Proof. unfold in_range. destruct (is_signed t); apply _. Defined.

Lemma in_rangeb_spec t z : in_rangeb t z = true <-> in_range t z.
Proof. unfold in_rangeb, in_range. destruct (is_signed t); lia. Qed.

Lemma width_pos t : 0 < width t.
Proof. by destruct t. Qed.

Lemma wrapu_range w z : 0 <= w -> 0 <= wrapu w z < 2 ^ w.
Proof. intros. apply Z.mod_pos_bound. lia. Qed.

Lemma wrapu_small w z : 0 <= z < 2 ^ w -> wrapu w z = z.
Proof. apply Z.mod_small. Qed.

Lemma wraps_small w z : 0 < w -> - 2 ^ (w - 1) <= z < 2 ^ (w - 1) -> wraps w z = z.
Proof.
  intros Hw Hz. unfold wraps. rewrite Z.mod_small; [lia|].
  replace (2 ^ w) with (2 * 2 ^ (w - 1)); [lia|].
  rewrite <- Z.pow_succ_r by lia. f_equal. lia.
Qed.

Lemma cast_id t z : in_range t z -> cast t z = z.
Proof.
  unfold in_range, cast. destruct (is_signed t); intros H.
  - apply wraps_small; [apply width_pos | exact H].
  - apply wrapu_small; exact H.
Qed.

Lemma cast_in_range t z : in_range t (cast t z).
Proof.
  unfold in_range, cast. pose proof (width_pos t) as Hw.
  destruct (is_signed t).
  - unfold wraps. replace (2 ^ width t) with (2 * 2 ^ (width t - 1)).
    + pose proof (Z.mod_pos_bound (z + 2 ^ (width t - 1)) (2 * 2 ^ (width t - 1))).
      assert (0 < 2 ^ (width t - 1)) by (apply Z.pow_pos_nonneg; lia). lia.
    + rewrite <- Z.pow_succ_r by lia. f_equal. lia.
  - apply wrapu_range. lia.
Qed.

Lemma pow2_divide a b : 0 <= a <= b -> (2 ^ a | 2 ^ b).
Proof.
  intros H. exists (2 ^ (b - a)). rewrite <- Z.pow_add_r by lia. f_equal. lia.
Qed.

Lemma mod_mod_pow2 a w v : 0 <= w <= v -> (a mod 2 ^ v) mod 2 ^ w = a mod 2 ^ w.
Proof.
  intros H. apply Z.mod_mod_divide. by apply pow2_divide.
Qed.

(** Converting to a wider unsigned type and back keeps a value of type [t]. *)
Lemma cast_wrapu t w z : width t <= w -> cast t (wrapu w z) = cast t z.
Proof.
  intros Hw. pose proof (width_pos t). unfold cast, wraps, wrapu.
  destruct (is_signed t).
  - rewrite <- (mod_mod_pow2 (z mod 2 ^ w + _) (width t) w) by lia.
    rewrite Z.add_mod_idemp_l by (apply Z.pow_nonzero; lia).
    by rewrite mod_mod_pow2 by lia.
  - by rewrite mod_mod_pow2 by lia.
Qed.

Lemma land_127 z : Z.land z 127 = z mod 128.
Proof. exact (Z.land_ones z 7 ltac:(lia)). Qed.

Lemma land_255 z : Z.land z 255 = z mod 256.
Proof. exact (Z.land_ones z 8 ltac:(lia)). Qed.

(** A bit of a number that fits in [n] bits is clear from [n] on. *)
Lemma testbit_small c n i : 0 <= c < 2 ^ n -> n <= i -> Z.testbit c i = false.
Proof.
  intros Hc Hi. destruct (Z.le_gt_cases 0 n).
  - rewrite <- (Z.mod_small c (2 ^ n)) by done. by apply Z.mod_pow2_bits_high.
  - rewrite Z.pow_neg_r in Hc by done. lia.
Qed.

(** Bits that do not overlap: [|] is [+]. *)
Lemma lor_shiftl_add a c n :
  0 <= n -> 0 <= c < 2 ^ n -> Z.lor (Z.shiftl a n) c = a * 2 ^ n + c.
Proof.
  intros Hn Hc. rewrite <- Z.shiftl_mul_pow2 by lia.
  rewrite <- Z.add_lor_land.
  enough (Z.land (Z.shiftl a n) c = 0) as -> by lia.
  apply Z.bits_inj_0. intros i. rewrite Z.land_spec.
  destruct (Z.le_gt_cases n i).
  - rewrite (testbit_small c n i) by lia. apply andb_false_r.
  - destruct (Z.le_gt_cases 0 i).
    + by rewrite Z.shiftl_spec_low.
    + by rewrite Z.testbit_neg_r.
Qed.

Lemma lor_128 c : 0 <= c < 128 -> Z.lor c 128 = c + 128.
Proof.
  intros H. rewrite Z.lor_comm. change 128 with (Z.shiftl 1 7) at 1.
  rewrite lor_shiftl_add by lia. lia.
Qed.

(** ** Bytes

    A byte is a [Z] in [0, 256); a [std::string], a [refbuffer]'s container and
    a raw buffer are lists of bytes. *)

Definition is_byte (c : Z) : Prop := 0 <= c < 256.
Definition is_byteb (c : Z) : bool := (0 <=? c) && (c <? 256).
Definition bytes : Type := list Z.

#[export] Instance is_byte_dec c : Decision (is_byte c).
Proof. unfold is_byte. apply _. Defined.

(** The bytes of a C++ string literal. *)
Fixpoint lit (s : string) : list Z :=
  match s with
  | EmptyString => []
  | String a s' => Z.of_N (Ascii.N_of_ascii a) :: lit s'
  end.

Lemma lit_bytes s : Forall is_byte (lit s).
Proof.
  induction s as [|a s IH]; simpl; constructor; [|done].
  unfold is_byte. pose proof (Ascii.N_ascii_bounded a). lia.
Qed.

(** ** Lists *)

Lemma drop_lt_cons {A} (l : list A) n x : l !! n = Some x -> drop n l = x :: drop (S n) l.
Proof. intros H. by apply drop_S. Qed.

Lemma drop_app_eq {A} (l1 l2 : list A) n :
  n = length l1 -> drop n (l1 ++ l2) = l2.
Proof. intros ->. apply drop_app_length. Qed.

Lemma take_app_eq {A} (l1 l2 : list A) n :
  n = length l1 -> take n (l1 ++ l2) = l1.
Proof. intros ->. apply take_app_length. Qed.

Lemma length_lt_drop {A} (l : list A) n x r : drop n l = x :: r -> (n < length l)%nat.
Proof.
  intros H. destruct (decide (n < length l)%nat) as [|Hn]; [done|].
  rewrite drop_ge in H by lia. discriminate.
Qed.

Lemma join_nil {A B} (f : A -> list B) : mjoin (f <$> []) = [].
Proof. reflexivity. Qed.

Lemma join_cons {A B} (f : A -> list B) x l :
  mjoin (f <$> (x :: l)) = f x ++ mjoin (f <$> l).
Proof. reflexivity. Qed.

(** [simpl] leaves machine arithmetic alone. *)
#[global] Arguments wrapu : simpl never.
#[global] Arguments wraps : simpl never.
#[global] Arguments cast : simpl never.
#[global] Arguments Z.pow : simpl never.
#[global] Arguments Z.modulo : simpl never.
#[global] Arguments Z.div : simpl never.

(** ** Automation *)

Create HintDb megatron.
Create Rewrite HintDb megatron.
#[export] Hint Constructors Forall : megatron.
#[export] Hint Resolve lit_bytes cast_id cast_in_range width_pos : megatron.
#[export] Hint Rewrite @res_bind_ok @res_bind_throw : megatron.

(** Split a successful chain of binds into its steps. *)
Ltac inv_bind H :=
  repeat match type of H with
  | (?m ≫= _) = Ok _ =>
      let a := fresh "a" in let Ha := fresh "Ha" in
      apply res_bind_inv in H as (a & Ha & H)
  end.

(** Case analysis on every boolean test of the goal. *)
Ltac split_if :=
  repeat match goal with
  | |- context [if ?b then _ else _] => destruct b eqn:?
  | H : context [if ?b then _ else _] |- _ => destruct b eqn:?
  end.
