(* ===== verification/StdMap.v ===== *)
(** [std::map] and [std::set] as the code uses them: containers ordered by the
    key type's [operator<].  A map is the list of its entries in iteration
    order; a set is a map to [unit] in the code's terms and the list of its
    elements here.  The operations are the ones the sources call: [find],
    [insert] (keeps an existing entry), [operator[]] (overwrites or creates),
    [erase], [begin] and iteration.

    [StdOrder lt] is what the standard asks of [operator<]; the components
    that key a container discharge it for their key type. *)

From Stdlib Require Import ZArith Lia.
From stdpp Require Import base list numbers.
From S2P Require Import Prelude.

(** A strict total order given as a boolean function. *)
Class StdOrder {K : Type} (lt : K -> K -> bool) : Prop := {
  lt_irrefl : forall a, lt a a = false;
  lt_trans : forall a b c, lt a b = true -> lt b c = true -> lt a c = true;
  lt_total : forall a b, lt a b = false -> lt b a = false -> a = b;
}.

Lemma lt_asym {K} (lt : K -> K -> bool) `{!StdOrder lt} a b :
  lt a b = true -> lt b a = false.
Proof.
  intros H. destruct (lt b a) eqn:E; [|done].
  pose proof (lt_trans a b a H E) as C. by rewrite lt_irrefl in C.
Qed.

#[export] Instance Z_ltb_order : StdOrder Z.ltb.
Proof. split; intros; lia. Qed.

Section StdMap.
Context {K V : Type} (lt : K -> K -> bool).

Fixpoint map_find (k : K) (m : list (K * V)) : option V :=
  match m with
  | [] => None
  | (k', v) :: m' =>
      if lt k' k then map_find k m' else if lt k k' then None else Some v
  end.

(** [m.insert({k, v})]: an existing entry is kept. *)
Fixpoint map_insert (k : K) (v : V) (m : list (K * V)) : list (K * V) :=
  match m with
  | [] => [(k, v)]
  | (k', v') :: m' =>
      if lt k' k then (k', v') :: map_insert k v m'
      else if lt k k' then (k, v) :: m else m
  end.

(** [m[k] = f(m[k])], [d] being the value-initialised element [operator[]]
    creates. *)
Fixpoint map_update (k : K) (d : V) (f : V -> V) (m : list (K * V)) : list (K * V) :=
  match m with
  | [] => [(k, f d)]
  | (k', v') :: m' =>
      if lt k' k then (k', v') :: map_update k d f m'
      else if lt k k' then (k, f d) :: m else (k', f v') :: m'
  end.

Fixpoint map_erase (k : K) (m : list (K * V)) : list (K * V) :=
  match m with
  | [] => []
  | (k', v') :: m' =>
      if lt k' k then (k', v') :: map_erase k m'
      else if lt k k' then m else m'
  end.

(** Strictly increasing keys. *)
Fixpoint map_sorted (m : list (K * V)) : Prop :=
  match m with
  | [] => True
  | (k, _) :: m' => Forall (fun e => lt k (fst e) = true) m' /\ map_sorted m'
  end.

Context `{!StdOrder lt}.

Lemma map_find_lt k m :
  Forall (fun e => lt k (fst e) = true) m -> map_find k m = None.
Proof.
  destruct 1 as [|[k' v] m H _]; simpl in *; [done|].
  by rewrite (lt_asym lt _ _ H), H.
Qed.

Lemma Forall_lt_trans k k' (m : list (K * V)) :
  lt k k' = true -> Forall (fun e => lt k' (fst e) = true) m ->
  Forall (fun e => lt k (fst e) = true) m.
Proof. intros H. apply Forall_impl. intros e He. by eapply lt_trans. Qed.

Lemma map_find_update_eq k d f m :
  map_sorted m ->
  map_find k (map_update k d f m) = Some (f (default d (map_find k m))).
Proof.
  induction m as [|[k' v'] m IH]; simpl; intros Hs.
  - by rewrite lt_irrefl.
  - destruct (lt k' k) eqn:E1; simpl.
    + rewrite E1. apply IH, Hs.
    + destruct (lt k k') eqn:E2; simpl; [by rewrite lt_irrefl|].
      by rewrite E1, E2.
Qed.

Lemma map_find_update_ne k j d f m :
  map_sorted m -> j <> k -> map_find j (map_update k d f m) = map_find j m.
Proof.
  induction m as [|[k' v'] m IH]; simpl; intros Hs Hne.
  - destruct (lt k j) eqn:E1; [done|]. destruct (lt j k) eqn:E2; [done|].
    destruct Hne. by apply (lt_total (lt := lt)).
  - destruct (lt k' k) eqn:E1; simpl.
    + destruct (lt k' j); [apply IH; [apply Hs | done] | done].
    + destruct (lt k k') eqn:E2; simpl.
      2: { destruct (lt k' j) eqn:E3; [done|]. destruct (lt j k') eqn:E4; [done|].
           destruct Hne. rewrite (lt_total (lt := lt) k k' E2 E1).
           by apply (lt_total (lt := lt)). }
      destruct (lt k j) eqn:E3; [done|].
      destruct (lt j k) eqn:E4.
      * rewrite (lt_trans (lt := lt) j k k' E4 E2).
        by rewrite (lt_asym lt _ _ (lt_trans (lt := lt) j k k' E4 E2)).
      * destruct Hne. by apply (lt_total (lt := lt)).
Qed.

Lemma map_find_insert_eq k v m :
  map_sorted m ->
  map_find k (map_insert k v m) = Some (default v (map_find k m)).
Proof.
  induction m as [|[k' v'] m IH]; simpl; intros Hs.
  - by rewrite lt_irrefl.
  - destruct (lt k' k) eqn:E1; simpl.
    + rewrite E1. apply IH, Hs.
    + destruct (lt k k') eqn:E2; simpl; [by rewrite lt_irrefl|].
      by rewrite E1, E2.
Qed.

Lemma map_find_insert_ne k j v m :
  map_sorted m -> j <> k -> map_find j (map_insert k v m) = map_find j m.
Proof.
  induction m as [|[k' v'] m IH]; simpl; intros Hs Hne.
  - destruct (lt k j) eqn:E1; [done|]. destruct (lt j k) eqn:E2; [done|].
    destruct Hne. by apply (lt_total (lt := lt)).
  - destruct (lt k' k) eqn:E1; simpl.
    + destruct (lt k' j); [apply IH; [apply Hs | done] | done].
    + destruct (lt k k') eqn:E2; simpl; [|done].
      destruct (lt k j) eqn:E3; [done|].
      destruct (lt j k) eqn:E4.
      * rewrite (lt_trans (lt := lt) j k k' E4 E2).
        by rewrite (lt_asym lt _ _ (lt_trans (lt := lt) j k k' E4 E2)).
      * destruct Hne. by apply (lt_total (lt := lt)).
Qed.

Lemma map_find_erase_eq k m : map_sorted m -> map_find k (map_erase k m) = None.
Proof.
  induction m as [|[k' v'] m IH]; simpl; [done|]. intros [Hf Hs].
  destruct (lt k' k) eqn:E1; simpl.
  - rewrite E1. by apply IH.
  - destruct (lt k k') eqn:E2; simpl; [by rewrite E1, E2|].
    rewrite (lt_total (lt := lt) k k' E2 E1) in *. by apply map_find_lt.
Qed.

Lemma map_find_erase_ne k j m :
  map_sorted m -> j <> k -> map_find j (map_erase k m) = map_find j m.
Proof.
  induction m as [|[k' v'] m IH]; simpl; [done|]. intros [Hf Hs] Hne.
  destruct (lt k' k) eqn:E1; simpl.
  - destruct (lt k' j); [by apply IH | done].
  - destruct (lt k k') eqn:E2; simpl; [done|].
    assert (k = k') as <- by (by apply (lt_total (lt := lt))).
    destruct (lt k j) eqn:E3; [done|].
    destruct (lt j k) eqn:E4.
    + apply map_find_lt. by eapply Forall_lt_trans.
    + destruct Hne. by apply (lt_total (lt := lt)).
Qed.

Lemma map_insert_Forall (P : K -> Prop) k v m :
  P k -> Forall (fun e => P (fst e)) m -> Forall (fun e => P (fst e)) (map_insert k v m).
Proof.
  intros Hk. induction 1 as [|[k' v'] m Hh Hm IH]; simpl.
  - by repeat constructor.
  - destruct (lt k' k); [by constructor|]. destruct (lt k k'); by repeat constructor.
Qed.

Lemma map_update_Forall (P : K -> Prop) k d f m :
  P k -> Forall (fun e => P (fst e)) m -> Forall (fun e => P (fst e)) (map_update k d f m).
Proof.
  intros Hk. induction 1 as [|[k' v'] m Hh Hm IH]; simpl.
  - by repeat constructor.
  - destruct (lt k' k); [by constructor|]. destruct (lt k k'); by repeat constructor.
Qed.

Lemma map_erase_Forall (P : K -> Prop) k m :
  Forall (fun e => P (fst e)) m -> Forall (fun e => P (fst e)) (map_erase k m).
Proof.
  induction 1 as [|[k' v'] m Hh Hm IH]; simpl; [constructor|].
  destruct (lt k' k); [by constructor|]. destruct (lt k k'); [by constructor | done].
Qed.

Lemma map_insert_sorted k v m : map_sorted m -> map_sorted (map_insert k v m).
Proof.
  induction m as [|[k' v'] m IH]; simpl; [done|]. intros [Hf Hs].
  destruct (lt k' k) eqn:E1; simpl.
  - split; [|by apply IH]. by apply (map_insert_Forall (fun j => lt k' j = true)).
  - destruct (lt k k') eqn:E2; simpl; [|done]. split; [|done].
    constructor; [done|]. by eapply Forall_lt_trans.
Qed.

Lemma map_update_sorted k d f m : map_sorted m -> map_sorted (map_update k d f m).
Proof.
  induction m as [|[k' v'] m IH]; simpl; [done|]. intros [Hf Hs].
  destruct (lt k' k) eqn:E1; simpl.
  - split; [|by apply IH]. by apply (map_update_Forall (fun j => lt k' j = true)).
  - destruct (lt k k') eqn:E2; simpl; [|done]. split; [|done].
    constructor; [done|]. by eapply Forall_lt_trans.
Qed.

Lemma map_erase_sorted k m : map_sorted m -> map_sorted (map_erase k m).
Proof.
  induction m as [|[k' v'] m IH]; simpl; [done|]. intros [Hf Hs].
  destruct (lt k' k) eqn:E1; simpl.
  - split; [|by apply IH]. by apply (map_erase_Forall (fun j => lt k' j = true)).
  - destruct (lt k k'); simpl; [|done]. done.
Qed.

(** Inserting past the last key appends. *)
Lemma map_insert_last k v m :
  Forall (fun e => lt (fst e) k = true) m -> map_insert k v m = m ++ [(k, v)].
Proof.
  induction 1 as [|[k' v'] m Hh Hm IH]; simpl in *; [done|].
  by rewrite Hh, IH.
Qed.

Lemma map_sorted_app m1 m2 :
  map_sorted (m1 ++ m2) ->
  Forall (fun e => Forall (fun e' => lt (fst e) (fst e') = true) m2) m1 /\ map_sorted m2.
Proof.
  induction m1 as [|[k v] m1 IH]; simpl; [by split; [constructor|]|].
  intros [Hf Hs]. apply IH in Hs as [H1 H2]. split; [|done].
  constructor; [|done]. simpl. by apply Forall_app in Hf as [_ ?].
Qed.

(** Reading a sorted sequence back with [insert] rebuilds it. *)
Lemma map_insert_rebuild m2 m1 :
  map_sorted (m1 ++ m2) ->
  fold_left (fun acc e => map_insert (fst e) (snd e) acc) m2 m1 = m1 ++ m2.
Proof.
  revert m1; induction m2 as [|[k v] m2 IH]; intros m1 Hs; simpl.
  - by rewrite app_nil_r.
  - apply map_sorted_app in Hs as Ha. destruct Ha as [Ha _].
    rewrite map_insert_last.
    + rewrite IH by (by rewrite <- app_assoc). by rewrite <- app_assoc.
    + eapply Forall_impl; [|exact Ha]. intros e He. by apply Forall_inv in He.
Qed.
End StdMap.

(** ** std::set: the keys of a map to unit *)

Section StdSet.
Context {K : Type} (lt : K -> K -> bool).

Definition to_map (s : list K) : list (K * unit) := (fun k => (k, tt)) <$> s.

Fixpoint set_insert (k : K) (s : list K) : list K :=
  match s with
  | [] => [k]
  | k' :: s' =>
      if lt k' k then k' :: set_insert k s' else if lt k k' then k :: s else s
  end.

Fixpoint set_erase (k : K) (s : list K) : list K :=
  match s with
  | [] => []
  | k' :: s' =>
      if lt k' k then k' :: set_erase k s' else if lt k k' then s else s'
  end.

Fixpoint set_count (k : K) (s : list K) : bool :=
  match s with
  | [] => false
  | k' :: s' => if lt k' k then set_count k s' else negb (lt k k')
  end.

Definition set_sorted (s : list K) : Prop := map_sorted lt (to_map s).

Lemma to_map_insert k s : to_map (set_insert k s) = map_insert lt k tt (to_map s).
Proof.
  induction s as [|k' s IH]; simpl; [done|].
  destruct (lt k' k); simpl; [by rewrite <- IH|]. by destruct (lt k k').
Qed.

Lemma to_map_erase k s : to_map (set_erase k s) = map_erase lt k (to_map s).
Proof.
  induction s as [|k' s IH]; simpl; [done|].
  destruct (lt k' k); simpl; [by rewrite <- IH|]. by destruct (lt k k').
Qed.

Lemma set_count_find k s : set_count k s = bool_decide (is_Some (map_find lt k (to_map s))).
Proof.
  induction s as [|k' s IH]; simpl; [done|].
  destruct (lt k' k); simpl; [done|]. by destruct (lt k k').
Qed.

Lemma to_map_app s1 s2 : to_map (s1 ++ s2) = to_map s1 ++ to_map s2.
Proof. apply fmap_app. Qed.

Lemma to_map_inj s1 s2 : to_map s1 = to_map s2 -> s1 = s2.
Proof.
  revert s2; induction s1 as [|k s1 IH]; intros [|k2 s2]; simpl; [done..|].
  intros [= -> H]. f_equal. by apply IH.
Qed.

Context `{!StdOrder lt}.

Lemma set_insert_sorted k s : set_sorted s -> set_sorted (set_insert k s).
Proof. unfold set_sorted. rewrite to_map_insert. by apply map_insert_sorted. Qed.

Lemma set_erase_sorted k s : set_sorted s -> set_sorted (set_erase k s).
Proof. unfold set_sorted. rewrite to_map_erase. by apply map_erase_sorted. Qed.

Lemma set_count_insert_eq k s : set_sorted s -> set_count k (set_insert k s) = true.
Proof.
  intros Hs. rewrite set_count_find, to_map_insert, map_find_insert_eq by done.
  by rewrite bool_decide_eq_true_2.
Qed.

Lemma set_count_insert_ne k j s :
  set_sorted s -> j <> k -> set_count j (set_insert k s) = set_count j s.
Proof.
  intros Hs Hne. rewrite !set_count_find, to_map_insert.
  by rewrite map_find_insert_ne.
Qed.

Lemma set_count_erase_eq k s : set_sorted s -> set_count k (set_erase k s) = false.
Proof.
  intros Hs. rewrite set_count_find, to_map_erase, map_find_erase_eq by done.
  by rewrite bool_decide_eq_false_2 by (by intros [? [=]]).
Qed.

Lemma set_count_erase_ne k j s :
  set_sorted s -> j <> k -> set_count j (set_erase k s) = set_count j s.
Proof.
  intros Hs Hne. rewrite !set_count_find, to_map_erase.
  by rewrite map_find_erase_ne.
Qed.

Lemma set_insert_rebuild s2 s1 :
  set_sorted (s1 ++ s2) -> fold_left (fun acc k => set_insert k acc) s2 s1 = s1 ++ s2.
Proof.
  intros Hs. apply to_map_inj. rewrite to_map_app.
  unfold set_sorted in Hs. rewrite to_map_app in Hs.
  rewrite <- (map_insert_rebuild lt (to_map s2) (to_map s1) Hs).
  clear Hs. revert s1; induction s2 as [|k s2 IH]; intros s1; simpl; [done|].
  by rewrite IH, to_map_insert.
Qed.
End StdSet.

#[export] Hint Resolve map_insert_sorted map_update_sorted map_erase_sorted
  set_insert_sorted set_erase_sorted : megatron.
