(* ===== verification/Refcount.v ===== *)
(** Counted references: [Refcountable] and [REF_getter] of corelib/REF.h.

    Objects are in a heap with their counts and the handles that are their
    members; other handles are variables.  Releasing the last handle of an object
    destroys its members, the last one first, and then frees it; a use of a freed
    object is undefined.  The count is atomic, so the operations of a thread are
    atomic steps on the heap. *)

From Stdlib Require Import ZArith Lia.
From stdpp Require Import base gmap strings numbers list.
From S2P Require Import Prelude.
Open Scope Z_scope.

(** [___ptr]: 0 is NULL. *)
Abbreviation ref := Z (only parsing).

Record Obj : Type := mkObj { Ref_Count : Z; members : list ref }.

Record store : Type := mkStore { objects : gmap Z Obj; next_obj : Z; vars : gmap nat ref }.

Definition store_new : store := mkStore ∅ 1 ∅.

Definition set_objects (h : gmap Z Obj) (s : store) : store := mkStore h (next_obj s) (vars s).
Definition set_vars (v : gmap nat ref) (s : store) : store := mkStore (objects s) (next_obj s) v.

Definition freed : exn := UB "use of a freed object".

(** Where a handle is. *)
Inductive loc : Type := LVar (x : nat) | LField (p : Z) (i : nat).

#[export] Instance loc_eq_dec : EqDecision loc.
Proof. solve_decision. Defined.

Definition read_loc (s : store) (l : loc) : res ref :=
  match l with
  | LVar x => match vars s !! x with Some p => Ok p | None => Throw (CommonError "undeclared") end
  | LField p i => match objects s !! p with
                  | Some o => match members o !! i with Some q => Ok q | None => Throw (CommonError "no such member") end
                  | None => Throw freed
                  end
  end.

Definition write_loc (s : store) (l : loc) (q : ref) : res store :=
  match l with
  | LVar x => Ok (set_vars (<[x := q]> (vars s)) s)
  | LField p i => match objects s !! p with
                  | Some o => Ok (set_objects (<[p := mkObj (Ref_Count o) (<[i := q]> (members o))]> (objects s)) s)
                  | None => Throw freed
                  end
  end.

Definition increfcount (s : store) (p : ref) : res store :=
  if p =? 0 then Ok s
  else match objects s !! p with
       | Some o => Ok (set_objects (<[p := mkObj (Ref_Count o + 1) (members o)]> (objects s)) s)
       | None => Throw freed
       end.

(** What is left of running destructors: a handle to release, an object to free
    once its members are gone. *)
Inductive work : Type := Drop (p : ref) | Free (p : Z).

(** [decrefcount]: the object whose count was 1 is deleted, which destroys its
    members in reverse order.  [fuel] bounds the number of steps. *)
Fixpoint run_work (fuel : nat) (st : list work) (s : store) : res store :=
  match st with
  | [] => Ok s
  | w :: st' =>
      match fuel with
      | O => Throw OutOfFuel
      | S f =>
          match w with
          | Free p => run_work f st' (set_objects (delete p (objects s)) s)
          | Drop p =>
              if p =? 0 then run_work f st' s
              else match objects s !! p with
                   | None => Throw freed
                   | Some o =>
                       let s' := set_objects (<[p := mkObj (Ref_Count o - 1) (members o)]> (objects s)) s in
                       if Ref_Count o =? 1 then run_work f ((Drop <$> rev (members o)) ++ Free p :: st') s'
                       else run_work f st' s'
                   end
          end
      end
  end.

(** The members of the objects that are not being destroyed. *)
Definition live (o : Obj) : list ref := if Ref_Count o =? 0 then [] else members o.

Definition member_handles (h : gmap Z Obj) : list ref := mjoin (live <$> (map_to_list h).*2).

(** A deletion takes a step for each member and one to free the object. *)
Definition work_bound (s : store) : nat := (length (member_handles (objects s)) + 2 * base.size (objects s) + 1)%nat.

Definition decrefcount (s : store) (p : ref) : res store := run_work (work_bound s) [Drop p] s.

(** [operator=]: the handle that is assigned is cleared first, nothing reads it
    before it is written. *)
Definition assign (l r : loc) (s : store) : res store :=
  if decide (l = r) then Ok s
  else
    p ← read_loc s r;
    s1 ← increfcount s p;
    q ← read_loc s1 l;
    s2 ← write_loc s1 l 0;
    s3 ← decrefcount s2 q;
    p' ← read_loc s3 r;
    write_loc s3 l p'.

(** ** Programs *)

Inductive expr : Type := EVar (x : nat) | EField (x i : nat).

Inductive op : Type :=
| NewVar (x : nat)                 (* REF_getter<T> x; *)
| MakeNew (x : nat) (k : nat)       (* REF_getter<T> x(new T); T has k members *)
| CopyNew (x : nat) (e : expr)      (* REF_getter<T> x(e); *)
| Assign (l r : expr)               (* l = r; *)
| Leave (x : nat).                  (* ~REF_getter() *)

(** [x->member]: a null pointer is not dereferenced. *)
Definition eval (s : store) (e : expr) : res loc :=
  match e with
  | EVar x => match vars s !! x with Some _ => Ok (LVar x) | None => Throw (CommonError "undeclared") end
  | EField x i =>
      p ← read_loc s (LVar x);
      if p =? 0 then Throw (CommonError "null")
      else match objects s !! p with
           | None => Throw freed
           | Some o => if (i <? length (members o))%nat then Ok (LField p i) else Throw (CommonError "no such member")
           end
  end.

Definition declare (s : store) (x : nat) (p : ref) : res store :=
  match vars s !! x with
  | Some _ => Throw (CommonError "declared twice")
  | None => Ok (set_vars (<[x := p]> (vars s)) s)
  end.

Definition step (s : store) (o : op) : res store :=
  match o with
  | NewVar x => declare s x 0
  | MakeNew x k =>
      let p := next_obj s in
      let s1 := mkStore (<[p := mkObj 0 (replicate k 0)]> (objects s)) (p + 1) (vars s) in
      s2 ← declare s1 x p; increfcount s2 p
  | CopyNew x e =>
      l ← eval s e; p ← read_loc s l; s1 ← declare s x p; increfcount s1 p
  | Assign e1 e2 => l ← eval s e1; r ← eval s e2; assign l r s
  | Leave x =>
      p ← read_loc s (LVar x);
      decrefcount (set_vars (delete x (vars s)) s) p
  end.

Definition run_ops (s : store) (ops : list op) : res store := foldM step s ops.

(** ** The invariant *)

Definition occ (l : list ref) (p : Z) : nat := count_occ Z.eq_dec l p.

Definition handles (s : store) : list ref := (map_to_list (vars s)).*2 ++ member_handles (objects s).

Definition drops (st : list work) : list ref := omap (fun w => match w with Drop p => Some p | Free _ => None end) st.
Definition frees (st : list work) : list Z := omap (fun w => match w with Free p => Some p | Drop _ => None end) st.

(** [ex] are handles that are neither in a variable nor in a member, [fr] the
    objects whose members are being destroyed. *)
Record inv (s : store) (ex : list ref) (fr : list Z) : Prop := {
  i_count : forall p o, objects s !! p = Some o -> Ref_Count o = Z.of_nat (occ (handles s ++ ex) p);
  i_live : forall p, p <> 0 -> p ∈ handles s ++ ex -> is_Some (objects s !! p);
  i_free : forall p, p ∈ fr <-> exists o, objects s !! p = Some o /\ Ref_Count o = 0;
  i_nodup : NoDup fr;
  i_next : forall p, is_Some (objects s !! p) -> 0 < p < next_obj s;
  i_next_pos : 0 < next_obj s;
}.

Lemma occ_perm l k p : l ≡ₚ k -> occ l p = occ k p.
Proof. intros H. unfold occ. by apply Permutation_count_occ. Qed.

#[export] Instance occ_proper : Proper (Permutation ==> eq ==> eq) occ.
Proof. intros l k H p ? <-. by apply occ_perm. Qed.

Lemma occ_cons_eq p l : occ (p :: l) p = S (occ l p).
Proof. unfold occ. by apply count_occ_cons_eq. Qed.

Lemma occ_cons_ne p q l : q <> p -> occ (q :: l) p = occ l p.
Proof. intros H. unfold occ. by apply count_occ_cons_neq. Qed.

Lemma occ_elem l p : (0 < occ l p)%nat <-> p ∈ l.
Proof. unfold occ. rewrite list_elem_of_In. symmetry. apply count_occ_In. Qed.

(** The handles may be counted in any order. *)
Lemma inv_perm s ex ex' fr : ex ≡ₚ ex' -> inv s ex fr -> inv s ex' fr.
Proof.
  intros H [H1 H2 H3 H4 H5 H6]. split; try done.
  - intros p o Ho. rewrite (H1 p o Ho). f_equal. apply occ_perm. by rewrite H.
  - intros p Hp Hin. apply H2; [done|]. by rewrite H.
Qed.

(** *** Members of the heap *)

Lemma member_handles_delete h p o : h !! p = Some o -> member_handles h ≡ₚ live o ++ member_handles (delete p h).
Proof.
  intros H. unfold member_handles. rewrite <- (map_to_list_delete h p o H) at 1. done.
Qed.

Lemma member_handles_insert h p o : h !! p = None -> member_handles (<[p := o]> h) ≡ₚ live o ++ member_handles h.
Proof. intros H. unfold member_handles. rewrite (map_to_list_insert h p o H). done. Qed.

Lemma member_handles_update h p o o' :
  h !! p = Some o -> live o ++ member_handles (<[p := o']> h) ≡ₚ live o' ++ member_handles h.
Proof.
  intros H. rewrite <- insert_delete_eq. rewrite member_handles_insert by apply lookup_delete_eq.
  rewrite (member_handles_delete h p o H). solve_Permutation.
Qed.

Lemma member_handles_same h p o o' : h !! p = Some o -> live o = live o' -> member_handles (<[p := o']> h) ≡ₚ member_handles h.
Proof. intros H E. apply (Permutation_app_inv_l (live o)). rewrite (member_handles_update h p o o' H). by rewrite E. Qed.

Lemma objects_update_size (h : gmap Z Obj) p o o' : h !! p = Some o -> base.size (<[p := o']> h) = base.size h.
Proof. intros H. apply map_size_insert_Some. by eexists. Qed.

(** *** Counting *)

(** An object gets a new count, the handles change accordingly. *)
Lemma inv_update s s' p o o' ex ex' fr fr' :
  inv s ex fr -> objects s !! p = Some o -> s' = set_objects (<[p := o']> (objects s)) s ->
  (forall q, q <> p -> occ (handles s' ++ ex') q = occ (handles s ++ ex) q) ->
  Ref_Count o' = Z.of_nat (occ (handles s' ++ ex') p) ->
  (forall q, q ∈ fr' <-> (q <> p /\ q ∈ fr) \/ (q = p /\ Ref_Count o' = 0)) -> NoDup fr' ->
  inv s' ex' fr'.
Proof.
  intros [H1 H2 H3 H4 H5 H6] Ho Hs' Hne Heq Hfr Hnd. assert (objects s' = <[p := o']> (objects s)) as Hob by (by subst s').
  assert (next_obj s' = next_obj s) as Hnx by (by subst s'). split; try (by subst s').
  - intros q oq. rewrite Hob. destruct (decide (q = p)) as [->|Hq].
    + rewrite lookup_insert_eq. intros [= <-]. exact Heq.
    + rewrite lookup_insert_ne by done. intros Hoq. rewrite (H1 q oq Hoq). f_equal. symmetry. by apply Hne.
  - intros q Hq Hin. rewrite Hob. destruct (decide (q = p)) as [->|Hqp]; [rewrite lookup_insert_eq; by eexists|].
    rewrite lookup_insert_ne by done. apply H2; [done|]. apply occ_elem. rewrite <- Hne by done. by apply occ_elem.
  - intros q. rewrite Hfr, H3. rewrite Hob. destruct (decide (q = p)) as [->|Hq].
    + rewrite lookup_insert_eq. split; [intros [[]|[_ E]]; [done|by eexists]|intros (? & [= <-] & E); by right].
    + rewrite lookup_insert_ne by done. split; [intros [[_ E]|[]]; done|]. intros E. by left.
  - intros q. rewrite Hob, Hnx. destruct (decide (q = p)) as [->|Hq].
    + intros _. apply H5. by eexists.
    + rewrite lookup_insert_ne by done. apply H5.
Qed.

Lemma frees_not_zero s ex fr p o : inv s ex fr -> objects s !! p = Some o -> Ref_Count o <> 0 -> p ∉ fr.
Proof. intros Hi Ho Hc Hin. apply (i_free _ _ _ Hi) in Hin as (o' & Ho' & E). congruence. Qed.

Lemma handles_set_objects s h : handles (set_objects h s) = (map_to_list (vars s)).*2 ++ member_handles h.
Proof. done. Qed.

(** Null handles are not counted. *)
Lemma inv_null s ex fr : inv s (0 :: ex) fr <-> inv s ex fr.
Proof.
  assert (forall q o, inv s (0 :: ex) fr \/ inv s ex fr -> objects s !! q = Some o -> occ (handles s ++ 0 :: ex) q = occ (handles s ++ ex) q) as Hocc.
  { intros q o Hi Hq. assert (0 < q) by (destruct Hi as [Hi|Hi]; apply (i_next _ _ _ Hi); by eexists).
    rewrite <- Permutation_middle. apply occ_cons_ne. lia. }
  split; intros Hi; pose proof Hi as [H1 H2 H3 H4 H5 H6]; split; try done.
  - intros q o Hq. rewrite (H1 q o Hq). f_equal. eapply Hocc; [by left|done].
  - intros q Hq Hin. apply H2; [done|]. rewrite <- Permutation_middle. by right.
  - intros q o Hq. rewrite (H1 q o Hq). f_equal. symmetry. eapply Hocc; [by right|done].
  - intros q Hq. rewrite <- Permutation_middle, elem_of_cons. intros [->|Hin]; [done|]. by apply H2.
Qed.

(** A handle is taken on an object that has one. *)
Lemma incref_ok s p ex fr :
  inv s ex fr -> p = 0 \/ (exists o, objects s !! p = Some o /\ Ref_Count o <> 0) ->
  exists s', increfcount s p = Ok s' /\ inv s' (p :: ex) fr /\ vars s' = vars s
             /\ (forall q, members <$> objects s' !! q = members <$> objects s !! q).
Proof.
  intros Hi Hp. unfold increfcount. destruct (Z.eqb_spec p 0) as [->|Hne].
  { exists s. split_and!; try done. by apply inv_null. }
  destruct Hp as [->|(o & Ho & Hc)]; [done|]. rewrite Ho. eexists. split; [reflexivity|].
  assert (0 <= Ref_Count o) as Hpos by (rewrite (i_count _ _ _ Hi p o Ho); lia).
  assert (handles (set_objects (<[p := mkObj (Ref_Count o + 1) (members o)]> (objects s)) s) ≡ₚ handles s) as Hh.
  { rewrite handles_set_objects. unfold handles. f_equiv. apply (member_handles_same _ p o); [done|].
    unfold live. cbn. destruct (Z.eqb_spec (Ref_Count o) 0), (Z.eqb_spec (Ref_Count o + 1) 0); done || lia. }
  split_and!; [|done|].
  - eapply inv_update; [exact Hi|exact Ho|reflexivity|..]; cbn [Ref_Count].
    + intros q Hq. rewrite Hh, <- Permutation_middle. by apply occ_cons_ne.
    + rewrite Hh, <- Permutation_middle, occ_cons_eq. rewrite (i_count _ _ _ Hi p o Ho). lia.
    + intros q. pose proof (frees_not_zero _ _ _ p o Hi Ho Hc). split.
      * intros Hin. left. split; [|done]. intros ->. done.
      * intros [[_ ?]|[_ ?]]; [done|lia].
    + apply (i_nodup _ _ _ Hi).
  - intros q. cbn. destruct (decide (q = p)) as [->|Hq]; [by rewrite lookup_insert_eq, Ho|by rewrite lookup_insert_ne].
Qed.

Lemma member_kept (h : gmap Z Obj) p o c q : h !! p = Some o -> members <$> <[p := mkObj c (members o)]> h !! q = members <$> h !! q.
Proof. intros Ho. destruct (decide (q = p)) as [->|Hq]; [by rewrite lookup_insert_eq, Ho|by rewrite lookup_insert_ne]. Qed.

(** A handle of many is dropped. *)
Lemma drop_many s p o ex fr :
  inv s (p :: ex) fr -> objects s !! p = Some o -> Ref_Count o <> 1 ->
  inv (set_objects (<[p := mkObj (Ref_Count o - 1) (members o)]> (objects s)) s) ex fr.
Proof.
  intros Hi Ho Hc. pose proof (i_count _ _ _ Hi p o Ho) as Hcnt. rewrite <- Permutation_middle, occ_cons_eq in Hcnt.
  assert (handles (set_objects (<[p := mkObj (Ref_Count o - 1) (members o)]> (objects s)) s) ≡ₚ handles s) as Hh.
  { rewrite handles_set_objects. unfold handles. f_equiv. apply (member_handles_same _ p o); [done|].
    unfold live. cbn. destruct (Z.eqb_spec (Ref_Count o) 0), (Z.eqb_spec (Ref_Count o - 1) 0); done || lia. }
  eapply inv_update; [exact Hi|exact Ho|reflexivity|..]; cbn [Ref_Count].
  - intros q Hq. rewrite Hh, <- Permutation_middle. symmetry. by apply occ_cons_ne.
  - rewrite Hh. lia.
  - intros q. pose proof (frees_not_zero _ _ _ p o Hi Ho ltac:(lia)). split.
    + intros Hin. left. split; [|done]. intros ->. done.
    + intros [[_ ?]|[_ ?]]; [done|lia].
  - apply (i_nodup _ _ _ Hi).
Qed.

(** The last handle is dropped: the members become handles to drop. *)
Lemma drop_last s p o ex fr :
  inv s (p :: ex) fr -> objects s !! p = Some o -> Ref_Count o = 1 ->
  inv (set_objects (<[p := mkObj 0 (members o)]> (objects s)) s) (rev (members o) ++ ex) (p :: fr)
  /\ member_handles (objects s) ≡ₚ members o ++ member_handles (<[p := mkObj 0 (members o)]> (objects s)).
Proof.
  intros Hi Ho Hc. pose proof (i_count _ _ _ Hi p o Ho) as Hcnt. rewrite <- Permutation_middle, occ_cons_eq in Hcnt.
  pose proof (member_handles_update (objects s) p o (mkObj 0 (members o)) Ho) as Hu. unfold live in Hu. rewrite Hc in Hu. cbn in Hu.
  split; [|by rewrite Hu].
  assert (handles (set_objects (<[p := mkObj 0 (members o)]> (objects s)) s) ++ rev (members o) ++ ex ≡ₚ handles s ++ ex) as Hh.
  { rewrite handles_set_objects. unfold handles. rewrite <- (Permutation_rev (members o)), <- Hu. solve_Permutation. }
  eapply inv_update; [exact Hi|exact Ho|reflexivity|..]; cbn [Ref_Count].
  - intros q Hq. rewrite Hh, <- Permutation_middle. symmetry. by apply occ_cons_ne.
  - rewrite Hh. lia.
  - intros q. pose proof (frees_not_zero _ _ _ p o Hi Ho ltac:(lia)). rewrite elem_of_cons. split.
    + intros [->|Hin]; [by right|]. left. split; [|done]. intros ->. done.
    + intros [[_ ?]|[-> _]]; auto.
  - constructor; [apply (frees_not_zero _ _ _ p o Hi Ho); lia|apply (i_nodup _ _ _ Hi)].
Qed.

(** An object whose members are gone is freed. *)
Lemma free_one s p ex fr :
  inv s ex (p :: fr) -> inv (set_objects (delete p (objects s)) s) ex fr /\ member_handles (delete p (objects s)) ≡ₚ member_handles (objects s)
                       /\ is_Some (objects s !! p).
Proof.
  intros [H1 H2 H3 H4 H5 H6]. destruct (proj1 (H3 p)) as (o & Ho & Hc); [by left|].
  assert (member_handles (delete p (objects s)) ≡ₚ member_handles (objects s)) as Hm.
  { rewrite (member_handles_delete _ p o Ho). unfold live. by rewrite Hc. }
  split_and!; [|done|by eexists].
  assert (handles (set_objects (delete p (objects s)) s) ≡ₚ handles s) as Hh by (rewrite handles_set_objects; unfold handles; by rewrite Hm).
  apply NoDup_cons in H4 as [Hp H4]. split; try done.
  - intros q oq. cbn. destruct (decide (q = p)) as [->|Hq]; [by rewrite lookup_delete_eq|]. rewrite lookup_delete_ne by done.
    intros Hoq. rewrite (H1 q oq Hoq). by rewrite Hh.
  - intros q Hq. rewrite Hh. intros Hin. cbn. destruct (decide (q = p)) as [->|Hqp].
    + apply occ_elem in Hin. rewrite (H1 p o Ho) in Hc. lia.
    + rewrite lookup_delete_ne by done. by apply H2.
  - intros q. cbn. destruct (decide (q = p)) as [->|Hq].
    + rewrite lookup_delete_eq. split; [done|by intros (? & ? & _)].
    + rewrite lookup_delete_ne by done. rewrite <- H3, elem_of_cons. split; [auto|by intros [?|?]].
  - intros q. cbn. destruct (decide (q = p)) as [->|Hq]; [rewrite lookup_delete_eq; by intros []|rewrite lookup_delete_ne by done; apply H5].
Qed.

(** The objects that are left have the members they had. *)
Definition kept (s s' : store) : Prop :=
  vars s' = vars s /\ next_obj s' = next_obj s
  /\ forall q o', objects s' !! q = Some o' -> exists o, objects s !! q = Some o /\ members o' = members o.

Lemma kept_refl s : kept s s.
Proof. split_and!; [done..|]. intros q o Ho. by exists o. Qed.

Lemma kept_trans s1 s2 s3 : kept s1 s2 -> kept s2 s3 -> kept s1 s3.
Proof.
  intros (V1 & N1 & M1) (V2 & N2 & M2). split_and!; [congruence..|]. intros q o3 H3.
  destruct (M2 q o3 H3) as (o2 & H2 & E2). destruct (M1 q o2 H2) as (o1 & H1 & E1). exists o1. split; [done|congruence].
Qed.

Lemma kept_count s p o c : objects s !! p = Some o -> kept s (set_objects (<[p := mkObj c (members o)]> (objects s)) s).
Proof.
  intros Ho. split_and!; [done..|]. intros q o'. cbn. destruct (decide (q = p)) as [->|Hq].
  - rewrite lookup_insert_eq. intros [= <-]. by exists o.
  - rewrite lookup_insert_ne by done. intros H. by exists o'.
Qed.

Lemma kept_delete s p : kept s (set_objects (delete p (objects s)) s).
Proof.
  split_and!; [done..|]. intros q o' H. cbn in H. apply lookup_delete_Some in H as [_ H]. by exists o'.
Qed.

Lemma drops_app a b : drops (a ++ b) = drops a ++ drops b.
Proof. apply omap_app. Qed.
Lemma frees_app a b : frees (a ++ b) = frees a ++ frees b.
Proof. apply omap_app. Qed.
Lemma drops_Drop l : drops (Drop <$> l) = l.
Proof. induction l as [|x l IH]; [done|]. unfold drops in *. cbn. by rewrite IH. Qed.
Lemma frees_Drop l : frees (Drop <$> l) = [].
Proof. induction l as [|x l IH]; [done|]. unfold frees in *. cbn. by rewrite IH. Qed.

Lemma frees_length st : (length (frees st) <= length st)%nat.
Proof. unfold frees. induction st as [|x l IH]; cbn; [lia|]. destruct x; cbn; lia. Qed.

(** Destruction ends, uses no freed object and leaves the counts right. *)
Lemma run_work_ok fuel : forall st s ex,
  inv s (drops st ++ ex) (frees st) ->
  (length st + length (member_handles (objects s)) + 2 * base.size (objects s) <= fuel + length (frees st))%nat ->
  exists s', run_work fuel st s = Ok s' /\ inv s' ex [] /\ kept s s' /\ (forall p, p ∈ frees st -> objects s' !! p = None).
Proof.
  induction fuel as [|fuel IH]; intros [|w st] s ex Hi Hm; cbn [run_work].
  - exists s. split_and!; [done..|apply kept_refl|by intros p Hp%not_elem_of_nil].
  - exfalso. pose proof (frees_length st) as Hlen.
    destruct w as [p|p]; [change (frees (Drop p :: st)) with (frees st) in Hm; cbn [length] in Hm; lia|].
    change (frees (Free p :: st)) with (p :: frees st) in *. cbn [length] in Hm.
    destruct (free_one s p _ _ Hi) as (_ & _ & [o Ho]).
    assert (0 < base.size (objects s))%nat; [|lia]. apply Nat.neq_0_lt_0. rewrite map_size_non_empty_iff. intros E. rewrite E in Ho. done.
  - exists s. split_and!; [done..|apply kept_refl|by intros p Hp%not_elem_of_nil].
  - destruct w as [p|p].
    + change (frees (Drop p :: st)) with (frees st) in *. change (drops (Drop p :: st) ++ ex) with (p :: drops st ++ ex) in Hi. cbn [length] in Hm.
      destruct (Z.eqb_spec p 0) as [->|Hne].
      { apply IH; [|lia]. by apply inv_null. }
      destruct (i_live _ _ _ Hi p Hne) as [o Ho]; [rewrite <- Permutation_middle; by left|]. rewrite Ho.
      destruct (Z.eqb_spec (Ref_Count o) 1) as [Hc|Hc].
      * destruct (drop_last s p o _ _ Hi Ho Hc) as [Hi' Hmem]. rewrite Hc. cbn [Z.sub Z.opp Z.add Z.pos_sub].
        destruct (IH ((Drop <$> rev (members o)) ++ Free p :: st) (set_objects (<[p := mkObj 0 (members o)]> (objects s)) s) ex)
          as (s' & E & Hi2 & Hk & Hf).
        -- rewrite drops_app, frees_app, drops_Drop, frees_Drop. change (drops (Free p :: st)) with (drops st).
           change (frees (Free p :: st)) with (p :: frees st). rewrite <- app_assoc. exact Hi'.
        -- rewrite frees_app, frees_Drop, length_app, length_fmap, length_rev. apply Permutation_length in Hmem. rewrite length_app in Hmem.
           cbn [objects set_objects]. rewrite (objects_update_size _ p o) by done. change (frees (Free p :: st)) with (p :: frees st). cbn [length app]. lia.
        -- exists s'. split_and!; [exact E|done| |]; [eapply kept_trans; [by apply (kept_count s p o 0)|done]|].
           intros q Hq. apply Hf. rewrite frees_app, frees_Drop. by right.
      * pose proof (drop_many s p o _ _ Hi Ho Hc) as Hi'.
        assert (length (member_handles (<[p := mkObj (Ref_Count o - 1) (members o)]> (objects s))) = length (member_handles (objects s))) as Hl.
        { apply Permutation_length, (member_handles_same _ p o); [done|]. pose proof (i_count _ _ _ Hi p o Ho) as Hcnt.
          rewrite <- Permutation_middle, occ_cons_eq in Hcnt. unfold live. cbn.
          destruct (Z.eqb_spec (Ref_Count o) 0), (Z.eqb_spec (Ref_Count o - 1) 0); done || lia. }
        destruct (IH st _ ex Hi') as (s' & E & Hi2 & Hk & Hf).
        { cbn [objects set_objects]. rewrite Hl, (objects_update_size _ p o) by done. lia. }
        exists s'. split_and!; [exact E|done| |done]. eapply kept_trans; [by apply (kept_count s p o)|done].
    + change (drops (Free p :: st)) with (drops st) in *. change (frees (Free p :: st)) with (p :: frees st) in *.
      destruct (free_one s p _ _ Hi) as (Hi' & Hmem & [o Ho]). cbn [length] in Hm.
      destruct (IH st _ ex Hi') as (s' & E & Hi2 & Hk & Hf).
      { apply Permutation_length in Hmem. cbn [objects set_objects]. rewrite Hmem. rewrite map_size_delete_Some by (by eexists).
        assert (base.size (objects s) <> 0)%nat; [|lia]. rewrite map_size_non_empty_iff. intros E. rewrite E in Ho. done. }
      exists s'. split_and!; [exact E|done|eapply kept_trans; [apply (kept_delete s p)|done]|].
      intros q. rewrite elem_of_cons. intros [->|Hq]; [|by apply Hf]. destruct (objects s' !! p) as [o'|] eqn:Eo; [|done].
      destruct Hk as (_ & _ & Hk). destruct (Hk p o' Eo) as (o2 & Ho2 & _). cbn in Ho2. by rewrite lookup_delete_eq in Ho2.
Qed.

Lemma decref_ok s p ex : inv s (p :: ex) [] -> exists s', decrefcount s p = Ok s' /\ inv s' ex [] /\ kept s s'.
Proof.
  intros Hi. destruct (run_work_ok (work_bound s) [Drop p] s ex Hi) as (s' & E & Hi' & Hk & _);
    [unfold work_bound; change (frees [Drop p]) with (@nil Z); cbn [length]; lia|].
  by exists s'.
Qed.

(** The object is freed with its last handle. *)
Lemma decref_last s p o ex :
  inv s (p :: ex) [] -> objects s !! p = Some o -> Ref_Count o = 1 ->
  exists s', decrefcount s p = Ok s' /\ objects s' !! p = None.
Proof.
  intros Hi Ho Hc. destruct (drop_last s p o ex [] Hi Ho Hc) as [Hi' Hm].
  unfold decrefcount. replace (work_bound s) with (S (work_bound s - 1)) by (unfold work_bound; lia). cbn [run_work].
  assert (0 < p) by (apply (i_next _ _ _ Hi); by eexists). destruct (Z.eqb_spec p 0); [lia|]. rewrite Ho, Hc. cbn [Z.eqb Z.sub Z.opp Z.add Z.pos_sub Pos.eqb].
  destruct (run_work_ok (work_bound s - 1) ((Drop <$> rev (members o)) ++ [Free p]) (set_objects (<[p := mkObj 0 (members o)]> (objects s)) s) ex)
    as (s' & E & _ & _ & Hf).
  - rewrite drops_app, frees_app, drops_Drop, frees_Drop. by rewrite app_nil_r.
  - rewrite frees_app, frees_Drop, length_app, length_fmap, length_rev. apply Permutation_length in Hm. rewrite length_app in Hm.
    cbn [objects set_objects]. rewrite (objects_update_size _ p o) by done. unfold work_bound. change (frees [Free p]) with [p]. cbn [length app]. lia.
  - exists s'. split; [exact E|]. apply Hf. rewrite frees_app. apply elem_of_app. right. by left.
Qed.

(** *** Handles in place *)

Lemma vals_insert (v : gmap nat ref) x q : v !! x = None -> (map_to_list (<[x := q]> v)).*2 ≡ₚ q :: (map_to_list v).*2.
Proof. intros H. by rewrite (map_to_list_insert v x q H). Qed.

Lemma vals_delete (v : gmap nat ref) x q : v !! x = Some q -> (map_to_list v).*2 ≡ₚ q :: (map_to_list (delete x v)).*2.
Proof. intros H. by rewrite <- (map_to_list_delete v x q H) at 1. Qed.

Lemma vals_update (v : gmap nat ref) x q q0 : v !! x = Some q0 -> q0 :: (map_to_list (<[x := q]> v)).*2 ≡ₚ q :: (map_to_list v).*2.
Proof.
  intros H. rewrite <- insert_delete_eq, vals_insert by apply lookup_delete_eq. rewrite (vals_delete v x q0 H). apply Permutation_swap.
Qed.

Lemma insert_perm (l : list ref) i q q0 : l !! i = Some q0 -> q0 :: <[i := q]> l ≡ₚ q :: l.
Proof.
  intros H. rewrite <- (take_drop_middle l i q0 H) at 2. rewrite insert_take_drop by (by eapply lookup_lt_Some).
  rewrite <- !Permutation_middle. apply Permutation_swap.
Qed.

Lemma var_handle s x p : vars s !! x = Some p -> p ∈ handles s.
Proof.
  intros H. unfold handles. apply elem_of_app. left. apply list_elem_of_fmap. exists (x, p). split; [done|]. by apply elem_of_map_to_list.
Qed.

Lemma inv_change s s' ex ex' :
  inv s ex [] -> next_obj s' = next_obj s -> handles s' ++ ex' ≡ₚ handles s ++ ex ->
  (forall p, Ref_Count <$> objects s' !! p = Ref_Count <$> objects s !! p) -> inv s' ex' [].
Proof.
  intros [H1 H2 H3 H4 H5 H6] Hn Hh Hob. split; rewrite ?Hn; try done.
  - intros p o Ho. pose proof (Hob p) as E. rewrite Ho in E. cbn in E. destruct (objects s !! p) as [o'|] eqn:Eo; [|done].
    injection E as E. rewrite E, (H1 p o' Eo). by rewrite Hh.
  - intros p Hp. rewrite Hh. intros Hin. destruct (H2 p Hp Hin) as [o' Eo]. pose proof (Hob p) as E. rewrite Eo in E.
    destruct (objects s' !! p); [by eexists|done].
  - intros p. rewrite H3. split; intros (o & Ho & Hc); pose proof (Hob p) as E; rewrite Ho in E; cbn in E.
    + destruct (objects s' !! p) as [o'|]; [|done]. injection E as E. exists o'. split; [done|congruence].
    + destruct (objects s !! p) as [o'|]; [|done]. injection E as E. exists o'. split; [done|congruence].
  - intros p [o Ho]. apply H5. pose proof (Hob p) as E. rewrite Ho in E. destruct (objects s !! p); [by eexists|done].
Qed.

Lemma no_zero s ex p o : inv s ex [] -> objects s !! p = Some o -> Ref_Count o <> 0.
Proof. intros Hi Ho E. apply (not_elem_of_nil p). apply (i_free _ _ _ Hi). by exists o. Qed.

Lemma write_ok s l q q0 ex :
  inv s (q :: ex) [] -> read_loc s l = Ok q0 ->
  exists s', write_loc s l q = Ok s' /\ inv s' (q0 :: ex) [] /\ read_loc s' l = Ok q
             /\ (forall l', l' <> l -> read_loc s' l' = read_loc s l')
             /\ (forall x, LVar x <> l -> vars s' !! x = vars s !! x) /\ (forall p, is_Some (objects s !! p) -> is_Some (objects s' !! p)).
Proof.
  intros Hi Hr. destruct l as [x|p i]; cbn in Hr.
  - destruct (vars s !! x) as [q0'|] eqn:Ex; [|done]. injection Hr as ->. eexists. split; [reflexivity|]. split_and!.
    + eapply inv_change; [exact Hi|done| |done]. unfold handles. cbn. rewrite <- !app_assoc. 
      pose proof (vals_update (vars s) x q q0 Ex) as Hv. rewrite <- !Permutation_middle. rewrite !app_comm_cons. by rewrite Hv.
    + cbn. by rewrite lookup_insert_eq.
    + intros [y|p i] Hne; [|done]. cbn. rewrite lookup_insert_ne; [done|]. congruence.
    + intros y Hne. cbn. rewrite lookup_insert_ne; [done|]. congruence.
    + done.
  - destruct (objects s !! p) as [o|] eqn:Eo; [|done]. destruct (members o !! i) as [q0'|] eqn:Ei; [|done]. injection Hr as ->.
    pose proof (no_zero _ _ _ _ Hi Eo) as Hnz. cbn [write_loc]. rewrite Eo. eexists. split; [reflexivity|]. split_and!.
    + eapply inv_change; [exact Hi|done| |].
      * unfold handles. cbn [vars objects set_objects]. pose proof (member_handles_update (objects s) p o (mkObj (Ref_Count o) (<[i := q]> (members o))) Eo) as Hu.
        unfold live in Hu. cbn [Ref_Count members] in Hu. destruct (Z.eqb_spec (Ref_Count o) 0); [done|].
        pose proof (insert_perm (members o) i q q0 Ei) as Hp.
        apply (Permutation_app_inv_l (members o)). rewrite <- !app_assoc, <- !Permutation_middle.
        transitivity (q0 :: (map_to_list (vars s)).*2 ++ (members o ++ member_handles (<[p := mkObj (Ref_Count o) (<[i := q]> (members o))]> (objects s))) ++ ex); [solve_Permutation|].
        rewrite Hu. transitivity ((map_to_list (vars s)).*2 ++ (q0 :: <[i := q]> (members o)) ++ member_handles (objects s) ++ ex); [solve_Permutation|].
        rewrite Hp. solve_Permutation.
      * intros p'. cbn. destruct (decide (p' = p)) as [->|Hne]; [by rewrite lookup_insert_eq, Eo|by rewrite lookup_insert_ne].
    + cbn. rewrite lookup_insert_eq. cbn. rewrite list_lookup_insert_eq by (by eapply lookup_lt_Some). done.
    + intros [y|p' i'] Hne; [done|]. cbn. destruct (decide (p' = p)) as [->|Hp'].
      * rewrite lookup_insert_eq, Eo. cbn. rewrite list_lookup_insert_ne; [done|]. congruence.
      * by rewrite lookup_insert_ne.
    + done.
    + intros p' Hp'. cbn. destruct (decide (p' = p)) as [->|Hne]; [rewrite lookup_insert_eq; by eexists|by rewrite lookup_insert_ne].
Qed.

(** A location stays while the object it is in has a handle in a variable other
    than [avoid]. *)
Definition anchored (s : store) (avoid l : loc) : Prop :=
  match l with LVar _ => True | LField p _ => p <> 0 /\ exists y, vars s !! y = Some p /\ LVar y <> avoid end.

Lemma read_kept s s' ex avoid l p :
  kept s s' -> inv s' ex [] -> anchored s avoid l -> read_loc s l = Ok p -> read_loc s' l = Ok p.
Proof.
  intros (Hv & _ & Hm) Hi Ha Hr. destruct l as [x|a i]; cbn in *; [by rewrite Hv|]. destruct Ha as (Hne & y & Hy & _).
  destruct (i_live _ _ _ Hi a Hne) as [o' Ho']; [apply elem_of_app; left; eapply var_handle; by rewrite Hv|].
  destruct (Hm a o' Ho') as (o & Ho & E). rewrite Ho in Hr. by rewrite Ho', E.
Qed.

Lemma anchored_same s s' avoid l :
  (forall x, LVar x <> avoid -> vars s' !! x = vars s !! x) -> anchored s avoid l -> anchored s' avoid l.
Proof. intros Hv. destruct l as [x|a i]; [done|]. intros (Hne & y & Hy & Hav). split; [done|]. exists y. by rewrite Hv. Qed.

Lemma handle_alive s ex p : inv s ex [] -> p ∈ handles s ++ ex -> p = 0 \/ (exists o, objects s !! p = Some o /\ Ref_Count o <> 0).
Proof.
  intros Hi Hin. destruct (decide (p = 0)) as [|Hne]; [by left|]. right. destruct (i_live _ _ _ Hi p Hne Hin) as [o Ho].
  exists o. split; [done|]. by eapply no_zero.
Qed.

Lemma member_elem (h : gmap Z Obj) p o q : h !! p = Some o -> Ref_Count o <> 0 -> q ∈ members o -> q ∈ member_handles h.
Proof.
  intros Ho Hc Hq. rewrite (member_handles_delete h p o Ho). unfold live. destruct (Z.eqb_spec (Ref_Count o) 0); [done|].
  apply elem_of_app. by left.
Qed.

Lemma read_handle s ex l p : inv s ex [] -> read_loc s l = Ok p -> p ∈ handles s.
Proof.
  intros Hi. destruct l as [x|a i]; cbn.
  - destruct (vars s !! x) as [q|] eqn:E; [|done]. intros [= ->]. by eapply var_handle.
  - destruct (objects s !! a) as [o|] eqn:Eo; [|done]. destruct (members o !! i) as [q|] eqn:Ei; [|done]. intros [= ->].
    unfold handles. apply elem_of_app. right. eapply member_elem; [done|by eapply no_zero|]. by eapply list_elem_of_lookup_2.
Qed.

(** Assignment, the locations being anchored. *)
Lemma assign_ok s l r p q :
  inv s [] [] -> l <> r -> read_loc s r = Ok p -> read_loc s l = Ok q -> anchored s l l -> anchored s l r ->
  exists s', assign l r s = Ok s' /\ inv s' [] [] /\ read_loc s' l = Ok p.
Proof.
  intros Hi Hne Hr Hl Hal Har. unfold assign. rewrite decide_False, Hr, res_bind_ok by done.
  pose proof (read_handle s [] r p Hi Hr) as Hin.
  destruct (incref_ok s p [] [] Hi) as (s1 & -> & Hi1 & Hv1 & Hm1); [apply (handle_alive s []); [done|by rewrite app_nil_r]|].
  rewrite res_bind_ok. assert (forall l', read_loc s1 l' = read_loc s l') as Hr1.
  { intros [x|a i]; cbn; [by rewrite Hv1|]. pose proof (Hm1 a) as E. destruct (objects s1 !! a) as [o1|], (objects s !! a) as [o|]; try done.
    cbn in E. injection E as E. by rewrite E. }
  rewrite Hr1, Hl, res_bind_ok.
  destruct (write_ok s1 l 0 q [p]) as (s2 & -> & Hi2 & Hl2 & Ho2 & Hv2 & _); [by apply inv_null|by rewrite Hr1|]. rewrite res_bind_ok.
  destruct (decref_ok s2 q [p] Hi2) as (s3 & -> & Hi3 & Hk3). rewrite res_bind_ok.
  assert (forall x, LVar x <> l -> vars s2 !! x = vars s !! x) as Hv by (intros x Hx; rewrite Hv2 by done; by rewrite Hv1).
  assert (read_loc s3 r = Ok p) as ->.
  { apply (read_kept s2 s3 [p] l); [done|done|by apply (anchored_same s)|]. by rewrite Ho2, Hr1 by done. }
  rewrite res_bind_ok.
  destruct (write_ok s3 l p 0 [] Hi3) as (s4 & -> & Hi4 & Hr4 & _).
  { apply (read_kept s2 s3 [p] l); [done|done|by apply (anchored_same s)|done]. }
  exists s4. split_and!; [done| |done]. by apply inv_null.
Qed.

(** ** Programs are safe *)

Lemma eval_ok s e :
  inv s [] [] ->
  match eval s e with
  | Ok l => (exists q, read_loc s l = Ok q)
            /\ match e with EVar x => l = LVar x
               | EField x i => exists p, l = LField p i /\ forall avoid, LVar x <> avoid -> anchored s avoid l end
  | Throw e => exists m, e = CommonError m
  end.
Proof.
  intros Hi. destruct e as [x|x i]; cbn [eval read_loc].
  - destruct (vars s !! x) as [p|] eqn:E; [|by eexists]. split; [exists p; cbn; by rewrite E|done].
  - destruct (vars s !! x) as [p|] eqn:E; [rewrite res_bind_ok|by eexists]. destruct (Z.eqb_spec p 0) as [->|Hne]; [by eexists|].
    destruct (i_live _ _ _ Hi p Hne) as [o Ho]; [rewrite app_nil_r; by eapply var_handle|]. rewrite Ho.
    destruct (Nat.ltb_spec i (length (members o))) as [Hlt|]; [|by eexists]. cbn [read_loc]. rewrite Ho.
    destruct (lookup_lt_is_Some_2 _ _ Hlt) as [q Hq]. rewrite Hq. split; [by eexists|]. exists p. split; [done|].
    intros avoid Hav. split; [done|]. by exists x.
Qed.

(** [x = x->member] is left out. *)
Definition safe_op (o : op) : Prop := match o with Assign (EVar x) (EField y _) => x <> y | _ => True end.

Definition is_error (e : exn) : Prop := exists m, e = CommonError m.

Definition step_safe (r : res store) : Prop := match r with Ok s => inv s [] [] | Throw e => is_error e end.

Lemma var_added s ex x p : inv s (p :: ex) [] -> vars s !! x = None -> inv (set_vars (<[x := p]> (vars s)) s) ex [].
Proof.
  intros Hi Hx. eapply inv_change; [exact Hi|done| |done]. unfold handles. cbn. rewrite (vals_insert _ x p Hx). solve_Permutation.
Qed.

Lemma var_removed s ex x p : inv s ex [] -> vars s !! x = Some p -> inv (set_vars (delete x (vars s)) s) (p :: ex) [].
Proof.
  intros Hi Hx. eapply inv_change; [exact Hi|done| |done]. unfold handles. cbn. rewrite (vals_delete _ x p Hx). solve_Permutation.
Qed.

Lemma incref_set_vars s p s' v : increfcount s p = Ok s' -> increfcount (set_vars v s) p = Ok (set_vars v s').
Proof. unfold increfcount. cbn. destruct (p =? 0); [by intros [= <-]|]. destruct (objects s !! p); [|done]. by intros [= <-]. Qed.

Lemma object_made s k :
  inv s [] [] ->
  inv (mkStore (<[next_obj s := mkObj 1 (replicate k 0)]> (objects s)) (next_obj s + 1) (vars s)) [next_obj s] [].
Proof.
  intros [H1 H2 H3 H4 H5 H6]. set (p := next_obj s) in *.
  assert (objects s !! p = None) as Hp.
  { destruct (objects s !! p) eqn:E; [|done]. assert (0 < p < p) by (apply H5; by eexists). lia. }
  assert (occ (handles s) p = 0)%nat as Hz.
  { destruct (decide (p ∈ handles s)) as [Hin|Hin].
    - destruct (H2 p ltac:(lia)) as [o Ho]; [by rewrite app_nil_r|congruence].
    - pose proof (proj1 (occ_elem (handles s) p)). destruct (occ (handles s) p); [done|]. exfalso. apply Hin, H. lia. }
  set (s' := mkStore _ _ _).
  assert (handles s' ++ [p] ≡ₚ p :: replicate k 0 ++ handles s) as Hh.
  { unfold handles, s'. cbn [vars objects]. rewrite (member_handles_insert _ p _ Hp). unfold live. cbn [Ref_Count Z.eqb members]. solve_Permutation. }
  assert (forall q, 0 < q -> occ (replicate k 0 ++ handles s) q = occ (handles s) q) as Hocc.
  { intros q Hq. clear -Hq. induction k as [|k IH]; [done|]. cbn [replicate app]. rewrite occ_cons_ne by lia. exact IH. }
  split.
  - intros q o. cbn. rewrite Hh. destruct (decide (q = p)) as [->|Hq].
    + rewrite lookup_insert_eq. intros [= <-]. rewrite occ_cons_eq, Hocc by lia. cbn. lia.
    + rewrite lookup_insert_ne by done. intros Ho. assert (0 < q < p) by (apply H5; by eexists).
      rewrite occ_cons_ne, Hocc by lia. rewrite (H1 q o Ho). by rewrite app_nil_r.
  - intros q Hq. rewrite Hh. cbn. destruct (decide (q = p)) as [->|Hqp]; [rewrite lookup_insert_eq; by eexists|].
    rewrite lookup_insert_ne by done. rewrite elem_of_cons, elem_of_app. intros [?|[Hr|Hin]]; [done| |].
    + apply elem_of_replicate in Hr. lia.
    + apply H2; [done|]. by rewrite app_nil_r.
  - intros q. split; [intros Hq; by apply not_elem_of_nil in Hq|]. intros (o & Ho & Hc). cbn in Ho. exfalso. destruct (decide (q = p)) as [->|Hqp].
    + rewrite lookup_insert_eq in Ho. injection Ho as <-. done.
    + rewrite lookup_insert_ne in Ho by done. apply (not_elem_of_nil q). apply H3. by exists o.
  - constructor.
  - intros q. cbn. destruct (decide (q = p)) as [->|Hqp]; [lia|]. rewrite lookup_insert_ne by done. intros Hq. specialize (H5 q Hq). lia.
  - cbn. lia.
Qed.

Lemma step_ok s o : inv s [] [] -> safe_op o -> step_safe (step s o).
Proof.
  intros Hi Hs. destruct o as [x|x k|x e|l r|x]; cbn [step].
  - unfold declare. destruct (vars s !! x) eqn:Ex; [by eexists|]. by apply var_added; [apply inv_null|].
  - unfold declare. cbn [vars]. destruct (vars s !! x) eqn:Ex; [by eexists|]. rewrite res_bind_ok.
    unfold increfcount. cbn [objects set_vars]. pose proof (i_next_pos _ _ _ Hi). destruct (Z.eqb_spec (next_obj s) 0); [lia|].
    rewrite lookup_insert_eq. cbn. rewrite insert_insert_eq. by apply (var_added _ [] x _ (object_made s k Hi)).
  - pose proof (eval_ok s e Hi) as He. destruct (eval s e) as [l|ex]; [|done]. destruct He as [[p Hp] _]. rewrite res_bind_ok, Hp, res_bind_ok.
    unfold declare. destruct (vars s !! x) eqn:Ex; [by eexists|]. rewrite res_bind_ok.
    destruct (incref_ok s p [] [] Hi) as (s1 & E & Hi1 & Hv1 & _).
    { apply (handle_alive s []); [done|]. rewrite app_nil_r. by eapply read_handle. }
    rewrite (incref_set_vars _ _ _ _ E), <- Hv1. apply var_added; [done|]. by rewrite Hv1.
  - pose proof (eval_ok s l Hi) as Hl. destruct (eval s l) as [ll|ex] eqn:El; [|done]. rewrite res_bind_ok.
    pose proof (eval_ok s r Hi) as Hr. destruct (eval s r) as [lr|ex] eqn:Er; [|done]. rewrite res_bind_ok.
    destruct Hl as [[q Hq] Hl], Hr as [[p Hp] Hr]. destruct (decide (ll = lr)) as [->|Hne].
    { unfold assign. by rewrite decide_True. }
    destruct (assign_ok s ll lr p q Hi Hne Hp Hq) as (s' & -> & Hi' & _); [..|done].
    + destruct l as [x|x i]; [by subst ll|]. destruct Hl as (a & -> & Ha). apply Ha. done.
    + destruct r as [y|y i]; [by subst lr|]. destruct Hr as (a & -> & Ha). apply Ha.
      destruct l as [x|x j]; [subst ll; cbn in Hs; congruence|]. by destruct Hl as (b & -> & _).
  - cbn. destruct (vars s !! x) as [p|] eqn:Ex; cbn; [|by eexists].
    destruct (decref_ok _ p [] (var_removed s [] x p Hi Ex)) as (s' & -> & Hi' & _). done.
Qed.

Lemma store_new_inv : inv store_new [] [].
Proof.
  split; cbn.
  - intros p o H. by rewrite lookup_empty in H.
  - intros p _ Hin. by apply not_elem_of_nil in Hin.
  - intros p. split; [intros H; by apply not_elem_of_nil in H|]. intros (o & H & _). by rewrite lookup_empty in H.
  - constructor.
  - intros p [o H]. by rewrite lookup_empty in H.
  - lia.
Qed.


(** A list of two, its tail shared, then the head dropped. *)
Definition list_program : list op :=
  [MakeNew 0 1; MakeNew 1 1; Assign (EField 0 0) (EVar 1); CopyNew 2 (EField 0 0); Leave 1; NewVar 3; Assign (EVar 3) (EField 0 0); Leave 0].


(** [x = x->member], x holding the only handle to its object, reads the
    member after the object is freed: operator= takes the pointer from the right
    side again when it has released the left. *)
Lemma assign_from_own_member_UB s x p o i q :
  inv s [] [] -> vars s !! x = Some p -> p <> 0 -> objects s !! p = Some o -> Ref_Count o = 1 -> members o !! i = Some q ->
  step s (Assign (EVar x) (EField x i)) = Throw freed.
Proof.
  intros Hi Hx Hp Ho Hc Hm. cbn [step eval]. rewrite Hx, res_bind_ok. cbn [read_loc]. rewrite Hx, res_bind_ok.
  destruct (Z.eqb_spec p 0); [done|]. rewrite Ho. destruct (Nat.ltb_spec i (length (members o))); [|apply lookup_lt_Some in Hm; lia].
  rewrite res_bind_ok. unfold assign. rewrite decide_False by done. cbn [read_loc]. rewrite Ho, Hm, res_bind_ok.
  assert (q <> p) as Hqp.
  { intros ->. pose proof (i_count _ _ _ Hi p o Ho) as Hcnt. rewrite Hc, app_nil_r in Hcnt. unfold handles in Hcnt.
    rewrite (vals_delete _ x p Hx) in Hcnt. cbn [app] in Hcnt. rewrite occ_cons_eq in Hcnt.
    assert (0 < occ ((map_to_list (delete x (vars s))).*2 ++ member_handles (objects s)) p)%nat; [|lia]. apply occ_elem, elem_of_app. right.
    eapply member_elem; [exact Ho|lia|by eapply list_elem_of_lookup_2]. }
  destruct (incref_ok s q [] [] Hi) as (s1 & E1 & Hi1 & Hv1 & _).
  { apply (handle_alive s []); [done|]. rewrite app_nil_r. apply (read_handle s [] (LField p i)); [done|]. cbn. by rewrite Ho, Hm. }
  rewrite E1, res_bind_ok, Hv1, Hx, res_bind_ok. cbn [write_loc]. rewrite res_bind_ok.
  assert (objects s1 !! p = Some o) as Ho1.
  { unfold increfcount in E1. destruct (q =? 0); [by injection E1 as <-|]. destruct (objects s !! q) as [oq|]; [|done]. injection E1 as <-. cbn.
    by rewrite lookup_insert_ne. }
  destruct (write_ok s1 (LVar x) 0 p [q]) as (s2 & E2 & Hi2 & _); [by apply inv_null|cbn; by rewrite Hv1, Hx|]. cbn [write_loc] in E2. injection E2 as <-.
  destruct (decref_last _ p o [q] Hi2 Ho1 Hc) as (s3 & -> & Hn). rewrite res_bind_ok. cbn [read_loc]. by rewrite Hn.
Qed.

Lemma assign_from_own_member_UB_witness :
  exists s, run_ops store_new [MakeNew 0 1; MakeNew 1 0; Assign (EField 0 0) (EVar 1)] = Ok s
            /\ step s (Assign (EVar 0) (EField 0 0)) = Throw freed.
Proof.
  assert (step_safe (run_ops store_new [MakeNew 0 1; MakeNew 1 0; Assign (EField 0 0) (EVar 1)])) as H.
  { unfold run_ops. cbn [foldM].
    pose proof (step_ok _ (MakeNew 0 1) store_new_inv I) as H1. destruct (step store_new (MakeNew 0 1)) as [s1|]; [|done]. rewrite res_bind_ok.
    pose proof (step_ok _ (MakeNew 1 0) H1 I) as H2. destruct (step s1 (MakeNew 1 0)) as [s2|]; [|done]. rewrite res_bind_ok.
    pose proof (step_ok _ (Assign (EField 0 0) (EVar 1)) H2 I) as H3. by destruct (step s2 _). }
  destruct (run_ops _ _) as [s|] eqn:E; [|by vm_compute in E]. exists s. split; [done|]. vm_compute in E. injection E as E.
  apply (assign_from_own_member_UB s 0 1 (mkObj 1 [2]) 0 2); [exact H|by rewrite <- E|done|by rewrite <- E|done|done].
Defined.
