(* ===== verification/Locks.v ===== *)
(** Locks: corelib/mutexable.h and corelib/mutexable.cpp.

    [pthread_mutex_t] and [pthread_rwlock_t] are as POSIX has them: an acquisition
    waits until no conflicting one is held, by the same thread either (a mutex is not
    recursive); the release of what a thread does not hold is undefined.  A program of
    nested scopes is a tree; [trace] is the sequence of calls a run of it makes, with
    the destructors of the scopes an exception leaves.  [lstep] interleaves
    threads. *)

From Stdlib Require Import ZArith Lia Sorted.
From stdpp Require Import base strings numbers relations list.
From S2P Require Import Prelude.
Open Scope Z_scope.

(** ** What is acquired *)

Inductive grant : Type := Mx (m : Z) | Rd (l : Z) | Wr (l : Z).

#[export] Instance grant_eq_dec : EqDecision grant.
Proof. solve_decision. Defined.

(** Two grants that cannot be held at once. *)
Definition conflict (a b : grant) : bool :=
  match a, b with
  | Mx m, Mx m' => m =? m'
  | Wr l, Wr l' | Wr l, Rd l' | Rd l, Wr l' => l =? l'
  | _, _ => false
  end.

Inductive lop : Type :=
| acquire (g : grant)        (* Mutex::lock, RWLock::rdlock, RWLock::wrlock *)
| release (g : grant)        (* Mutex::unlock, RWLock::unlock *)
| work.

(** ** Scopes *)

Inductive prog : Type :=
| Do                                  (* anything else *)
| Raise                               (* an exception leaves the scopes around *)
| Seq (p q : prog)
| Locker (g : grant) (p : prog)       (* MutexLocker, MutexLockerC, RLocker, WLocker *)
| Unlocker (g : grant) (p : prog).    (* MutexUnlocker, RUnlocker, WUnlocker *)

(** The calls of a run, and whether it ended by an exception. *)
Fixpoint trace (p : prog) : list lop * bool :=
  match p with
  | Do => ([work], false)
  | Raise => ([], true)
  | Seq p q => let '(l, e) := trace p in if e then (l, true) else let '(l', e') := trace q in (l ++ l', e')
  | Locker g p => let '(l, e) := trace p in (acquire g :: l ++ [release g], e)
  | Unlocker g p => let '(l, e) := trace p in (release g :: l ++ [acquire g], e)
  end.

(** *** Lockers with methods *)

Inductive call : Type := C_lock | C_unlock.

(** [MutexLockerDeferred]: the methods, and the destructor at the end. *)
Fixpoint deferred_trace (g : grant) (locked : bool) (cs : list call) : list lop :=
  match cs with
  | [] => if locked then [release g] else []
  | C_lock :: cs' => if locked then deferred_trace g true cs' else acquire g :: deferred_trace g true cs'
  | C_unlock :: cs' => if locked then release g :: deferred_trace g false cs' else deferred_trace g false cs'
  end.

(** [MutexLocker], whose [unlock] calls [lock] of the mutex. *)
Fixpoint locker_trace (g : grant) (locked : bool) (cs : list call) : list lop :=
  match cs with
  | [] => if locked then [release g] else []
  | C_lock :: cs' => if locked then locker_trace g true cs' else acquire g :: locker_trace g true cs'
  | C_unlock :: cs' => if locked then acquire g :: locker_trace g false cs' else locker_trace g false cs'
  end.

Definition MutexLocker_run (g : grant) (cs : list call) : list lop := acquire g :: locker_trace g true cs.

(** ** Threads *)

Record thread : Type := mkThread { rest : list lop; held : list grant }.

Inductive config : Type := Running (ts : list thread) | Undefined.

Definition free (ts : list thread) (g : grant) : Prop := forall t, t ∈ ts -> forall h, h ∈ held t -> conflict g h = false.

Inductive lstep : config -> config -> Prop :=
| L_work ts i t l : ts !! i = Some t -> rest t = work :: l -> lstep (Running ts) (Running (<[i := mkThread l (held t)]> ts))
| L_acquire ts i t g l :
    ts !! i = Some t -> rest t = acquire g :: l -> free ts g ->
    lstep (Running ts) (Running (<[i := mkThread l (g :: held t)]> ts))
| L_release ts i t g l h1 h2 :
    ts !! i = Some t -> rest t = release g :: l -> held t = h1 ++ g :: h2 ->
    lstep (Running ts) (Running (<[i := mkThread l (h1 ++ h2)]> ts))
| L_undefined ts i t g l : ts !! i = Some t -> rest t = release g :: l -> g ∉ held t -> lstep (Running ts) Undefined.

Definition start (ps : list prog) : config := Running ((fun p => mkThread (trace p).1 []) <$> ps).

(** ** Well-nested programs *)

(** A lock's place in the order. *)
Definition lock_of (g : grant) : Z := match g with Mx m => 2 * m | Rd l | Wr l => 2 * l + 1 end.

(** Calls that release what is held and acquire upwards; what is held at the end. *)
Fixpoint ordered (hs : list grant) (l : list lop) : option (list grant) :=
  match l with
  | [] => Some hs
  | work :: l' => ordered hs l'
  | acquire g :: l' => if forallb (fun h => lock_of h <? lock_of g) hs then ordered (g :: hs) l' else None
  | release g :: l' => if bool_decide (g ∈ hs) then ordered (filter (fun h => h <> g) hs) l' else None
  end.

(** The same on the scopes: a lock is taken above those held around, and given up
    where it is the last one taken. *)
Fixpoint nested (hs : list grant) (p : prog) : bool :=
  match p with
  | Do | Raise => true
  | Seq p q => nested hs p && nested hs q
  | Locker g p => forallb (fun h => lock_of h <? lock_of g) hs && nested (g :: hs) p
  | Unlocker g p => match hs with g' :: hs' => bool_decide (g = g') && nested hs' p | [] => false end
  end.

(** ** What is held *)

(** The newest grant first, each above the ones below it. *)
Definition desc (hs : list grant) : Prop := StronglySorted (fun a b => lock_of b < lock_of a) hs.

Lemma desc_cons g hs : forallb (fun h => lock_of h <? lock_of g) hs = true -> desc hs -> desc (g :: hs).
Proof.
  intros H Hd. constructor; [done|]. rewrite forallb_forall in H. apply Forall_forall. intros h Hh%list_elem_of_In. apply H in Hh. lia.
Qed.

Lemma desc_above g hs : desc (g :: hs) -> forallb (fun h => lock_of h <? lock_of g) hs = true.
Proof.
  intros Hd. inversion_clear Hd as [|? ? _ H]. apply forallb_forall. intros h Hh%list_elem_of_In. rewrite Forall_forall in H. apply H in Hh. lia.
Qed.

Lemma filter_other (g : grant) (hs : list grant) : g ∉ hs -> filter (fun h => h <> g) hs = hs.
Proof.
  induction hs as [|h hs IH]; intros Hg; [done|]. apply not_elem_of_cons in Hg as [Hne Hg]. rewrite filter_cons, decide_True by done. by rewrite IH.
Qed.

Lemma desc_top g hs : desc (g :: hs) -> g ∉ hs.
Proof. intros Hd. inversion_clear Hd as [|? ? _ H]. intros Hin. rewrite Forall_forall in H. apply H in Hin. lia. Qed.

Lemma filter_top g hs : desc (g :: hs) -> filter (fun h => h <> g) (g :: hs) = hs.
Proof. intros H. rewrite filter_cons, decide_False by (intros Hn; by apply Hn). by apply filter_other, desc_top. Qed.

Lemma desc_filter g hs : desc hs -> desc (filter (fun h => h <> g) hs).
Proof.
  induction 1 as [|h hs Hd IH Hf]; [constructor|]. rewrite filter_cons. destruct (decide (h <> g)); [|done].
  constructor; [done|]. rewrite !Forall_forall in *. intros x [_ Hx]%list_elem_of_filter. by apply Hf.
Qed.

Lemma desc_split g h1 h2 : desc (h1 ++ g :: h2) -> filter (fun h => h <> g) (h1 ++ g :: h2) = h1 ++ h2.
Proof.
  induction h1 as [|h h1 IH]; intros Hd; [by apply filter_top|]. inversion_clear Hd as [|? ? Hd' Hf]. cbn [app].
  rewrite filter_cons. rewrite decide_True; [by rewrite IH|]. intros ->. rewrite Forall_forall in Hf.
  assert (g ∈ h1 ++ g :: h2) as Hin by (apply elem_of_app; right; apply elem_of_cons; by left). apply Hf in Hin. lia.
Qed.

(** A run of nested scopes gives back what it takes, exception or not. *)
Lemma nested_ordered p : forall hs r, nested hs p = true -> desc hs -> ordered hs ((trace p).1 ++ r) = ordered hs r.
Proof.
  induction p as [| |p IHp q IHq|g p IH|g p IH]; intros hs r Hn Hd; [done|done|..]; cbn [nested] in Hn; cbn [trace].
  - apply andb_true_iff in Hn as [Hp Hq]. specialize (IHp hs). specialize (IHq hs). destruct (trace p) as [l e], (trace q) as [l' e'].
    cbn [fst] in *. destruct e; cbn [fst]; [by apply IHp|]. rewrite <-app_assoc, IHp by done. by apply IHq.
  - apply andb_true_iff in Hn as [Hg Hp]. specialize (IH (g :: hs)). destruct (trace p) as [l e]. cbn [fst app ordered] in *. rewrite Hg.
    rewrite <-app_assoc, IH by (done || by apply desc_cons). cbn [app ordered]. rewrite bool_decide_true by (apply elem_of_cons; by left).
    by rewrite filter_top by (by apply desc_cons).
  - destruct hs as [|g' hs]; [done|]. apply andb_true_iff in Hn as [->%bool_decide_eq_true Hp]. specialize (IH hs). destruct (trace p) as [l e].
    cbn [fst app ordered] in *. rewrite bool_decide_true by (apply elem_of_cons; by left). rewrite filter_top by done.
    rewrite <-app_assoc, IH by (done || by inversion Hd). cbn [app ordered]. by rewrite desc_above.
Qed.

(** [MutexLockerDeferred] gives the lock back whatever its methods are called for. *)
Lemma deferred_ordered g cs : forall hs r (locked : bool),
  desc (g :: hs) -> ordered (if locked then g :: hs else hs) (deferred_trace g locked cs ++ r) = ordered hs r.
Proof.
  induction cs as [|[] cs IH]; intros hs r locked Hd; destruct locked; cbn [deferred_trace app ordered].
  - rewrite bool_decide_true by (apply elem_of_cons; by left). by rewrite filter_top.
  - done.
  - by apply (IH hs r true).
  - rewrite desc_above by done. by apply (IH hs r true).
  - rewrite bool_decide_true by (apply elem_of_cons; by left). rewrite filter_top by done. by apply (IH hs r false).
  - by apply (IH hs r false).
Qed.

(** ** Invariant *)

Definition thread_ok (t : thread) : Prop := ordered (held t) (rest t) = Some [] /\ desc (held t).

Definition exclusive (ts : list thread) : Prop :=
  forall i j ti tj a b, ts !! i = Some ti -> ts !! j = Some tj -> i <> j -> a ∈ held ti -> b ∈ held tj -> conflict a b = false.

Definition inv (c : config) : Prop := match c with Running ts => Forall thread_ok ts /\ exclusive ts | Undefined => False end.

Lemma conflict_sym a b : conflict a b = conflict b a.
Proof. destruct a, b; cbn; try done; apply Z.eqb_sym. Qed.

Lemma conflict_lock a b : conflict a b = true -> lock_of a = lock_of b.
Proof. destruct a, b; cbn; try done; intros; lia. Qed.

(** A thread that holds no more than before, or a grant that is free. *)
Lemma exclusive_update ts i t t' :
  exclusive ts -> ts !! i = Some t -> (forall g, g ∈ held t' -> g ∈ held t \/ free ts g) -> exclusive (<[i := t']> ts).
Proof.
  intros He Hi Hg. assert (forall j tj a b, ts !! j = Some tj -> i <> j -> a ∈ held t' -> b ∈ held tj -> conflict a b = false) as H.
  { intros j tj a b Hj Hne Ha Hb. destruct (Hg a Ha) as [Ha'|Hf]; [by eapply (He i j)|]. eapply Hf; [|done]. by eapply list_elem_of_lookup_2. }
  assert (i < length ts)%nat as Hl by (by eapply lookup_lt_Some).
  intros j k tj tk a b Hj Hk Hne Ha Hb. destruct (decide (j = i)) as [-> |Hji], (decide (k = i)) as [-> |Hki]; [done|..].
  - rewrite list_lookup_insert_eq in Hj by done. injection Hj as <-. rewrite list_lookup_insert_ne in Hk by done. by eapply H.
  - rewrite list_lookup_insert_eq in Hk by done. injection Hk as <-. rewrite list_lookup_insert_ne in Hj by done. rewrite conflict_sym. by eapply H.
  - rewrite list_lookup_insert_ne in Hj, Hk by done. by eapply (He j k).
Qed.

Lemma lstep_inv c c' : lstep c c' -> inv c -> inv c'.
Proof.
  destruct 1 as [ts i t l Hi Hr|ts i t g l Hi Hr Hf|ts i t g l h1 h2 Hi Hr Hh|ts i t g l Hi Hr Hh]; intros [Hok He];
    pose proof Hok as Hok'; rewrite Forall_lookup in Hok'; destruct (Hok' i t Hi) as [Ho Hd]; rewrite Hr in Ho; cbn [ordered] in Ho.
  - split; [by apply Forall_insert|]. eapply exclusive_update; [done..|]. cbn. auto.
  - destruct (forallb _ (held t)) eqn:Hb; [|done]. split; [apply Forall_insert; [done|]; split; [done|by apply desc_cons]|].
    eapply exclusive_update; [done..|]. cbn. intros x [-> |Hx]%elem_of_cons; auto.
  - case_bool_decide; [|done]. rewrite Hh in Ho, Hd. pose proof (desc_filter g _ Hd) as Hd'. rewrite desc_split in Ho, Hd' by done.
    split; [apply Forall_insert; [done|by split]|]. eapply exclusive_update; [done..|]. cbn. rewrite Hh.
    intros x. rewrite !elem_of_app, elem_of_cons. tauto.
  - by case_bool_decide.
Qed.

Lemma start_inv ps : Forall (fun p => nested [] p = true) ps -> inv (start ps).
Proof.
  intros H. split.
  - apply Forall_fmap. eapply Forall_impl; [exact H|]. intros p Hp. split; [|constructor]. cbn.
    rewrite <-(app_nil_r (trace p).1). rewrite nested_ordered by (done || constructor). done.
  - intros i j ti tj a b Hi _ _ Ha. apply list_lookup_fmap_Some_1 in Hi as (p & -> & _). by apply not_elem_of_nil in Ha.
Qed.

Lemma locks_inv ps c : Forall (fun p => nested [] p = true) ps -> rtc lstep (start ps) c -> inv c.
Proof.
  intros H Hr. apply start_inv in H. induction Hr as [|x y z Hxy _ IH]; [done|]. by apply IH, (lstep_inv x).
Qed.

(** ** Progress *)

(** Among waiting threads, one that waits for a highest lock. *)
Lemma highest_waiting (ts : list thread) :
  (forall t, t ∈ ts -> rest t = [] \/ exists g l, rest t = acquire g :: l) -> (exists t, t ∈ ts /\ rest t <> []) ->
  exists t g l, t ∈ ts /\ rest t = acquire g :: l /\ forall t' g' l', t' ∈ ts -> rest t' = acquire g' :: l' -> lock_of g' <= lock_of g.
Proof.
  induction ts as [|t ts IH]; intros Hw (t0 & Ht0 & Hne); [by apply not_elem_of_nil in Ht0|].
  assert ((exists t, t ∈ ts /\ rest t <> []) \/ (forall t, t ∈ ts -> rest t = [])) as [Hts|Hdone].
  { clear. induction ts as [|x ts IH]; [right; intros t Ht; by apply not_elem_of_nil in Ht|].
    destruct (decide (rest x = [])) as [E|E]; [|left; exists x; split; [apply elem_of_cons; by left|done]].
    destruct IH as [(t & Ht & Hn)|IH]; [left; exists t; split; [apply elem_of_cons; by right|done]|].
    right. intros t [-> |Ht]%elem_of_cons; auto. }
  - destruct IH as (t1 & g & l & Hin & Hr & Hmax); [intros t' Ht'; apply Hw, elem_of_cons; by right|done|].
    destruct (Hw t) as [E|(g' & l' & E)]; [apply elem_of_cons; by left| |].
    + exists t1, g, l. split_and!; [apply elem_of_cons; by right|done|]. intros t' g' l' [-> |Ht']%elem_of_cons E'; [congruence|by eapply Hmax].
    + destruct (Z.le_gt_cases (lock_of g') (lock_of g)) as [Hle|Hgt].
      * exists t1, g, l. split_and!; [apply elem_of_cons; by right|done|]. intros t' x y [-> |Ht']%elem_of_cons E'; [congruence|by eapply Hmax].
      * exists t, g', l'. split_and!; [apply elem_of_cons; by left|done|]. intros t' x y [-> |Ht']%elem_of_cons E'; [by simplify_eq/=; rewrite E in E'; simplify_eq|].
        specialize (Hmax _ _ _ Ht' E'). lia.
  - apply elem_of_cons in Ht0 as [-> |Ht0]; [|by apply Hdone in Ht0]. destruct (Hw t) as [E|(g & l & E)]; [apply elem_of_cons; by left|done|].
    exists t, g, l. split_and!; [apply elem_of_cons; by left|done|]. intros t' g' l' [-> |Ht']%elem_of_cons E'; [|apply Hdone in Ht'; congruence].
    rewrite E in E'. by simplify_eq.
Qed.

(** The next call does not wait. *)
Definition ready (t : thread) : bool := match rest t with work :: _ | release _ :: _ => true | _ => false end.

Lemma inv_progress ts : inv (Running ts) -> (exists t, t ∈ ts /\ rest t <> []) -> exists c', lstep (Running ts) c'.
Proof.
  intros [Hok He] Hne. rewrite Forall_forall in Hok.
  destruct (decide (Exists (fun t => ready t = true) ts)) as [Hx|Hx].
  - apply Exists_exists in Hx as (t & Hin & Ht). apply list_elem_of_lookup_1 in Hin as [i Hi]. unfold ready in Ht. destruct (rest t) as [|[g|g|] l] eqn:E; try done.
    + destruct (decide (g ∈ held t)) as [Hg|Hg]; [apply list_elem_of_split in Hg as (h1 & h2 & Hh)|]; eexists; [by eapply L_release|by eapply L_undefined].
    + eexists. by eapply L_work.
  - destruct (highest_waiting ts) as (t & g & l & Hin & Hr & Hmax); [|done|].
    { intros t Ht. destruct (rest t) as [|[g|g|] l] eqn:E; [by left|right; by eexists _, _|..]; destruct Hx; apply Exists_exists; exists t; unfold ready; by rewrite E. }
    apply list_elem_of_lookup_1 in Hin as [i Hi]. eexists. eapply L_acquire; [done..|]. intros t' Ht' h Hh.
    destruct (conflict g h) eqn:Ec; [|done]. exfalso. apply conflict_lock in Ec. destruct (Hok t' Ht') as [Ho Hd].
    destruct (rest t') as [|[g'|g'|] l'] eqn:E'.
    + injection Ho as Ho. rewrite Ho in Hh. by apply not_elem_of_nil in Hh.
    + cbn [ordered] in Ho. destruct (forallb _ (held t')) eqn:Hb; [|done]. rewrite forallb_forall in Hb. apply list_elem_of_In, Hb in Hh.
      specialize (Hmax t' g' l' Ht' E'). lia.
    + apply Hx, Exists_exists. exists t'. unfold ready. by rewrite E'.
    + apply Hx, Exists_exists. exists t'. unfold ready. by rewrite E'.
Qed.

(** ** Properties *)


(** The calls that remain. *)
Definition remaining (c : config) : nat := match c with Running ts => sum_list_with (fun t => length (rest t)) ts | Undefined => 0%nat end.

Lemma remaining_insert ts i t t' :
  ts !! i = Some t -> (length (rest t') < length (rest t))%nat -> (remaining (Running (<[i := t']> ts)) < remaining (Running ts))%nat.
Proof.
  revert i. induction ts as [|x ts IH]; intros [|i] Hi Hl; [done|done|..]; cbn [remaining] in *.
  - injection Hi as ->. change (<[0%nat := t']> (t :: ts)) with (t' :: ts). cbn [sum_list_with]. lia.
  - change (<[S i := t']> (x :: ts)) with (x :: <[i := t']> ts). cbn [sum_list_with]. specialize (IH i Hi Hl). lia.
Qed.

Lemma lstep_remaining ts c : inv (Running ts) -> lstep (Running ts) c -> (remaining c < remaining (Running ts))%nat.
Proof.
  intros Hi Hs. pose proof (lstep_inv _ _ Hs Hi) as Hc.
  inversion Hs as [? i t l Hl Hr|? i t g l Hl Hr Hf|? i t g l h1 h2 Hl Hr Hh|]; subst; [..|done];
    (apply (remaining_insert _ _ t); [exact Hl|rewrite Hr; cbn [rest length]; lia]).
Qed.


(** Two threads that nest the same two mutexes, one of them with an exception inside
    and a scope that gives the inner one up for a while. *)
Definition sample_threads : list prog :=
  [Locker (Mx 1) (Seq Do (Locker (Mx 2) (Seq (Unlocker (Mx 2) Do) Raise))); Locker (Mx 1) (Locker (Mx 2) (Locker (Rd 3) Do))].



(** [MutexLocker::unlock] locks.  A thread that calls it on a locker that holds its
    mutex waits for itself: in every interleaving it never makes another step. *)
Lemma mutexlocker_unlock_hangs m cs ts i hs c :
  ts !! i = Some (mkThread (locker_trace (Mx m) true (C_unlock :: cs)) hs) -> Mx m ∈ hs -> rtc lstep (Running ts) c ->
  c = Undefined \/ exists ts', c = Running ts' /\ ts' !! i = Some (mkThread (locker_trace (Mx m) true (C_unlock :: cs)) hs).
Proof.
  intros Hi Hm Hr. remember (Running ts) as c0 eqn:E. revert ts E Hi. induction Hr as [x|x y z Hxy Hyz IH]; intros ts -> Hi; [right; by exists ts|].
  set (t := mkThread _ hs) in *.
  inversion Hxy as [? j tj l Hj Hrj|? j tj g l Hj Hrj Hf|? j tj g l h1 h2 Hj Hrj Hh|? j tj g l Hj Hrj Hh]; subst.
  4: { left. inversion Hyz as [|? ? ? H _]; [done|inversion H]. }
  all: assert (j <> i) as Hji by (intros ->; rewrite Hi in Hj; injection Hj as <-; try discriminate Hrj;
         injection Hrj as <- _; specialize (Hf t ltac:(by eapply list_elem_of_lookup_2) (Mx m) Hm); cbn in Hf; lia).
  all: eapply IH; [done|]; rewrite list_lookup_insert_ne by done; exact Hi.
Qed.

Lemma mutexlocker_unlock_hangs_witness :
  let t := mkThread (locker_trace (Mx 1) true [C_unlock]) [Mx 1] in
  Running [t] = Undefined \/ exists ts', Running [t] = Running ts' /\ ts' !! 0%nat = Some t.
Proof. apply (mutexlocker_unlock_hangs 1 [] [mkThread (locker_trace (Mx 1) true [C_unlock]) [Mx 1]] 0 [Mx 1]); [reflexivity|apply elem_of_cons; by left|apply rtc_refl]. Defined.

(** Locks taken in two orders by two threads: both wait for ever. *)
Lemma crossed_locks_deadlock :
  exists ts, rtc lstep (start [Locker (Mx 1) (Locker (Mx 2) Do); Locker (Mx 2) (Locker (Mx 1) Do)]) (Running ts)
    /\ (forall c, ~ lstep (Running ts) c) /\ Forall (fun t => rest t <> []) ts.
Proof.
  exists [mkThread [acquire (Mx 2); work; release (Mx 2); release (Mx 1)] [Mx 1]; mkThread [acquire (Mx 1); work; release (Mx 1); release (Mx 2)] [Mx 2]].
  split_and!; [|intros c Hc|by repeat constructor].
  - eapply rtc_l; [eapply (L_acquire _ 0); [reflexivity|reflexivity|]|eapply rtc_l; [eapply (L_acquire _ 1); [reflexivity|reflexivity|]|apply rtc_refl]].
    + intros t Ht h Hh. apply elem_of_cons in Ht as [-> |[-> |Ht]%elem_of_cons]; [..|by apply not_elem_of_nil in Ht]; by apply not_elem_of_nil in Hh.
    + intros t Ht h Hh. apply elem_of_cons in Ht as [-> |[-> |Ht]%elem_of_cons]; [..|by apply not_elem_of_nil in Ht]; cbn in Hh;
        [apply list_elem_of_singleton in Hh as ->; done|by apply not_elem_of_nil in Hh].
  - inversion Hc as [? i t l Hi Hr|? i t g l Hi Hr Hf|? i t g l h1 h2 Hi Hr Hh|? i t g l Hi Hr Hh]; subst; destruct i as [|[|i]]; cbn in Hi; simplify_eq; try done.
    + cbn in Hr. injection Hr as <- _. specialize (Hf (mkThread [acquire (Mx 1); work; release (Mx 1); release (Mx 2)] [Mx 2])).
      specialize (Hf ltac:(apply elem_of_cons; right; apply elem_of_cons; by left) (Mx 2) ltac:(apply elem_of_cons; by left)). done.
    + cbn in Hr. injection Hr as <- _. specialize (Hf (mkThread [acquire (Mx 2); work; release (Mx 2); release (Mx 1)] [Mx 1])).
      specialize (Hf ltac:(apply elem_of_cons; by left) (Mx 1) ltac:(apply elem_of_cons; by left)). done.
Qed.
