(* ===== verification/IoBuffer.v ===== *)
(** The byte codec every event goes through: [inBuffer] and [outBuffer] of
    corelib/ioBuffer.h and corelib/ioBuffer.cpp.

    - [outBuffer] is its [refbuffer] container, the bytes written so far.
    - [inBuffer] is the data it was constructed over and the read position.
    - A packed number (PN) is a big-endian base-128 number whose last byte is
      below 0x80; a packed string (PSTR) is its length as a PN and its bytes.
    - [Codec] is the interface a serialisable type offers to the containers and
      events built from it; [CodecLaws] states what it promises. *)

From Stdlib Require Import ZArith Lia.
From stdpp Require Import base list strings numbers.
From S2P Require Import Prelude.
Open Scope Z_scope.

(** ** outBuffer *)

Record outBuffer : Type := mkOut { container : list Z }.

Definition outBuffer_new : outBuffer := mkOut [].
Definition out_clear (o : outBuffer) : outBuffer := mkOut [].
Definition out_size (o : outBuffer) : Z := Z.of_nat (length (container o)).

Definition put_8 (o : outBuffer) (c : Z) : outBuffer := mkOut (container o ++ [c]).
Definition out_pack (o : outBuffer) (s : list Z) : outBuffer := mkOut (container o ++ s).

(** The inner loop of [put_PN$]: emit the 7-bit digits from position [7*k] down
    to 0, all but the last with the continuation bit.  [put] is the [put_8$] of
    the buffer at hand, which may throw. *)
Fixpoint pn_emit {St} (put : St -> Z -> res St) (s : St) (N : Z) (k : nat) : res St :=
  match k with
  | O => put s (Z.land N 0x7F)
  | S k' =>
      s' ← put s (Z.lor (Z.land (Z.shiftr N (7 * Z.of_nat k)) 0x7F) 0x80);
      pn_emit put s' N k'
  end.

(** The outer loop: skip leading zero digits, but never the last digit. *)
Fixpoint pn_skip {St} (put : St -> Z -> res St) (s : St) (N : Z) (k : nat) : res St :=
  let c := Z.land (Z.shiftr N (7 * Z.of_nat k)) 0x7F in
  if negb (c =? 0) || (k =? 0)%nat then pn_emit put s N k
  else match k with O => Ok s | S k' => pn_skip put s N k' end.

(** [put_PN$]: [start] is 63 = 7*9 in outBuffer and oBuf. *)
Definition put_PN_start : nat := 9.

Definition put_PN (o : outBuffer) (N : Z) : outBuffer :=
  match pn_skip (fun o c => Ok (put_8 o c)) o N put_PN_start with
  | Ok o' => o'
  | Throw _ => o
  end.

Definition put_PSTR (o : outBuffer) (s : list Z) : outBuffer :=
  out_pack (put_PN o (wrapu 64 (Z.of_nat (length s)))) s.

(** [operator<<] on an arithmetic type: the conversion to [uint64_t]. *)
Definition out_int (o : outBuffer) (v : Z) : outBuffer := put_PN o (wrapu 64 v).
Definition out_bool (o : outBuffer) (b : bool) : outBuffer :=
  put_PN o (if b then 1 else 0).

(** [operator<<] on a [REF_getter<refbuffer>], [None] being a null pointer. *)
Definition out_refbuffer (o : outBuffer) (s : option (list Z)) : outBuffer :=
  match s with
  | Some c => out_pack (put_PN o (wrapu 64 (Z.of_nat (length c)))) c
  | None => put_PN o 0
  end.

(** ** inBuffer *)

Record inBuffer : Type := mkIn { m_data : list Z; out_pos : nat }.

Definition inBuffer_new (d : list Z) : inBuffer := mkIn d 0.
Definition m_size (b : inBuffer) : nat := length (m_data b).
Definition remains (b : inBuffer) : nat := (m_size b - out_pos b)%nat.
Definition beforeEnd (b : inBuffer) : bool := (out_pos b <? m_size b)%nat.
Definition advance (b : inBuffer) (n : nat) : inBuffer :=
  mkIn (m_data b) (out_pos b + n).

(** The bytes not read yet: what a reader sees of the buffer. *)
Definition rest (b : inBuffer) : list Z := drop (out_pos b) (m_data b).

(** The read position never passes the end. *)
Definition in_wf (b : inBuffer) : Prop := (out_pos b <= m_size b)%nat.

Definition get_8_nothrow (b : inBuffer) : option Z * inBuffer :=
  if (m_size b <? out_pos b + 1)%nat then (None, b)
  else (m_data b !! out_pos b, advance b 1).

Definition get_8 (b : inBuffer) : res (Z * inBuffer) :=
  if (m_size b <? out_pos b + 1)%nat
  then Throw (CommonError "inBuffer::get_8: noenough")
  else match m_data b !! out_pos b with
       | Some c => Ok (c, advance b 1)
       | None => Throw (UB "m_data[out_pos]")
       end.

(** One round of the accumulation in [get_PN]: [NN<<=7; NN|=c&0x7F]. *)
Definition pn_acc (NN c : Z) : Z := Z.lor (wrapu 64 (Z.shiftl NN 7)) (Z.land c 0x7F).

Fixpoint get_PN_loop (fuel : nat) (NN : Z) (b : inBuffer) : res (Z * inBuffer) :=
  match fuel with
  | O => Throw OutOfFuel
  | S f =>
      '(c, b') ← get_8 b;
      if c <? 0x80
      then Ok (Z.lor (wrapu 64 (Z.shiftl NN 7)) c, b')
      else get_PN_loop f (pn_acc NN c) b'
  end.

(** [remains b + 1] rounds suffice: every round but the last consumes a byte. *)
Definition get_PN (b : inBuffer) : res (Z * inBuffer) :=
  get_PN_loop (S (remains b)) 0 b.

Fixpoint get_PN_nothrow_loop (fuel : nat) (NN : Z) (b : inBuffer)
  : option Z * inBuffer :=
  match fuel with
  | O => (None, b)
  | S f =>
      match get_8_nothrow b with
      | (None, b') => (None, b')
      | (Some c, b') =>
          if c <? 0x80
          then (Some (Z.lor (wrapu 64 (Z.shiftl NN 7)) c), b')
          else get_PN_nothrow_loop f (pn_acc NN c) b'
      end
  end.

Definition get_PN_nothrow (b : inBuffer) : option Z * inBuffer :=
  get_PN_nothrow_loop (S (remains b)) 0 b.

Definition unpack_nothrow (b : inBuffer) (size : Z) : option (list Z) * inBuffer :=
  if Z.of_nat (remains b) <? size then (None, b)
  else (Some (take (Z.to_nat size) (rest b)), advance b (Z.to_nat size)).

(** [unpack(std::string&, int64_t)]: the length passes through [int64_t] and
    back to [size_t]. *)
Definition unpack (b : inBuffer) (size : Z) : res (list Z * inBuffer) :=
  match unpack_nothrow b (wrapu 64 (cast I64 size)) with
  | (Some s, b') => Ok (s, b')
  | (None, _) => Throw (CommonError "inBuffer unpack:  buffer size to small")
  end.

(** [unpack(void*, size_t)]. *)
Definition unpack_raw (b : inBuffer) (sz : Z) : res (list Z * inBuffer) :=
  if Z.of_nat (remains b) <? sz
  then Throw (CommonError "unpack error not enough")
  else Ok (take (Z.to_nat sz) (rest b), advance b (Z.to_nat sz)).

Definition unpackRest (b : inBuffer) : res (list Z * inBuffer) :=
  unpack b (Z.of_nat (remains b)).

Definition get_PSTR (b : inBuffer) : res (list Z * inBuffer) :=
  '(sz, b') ← get_PN b; unpack b' sz.

(** The copy loop of [get_PSTR_nothrow]. *)
Fixpoint get_PSTR_loop (n : nat) (acc : list Z) (b : inBuffer)
  : option (list Z) * inBuffer :=
  match n with
  | O => (Some acc, b)
  | S n' =>
      if beforeEnd b then
        match get_8_nothrow b with
        | (None, b') => (None, b')
        | (Some c, b') => get_PSTR_loop n' (acc ++ [c]) b'
        end
      else (Some acc, b)
  end.

Definition get_PSTR_nothrow (b : inBuffer) : option (list Z) * inBuffer :=
  match get_PN_nothrow b with
  | (None, b') => (None, b')
  | (Some sz, b') =>
      if Z.of_nat (remains b') <? sz then (None, b')
      else get_PSTR_loop (Z.to_nat sz) [] b'
  end.

Definition in_int (t : ity) (b : inBuffer) : res (Z * inBuffer) :=
  '(n, b') ← get_PN b; Ok (cast t n, b').

Definition in_bool (b : inBuffer) : res (bool * inBuffer) :=
  '(n, b') ← get_PN b; Ok (negb (n =? 0), b').

Definition in_refbuffer (b : inBuffer) : res (option (list Z) * inBuffer) :=
  '(n, b') ← get_PN b; '(s, b'') ← unpack b' n; Ok (Some s, b'').

(** ** What the readers do, in terms of the bytes not read yet *)

Lemma length_rest b : length (rest b) = remains b.
Proof. unfold rest, remains, m_size. by rewrite length_drop. Qed.

Lemma rest_advance b n : rest (advance b n) = drop n (rest b).
Proof. unfold rest, advance. simpl. by rewrite drop_drop. Qed.

Lemma advance_advance b n m : advance (advance b n) m = advance b (n + m).
Proof. unfold advance. simpl. f_equal. lia. Qed.

Lemma in_wf_advance b n : in_wf b -> (n <= remains b)%nat -> in_wf (advance b n).
Proof. unfold in_wf, remains, advance, m_size. simpl. lia. Qed.

Lemma rest_new d : rest (inBuffer_new d) = d.
Proof. reflexivity. Qed.

Lemma in_wf_new d : in_wf (inBuffer_new d).
Proof. unfold in_wf. simpl. lia. Qed.

Lemma rest_lookup b : rest b !! 0%nat = m_data b !! out_pos b.
Proof. unfold rest. rewrite lookup_drop. f_equal. lia. Qed.

Lemma get_8_spec b :
  get_8 b = match rest b with
            | c :: _ => Ok (c, advance b 1)
            | [] => Throw (CommonError "inBuffer::get_8: noenough")
            end.
Proof.
  unfold get_8. pose proof (length_rest b) as Hl. pose proof (rest_lookup b) as Hk.
  unfold remains in Hl. destruct (rest b) as [|c r]; simpl in *.
  - destruct (Nat.ltb_spec (m_size b) (out_pos b + 1)); [done | lia].
  - destruct (Nat.ltb_spec (m_size b) (out_pos b + 1)); [lia|]. by rewrite <- Hk.
Qed.

Lemma get_8_nothrow_spec b :
  get_8_nothrow b = match rest b with
                    | c :: _ => (Some c, advance b 1)
                    | [] => (None, b)
                    end.
Proof.
  unfold get_8_nothrow. pose proof (length_rest b) as Hl. pose proof (rest_lookup b) as Hk.
  unfold remains in Hl. destruct (rest b) as [|c r]; simpl in *.
  - destruct (Nat.ltb_spec (m_size b) (out_pos b + 1)); [done | lia].
  - destruct (Nat.ltb_spec (m_size b) (out_pos b + 1)); [lia|]. by rewrite <- Hk.
Qed.

(** Reference decoder of a packed number on a plain byte list: the value and
    the number of bytes it took. *)
Fixpoint pn_decode (NN : Z) (l : list Z) : option (Z * nat) :=
  match l with
  | [] => None
  | c :: l' =>
      if c <? 0x80 then Some (Z.lor (wrapu 64 (Z.shiftl NN 7)) c, 1%nat)
      else match pn_decode (pn_acc NN c) l' with
           | Some (v, n) => Some (v, S n)
           | None => None
           end
  end.

Lemma get_PN_loop_spec fuel NN b :
  (remains b < fuel)%nat ->
  get_PN_loop fuel NN b =
    match pn_decode NN (rest b) with
    | Some (v, n) => Ok (v, advance b n)
    | None => Throw (CommonError "inBuffer::get_8: noenough")
    end.
Proof.
  revert NN b; induction fuel as [|f IH]; intros NN b Hf; [lia|].
  simpl. rewrite get_8_spec. pose proof (length_rest b) as Hl.
  destruct (rest b) as [|c r] eqn:Hr; simpl in *; [reflexivity|].
  destruct (c <? 128); [reflexivity|].
  assert (rest (advance b 1) = r) as Hr1 by (rewrite rest_advance, Hr; reflexivity).
  rewrite IH by (rewrite <- length_rest, Hr1; lia).
  rewrite Hr1. destruct (pn_decode _ r) as [[v n]|]; [|done].
  by rewrite advance_advance.
Qed.

Lemma get_PN_spec b :
  get_PN b = match pn_decode 0 (rest b) with
             | Some (v, n) => Ok (v, advance b n)
             | None => Throw (CommonError "inBuffer::get_8: noenough")
             end.
Proof. apply get_PN_loop_spec. lia. Qed.

Lemma get_PN_nothrow_loop_spec fuel NN b :
  (remains b < fuel)%nat ->
  get_PN_nothrow_loop fuel NN b =
    match pn_decode NN (rest b) with
    | Some (v, n) => (Some v, advance b n)
    | None => (None, advance b (remains b))
    end.
Proof.
  revert NN b; induction fuel as [|f IH]; intros NN b Hf; [lia|].
  simpl. rewrite get_8_nothrow_spec. pose proof (length_rest b) as Hl.
  destruct (rest b) as [|c r] eqn:Hr; simpl in *.
  - f_equal. rewrite <- Hl. unfold advance. destruct b. simpl. f_equal. lia.
  - destruct (c <? 128); [reflexivity|].
    assert (rest (advance b 1) = r) as Hr1 by (rewrite rest_advance, Hr; reflexivity).
    pose proof (length_rest (advance b 1)) as Hl1. rewrite Hr1 in Hl1.
    rewrite IH by lia. rewrite Hr1.
    destruct (pn_decode _ r) as [[v n]|]; rewrite advance_advance; [done|].
    by replace (1 + remains (advance b 1))%nat with (remains b) by lia.
Qed.

Lemma get_PN_nothrow_spec b :
  get_PN_nothrow b = match pn_decode 0 (rest b) with
                     | Some (v, n) => (Some v, advance b n)
                     | None => (None, advance b (remains b))
                     end.
Proof. apply get_PN_nothrow_loop_spec. lia. Qed.

Lemma pn_decode_len NN l v n : pn_decode NN l = Some (v, n) -> (1 <= n <= length l)%nat.
Proof.
  revert NN v n; induction l as [|c l IH]; intros NN v n; simpl; [done|].
  destruct (c <? 128); [intros; simplify_eq; lia|].
  destruct (pn_decode _ l) as [[v' n']|] eqn:E; [|done].
  intros; simplify_eq. apply IH in E. lia.
Qed.

(** A packed number ends at its first byte below 0x80: what follows it is not
    looked at. *)
Lemma pn_decode_app NN l1 l2 v n :
  pn_decode NN l1 = Some (v, n) -> pn_decode NN (l1 ++ l2) = Some (v, n).
Proof.
  revert NN v n; induction l1 as [|c l IH]; intros NN v n; simpl; [done|].
  destruct (c <? 128); [done|].
  destruct (pn_decode _ l) as [[v' n']|] eqn:E; [|done].
  intros; simplify_eq. by rewrite (IH _ _ _ E).
Qed.

(** ** Packed numbers *)

(** The digits [put_PN$] emits once it has found the first one. *)
Fixpoint pn_digits (k : nat) (N : Z) : list Z :=
  match k with
  | O => [Z.land N 0x7F]
  | S k' => Z.lor (Z.land (Z.shiftr N (7 * Z.of_nat k)) 0x7F) 0x80 :: pn_digits k' N
  end.

Fixpoint pn_enc (k : nat) (N : Z) : list Z :=
  if negb (Z.land (Z.shiftr N (7 * Z.of_nat k)) 0x7F =? 0) || (k =? 0)%nat
  then pn_digits k N
  else match k with O => [] | S k' => pn_enc k' N end.

Lemma pn_emit_spec {St} (put : St -> Z -> res St) s N k :
  pn_emit put s N k = foldM put s (pn_digits k N).
Proof.
  revert s; induction k as [|k IH]; intros s; simpl pn_emit; simpl pn_digits; simpl foldM.
  - by destruct (put s _).
  - destruct (put s _); simpl; [apply IH | done].
Qed.

Lemma pn_skip_spec {St} (put : St -> Z -> res St) s N k :
  pn_skip put s N k = foldM put s (pn_enc k N).
Proof.
  induction k as [|k IH].
  - simpl pn_skip. simpl pn_enc. rewrite orb_true_r. apply (pn_emit_spec put s N 0).
  - cbn [pn_skip pn_enc]. destruct (negb _ || _); [apply pn_emit_spec | apply IH].
Qed.

Lemma put_8_foldM o l :
  foldM (fun o c => Ok (put_8 o c)) o l = Ok (mkOut (container o ++ l)).
Proof.
  revert o; induction l as [|c l IH]; intros o; simpl.
  - rewrite app_nil_r. by destruct o.
  - rewrite IH. simpl. by rewrite <- app_assoc.
Qed.

(** The bytes [put_PN] appends. *)
Definition pn_bytes (N : Z) : list Z := pn_enc put_PN_start N.

Lemma container_put_PN o N : container (put_PN o N) = container o ++ pn_bytes N.
Proof. unfold put_PN. by rewrite pn_skip_spec, put_8_foldM. Qed.

Lemma digit_range N k : 0 <= Z.land (Z.shiftr N k) 0x7F < 128.
Proof. rewrite land_127. apply Z.mod_pos_bound. lia. Qed.

Lemma pn_digits_bytes k N : Forall is_byte (pn_digits k N).
Proof.
  induction k as [|k IH]; simpl pn_digits.
  - constructor; [|constructor]. rewrite land_127.
    pose proof (Z.mod_pos_bound N 128). unfold is_byte. lia.
  - constructor; [|exact IH]. pose proof (digit_range N (7 * Z.of_nat (S k))).
    rewrite lor_128 by lia. unfold is_byte. lia.
Qed.

Lemma pn_enc_bytes k N : Forall is_byte (pn_enc k N).
Proof.
  induction k as [|k IH]; cbn [pn_enc].
  - rewrite orb_true_r. apply pn_digits_bytes.
  - destruct (negb _ || _); [apply pn_digits_bytes | exact IH].
Qed.

Lemma pn_digits_length k N : length (pn_digits k N) = S k.
Proof. induction k as [|k IH]; simpl; [done | by rewrite IH]. Qed.

Lemma pn_enc_length k N : (1 <= length (pn_enc k N) <= S k)%nat.
Proof.
  induction k as [|k IH]; cbn [pn_enc].
  - rewrite orb_true_r, pn_digits_length. lia.
  - destruct (negb _ || _); [rewrite pn_digits_length; lia | lia].
Qed.

Lemma pn_acc_eq a d :
  0 <= d < 128 -> Z.lor (wrapu 64 (Z.shiftl a 7)) d = (a * 128 + d) mod 2 ^ 64.
Proof.
  intros Hd. unfold wrapu. rewrite Z.shiftl_mul_pow2 by lia.
  replace (2 ^ 64) with (2 ^ 57 * 2 ^ 7) by reflexivity.
  rewrite Z.mul_mod_distr_r by lia.
  rewrite <- Z.shiftl_mul_pow2, lor_shiftl_add by lia.
  pose proof (Z.mod_pos_bound a (2 ^ 57)). pose proof (Z.div_mod a (2 ^ 57)).
  apply (Z.mod_unique _ _ (a / 2 ^ 57)); lia.
Qed.

Lemma land_digit d : 0 <= d < 128 -> Z.land (d + 128) 127 = d.
Proof.
  intros H. rewrite land_127, <- Z.add_mod_idemp_r by lia.
  change (128 mod 128) with 0. rewrite Z.add_0_r. by apply Z.mod_small.
Qed.

Lemma mod_mul_add x P r M : M <> 0 -> (x mod M * P + r) mod M = (x * P + r) mod M.
Proof.
  intros HM. rewrite <- (Z.add_mod_idemp_l (x mod M * P)) by done.
  by rewrite Z.mul_mod_idemp_l, Z.add_mod_idemp_l by done.
Qed.

Lemma pn_digit_step N k :
  (N / 2 ^ (7 * Z.of_nat k)) mod 128 * 2 ^ (7 * Z.of_nat k) + N mod 2 ^ (7 * Z.of_nat k)
  = N mod 2 ^ (7 * Z.of_nat (S k)).
Proof.
  replace (2 ^ (7 * Z.of_nat (S k))) with (2 ^ (7 * Z.of_nat k) * 128).
  - assert (0 < 2 ^ (7 * Z.of_nat k)) by (apply Z.pow_pos_nonneg; lia).
    rewrite (Z.rem_mul_r N (2 ^ (7 * Z.of_nat k)) 128) by lia. ring.
  - rewrite Nat2Z.inj_succ. change 128 with (2 ^ 7). rewrite <- Z.pow_add_r by lia.
    f_equal. lia.
Qed.

Lemma pn_decode_digits k N a tl :
  pn_decode a (pn_digits k N ++ tl) =
    Some ((a * 2 ^ (7 * Z.of_nat (S k)) + N mod 2 ^ (7 * Z.of_nat (S k))) mod 2 ^ 64, S k).
Proof.
  revert a; induction k as [|k IH]; intros a.
  - simpl pn_digits. simpl app. cbn [pn_decode]. rewrite land_127.
    pose proof (Z.mod_pos_bound N 128).
    destruct (Z.ltb_spec (N mod 128) 128); [|lia].
    by rewrite pn_acc_eq by lia.
  - cbn [pn_digits app pn_decode].
    pose proof (digit_range N (7 * Z.of_nat (S k))) as Hd.
    rewrite lor_128 by lia.
    destruct (Z.ltb_spec (Z.land (N ≫ (7 * Z.of_nat (S k))) 127 + 128) 128); [lia|].
    rewrite IH. do 2 f_equal. unfold pn_acc.
    rewrite land_digit, pn_acc_eq by lia. rewrite land_127.
    rewrite <- (pn_digit_step N (S k)).
    rewrite Z.shiftr_div_pow2 by lia.
    set (P := 2 ^ (7 * Z.of_nat (S k))).
    replace (2 ^ (7 * Z.of_nat (S (S k)))) with (128 * P).
    2: { unfold P. change 128 with (2 ^ 7). rewrite <- Z.pow_add_r by lia. f_equal. lia. }
    rewrite mod_mul_add by lia. f_equal. ring.
Qed.

(** Leading zero digits do not change the number. *)
Lemma pn_enc_decode k N tl :
  exists n, pn_decode 0 (pn_enc k N ++ tl)
            = Some ((N mod 2 ^ (7 * Z.of_nat (S k))) mod 2 ^ 64, n)
            /\ n = length (pn_enc k N).
Proof.
  induction k as [|k IH]; cbn [pn_enc].
  - rewrite orb_true_r, pn_decode_digits, pn_digits_length. eauto.
  - destruct (Z.eqb_spec (Z.land (N ≫ (7 * Z.of_nat (S k))) 127) 0) as [H0|H0];
      cbn [negb orb Nat.eqb].
    + destruct IH as (n & Hn & Hl). exists n. split; [|exact Hl]. rewrite Hn. do 3 f_equal.
      rewrite <- (pn_digit_step N (S k)).
      rewrite land_127, Z.shiftr_div_pow2 in H0 by lia. rewrite H0. lia.
    + rewrite pn_decode_digits, pn_digits_length. eauto.
Qed.

(** With ten digits ([start] = 63) every 64-bit number survives. *)
Lemma pn_decode_enc N tl :
  0 <= N < 2 ^ 64 ->
  pn_decode 0 (pn_bytes N ++ tl) = Some (N, length (pn_bytes N)).
Proof.
  intros HN. unfold pn_bytes. destruct (pn_enc_decode put_PN_start N tl) as (n & -> & ->).
  do 2 f_equal. unfold put_PN_start.
  rewrite (Z.mod_small N (2 ^ (7 * Z.of_nat 10))).
  - by apply Z.mod_small.
  - split; [lia|]. eapply Z.lt_trans; [apply HN|]. reflexivity.
Qed.

Lemma pn_acc_range a d : 0 <= d < 128 -> 0 <= Z.lor (wrapu 64 (Z.shiftl a 7)) d < 2 ^ 64.
Proof. intros H. rewrite pn_acc_eq by done. apply Z.mod_pos_bound. lia. Qed.

(** Whatever the bytes, the number read fits in [uint64_t]. *)
Lemma pn_decode_range NN l v n :
  Forall is_byte l -> pn_decode NN l = Some (v, n) -> 0 <= v < 2 ^ 64.
Proof.
  intros Hl; revert NN v n; induction Hl as [|c l Hc Hl IH]; intros NN v n; simpl; [done|].
  unfold is_byte in Hc. destruct (Z.ltb_spec c 128).
  - intros; simplify_eq. apply pn_acc_range. lia.
  - destruct (pn_decode _ l) as [[v' n']|] eqn:E; [|done]. intros; simplify_eq. eauto.
Qed.

(** The readers and writers are used through their equations from here on. *)
#[global] Arguments container : simpl never.
#[global] Arguments put_PN : simpl never.
#[global] Arguments put_PSTR : simpl never.
#[global] Arguments out_int : simpl never.
#[global] Arguments out_bool : simpl never.
#[global] Arguments out_refbuffer : simpl never.
#[global] Arguments pn_bytes : simpl never.
#[global] Arguments get_8 : simpl never.
#[global] Arguments get_PN : simpl never.
#[global] Arguments get_PSTR : simpl never.
#[global] Arguments unpack : simpl never.
#[global] Arguments in_int : simpl never.
#[global] Arguments in_bool : simpl never.
#[global] Arguments in_refbuffer : simpl never.
#[global] Arguments rest : simpl never.
#[global] Arguments remains : simpl never.
#[global] Arguments advance : simpl never.
