(* ===== verification/Codec.v ===== *)
(** The interface of a serialisable type and its instances: the
    [operator<<]/[operator>>] pairs and templates of corelib/ioBuffer.h.

    A [Codec] holds the two operators of one C++ type and the set of values the
    writer is meant for.  [CodecLaws] is the contract the containers, routes,
    addresses and events rely on: writing appends, and reading back what was
    written returns the value and stops right after it.  [CodecSafe] is the
    contract towards hostile input: on any bytes at all, reading either
    succeeds inside the buffer or throws a C++ exception. *)

From Stdlib Require Import ZArith Lia.
From stdpp Require Import base list strings numbers.
From S2P Require Import Prelude StdMap IoBuffer.
Open Scope Z_scope.

Record Codec (A : Type) : Type := mkCodec {
  c_put : outBuffer -> A -> outBuffer;
  c_get : inBuffer -> res (A * inBuffer);
  c_dom : A -> Prop;
}.
Arguments mkCodec {A}.
Arguments c_put {A}.
Arguments c_get {A}.
Arguments c_dom {A}.

(** The bytes of a value. *)
Definition c_enc {A} (c : Codec A) (a : A) : list Z :=
  container (c_put c outBuffer_new a).

Class CodecLaws {A} (c : Codec A) : Prop := {
  c_put_app : forall o a, container (c_put c o a) = container o ++ c_enc c a;
  c_get_put : forall a b tl, c_dom c a -> rest b = c_enc c a ++ tl ->
    c_get c b = Ok (a, advance b (length (c_enc c a)));
}.

(** The outcome of a read that stayed inside its buffer. *)
Definition safe_read {A} (b : inBuffer) (r : res (A * inBuffer)) : Prop :=
  match r with
  | Ok (_, b') => exists n, b' = advance b n /\ (n <= remains b)%nat
  | Throw e => catchable e = true
  end.

Class CodecSafe {A} (c : Codec A) : Prop :=
  c_get_safe : forall b, safe_read b (c_get c b).

(** ** Composing reads *)

Lemma remains_advance b n : remains (advance b n) = (remains b - n)%nat.
Proof. unfold remains, advance, m_size. simpl. lia. Qed.

Lemma safe_read_bind {A B} b (m : res (A * inBuffer)) (f : A * inBuffer -> res (B * inBuffer)) :
  safe_read b m ->
  (forall a n, (n <= remains b)%nat -> safe_read (advance b n) (f (a, advance b n))) ->
  safe_read b (m ≫= f).
Proof.
  destruct m as [[a b']|e]; simpl; [|done]. intros (n & -> & Hn) Hf.
  specialize (Hf a n Hn). destruct (f _) as [[x b'']|e]; [|done].
  destruct Hf as (m & -> & Hm). rewrite remains_advance in Hm.
  exists (n + m)%nat. rewrite advance_advance. split; [done | lia].
Qed.

Lemma safe_read_ok {A} b (a : A) : safe_read b (Ok (a, b)).
Proof.
  exists 0%nat. split; [|lia]. unfold advance. destruct b. simpl. f_equal. lia.
Qed.

Lemma safe_get_PN b : safe_read b (get_PN b).
Proof.
  rewrite get_PN_spec. destruct (pn_decode 0 (rest b)) as [[v n]|] eqn:E; [|done].
  apply pn_decode_len in E. rewrite length_rest in E. exists n. split; [done | lia].
Qed.

Lemma safe_unpack b n : safe_read b (unpack b n).
Proof.
  unfold unpack, unpack_nothrow.
  destruct (Z.ltb_spec (Z.of_nat (remains b)) (wrapu 64 (cast I64 n))); simpl; [done|].
  eexists. split; [done | lia].
Qed.

#[export] Hint Resolve safe_read_ok safe_get_PN safe_unpack : megatron.

(** [c_get] on a buffer that starts with an encoding, then the rest. *)
Lemma c_get_bind {A B} (c : Codec A) `{!CodecLaws c} (f : A * inBuffer -> res B) a b tl :
  c_dom c a -> rest b = c_enc c a ++ tl ->
  (c_get c b ≫= f) = f (a, advance b (length (c_enc c a)))
  /\ rest (advance b (length (c_enc c a))) = tl.
Proof.
  intros Hd Hr. rewrite (c_get_put a b tl Hd Hr). split; [done|].
  by rewrite rest_advance, Hr, drop_app_length.
Qed.

(** Expose the two operators of a codec and the bytes it writes. *)
Tactic Notation "open_codec" reference(c) :=
  unfold c_enc, c in *; cbn [c_put c_get c_dom] in *.

(** ** Numbers *)

Lemma wrapu_wraps w z : 0 < w -> wrapu w (wraps w z) = wrapu w z.
Proof.
  intros Hw. unfold wrapu, wraps.
  rewrite Zminus_mod_idemp_l. f_equal. lia.
Qed.

Lemma unpack_spec b size :
  0 <= size < 2 ^ 64 ->
  unpack b size =
    if Z.of_nat (remains b) <? size
    then Throw (CommonError "inBuffer unpack:  buffer size to small")
    else Ok (take (Z.to_nat size) (rest b), advance b (Z.to_nat size)).
Proof.
  intros Hs. unfold unpack, unpack_nothrow.
  change (cast I64 size) with (wraps 64 size).
  rewrite wrapu_wraps, wrapu_small by lia. by destruct (_ <? size).
Qed.

Lemma get_PN_enc b N tl :
  0 <= N < 2 ^ 64 -> rest b = pn_bytes N ++ tl ->
  get_PN b = Ok (N, advance b (length (pn_bytes N))).
Proof. intros HN Hr. rewrite get_PN_spec, Hr, pn_decode_enc by exact HN. reflexivity. Qed.

Definition int_codec (t : ity) : Codec Z := mkCodec out_int (in_int t) (in_range t).

Lemma int_enc t v : c_enc (int_codec t) v = pn_bytes (wrapu 64 v).
Proof. open_codec int_codec. unfold out_int. rewrite container_put_PN. reflexivity. Qed.

#[export] Instance int_codec_laws t : CodecLaws (int_codec t).
Proof.
  split.
  - intros o a. rewrite int_enc. open_codec int_codec. unfold out_int. apply container_put_PN.
  - intros a b tl Hd Hr. rewrite int_enc in *. open_codec int_codec. unfold in_int.
    rewrite (get_PN_enc b _ tl (wrapu_range 64 a ltac:(lia)) Hr).
    rewrite res_bind_ok, cast_wrapu by (destruct t; simpl; lia). by rewrite cast_id.
Qed.

#[export] Instance int_codec_safe t : CodecSafe (int_codec t).
Proof.
  intros b. open_codec int_codec. unfold in_int. apply safe_read_bind; [apply safe_get_PN|].
  intros a n _. apply safe_read_ok.
Qed.

Definition bool_codec : Codec bool := mkCodec out_bool in_bool (fun _ => True).

#[export] Instance bool_codec_laws : CodecLaws bool_codec.
Proof.
  split.
  - intros o a. open_codec bool_codec. unfold out_bool. by rewrite !container_put_PN.
  - intros a b tl _ Hr. open_codec bool_codec. unfold out_bool in *.
    rewrite container_put_PN in *. unfold in_bool.
    rewrite (get_PN_enc b (if a then 1 else 0) tl ltac:(destruct a; lia) Hr).
    by destruct a.
Qed.

#[export] Instance bool_codec_safe : CodecSafe bool_codec.
Proof.
  intros b. open_codec bool_codec. unfold in_bool. apply safe_read_bind; [apply safe_get_PN|].
  intros a n _. apply safe_read_ok.
Qed.

(** ** Strings *)

(** A length that fits in [size_t]: any string in memory. *)
Definition str_dom (s : list Z) : Prop := Z.of_nat (length s) < 2 ^ 64.

Definition str_enc (s : list Z) : list Z :=
  pn_bytes (Z.of_nat (length s)) ++ s.

Lemma get_PSTR_enc b s tl :
  str_dom s -> rest b = str_enc s ++ tl ->
  ('(sz, b') ← get_PN b; unpack b' sz) = Ok (s, advance b (length (str_enc s))).
Proof.
  unfold str_dom, str_enc. intros Hd Hr. rewrite <- app_assoc in Hr.
  assert (0 <= Z.of_nat (length s) < 2 ^ 64) as Hd' by lia.
  rewrite (get_PN_enc b _ _ Hd' Hr). rewrite res_bind_ok.
  rewrite unpack_spec by lia.
  assert (rest (advance b (length (pn_bytes (Z.of_nat (length s))))) = s ++ tl) as Hr'.
  { by rewrite rest_advance, Hr, drop_app_length. }
  rewrite <- length_rest, Hr', length_app, advance_advance.
  destruct (Z.ltb_spec (Z.of_nat (length s + length tl)) (Z.of_nat (length s))); [lia|].
  rewrite Nat2Z.id, take_app_length. by rewrite length_app.
Qed.

Definition str_codec : Codec (list Z) := mkCodec put_PSTR get_PSTR str_dom.

Lemma container_put_PSTR o s :
  container (put_PSTR o s) =
    container o ++ pn_bytes (wrapu 64 (Z.of_nat (length s))) ++ s.
Proof. unfold put_PSTR, out_pack. open_codec str_codec. by rewrite container_put_PN, <- app_assoc. Qed.

#[export] Instance str_codec_laws : CodecLaws str_codec.
Proof.
  split.
  - intros o a. open_codec str_codec. by rewrite !container_put_PSTR.
  - intros a b tl Hd Hr. open_codec str_codec.
    rewrite container_put_PSTR, wrapu_small in Hr |- * by (unfold str_dom in Hd; lia).
    by apply (get_PSTR_enc b a tl).
Qed.

#[export] Instance str_codec_safe : CodecSafe str_codec.
Proof. intros b. open_codec str_codec. apply safe_read_bind; [apply safe_get_PN|]. intros. apply safe_unpack. Qed.

(** A [REF_getter<refbuffer>]: a null pointer is written like an empty buffer
    and read back as one, so the values that survive are the valid pointers. *)
Definition refbuffer_dom (s : option (list Z)) : Prop :=
  match s with Some c => str_dom c | None => False end.

Definition refbuffer_codec : Codec (option (list Z)) :=
  mkCodec out_refbuffer in_refbuffer refbuffer_dom.

#[export] Instance refbuffer_codec_laws : CodecLaws refbuffer_codec.
Proof.
  split.
  - intros o [a|]; open_codec refbuffer_codec;
      unfold out_refbuffer, out_pack; cbn [container]; [|by rewrite !container_put_PN].
    rewrite !container_put_PN. open_codec refbuffer_codec. by rewrite <- app_assoc.
  - intros [a|] b tl Hd Hr; [|destruct Hd]. open_codec refbuffer_codec.
    unfold out_refbuffer, out_pack in *. cbn [container refbuffer_dom] in *.
    rewrite container_put_PN, wrapu_small in Hr |- * by (unfold str_dom in Hd; lia).
    unfold in_refbuffer.
    pose proof (get_PSTR_enc b a tl Hd Hr) as E.
    destruct (get_PN b) as [[n b']|]; [|discriminate E].
    cbn [mbind res_bind] in *. rewrite E. reflexivity.
Qed.

#[export] Instance refbuffer_codec_safe : CodecSafe refbuffer_codec.
Proof.
  intros b. open_codec refbuffer_codec. unfold in_refbuffer. apply safe_read_bind; [apply safe_get_PN|]. intros n k _.
  apply safe_read_bind; [apply safe_unpack|]. intros. apply safe_read_ok.
Qed.

Lemma refbuffer_null_reads_empty b tl :
  rest b = c_enc refbuffer_codec None ++ tl ->
  c_get refbuffer_codec b = Ok (Some [], advance b 1).
Proof.
  intros Hr. assert (rest b = c_enc refbuffer_codec (Some []) ++ tl) as Hr' by exact Hr.
  assert (c_dom refbuffer_codec (Some [])) as Hd by reflexivity.
  exact (c_get_put (c := refbuffer_codec) (Some []) b tl Hd Hr').
Qed.

(** ** Pairs *)

Section PairCodec.
Context {A B : Type} (ca : Codec A) (cb : Codec B).

Definition out_pair (o : outBuffer) (p : A * B) : outBuffer :=
  c_put cb (c_put ca o (fst p)) (snd p).

Definition in_pair (b : inBuffer) : res ((A * B) * inBuffer) :=
  '(x, b1) ← c_get ca b; '(y, b2) ← c_get cb b1; Ok ((x, y), b2).

Definition pair_codec : Codec (A * B) :=
  mkCodec out_pair in_pair (fun p => c_dom ca (fst p) /\ c_dom cb (snd p)).

Context `{!CodecLaws ca, !CodecLaws cb}.

Lemma pair_enc p : c_enc pair_codec p = c_enc ca (fst p) ++ c_enc cb (snd p).
Proof.
  unfold c_enc at 1, pair_codec. cbn [c_put]. unfold out_pair.
  by rewrite !c_put_app.
Qed.

#[export] Instance pair_codec_laws : CodecLaws pair_codec.
Proof.
  split.
  - intros o p. rewrite pair_enc. unfold pair_codec. cbn [c_put]. unfold out_pair.
    by rewrite !c_put_app, <- app_assoc.
  - intros [x y] b tl [Hx Hy] Hr. rewrite pair_enc in *. cbn [fst snd] in *.
    rewrite <- app_assoc in Hr. unfold pair_codec. cbn [c_get]. unfold in_pair.
    destruct (c_get_bind ca (fun '(x, b1) => '(y, b2) ← c_get cb b1; Ok ((x, y), b2))
                x b _ Hx Hr) as [-> Hr2].
    destruct (c_get_bind cb (fun '(y, b2) => Ok ((x, y), b2)) y _ _ Hy Hr2) as [-> _].
    by rewrite advance_advance, length_app.
Qed.

#[export] Instance pair_codec_safe `{!CodecSafe ca, !CodecSafe cb} : CodecSafe pair_codec.
Proof.
  intros b. unfold pair_codec. cbn [c_get]. unfold in_pair.
  apply safe_read_bind; [apply c_get_safe|]. intros x n _.
  apply safe_read_bind; [apply c_get_safe|]. intros y m _. apply safe_read_ok.
Qed.
End PairCodec.

(** ** Sequences: [std::vector], [std::list], [std::deque] *)

Section SeqCodec.
Context {A : Type} (c : Codec A).

(** [for (auto &j : v) b << j;] *)
Definition out_elems (o : outBuffer) (l : list A) : outBuffer := fold_left (c_put c) l o.

(** [b << (unsigned int)v.size();] and the elements. *)
Definition out_seq (o : outBuffer) (l : list A) : outBuffer :=
  out_elems (out_int o (cast U32 (Z.of_nat (length l)))) l.

(** The reading loop, generic in what is done with each element [t]:
    [push_back], or [insert] for sets and maps. *)
Fixpoint in_loop {S} (add : S -> A -> S) (n : nat) (s : S) (b : inBuffer)
  : res (S * inBuffer) :=
  match n with
  | O => Ok (s, b)
  | S n' => '(t, b') ← c_get c b; in_loop add n' (add s t) b'
  end.

Definition in_seq (b : inBuffer) : res (list A * inBuffer) :=
  '(n, b') ← in_int U32 b;
  in_loop (fun v t => v ++ [t]) (Z.to_nat n) [] b'.

(** The count is a 32-bit number on the wire. *)
Definition seq_dom (l : list A) : Prop :=
  Z.of_nat (length l) < 2 ^ 32 /\ Forall (c_dom c) l.

Definition seq_codec : Codec (list A) := mkCodec out_seq in_seq seq_dom.

Definition elems_enc (l : list A) : list Z := mjoin (c_enc c <$> l).

Context `{!CodecLaws c}.

Lemma out_elems_app o l : container (out_elems o l) = container o ++ elems_enc l.
Proof.
  unfold out_elems, elems_enc. revert o; induction l as [|x l IH]; intros o; simpl.
  - by rewrite app_nil_r.
  - by rewrite IH, c_put_app, <- app_assoc.
Qed.

Lemma in_loop_enc {S} (add : S -> A -> S) l s b tl :
  Forall (c_dom c) l -> rest b = elems_enc l ++ tl ->
  in_loop add (length l) s b = Ok (fold_left add l s, advance b (length (elems_enc l))).
Proof.
  intros Hl; revert s b; induction Hl as [|x l Hx Hl IH]; intros s b Hr.
  - simpl. do 2 f_equal. unfold advance. destruct b. simpl. f_equal. lia.
  - unfold elems_enc in *. rewrite join_cons in *. cbn [length in_loop fold_left].
    rewrite <- app_assoc in Hr.
    destruct (c_get_bind c (fun '(t, b') => in_loop add (length l) (add s t) b')
                x b _ Hx Hr) as [-> Hr2].
    rewrite (IH _ _ Hr2), advance_advance, length_app. done.
Qed.

Lemma in_loop_safe {S} (add : S -> A -> S) `{!CodecSafe c} n s b :
  safe_read b (in_loop add n s b).
Proof.
  revert s b; induction n as [|n IH]; intros s b; cbn [in_loop].
  - apply safe_read_ok.
  - apply safe_read_bind; [apply c_get_safe|]. intros. apply IH.
Qed.

Definition count_enc (n : nat) : list Z := pn_bytes (wrapu 64 (cast U32 (Z.of_nat n))).

Lemma out_seq_app o l :
  container (out_seq o l) = container o ++ count_enc (length l) ++ elems_enc l.
Proof.
  unfold out_seq, out_int. by rewrite out_elems_app, container_put_PN, <- app_assoc.
Qed.

(** Read a count and then that many elements. *)
Lemma in_counted_enc {S} (add : S -> A -> S) l s b tl :
  Z.of_nat (length l) < 2 ^ 32 -> Forall (c_dom c) l ->
  rest b = (count_enc (length l) ++ elems_enc l) ++ tl ->
  ('(n, b') ← in_int U32 b; in_loop add (Z.to_nat n) s b')
  = Ok (fold_left add l s, advance b (length (count_enc (length l) ++ elems_enc l))).
Proof.
  intros Hn Hl Hr. rewrite <- app_assoc in Hr.
  assert (in_range U32 (Z.of_nat (length l))) as Hd by (cbv [in_range is_signed width]; lia).
  unfold count_enc in *. rewrite (cast_id U32 _ Hd) in *.
  rewrite <- (int_enc U32) in *.
  destruct (c_get_bind (int_codec U32) (fun '(n, b') => in_loop add (Z.to_nat n) s b')
              _ b _ Hd Hr) as [H1 Hr2].
  cbn [int_codec c_get] in H1. rewrite H1. clear H1. cbn beta iota.
  rewrite Nat2Z.id, (in_loop_enc add l s _ tl Hl Hr2).
  by rewrite advance_advance, length_app.
Qed.

Lemma in_counted_safe {S} (add : S -> A -> S) `{!CodecSafe c} s b :
  safe_read b ('(n, b') ← in_int U32 b; in_loop add (Z.to_nat n) s b').
Proof.
  apply safe_read_bind; [apply (int_codec_safe U32)|]. intros. by apply in_loop_safe.
Qed.

Lemma fold_push_back (l acc : list A) : fold_left (fun v t => v ++ [t]) l acc = acc ++ l.
Proof.
  revert acc; induction l as [|x l IH]; intros acc; simpl.
  - by rewrite app_nil_r.
  - by rewrite IH, <- app_assoc.
Qed.

#[export] Instance seq_codec_laws : CodecLaws seq_codec.
Proof.
  split.
  - intros o l. unfold c_enc, seq_codec. cbn [c_put]. by rewrite !out_seq_app by apply _.
  - intros l b tl [Hn Hl] Hr. unfold c_enc, seq_codec in *. cbn [c_put c_get] in *.
    rewrite out_seq_app in Hr |- * by apply _. unfold in_seq.
    rewrite (in_counted_enc _ l [] b tl Hn Hl Hr). by rewrite fold_push_back.
Qed.

#[export] Instance seq_codec_safe `{!CodecSafe c} : CodecSafe seq_codec.
Proof. intros b. apply in_counted_safe, _. Qed.
End SeqCodec.

(** ** Sets and maps *)

Section SetCodec.
Context {A : Type} (c : Codec A) (lt : A -> A -> bool).

(** [std::set]: written in iteration order, read back with [insert]. *)
Definition in_set (b : inBuffer) : res (list A * inBuffer) :=
  '(n, b') ← in_int U32 b;
  in_loop c (fun v t => set_insert lt t v) (Z.to_nat n) [] b'.

Definition set_codec : Codec (list A) :=
  mkCodec (out_seq c) in_set (fun s => set_sorted lt s /\ seq_dom c s).

Context `{!CodecLaws c, !StdOrder lt}.

#[export] Instance set_codec_laws : CodecLaws set_codec.
Proof.
  split.
  - intros o l. unfold c_enc, set_codec. cbn [c_put]. by rewrite !out_seq_app by apply _.
  - intros l b tl [Hs [Hn Hl]] Hr. unfold c_enc, set_codec in *. cbn [c_put c_get] in *.
    rewrite out_seq_app in Hr |- * by apply _. unfold in_set.
    rewrite (in_counted_enc _ _ l [] b tl Hn Hl Hr).
    by rewrite (set_insert_rebuild lt l []).
Qed.

#[export] Instance set_codec_safe `{!CodecSafe c} : CodecSafe set_codec.
Proof. intros b. apply in_counted_safe, _. Qed.
End SetCodec.

Section MapCodec.
Context {K V : Type} (ck : Codec K) (cv : Codec V) (lt : K -> K -> bool).

(** [std::map]: each entry is its key and its value. *)
Definition in_map (b : inBuffer) : res (list (K * V) * inBuffer) :=
  '(n, b') ← in_int U32 b;
  in_loop (pair_codec ck cv) (fun v t => map_insert lt (fst t) (snd t) v)
    (Z.to_nat n) [] b'.

Definition map_codec : Codec (list (K * V)) :=
  mkCodec (out_seq (pair_codec ck cv)) in_map
    (fun m => map_sorted lt m /\ seq_dom (pair_codec ck cv) m).

Context `{!CodecLaws ck, !CodecLaws cv, !StdOrder lt}.

#[export] Instance map_codec_laws : CodecLaws map_codec.
Proof.
  split.
  - intros o l. unfold c_enc, map_codec. cbn [c_put]. by rewrite !out_seq_app by apply _.
  - intros l b tl [Hs [Hn Hl]] Hr. unfold c_enc, map_codec in *. cbn [c_put c_get] in *.
    rewrite out_seq_app in Hr |- * by apply _. unfold in_map.
    rewrite (in_counted_enc _ _ l [] b tl Hn Hl Hr).
    by rewrite (map_insert_rebuild lt l []).
Qed.

#[export] Instance map_codec_safe `{!CodecSafe ck, !CodecSafe cv} : CodecSafe map_codec.
Proof. intros b. apply in_counted_safe, _. Qed.
End MapCodec.

#[global] Arguments out_elems : simpl never.
#[global] Arguments out_seq : simpl never.
#[global] Arguments c_enc : simpl never.

(** ** Properties *)

(** A number written by [outBuffer::put_PN] is read back by
    [inBuffer::get_PN], whatever follows it, for every 64-bit value; it takes
    one to ten bytes and the reader stops right after it. *)
Lemma pn_roundtrip N tl :
  0 <= N < 2 ^ 64 ->
  let w := container (put_PN outBuffer_new N) in
  (1 <= length w <= 10)%nat
  /\ exists b, get_PN (inBuffer_new (w ++ tl)) = Ok (N, b) /\ rest b = tl.
Proof.
  intros HN w. subst w. rewrite container_put_PN, app_nil_l. split; [apply (pn_enc_length 9)|].
  eexists. split; [by apply (get_PN_enc _ _ tl); [|rewrite rest_new]|].
  by rewrite rest_advance, rest_new, drop_app_length.
Qed.

Lemma pn_roundtrip_witness :
  exists b, get_PN (inBuffer_new (container (put_PN outBuffer_new 18446744073709551615) ++ [7])) =
            Ok (18446744073709551615, b) /\ rest b = [7].
Proof. exact (proj2 (pn_roundtrip 18446744073709551615 [7] ltac:(lia))). Defined.

(** A [std::map] of any element types with faithful codecs comes back from
    [operator>>] as it was written by [operator<<], and the reader stops right
    after it. *)
Lemma map_roundtrip {K V} (ck : Codec K) (cv : Codec V) `{!CodecLaws ck, !CodecLaws cv}
  (lt : K -> K -> bool) `{!StdOrder lt} (m : list (K * V)) tl :
  c_dom (map_codec ck cv lt) m ->
  exists b, c_get (map_codec ck cv lt) (inBuffer_new (container (c_put (map_codec ck cv lt) outBuffer_new m) ++ tl))
            = Ok (m, b) /\ rest b = tl.
Proof.
  intros Hd. rewrite c_put_app. cbn [container outBuffer_new]. rewrite app_nil_l.
  eexists. split; [apply (c_get_put m _ tl Hd); apply rest_new|].
  by rewrite rest_advance, rest_new, drop_app_length.
Qed.

Lemma map_roundtrip_witness :
  exists b, c_get (map_codec (int_codec I32) str_codec Z.ltb)
              (inBuffer_new (container (c_put (map_codec (int_codec I32) str_codec Z.ltb) outBuffer_new
                                          [(1, [97]); (2, [98; 99])]) ++ [9]))
            = Ok ([(1, [97]); (2, [98; 99])], b) /\ rest b = [9].
Proof.
  apply (map_roundtrip (int_codec I32) str_codec Z.ltb [(1, [97]); (2, [98; 99])] [9]).
  split; [repeat constructor|]. split; [by vm_compute|].
  repeat constructor; vm_compute; intuition congruence.
Defined.
