(* ===== verification/OBuf.v ===== *)
(** The fixed-size output buffer: [oBuf] of corelib/obuf.h and
    corelib/obuf.cpp, over an array its user supplies (the Oscar service builds
    every packet in one).

    The array is [mem]; a write outside it is [UB].  [put_8] and [pack] check
    the room that is left and throw [std::bad_alloc]; [Pack$], which ends
    [put_PSTR], does not.  The main lemma family, [ob_rel], relates an [oBuf]
    to the growing [outBuffer] and shows that as long as the bytes fit the two
    write the same packet. *)

From Stdlib Require Import ZArith Lia.
From stdpp Require Import base list strings numbers.
From S2P Require Import Prelude StdMap IoBuffer Codec.
Open Scope Z_scope.

Record oBuf : Type := mkOBuf { mem : list Z; bufsize : nat; cur_pos : nat }.

(** [oBuf(b, sz)]: [b] is the caller's array. *)
Definition oBuf_new (b : list Z) (sz : nat) : oBuf := mkOBuf b sz 0.

(** [memcpy(&buffer[cur_pos], s, len); cur_pos += len]. *)
Definition ob_memcpy (o : oBuf) (s : list Z) : res oBuf :=
  if (length (mem o) <? cur_pos o + length s)%nat
  then Throw (UB "oBuf: write past the array")
  else Ok (mkOBuf (take (cur_pos o) (mem o) ++ s ++ drop (cur_pos o + length s) (mem o))
                  (bufsize o) (cur_pos o + length s)).

Definition ob_put_8 (o : oBuf) (c : Z) : res oBuf :=
  if (bufsize o <? cur_pos o + 1)%nat then Throw BadAlloc else ob_memcpy o [c].

Definition ob_pack (o : oBuf) (s : list Z) : res oBuf :=
  if (bufsize o <? cur_pos o + length s)%nat then Throw BadAlloc else ob_memcpy o s.

(** [Pack$]: no test against [bufsize]. *)
Definition ob_Pack_unchecked (o : oBuf) (s : list Z) : res oBuf := ob_memcpy o s.

Definition ob_clear (o : oBuf) : oBuf := mkOBuf (mem o) (bufsize o) 0.
Definition ob_size (o : oBuf) : nat := cur_pos o.
Definition ob_asString (o : oBuf) : list Z := take (cur_pos o) (mem o).

Definition ob_put_PN (o : oBuf) (N : Z) : res oBuf := pn_skip ob_put_8 o N put_PN_start.

Definition ob_put_PSTR (o : oBuf) (s : list Z) : res oBuf :=
  o' ← ob_put_PN o (wrapu 64 (Z.of_nat (length s))); ob_Pack_unchecked o' s.

(** [operator<<] on an arithmetic type, a [bool] and a [REF_getter<refbuffer>]. *)
Definition ob_int (o : oBuf) (v : Z) : res oBuf := ob_put_PN o (wrapu 64 v).
Definition ob_bool (o : oBuf) (b : bool) : res oBuf := ob_put_PN o (if b then 1 else 0).
Definition ob_refbuffer (o : oBuf) (s : option (list Z)) : res oBuf :=
  match s with
  | Some c => o' ← ob_put_PN o (wrapu 64 (Z.of_nat (length c))); ob_pack o' c
  | None => ob_put_PN o 0
  end.

(** ** Invariant *)

(** The array has the size the constructor was told and the position is in it. *)
Definition ob_wf (o : oBuf) : Prop :=
  length (mem o) = bufsize o /\ (cur_pos o <= bufsize o)%nat.

(** An [oBuf] in step with the bytes written so far. *)
Definition ob_rel (size : nat) (w : list Z) (o : oBuf) : Prop :=
  ob_wf o /\ bufsize o = size /\ ob_asString o = w /\ cur_pos o = length w.

Lemma oBuf_new_rel b : ob_rel (length b) [] (oBuf_new b (length b)).
Proof. repeat split; simpl; lia. Qed.

Lemma ob_memcpy_fits size w o s :
  ob_rel size w o -> (length w + length s <= size)%nat ->
  exists o', ob_memcpy o s = Ok o' /\ ob_rel size (w ++ s) o'.
Proof.
  intros ([Hl Hc] & Hb & Hs & Hp) Hfit. unfold ob_memcpy.
  destruct (Nat.ltb_spec (length (mem o)) (cur_pos o + length s)); [lia|].
  eexists. split; [done|]. unfold ob_rel, ob_wf, ob_asString in *. cbn [mem bufsize cur_pos].
  rewrite !length_app, length_drop, length_take. repeat split; try lia.
  rewrite app_assoc, take_app_le by (rewrite length_app, length_take; lia).
  rewrite take_app_ge by (rewrite length_take; lia). rewrite Hs. f_equal.
  apply take_ge. lia.
Qed.

Lemma ob_pack_fits size w o s :
  ob_rel size w o -> (length w + length s <= size)%nat ->
  exists o', ob_pack o s = Ok o' /\ ob_rel size (w ++ s) o'.
Proof.
  intros H Hfit. unfold ob_pack. pose proof H as ([Hl Hc] & Hb & _ & Hp).
  destruct (Nat.ltb_spec (bufsize o) (cur_pos o + length s)); [lia|].
  by apply ob_memcpy_fits.
Qed.

Lemma ob_put_8_fits size w o c :
  ob_rel size w o -> (length w + 1 <= size)%nat ->
  exists o', ob_put_8 o c = Ok o' /\ ob_rel size (w ++ [c]) o'.
Proof. apply (ob_pack_fits size w o [c]). Qed.

Lemma ob_put_8s_fits size l w o :
  ob_rel size w o -> (length w + length l <= size)%nat ->
  exists o', foldM ob_put_8 o l = Ok o' /\ ob_rel size (w ++ l) o'.
Proof.
  revert w o; induction l as [|c l IH]; intros w o H Hfit.
  - exists o. by rewrite app_nil_r.
  - simpl in Hfit. destruct (ob_put_8_fits size w o c H) as (o1 & E & H1); [lia|].
    cbn [foldM]. rewrite E, res_bind_ok.
    destruct (IH _ _ H1) as (o2 & E2 & H2); [rewrite length_app; simpl; lia|].
    exists o2. split; [done|]. by rewrite <- app_assoc in H2.
Qed.

Lemma ob_put_PN_fits size w o N :
  ob_rel size w o -> (length w + length (pn_bytes N) <= size)%nat ->
  exists o', ob_put_PN o N = Ok o' /\ ob_rel size (w ++ pn_bytes N) o'.
Proof. intros H Hf. unfold ob_put_PN. rewrite pn_skip_spec. by apply ob_put_8s_fits. Qed.

Lemma refbuffer_enc s :
  c_enc refbuffer_codec s
  = match s with
    | Some c => pn_bytes (wrapu 64 (Z.of_nat (length c))) ++ c
    | None => pn_bytes 0
    end.
Proof.
  open_codec refbuffer_codec. unfold out_refbuffer, out_pack.
  destruct s; cbn [container outBuffer_new]; by rewrite container_put_PN, app_nil_l.
Qed.

(** A buffer object that fits is written as [outBuffer] writes it. *)
Lemma ob_refbuffer_fits size w o s :
  ob_rel size w o -> (length w + length (c_enc refbuffer_codec s) <= size)%nat ->
  exists o', ob_refbuffer o s = Ok o' /\ ob_rel size (w ++ c_enc refbuffer_codec s) o'.
Proof.
  rewrite refbuffer_enc.
  intros H Hf. destruct s as [c|]; cbn [ob_refbuffer]; [|by apply ob_put_PN_fits].
  rewrite length_app in Hf.
  destruct (ob_put_PN_fits size w o (wrapu 64 (Z.of_nat (length c))) H) as (o1 & -> & H1); [lia|].
  rewrite res_bind_ok, app_assoc. apply ob_pack_fits; [done|]. rewrite length_app. lia.
Qed.

(** ** What does not fit *)

Lemma ob_pack_throws size w o s :
  ob_rel size w o -> (size < length w + length s)%nat -> ob_pack o s = Throw BadAlloc.
Proof.
  intros (_ & <- & _ & <-) Hf. unfold ob_pack.
  by rewrite (proj2 (Nat.ltb_lt _ _) Hf).
Qed.

(** [put_PSTR] of a string whose length prefix fits and whose bytes do not. *)
Lemma ob_put_PSTR_overflow size w o s :
  ob_rel size w o ->
  (length w + length (pn_bytes (wrapu 64 (Z.of_nat (length s)))) <= size)%nat ->
  (size < length w + length (pn_bytes (wrapu 64 (Z.of_nat (length s)))) + length s)%nat ->
  ob_put_PSTR o s = Throw (UB "oBuf: write past the array").
Proof.
  intros H H1 H2. unfold ob_put_PSTR.
  destruct (ob_put_PN_fits size w o _ H H1) as (o1 & -> & ([Hl _] & Hb & _ & Hp)).
  rewrite res_bind_ok. unfold ob_Pack_unchecked, ob_memcpy. rewrite length_app in Hp.
  rewrite (proj2 (Nat.ltb_lt (length (mem o1)) (cur_pos o1 + length s))) by lia. done.
Qed.

(** ** Properties *)

(** [oBuf::put_PSTR] copies the string without testing the space left: when
    the length prefix still fits in the array and the bytes do not, it writes
    past the end of the array. *)
Lemma obuf_put_PSTR_overflows stack s :
  (length (pn_bytes (wrapu 64 (Z.of_nat (length s)))) <= length stack)%nat ->
  (length stack < length (pn_bytes (wrapu 64 (Z.of_nat (length s)))) + length s)%nat ->
  ob_put_PSTR (oBuf_new stack (length stack)) s = Throw (UB "oBuf: write past the array").
Proof. intros H1 H2. by apply (ob_put_PSTR_overflow (length stack) []); [apply oBuf_new_rel|..]. Qed.

Lemma obuf_put_PSTR_overflows_witness :
  ob_put_PSTR (oBuf_new [0; 0; 0] 3) [1; 2; 3] = Throw (UB "oBuf: write past the array").
Proof. apply (obuf_put_PSTR_overflows [0; 0; 0] [1; 2; 3]); vm_compute; lia. Defined.
