(* ===== verification/BitStream.v ===== *)
(** Streams of bits: [inBitStream] and [outBitStream] of corelib/_bitStream.h and
    corelib/_bitStream.cpp.

    The buffer of the output stream is heap memory: the list of its [bufsize]
    cells, fresh cells being what the allocator left there.  Byte operations
    need an aligned position; a write outside the memory, and a read outside the
    data, is undefined. *)

From Stdlib Require Import ZArith Lia.
From stdpp Require Import base strings numbers list.
From S2P Require Import Prelude IoBuffer Codec.
Open Scope Z_scope.

Record BitsPosition : Type := mkPos { pos : nat; bitsRemainsInByte : nat }.

Definition BitsPosition_new (p : nat) : BitsPosition := mkPos p 8.
Definition pos_clear (p : BitsPosition) : BitsPosition := mkPos 0 8.

(** One bit further. *)
Definition next_bit (p : BitsPosition) : BitsPosition :=
  match (bitsRemainsInByte p - 1)%nat with O => mkPos (S (pos p)) 8 | r => mkPos (pos p) r end.

Definition skip_bytes (n : nat) (p : BitsPosition) : BitsPosition := mkPos (pos p + n) (bitsRemainsInByte p).

Definition boundary_error : exn := CommonError "boundary error on BitStream remainder".

(** ** outBitStream *)

Record outBitStream : Type := mkOBS { buffer : list Z; o_pos : BitsPosition }.

Section Out.
(** What the allocator leaves in a fresh cell. *)
Context (junk : nat -> Z).

Definition fresh (from n : nat) : list Z := junk <$> seq from n.

Definition outBitStream_new : outBitStream := mkOBS (fresh 0 256) (BitsPosition_new 0).

Definition bufsize (o : outBitStream) : nat := length (buffer o).

Definition adjust (n : nat) (o : outBitStream) : outBitStream :=
  if (bufsize o <=? pos (o_pos o) + n)%nat
  then let nnew := (pos (o_pos o) + n + 1024)%nat in mkOBS (buffer o ++ fresh (bufsize o) (nnew - bufsize o)) (o_pos o)
  else o.

Definition obs_clear (o : outBitStream) : outBitStream := mkOBS (buffer o) (pos_clear (o_pos o)).

Definition aligned (o : outBitStream) : bool := (bitsRemainsInByte (o_pos o) =? 8)%nat.

Definition check_aligned (o : outBitStream) : res unit := if aligned o then Ok tt else Throw boundary_error.

(** [memcpy(&buffer[m_pos.pos], s, len); m_pos.pos += len]. *)
Definition copy (s : list Z) (o : outBitStream) : res outBitStream :=
  if (pos (o_pos o) + length s <=? bufsize o)%nat
  then Ok (mkOBS (take (pos (o_pos o)) (buffer o) ++ s ++ drop (pos (o_pos o) + length s) (buffer o)) (skip_bytes (length s) (o_pos o)))
  else Throw (UB "outBitStream: write past the buffer").

Definition obs_pack (s : list Z) (o : outBitStream) : res outBitStream :=
  _ ← check_aligned o; copy s (adjust (length s) o).

(** [Pack$] and [put_8$] do not adjust. *)
Definition Pack_ (s : list Z) (o : outBitStream) : res outBitStream := _ ← check_aligned o; copy s o.
Definition put_8_ (o : outBitStream) (c : Z) : res outBitStream := _ ← check_aligned o; copy [c] o.

Definition byte_of (v i : Z) : Z := Z.land (Z.shiftr v i) 0xFF.

Definition obs_put_8 (c : Z) : outBitStream -> res outBitStream := obs_pack [c].
Definition obs_put_16LE (l : Z) : outBitStream -> res outBitStream := obs_pack [byte_of l 0; byte_of l 8].
Definition obs_put_16BE (l : Z) : outBitStream -> res outBitStream := obs_pack [byte_of l 8; byte_of l 0].
Definition obs_put_32LE (l : Z) : outBitStream -> res outBitStream := obs_pack [byte_of l 0; byte_of l 8; byte_of l 16; byte_of l 24].
Definition obs_put_32BE (l : Z) : outBitStream -> res outBitStream := obs_pack [byte_of l 24; byte_of l 16; byte_of l 8; byte_of l 0].

(** [put_PN$]: [start] is 56, nine digits of seven bits. *)
Definition obs_put_PN (N : Z) (o : outBitStream) : res outBitStream := pn_skip put_8_ (adjust 10 o) N 8.

Definition obs_put_PSTR (c : list Z) (o : outBitStream) : res outBitStream :=
  o' ← obs_put_PN (wrapu 64 (Z.of_nat (length c))) (adjust (5 + length c) o); Pack_ c o'.

(** [operator<<] on the integer types converts to [unsigned long]; the 64-bit
    ones have the loop of [put_PN$] in their bodies. *)
Definition obs_int (v : Z) : outBitStream -> res outBitStream := obs_put_PN (wrapu 64 v).
Definition obs_bool (b : bool) : outBitStream -> res outBitStream := obs_put_PN (if b then 1 else 0).

Definition obs_size (o : outBitStream) : res Z := _ ← check_aligned o; Ok (Z.of_nat (pos (o_pos o))).
Definition asString (o : outBitStream) : res (list Z) := _ ← check_aligned o; Ok (take (pos (o_pos o)) (buffer o)).

Definition put_bit (b : Z) (o : outBitStream) : res outBitStream :=
  match buffer o !! pos (o_pos o) with
  | None => Throw (UB "outBitStream: write past the buffer")
  | Some x => Ok (mkOBS (<[pos (o_pos o) := Z.lor (wrapu 8 (Z.shiftl x 1)) b]> (buffer o)) (next_bit (o_pos o)))
  end.

(** The bits of [val] from position [i-1] down; a shift of a 32-bit value by 32
    or more is undefined. *)
Fixpoint put_bits_loop (val : Z) (i : nat) (o : outBitStream) : res outBitStream :=
  match i with
  | O => Ok o
  | S i' =>
      if (32 <=? i')%nat then Throw (UB "val >> i")
      else o' ← put_bit (Z.land (Z.shiftr val (Z.of_nat i')) 1) o; put_bits_loop val i' o'
  end.

Definition put_bits (val : Z) (bitcount : nat) (o : outBitStream) : res outBitStream :=
  if (bitsRemainsInByte (o_pos o) =? 0)%nat then Throw boundary_error
  else put_bits_loop (wrapu 32 val) bitcount (adjust (bitcount / 8) o).

Definition putTLVLength (len : Z) (o : outBitStream) : res outBitStream :=
  _ ← check_aligned o;
  if len <? 128 then o1 ← put_bits 0 1 o; put_bits len 7 o1
  else
    o1 ← put_bits 1 1 o;
    if len <? 0x10000 then o2 ← put_bits 2 7 o1; put_bits len 16 o2
    else if len <? 0x1000000 then o2 ← put_bits 3 7 o1; put_bits len 24 o2
    else o2 ← put_bits 4 7 o1; put_bits len 32 o2.
End Out.

(** ** inBitStream *)

Record inBitStream : Type := mkIBS { ib_data : list Z; i_pos : BitsPosition }.

Definition inBitStream_new (d : list Z) : inBitStream := mkIBS d (BitsPosition_new 0).

Definition ib_size (i : inBitStream) : nat := length (ib_data i).
Definition ib_remains (i : inBitStream) : nat := (ib_size i - pos (i_pos i))%nat.

Definition in_aligned (i : inBitStream) : res unit :=
  if (bitsRemainsInByte (i_pos i) =? 8)%nat then Ok tt else Throw boundary_error.

Definition ib_beforeEnd (i : inBitStream) : res bool := _ ← in_aligned i; Ok (pos (i_pos i) <? ib_size i)%nat.

(** An aligned stream reads bytes as an [inBuffer] does. *)
Definition as_inBuffer (i : inBitStream) : inBuffer := mkIn (ib_data i) (pos (i_pos i)).
Definition back (i : inBitStream) (b : inBuffer) : inBitStream := mkIBS (ib_data i) (mkPos (out_pos b) (bitsRemainsInByte (i_pos i))).

Definition bytewise {A} (f : inBuffer -> res (A * inBuffer)) (i : inBitStream) : res (A * inBitStream) :=
  _ ← in_aligned i; '(a, b) ← f (as_inBuffer i); Ok (a, back i b).

Definition ib_get_8 : inBitStream -> res (Z * inBitStream) := bytewise get_8.
Definition ib_unpack (n : nat) : inBitStream -> res (list Z * inBitStream) := bytewise (fun b => unpack_raw b (Z.of_nat n)).
Definition ib_unpackRest (i : inBitStream) : res (list Z * inBitStream) := ib_unpack (ib_remains i) i.

Definition ib_get_16LE (i : inBitStream) : res (Z * inBitStream) :=
  '(s, i') ← ib_unpack 2 i; match s with [a; b] => Ok (wrapu 16 (a + Z.shiftl b 8), i') | _ => Throw (CommonError "get_16LE: noenough") end.
Definition ib_get_16BE (i : inBitStream) : res (Z * inBitStream) :=
  '(s, i') ← ib_unpack 2 i; match s with [a; b] => Ok (wrapu 16 (Z.shiftl a 8 + b), i') | _ => Throw (CommonError "get_16BE: noenough") end.
Definition ib_get_32LE (i : inBitStream) : res (Z * inBitStream) :=
  '(s, i') ← ib_unpack 4 i;
  match s with
  | [a; b; c; d] => Ok (wrapu 32 (a + Z.shiftl b 8 + Z.shiftl c 16 + Z.shiftl d 24), i')
  | _ => Throw (CommonError "get_32LE: noenough")
  end.
Definition ib_get_32BE (i : inBitStream) : res (Z * inBitStream) :=
  '(s, i') ← ib_unpack 4 i;
  match s with
  | [a; b; c; d] => Ok (wrapu 32 (Z.shiftl a 24 + Z.shiftl b 16 + Z.shiftl c 8 + d), i')
  | _ => Throw (CommonError "get_32BE: noenough")
  end.

Definition ib_get_PN : inBitStream -> res (Z * inBitStream) := bytewise get_PN.

(** The length is compared with what is left, then the bytes are read one by one. *)
Definition ib_get_PSTR : inBitStream -> res (list Z * inBitStream) :=
  bytewise (fun b => '(sz, b1) ← get_PN b;
                     if Z.of_nat (remains b1) <? sz then Throw (CommonError "remains()<sz")
                     else match get_PSTR_loop (Z.to_nat sz) [] b1 with
                          | (Some s, b2) => Ok (s, b2)
                          | (None, _) => Throw (CommonError "inBitStream::get_8: noenough")
                          end).

(** The [_nothrow] forms still throw at an unaligned position. *)
Definition bytewise_nothrow {A} (f : inBuffer -> option A * inBuffer) (i : inBitStream) : res (option A * inBitStream) :=
  _ ← in_aligned i; let '(a, b) := f (as_inBuffer i) in Ok (a, back i b).

Definition ib_unpack_nothrow (n : nat) : inBitStream -> res (option (list Z) * inBitStream) :=
  bytewise_nothrow (fun b => unpack_nothrow b (Z.of_nat n)).
Definition ib_get_8_nothrow : inBitStream -> res (option Z * inBitStream) := bytewise_nothrow get_8_nothrow.
Definition ib_get_16LE_nothrow (i : inBitStream) : res (option Z * inBitStream) :=
  '(s, i') ← ib_unpack_nothrow 2 i; Ok (match s with Some [a; b] => Some (wrapu 16 (a + Z.shiftl b 8)) | _ => None end, i').
Definition ib_get_PN_nothrow : inBitStream -> res (option Z * inBitStream) := bytewise_nothrow get_PN_nothrow.
Definition ib_get_PSTR_nothrow : inBitStream -> res (option (list Z) * inBitStream) := bytewise_nothrow get_PSTR_nothrow.

Definition ib_int (t : ity) (i : inBitStream) : res (Z * inBitStream) := '(v, i') ← ib_get_PN i; Ok (cast t v, i').
Definition ib_bool (i : inBitStream) : res (bool * inBitStream) := '(v, i') ← ib_get_PN i; Ok (negb (v =? 0), i').

(** No test of the end. *)
Definition get_bit (i : inBitStream) : res (Z * inBitStream) :=
  match ib_data i !! pos (i_pos i) with
  | None => Throw (UB "inBitStream: read past the data")
  | Some x => Ok (Z.land (Z.shiftr x (Z.of_nat (bitsRemainsInByte (i_pos i)) - 1)) 1, mkIBS (ib_data i) (next_bit (i_pos i)))
  end.

Fixpoint get_bits_loop (n : nat) (val : Z) (i : inBitStream) : res (Z * inBitStream) :=
  match n with
  | O => Ok (val, i)
  | S n' => '(b, i') ← get_bit i; get_bits_loop n' (wraps 32 (Z.lor (Z.shiftl val 1) b)) i'
  end.

Definition get_bits (bitcount : nat) : inBitStream -> res (Z * inBitStream) := get_bits_loop bitcount 0.

Definition getTlvLength (i : inBitStream) : res (Z * inBitStream) :=
  '(b, i1) ← get_bit i;
  if b =? 0 then get_bits 7 i1
  else
    '(llen, i2) ← get_bits 7 i1;
    if 4 <? llen then Throw (CommonError "if(llen>4)")
    else '(v, i3) ← get_bits (Z.to_nat (llen * 8)) i2; Ok (wrapu 32 v, i3).

(** ** Bits *)

(** The low [n] bits of [v], the highest first. *)
Fixpoint bits (n : nat) (v : Z) : list bool :=
  match n with O => [] | S k => Z.testbit v (Z.of_nat k) :: bits k v end.

Definition bits_val (l : list bool) : Z := fold_left (fun a b => 2 * a + Z.b2z b) l 0.

Lemma bits_length n v : length (bits n v) = n.
Proof. induction n; cbn; congruence. Qed.

Lemma bits_ext n v w : (forall k, 0 <= k < Z.of_nat n -> Z.testbit v k = Z.testbit w k) -> bits n v = bits n w.
Proof. induction n as [|n IH]; intros H; cbn; [done|]. f_equal; [apply H; lia|]. apply IH. intros k Hk. apply H. lia. Qed.

Lemma bits_snoc n v : bits (S n) v = bits n (Z.shiftr v 1) ++ [Z.testbit v 0].
Proof.
  induction n as [|n IH]; [done|]. rewrite (eq_refl : bits (S (S n)) v = Z.testbit v (Z.of_nat (S n)) :: bits (S n) v), IH.
  cbn [bits app]. f_equal. rewrite Z.shiftr_spec by lia. f_equal. lia.
Qed.

Lemma bits_val_from a l : fold_left (fun a b => 2 * a + Z.b2z b) l a = a * 2 ^ Z.of_nat (length l) + bits_val l.
Proof.
  unfold bits_val. revert a. induction l as [|b l IH]; intros a; cbn [fold_left length]; [lia|].
  rewrite (IH (2 * a + _)), (IH (2 * 0 + _)). rewrite Nat2Z.inj_succ, Z.pow_succ_r by lia. lia.
Qed.

Lemma testbit_mod v n : 0 <= n -> v mod 2 ^ (n + 1) = Z.b2z (Z.testbit v n) * 2 ^ n + v mod 2 ^ n.
Proof.
  intros Hn. rewrite Z.testbit_spec' by done. rewrite Z.pow_add_r, Z.pow_1_r by lia.
  rewrite (Z.rem_mul_r v (2 ^ n) 2) by lia. lia.
Qed.

Lemma bits_val_bits n v : bits_val (bits n v) = v mod 2 ^ Z.of_nat n.
Proof.
  induction n as [|n IH]; [by rewrite Z.mod_1_r|]. cbn [bits]. unfold bits_val. cbn [fold_left].
  rewrite bits_val_from, bits_length, IH, Nat2Z.inj_succ, <- Z.add_1_r, testbit_mod by lia. lia.
Qed.

(** What has been written, and what is left to read. *)
Definition out_bits (o : outBitStream) : list bool :=
  mjoin (bits 8 <$> take (pos (o_pos o)) (buffer o))
  ++ bits (8 - bitsRemainsInByte (o_pos o)) (default 0 (buffer o !! pos (o_pos o))).

Definition in_bits (i : inBitStream) : list bool :=
  match drop (pos (i_pos i)) (ib_data i) with
  | [] => []
  | x :: tl => bits (bitsRemainsInByte (i_pos i)) x ++ mjoin (bits 8 <$> tl)
  end.

Definition pos_ok (p : BitsPosition) : Prop := (1 <= bitsRemainsInByte p <= 8)%nat.

Definition nbits (p : BitsPosition) : nat := (8 * pos p + (8 - bitsRemainsInByte p))%nat.

Lemma next_bit_ok p : pos_ok p -> pos_ok (next_bit p) /\ nbits (next_bit p) = S (nbits p).
Proof.
  unfold pos_ok, nbits, next_bit. destruct p as [p r]. cbn. intros Hr.
  destruct (r - 1)%nat eqn:E; cbn; lia.
Qed.

Lemma shifted_bits k x b : (k < 8)%nat -> bits (S k) (Z.lor (wrapu 8 (Z.shiftl x 1)) (Z.b2z b)) = bits k x ++ [b].
Proof.
  intros Hk. rewrite bits_snoc. f_equal.
  - apply bits_ext. intros j Hj. rewrite Z.shiftr_spec, Z.lor_spec by lia. unfold wrapu.
    rewrite Z.mod_pow2_bits_low, Z.shiftl_spec by lia.
    replace (Z.testbit (Z.b2z b) (j + 1)) with false by (destruct b; [symmetry; apply (Z.bits_above_log2 1); cbn; lia|by rewrite Z.bits_0]).
    rewrite orb_false_r. f_equal. lia.
  - rewrite Z.lor_spec. unfold wrapu. rewrite Z.mod_pow2_bits_low, Z.shiftl_spec_low by lia. by rewrite Z.b2z_bit0.
Qed.

Lemma land_1 v k : 0 <= k -> Z.land (Z.shiftr v k) 1 = Z.b2z (Z.testbit v k).
Proof.
  intros Hk. rewrite Z.testbit_spec' by done. change 1 with (Z.ones 1). rewrite Z.land_ones, Z.shiftr_div_pow2 by lia. done.
Qed.

Lemma put_bit_ok b o :
  pos_ok (o_pos o) -> (nbits (o_pos o) < 8 * bufsize o)%nat ->
  exists o', put_bit (Z.b2z b) o = Ok o' /\ out_bits o' = out_bits o ++ [b] /\ o_pos o' = next_bit (o_pos o) /\ bufsize o' = bufsize o.
Proof.
  intros Hp Hn. unfold put_bit, bufsize, nbits, pos_ok in *. destruct o as [buf [p r]]. cbn [buffer o_pos pos bitsRemainsInByte] in *.
  destruct (lookup_lt_is_Some_2 buf p ltac:(lia)) as [x Hx]. rewrite Hx.
  eexists. split; [reflexivity|]. split_and!; [|done|cbn; by rewrite length_insert].
  unfold out_bits. cbn [buffer o_pos pos bitsRemainsInByte]. rewrite Hx. cbn [default]. rewrite <- app_assoc, <- shifted_bits by lia.
  set (y := Z.lor _ _). unfold next_bit. cbn [pos bitsRemainsInByte]. destruct (r - 1)%nat eqn:E; cbn [pos bitsRemainsInByte].
  - replace (S (8 - r)) with 8%nat by lia. rewrite (take_S_r _ _ y) by (rewrite list_lookup_insert_eq; [done|lia]).
    rewrite take_insert, decide_False by lia. rewrite fmap_app, join_app. cbn [fmap list_fmap]. change (mjoin [bits 8 y]) with (bits 8 y ++ []).
    rewrite Nat.sub_diag. change (bits 0 ?v) with (@nil bool). by rewrite !app_nil_r.
  - rewrite take_insert, decide_False by lia. f_equal. rewrite list_lookup_insert_eq by lia. cbn [default]. f_equal. lia.
Qed.

Lemma put_bits_loop_ok val c : forall o,
  pos_ok (o_pos o) -> (nbits (o_pos o) + c <= 8 * bufsize o)%nat -> (c <= 32)%nat ->
  exists o', put_bits_loop val c o = Ok o' /\ out_bits o' = out_bits o ++ bits c val
             /\ pos_ok (o_pos o') /\ nbits (o_pos o') = (nbits (o_pos o) + c)%nat /\ bufsize o' = bufsize o.
Proof.
  induction c as [|c IH]; intros o Hp Hn Hc; cbn [put_bits_loop bits].
  { exists o. rewrite app_nil_r. split_and!; try done; lia. }
  destruct (Nat.leb_spec 32 c); [lia|]. rewrite land_1 by lia.
  destruct (put_bit_ok (Z.testbit val (Z.of_nat c)) o Hp ltac:(lia)) as (o1 & -> & Hb & Hp1 & Hs).
  destruct (next_bit_ok _ Hp) as [Hok Hnb]. rewrite res_bind_ok.
  destruct (IH o1) as (o2 & -> & Hb2 & Hp2 & Hn2 & Hs2); [by rewrite Hp1|rewrite Hp1; lia|lia|].
  exists o2. split_and!; [done| |done| |congruence].
  - by rewrite Hb2, Hb, <- app_assoc.
  - rewrite Hn2, Hp1. lia.
Qed.

Section Written.
Context (junk : nat -> Z).

Lemma adjust_ok n o :
  (pos (o_pos o) <= bufsize o)%nat ->
  o_pos (adjust junk n o) = o_pos o /\ (pos (o_pos o) + n < bufsize (adjust junk n o))%nat /\ (bufsize o <= bufsize (adjust junk n o))%nat
  /\ ((pos (o_pos o) < bufsize o)%nat \/ bitsRemainsInByte (o_pos o) = 8%nat -> out_bits (adjust junk n o) = out_bits o).
Proof.
  intros Hp. unfold adjust. destruct (Nat.leb_spec (bufsize o) (pos (o_pos o) + n)); [|split_and!; done || lia].
  unfold bufsize in *. cbn [buffer o_pos]. unfold fresh. rewrite length_app, length_fmap, length_seq. split_and!; [done|lia..|].
  unfold out_bits. cbn [buffer o_pos]. rewrite take_app_le by lia. intros [Hlt| ->]; [by rewrite lookup_app_l by done|done].
Qed.

Lemma put_bits_ok val c o :
  pos_ok (o_pos o) -> (nbits (o_pos o) + c <= 8 * (bufsize o - 1))%nat -> (0 < bufsize o)%nat -> (c <= 32)%nat ->
  exists o', put_bits junk val c o = Ok o' /\ out_bits o' = out_bits o ++ bits c val
             /\ pos_ok (o_pos o') /\ nbits (o_pos o') = (nbits (o_pos o) + c)%nat /\ (bufsize o <= bufsize o')%nat.
Proof.
  intros Hp Hn Hb Hc. unfold put_bits. assert (pos (o_pos o) < bufsize o)%nat as Hlt by (unfold nbits, pos_ok in *; lia).
  destruct (Nat.eqb_spec (bitsRemainsInByte (o_pos o)) 0); [unfold pos_ok in *; lia|].
  destruct (adjust_ok (c / 8) o ltac:(lia)) as (Ha & _ & Hs & Hbits).
  destruct (put_bits_loop_ok (wrapu 32 val) c (adjust junk (c / 8) o)) as (o' & -> & Hb' & Hp' & Hn' & Hs'); [by rewrite Ha|rewrite Ha; lia|done|].
  exists o'. rewrite Ha in Hn'. split_and!; [done| |done..|lia]. rewrite Hb', Hbits by auto. f_equal.
  apply bits_ext. intros k Hk. unfold wrapu. rewrite Z.mod_pow2_bits_low by lia. done.
Qed.
End Written.

(** ** Reading *)

Lemma get_bit_ok i b tl :
  pos_ok (i_pos i) -> in_bits i = b :: tl ->
  exists i', get_bit i = Ok (Z.b2z b, i') /\ in_bits i' = tl /\ pos_ok (i_pos i').
Proof.
  intros Hp. destruct (next_bit_ok _ Hp) as [Hok _]. unfold in_bits, get_bit, pos_ok in *. destruct i as [d [p r]].
  cbn [ib_data i_pos pos bitsRemainsInByte] in *. destruct (drop p d) as [|x l] eqn:Ed; [done|]. intros Hb.
  assert (d !! p = Some x) as Hx by (rewrite <- (Nat.add_0_r p), <- lookup_drop, Ed; done). rewrite Hx.
  destruct r as [|r]; [lia|]. cbn [bits app] in Hb. injection Hb as Hb Htl.
  replace (Z.of_nat (S r) - 1) with (Z.of_nat r) by lia. rewrite land_1, Hb by lia.
  eexists. split; [reflexivity|]. split; [|done]. cbn [ib_data i_pos next_bit bitsRemainsInByte pos]. unfold next_bit.
  cbn [bitsRemainsInByte pos]. replace (S r - 1)%nat with r by lia.
  destruct r as [|r]; cbn [pos bitsRemainsInByte].
  - rewrite <- Nat.add_1_r, <- drop_drop, Ed. cbn [drop]. cbn [bits app] in Htl. subst tl. by destruct l.
  - by rewrite Ed.
Qed.

(** The accumulator of [get_bits] is a 32-bit signed integer. *)
Lemma get_bits_acc val b : wraps 32 (Z.lor (Z.shiftl (wraps 32 val) 1) (Z.b2z b)) = wraps 32 (2 * val + Z.b2z b).
Proof.
  assert (Z.lor (Z.shiftl (wraps 32 val) 1) (Z.b2z b) = 2 * wraps 32 val + Z.b2z b) as ->.
  { rewrite Z.shiftl_mul_pow2 by lia. destruct b; cbn [Z.b2z]; [|rewrite Z.lor_0_r; lia].
    change (2 ^ 1) with 2. rewrite Z.mul_comm.
    destruct (wraps 32 val) as [|q|q]; [done|done|]. by destruct q. }
  unfold wraps. change (32 - 1) with 31. change (2 ^ 32) with 4294967296. change (2 ^ 31) with 2147483648.
  f_equal. Z.div_mod_to_equations. lia.
Qed.

Lemma get_bits_loop_ok l : forall tl val i,
  pos_ok (i_pos i) -> in_bits i = l ++ tl ->
  exists i', get_bits_loop (length l) (wraps 32 val) i = Ok (wraps 32 (fold_left (fun a b => 2 * a + Z.b2z b) l val), i')
             /\ in_bits i' = tl /\ pos_ok (i_pos i').
Proof.
  induction l as [|b l IH]; intros tl val i Hp Hb; cbn [length get_bits_loop fold_left]; [by exists i|].
  destruct (get_bit_ok i b (l ++ tl) Hp Hb) as (i1 & -> & Hb1 & Hp1). rewrite res_bind_ok, get_bits_acc. by apply IH.
Qed.

Lemma get_bits_ok c v tl i :
  pos_ok (i_pos i) -> in_bits i = bits c v ++ tl ->
  exists i', get_bits c i = Ok (wraps 32 (v mod 2 ^ Z.of_nat c), i') /\ in_bits i' = tl /\ pos_ok (i_pos i').
Proof.
  intros Hp Hb. destruct (get_bits_loop_ok (bits c v) tl 0 i Hp Hb) as (i' & E & Ht & Hp').
  exists i'. rewrite bits_length in E. fold (bits_val (bits c v)) in E. rewrite bits_val_bits in E. done.
Qed.

(** ** What is written is read *)

Section Roundtrip.
Context (junk : nat -> Z).

Definition write_fields (fs : list (Z * nat)) (o : outBitStream) : res outBitStream :=
  foldM (fun o f => put_bits junk f.1 f.2 o) o fs.

Fixpoint read_fields (cs : list nat) (i : inBitStream) : res (list Z * inBitStream) :=
  match cs with
  | [] => Ok ([], i)
  | c :: cs' => '(v, i1) ← get_bits c i; '(vs, i2) ← read_fields cs' i1; Ok (v :: vs, i2)
  end.

Definition field_ok (f : Z * nat) : Prop := 0 <= f.1 < 2 ^ Z.of_nat f.2 /\ (f.2 <= 32)%nat.

Definition total (fs : list (Z * nat)) : nat := sum_list (snd <$> fs).

Definition fields_bits (fs : list (Z * nat)) : list bool := mjoin ((fun f => bits f.2 f.1) <$> fs).

Lemma write_fields_ok fs : forall o,
  Forall field_ok fs -> pos_ok (o_pos o) -> (nbits (o_pos o) + total fs <= 8 * (bufsize o - 1))%nat -> (0 < bufsize o)%nat ->
  exists o', write_fields fs o = Ok o' /\ out_bits o' = out_bits o ++ fields_bits fs
             /\ pos_ok (o_pos o') /\ nbits (o_pos o') = (nbits (o_pos o) + total fs)%nat /\ (bufsize o <= bufsize o')%nat.
Proof.
  induction fs as [|[v c] fs IH]; intros o Hf Hp Hn Hb.
  { exists o. unfold fields_bits, total. cbn. rewrite app_nil_r. split_and!; done || lia. }
  apply Forall_cons in Hf as [[_ Hc] Hf]. change (total ((v, c) :: fs)) with (c + total fs)%nat in *. cbn [snd] in Hc.
  destruct (put_bits_ok junk v c o Hp ltac:(lia) Hb Hc) as (o1 & E1 & Hb1 & Hp1 & Hn1 & Hs1).
  destruct (IH o1 Hf Hp1 ltac:(lia) ltac:(lia)) as (o2 & E2 & Hb2 & Hp2 & Hn2 & Hs2).
  exists o2. unfold write_fields. cbn [foldM fst snd]. rewrite E1, res_bind_ok. split_and!; [done| |done|lia..].
  rewrite Hb2, Hb1, <- app_assoc. done.
Qed.

Lemma read_fields_ok fs : forall tl i,
  Forall field_ok fs -> pos_ok (i_pos i) -> in_bits i = fields_bits fs ++ tl ->
  exists i', read_fields (snd <$> fs) i = Ok ((fun f => cast I32 f.1) <$> fs, i') /\ in_bits i' = tl /\ pos_ok (i_pos i').
Proof.
  induction fs as [|[v c] fs IH]; intros tl i Hf Hp Hb; [by exists i|].
  apply Forall_cons in Hf as [[Hv _] Hf]. cbn [fst snd] in Hv. unfold fields_bits in Hb. rewrite join_cons, <- app_assoc in Hb.
  destruct (get_bits_ok c v _ i Hp Hb) as (i1 & E1 & Hb1 & Hp1). destruct (IH tl i1 Hf Hp1 Hb1) as (i2 & E2 & Hb2 & Hp2).
  exists i2. rewrite fmap_cons. cbn [read_fields snd]. rewrite E1, res_bind_ok, E2, res_bind_ok, Z.mod_small by done. done.
Qed.

Lemma out_bits_new : out_bits (outBitStream_new junk) = [] /\ pos_ok (o_pos (outBitStream_new junk)) /\ bufsize (outBitStream_new junk) = 256%nat.
Proof. split_and!; [done|split; cbn; lia|]. unfold bufsize, outBitStream_new, fresh. cbn [buffer]. by rewrite length_fmap, length_seq. Qed.

Lemma byte_boundary p : pos_ok p -> (nbits p mod 8 = 0)%nat -> bitsRemainsInByte p = 8%nat.
Proof.
  unfold nbits, pos_ok. intros Hp Hn. rewrite Nat.add_comm, Nat.mul_comm, Nat.Div0.mod_add in Hn.
  destruct (bitsRemainsInByte p) as [|[|[|[|[|[|[|[|[|]]]]]]]]]; cbn in Hn; lia.
Qed.

(** At a byte boundary the string holds the bits, and a reader sees them. *)
Lemma asString_bits o :
  pos_ok (o_pos o) -> (nbits (o_pos o) mod 8 = 0)%nat -> (pos (o_pos o) <= bufsize o)%nat ->
  exists s, asString o = Ok s /\ length s = pos (o_pos o) /\ in_bits (inBitStream_new s) = out_bits o.
Proof.
  intros Hp Hn Hs. pose proof (byte_boundary _ Hp Hn) as Hr.
  unfold asString, check_aligned, aligned. rewrite Hr. cbn [Nat.eqb]. rewrite res_bind_ok. eexists. split; [reflexivity|].
  split; [rewrite length_take; unfold bufsize in *; lia|]. unfold in_bits, out_bits, inBitStream_new. cbn [i_pos ib_data pos BitsPosition_new].
  rewrite drop_0, Hr, Nat.sub_diag. change (bits 0 ?v) with (@nil bool). rewrite app_nil_r. cbn [bitsRemainsInByte].
  destruct (take (pos (o_pos o)) (buffer o)); done.
Qed.

End Roundtrip.


(** ** Lengths *)

Section Tlv.
Context (junk : nat -> Z).

Definition tlv_fields (len : Z) : list (Z * nat) :=
  if len <? 128 then [(0, 1%nat); (len, 7%nat)]
  else if len <? 0x10000 then [(1, 1%nat); (2, 7%nat); (len, 16%nat)]
  else if len <? 0x1000000 then [(1, 1%nat); (3, 7%nat); (len, 24%nat)]
  else [(1, 1%nat); (4, 7%nat); (len, 32%nat)].

Lemma putTLV_fields len o : aligned o = true -> putTLVLength junk len o = write_fields junk (tlv_fields len) o.
Proof.
  intros Ha. unfold putTLVLength, check_aligned, tlv_fields. rewrite Ha, res_bind_ok. unfold write_fields.
  assert (forall r : res outBitStream, (r ≫= fun o => Ok o) = r) as Hr by (by intros []).
  destruct (len <? 128); [|destruct (len <? 65536); [|destruct (len <? 16777216)]]; cbn [foldM fst snd]; 
    repeat (match goal with |- (?m ≫= _) = _ => destruct m; [rewrite !res_bind_ok|done] end); by rewrite ?Hr.
Qed.

Lemma tlv_total len : (total (tlv_fields len) mod 8 = 0)%nat /\ (total (tlv_fields len) <= 40)%nat.
Proof. unfold tlv_fields. destruct (len <? 128), (len <? 65536), (len <? 16777216); cbn; lia. Qed.

Lemma tlv_fields_ok len : 0 <= len < 2 ^ 32 -> Forall field_ok (tlv_fields len).
Proof.
  intros H. unfold tlv_fields, field_ok.
  destruct (Z.ltb_spec len 128), (Z.ltb_spec len 65536), (Z.ltb_spec len 16777216); repeat constructor; cbn [fst snd]; lia.
Qed.

Lemma getTlv_fields len i tl :
  0 <= len < 2 ^ 32 -> pos_ok (i_pos i) -> in_bits i = fields_bits (tlv_fields len) ++ tl ->
  exists i', getTlvLength i = Ok (len, i') /\ in_bits i' = tl /\ pos_ok (i_pos i').
Proof.
  intros Hlen Hp Hb. unfold fields_bits in Hb. unfold tlv_fields in Hb. unfold getTlvLength.
  destruct (Z.ltb_spec len 128) as [H7|H7].
  - rewrite !join_cons, <- !app_assoc in Hb. cbn [fst snd bits app] in Hb. cbn [Z.of_nat] in Hb. rewrite Z.testbit_0_l in Hb.
    destruct (get_bit_ok _ _ _ Hp Hb) as (i1 & -> & Hb1 & Hp1). rewrite res_bind_ok. cbn [Z.b2z Z.eqb].
    destruct (get_bits_ok 7 len tl i1 Hp1) as (i2 & -> & Hb2 & Hp2); [exact Hb1|].
    exists i2. split_and!; [|done..]. do 2 f_equal. rewrite Z.mod_small by lia. apply wraps_small; lia.
  - assert (exists n, (2 <= n <= 4)%nat /\ in_bits i = true :: bits 7 (Z.of_nat n) ++ bits (n * 8) len ++ tl
                      /\ len mod 2 ^ Z.of_nat (n * 8) = len) as (n & Hn & Hb' & Hm).
    { destruct (Z.ltb_spec len 65536); [exists 2%nat|destruct (Z.ltb_spec len 16777216); [exists 3%nat|exists 4%nat]];
        (split; [lia|split; [rewrite Hb; by rewrite !join_cons, join_nil, app_nil_r|rewrite Z.mod_small; cbn; lia]]). }
    destruct (get_bit_ok _ _ _ Hp Hb') as (i1 & -> & Hb1 & Hp1). rewrite res_bind_ok. cbn [Z.b2z Z.eqb].
    destruct (get_bits_ok 7 (Z.of_nat n) _ i1 Hp1 Hb1) as (i2 & -> & Hb2 & Hp2). rewrite res_bind_ok.
    rewrite Z.mod_small, wraps_small by lia. destruct (Z.ltb_spec 4 (Z.of_nat n)); [lia|].
    replace (Z.to_nat (Z.of_nat n * 8)) with (n * 8)%nat by lia.
    destruct (get_bits_ok (n * 8) len tl i2 Hp2 Hb2) as (i3 & -> & Hb3 & Hp3). rewrite res_bind_ok, Hm.
    exists i3. split_and!; [|done..]. do 2 f_equal. rewrite wrapu_wraps by lia. by apply wrapu_small.
Qed.

Fixpoint read_tlvs (n : nat) (i : inBitStream) : res (list Z * inBitStream) :=
  match n with
  | O => Ok ([], i)
  | S n' => '(v, i1) ← getTlvLength i; '(vs, i2) ← read_tlvs n' i1; Ok (v :: vs, i2)
  end.

Definition tlv_bits (lens : list Z) : nat := sum_list ((fun len => total (tlv_fields len)) <$> lens).

Definition tlvs_bits (lens : list Z) : list bool := mjoin ((fun len => fields_bits (tlv_fields len)) <$> lens).

Definition tlv_dom (len : Z) : Prop := 0 <= len < 2 ^ 32.

Lemma write_tlvs_ok lens : forall o,
  Forall tlv_dom lens -> pos_ok (o_pos o) -> (nbits (o_pos o) mod 8 = 0)%nat ->
  (nbits (o_pos o) + tlv_bits lens <= 8 * (bufsize o - 1))%nat -> (0 < bufsize o)%nat ->
  exists o', foldM (fun o len => putTLVLength junk len o) o lens = Ok o' /\ out_bits o' = out_bits o ++ tlvs_bits lens
             /\ pos_ok (o_pos o') /\ (nbits (o_pos o') mod 8 = 0)%nat
             /\ nbits (o_pos o') = (nbits (o_pos o) + tlv_bits lens)%nat /\ (bufsize o <= bufsize o')%nat.
Proof.
  induction lens as [|len lens IH]; intros o Hd Hp H8 Hn Hb.
  { exists o. unfold tlvs_bits, tlv_bits. cbn. rewrite app_nil_r. split_and!; done || lia. }
  apply Forall_cons in Hd as [Hl Hd]. change (tlv_bits (len :: lens)) with (total (tlv_fields len) + tlv_bits lens)%nat in *.
  destruct (tlv_total len) as [Ht _]. cbn [foldM].
  rewrite putTLV_fields by (unfold aligned; by rewrite (byte_boundary _ Hp H8)).
  destruct (write_fields_ok junk (tlv_fields len) o (tlv_fields_ok len Hl) Hp ltac:(lia) Hb) as (o1 & -> & Hb1 & Hp1 & Hn1 & Hs1).
  assert (nbits (o_pos o1) mod 8 = 0)%nat as H81 by (rewrite Hn1, Nat.Div0.add_mod, H8, Ht; done).
  destruct (IH o1 Hd Hp1 H81 ltac:(lia) ltac:(lia)) as (o2 & E2 & Hb2 & Hp2 & H82 & Hn2 & Hs2).
  exists o2. rewrite res_bind_ok. split_and!; [done| |done|done|lia|lia]. by rewrite Hb2, Hb1, <- app_assoc.
Qed.

Lemma read_tlvs_ok lens : forall tl i,
  Forall tlv_dom lens -> pos_ok (i_pos i) -> in_bits i = tlvs_bits lens ++ tl ->
  exists i', read_tlvs (length lens) i = Ok (lens, i') /\ in_bits i' = tl.
Proof.
  induction lens as [|len lens IH]; intros tl i Hd Hp Hb; [by exists i|].
  apply Forall_cons in Hd as [Hl Hd]. unfold tlvs_bits in Hb. rewrite join_cons, <- app_assoc in Hb.
  destruct (getTlv_fields len i _ Hl Hp Hb) as (i1 & E1 & Hb1 & Hp1). destruct (IH tl i1 Hd Hp1 Hb1) as (i2 & E2 & Hb2).
  exists i2. cbn [length read_tlvs]. by rewrite E1, res_bind_ok, E2.
Qed.

(** Lengths of up to 32 bits written by [putTLVLength] are read back by
    [getTlvLength]. *)
Lemma tlv_lengths_roundtrip lens :
  Forall tlv_dom lens -> (tlv_bits lens <= 8 * 255)%nat ->
  exists o s i, foldM (fun o len => putTLVLength junk len o) (outBitStream_new junk) lens = Ok o
                /\ asString o = Ok s /\ read_tlvs (length lens) (inBitStream_new s) = Ok (lens, i) /\ in_bits i = [].
Proof.
  intros Hd Hle. destruct (out_bits_new junk) as (Hb0 & Hp0 & Hs0).
  destruct (write_tlvs_ok lens (outBitStream_new junk) Hd Hp0) as (o & E & Hb & Hp & H8 & Hn & Hs); [done|rewrite Hs0; cbn; lia|lia|].
  change (nbits (o_pos (outBitStream_new junk))) with 0%nat in Hn. rewrite Hs0 in Hs. cbn [Nat.add] in Hn.
  destruct (asString_bits o Hp H8) as (s & Es & Hl & Hi); [unfold nbits, pos_ok in *; lia|].
  destruct (read_tlvs_ok lens [] (inBitStream_new s) Hd) as (i & Er & Hbi); [split; cbn; lia|by rewrite Hi, Hb, Hb0, app_nil_r|].
  by exists o, s, i.
Qed.
End Tlv.

(** ** Where it fails *)

(** The bytes written so far, at an aligned position. *)
Definition out_str (o : outBitStream) : list Z := take (pos (o_pos o)) (buffer o).

Definition out_ready (o : outBitStream) : Prop := aligned o = true /\ (pos (o_pos o) <= bufsize o)%nat.

Lemma copy_ok s o :
  out_ready o -> (pos (o_pos o) + length s <= bufsize o)%nat ->
  exists o', copy s o = Ok o' /\ out_str o' = out_str o ++ s /\ out_ready o' /\ bufsize o' = bufsize o
             /\ pos (o_pos o') = (pos (o_pos o) + length s)%nat.
Proof.
  intros [Ha Hp] Hs. unfold copy. destruct (Nat.leb_spec (pos (o_pos o) + length s) (bufsize o)); [|lia].
  eexists. split; [reflexivity|]. unfold out_str, out_ready, bufsize, aligned in *. cbn [o_pos buffer pos skip_bytes bitsRemainsInByte].
  rewrite !length_app, length_take, length_drop. split_and!; [|done|lia..].
  rewrite app_assoc. rewrite take_app_le by (rewrite length_app, length_take; lia). by rewrite take_ge by (rewrite length_app, length_take; lia).
Qed.

Lemma put_8s_ok l : forall o,
  out_ready o -> (pos (o_pos o) + length l <= bufsize o)%nat ->
  exists o', foldM put_8_ o l = Ok o' /\ out_str o' = out_str o ++ l /\ out_ready o'.
Proof.
  induction l as [|c l IH]; intros o Hr Hs; cbn [foldM length] in *; [exists o; by rewrite app_nil_r|].
  destruct (copy_ok [c] o Hr ltac:(cbn; lia)) as (o1 & E & Hb & Hr1 & Hs1 & Hp1). cbn [length] in Hp1.
  assert (put_8_ o c = Ok o1) as -> by (unfold put_8_, check_aligned; by rewrite (proj1 Hr)). rewrite res_bind_ok.
  destruct (IH o1 Hr1 ltac:(lia)) as (o2 & -> & Hb2 & Hr2). exists o2. by rewrite Hb2, Hb, <- app_assoc.
Qed.

(** A field that does not fit is written past the buffer. *)
Lemma put_bits_loop_over val c : forall o,
  pos_ok (o_pos o) -> (nbits (o_pos o) <= 8 * bufsize o)%nat -> (8 * bufsize o < nbits (o_pos o) + c)%nat -> (c <= 32)%nat ->
  put_bits_loop val c o = Throw (UB "outBitStream: write past the buffer").
Proof.
  induction c as [|c IH]; intros o Hp Hle Hlt Hc; [lia|]. cbn [put_bits_loop]. destruct (Nat.leb_spec 32 c); [lia|].
  destruct (decide (nbits (o_pos o) < 8 * bufsize o)%nat) as [Hin|Hin].
  - rewrite land_1 by lia. destruct (put_bit_ok (Z.testbit val (Z.of_nat c)) o Hp Hin) as (o1 & -> & _ & Hp1 & Hs1).
    destruct (next_bit_ok _ Hp) as [Hok Hn]. rewrite res_bind_ok. apply IH; rewrite ?Hp1, ?Hs1; done || lia.
  - unfold put_bit. rewrite lookup_ge_None_2; [done|]. unfold nbits, pos_ok, bufsize in *. lia.
Qed.

Section Fails.
Context (junk : nat -> Z).

Lemma obs_put_PN_ok N o : out_ready o -> exists o', obs_put_PN junk N o = Ok o' /\ out_str o' = out_str o ++ pn_enc 8 N /\ out_ready o'.
Proof.
  intros [Ha Hp]. unfold obs_put_PN. rewrite pn_skip_spec. destruct (adjust_ok junk 10 o Hp) as (Hpo & Hlt & Hs & _).
  assert (out_str (adjust junk 10 o) = out_str o) as <-.
  { unfold out_str, adjust, bufsize in *. destruct (_ <=? _)%nat; [|done]. cbn [buffer o_pos]. by rewrite take_app_le. }
  apply put_8s_ok; [split; [unfold aligned in *; by rewrite Hpo|rewrite Hpo; lia]|]. rewrite Hpo. pose proof (pn_enc_length 8 N). lia.
Qed.

(** The numbers of the bit stream have nine digits of seven bits where those
    of outBuffer have ten: a 64-bit integer loses its top bit, so a negative one
    is read back as the number 2^63 above it. *)
Lemma bitstream_int64_sign_lost v :
  in_range I64 v ->
  exists o s i, obs_int junk v (outBitStream_new junk) = Ok o /\ asString o = Ok s
                /\ ib_int I64 (inBitStream_new s) = Ok (if v <? 0 then v + 2 ^ 63 else v, i).
Proof.
  intros Hv. destruct (out_bits_new junk) as (_ & _ & Hs0).
  destruct (obs_put_PN_ok (wrapu 64 v) (outBitStream_new junk)) as (o & E & Hb & [Ha Hp]); [split; [done|cbn; lia]|].
  exists o, (pn_enc 8 (wrapu 64 v)). change (out_str (outBitStream_new junk)) with (@nil Z) in Hb. cbn [app] in Hb.
  unfold asString, check_aligned. rewrite Ha, res_bind_ok. fold (out_str o). rewrite Hb.
  destruct (pn_enc_decode 8 (wrapu 64 v) []) as (n & Hd & _). rewrite app_nil_r in Hd.
  eexists. split_and!; [exact E|done|]. unfold ib_int, ib_get_PN, bytewise, in_aligned. cbn [i_pos inBitStream_new BitsPosition_new bitsRemainsInByte Nat.eqb].
  rewrite res_bind_ok, get_PN_spec. change (rest (as_inBuffer (inBitStream_new ?d))) with d. rewrite Hd. rewrite !res_bind_ok. do 2 f_equal.
  unfold wrapu, cast, wraps, in_range in *. cbn [is_signed width] in *. change (2 ^ (7 * Z.of_nat 9)) with 9223372036854775808.
  change (2 ^ 64) with 18446744073709551616. change (2 ^ (64 - 1)) with 9223372036854775808 in *. change (2 ^ 63) with 9223372036854775808.
  destruct (Z.ltb_spec v 0); Z.div_mod_to_equations; lia.
Qed.

(** put_bits asks for the whole bytes of the field only: after 255 bytes and
    five bits, seven more bits are written past the end of the buffer. *)
Lemma put_bits_heap_overflow bs v w :
  length bs = 255%nat ->
  (o1 ← obs_pack junk bs (outBitStream_new junk); o2 ← put_bits junk v 5 o1; put_bits junk w 7 o2)
  = Throw (UB "outBitStream: write past the buffer").
Proof.
  intros Hl. destruct (out_bits_new junk) as (_ & _ & Hs0).
  assert (obs_pack junk bs (outBitStream_new junk) = copy bs (outBitStream_new junk)) as ->.
  { unfold obs_pack, adjust. rewrite Hl, Hs0. done. }
  destruct (copy_ok bs (outBitStream_new junk)) as (o1 & -> & _ & [Ha1 _] & Hs1 & Hp1); [split; [done|cbn; lia]|rewrite Hs0, Hl; cbn; lia|].
  rewrite res_bind_ok. rewrite Hs0 in Hs1. rewrite Hl in Hp1. cbn [Nat.add o_pos outBitStream_new pos BitsPosition_new] in Hp1.
  apply Nat.eqb_eq in Ha1.
  assert (put_bits junk v 5 o1 = put_bits_loop (wrapu 32 v) 5 o1) as -> by (unfold put_bits, adjust; rewrite Ha1, Hp1, Hs1; done).
  destruct (put_bits_loop_ok (wrapu 32 v) 5 o1) as (o2 & -> & _ & Hok2 & Hn2 & Hs2);
    [unfold pos_ok; lia|unfold nbits; lia|lia|]. rewrite res_bind_ok.
  assert (pos (o_pos o2) = 255 /\ bitsRemainsInByte (o_pos o2) = 3)%nat as [Hp2 Hr2] by (unfold nbits, pos_ok in *; lia).
  assert (put_bits junk w 7 o2 = put_bits_loop (wrapu 32 w) 7 o2) as -> by (unfold put_bits, adjust; rewrite Hr2, Hp2, Hs2, Hs1; done).
  apply put_bits_loop_over; unfold nbits; lia || done.
Qed.
End Fails.

Lemma bitstream_int64_sign_lost_witness :
  exists o s i, obs_int (fun _ => 0) (-1) (outBitStream_new (fun _ => 0)) = Ok o /\ asString o = Ok s
                /\ ib_int I64 (inBitStream_new s) = Ok (2 ^ 63 - 1, i).
Proof. apply (bitstream_int64_sign_lost (fun _ => 0) (-1)). unfold in_range. cbn. lia. Defined.

Lemma put_bits_heap_overflow_witness :
  (o1 ← obs_pack (fun _ => 0) (replicate 255 65) (outBitStream_new (fun _ => 0));
   o2 ← put_bits (fun _ => 0) 1 5 o1; put_bits (fun _ => 0) 2 7 o2) = Throw (UB "outBitStream: write past the buffer").
Proof. apply (put_bits_heap_overflow (fun _ => 0)). reflexivity. Defined.

(** Reading past the data is not tested. *)
Lemma get_bit_past_end d : get_bit (mkIBS d (mkPos (length d) 8)) = Throw (UB "inBitStream: read past the data").
Proof. unfold get_bit. cbn [ib_data i_pos pos]. by rewrite lookup_ge_None_2. Qed.
