(* ===== verification/Route.v ===== *)
(** Event routes: [Route] and [route_t] of corelib/route_t.h and
    corelib/route_t.cpp.

    A route is the stack of return hops an event carries: [sendEvent] pushes the
    hop it goes through, [passEvent] pops the last one.  [route_t] is its
    [m_container], the bottom of the stack first.  A pointer hop is the address
    as a 64-bit number. *)

From Stdlib Require Import ZArith Lia.
From stdpp Require Import base list strings numbers.
From S2P Require Import Prelude StdMap IoBuffer Codec.
Open Scope Z_scope.

(** The tagged union [Route]: the constructors are the values of [RouteType]. *)
Inductive Route : Type :=
| LOCALSERVICE (id : Z)
| REMOTEADDR (addr : Z)
| OBJECTHANDLER_POLLED (addr_ : Z)
| SOCKETROUTE (id : Z)
| OBJECTHANDLER_THREADED (addr_ : Z)
| THREAD (id : Z)
| LISTENER (id : Z).

#[export] Instance Route_eq_dec : EqDecision Route.
Proof. solve_decision. Defined.

(** The numbers of the enumeration, as they go over the wire. *)
Definition RouteType (r : Route) : Z :=
  match r with
  | LOCALSERVICE _ => 1
  | REMOTEADDR _ => 2
  | OBJECTHANDLER_POLLED _ => 3
  | SOCKETROUTE _ => 4
  | OBJECTHANDLER_THREADED _ => 5
  | THREAD _ => 6
  | LISTENER _ => 7
  end.

(** Values the C++ types can hold: [SERVICE_id] and thread numbers are [int],
    [SOCKET_id] is [int64_t], the others are pointers. *)
Definition Route_ok (r : Route) : Prop :=
  match r with
  | LOCALSERVICE i | THREAD i => in_range I32 i
  | REMOTEADDR a | SOCKETROUTE a => in_range I64 a
  | OBJECTHANDLER_POLLED p | OBJECTHANDLER_THREADED p | LISTENER p => in_range U64 p
  end.

Definition Route_pack (o : outBuffer) (r : Route) : outBuffer :=
  let o := out_int o (RouteType r) in
  match r with
  | LOCALSERVICE id => out_int o (wrapu 64 id)
  | REMOTEADDR addr => out_int o addr
  | OBJECTHANDLER_POLLED addr_ => out_int o (wrapu 64 addr_)
  | SOCKETROUTE id => out_int o id
  | OBJECTHANDLER_THREADED addr_ => out_int o (wrapu 64 addr_)
  | THREAD id => out_int o id
  | LISTENER id => out_int o (wrapu 64 id)
  end.

(** [Route::unpack], which knows every kind of hop and throws on any other. *)
Definition Route_unpack (b : inBuffer) : res (Route * inBuffer) :=
  '(t, b) ← in_int I32 b;
  if t =? 1 then '(n, b) ← in_int U64 b; Ok (LOCALSERVICE (cast I32 n), b)
  else if t =? 2 then '(n, b) ← in_int I64 b; Ok (REMOTEADDR n, b)
  else if t =? 3 then '(n, b) ← in_int U64 b; Ok (OBJECTHANDLER_POLLED n, b)
  else if t =? 5 then '(n, b) ← in_int U64 b; Ok (OBJECTHANDLER_THREADED n, b)
  else if t =? 4 then '(n, b) ← in_int I64 b; Ok (SOCKETROUTE n, b)
  else if t =? 6 then '(n, b) ← in_int I32 b; Ok (THREAD n, b)
  else if t =? 7 then '(n, b) ← in_int U64 b; Ok (LISTENER n, b)
  else Throw (CommonError "invalid route").

(** ** route_t *)

Definition route_t : Type := list Route.

(** The constructors from a service, a listener and an object handler. *)
Definition route_of_service (id : Z) : route_t := [LOCALSERVICE id].
Definition route_of_listener (id : Z) : route_t := [LISTENER id].
Definition route_of_polled (id : Z) : route_t := [OBJECTHANDLER_POLLED id].
Definition route_of_threaded (id : Z) : route_t := [OBJECTHANDLER_THREADED id].

Definition push_back (m : route_t) (r : Route) : route_t := m ++ [r].

(** [push_back(const route_t&)] accepts a route of exactly one hop. *)
Definition push_back_route (m r : route_t) : res route_t :=
  match r with
  | [x] => Ok (m ++ [x])
  | _ => Throw (RuntimeError "if(r.m_container.size()!=1)")
  end.

Definition pop_back (m : route_t) : res (Route * route_t) :=
  match list.last m with
  | None => Throw (RuntimeError "route_t::pop_back: m_container.size()==0")
  | Some r => Ok (r, removelast m)
  end.

(** [poppedFrontRoute] of corelib/tools_mt.h: a copy without its last hop. *)
Definition poppedFrontRoute (r : route_t) : res route_t :=
  '(_, rt) ← pop_back r; Ok rt.

Definition route_pack (o : outBuffer) (m : route_t) : outBuffer :=
  fold_left Route_pack m (out_int o (Z.of_nat (length m))).

(** One round of the loop of [route_t::unpack]: a [LISTENER] hop throws, a type
    outside the enumeration falls through the switch and adds nothing. *)
Definition route_unpack_hop (m : route_t) (b : inBuffer) : res (route_t * inBuffer) :=
  '(t, b) ← in_int I32 b;
  if t =? 7 then Throw (CommonError "route unpack for listener")
  else if t =? 1 then '(n, b) ← in_int I32 b; Ok (m ++ [LOCALSERVICE n], b)
  else if t =? 6 then '(n, b) ← in_int I32 b; Ok (m ++ [THREAD n], b)
  else if t =? 2 then '(n, b) ← in_int I64 b; Ok (m ++ [REMOTEADDR n], b)
  else if t =? 3 then '(z, b) ← in_int U64 b; Ok (m ++ [OBJECTHANDLER_POLLED z], b)
  else if t =? 5 then '(z, b) ← in_int U64 b; Ok (m ++ [OBJECTHANDLER_THREADED z], b)
  else if t =? 4 then '(n, b) ← in_int I64 b; Ok (m ++ [SOCKETROUTE n], b)
  else Ok (m, b).

Fixpoint route_unpack_loop (n : nat) (m : route_t) (b : inBuffer) : res (route_t * inBuffer) :=
  match n with
  | O => Ok (m, b)
  | S n' => '(m', b') ← route_unpack_hop m b; route_unpack_loop n' m' b'
  end.

(** [route_t::unpack] adds to what the route already holds. *)
Definition route_unpack (m : route_t) (b : inBuffer) : res (route_t * inBuffer) :=
  '(sz, b) ← in_int U64 b; route_unpack_loop (Z.to_nat sz) m b.

(** ** Comparison *)

(** The switch of [operator<] on two hops of the same type: the answer, or
    nothing when they are equal.  [a] is the argument, [t] is [*this]. *)
Definition hop_lt (a t : Route) : option bool :=
  match a, t with
  | LOCALSERVICE x, LOCALSERVICE y | LISTENER x, LISTENER y | THREAD x, THREAD y
  | REMOTEADDR x, REMOTEADDR y | OBJECTHANDLER_POLLED x, OBJECTHANDLER_POLLED y
  | OBJECTHANDLER_THREADED x, OBJECTHANDLER_THREADED y | SOCKETROUTE x, SOCKETROUTE y =>
      if negb (x =? y) then Some (x <? y) else None
  | _, _ => None
  end.

Fixpoint route_lt_loop (a t : route_t) : bool :=
  match a, t with
  | ra :: a', rt :: t' =>
      if negb (RouteType ra =? RouteType rt) then RouteType ra <? RouteType rt
      else match hop_lt ra rt with
           | Some ans => ans
           | None => route_lt_loop a' t'
           end
  | _, _ => false
  end.

(** [this->operator<(a)]. *)
Definition route_lt (this a : route_t) : bool :=
  if negb (length a =? length this)%nat then (length a <? length this)%nat
  else route_lt_loop a this.

Definition hop_eq (a t : Route) : bool :=
  match a, t with
  | LOCALSERVICE x, LOCALSERVICE y | LISTENER x, LISTENER y | THREAD x, THREAD y
  | REMOTEADDR x, REMOTEADDR y | OBJECTHANDLER_POLLED x, OBJECTHANDLER_POLLED y
  | OBJECTHANDLER_THREADED x, OBJECTHANDLER_THREADED y | SOCKETROUTE x, SOCKETROUTE y => x =? y
  | _, _ => false
  end.

Fixpoint route_eq_loop (a t : route_t) : bool :=
  match a, t with
  | ra :: a', rt :: t' =>
      if negb (RouteType ra =? RouteType rt) then false
      else if hop_eq ra rt then route_eq_loop a' t' else false
  | _, _ => true
  end.

Definition route_eqb (this a : route_t) : bool :=
  if negb (length a =? length this)%nat then false else route_eq_loop a this.

(** ** The order keys [std::set<route_t>] *)

Lemma route_eqb_spec x y : route_eqb x y = true <-> x = y.
Proof.
  unfold route_eqb. split.
  - destruct (Nat.eqb_spec (length y) (length x)) as [Hl|]; simpl; [|done].
    revert x Hl; induction y as [|ry y IH]; intros [|rx x]; simpl; try done.
    intros [= Hl]. destruct (RouteType ry =? RouteType rx) eqn:E; simpl; [|done].
    destruct (hop_eq ry rx) eqn:E2; [|done]. intros H. rewrite (IH x Hl H). f_equal.
    destruct ry, rx; simpl in *; try done; f_equal; lia.
  - intros <-. rewrite Nat.eqb_refl. simpl. induction x as [|r x IH]; simpl; [done|].
    rewrite Z.eqb_refl. simpl. replace (hop_eq r r) with true; [done|].
    destruct r; simpl; by rewrite Z.eqb_refl.
Qed.

(** Two hops compare by type and then by value. *)
Definition hop_val (r : Route) : Z :=
  match r with
  | LOCALSERVICE x | LISTENER x | THREAD x | REMOTEADDR x | OBJECTHANDLER_POLLED x
  | OBJECTHANDLER_THREADED x | SOCKETROUTE x => x
  end.

Lemma hop_val_inj r s : RouteType r = RouteType s -> hop_val r = hop_val s -> r = s.
Proof. destruct r, s; simpl; intros; try lia; by subst. Qed.

Lemma hop_lt_val r s :
  RouteType r = RouteType s ->
  hop_lt r s = if hop_val r =? hop_val s then None else Some (hop_val r <? hop_val s).
Proof. destruct r, s; simpl; intros; try lia; by destruct (_ =? _). Qed.

Lemma route_lt_loop_cons ra a rt t :
  route_lt_loop (ra :: a) (rt :: t) =
    if RouteType ra =? RouteType rt then
      if hop_val ra =? hop_val rt then route_lt_loop a t else hop_val ra <? hop_val rt
    else RouteType ra <? RouteType rt.
Proof.
  simpl. destruct (Z.eqb_spec (RouteType ra) (RouteType rt)) as [E|]; simpl; [|done].
  rewrite (hop_lt_val _ _ E). by destruct (_ =? _).
Qed.

Lemma route_lt_loop_irrefl x : route_lt_loop x x = false.
Proof. induction x; [done|]. by rewrite route_lt_loop_cons, !Z.eqb_refl. Qed.

Lemma route_lt_loop_trans x y z :
  route_lt_loop x y = true -> route_lt_loop y z = true -> route_lt_loop x z = true.
Proof.
  revert y z; induction x as [|a x IH]; intros [|b y] [|c z]; try done.
  rewrite !route_lt_loop_cons. specialize (IH y z).
  repeat match goal with |- context [?u =? ?v] => destruct (Z.eqb_spec u v) end;
    intros; try lia; auto.
Qed.

Lemma route_lt_loop_total x y :
  length x = length y -> route_lt_loop x y = false -> route_lt_loop y x = false -> x = y.
Proof.
  revert y; induction x as [|a x IH]; intros [|b y]; simpl length; try done.
  intros [= Hl]. rewrite !route_lt_loop_cons.
  destruct (Z.eqb_spec (RouteType a) (RouteType b)) as [E|E];
    destruct (Z.eqb_spec (RouteType b) (RouteType a)); try lia.
  destruct (Z.eqb_spec (hop_val a) (hop_val b)) as [E2|E2];
    destruct (Z.eqb_spec (hop_val b) (hop_val a)); try lia.
  intros H1 H2. f_equal; [by apply hop_val_inj | by apply IH].
Qed.

#[export] Instance route_lt_order : StdOrder route_lt.
Proof.
  split; unfold route_lt.
  - intros a. rewrite Nat.eqb_refl. apply route_lt_loop_irrefl.
  - intros a b c.
    destruct (Nat.eqb_spec (length b) (length a)); destruct (Nat.eqb_spec (length c) (length b));
      destruct (Nat.eqb_spec (length c) (length a)); cbn [negb]; rewrite ?Nat.ltb_lt;
      intros; try lia.
    by eapply route_lt_loop_trans.
  - intros a b. destruct (Nat.eqb_spec (length b) (length a)) as [E|E];
      destruct (Nat.eqb_spec (length a) (length b)); cbn [negb]; rewrite ?Nat.ltb_ge;
      intros; try lia.
    symmetry. by apply route_lt_loop_total.
Qed.

(** ** Push and pop *)

Lemma removelast_snoc {A} (l : list A) x : removelast (l ++ [x]) = l.
Proof. rewrite removelast_app by done. simpl. by rewrite app_nil_r. Qed.

Lemma pop_push m r : pop_back (push_back m r) = Ok (r, m).
Proof. unfold pop_back, push_back. by rewrite last_snoc, removelast_snoc. Qed.

Lemma pop_back_inv m r m' : pop_back m = Ok (r, m') -> m = push_back m' r.
Proof.
  unfold pop_back, push_back. destruct (list.last m) eqn:E; [|done].
  intros [= -> <-]. apply last_Some in E as [l ->]. by rewrite removelast_snoc.
Qed.

(** ** The wire form *)

Lemma out_int_app o v : container (out_int o v) = container o ++ c_enc (int_codec U64) v.
Proof. rewrite int_enc. unfold out_int. apply container_put_PN. Qed.

(** The bytes of one hop. *)
Definition hop_enc (r : Route) : list Z :=
  c_enc (int_codec U64) (RouteType r) ++ c_enc (int_codec U64) (hop_val r).

#[global] Arguments hop_enc : simpl never.

Lemma enc_wrapu v : c_enc (int_codec U64) (wrapu 64 v) = c_enc (int_codec U64) v.
Proof. rewrite !int_enc. f_equal. apply wrapu_small, wrapu_range. lia. Qed.

Lemma Route_pack_app o r : container (Route_pack o r) = container o ++ hop_enc r.
Proof.
  unfold Route_pack, hop_enc.
  destruct r; rewrite !out_int_app, ?enc_wrapu; cbn [hop_val RouteType]; by rewrite <- app_assoc.
Qed.

Lemma enc_any t v : c_enc (int_codec t) v = c_enc (int_codec U64) v.
Proof. by rewrite !int_enc. Qed.

(** Reading a number of type [t] that was written from a value of type [t]. *)
Lemma in_int_bind {B} t (f : Z * inBuffer -> res B) v b tl :
  in_range t v -> rest b = c_enc (int_codec U64) v ++ tl ->
  (in_int t b ≫= f) = f (v, advance b (length (c_enc (int_codec U64) v)))
  /\ rest (advance b (length (c_enc (int_codec U64) v))) = tl.
Proof.
  intros Hv Hr. rewrite <- (enc_any t) in *. exact (c_get_bind (int_codec t) f v b tl Hv Hr).
Qed.

Lemma RouteType_range r : in_range I32 (RouteType r).
Proof. destruct r; by vm_compute. Qed.

Lemma route_unpack_hop_enc m r b tl :
  Route_ok r -> (forall p, r <> LISTENER p) -> rest b = hop_enc r ++ tl ->
  route_unpack_hop m b = Ok (m ++ [r], advance b (length (hop_enc r))).
Proof.
  intros Hok Hl Hr. unfold hop_enc in *. rewrite <- app_assoc in Hr.
  unfold route_unpack_hop.
  match goal with |- (_ ≫= ?f) = _ =>
    destruct (in_int_bind I32 f _ b _ (RouteType_range r) Hr) as [-> Hr2] end.
  destruct r; cbn [RouteType hop_val Route_ok Z.eqb Pos.eqb] in *;
    try (by destruct (Hl id));
    match goal with |- (in_int ?t _ ≫= ?f) = _ =>
      destruct (in_int_bind t f _ _ _ Hok Hr2) as [-> _] end;
    by rewrite advance_advance, length_app.
Qed.

(** No hop is the address of a listener, which means nothing elsewhere. *)
Definition route_portable (m : route_t) : Prop :=
  Forall (fun r => Route_ok r /\ forall p, r <> LISTENER p) m
  /\ Z.of_nat (length m) < 2 ^ 64.

Lemma route_unpack_loop_enc m0 m b tl :
  Forall (fun r => Route_ok r /\ forall p, r <> LISTENER p) m ->
  rest b = mjoin (hop_enc <$> m) ++ tl ->
  route_unpack_loop (length m) m0 b = Ok (m0 ++ m, advance b (length (mjoin (hop_enc <$> m)))).
Proof.
  intros Hm; revert m0 b; induction Hm as [|r m [Hr Hl] Hm IH]; intros m0 b Hb.
  - simpl. rewrite app_nil_r. do 2 f_equal. unfold advance. destruct b. simpl. f_equal. lia.
  - rewrite join_cons in *. rewrite <- app_assoc in Hb. cbn [length route_unpack_loop].
    rewrite (route_unpack_hop_enc _ _ _ _ Hr Hl Hb), res_bind_ok.
    rewrite IH by (by rewrite rest_advance, Hb, drop_app_length).
    by rewrite advance_advance, length_app, <- app_assoc.
Qed.

Lemma route_pack_app o m :
  container (route_pack o m) =
    container o ++ c_enc (int_codec U64) (Z.of_nat (length m)) ++ mjoin (hop_enc <$> m).
Proof.
  unfold route_pack. rewrite app_assoc, <- out_int_app.
  generalize (out_int o (Z.of_nat (length m))) as o'.
  induction m as [|r m IH]; intros o'; cbn [fold_left].
  - by rewrite join_nil, app_nil_r.
  - by rewrite IH, Route_pack_app, join_cons, <- app_assoc.
Qed.

(** [operator<<] and [operator>>] on a [route_t], reading into a fresh one. *)
Definition route_codec : Codec route_t :=
  mkCodec route_pack (route_unpack []) route_portable.

#[export] Instance route_codec_laws : CodecLaws route_codec.
Proof.
  split.
  - intros o m. open_codec route_codec. by rewrite !route_pack_app.
  - intros m b tl [Hm Hn] Hr. open_codec route_codec. rewrite route_pack_app in *.
    cbn [container outBuffer_new] in *. rewrite app_nil_l in *. rewrite <- app_assoc in Hr.
    unfold route_unpack.
    match goal with |- (_ ≫= ?f) = _ =>
      destruct (in_int_bind U64 f (Z.of_nat (length m)) b _ ltac:(cbv [in_range is_signed width]; lia) Hr)
        as [-> Hr2] end.
    rewrite Nat2Z.id, (route_unpack_loop_enc _ _ _ _ Hm Hr2).
    by rewrite advance_advance, length_app.
Qed.

Lemma route_unpack_hop_safe m b : safe_read b (route_unpack_hop m b).
Proof.
  unfold route_unpack_hop. apply safe_read_bind; [apply (int_codec_safe I32)|].
  intros t n _.
  repeat match goal with |- context [if ?c then _ else _] => destruct c end;
    try done; try apply safe_read_ok;
    (apply safe_read_bind; [apply (int_codec_safe _) | intros; apply safe_read_ok]).
Qed.

#[export] Instance route_codec_safe : CodecSafe route_codec.
Proof.
  intros b. open_codec route_codec. unfold route_unpack.
  apply safe_read_bind; [apply (int_codec_safe U64)|]. intros sz n _.
  generalize (Z.to_nat sz) as k. generalize (advance b n) as b'.
  generalize ([] : route_t) as m. clear. intros m b' k; revert m b'.
  induction k as [|k IH]; intros m b'; cbn [route_unpack_loop]; [apply safe_read_ok|].
  apply safe_read_bind; [apply route_unpack_hop_safe | intros; apply IH].
Qed.

(** ** Properties *)

(** A route whose hops are within their C++ types and of a kind the wire
    format has comes back from [route_t::unpack] as [route_t::pack] wrote it. *)
Lemma route_roundtrip m tl :
  route_portable m ->
  exists b, route_unpack [] (inBuffer_new (container (route_pack outBuffer_new m) ++ tl)) = Ok (m, b)
            /\ rest b = tl.
Proof.
  intros Hm.
  assert (container (route_pack outBuffer_new m) = c_enc route_codec m) as ->
    by (exact (c_put_app (c := route_codec) outBuffer_new m)).
  eexists. split; [exact (c_get_put (c := route_codec) m _ tl Hm (rest_new _))|].
  by rewrite rest_advance, rest_new, drop_app_length.
Qed.

Lemma route_roundtrip_witness :
  exists b, route_unpack [] (inBuffer_new (container (route_pack outBuffer_new [LOCALSERVICE (-5); REMOTEADDR 77]) ++ [1]))
            = Ok ([LOCALSERVICE (-5); REMOTEADDR 77], b) /\ rest b = [1].
Proof.
  apply (route_roundtrip [LOCALSERVICE (-5); REMOTEADDR 77] [1]).
  split; [|by vm_compute].
  repeat (constructor; [split; [vm_compute; intuition congruence | intros p; discriminate]|]). constructor.
Defined.

(** [operator<] of routes is a strict total order on the hops' contents, so
    routes can be the keys of the sets that hold subscribers. *)
Lemma route_order x y z :
  route_lt x x = false
  /\ (route_lt x y = true -> route_lt y z = true -> route_lt x z = true)
  /\ (route_lt x y = false -> route_lt y x = false -> x = y).
Proof.
  split; [apply lt_irrefl|]. split; [apply lt_trans | apply lt_total].
Qed.
