(* ===== verification/CLib.v ===== *)
(** What the sources use of the C and C++ libraries on strings and numbers:
    C strings, [isspace], [atoi], [std::to_string], [strcmp], [strcpy] into a
    fixed array, byte-order conversion on a little-endian host. *)

From Stdlib Require Import ZArith Lia.
From stdpp Require Import base list strings numbers.
From S2P Require Import Prelude.
Open Scope Z_scope.

(** [std::string(p)] for a C string: the bytes up to the first NUL. *)
Fixpoint c_str (s : list Z) : list Z :=
  match s with
  | [] => []
  | c :: s' => if c =? 0 then [] else c :: c_str s'
  end.

Definition no_nul (s : list Z) : Prop := Forall (fun c => c <> 0) s.

Lemma c_str_no_nul s : no_nul (c_str s).
Proof.
  induction s as [|c s IH]; simpl; [constructor|].
  destruct (Z.eqb_spec c 0); by constructor.
Qed.

Lemma c_str_id s : no_nul s -> c_str s = s.
Proof.
  induction 1 as [|c s Hc _ IH]; simpl; [done|].
  destruct (Z.eqb_spec c 0); [done|]. by rewrite IH.
Qed.

(** [strcmp] through its sign. *)
Fixpoint strcmp (a b : list Z) : Z :=
  match a, b with
  | [], [] => 0
  | [], _ :: _ => -1
  | _ :: _, [] => 1
  | x :: a', y :: b' => if x =? y then strcmp a' b' else if x <? y then -1 else 1
  end.

Lemma strcmp_eq a b : strcmp a b = 0 <-> a = b.
Proof.
  revert b; induction a as [|x a IH]; intros [|y b]; simpl; try done.
  destruct (Z.eqb_spec x y) as [->|Hn].
  - rewrite IH. split; [by intros -> | by intros [=]].
  - destruct (x <? y); split; congruence.
Qed.

(** Lexicographic [operator<] of [std::string], bytes compared unsigned. *)
Definition str_lt (a b : list Z) : bool := strcmp a b <? 0.

Definition isspace (c : Z) : bool := (c =? 32) || ((9 <=? c) && (c <=? 13)).
Definition isdigit (c : Z) : bool := (48 <=? c) && (c <=? 57).

(** [std::to_string] on a non-negative number, then with its sign.  Twenty
    digits are enough for any 64-bit number. *)
Fixpoint dec_digits (fuel : nat) (n : Z) : list Z :=
  match fuel with
  | O => []
  | S f => if n <? 10 then [48 + n] else dec_digits f (n / 10) ++ [48 + n mod 10]
  end.

Definition to_string (z : Z) : list Z :=
  if z <? 0 then 45 :: dec_digits 20 (- z) else dec_digits 20 z.

Fixpoint skip_space (s : list Z) : list Z :=
  match s with
  | [] => []
  | c :: s' => if isspace c then skip_space s' else s
  end.

Fixpoint scan_digits (acc : Z) (s : list Z) : Z :=
  match s with
  | [] => acc
  | c :: s' => if isdigit c then scan_digits (acc * 10 + (c - 48)) s' else acc
  end.

(** [strtol(s, NULL, 10)]: saturates at the ends of [long]. *)
Definition clamp_long (z : Z) : Z := Z.max (- 2 ^ 63) (Z.min (2 ^ 63 - 1) z).

Definition strtol10 (s : list Z) : Z :=
  match skip_space (c_str s) with
  | [] => 0
  | c :: s' =>
      if c =? 45 then clamp_long (- scan_digits 0 s')
      else if c =? 43 then clamp_long (scan_digits 0 s')
      else clamp_long (scan_digits 0 (c :: s'))
  end.

(** [atoi]: [(int) strtol(s, NULL, 10)]. *)
Definition atoi (s : list Z) : Z := cast I32 (strtol10 s).

Lemma scan_digits_app a l d :
  Forall (fun c => isdigit c = true) l -> 0 <= d < 10 ->
  scan_digits a (l ++ [48 + d]) = scan_digits a l * 10 + d.
Proof.
  intros Hl Hd; revert a; induction Hl as [|c l Hc Hl IH]; intros a; simpl.
  - unfold isdigit. destruct (Z.leb_spec 48 (48 + d)), (Z.leb_spec (48 + d) 57); simpl; lia.
  - by rewrite Hc, IH.
Qed.

Lemma isdigit_48 d : 0 <= d < 10 -> isdigit (48 + d) = true.
Proof. unfold isdigit. lia. Qed.

Lemma dec_digits_digits f n : 0 <= n -> Forall (fun c => isdigit c = true) (dec_digits f n).
Proof.
  revert n; induction f as [|f IH]; intros n Hn; simpl; [constructor|].
  destruct (Z.ltb_spec n 10).
  - constructor; [apply isdigit_48; lia | constructor].
  - apply Forall_app. split.
    + apply IH. apply Z.div_pos; lia.
    + constructor; [|constructor]. apply isdigit_48, Z.mod_pos_bound. lia.
Qed.

Lemma scan_dec_digits f n :
  0 <= n < 10 ^ Z.of_nat f -> scan_digits 0 (dec_digits f n) = n.
Proof.
  revert n; induction f as [|f IH]; intros n Hn.
  - change (10 ^ Z.of_nat 0) with 1 in Hn. simpl. lia.
  - rewrite Nat2Z.inj_succ, Z.pow_succ_r in Hn by lia. simpl.
    destruct (Z.ltb_spec n 10).
    + simpl. rewrite isdigit_48 by lia. lia.
    + rewrite scan_digits_app.
      * rewrite IH; [pose proof (Z.div_mod n 10); lia|].
        split; [apply Z.div_pos; lia | apply Z.div_lt_upper_bound; lia].
      * apply dec_digits_digits, Z.div_pos; lia.
      * apply Z.mod_pos_bound. lia.
Qed.

Lemma digits_no_nul l : Forall (fun c => isdigit c = true) l -> no_nul l.
Proof.
  apply Forall_impl. intros c. unfold isdigit. lia.
Qed.

Lemma dec_digits_cons f n :
  0 <= n -> exists c l, dec_digits (S f) n = c :: l /\ isdigit c = true.
Proof.
  intros Hn. pose proof (dec_digits_digits (S f) n Hn) as H.
  destruct (dec_digits (S f) n) as [|c l] eqn:E.
  - exfalso. simpl in E. destruct (n <? 10); [done|]. by apply app_nil in E as [_ [=]].
  - exists c, l. split; [done|]. by apply Forall_inv in H.
Qed.

Lemma clamp_long_id z : in_range I32 z -> clamp_long z = z.
Proof. cbv [in_range is_signed width]. unfold clamp_long. lia. Qed.

Lemma skip_space_digit c l : isdigit c = true -> skip_space (c :: l) = c :: l.
Proof.
  intros H. simpl. replace (isspace c) with false; [done|].
  unfold isdigit, isspace in *. lia.
Qed.

Lemma scan_dec20 n : 0 <= n <= 2 ^ 31 -> scan_digits 0 (dec_digits 20 n) = n.
Proof. intros H. apply scan_dec_digits. split; [lia|]. by eapply Z.le_lt_trans; [apply H|]. Qed.

(** [strtol] on a string of digits. *)
Lemma strtol10_digits n :
  0 <= n <= 2 ^ 31 -> strtol10 (dec_digits 20 n) = clamp_long n.
Proof.
  intros Hn. unfold strtol10.
  rewrite c_str_id by (apply digits_no_nul, dec_digits_digits; lia).
  pose proof (scan_dec20 n Hn) as Hs.
  destruct (dec_digits_cons 19 n) as (c & l & E & Hc); [lia|]. rewrite E in *.
  rewrite skip_space_digit by done. unfold isdigit in Hc.
  destruct (Z.eqb_spec c 45); [lia|]. destruct (Z.eqb_spec c 43); [lia|]. by rewrite Hs.
Qed.

Lemma strtol10_neg n :
  0 <= n <= 2 ^ 31 -> strtol10 (45 :: dec_digits 20 n) = clamp_long (- n).
Proof.
  intros Hn. unfold strtol10. rewrite c_str_id.
  - change (skip_space (45 :: dec_digits 20 n)) with (45 :: dec_digits 20 n).
    cbv iota. rewrite Z.eqb_refl. by rewrite scan_dec20.
  - constructor; [done|]. apply digits_no_nul, dec_digits_digits. lia.
Qed.

(** [atoi] undoes [std::to_string] on every [int]. *)
Lemma atoi_to_string z : in_range I32 z -> atoi (to_string z) = z.
Proof.
  intros Hz. unfold atoi. rewrite <- (cast_id I32 z Hz) at 2. f_equal.
  pose proof Hz as Hz'. cbv [in_range is_signed width] in Hz'. unfold to_string.
  destruct (Z.ltb_spec z 0).
  - rewrite strtol10_neg, Z.opp_involutive by lia. by apply clamp_long_id.
  - rewrite strtol10_digits by lia. by apply clamp_long_id.
Qed.

(** ** Byte order *)

Definition bswap16 (x : Z) : Z := (x mod 256) * 256 + (x / 256) mod 256.
Definition bswap32 (x : Z) : Z :=
  (x mod 256) * 2 ^ 24 + ((x / 2 ^ 8) mod 256) * 2 ^ 16
  + ((x / 2 ^ 16) mod 256) * 2 ^ 8 + (x / 2 ^ 24) mod 256.

(** [htons]/[ntohs] take a [uint16_t], [htonl]/[ntohl] a [uint32_t]. *)
Definition htons (x : Z) : Z := bswap16 (wrapu 16 x).
Definition htonl (x : Z) : Z := bswap32 (wrapu 32 x).
Definition ntohs := htons.
Definition ntohl := htonl.

Lemma bswap16_range x : 0 <= bswap16 x < 2 ^ 16.
Proof.
  unfold bswap16. pose proof (Z.mod_pos_bound x 256). pose proof (Z.mod_pos_bound (x / 256) 256). lia.
Qed.

Lemma htons_htons x : 0 <= x < 2 ^ 16 -> htons (htons x) = x.
Proof.
  intros Hx. unfold htons. rewrite (wrapu_small 16 x) by done.
  rewrite wrapu_small by apply bswap16_range. unfold bswap16.
  Z.to_euclidean_division_equations. lia.
Qed.

Lemma bswap32_range x : 0 <= bswap32 x < 2 ^ 32.
Proof.
  unfold bswap32. pose proof (Z.mod_pos_bound x 256).
  pose proof (Z.mod_pos_bound (x / 2 ^ 8) 256).
  pose proof (Z.mod_pos_bound (x / 2 ^ 16) 256).
  pose proof (Z.mod_pos_bound (x / 2 ^ 24) 256). lia.
Qed.

Lemma bswap32_bytes a b c d :
  is_byte a -> is_byte b -> is_byte c -> is_byte d ->
  bswap32 (a + b * 2 ^ 8 + c * 2 ^ 16 + d * 2 ^ 24)
  = d + c * 2 ^ 8 + b * 2 ^ 16 + a * 2 ^ 24.
Proof.
  unfold is_byte. intros. unfold bswap32.
  replace ((a + b * 2 ^ 8 + c * 2 ^ 16 + d * 2 ^ 24) mod 256) with a.
  2: { apply (Z.mod_unique _ _ (b + c * 2 ^ 8 + d * 2 ^ 16)); lia. }
  replace ((a + b * 2 ^ 8 + c * 2 ^ 16 + d * 2 ^ 24) / 2 ^ 8) with (b + c * 2 ^ 8 + d * 2 ^ 16).
  2: { apply (Z.div_unique _ _ _ a); lia. }
  replace ((a + b * 2 ^ 8 + c * 2 ^ 16 + d * 2 ^ 24) / 2 ^ 16) with (c + d * 2 ^ 8).
  2: { apply (Z.div_unique _ _ _ (a + b * 2 ^ 8)); lia. }
  replace ((a + b * 2 ^ 8 + c * 2 ^ 16 + d * 2 ^ 24) / 2 ^ 24) with d.
  2: { apply (Z.div_unique _ _ _ (a + b * 2 ^ 8 + c * 2 ^ 16)); lia. }
  replace ((b + c * 2 ^ 8 + d * 2 ^ 16) mod 256) with b.
  2: { apply (Z.mod_unique _ _ (c + d * 2 ^ 8)); lia. }
  replace ((c + d * 2 ^ 8) mod 256) with c by (apply (Z.mod_unique _ _ d); lia).
  rewrite (Z.mod_small d 256) by lia. lia.
Qed.

Lemma htonl_htonl x : 0 <= x < 2 ^ 32 -> htonl (htonl x) = x.
Proof.
  intros Hx. unfold htonl. rewrite (wrapu_small 32 x) by done.
  rewrite wrapu_small by apply bswap32_range.
  assert (x = x mod 256 + (x / 2 ^ 8) mod 256 * 2 ^ 8 + (x / 2 ^ 16) mod 256 * 2 ^ 16
              + (x / 2 ^ 24) mod 256 * 2 ^ 24) as E.
  { Z.to_euclidean_division_equations. lia. }
  rewrite E at 1 2.
  rewrite bswap32_bytes by (apply Z.mod_pos_bound; lia).
  rewrite bswap32_bytes by (apply Z.mod_pos_bound; lia). lia.
Qed.

#[global] Arguments dec_digits : simpl never.
#[global] Arguments bswap16 : simpl never.
#[global] Arguments bswap32 : simpl never.
#[global] Arguments htons : simpl never.
#[global] Arguments htonl : simpl never.
