(* ===== verification/Text.v ===== *)
(** The text utilities of main/CUtils.cpp and corelib/splitStr.h: splitting and
    joining, case tables, Base64, hexadecimal and URI forms, the parser of
    [key=value] configuration texts.

    A byte of a [std::string] is its unsigned value; [schar] is what a plain
    [char], which is signed on the hosts the build targets, reads it as.  Left
    shifts of [int] wrap, as GCC and clang define them. *)

From Stdlib Require Import ZArith Lia.
From stdpp Require Import base strings numbers list.
From S2P Require Import Prelude StdMap CLib.
Open Scope Z_scope.

Definition schar (c : Z) : Z := cast I8 c.

(** ** Splitting and joining *)

(** The pieces of [src] between separators. *)
Fixpoint split_any (seps : list Z) (cur src : list Z) : list (list Z) :=
  match src with
  | [] => [cur]
  | c :: s => if bool_decide (c ∈ seps) then cur :: split_any seps [] s else split_any seps (cur ++ [c]) s
  end.

(** [resplit], [resplitDQ]: [std::sregex_token_iterator] with the expression
    [[seps]] and index -1, for separators without a meaning inside brackets.
    The piece after a trailing separator is not produced when it is empty; the
    only piece of an empty text is. *)
Definition resplit (seps src : list Z) : list (list Z) :=
  let l := split_any seps [] src in
  match rev l with
  | [] :: _ :: _ => removelast l
  | _ => l
  end.

Definition nonempty (s : list Z) : bool := match s with [] => false | _ => true end.

Definition splitString (seps src : list Z) : list (list Z) :=
  match src with
  | [] => []
  | _ => List.filter nonempty (resplit seps src)
  end.

(** [splitStringSET]: the same pieces in a set. *)
Definition splitStringSET (seps src : list Z) : list (list Z) :=
  fold_left (fun acc x => set_insert str_lt x acc) (splitString seps src) [].

(** [join]: [arr[0] + pattern + ... + arr[n-1]]. *)
Fixpoint join (pattern : list Z) (arr : list (list Z)) : list Z :=
  match arr with
  | [] => []
  | [x] => x
  | x :: arr' => x ++ pattern ++ join pattern arr'
  end.

(** [src.find(delim)]: the text before the first occurrence and after it. *)
Fixpoint find_sub (delim src : list Z) : option (list Z * list Z) :=
  if bool_decide (take (length delim) src = delim) then Some ([], drop (length delim) src)
  else match src with
       | [] => None
       | c :: s => match find_sub delim s with Some (u, v) => Some (c :: u, v) | None => None end
       end.

(** [splitStr(delim, src)]; the position moves past the delimiter, so an empty
    delimiter makes no progress and exhausts any fuel. *)
Fixpoint splitStr_loop (fuel : nat) (delim src : list Z) : res (list (list Z)) :=
  match fuel with
  | O => Throw OutOfFuel
  | S f =>
      match find_sub delim src with
      | None => Ok [src]
      | Some (u, v) => l ← splitStr_loop f delim v; Ok (u :: l)
      end
  end.

Definition splitStr (delim src : list Z) : res (list (list Z)) := splitStr_loop (S (length src)) delim src.

(** ** Trimming, names of files *)

Definition trim_back (s : list Z) : list Z := rev (skip_space (rev s)).
Definition trim (s : list Z) : list Z := trim_back (skip_space s).

(** [f.rfind(c)] and what follows it. *)
Fixpoint after_last (c : Z) (s : list Z) : option (list Z) :=
  match s with
  | [] => None
  | x :: s' => match after_last c s' with
               | Some r => Some r
               | None => if x =? c then Some s' else None
               end
  end.

Definition extractFileExt (f : list Z) : list Z := default [] (after_last 46 f).
Definition extractFileName (f : list Z) : list Z := default f (after_last 47 f).

(** ** Case *)

Definition l_table : list Z :=
  [0; 1; 2; 3; 4; 5; 6; 7; 8; 9; 10; 11; 12; 13; 14; 15; 16; 17; 18; 19;
   20; 21; 22; 23; 24; 25; 26; 27; 28; 29; 30; 31; 32; 33; 34; 35; 36; 37; 38; 39;
   40; 41; 42; 43; 44; 45; 46; 47; 48; 49; 50; 51; 52; 53; 54; 55; 56; 57; 58; 59;
   60; 61; 62; 63; 64; 97; 98; 99; 100; 101; 102; 103; 104; 105; 106; 107; 108; 109; 110; 111;
   112; 113; 114; 115; 116; 117; 118; 119; 120; 121; 122; 91; 92; 93; 94; 95; 96; 97; 98; 99;
   100; 101; 102; 103; 104; 105; 106; 107; 108; 109; 110; 111; 112; 113; 114; 115; 116; 117; 118; 119;
   120; 121; 122; 123; 124; 125; 126; 127; 144; 131; 130; 131; 132; 133; 134; 135; 136; 137; 154; 139;
   156; 157; 158; 159; 144; 145; 146; 147; 148; 149; 150; 151; 152; 153; 154; 155; 156; 157; 158; 159;
   160; 162; 162; 188; 164; 180; 166; 167; 184; 169; 186; 171; 172; 173; 174; 191; 176; 177; 179; 179;
   180; 181; 182; 183; 184; 185; 186; 187; 188; 190; 190; 191; 224; 225; 226; 227; 228; 229; 230; 231;
   232; 233; 234; 235; 236; 237; 238; 239; 240; 241; 242; 243; 244; 245; 246; 247; 248; 249; 250; 251;
   252; 253; 254; 255; 224; 225; 226; 227; 228; 229; 230; 231; 232; 233; 234; 235; 236; 237; 238; 239;
   240; 241; 242; 243; 244; 245; 246; 247; 248; 249; 250; 251; 252; 253; 254; 255].

Definition u_table : list Z :=
  [0; 1; 2; 3; 4; 5; 6; 7; 8; 9; 10; 11; 12; 13; 14; 15; 16; 17; 18; 19;
   20; 21; 22; 23; 24; 25; 26; 27; 28; 29; 30; 31; 32; 33; 34; 35; 36; 37; 38; 39;
   40; 41; 42; 43; 44; 45; 46; 47; 48; 49; 50; 51; 52; 53; 54; 55; 56; 57; 58; 59;
   60; 61; 62; 63; 64; 65; 66; 67; 68; 69; 70; 71; 72; 73; 74; 75; 76; 77; 78; 79;
   80; 81; 82; 83; 84; 85; 86; 87; 88; 89; 90; 91; 92; 93; 94; 95; 96; 65; 66; 67;
   68; 69; 70; 71; 72; 73; 74; 75; 76; 77; 78; 79; 80; 81; 82; 83; 84; 85; 86; 87;
   88; 89; 90; 123; 124; 125; 126; 127; 128; 129; 130; 129; 132; 133; 134; 135; 136; 137; 138; 139;
   140; 141; 142; 143; 128; 145; 146; 147; 148; 149; 150; 151; 152; 153; 138; 155; 140; 141; 142; 143;
   160; 161; 161; 163; 164; 165; 166; 167; 168; 169; 170; 171; 172; 173; 174; 175; 176; 177; 178; 178;
   165; 181; 182; 183; 168; 185; 170; 187; 163; 189; 189; 175; 192; 193; 194; 195; 196; 197; 198; 199;
   200; 201; 202; 203; 204; 205; 206; 207; 208; 209; 210; 211; 212; 213; 214; 215; 216; 217; 218; 219;
   220; 221; 222; 223; 192; 193; 194; 195; 196; 197; 198; 199; 200; 201; 202; 203; 204; 205; 206; 207;
   208; 209; 210; 211; 212; 213; 214; 215; 216; 217; 218; 219; 220; 221; 222; 223].

Definition table_at (t : list Z) (c : Z) : Z := default 0 (t !! Z.to_nat c).

Definition strupper (s : list Z) : list Z := table_at u_table <$> s.
Definition strlower (s : list Z) : list Z := table_at l_table <$> s.

(** ** Base64 *)

Definition B64chars : list Z := lit "ABCDEFGHIJKLMNOPQRSTUVWXYZabcdefghijklmnopqrstuvwxyz0123456789+/".

Definition B64index : list Z :=
  [0; 0; 0; 0; 0; 0; 0; 0; 0; 0; 0; 0; 0; 0; 0; 0; 0; 0; 0; 0;
   0; 0; 0; 0; 0; 0; 0; 0; 0; 0; 0; 0; 0; 0; 0; 0; 0; 0; 0; 0;
   0; 0; 0; 62; 0; 0; 0; 63; 52; 53; 54; 55; 56; 57; 58; 59; 60; 61; 0; 0;
   0; 0; 0; 0; 0; 0; 1; 2; 3; 4; 5; 6; 7; 8; 9; 10; 11; 12; 13; 14;
   15; 16; 17; 18; 19; 20; 21; 22; 23; 24; 25; 0; 0; 0; 0; 0; 0; 26; 27; 28;
   29; 30; 31; 32; 33; 34; 35; 36; 37; 38; 39; 40; 41; 42; 43; 44; 45; 46; 47; 48;
   49; 50; 51; 0; 0; 0; 0; 0; 0; 0; 0; 0; 0; 0; 0; 0; 0; 0; 0; 0;
   0; 0; 0; 0; 0; 0; 0; 0; 0; 0; 0; 0; 0; 0; 0; 0; 0; 0; 0; 0;
   0; 0; 0; 0; 0; 0; 0; 0; 0; 0; 0; 0; 0; 0; 0; 0; 0; 0; 0; 0;
   0; 0; 0; 0; 0; 0; 0; 0; 0; 0; 0; 0; 0; 0; 0; 0; 0; 0; 0; 0;
   0; 0; 0; 0; 0; 0; 0; 0; 0; 0; 0; 0; 0; 0; 0; 0; 0; 0; 0; 0;
   0; 0; 0; 0; 0; 0; 0; 0; 0; 0; 0; 0; 0; 0; 0; 0; 0; 0; 0; 0;
   0; 0; 0; 0; 0; 0; 0; 0; 0; 0; 0; 0; 0; 0; 0; 0].

(** [val << k] on [int]. *)
Definition shl32 (v k : Z) : Z := cast I32 (Z.shiftl v k).

Definition b64_char (v : Z) : Z := table_at B64chars (Z.land v 0x3F).

(** [while (valb >= 0)]: at most two rounds, since [valb] is at most 7. *)
Fixpoint b64_emit (fuel : nat) (val valb : Z) : list Z * Z :=
  match fuel with
  | O => ([], valb)
  | S f =>
      if valb <? 0 then ([], valb)
      else let '(l, vb) := b64_emit f val (valb - 6) in (b64_char (Z.shiftr val valb) :: l, vb)
  end.

(** The loop over the bytes: what is pushed to [out], then [val] and [valb]. *)
Fixpoint b64_enc (val valb : Z) (s : list Z) : list Z * Z * Z :=
  match s with
  | [] => ([], val, valb)
  | c :: s' =>
      let val := shl32 val 8 + c in
      let '(l, valb) := b64_emit 2 val (valb + 8) in
      let '(l', val, valb) := b64_enc val valb s' in
      (l ++ l', val, valb)
  end.

(** [while (out.size() % 4) out.push_back('=')]. *)
Definition b64_pad (out : list Z) : list Z :=
  out ++ repeat 61 ((4 - length out mod 4) mod 4)%nat.

Definition Base64Encode (s : list Z) : list Z :=
  let '(out, val, valb) := b64_enc 0 (-6) s in
  let out := if -6 <? valb then out ++ [b64_char (Z.shiftr (shl32 val 8) (valb + 8))] else out in
  b64_pad out.

Fixpoint b64_dec (val valb : Z) (s : list Z) : list Z :=
  match s with
  | [] => []
  | c :: s' =>
      if c =? 61 then []
      else if (c =? 10) || (c =? 13) || (c =? 32) || (c =? 9) then b64_dec val valb s'
      else if (127 <? c) || (table_at B64index c =? 0) && negb (c =? 65) then b64_dec val valb s'
      else
        let val := shl32 val 6 + table_at B64index c in
        let valb := valb + 6 in
        if 0 <=? valb then Z.land (Z.shiftr val valb) 0xFF :: b64_dec val (valb - 8) s'
        else b64_dec val valb s'
  end.

Definition Base64Decode (src : list Z) : list Z := b64_dec 0 (-8) src.

(** ** Splitting undoes joining *)

Lemma split_any_app seps cur s c src :
  Forall (fun x => x ∉ seps) s -> c ∈ seps ->
  split_any seps cur (s ++ c :: src) = (cur ++ s) :: split_any seps [] src.
Proof.
  intros Hs Hc. revert cur. induction Hs as [|x s Hx Hs IH]; intros cur; cbn [app split_any].
  - rewrite bool_decide_eq_true_2 by done. by rewrite app_nil_r.
  - rewrite bool_decide_eq_false_2 by done. by rewrite IH, <- app_assoc.
Qed.

Lemma split_any_all seps cur s :
  Forall (fun x => x ∉ seps) s -> split_any seps cur s = [cur ++ s].
Proof.
  intros Hs. revert cur. induction Hs as [|x s Hx Hs IH]; intros cur; cbn [split_any].
  - by rewrite app_nil_r.
  - rewrite bool_decide_eq_false_2 by done. by rewrite IH, <- app_assoc.
Qed.

Definition piece_ok (seps s : list Z) : Prop := s <> [] /\ Forall (fun x => x ∉ seps) s.

Lemma split_any_join seps c l :
  c ∈ seps -> l <> [] -> Forall (piece_ok seps) l -> split_any seps [] (join [c] l) = l.
Proof.
  intros Hc Hl H. induction H as [|x l [Hne Hx] H IH]; [done|]. destruct l as [|y l].
  - by apply split_any_all.
  - change (join [c] (x :: y :: l)) with (x ++ c :: join [c] (y :: l)).
    rewrite split_any_app by done. by rewrite IH.
Qed.

Lemma filter_nonempty seps l : Forall (piece_ok seps) l -> List.filter nonempty l = l.
Proof. induction 1 as [|x l [Hx _] _ IH]; [done|]. cbn. destruct x; [done|]. cbn. by rewrite IH. Qed.

Lemma join_cons_ne c x l : x <> [] -> join c (x :: l) <> [].
Proof. destruct x, l; done. Qed.

(** Pieces without separators survive a join and a split. *)
Lemma splitString_join seps c l :
  c ∈ seps -> Forall (piece_ok seps) l -> splitString seps (join [c] l) = l.
Proof.
  intros Hc H. destruct l as [|x l]; [done|].
  assert (resplit seps (join [c] (x :: l)) = x :: l) as E.
  { unfold resplit. rewrite split_any_join by done. destruct (rev (x :: l)) as [|y r] eqn:Er; [done|].
    assert (y ∈ x :: l) as Hy by (apply list_elem_of_In, in_rev; rewrite Er; by left).
    rewrite Forall_forall in H. destruct (H y Hy) as [Hne _]. by destruct y. }
  unfold splitString. rewrite E, (filter_nonempty seps) by done.
  destruct (join [c] (x :: l)) eqn:Ej; [|done]. exfalso. revert Ej. apply join_cons_ne. by inversion H as [|? ? []].
Qed.

(** ** Base64: what is encoded is decoded *)

Lemma cast32_mod z k : 0 <= k <= 32 -> exists q, cast I32 z = z + q * 2 ^ 32.
Proof.
  intros _. unfold cast, wraps. cbn [is_signed width].
  exists (- ((z + 2 ^ (32 - 1)) / 2 ^ 32)).
  pose proof (Z.div_mod (z + 2 ^ (32 - 1)) (2 ^ 32)). lia.
Qed.

(** The low bits of the accumulator survive the wrap. *)
Lemma shl32_low v k c : 0 <= k <= 32 -> exists q, shl32 v k + c = v * 2 ^ k + c + q * 2 ^ 32.
Proof.
  intros Hk. unfold shl32. rewrite Z.shiftl_mul_pow2 by lia.
  destruct (cast32_mod (v * 2 ^ k) 32 ltac:(lia)) as [q ->]. exists q. lia.
Qed.

Lemma land_shiftr x n w : 0 <= n -> 0 <= w -> Z.land (Z.shiftr x n) (2 ^ w - 1) = (x / 2 ^ n) mod 2 ^ w.
Proof.
  intros Hn Hw. rewrite Z.shiftr_div_pow2 by done. rewrite <- (Z.land_ones _ w) by done.
  f_equal. rewrite Z.ones_equiv. lia.
Qed.

(** A field of [w] bits at position [n] of a number given by its pieces. *)
Lemma field_of x hi f lo n w :
  0 <= n -> 0 <= w -> x = hi * 2 ^ (n + w) + f * 2 ^ n + lo -> 0 <= f < 2 ^ w -> 0 <= lo < 2 ^ n ->
  Z.land (Z.shiftr x n) (2 ^ w - 1) = f.
Proof.
  intros Hn Hw -> Hf Hlo. rewrite land_shiftr by done. rewrite Z.pow_add_r by done.
  replace (hi * (2 ^ n * 2 ^ w) + f * 2 ^ n + lo) with (lo + (hi * 2 ^ w + f) * 2 ^ n) by lia.
  rewrite Z.div_add, (Z.div_small lo) by lia. rewrite Z.add_0_l, Z.add_comm, Z.mod_add by lia.
  by apply Z.mod_small.
Qed.

Definition b64_ok (i : Z) : bool :=
  let c := table_at B64chars i in
  negb (c =? 61) && negb ((c =? 10) || (c =? 13) || (c =? 32) || (c =? 9))
  && negb ((127 <? c) || (table_at B64index c =? 0) && negb (c =? 65)) && (table_at B64index c =? i).

Lemma b64_table i : 0 <= i < 64 -> b64_ok i = true.
Proof.
  intros Hi. assert (forallb b64_ok (Z.of_nat <$> seq 0 64) = true) as H by by vm_compute.
  rewrite forallb_forall in H. apply H. apply list_elem_of_In.
  apply list_elem_of_fmap. exists (Z.to_nat i). split; [lia|]. apply elem_of_seq. lia.
Qed.

(** One step of the decoder on a character of the alphabet. *)
Lemma b64_dec_char val valb i s :
  0 <= i < 64 ->
  b64_dec val valb (table_at B64chars i :: s)
  = let val' := shl32 val 6 + i in
    if 0 <=? valb + 6 then Z.land (Z.shiftr val' (valb + 6)) 0xFF :: b64_dec val' (valb + 6 - 8) s
    else b64_dec val' (valb + 6) s.
Proof.
  intros Hi. pose proof (b64_table i Hi) as H. unfold b64_ok in H. cbv zeta in H.
  apply andb_prop in H as [H H4]. apply andb_prop in H as [H H3]. apply andb_prop in H as [H1 H2].
  apply negb_true_iff in H1, H2, H3. apply Z.eqb_eq in H4.
  cbn [b64_dec]. by rewrite H1, H2, H3, H4.
Qed.

(** Four sextets to three bytes. *)
Lemma b64_dec4 val i j k l s :
  0 <= i < 64 -> 0 <= j < 64 -> 0 <= k < 64 -> 0 <= l < 64 ->
  exists val', b64_dec val (-8) (table_at B64chars i :: table_at B64chars j :: table_at B64chars k :: table_at B64chars l :: s)
    = (i * 4 + j / 16) :: (j mod 16 * 16 + k / 4) :: (k mod 4 * 64 + l) :: b64_dec val' (-8) s.
Proof.
  intros Hi Hj Hk Hl.
  rewrite b64_dec_char by done. cbv zeta. change (0 <=? -8 + 6) with false. cbv iota. change (-8 + 6) with (-2).
  rewrite b64_dec_char by done. cbv zeta. change (0 <=? -2 + 6) with true. cbv iota.
  change (-2 + 6) with 4. change (4 - 8) with (-4).
  rewrite b64_dec_char by done. cbv zeta. change (0 <=? -4 + 6) with true. cbv iota.
  change (-4 + 6) with 2. change (2 - 8) with (-6).
  rewrite b64_dec_char by done. cbv zeta. change (0 <=? -6 + 6) with true. cbv iota.
  change (-6 + 6) with 0. change (0 - 8) with (-8).
  set (v1 := shl32 val 6 + i). set (v2 := shl32 v1 6 + j). set (v3 := shl32 v2 6 + k). set (v4 := shl32 v3 6 + l).
  destruct (shl32_low val 6 i ltac:(lia)) as [q1 E1]. fold v1 in E1.
  destruct (shl32_low v1 6 j ltac:(lia)) as [q2 E2]. fold v2 in E2.
  destruct (shl32_low v2 6 k ltac:(lia)) as [q3 E3]. fold v3 in E3.
  destruct (shl32_low v3 6 l ltac:(lia)) as [q4 E4]. fold v4 in E4.
  pose proof (Z.div_mod j 16). pose proof (Z.mod_pos_bound j 16).
  pose proof (Z.div_mod k 4). pose proof (Z.mod_pos_bound k 4).
  exists v4. f_equal; [|f_equal; [|f_equal]].
  - change 255 with (2 ^ 8 - 1).
    apply (field_of v2 ((val + q1 * 2 ^ 26) + q2 * 2 ^ 20) _ (j mod 16)); lia.
  - change 255 with (2 ^ 8 - 1).
    apply (field_of v3 ((val * 2 ^ 6 + q1 * 2 ^ 32 + i + q2 * 2 ^ 26) * 2 ^ 2 + j / 16 + q3 * 2 ^ 22) _ (k mod 4)); lia.
  - change 255 with (2 ^ 8 - 1). rewrite <- (Z.shiftr_0_r v4).
    apply (field_of v4 (v2 * 2 ^ 4 + k / 4 + q3 * 2 ^ 30 + q4 * 2 ^ 24) _ 0); lia.
Qed.

Lemma b64_char_field x n hi f lo :
  0 <= n -> x = hi * 2 ^ (n + 6) + f * 2 ^ n + lo -> 0 <= f < 64 -> 0 <= lo < 2 ^ n ->
  b64_char (Z.shiftr x n) = table_at B64chars f.
Proof. intros Hn Hx Hf Hlo. unfold b64_char. f_equal. change 63 with (2 ^ 6 - 1). by apply (field_of x hi f lo n 6). Qed.

(** Three bytes to four sextets. *)
Lemma b64_enc3 val a b c s :
  is_byte a -> is_byte b -> is_byte c ->
  exists val', b64_enc val (-6) (a :: b :: c :: s)
    = let '(l, v, vb) := b64_enc val' (-6) s in
      (table_at B64chars (a / 4) :: table_at B64chars (a mod 4 * 16 + b / 16)
       :: table_at B64chars (b mod 16 * 4 + c / 64) :: table_at B64chars (c mod 64) :: l, v, vb).
Proof.
  unfold is_byte. intros Ha Hb Hc.
  set (v1 := shl32 val 8 + a). set (v2 := shl32 v1 8 + b). set (v3 := shl32 v2 8 + c).
  destruct (shl32_low val 8 a ltac:(lia)) as [q1 E1]. fold v1 in E1.
  destruct (shl32_low v1 8 b ltac:(lia)) as [q2 E2]. fold v2 in E2.
  destruct (shl32_low v2 8 c ltac:(lia)) as [q3 E3]. fold v3 in E3.
  pose proof (Z.div_mod a 4). pose proof (Z.mod_pos_bound a 4).
  pose proof (Z.div_mod b 16). pose proof (Z.mod_pos_bound b 16).
  pose proof (Z.div_mod c 64). pose proof (Z.mod_pos_bound c 64).
  assert (b64_emit 2 v1 (-6 + 8) = ([table_at B64chars (a / 4)], -4)) as X1.
  { change (-6 + 8) with 2. cbn [b64_emit]. change (2 <? 0) with false. change (2 - 6 <? 0) with true. cbv iota.
    rewrite (b64_char_field v1 2 (val + q1 * 2 ^ 24) (a / 4) (a mod 4)) by lia. reflexivity. }
  assert (b64_emit 2 v2 (-4 + 8) = ([table_at B64chars (a mod 4 * 16 + b / 16)], -2)) as X2.
  { change (-4 + 8) with 4. cbn [b64_emit]. change (4 <? 0) with false. change (4 - 6 <? 0) with true. cbv iota.
    rewrite (b64_char_field v2 4 (val * 2 ^ 6 + q1 * 2 ^ 30 + a / 4 + q2 * 2 ^ 22) (a mod 4 * 16 + b / 16) (b mod 16)) by lia. reflexivity. }
  assert (b64_emit 2 v3 (-2 + 8)
          = ([table_at B64chars (b mod 16 * 4 + c / 64); table_at B64chars (c mod 64)], -6)) as X3.
  { change (-2 + 8) with 6. cbn [b64_emit]. change (6 <? 0) with false. change (6 - 6 <? 0) with false. cbv iota.
    rewrite (b64_char_field v3 6 (v1 * 2 ^ 4 + q2 * 2 ^ 28 + b / 16 + q3 * 2 ^ 20) (b mod 16 * 4 + c / 64) (c mod 64)) by lia.
    change (6 - 6) with 0.
    rewrite (b64_char_field v3 0 (v2 * 2 ^ 2 + c / 64 + q3 * 2 ^ 26) (c mod 64) 0) by lia. reflexivity. }
  exists v3. cbn [b64_enc]. fold v1. rewrite X1. cbv beta iota zeta. fold v2. rewrite X2. cbv beta iota zeta.
  fold v3. rewrite X3. destruct (b64_enc v3 (-6) s) as [[l v] vb]. reflexivity.
Qed.

(** The last one or two bytes. *)
Lemma b64_enc1 val a :
  is_byte a ->
  exists v, b64_enc val (-6) [a] = ([table_at B64chars (a / 4)], v, -4)
            /\ b64_char (Z.shiftr (shl32 v 8) (-4 + 8)) = table_at B64chars (a mod 4 * 16).
Proof.
  unfold is_byte. intros Ha. set (v1 := shl32 val 8 + a).
  destruct (shl32_low val 8 a ltac:(lia)) as [q1 E1]. fold v1 in E1.
  destruct (shl32_low v1 8 0 ltac:(lia)) as [q2 E2]. rewrite !Z.add_0_r in E2.
  pose proof (Z.div_mod a 4). pose proof (Z.mod_pos_bound a 4).
  exists v1. split.
  - cbn [b64_enc]. fold v1. change (-6 + 8) with 2. cbn [b64_emit]. change (2 <? 0) with false.
    change (2 - 6 <? 0) with true. cbv iota.
    rewrite (b64_char_field v1 2 (val + q1 * 2 ^ 24) (a / 4) (a mod 4)) by lia. reflexivity.
  - change (-4 + 8) with 4.
    rewrite (b64_char_field (shl32 v1 8) 4 (val * 2 ^ 6 + q1 * 2 ^ 30 + a / 4 + q2 * 2 ^ 22) (a mod 4 * 16) 0) by lia.
    reflexivity.
Qed.

Lemma b64_enc2 val a b :
  is_byte a -> is_byte b ->
  exists v, b64_enc val (-6) [a; b]
            = ([table_at B64chars (a / 4); table_at B64chars (a mod 4 * 16 + b / 16)], v, -2)
            /\ b64_char (Z.shiftr (shl32 v 8) (-2 + 8)) = table_at B64chars (b mod 16 * 4).
Proof.
  unfold is_byte. intros Ha Hb.
  set (v1 := shl32 val 8 + a). set (v2 := shl32 v1 8 + b).
  destruct (shl32_low val 8 a ltac:(lia)) as [q1 E1]. fold v1 in E1.
  destruct (shl32_low v1 8 b ltac:(lia)) as [q2 E2]. fold v2 in E2.
  destruct (shl32_low v2 8 0 ltac:(lia)) as [q3 E3]. rewrite !Z.add_0_r in E3.
  pose proof (Z.div_mod a 4). pose proof (Z.mod_pos_bound a 4).
  pose proof (Z.div_mod b 16). pose proof (Z.mod_pos_bound b 16).
  exists v2. split.
  - cbn [b64_enc]. fold v1. change (-6 + 8) with 2. cbn [b64_emit]. change (2 <? 0) with false.
    change (2 - 6 <? 0) with true. cbv iota.
    rewrite (b64_char_field v1 2 (val + q1 * 2 ^ 24) (a / 4) (a mod 4)) by lia. cbv beta iota zeta.
    fold v2. change (2 - 6 + 8) with 4. change (4 <? 0) with false. change (4 - 6 <? 0) with true. cbv iota.
    rewrite (b64_char_field v2 4 (val * 2 ^ 6 + q1 * 2 ^ 30 + a / 4 + q2 * 2 ^ 22) (a mod 4 * 16 + b / 16) (b mod 16)) by lia.
    reflexivity.
  - change (-2 + 8) with 6.
    rewrite (b64_char_field (shl32 v2 8) 6 (v1 * 2 ^ 4 + q2 * 2 ^ 28 + b / 16 + q3 * 2 ^ 20) (b mod 16 * 4) 0) by lia.
    reflexivity.
Qed.


(** Everything [Base64Encode] pushes before the padding. *)
Definition b64_body (val : Z) (s : list Z) : list Z :=
  let '(out, v, vb) := b64_enc val (-6) s in
  if -6 <? vb then out ++ [b64_char (Z.shiftr (shl32 v 8) (vb + 8))] else out.

Lemma b64_body3 val a b c s :
  is_byte a -> is_byte b -> is_byte c ->
  exists val', b64_body val (a :: b :: c :: s)
    = table_at B64chars (a / 4) :: table_at B64chars (a mod 4 * 16 + b / 16)
      :: table_at B64chars (b mod 16 * 4 + c / 64) :: table_at B64chars (c mod 64) :: b64_body val' s.
Proof.
  intros Ha Hb Hc. destruct (b64_enc3 val a b c s Ha Hb Hc) as [val' E]. exists val'.
  unfold b64_body. rewrite E. destruct (b64_enc val' (-6) s) as [[l v] vb]. by destruct (-6 <? vb).
Qed.

Lemma b64_dec_pad val valb k : b64_dec val valb (repeat 61 k) = [].
Proof. by destruct k. Qed.

Lemma b64_dec2 val i j k :
  0 <= i < 64 -> 0 <= j < 64 ->
  b64_dec val (-8) (table_at B64chars i :: table_at B64chars j :: repeat 61 k) = [i * 4 + j / 16].
Proof.
  intros Hi Hj. rewrite b64_dec_char by done. cbv zeta. change (0 <=? -8 + 6) with false. cbv iota.
  rewrite b64_dec_char by done. cbv zeta. change (0 <=? -8 + 6 + 6) with true. cbv iota.
  change (-8 + 6 + 6) with 4. rewrite b64_dec_pad.
  set (v1 := shl32 val 6 + i). set (v2 := shl32 v1 6 + j).
  destruct (shl32_low val 6 i ltac:(lia)) as [q1 E1]. fold v1 in E1.
  destruct (shl32_low v1 6 j ltac:(lia)) as [q2 E2]. fold v2 in E2.
  pose proof (Z.div_mod j 16). pose proof (Z.mod_pos_bound j 16).
  f_equal. change 255 with (2 ^ 8 - 1).
  apply (field_of v2 ((val + q1 * 2 ^ 26) + q2 * 2 ^ 20) _ (j mod 16)); lia.
Qed.

Lemma b64_dec3 val i j l k :
  0 <= i < 64 -> 0 <= j < 64 -> 0 <= l < 64 ->
  b64_dec val (-8) (table_at B64chars i :: table_at B64chars j :: table_at B64chars l :: repeat 61 k)
  = [i * 4 + j / 16; j mod 16 * 16 + l / 4].
Proof.
  intros Hi Hj Hl. rewrite b64_dec_char by done. cbv zeta. change (0 <=? -8 + 6) with false. cbv iota.
  rewrite b64_dec_char by done. cbv zeta. change (0 <=? -8 + 6 + 6) with true. cbv iota.
  change (-8 + 6 + 6) with 4. change (4 - 8) with (-4).
  rewrite b64_dec_char by done. cbv zeta. change (0 <=? -4 + 6) with true. cbv iota.
  change (-4 + 6) with 2. rewrite b64_dec_pad.
  set (v1 := shl32 val 6 + i). set (v2 := shl32 v1 6 + j). set (v3 := shl32 v2 6 + l).
  destruct (shl32_low val 6 i ltac:(lia)) as [q1 E1]. fold v1 in E1.
  destruct (shl32_low v1 6 j ltac:(lia)) as [q2 E2]. fold v2 in E2.
  destruct (shl32_low v2 6 l ltac:(lia)) as [q3 E3]. fold v3 in E3.
  pose proof (Z.div_mod j 16). pose proof (Z.mod_pos_bound j 16).
  pose proof (Z.div_mod l 4). pose proof (Z.mod_pos_bound l 4).
  f_equal; [|f_equal]; change 255 with (2 ^ 8 - 1).
  - apply (field_of v2 ((val + q1 * 2 ^ 26) + q2 * 2 ^ 20) _ (j mod 16)); lia.
  - apply (field_of v3 ((val * 2 ^ 6 + q1 * 2 ^ 32 + i + q2 * 2 ^ 26) * 2 ^ 2 + j / 16 + q3 * 2 ^ 22) _ (l mod 4)); lia.
Qed.

Lemma div_join p q k : 0 <= q < k -> (p * k + q) / k = p.
Proof. intros H. rewrite Z.div_add_l, Z.div_small by lia. lia. Qed.

Lemma mod_join p q k : 0 <= q < k -> (p * k + q) mod k = q.
Proof. intros H. rewrite Z.add_comm, Z.mod_add by lia. by apply Z.mod_small. Qed.

(** Both loops walk in step, whatever the accumulators hold. *)
Lemma b64_decode_body n s val vd k :
  (length s <= n)%nat -> Forall is_byte s -> b64_dec vd (-8) (b64_body val s ++ repeat 61 k) = s.
Proof.
  revert s val vd. induction n as [n IH] using lt_wf_ind. intros s val vd Hn Hs.
  destruct s as [|a [|b [|c s]]].
  - apply b64_dec_pad.
  - inversion_clear Hs as [|? ? Ha _]. destruct (b64_enc1 val a Ha) as (v & E1 & E2).
    unfold b64_body. rewrite E1. change (-6 <? -4) with true. cbv iota. rewrite E2. cbn [app]. unfold is_byte in Ha.
    pose proof (Z.div_mod a 4). pose proof (Z.mod_pos_bound a 4).
    rewrite b64_dec2 by lia. rewrite Z.div_mul by lia. f_equal. lia.
  - inversion_clear Hs as [|? ? Ha Hs']. inversion_clear Hs' as [|? ? Hb _].
    destruct (b64_enc2 val a b Ha Hb) as (v & E1 & E2).
    unfold b64_body. rewrite E1. change (-6 <? -2) with true. cbv iota. rewrite E2. cbn [app]. unfold is_byte in *.
    pose proof (Z.div_mod a 4). pose proof (Z.mod_pos_bound a 4).
    pose proof (Z.div_mod b 16). pose proof (Z.mod_pos_bound b 16).
    rewrite b64_dec3 by lia. rewrite Z.div_mul by lia.
    rewrite div_join, mod_join by lia. do 2 (f_equal; try lia).
  - inversion_clear Hs as [|? ? Ha Hs']. inversion_clear Hs' as [|? ? Hb Hs'']. inversion_clear Hs'' as [|? ? Hc Hs].
    destruct (b64_body3 val a b c s Ha Hb Hc) as [val' ->]. unfold is_byte in *. cbn [app].
    pose proof (Z.div_mod a 4). pose proof (Z.mod_pos_bound a 4).
    pose proof (Z.div_mod b 16). pose proof (Z.mod_pos_bound b 16).
    pose proof (Z.div_mod c 64). pose proof (Z.mod_pos_bound c 64).
    destruct (b64_dec4 vd (a / 4) (a mod 4 * 16 + b / 16) (b mod 16 * 4 + c / 64) (c mod 64)
                (b64_body val' s ++ repeat 61 k)) as [vd' ->]; try lia.
    rewrite (IH (length s)) by (cbn in Hn; lia || done).
    rewrite !div_join, !mod_join by lia.
    do 3 (f_equal; try lia).
Qed.

(** Base64 round trip: decoding what [CUtils::Base64Encode] made gives back
    the original bytes, for texts of any length, although both loops keep their
    bits in a 32-bit [int] that overflows after a few characters. *)
Lemma base64_roundtrip (s : list Z) : Forall is_byte s -> Base64Decode (Base64Encode s) = s.
Proof.
  intros Hs. assert (Base64Encode s = b64_pad (b64_body 0 s)) as ->.
  { unfold Base64Encode, b64_body. by destruct (b64_enc 0 (-6) s) as [[out v] vb]. }
  unfold Base64Decode, b64_pad. by apply (b64_decode_body (length s)).
Qed.

Lemma base64_roundtrip_witness :
  let s := [255; 0; 254; 1; 128; 127; 62; 63] in
  Base64Encode s = lit "/wD+AYB/Pj8=" /\ Base64Decode (Base64Encode s) = s.
Proof. split; [by vm_compute|]. apply base64_roundtrip. repeat constructor; unfold is_byte; lia. Defined.
