(* ===== verification/HexUri.v ===== *)
(** Hexadecimal and URI forms of texts: [hex2bin], [bin2hex], [char2hex],
    [uriEncode], [uriDecode] and [unescapeURL] of main/CUtils.cpp, with what they
    use of [strtol(.., 16)] and [sscanf("%x")].

    [uriDecode] keeps the last converted number in [ii] when [sscanf] converts
    nothing, and [ii] has no initial value: it is an argument here. *)

From Stdlib Require Import ZArith Lia.
From stdpp Require Import base strings numbers list.
From S2P Require Import Prelude CLib Text.
Open Scope Z_scope.

(** ** Numbers in base 16 *)

Definition hex_value (c : Z) : option Z :=
  if (48 <=? c) && (c <=? 57) then Some (c - 48)
  else if (97 <=? c) && (c <=? 102) then Some (c - 87)
  else if (65 <=? c) && (c <=? 70) then Some (c - 55)
  else None.

Fixpoint scan_hex (acc : Z) (s : list Z) : Z :=
  match s with
  | [] => acc
  | c :: s' => match hex_value c with Some d => scan_hex (acc * 16 + d) s' | None => acc end
  end.

(** A leading [0x] counts only before a digit for [strtol]. *)
Definition skip_0x (s : list Z) : list Z :=
  match s with
  | z :: x :: d :: s' =>
      if (z =? 48) && ((x =? 120) || (x =? 88)) && bool_decide (is_Some (hex_value d)) then d :: s' else s
  | _ => s
  end.

(** [strtol(s, NULL, 16)]. *)
Definition strtol16 (s : list Z) : Z :=
  match skip_space (c_str s) with
  | [] => 0
  | c :: s' =>
      if c =? 45 then clamp_long (- scan_hex 0 (skip_0x s'))
      else if c =? 43 then clamp_long (scan_hex 0 (skip_0x s'))
      else clamp_long (scan_hex 0 (skip_0x (c :: s')))
  end.

(** [sscanf(s, "%x", &ii)] into an [int]: [None] when nothing is converted. *)
Definition sscanf_x (s : list Z) : option Z :=
  let t := skip_space (c_str s) in
  let '(neg, t) := match t with
                   | c :: t' => if c =? 45 then (true, t') else if c =? 43 then (false, t') else (false, t)
                   | [] => (false, t)
                   end in
  match t with
  | c :: _ => match hex_value c with
              | Some _ => let v := scan_hex 0 (skip_0x t) in Some (cast I32 (if neg then - v else v))
              | None => None
              end
  | [] => None
  end.

(** ** hex2bin and bin2hex *)

(** [memcpy(ss, &p[i], 2)]: after an odd number of digits the second byte is the
    terminator of the [std::string]. *)
Fixpoint hex2bin (s : list Z) : list Z :=
  match s with
  | [] => []
  | [a] => [cast U8 (strtol16 [a; 0])]
  | a :: b :: s' => cast U8 (strtol16 [a; b]) :: hex2bin s'
  end.

(** [%02x] of one digit below 16. *)
Definition hex_char (d : Z) : Z := if d <? 10 then d + 48 else d + 87.

Definition bin2hex (s : list Z) : list Z := mjoin ((fun c => [hex_char (c / 16); hex_char (c mod 16)]) <$> s).

(** ** URI forms *)

(** One digit of [char2hex]: the second test sees what the first one stored. *)
Definition char2hex_digit (dig : Z) : Z :=
  let dig := if (0 <=? dig) && (dig <=? 9) then dig + 48 else dig in
  if (10 <=? dig) && (dig <=? 15) then dig + (97 - 10) else dig.

Definition char2hex (dec : Z) : list Z :=
  let dig1 := Z.shiftr (Z.land dec 0xF0) 4 in
  let dig2 := Z.land dec 0x0F in
  [char2hex_digit dig1; char2hex_digit dig2].

(** The characters [uriEncode] leaves alone: digits, letters and [~!*()']. *)
Definition uri_plain (c : Z) : bool :=
  (48 <=? c) && (c <=? 57) || (65 <=? c) && (c <=? 90) || (97 <=? c) && (c <=? 122)
  || ((c =? 126) || (c =? 33) || (c =? 42) || (c =? 40) || (c =? 41) || (c =? 39)).

Definition uriEncode (s : list Z) : list Z :=
  mjoin ((fun c => if uri_plain (schar c) then [c] else 37 :: char2hex (schar c)) <$> s).

(** A byte after [%] is skipped whatever it is: the index moves by three. *)
Fixpoint uriDecode (ii : Z) (s : list Z) : list Z :=
  match s with
  | [] => []
  | c :: s' =>
      if c =? 37 then
        let ii := default ii (sscanf_x (take 2 s')) in
        cast U8 ii :: match s' with
                      | _ :: _ :: s'' => uriDecode ii s''
                      | _ => []
                      end
      else c :: uriDecode ii s'
  end.

(** [u_table[(int)s[k]]]: a [char] above 127 is a negative index. *)
Definition u_table_at (c : Z) : res Z :=
  if schar c <? 0 then Throw (UB "u_table[negative char]") else Ok (table_at u_table (schar c)).

Definition unescape_digit (c : Z) : Z :=
  let c := if (48 <=? c) && (c <=? 57) then c - 48 else c in
  if (65 <=? c) && (c <=? 70) then c - 55 else c.

(** [s[size()]] is the terminator. *)
Fixpoint unescapeURL (s : list Z) : res (list Z) :=
  match s with
  | [] => Ok []
  | c :: s' =>
      if c =? 37 then
        match s' with
        | [] => Ok []
        | x :: s'' =>
            let y := default 0 (head s'') in
            c1 ← u_table_at x;
            c2 ← u_table_at y;
            rest ← match s'' with [] => Ok [] | _ :: s3 => unescapeURL s3 end;
            Ok (if (70 <? c1) || (70 <? c2) then rest
                else if (c1 <? 48) || (c2 <? 48) then rest
                else cast U8 (unescape_digit c1 * 16 + unescape_digit c2) :: rest)
        end
      else rest ← unescapeURL s'; Ok ((if c =? 43 then 32 else c) :: rest)
  end.

(** ** Round trips *)

(** A decidable fact of the 256 bytes. *)
Lemma byte_forall (P : Z -> bool) :
  forallb P (Z.of_nat <$> seq 0 256) = true -> forall c, is_byte c -> P c = true.
Proof.
  intros H c Hc. rewrite forallb_forall in H. apply H, list_elem_of_In, list_elem_of_fmap.
  exists (Z.to_nat c). unfold is_byte in Hc. split; [lia|]. apply elem_of_seq. lia.
Qed.

Lemma hex_pair c : is_byte c -> cast U8 (strtol16 [hex_char (c / 16); hex_char (c mod 16)]) = c.
Proof.
  intros Hc. apply Z.eqb_eq.
  by apply (byte_forall (fun c => cast U8 (strtol16 [hex_char (c / 16); hex_char (c mod 16)]) =? c)); [vm_compute|].
Qed.

Definition uri_char_ok (c : Z) : bool :=
  if uri_plain (schar c) then negb (c =? 37) && negb (c =? 43)
  else match char2hex (schar c) with
       | [d1; d2] =>
           bool_decide (cast U8 <$> sscanf_x [d1; d2] = Some c)
           && match u_table_at d1, u_table_at d2 with
              | Ok c1, Ok c2 =>
                  negb ((70 <? c1) || (70 <? c2)) && negb ((c1 <? 48) || (c2 <? 48))
                  && (cast U8 (unescape_digit c1 * 16 + unescape_digit c2) =? c)
              | _, _ => false
              end
       | _ => false
       end.

Lemma uri_chars c : is_byte c -> uri_char_ok c = true.
Proof. apply byte_forall. by vm_compute. Qed.

(** What a decoder sees at the head of an encoded text. *)
Lemma uriEncode_cons c s :
  is_byte c ->
  uriEncode (c :: s) = c :: uriEncode s /\ c <> 37 /\ c <> 43
  \/ exists d1 d2 c1 c2 v, uriEncode (c :: s) = 37 :: d1 :: d2 :: uriEncode s
       /\ sscanf_x [d1; d2] = Some v /\ cast U8 v = c
       /\ u_table_at d1 = Ok c1 /\ u_table_at d2 = Ok c2
       /\ (70 <? c1) || (70 <? c2) = false /\ (c1 <? 48) || (c2 <? 48) = false
       /\ cast U8 (unescape_digit c1 * 16 + unescape_digit c2) = c.
Proof.
  intros Hc. pose proof (uri_chars c Hc) as H. unfold uri_char_ok in H. unfold uriEncode. rewrite join_cons.
  destruct (uri_plain (schar c)).
  - left. split; [done|lia].
  - right. destruct (char2hex (schar c)) as [|d1 [|d2 [|]]]; try done.
    apply andb_prop in H as [H1 H2]. apply bool_decide_eq_true, fmap_Some in H1 as (v & Hv & Ev).
    destruct (u_table_at d1) as [c1|] eqn:E1; [|done]. destruct (u_table_at d2) as [c2|] eqn:E2; [|done].
    apply andb_prop in H2 as [H2 H4]. apply andb_prop in H2 as [H2 H3].
    apply negb_true_iff in H2, H3. apply Z.eqb_eq in H4.
    by exists d1, d2, c1, c2, v.
Qed.

Lemma uriDecode_encode s ii : Forall is_byte s -> uriDecode ii (uriEncode s) = s.
Proof.
  intros Hs. revert ii. induction Hs as [|c s Hc Hs IH]; intros ii; [done|].
  destruct (uriEncode_cons c s Hc) as [(-> & H & _) | (d1 & d2 & c1 & c2 & v & -> & Hv & E & _)]; cbn [uriDecode].
  - destruct (Z.eqb_spec c 37); [done|]. by rewrite IH.
  - cbn [take Z.eqb Pos.eqb]. rewrite take_0, Hv. change (default ii (Some v)) with v. by rewrite IH, E.
Qed.

Lemma unescape_encode s : Forall is_byte s -> unescapeURL (uriEncode s) = Ok s.
Proof.
  induction 1 as [|c s Hc Hs IH]; [done|].
  destruct (uriEncode_cons c s Hc) as [(-> & H1 & H2) | (d1 & d2 & c1 & c2 & v & -> & _ & _ & E1 & E2 & E3 & E4 & E5)];
    cbn [unescapeURL].
  - destruct (Z.eqb_spec c 37), (Z.eqb_spec c 43); try done. by rewrite IH.
  - cbn [Z.eqb Pos.eqb head]. cbv zeta. change (default 0 (Some d2)) with d2.
    rewrite E1, res_bind_ok, E2, res_bind_ok, IH, res_bind_ok, E3, E4, E5. done.
Qed.

(** Text forms round trip: for every byte string, [hex2bin] inverts [bin2hex],
    and both URI decoders, [uriDecode] (whatever its uninitialised [ii] holds) and
    [unescapeURL], invert [uriEncode]; in particular neither reads the
    uninitialised variable nor indexes [u_table] with a negative [char] on an
    encoded text. *)
Lemma text_forms_roundtrip (s : list Z) (ii : Z) :
  Forall is_byte s ->
  hex2bin (bin2hex s) = s /\ uriDecode ii (uriEncode s) = s /\ unescapeURL (uriEncode s) = Ok s.
Proof.
  intros Hs. split; [|by eauto using uriDecode_encode, unescape_encode].
  induction Hs as [|c s Hc Hs IH]; [done|]. change (bin2hex (c :: s)) with (hex_char (c / 16) :: hex_char (c mod 16) :: bin2hex s).
  cbn [hex2bin]. by rewrite hex_pair, IH.
Qed.

Lemma text_forms_roundtrip_witness :
  let s := [97; 0; 37; 43; 32; 255; 128] in
  uriEncode s = lit "a%00%25%2b%20%ff%80"
  /\ hex2bin (bin2hex s) = s /\ uriDecode 0 (uriEncode s) = s /\ unescapeURL (uriEncode s) = Ok s.
Proof.
  split; [by vm_compute|]. apply text_forms_roundtrip. repeat constructor; unfold is_byte; lia.
Defined.
