(* ===== verification/Url.v ===== *)
(** URLs: corelib/url.hpp and corelib/url.cpp.

    The pointers into the text become its remaining parts.  [Url] parses its text
    when a part is first asked for. *)

From Stdlib Require Import ZArith Lia.
From stdpp Require Import base strings numbers list.
From S2P Require Import Prelude CLib Text.
Open Scope Z_scope.

(** [parse_error] and [build_error]. *)
Definition parse_error : exn := RuntimeError "Url::parse_error".
Definition build_error : exn := RuntimeError "Url::build_error".

(** ** Characters *)

Definition tbl : list Z :=
  [ 0; 0; 0; 0; 0; 0; 0; 0; 0; 0; 0; 0; 0; 0; 0; 0; 0; 0; 0; 0; 0; 0; 0; 0; 0; 0; 0; 0; 0; 0; 0; 0;
    0; 1; 0; 0; 1; 32; 1; 1; 1; 1; 1; 1; 1; 1; 1; 8; 1; 1; 1; 1; 1; 1; 1; 1; 1; 1; 4; 1; 0; 1; 0; 16;
    2; 1; 1; 1; 1; 1; 1; 1; 1; 1; 1; 1; 1; 1; 1; 1; 1; 1; 1; 1; 1; 1; 1; 1; 1; 1; 1; 0; 0; 0; 0; 1;
    0; 1; 1; 1; 1; 1; 1; 1; 1; 1; 1; 1; 1; 1; 1; 1; 1; 1; 1; 1; 1; 1; 1; 1; 1; 1; 1; 0; 0; 0; 1; 0;
    0; 0; 0; 0; 0; 0; 0; 0; 0; 0; 0; 0; 0; 0; 0; 0; 0; 0; 0; 0; 0; 0; 0; 0; 0; 0; 0; 0; 0; 0; 0; 0;
    0; 0; 0; 0; 0; 0; 0; 0; 0; 0; 0; 0; 0; 0; 0; 0; 0; 0; 0; 0; 0; 0; 0; 0; 0; 0; 0; 0; 0; 0; 0; 0;
    0; 0; 0; 0; 0; 0; 0; 0; 0; 0; 0; 0; 0; 0; 0; 0; 0; 0; 0; 0; 0; 0; 0; 0; 0; 0; 0; 0; 0; 0; 0; 0;
    0; 0; 0; 0; 0; 0; 0; 0; 0; 0; 0; 0; 0; 0; 0; 0; 0; 0; 0; 0; 0; 0; 0; 0; 0; 0; 0; 0; 0; 0; 0; 0 ].

Definition is_char (mask c : Z) : bool := negb (Z.land (nth (Z.to_nat c) tbl 0) mask =? 0).
Definition is_chars (s : list Z) (mask : Z) : bool := forallb (is_char mask) s.

Definition in_rng (a b c : Z) : bool := (a <=? c) && (c <=? b).
Definition is_alpha (c : Z) : bool := in_rng 65 90 c || in_rng 97 122 c.
Definition is_num (c : Z) : bool := in_rng 48 57 c.
Definition is_alnum (c : Z) : bool := is_alpha c || is_num c.
Definition is_hexdigit (c : Z) : bool := is_num c || in_rng 65 70 c || in_rng 97 102 c.

Definition get_hex_digit (c : Z) : Z :=
  if in_rng 48 57 c then c - 48 else if in_rng 65 70 c then c - 65 + 10 else if in_rng 97 102 c then c - 97 + 10 else -1.

(** The digits at the front, in 32 bits; the text after them. *)
Fixpoint uint_loop (val : Z) (s : list Z) : Z * list Z :=
  match s with
  | c :: s' => if is_num c then uint_loop (wrapu 32 (val * 10 + (c - 48))) s' else (val, s)
  | [] => (val, [])
  end.

Definition is_uint (s : list Z) (max : Z) : option (list Z) :=
  match s with
  | c :: s' =>
      if is_num c then
        let '(val, t) := if c =? 48 then (0, s') else uint_loop (c - 48) s' in
        if max <? val then None else Some t
      else None
  | [] => None
  end.

Definition to_lower_char (c : Z) : Z := if in_rng 65 90 c then Z.lor c 0x20 else c.
Definition to_lower (s : list Z) : list Z := to_lower_char <$> s.

(** [find_first_of] and [find_char]: the text before the first of the characters,
    and the text from it on. *)
Fixpoint find_first_of (q s : list Z) : list Z * list Z :=
  match s with
  | [] => ([], [])
  | c :: s' => if bool_decide (c ∈ q) then ([], s) else let '(a, b) := find_first_of q s' in (c :: a, b)
  end.

Definition find_char (c : Z) : list Z -> list Z * list Z := find_first_of [c].

Definition starts (c : Z) (s : list Z) : bool := match s with x :: _ => x =? c | [] => false end.

Definition is_scheme (s : list Z) : bool :=
  match s with
  | c :: s' => is_alpha c && forallb (fun x => is_alnum x || (x =? 43) || (x =? 45) || (x =? 46)) s'
  | [] => false
  end.

Definition normalize_scheme : list Z -> list Z := to_lower.

Definition is_ipv4 (s : list Z) : bool :=
  (7 <=? length s)%nat && (length s <=? 254)%nat && forallb (fun c => (c =? 46) || is_num c) s.

Definition dot (s : list Z) : option (list Z) := match s with 46 :: s' => Some s' | _ => None end.

Definition is_valid_ipv4 (s : list Z) : bool :=
  match (s1 ← is_uint s 255; s2 ← dot s1; s3 ← is_uint s2 255; s4 ← dot s3; s5 ← is_uint s4 255; s6 ← dot s5; is_uint s6 255) with
  | Some [] => true
  | _ => false
  end.

Definition is_reg_name (s : list Z) : bool := is_chars s 0x01.
Definition normalize_reg_name : list Z -> list Z := to_lower.

Definition is_ipv6 (s : list Z) : bool :=
  (2 <=? length s)%nat && (length s <=? 254)%nat && forallb (fun c => (c =? 58) || (c =? 46) || is_hexdigit c) s.

(** The loop of [is_valid_ipv6]; [b] is the text of the current field. *)
Fixpoint ipv6_loop (null_field : bool) (nfields ndigits : nat) (b p : list Z) : (bool * nat * nat) + bool :=
  match p with
  | [] => inl (null_field, nfields, ndigits)
  | c :: p' =>
      if c =? 46 then
        inr (((negb null_field && (nfields =? 6)%nat) || (null_field && (nfields <? 7)%nat)) && is_valid_ipv4 b)
      else if c =? 58 then
        match ndigits with
        | O => if null_field then inr false else ipv6_loop true nfields O p' p'
        | _ => ipv6_loop null_field (S nfields) O p' p'
        end
      else if (4 <? S ndigits)%nat || negb (is_hexdigit c) then inr false
      else ipv6_loop null_field nfields (S ndigits) b p'
  end.

Definition is_valid_ipv6 (s : list Z) : bool :=
  if (39 <? length s)%nat || (length s <? 2)%nat then false
  else
    let rest_ok null_field p :=
      match ipv6_loop null_field O O p p with
      | inr r => r
      | inl (nf, nfields, ndigits) =>
          match ndigits with
          | O => if starts 58 (rev s) then starts 58 (drop 1 (rev s)) && (nfields <? 8)%nat
                 else (negb nf && (nfields =? 8)%nat) || (nf && (nfields <? 8)%nat)
          | _ => (negb nf && (S nfields =? 8)%nat) || (nf && (S nfields <? 8)%nat)
          end
      end in
    match s with
    | 58 :: 58 :: p => match p with [] => true | _ => rest_ok true p end
    | 58 :: _ => false
    | _ => rest_ok false s
    end.

(** *** normalize_IPv6 *)

(** The positions after the colons between [p] and the end; more than nine are
    refused. *)
Fixpoint ipv6_tokens (p : nat) (text : list Z) (b : nat) (acc : list nat) : res (list nat * nat) :=
  match text with
  | [] => Ok (acc, b)
  | c :: text' =>
      if c =? 58 then
        if (10 <=? length acc + 1)%nat then Throw parse_error
        else ipv6_tokens (S p) text' (S p) (acc ++ [b])
      else ipv6_tokens (S p) text' b acc
  end.

Definition hex_field (t : list Z) : Z :=
  fold_left (fun f c => wrapu 16 (Z.lor (Z.shiftl f 4) (get_hex_digit c))) (tail t) (wrapu 16 (get_hex_digit (hd 0 t))).

(** The fields of the tokens, and the place of the empty one. *)
Fixpoint ipv6_fields (toks : list (list Z)) (i : nat) (fields : list Z) (null_pos : nat) : res (list Z * nat) :=
  match toks with
  | [] => Ok (fields, null_pos)
  | t :: toks' =>
      let t' := (find_char 58 t).1 in
      match t' with
      | [] => ipv6_fields toks' (S i) fields i
      | _ => if (8 <=? length fields)%nat then Throw parse_error
             else ipv6_fields toks' (S i) (fields ++ [hex_field t']) null_pos
      end
  end.

(** The first of the longest runs of zeros: its place and length. *)
Fixpoint zero_run (fields : list Z) (i first len : nat) (best : nat * nat) : nat * nat :=
  let best' := if (best.2 <? len)%nat then (first, len) else best in
  match fields with
  | [] => best'
  | f :: fields' =>
      if f =? 0 then zero_run fields' (S i) (if (len =? 0)%nat then i else first) (S len) best
      else zero_run fields' (S i) O O best'
  end.

Fixpoint hex_str_loop (fuel : nat) (n : Z) (acc : list Z) : list Z :=
  match fuel with
  | O => acc
  | S f =>
      let d := n mod 16 in
      let acc' := (if d <? 10 then 48 + d else 87 + d) :: acc in
      if n / 16 =? 0 then acc' else hex_str_loop f (n / 16) acc'
  end.

(** [std::hex << n] of 16 bits. *)
Definition hex_str (n : Z) : list Z := hex_str_loop 4 n [].

Definition colon_fields (l : list Z) : list Z := mjoin ((fun f => 58 :: hex_str f) <$> l).

Definition normalize_IPv6 (s : list Z) : res (list Z) :=
  if negb (is_ipv6 s) then Throw parse_error
  else if bool_decide (s = [58; 58]) then Ok s
  else
    let p := if starts 58 s then 1%nat else 0%nat in
    let e := if starts 58 (rev s) then (length s - 1)%nat else length s in
    '(toks, b) ← ipv6_tokens p (drop p (take e s)) p [];
    let starts_ := if (length toks <? 8)%nat then toks ++ [b] else toks in
    let ends := tail starts_ ++ [e] in
    let texts := zip_with (fun a z => drop a (take z s)) starts_ ends in
    let last_ := default [] (list.last texts) in
    let ipv4 := (5 <? length last_)%nat in
    '(fs, null_pos) ← ipv6_fields (if ipv4 then removelast texts else texts) 0 [] 8;
    let nfields := if ipv4 then 6%nat else 8%nat in
    if (length fs <? nfields)%nat && (length fs <? null_pos)%nat then Throw parse_error
    else
      let fields := if (length fs <? nfields)%nat
                    then take null_pos fs ++ replicate (nfields - length fs) 0 ++ drop null_pos fs
                    else take nfields fs in
      let '(zp, zl) := zero_run fields 0 0 0 (nfields, 0%nat) in
      let null_pos := if (zl =? 1)%nat then nfields else zp in
      let null_len := zl in
      let '(head, i) :=
        if (null_pos =? 0)%nat then ([58], null_len)
        else
          let i := null_pos in
          let i' := (i + null_len)%nat in
          (hex_str (hd 0 fields) ++ colon_fields (take (null_pos - 1) (drop 1 fields))
             ++ (if (i <? nfields)%nat then [58] else [])
             ++ (if (i' =? 8)%nat && negb (null_len =? 0)%nat then [58] else []), i') in
      Ok (head ++ colon_fields (drop i fields) ++ (if ipv4 then 58 :: last_ else [])).

Definition is_port (s : list Z) : bool := match is_uint s 65535 with Some [] => true | _ => false end.

(** *** Paths *)

(** The texts between the characters [c], as [std::getline] gives them. *)
Fixpoint split_char (c : Z) (s : list Z) : list (list Z) :=
  match s with
  | [] => [[]]
  | x :: s' => if x =? c then [] :: split_char c s'
               else match split_char c s' with [] => [[x]] | w :: ws => (x :: w) :: ws end
  end.

Definition path_elem (elems : list (list Z)) (elem : list Z) : list (list Z) :=
  if bool_decide (elem = []) || bool_decide (elem = lit ".") then elems
  else if bool_decide (elem = lit "..") then removelast elems
  else elems ++ [elem].

Definition path_last (elems : list (list Z)) (elem : list Z) : list (list Z) :=
  if bool_decide (elem = lit ".") then elems ++ [[]]
  else if bool_decide (elem = lit "..") then removelast elems
  else elems ++ [elem].

Definition normalize_path (s : list Z) : list Z :=
  match s with
  | [] => []
  | _ =>
      let segs := split_char 47 s in
      let elems := path_last (fold_left path_elem (removelast segs) []) (default [] (list.last segs)) in
      (if starts 47 s then [47] else []) ++ join [47] elems
  end.

(** *** Percent encoding *)

Fixpoint decode (s : list Z) : res (list Z) :=
  match s with
  | [] => Ok []
  | c :: s1 =>
      if c =? 37 then
        match s1 with
        | a :: b :: s2 =>
            if (get_hex_digit a <? 0) || (get_hex_digit b <? 0) then Throw parse_error
            else r ← decode s2; Ok (Z.lor (Z.shiftl (get_hex_digit a) 4) (get_hex_digit b) :: r)
        | _ => Throw parse_error
        end
      else r ← decode s1; Ok (c :: r)
  end.

Fixpoint decode_plus (s : list Z) : res (list Z) :=
  match s with
  | [] => Ok []
  | c :: s1 =>
      if c =? 43 then r ← decode_plus s1; Ok (32 :: r)
      else if c =? 37 then
        match s1 with
        | a :: b :: s2 =>
            if (get_hex_digit a <? 0) || (get_hex_digit b <? 0) then Throw parse_error
            else r ← decode_plus s2; Ok (Z.lor (Z.shiftl (get_hex_digit a) 4) (get_hex_digit b) :: r)
        | _ => Throw parse_error
        end
      else r ← decode_plus s1; Ok (c :: r)
  end.

Definition hexdigits : list Z := lit "0123456789ABCDEF".
Definition percent (c : Z) : list Z := [37; nth (Z.to_nat (Z.shiftr c 4)) hexdigits 0; nth (Z.to_nat (Z.land c 0xF)) hexdigits 0].

Definition encode_char (mask c : Z) : list Z := if is_char mask c then [c] else percent c.
Definition encode (s : list Z) (mask : Z) : list Z := mjoin (encode_char mask <$> s).

(** '+', '&' and ';' are escaped in a query, and '=' in a key. *)
Definition query_char (key : bool) (mask c : Z) : list Z :=
  if c =? 32 then [43] else if c =? 43 then lit "%2B" else if key && (c =? 61) then lit "%3D"
  else if c =? 38 then lit "%26" else if c =? 59 then lit "%3B" else encode_char mask c.
Definition encode_query_key (s : list Z) (mask : Z) : list Z := mjoin (query_char true mask <$> s).
Definition encode_query_val (s : list Z) (mask : Z) : list Z := mjoin (query_char false mask <$> s).

(** ** Url *)

Record Url : Type := mkUrl {
  m_scheme : list Z;
  m_user : list Z;
  m_host : list Z;
  m_port : list Z;
  m_path : list Z;
  m_query : list (list Z * list Z);
  m_fragment : list Z;
  m_ip_v : Z;
  m_url : list Z;
  m_parse : bool;
  m_built : bool;
}.

(** The parts, as a text is parsed into them. *)
Definition with_parts (scheme user host port path : list Z) (query : list (list Z * list Z)) (fragment : list Z) (ip_v : Z) (u : Url) : Url :=
  mkUrl scheme user host port path query fragment ip_v (m_url u) true false.

Definition url_empty : Url := mkUrl [] [] [] [] [] [] [] (-1) [] true true.
Definition url_of (s : list Z) : Url := mkUrl [] [] [] [] [] [] [] (-1) s false false.

Definition url_clear (u : Url) : Url := url_empty.

Definition set_text (s : list Z) (u : Url) : Url :=
  mkUrl (m_scheme u) (m_user u) (m_host u) (m_port u) (m_path u) (m_query u) (m_fragment u) (m_ip_v u) s false false.

Definition url_assign (url u : Url) : Url :=
  let p := m_parse url in
  let t := if negb p || m_built url then m_url url else m_url u in
  if p then mkUrl (m_scheme url) (m_user url) (m_host url) (m_port url) (m_path url) (m_query url) (m_fragment url) (m_ip_v url) t p (m_built url)
  else mkUrl (m_scheme u) (m_user u) (m_host u) (m_port u) (m_path u) (m_query u) (m_fragment u) (m_ip_v u) t p (m_built url).

(** *** parse_url *)

Definition check (b : bool) : res unit := if b then Ok tt else Throw parse_error.

(** The host between brackets: version and text. *)
Definition ip_literal (t : list Z) : res (Z * list Z) :=
  match t with
  | 118 :: b =>
      let '(ip_v, b1) :=
        match b with
        | d :: b' => if is_hexdigit d
                     then match b' with
                          | d2 :: _ => if is_hexdigit d2 then (wraps 8 (Z.lor (Z.shiftl (get_hex_digit d) 8) (get_hex_digit d2)), b') else (get_hex_digit d, b')
                          | [] => (get_hex_digit d, b')
                          end
                     else (-1, b)
        | [] => (-1, b)
        end in
      match b1 with
      | 46 :: h => if negb (ip_v =? -1) && is_chars h 0x05 then Ok (ip_v, h) else Throw parse_error
      | _ => Throw parse_error
      end
  | _ => if is_ipv6 t then Ok (6, t) else Throw parse_error
  end.

(** A host, and what follows it. *)
Definition parse_host (b : list Z) : res (Z * list Z * list Z) :=
  match b with
  | 91 :: b1 =>
      let '(t, close) := find_char 93 b1 in
      match close with
      | [] => Throw parse_error
      | _ :: b2 => '(v, h) ← ip_literal t; Ok (v, h, b2)
      end
  | _ =>
      let '(h, b2) := find_char 58 b in
      if is_ipv4 h then Ok (4, h, b2) else if is_reg_name h then Ok (0, h, b2) else Throw parse_error
  end.

(** The authority: user, version, host and port.  What follows a bracket and is
    not a port is passed over. *)
Definition parse_authority (auth : list Z) : res (option (list Z) * Z * list Z * option (list Z)) :=
  let '(u, at_) := find_char 64 auth in
  '(user, b) ← (match at_ with
                | _ :: b => _ ← check (is_chars u 0x25); Ok (Some u, b)
                | [] => Ok (None, auth)
                end);
  '(ip_v, host, b') ← parse_host b;
  match b' with
  | 58 :: p => _ ← check (is_port p); Ok (user, ip_v, host, Some p)
  | _ => Ok (user, ip_v, host, None)
  end.

(** The loop over the entries of the query; each takes a character or more. *)
Fixpoint parse_query (fuel : nat) (b : list Z) : res (list (list Z * list Z)) :=
  match fuel with
  | O => Throw OutOfFuel
  | S f =>
      let '(k, p) := find_first_of (lit "=;&") b in
      _ ← check (is_chars k 0x3F);
      key ← decode_plus k;
      match p with
      | [] => Ok [(key, [])]
      | c :: b1 =>
          if c =? 61 then
            let '(v, p') := find_first_of (lit ";&") b1 in
            _ ← check (is_chars v 0x3F);
            val ← decode_plus v;
            match p' with
            | [] => Ok [(key, val)]
            | _ :: b2 => r ← parse_query f b2; Ok ((key, val) :: r)
            end
          else r ← parse_query f b1; Ok ((key, []) :: r)
      end
  end.

(** The scheme, the text after it, and that text from its first delimiter on. *)
Definition split_scheme (s : list Z) : res (option (list Z) * list Z * list Z) :=
  let '(pre, p) := find_first_of (lit ":/?#") s in
  match p with
  | 58 :: b => _ ← check (is_scheme pre); Ok (Some pre, b, (find_first_of (lit "/?#") b).2)
  | _ => Ok (None, s, p)
  end.

(** The authority after [//], and the text after it. *)
Definition split_authority (p b : list Z) : res (option (option (list Z) * Z * list Z * option (list Z)) * list Z) :=
  match p, b with
  | 47 :: _, 47 :: 47 :: b' => let '(a, rest) := find_first_of (lit "/?#") b' in r ← parse_authority a; Ok (Some r, rest)
  | _, _ => Ok (None, b)
  end.

(** Path, query and fragment. *)
Definition split_path (b : list Z) : res (list Z * option (list Z) * option (list Z)) :=
  let '(path, p) := find_first_of (lit "?#") b in
  _ ← check (is_chars path 0x2F);
  let '(query, p') := match p with
                      | 63 :: b' => let '(q, p') := find_char 35 b' in (Some q, p')
                      | _ => (None, p)
                      end in
  match p' with
  | 35 :: f => _ ← check (is_chars f 0x3F); Ok (path, query, Some f)
  | _ => Ok (path, query, None)
  end.

Definition decode_host (ip_v : Z) (h : list Z) : res (list Z) :=
  host ← decode h;
  if ip_v =? 0 then Ok (normalize_reg_name host) else if ip_v =? 6 then normalize_IPv6 host else Ok host.

Definition query_entries (query : option (list Z)) : res (list (list Z * list Z)) :=
  match query with
  | Some (c :: q) => parse_query (S (length (c :: q))) (c :: q)
  | _ => Ok []
  end.

Definition parse_url (u : Url) : res Url :=
  let s := m_url u in
  match s with
  | [] => Ok url_empty
  | _ =>
      _ ← check (Z.of_nat (length s) <=? 8000);
      '(scheme, b, p) ← split_scheme s;
      '(auth, b1) ← split_authority p b;
      '(path, query, fragment) ← split_path b1;
      let '(user, ip_v, host, port) := match auth with
                                       | Some (us, v, h, po) => (us, v, Some h, po)
                                       | None => (None, -1, None, None)
                                       end in
      _user ← decode (default [] user);
      _host ← match host with Some h => decode_host ip_v h | None => Ok [] end;
      path1 ← decode path;
      query_v ← query_entries query;
      _fragment ← decode (default [] fragment);
      Ok (with_parts (normalize_scheme (default [] scheme)) _user _host (default [] port) (normalize_path path1) query_v _fragment ip_v u)
  end.

Definition lazy_parse (u : Url) : res Url := if m_parse u then Ok u else parse_url u.

(** *** build_url *)

Definition default_port (scheme port : list Z) : bool :=
  (bool_decide (scheme = lit "http") && bool_decide (port = lit "80")) || (bool_decide (scheme = lit "https") && bool_decide (port = lit "443")).

Definition nonempty_ (s : list Z) : bool := match s with [] => false | _ => true end.

Definition build_entry (kv : list Z * list Z) : list Z :=
  encode_query_key kv.1 0x1F ++ (if nonempty_ kv.2 then 61 :: encode_query_val kv.2 0x1F else []).

Definition build_query (q : list (list Z * list Z)) : res (list Z) :=
  match q with
  | [] => Ok []
  | _ => if forallb (fun kv => nonempty_ kv.1) q then Ok (63 :: join [38] (build_entry <$> q)) else Throw build_error
  end.

Definition build_authority (u : Url) : list Z :=
  lit "//"
  ++ (if nonempty_ (m_user u) then encode (m_user u) 0x05 ++ [64] else [])
  ++ (if (m_ip_v u =? 0) || (m_ip_v u =? 4) then m_host u
      else if m_ip_v u =? 6 then [91] ++ m_host u ++ [93]
      else lit "[v" ++ hex_str_loop 8 (wrapu 32 (m_ip_v u)) [] ++ [46] ++ m_host u ++ [93])
  ++ (if nonempty_ (m_port u) && negb (default_port (m_scheme u) (m_port u)) then 58 :: m_port u else []).

Definition build_text (u : Url) : res (list Z) :=
  authority ← (if nonempty_ (m_host u) then Ok (build_authority u)
               else if nonempty_ (m_user u) || nonempty_ (m_port u) then Throw build_error
               else if starts 58 (find_first_of (lit ":/") (m_path u)).2 then Throw build_error
               else Ok []);
  path ← (if nonempty_ (m_path u) && negb (starts 47 (m_path u)) && nonempty_ (m_host u) then Throw build_error
          else Ok (encode (m_path u) 0x0F));
  query ← build_query (m_query u);
  Ok ((if nonempty_ (m_scheme u) then m_scheme u ++ [58] else []) ++ authority ++ path ++ query
      ++ (if nonempty_ (m_fragment u) then 35 :: encode (m_fragment u) 0x1F else [])).

Definition build_url (u : Url) : res Url :=
  u' ← lazy_parse u;
  t ← build_text u';
  Ok (mkUrl (m_scheme u') (m_user u') (m_host u') (m_port u') (m_path u') (m_query u') (m_fragment u') (m_ip_v u') t (m_parse u') false).

Definition url_str (u : Url) : res (list Z) := if m_built u then Ok (m_url u) else u' ← build_url u; Ok (m_url u').

(** *** Parts *)

Definition get_part {A} (f : Url -> A) (u : Url) : res (A * Url) := u' ← lazy_parse u; Ok (f u', u').
Definition scheme : Url -> res (list Z * Url) := get_part m_scheme.
Definition user_info : Url -> res (list Z * Url) := get_part m_user.
Definition host : Url -> res (list Z * Url) := get_part m_host.
Definition port : Url -> res (list Z * Url) := get_part m_port.
Definition path : Url -> res (list Z * Url) := get_part m_path.
Definition fragment : Url -> res (list Z * Url) := get_part m_fragment.
Definition query : Url -> res (list (list Z * list Z) * Url) := get_part m_query.

Definition set_scheme (s : list Z) (u : Url) : res Url :=
  _ ← check (is_scheme s);
  u ← lazy_parse u;
  let o := to_lower s in
  if bool_decide (o = m_scheme u) then Ok u
  else Ok (mkUrl o (m_user u) (m_host u) (if default_port o (m_port u) then [] else m_port u) (m_path u) (m_query u) (m_fragment u) (m_ip_v u)
                 (m_url u) (m_parse u) false).

Definition set_user_info (s : list Z) (u : Url) : res Url :=
  _ ← check (length s <=? 256)%nat;
  u ← lazy_parse u;
  if bool_decide (m_user u = s) then Ok u
  else Ok (mkUrl (m_scheme u) s (m_host u) (m_port u) (m_path u) (m_query u) (m_fragment u) (m_ip_v u) (m_url u) (m_parse u) false).

(** [ip_v] is unsigned here and signed in the object. *)
Definition host_of (h : list Z) (ip_v : Z) : res (list Z * Z) :=
  match h with
  | [] => Ok ([], 255)
  | _ =>
      if is_ipv4 h then _ ← check (is_valid_ipv4 h); Ok (h, 4)
      else if negb (ip_v =? 0) && negb (ip_v =? 4) && negb (ip_v =? 6) then _ ← check (is_ipv6 h); Ok (h, ip_v)
      else if is_ipv6 h then _ ← check (is_valid_ipv6 h); o ← normalize_IPv6 h; Ok (o, 6)
      else if is_reg_name h then Ok (normalize_reg_name h, 0)
      else Throw parse_error
  end.

Definition set_host (h : list Z) (ip_v : Z) (u : Url) : res Url :=
  _ ← check (length h <=? 253)%nat;
  u ← lazy_parse u;
  '(o, v) ← host_of h ip_v;
  if bool_decide (m_host u = o) && (m_ip_v u =? v) then Ok u
  else Ok (mkUrl (m_scheme u) (m_user u) o (m_port u) (m_path u) (m_query u) (m_fragment u) (wraps 8 v) (m_url u) (m_parse u) false).

Definition set_port (p : list Z) (u : Url) : res Url :=
  _ ← check (is_port p);
  u ← lazy_parse u;
  let o := if default_port (m_scheme u) p then [] else p in
  if bool_decide (m_port u = o) then Ok u
  else Ok (mkUrl (m_scheme u) (m_user u) (m_host u) o (m_path u) (m_query u) (m_fragment u) (m_ip_v u) (m_url u) (m_parse u) false).

Definition set_path (p : list Z) (u : Url) : res Url :=
  _ ← check (Z.of_nat (length p) <=? 8000);
  u ← lazy_parse u;
  let o := normalize_path p in
  if bool_decide (m_path u = o) then Ok u
  else Ok (mkUrl (m_scheme u) (m_user u) (m_host u) (m_port u) o (m_query u) (m_fragment u) (m_ip_v u) (m_url u) (m_parse u) false).

Definition set_fragment (f : list Z) (u : Url) : res Url :=
  _ ← check (length f <=? 256)%nat;
  u ← lazy_parse u;
  if bool_decide (m_fragment u = f) then Ok u
  else Ok (mkUrl (m_scheme u) (m_user u) (m_host u) (m_port u) (m_path u) (m_query u) f (m_ip_v u) (m_url u) (m_parse u) false).

Definition set_query (q : list (list Z * list Z)) (u : Url) : res Url :=
  u ← lazy_parse u;
  if bool_decide (q = m_query u) then Ok u
  else Ok (mkUrl (m_scheme u) (m_user u) (m_host u) (m_port u) (m_path u) q (m_fragment u) (m_ip_v u) (m_url u) (m_parse u) false).

Definition add_query (k v : list Z) (u : Url) : res Url :=
  u ← lazy_parse u;
  Ok (mkUrl (m_scheme u) (m_user u) (m_host u) (m_port u) (m_path u) (m_query u ++ [(k, v)]) (m_fragment u) (m_ip_v u) (m_url u) (m_parse u) false).

(** One entry of the query, read or given for writing. *)
Definition query_entry (i : nat) (u : Url) : res (list Z * list Z) :=
  u ← lazy_parse u; match m_query u !! i with Some kv => Ok kv | None => Throw (RuntimeError "Invalid Url query index") end.

Definition set_query_entry (i : nat) (kv : list Z * list Z) (u : Url) : res Url :=
  u ← lazy_parse u;
  _ ← query_entry i u;
  Ok (mkUrl (m_scheme u) (m_user u) (m_host u) (m_port u) (m_path u) (<[i := kv]> (m_query u)) (m_fragment u) (m_ip_v u) (m_url u) (m_parse u) false).

(** *** The object as text *)

Definition labelled (label : string) (s : list Z) : list Z := if nonempty_ s then lit label ++ s ++ [41] else [].
Definition show_entry (kv : list Z * list Z) : list Z := lit "<key(" ++ kv.1 ++ lit ") val(" ++ kv.2 ++ lit ")> ".

Definition output (u : Url) : res (list Z * Url) :=
  u ← lazy_parse u;
  u ← (if m_built u then Ok u else build_url u);
  let query := lit " query(" ++ mjoin (show_entry <$> m_query u) in
  Ok (lit "Url:{url(" ++ m_url u ++ [41] ++ labelled " scheme(" (m_scheme u) ++ labelled " user_info(" (m_user u)
      ++ (if m_ip_v u =? -1 then [] else lit " host(" ++ m_host u ++ lit ") IPv(" ++ to_string (m_ip_v u) ++ [41])
      ++ labelled " port(" (m_port u) ++ labelled " path(" (m_path u)
      ++ match m_query u with [] => [] | _ => take (length query - 1) query ++ [41] end
      ++ (if nonempty_ (m_fragment u) then lit "fragment(" ++ m_fragment u ++ lit ") " else []) ++ [125], u).

Example output_sample :
  fst <$> (match output (url_of (lit "http://h/p?k=v#f")) with Ok x => Some x | _ => None end)
  = Some (lit "Url:{url(http://h/p?k=v#f) scheme(http) host(h) IPv(0) path(/p) query(<key(k) val(v)>)fragment(f) }").
Proof. by vm_compute. Qed.
