(* ===== verification/UrlRoundtrip.v ===== *)
(** What [Url] builds it parses back: percent encoding, the cutting of the text at
    its delimiters, and the whole URL; with the parts that do not survive. *)

From Stdlib Require Import ZArith Lia.
From stdpp Require Import base strings numbers list.
From S2P Require Import Prelude CLib Text Url.
Open Scope Z_scope.

(** ** Cutting at delimiters *)

(** [s] holds none of the characters of [q]. *)
Definition avoids (q s : list Z) : Prop := Forall (fun c => c ∉ q) s.

(** [s] ends, or a character of [q] is next. *)
Definition stops (q s : list Z) : Prop := match s with [] => True | c :: _ => c ∈ q end.

Create HintDb url.

Lemma avoids_nil q : avoids q [].
Proof. constructor. Qed.

Lemma avoids_app q a b : avoids q a -> avoids q b -> avoids q (a ++ b).
Proof. intros. by apply Forall_app. Qed.

Lemma avoids_cons q c s : bool_decide (c ∈ q) = false -> avoids q s -> avoids q (c :: s).
Proof. intros H%bool_decide_eq_false ?. by constructor. Qed.

Lemma elem_of_by (c : Z) (q : list Z) : bool_decide (c ∈ q) = true -> c ∈ q.
Proof. apply bool_decide_eq_true_1. Qed.

Lemma find_first_of_app q a b : avoids q a -> stops q b -> find_first_of q (a ++ b) = (a, b).
Proof.
  intros Ha Hb. induction Ha as [|c a Hc Ha IH]; cbn [app find_first_of].
  - destruct b as [|c b]; [done|]. cbn. by rewrite bool_decide_true.
  - by rewrite bool_decide_false, IH.
Qed.

Lemma find_first_of_all q a : avoids q a -> find_first_of q a = (a, []).
Proof. intros. rewrite <-(app_nil_r a) at 1. by apply find_first_of_app. Qed.

(** ** Classes of characters *)

Lemma is_chars_app a b m : is_chars (a ++ b) m = is_chars a m && is_chars b m.
Proof. apply forallb_app. Qed.

Lemma forallb_avoids (P : Z -> bool) q s : forallb P s = true -> forallb (fun c => negb (P c)) q = true -> avoids q s.
Proof.
  rewrite !forallb_forall. intros Hs Hq. apply Forall_forall. intros c Hc Hin.
  apply list_elem_of_In in Hc, Hin. apply Hs in Hc. apply Hq in Hin. by rewrite Hc in Hin.
Qed.

Lemma chars_avoid m q s : is_chars s m = true -> forallb (fun c => negb (is_char m c)) q = true -> avoids q s.
Proof. apply forallb_avoids. Qed.

Lemma avoids_sub q q' s : avoids q s -> forallb (fun c => bool_decide (c ∈ q)) q' = true -> avoids q' s.
Proof.
  rewrite forallb_forall. intros Hs Hq. eapply Forall_impl; [exact Hs|]. cbn. intros c Hc Hin%list_elem_of_In.
  by apply Hc, (bool_decide_eq_true_1 _), Hq.
Qed.

(** What holds of every byte, by evaluation. *)
Definition all_bytes (P : Z -> bool) : bool := forallb (fun n => P (Z.of_nat n)) (seq 0 256).

Lemma all_bytes_spec P : all_bytes P = true -> forall c, is_byte c -> P c = true.
Proof.
  unfold all_bytes. rewrite forallb_forall. intros H c Hc. unfold is_byte in Hc.
  rewrite <-(Z2Nat.id c) by lia. apply H, in_seq. lia.
Qed.

Definition res_eqb (x : res (list Z)) (y : list Z) : bool := match x with Ok v => bool_decide (v = y) | _ => false end.

Lemma res_eqb_ok x y : res_eqb x y = true -> x = Ok y.
Proof. destruct x; try done. cbn. by intros ->%bool_decide_eq_true. Qed.

(** ** Percent encoding *)

Lemma decode_app_len n s x r : (length s <= n)%nat -> decode s = Ok x -> decode (s ++ r) = (y ← decode r; Ok (x ++ y)).
Proof.
  revert s x. induction n as [|n IH]; intros [|c s] x Hn; cbn in Hn; try lia.
  1,2: intros [= <-]; cbn [app]; by destruct (decode r).
  cbn [decode app]. destruct (c =? 37).
  - destruct s as [|a [|b s]]; try done. cbn [app]. cbn in Hn. destruct (_ || _); [done|]. intros H.
    apply res_bind_inv in H as (y & Hy & [= <-]). rewrite (IH s y) by (done || lia). by destruct (decode r).
  - intros H. apply res_bind_inv in H as (y & Hy & [= <-]). rewrite (IH s y) by (done || lia). by destruct (decode r).
Qed.

Lemma decode_app s x r : decode s = Ok x -> decode (s ++ r) = (y ← decode r; Ok (x ++ y)).
Proof. by apply decode_app_len with (n := length s). Qed.

Lemma decode_plus_app_len n s x r : (length s <= n)%nat -> decode_plus s = Ok x -> decode_plus (s ++ r) = (y ← decode_plus r; Ok (x ++ y)).
Proof.
  revert s x. induction n as [|n IH]; intros [|c s] x Hn; cbn in Hn; try lia.
  1,2: intros [= <-]; cbn [app]; by destruct (decode_plus r).
  cbn [decode_plus app]. destruct (c =? 43); [|destruct (c =? 37)].
  2: { destruct s as [|a [|b s]]; try done. cbn [app]. cbn in Hn. destruct (_ || _); [done|]. intros H.
       apply res_bind_inv in H as (y & Hy & [= <-]). rewrite (IH s y) by (done || lia). by destruct (decode_plus r). }
  all: intros H; apply res_bind_inv in H as (y & Hy & [= <-]); rewrite (IH s y) by (done || lia); by destruct (decode_plus r).
Qed.

Lemma decode_plus_app s x r : decode_plus s = Ok x -> decode_plus (s ++ r) = (y ← decode_plus r; Ok (x ++ y)).
Proof. by apply decode_plus_app_len with (n := length s). Qed.

Lemma mjoin_fmap_cons (E : Z -> list Z) c s : mjoin (E <$> (c :: s)) = E c ++ mjoin (E <$> s).
Proof. done. Qed.

(** The encoding of each byte decodes to it; [D] is one of the two decoders. *)
Lemma decode_mjoin (D : list Z -> res (list Z)) (E : Z -> list Z) :
  D [] = Ok [] -> (forall s x r, D s = Ok x -> D (s ++ r) = (y ← D r; Ok (x ++ y))) -> all_bytes (fun c => res_eqb (D (E c)) [c]) = true ->
  forall s, Forall is_byte s -> D (mjoin (E <$> s)) = Ok s.
Proof.
  intros Hnil Happ HE s Hs. induction Hs as [|c s Hc Hs IH]; [done|]. rewrite mjoin_fmap_cons.
  rewrite (Happ (E c) [c]) by (apply res_eqb_ok; by apply (all_bytes_spec _ HE c)). by rewrite IH.
Qed.

Lemma chars_mjoin m (E : Z -> list Z) s :
  all_bytes (fun c => is_chars (E c) m) = true -> Forall is_byte s -> is_chars (mjoin (E <$> s)) m = true.
Proof.
  intros HE Hs. induction Hs as [|c s Hc Hs IH]; [done|]. rewrite mjoin_fmap_cons, is_chars_app, IH, andb_true_r. by apply (all_bytes_spec _ HE).
Qed.

Lemma avoids_mjoin q (E : Z -> list Z) s :
  all_bytes (fun c => forallb (fun x => bool_decide (x ∉ q)) (E c)) = true -> Forall is_byte s -> avoids q (mjoin (E <$> s)).
Proof.
  intros HE Hs. induction Hs as [|c s Hc Hs IH]; [constructor|]. rewrite mjoin_fmap_cons.
  apply avoids_app; [|exact IH]. pose proof (all_bytes_spec _ HE c Hc) as H. rewrite forallb_forall in H.
  apply Forall_forall. intros x Hx%list_elem_of_In. by apply H, bool_decide_eq_true in Hx.
Qed.

(** Each of the listed values, by evaluation. *)
Ltac each_by_evaluation H :=
  repeat match type of H with _ ∈ _ :: _ => apply elem_of_cons in H as [-> | H]; [by vm_compute|] end; by apply not_elem_of_nil in H.

(** The masks of the four uses of [encode] and [encode_query_key]. *)
Lemma decode_encode m s : m ∈ [0x05; 0x0F; 0x1F] -> Forall is_byte s -> decode (encode s m) = Ok s.
Proof.
  intros Hm Hs. unfold encode. apply (decode_mjoin decode (encode_char m)); [done|apply decode_app| |done].
  each_by_evaluation Hm.
Qed.

Lemma encode_chars m s : m ∈ [0x05; 0x0F; 0x1F] -> Forall is_byte s -> is_chars (encode s m) (Z.lor m 0x20) = true.
Proof.
  intros Hm Hs. apply chars_mjoin; [|done].
  each_by_evaluation Hm.
Qed.

Lemma decode_query k s : Forall is_byte s -> decode_plus (mjoin (query_char k 0x1F <$> s)) = Ok s.
Proof. intros. apply (decode_mjoin decode_plus); [done|apply decode_plus_app|by destruct k; vm_compute|done]. Qed.

Lemma query_chars k s : Forall is_byte s -> is_chars (mjoin (query_char k 0x1F <$> s)) 0x3F = true.
Proof. intros. apply chars_mjoin; [by destruct k; vm_compute|done]. Qed.

(** ** The query *)

Definition entry_ok (kv : list Z * list Z) : Prop := kv.1 <> [] /\ Forall is_byte kv.1 /\ Forall is_byte kv.2.

Lemma join_length c l : (length l <= S (length (join [c] l)))%nat.
Proof.
  induction l as [|x [|y l] IH]; [cbn; lia|cbn; lia|].
  change (join [c] (x :: y :: l)) with (x ++ [c] ++ join [c] (y :: l)). rewrite !length_app. cbn [length] in *. lia.
Qed.

(** One entry, and what follows it. *)
Lemma parse_query_entry f kv rest :
  entry_ok kv -> stops [38] rest ->
  parse_query (S f) (build_entry kv ++ rest) = match rest with [] => Ok [kv] | _ :: b => r ← parse_query f b; Ok (kv :: r) end.
Proof.
  destruct kv as [k v]. intros (Hk & Hkb & Hvb) Hr. cbn [fst snd] in *. unfold build_entry, encode_query_key, encode_query_val. cbn [fst snd].
  rewrite <-app_assoc.
  assert (avoids (lit "=;&") (mjoin (query_char true 0x1F <$> k))) as Ak by (apply avoids_mjoin; [by vm_compute|done]).
  assert (avoids (lit ";&") (mjoin (query_char false 0x1F <$> v))) as Av by (apply avoids_mjoin; [by vm_compute|done]).
  pose proof (query_chars true k Hkb) as Ck. pose proof (query_chars false v Hvb) as Cv.
  pose proof (decode_query true k Hkb) as Dk. pose proof (decode_query false v Hvb) as Dv.
  set (K := mjoin (query_char true 0x1F <$> k)) in *. set (V := mjoin (query_char false 0x1F <$> v)) in *.
  assert (forall q, 38 ∈ q -> stops q rest) as Hs by (intros q Hq; destruct rest; [done|]; by apply list_elem_of_singleton in Hr as ->).
  assert (38 ∈ lit "=;&" /\ 38 ∈ lit ";&" /\ 61 ∈ lit "=;&") as (H1 & H2 & H3) by (by split_and!; apply elem_of_by; vm_compute).
  cbn [parse_query]. destruct v as [|c v]; cbn [nonempty_].
  - cbn [app]. rewrite (find_first_of_app _ K rest) by auto. rewrite Ck. cbn [check]. rewrite res_bind_ok, Dk, res_bind_ok.
    destruct rest as [|x b]; [done|]. cbn in Hr. by apply list_elem_of_singleton in Hr as ->.
  - change ((61 :: V) ++ rest) with (61 :: (V ++ rest)). rewrite (find_first_of_app _ K) by done. rewrite Ck. cbn [check].
    rewrite res_bind_ok, Dk, res_bind_ok. cbn [Z.eqb Pos.eqb]. rewrite (find_first_of_app _ V rest) by auto. rewrite Cv. cbn [check].
    rewrite res_bind_ok, Dv, res_bind_ok. by destruct rest.
Qed.

Lemma parse_query_join q f :
  q <> [] -> Forall entry_ok q -> (length q <= f)%nat -> parse_query f (join [38] (build_entry <$> q)) = Ok q.
Proof.
  intros Hne Hq. revert f. induction Hq as [|kv q Hkv Hq IH]; intros f Hf; [done|].
  destruct f as [|f]; cbn [length] in Hf; [lia|]. destruct q as [|kv' q].
  - change (join [38] (build_entry <$> [kv])) with (build_entry kv). rewrite <-(app_nil_r (build_entry kv)). by apply parse_query_entry.
  - change (join [38] (build_entry <$> kv :: kv' :: q)) with (build_entry kv ++ 38 :: join [38] (build_entry <$> kv' :: q)).
    rewrite parse_query_entry by (done || by apply list_elem_of_singleton). rewrite IH by (done || lia). done.
Qed.

Lemma build_entry_ne kv : entry_ok kv -> build_entry kv <> [].
Proof.
  intros (Hk & Hb & _) H. pose proof (decode_query true _ Hb) as D. unfold build_entry, encode_query_key in H.
  apply app_eq_nil in H as [H _]. rewrite H in D. injection D as D. by apply Hk.
Qed.

(** The query of [build_text]: it avoids '#', and parses back to the entries. *)
Lemma query_text q :
  Forall entry_ok q -> exists t, build_query q = Ok t /\ avoids [35] t /\ stops (lit "?#") t /\
    (match t with
     | 63 :: c :: b => parse_query (S (length (c :: b))) (c :: b) = Ok q
     | [] => q = []
     | _ => False
     end).
Proof.
  intros Hq. destruct q as [|kv q]; [exists []; split_and!; done || constructor|]. unfold build_query.
  assert (forallb (fun kv => nonempty_ kv.1) (kv :: q) = true) as ->.
  { apply forallb_forall. intros [k v] Hin%list_elem_of_In. rewrite Forall_forall in Hq. apply Hq in Hin as (Hk & _). by destruct k. }
  eexists. split; [done|]. split_and!.
  - apply avoids_cons; [by vm_compute|]. clear -Hq. induction Hq as [|x l Hx Hl IH]; [constructor|].
    assert (avoids [35] (build_entry x)) as He.
    { destruct x as [k v], Hx as (? & ? & ?). unfold build_entry. apply avoids_app; [apply avoids_mjoin; [by vm_compute|done]|].
      cbn [snd]. destruct (nonempty_ v); [|constructor]. apply avoids_cons; [by vm_compute|]. apply avoids_mjoin; [by vm_compute|done]. }
    destruct l as [|y l]; [done|]. change (join [38] (build_entry <$> x :: y :: l)) with (build_entry x ++ 38 :: join [38] (build_entry <$> y :: l)).
    apply avoids_app; [done|]. by apply avoids_cons; [vm_compute|].
  - apply elem_of_by. by vm_compute.
  - destruct (join [38] (build_entry <$> kv :: q)) as [|c b] eqn:E.
    + assert (join [38] (build_entry <$> kv :: q) <> []) as []; [|done].
      destruct q as [|kv' q]; inversion_clear Hq as [|? ? H H']; apply build_entry_ne in H; [done|].
      change (build_entry kv ++ [38] ++ join [38] (build_entry <$> kv' :: q) <> []). by destruct (build_entry kv).
    + rewrite <-E. apply parse_query_join; [done|done|]. etrans; [|apply (join_length 38 (build_entry <$> kv :: q))]. by rewrite length_fmap.
Qed.

(** ** The authority *)

(** Hosts as [parse_url] leaves them: a name in lower case, an IPv4 address, or an
    IPv6 address in its normal form. *)
Definition host_ok (v : Z) (h : list Z) : bool :=
  nonempty_ h
  && (((v =? 0) && negb (is_ipv4 h) && is_reg_name h && bool_decide (to_lower h = h))
      || ((v =? 4) && is_ipv4 h)
      || ((v =? 6) && is_ipv6 h && res_eqb (normalize_IPv6 h) h)).

Definition port_ok (scheme p : list Z) : bool := negb (nonempty_ p) || (is_port p && negb (default_port scheme p)).

(** The host as it is written. *)
Definition host_text (v : Z) (h : list Z) : list Z := if v =? 6 then [91] ++ h ++ [93] else h.

Lemma ipv4_avoids q h : is_ipv4 h = true -> forallb (fun c => negb ((c =? 46) || is_num c)) q = true -> avoids q h.
Proof. unfold is_ipv4. intros [_ H]%andb_true_iff. by apply forallb_avoids. Qed.

Lemma ipv6_avoids q h : is_ipv6 h = true -> forallb (fun c => negb ((c =? 58) || (c =? 46) || is_hexdigit c)) q = true -> avoids q h.
Proof. unfold is_ipv6. intros [_ H]%andb_true_iff. by apply forallb_avoids. Qed.

(** What the two classes of hosts without brackets share. *)
Lemma plain_host_avoids v h : host_ok v h = true -> v <> 6 -> avoids (lit ":@/?#%[") h.
Proof.
  unfold host_ok. rewrite !andb_true_iff, !orb_true_iff, !andb_true_iff. intros [_ [[[[_ H] _]|[_ H]]|[[H _] _]]] Hv.
  - eapply chars_avoid; [apply H|by vm_compute].
  - eapply ipv4_avoids; [done|by vm_compute].
  - lia.
Qed.

Lemma host_text_avoids v h : host_ok v h = true -> avoids (lit "@/?#") (host_text v h).
Proof.
  intros H. unfold host_text. destruct (Z.eqb_spec v 6) as [-> |Hv].
  - unfold host_ok in H. cbn in H. rewrite !andb_true_iff in H. destruct H as [_ [H _]].
    apply avoids_cons; [by vm_compute|]. apply avoids_app; [eapply ipv6_avoids; [done|by vm_compute]|].
    apply avoids_cons; [by vm_compute|constructor].
  - eapply avoids_sub; [by eapply plain_host_avoids|by vm_compute].
Qed.

Lemma uint_loop_digits v s : exists ds, forallb is_num ds = true /\ s = ds ++ (uint_loop v s).2.
Proof.
  revert v. induction s as [|c s IH]; intros v; [by exists []|]. cbn [uint_loop]. destruct (is_num c) eqn:E; [|by exists []].
  destruct (IH (wrapu 32 (v * 10 + (c - 48)))) as (ds & Hd & Hs). exists (c :: ds). cbn. rewrite E, Hd. split; [done|]. by f_equal.
Qed.

Lemma is_port_digits p : is_port p = true -> forallb is_num p = true.
Proof.
  unfold is_port, is_uint. destruct p as [|c p]; [done|]. destruct (is_num c) eqn:E; [|done].
  destruct (c =? 48) eqn:E0; [by destruct p; cbn; rewrite E|].
  destruct (uint_loop_digits (c - 48) p) as (ds & Hd & Hp). destruct (uint_loop (c - 48) p) as [v t]. cbn in Hp.
  destruct (65535 <? v); [done|]. destruct t; [|done]. intros _. rewrite app_nil_r in Hp. subst. cbn. by rewrite E.
Qed.

Definition user_text (u : list Z) : list Z := if nonempty_ u then encode u 0x05 ++ [64] else [].
Definition port_text (p : list Z) : list Z := if nonempty_ p then 58 :: p else [].

(** What is written before [o] is dropped where [o] is empty. *)
Definition some_ne (o s : list Z) : option (list Z) := if nonempty_ o then Some s else None.

Lemma port_text_avoids sch p : port_ok sch p = true -> avoids (lit "@/?#") (port_text p).
Proof.
  unfold port_ok, port_text. destruct (nonempty_ p); cbn; [|constructor]. intros [H _]%andb_true_iff.
  apply avoids_cons; [by vm_compute|]. eapply forallb_avoids; [by apply is_port_digits|by vm_compute].
Qed.

Lemma user_text_avoids u : Forall is_byte u -> avoids (lit "/?#") (user_text u).
Proof.
  intros H. unfold user_text. destruct (nonempty_ u); [|constructor].
  apply avoids_app; [eapply chars_avoid; [by apply encode_chars; [apply elem_of_by|]|by vm_compute]|].
  apply avoids_cons; [by vm_compute|constructor].
Qed.

Lemma parse_host_text v h p : host_ok v h = true -> parse_host (host_text v h ++ port_text p) = Ok (v, h, port_text p).
Proof.
  intros H. unfold host_text. destruct (Z.eqb_spec v 6) as [-> |Hv].
  - unfold host_ok in H. cbn in H. rewrite !andb_true_iff in H. destruct H as [Hne [H _]]. rewrite <-!app_assoc. cbn [parse_host app].
    unfold find_char. rewrite find_first_of_app; [|eapply ipv6_avoids; [done|by vm_compute]|by apply elem_of_by].
    unfold ip_literal. rewrite H. destruct h as [|c h]; [done|]. destruct (Z.eq_dec c 118) as [-> |Hc].
    { unfold is_ipv6 in H. apply andb_true_iff in H as [_ H]. done. }
    repeat match goal with |- context [match ?x with _ => _ end] => is_var x; destruct x; try done end.
  - pose proof (plain_host_avoids _ _ H Hv) as A. assert (parse_host (h ++ port_text p) =
      let '(h', b2) := find_char 58 (h ++ port_text p) in
      if is_ipv4 h' then Ok (4, h', b2) else if is_reg_name h' then Ok (0, h', b2) else Throw parse_error) as ->.
    { unfold host_ok in H. destruct h as [|c h]; [done|]. cbn [app]. unfold parse_host. inversion A as [|? ? Hc]; subst.
      assert (c <> 91) as Hc' by (intros ->; apply Hc, elem_of_by; by vm_compute).
      repeat match goal with |- context [match ?x with _ => _ end] => is_var x; destruct x; try done end. }
    unfold find_char. rewrite find_first_of_app;
      [|eapply avoids_sub; [done|by vm_compute]|unfold port_text; destruct (nonempty_ p); [by apply elem_of_by|done]].
    unfold host_ok in H. rewrite !andb_true_iff, !orb_true_iff, !andb_true_iff, negb_true_iff in H.
    destruct H as [_ [[[[[H0 ->] ->] _]|[H0 ->]]|[[H0 _] _]]]; apply Z.eqb_eq in H0 as ->; done.
Qed.

Definition auth_text (user : list Z) (v : Z) (h p : list Z) : list Z := user_text user ++ host_text v h ++ port_text p.

Lemma auth_text_avoids sch user v h p :
  Forall is_byte user -> host_ok v h = true -> port_ok sch p = true -> avoids (lit "/?#") (auth_text user v h p).
Proof.
  intros. unfold auth_text. repeat apply avoids_app; [by apply user_text_avoids| |].
  - eapply avoids_sub; [by apply host_text_avoids|by vm_compute].
  - eapply avoids_sub; [by eapply port_text_avoids|by vm_compute].
Qed.

Lemma parse_auth_text sch user v h p :
  Forall is_byte user -> host_ok v h = true -> port_ok sch p = true ->
  parse_authority (auth_text user v h p) = Ok (some_ne user (encode user 0x05), v, h, some_ne p p).
Proof.
  intros Hu Hh Hp. unfold parse_authority, auth_text, user_text, find_char.
  assert (avoids [64] (host_text v h ++ port_text p)) as A.
  { apply avoids_app; [eapply avoids_sub; [by apply host_text_avoids|by vm_compute]|].
    eapply avoids_sub; [by eapply port_text_avoids|by vm_compute]. }
  assert (forall us : option (list Z), ('(ip_v, host, b') ← parse_host (host_text v h ++ port_text p);
            match b' with 58 :: q => _ ← check (is_port q); Ok (us, ip_v, host, Some q) | _ => Ok (us, ip_v, host, None) end)
          = Ok (us, v, h, some_ne p p)) as Hend.
  { intros us. rewrite parse_host_text, res_bind_ok by done. unfold port_text, some_ne, port_ok in *. destruct (nonempty_ p); [|done].
    cbn in Hp. apply andb_true_iff in Hp as [-> _]. done. }
  pose proof (encode_chars 0x05 user ltac:(by apply elem_of_by) Hu) as C. unfold some_ne at 1. destruct (nonempty_ user).
  - rewrite <-app_assoc. rewrite find_first_of_app; [|eapply chars_avoid; [done|by vm_compute]|by apply elem_of_by].
    cbn [app]. change 0x25 with (Z.lor 0x05 0x20). rewrite C. cbn [check]. rewrite !res_bind_ok. apply Hend.
  - rewrite find_first_of_all by done. rewrite res_bind_ok. apply Hend.
Qed.

(** ** The whole URL *)

Definition scheme_ok (s : list Z) : bool := negb (nonempty_ s) || (is_scheme s && bool_decide (to_lower s = s)).

Definition path_ok (p : list Z) : bool := (negb (nonempty_ p) || starts 47 p) && bool_decide (normalize_path p = p).

(** The parts [parse_url] can leave, with a host. *)
Definition canonical (u : Url) : Prop :=
  scheme_ok (m_scheme u) = true /\ host_ok (m_ip_v u) (m_host u) = true /\ port_ok (m_scheme u) (m_port u) = true /\ path_ok (m_path u) = true
  /\ Forall is_byte (m_user u) /\ Forall is_byte (m_path u) /\ Forall is_byte (m_fragment u) /\ Forall entry_ok (m_query u).

Lemma scheme_avoids s : is_scheme s = true -> avoids (lit ":/?#") s.
Proof.
  destruct s as [|c s]; [done|]. cbn [is_scheme]. intros [Hc Hs]%andb_true_iff.
  eapply (forallb_avoids (fun x => is_alnum x || (x =? 43) || (x =? 45) || (x =? 46))); [|by vm_compute].
  cbn [forallb]. rewrite Hs. unfold is_alnum. by rewrite Hc.
Qed.

Definition scheme_text (s : list Z) : list Z := if nonempty_ s then s ++ [58] else [].
Definition fragment_text (f : list Z) : list Z := if nonempty_ f then 35 :: encode f 0x1F else [].

(** What [build_text] writes, in its five parts. *)
Lemma build_text_parts u :
  canonical u -> exists q, build_query (m_query u) = Ok q /\
    build_text u = Ok (scheme_text (m_scheme u) ++ lit "//" ++ auth_text (m_user u) (m_ip_v u) (m_host u) (m_port u)
                       ++ encode (m_path u) 0x0F ++ q ++ fragment_text (m_fragment u)).
Proof.
  intros (_ & Hh & Hp & Hpa & _ & _ & _ & Hq). destruct (query_text _ Hq) as (q & Eq & _). exists q. split; [done|].
  unfold build_text. assert (nonempty_ (m_host u) = true) as ->.
  { unfold host_ok in Hh. by apply andb_true_iff in Hh as [? _]. }
  rewrite res_bind_ok. assert (nonempty_ (m_path u) && negb (starts 47 (m_path u)) = false) as ->.
  { unfold path_ok in Hpa. apply andb_true_iff in Hpa as [Hpa _]. by destruct (nonempty_ (m_path u)), (starts 47 (m_path u)). }
  cbn [andb]. rewrite res_bind_ok, Eq, res_bind_ok.
  enough (build_authority u = lit "//" ++ auth_text (m_user u) (m_ip_v u) (m_host u) (m_port u)) as -> by (by rewrite <-!app_assoc).
  unfold build_authority, auth_text, user_text. do 3 f_equal.
  - unfold host_text, host_ok in *. destruct (Z.eqb_spec (m_ip_v u) 6) as [-> |H6]; [done|].
    destruct (Z.eqb_spec (m_ip_v u) 0), (Z.eqb_spec (m_ip_v u) 4); try done. cbn in Hh. by rewrite andb_false_r in Hh.
  - unfold port_text, port_ok in *. destruct (nonempty_ (m_port u)); [|done]. cbn in *. by apply andb_true_iff in Hp as [_ ->].
Qed.

Lemma starts_eq c s : starts c s = true -> exists s', s = c :: s'.
Proof. destruct s as [|x s]; [done|]. cbn. intros ->%Z.eqb_eq. by exists s. Qed.

Lemma split_scheme_text sch b :
  scheme_ok sch = true -> split_scheme (scheme_text sch ++ 47 :: b) = Ok (some_ne sch sch, 47 :: b, 47 :: b).
Proof.
  unfold scheme_ok, scheme_text, some_ne, split_scheme. destruct (nonempty_ sch); cbn [negb orb]; intros H.
  - apply andb_true_iff in H as [H _]. rewrite <-app_assoc. cbn [app].
    rewrite find_first_of_app by (by apply scheme_avoids || by apply elem_of_by). rewrite H. done.
  - cbn [app]. change (47 :: b) with ([] ++ 47 :: b) at 1. rewrite find_first_of_app by (apply avoids_nil || by apply elem_of_by). done.
Qed.

Lemma split_authority_text sch user v h p rest :
  Forall is_byte user -> host_ok v h = true -> port_ok sch p = true -> stops (lit "/?#") rest ->
  let b := lit "//" ++ auth_text user v h p ++ rest in
  split_authority b b = Ok (Some (some_ne user (encode user 0x05), v, h, some_ne p p), rest).
Proof.
  intros Hu Hh Hp Hr. change (split_authority (47 :: 47 :: auth_text user v h p ++ rest) (47 :: 47 :: auth_text user v h p ++ rest)
    = Ok (Some (some_ne user (encode user 0x05), v, h, some_ne p p), rest)).
  unfold split_authority. rewrite find_first_of_app by (done || by eapply auth_text_avoids).
  by erewrite parse_auth_text by done.
Qed.

Lemma stops_app q a b : stops q a -> stops q b -> stops q (a ++ b).
Proof. by destruct a. Qed.

Lemma stops_sub q q' s : stops q s -> forallb (fun c => bool_decide (c ∈ q')) q = true -> stops q' s.
Proof.
  destruct s as [|c s]; [done|]. cbn. rewrite forallb_forall. intros H%list_elem_of_In Hq. by apply (bool_decide_eq_true_1 _), Hq.
Qed.

Lemma fragment_text_stops f : stops [35] (fragment_text f).
Proof. unfold fragment_text. destruct (nonempty_ f); [by apply elem_of_by|done]. Qed.

Lemma path_text_stops p : path_ok p = true -> stops [47] (encode p 0x0F).
Proof.
  unfold path_ok. intros [H _]%andb_true_iff. destruct p as [|c p]; [done|]. cbn in H. apply Z.eqb_eq in H as ->. by apply elem_of_by.
Qed.

(** Path, query and fragment. *)
Lemma split_path_text p q qt f :
  Forall is_byte p -> Forall is_byte f -> Forall entry_ok q -> build_query q = Ok qt ->
  exists query, split_path (encode p 0x0F ++ qt ++ fragment_text f) = Ok (encode p 0x0F, query, some_ne f (encode f 0x1F))
    /\ query_entries query = Ok q.
Proof.
  intros Hp Hf Hq Eq. destruct (query_text _ Hq) as (qt' & Eq' & Aq & Sq & Hqt). rewrite Eq in Eq'. injection Eq' as <-.
  assert (is_chars (encode p 0x0F) 0x2F = true) as Cp by (by apply (encode_chars 0x0F); [apply elem_of_by|]).
  assert (is_chars (encode f 0x1F) 0x3F = true) as Cf by (by apply (encode_chars 0x1F); [apply elem_of_by|]).
  assert (forall query : option (list Z), match fragment_text f with
                 | 35 :: f => _ ← check (is_chars f 0x3F); Ok (encode p 0x0F, query, Some f)
                 | _ => Ok (encode p 0x0F, query, None)
                 end = Ok (encode p 0x0F, query, some_ne f (encode f 0x1F))) as Hfr.
  { intros query. unfold fragment_text, some_ne. destruct (nonempty_ f); [|done]. by rewrite Cf. }
  unfold split_path. rewrite find_first_of_app;
    [|eapply chars_avoid; [done|by vm_compute]|apply stops_app; [done|eapply stops_sub; [apply fragment_text_stops|by vm_compute]]].
  rewrite Cp. cbn [check]. rewrite res_bind_ok. destruct qt as [|c qt].
  - subst q. cbn [app]. exists None. split; [|done]. unfold fragment_text, some_ne in *. destruct (nonempty_ f); [|done]. by rewrite Cf.
  - destruct (Z.eq_dec c 63) as [-> |Hc]; [|exfalso; by repeat match goal with H : match ?x with _ => _ end |- _ => destruct x end].
    destruct qt as [|c qt]; [done|]. exists (Some (c :: qt)). split; [|exact Hqt]. cbn [app]. unfold find_char.
    change (c :: qt ++ fragment_text f) with ((c :: qt) ++ fragment_text f).
    rewrite find_first_of_app by (apply fragment_text_stops || by inversion Aq). apply Hfr.
Qed.

Lemma decode_plain s : avoids [37] s -> decode s = Ok s.
Proof.
  induction 1 as [|c s Hc Hs IH]; [done|]. cbn [decode]. destruct (Z.eqb_spec c 37) as [-> |_]; [by destruct Hc; apply elem_of_by|]. by rewrite IH.
Qed.

Lemma decode_host_ok v h : host_ok v h = true -> decode_host v h = Ok h.
Proof.
  intros H. unfold decode_host. assert (decode h = Ok h) as ->.
  { apply decode_plain. destruct (Z.eq_dec v 6) as [-> |Hv].
    - unfold host_ok in H. cbn in H. rewrite !andb_true_iff in H. eapply ipv6_avoids; [apply H|by vm_compute].
    - eapply avoids_sub; [by eapply plain_host_avoids|by vm_compute]. }
  rewrite res_bind_ok. unfold host_ok in H. rewrite !andb_true_iff, !orb_true_iff, !andb_true_iff in H.
  destruct H as [_ [[[[[H0 _] _] H]|[H0 _]]|[[H0 _] H]]]; apply Z.eqb_eq in H0 as ->; cbn.
  - apply bool_decide_eq_true in H. unfold normalize_reg_name. by rewrite H.
  - done.
  - by apply res_eqb_ok.
Qed.

Lemma default_some_ne s t : (nonempty_ s = false -> t = []) -> default [] (some_ne s t) = t.
Proof. unfold some_ne. destruct (nonempty_ s); [done|]. intros H. by rewrite H. Qed.

Lemma nonempty_false s : nonempty_ s = false -> s = [].
Proof. by destruct s. Qed.

(** C18: what is built is parsed back.  For parts in the form [parse_url] leaves
    them in (scheme and name in lower case, or an IPv4 or normal IPv6 address; a
    valid port that is not the scheme's default; a normal absolute path; query
    keys that are not empty), with any bytes in user, path, query and fragment,
    [build_url] writes a text, and a [Url] made from that text, of 8000 characters
    at most, has the same parts. *)
Theorem url_roundtrip u :
  canonical u ->
  exists t, build_text u = Ok t /\
    (Z.of_nat (length t) <= 8000 ->
     parse_url (url_of t)
     = Ok (mkUrl (m_scheme u) (m_user u) (m_host u) (m_port u) (m_path u) (m_query u) (m_fragment u) (m_ip_v u) t true false)).
Proof.
  intros Hc. destruct (build_text_parts u Hc) as (q & Eq & Et). destruct Hc as (Hs & Hh & Hp & Hpa & Hu & Hpb & Hf & Hq).
  destruct (split_path_text _ _ _ (m_fragment u) Hpb Hf Hq Eq) as (query & Esp & Eqe). eexists. split; [exact Et|].
  destruct (query_text _ Hq) as (q' & Eq' & _ & Sq & _). rewrite Eq in Eq'. injection Eq' as <-.
  set (rest := encode (m_path u) 0x0F ++ q ++ fragment_text (m_fragment u)) in *.
  assert (stops (lit "/?#") rest) as Sr.
  { unfold rest. repeat apply stops_app.
    - eapply stops_sub; [by apply path_text_stops|by vm_compute].
    - eapply stops_sub; [exact Sq|by vm_compute].
    - eapply stops_sub; [apply fragment_text_stops|by vm_compute]. }
  set (b := lit "//" ++ auth_text (m_user u) (m_ip_v u) (m_host u) (m_port u) ++ rest).
  intros Hlen. unfold parse_url, url_of. cbn [m_url].
  destruct (scheme_text (m_scheme u) ++ b) as [|c t] eqn:E; [by apply app_eq_nil in E as [_ ?]|]. rewrite <-E in Hlen |- *. clear c t E.
  rewrite (proj2 (Z.leb_le _ _) Hlen). cbn [check]. rewrite res_bind_ok.
  assert (split_scheme (scheme_text (m_scheme u) ++ b) = Ok (some_ne (m_scheme u) (m_scheme u), b, b)) as ->
    by (by apply (split_scheme_text _ (drop 1 b))).
  pose proof (split_authority_text (m_scheme u) _ _ _ _ rest Hu Hh Hp Sr) as Ea. cbv zeta in Ea. fold b in Ea.
  rewrite res_bind_ok, Ea, res_bind_ok, Esp, res_bind_ok.
  rewrite decode_host_ok by done. rewrite !default_some_ne by (intros ->%nonempty_false; done).
  rewrite !decode_encode by (done || by apply elem_of_by). rewrite !res_bind_ok, Eqe, !res_bind_ok. unfold with_parts. cbn [m_url].
  do 2 f_equal.
  - unfold scheme_ok in Hs. destruct (nonempty_ (m_scheme u)) eqn:E; [|by rewrite (nonempty_false _ E)].
    by apply andb_true_iff in Hs as [_ Hs%bool_decide_eq_true].
  - unfold path_ok in Hpa. by apply andb_true_iff in Hpa as [_ Hpa%bool_decide_eq_true].
Qed.

(** A URL with every part, on an IPv6 host. *)
Definition sample : Url :=
  mkUrl (lit "http") (lit "me:p w") (lit "2001:db8::1") (lit "8080") (lit "/a b/c%") [(lit "k&y", lit "v=1+2"); (lit "z", [])] (lit "f#g") 6 [] true false.

Lemma url_roundtrip_witness :
  canonical sample /\
  let t := lit "http://me:p%20w@[2001:db8::1]:8080/a%20b/c%25?k%26y=v=1%2B2&z#f%23g" in
  build_text sample = Ok t /\
  parse_url (url_of t) = Ok (mkUrl (m_scheme sample) (m_user sample) (m_host sample) (m_port sample) (m_path sample) (m_query sample) (m_fragment sample) 6 t true false).
Proof.
  assert (canonical sample) as Hc.
  { unfold canonical, entry_ok. split_and!; try by vm_compute.
    all: repeat (apply Forall_cons; split); try apply Forall_nil; try done; split_and!; try done; by apply lit_bytes. }
  split; [exact Hc|]. destruct (url_roundtrip sample Hc) as (t & Et & Hp). assert (t = lit "http://me:p%20w@[2001:db8::1]:8080/a%20b/c%25?k%26y=v=1%2B2&z#f%23g") as ->.
  { assert (build_text sample = Ok (lit "http://me:p%20w@[2001:db8::1]:8080/a%20b/c%25?k%26y=v=1%2B2&z#f%23g")) as E by (by vm_compute).
    rewrite E in Et. by injection Et as <-. }
  split; [exact Et|]. apply Hp. by vm_compute.
Defined.

(** ** Every text is parsed or refused *)

(** A value or [parse_error]. *)
Definition parsed {A} (r : res A) : Prop := match r with Ok _ => True | Throw e => e = parse_error end.

Lemma parsed_bind {A B} (m : res A) (f : A -> res B) : parsed m -> (forall a, parsed (f a)) -> parsed (m ≫= f).
Proof. destruct m as [a|e]; [intros _ H; apply (H a)|done]. Qed.

Lemma parsed_check b : parsed (check b).
Proof. by destruct b. Qed.

Lemma decode_parsed s : parsed (decode s).
Proof.
  remember (length s) as n eqn:E. assert (length s <= n)%nat as H by lia. clear E. revert s H.
  induction n as [|n IH]; intros [|c s] H; cbn in H; try done; try lia. cbn [decode].
  destruct (c =? 37); [|by apply parsed_bind; [apply IH; lia|]]. destruct s as [|a [|b s]]; try done. cbn in H.
  destruct (_ || _); [done|]. apply parsed_bind; [apply IH; lia|done].
Qed.

Lemma decode_plus_parsed s : parsed (decode_plus s).
Proof.
  remember (length s) as n eqn:E. assert (length s <= n)%nat as H by lia. clear E. revert s H.
  induction n as [|n IH]; intros [|c s] H; cbn in H; try done; try lia. cbn [decode_plus].
  destruct (c =? 43); [by apply parsed_bind; [apply IH; lia|]|].
  destruct (c =? 37); [|by apply parsed_bind; [apply IH; lia|]]. destruct s as [|a [|b s]]; try done. cbn in H.
  destruct (_ || _); [done|]. apply parsed_bind; [apply IH; lia|done].
Qed.

Lemma find_first_of_length q s : length s = (length (find_first_of q s).1 + length (find_first_of q s).2)%nat.
Proof.
  induction s as [|c s IH]; [done|]. cbn [find_first_of]. case_bool_decide; [done|].
  destruct (find_first_of q s). cbn in *. lia.
Qed.

(** Each entry takes a character of the text, so the fuel is enough. *)
Lemma parse_query_parsed f b : (length b < f)%nat -> parsed (parse_query f b).
Proof.
  revert b. induction f as [|f IH]; intros b Hf; [lia|]. cbn [parse_query].
  pose proof (find_first_of_length (lit "=;&") b) as H. destruct (find_first_of _ b) as [k p]. cbn in H.
  apply parsed_bind; [apply parsed_check|]. intros _. apply parsed_bind; [apply decode_plus_parsed|]. intros key.
  destruct p as [|c b1]; [done|]. cbn in H. destruct (c =? 61); [|apply parsed_bind; [apply IH; lia|done]].
  pose proof (find_first_of_length (lit ";&") b1) as H1. destruct (find_first_of (lit ";&") b1) as [v p']. cbn in H1.
  apply parsed_bind; [apply parsed_check|]. intros _. apply parsed_bind; [apply decode_plus_parsed|]. intros val.
  destruct p' as [|c' b2]; [done|]. cbn in H1. apply parsed_bind; [apply IH; lia|done].
Qed.

Lemma ipv6_tokens_parsed text : forall p b acc, parsed (ipv6_tokens p text b acc).
Proof. induction text as [|c text IH]; intros p b acc; cbn [ipv6_tokens]; [done|]. destruct (c =? 58); [|done]. by case_match. Qed.

Lemma ipv6_fields_parsed toks : forall i fields n, parsed (ipv6_fields toks i fields n).
Proof. induction toks as [|t toks IH]; intros i fields n; cbn [ipv6_fields]; [done|]. repeat case_match; done. Qed.

Lemma normalize_IPv6_parsed s : parsed (normalize_IPv6 s).
Proof.
  unfold normalize_IPv6. destruct (negb _); [done|]. case_bool_decide; [done|].
  apply parsed_bind; [apply ipv6_tokens_parsed|]. intros [toks b]. apply parsed_bind; [apply ipv6_fields_parsed|]. intros [fs np].
  destruct (_ && _); [done|]. repeat case_match; done.
Qed.

Lemma ip_literal_parsed t : parsed (ip_literal t).
Proof. unfold ip_literal. repeat case_match; done. Qed.

Lemma parse_authority_parsed a : parsed (parse_authority a).
Proof.
  unfold parse_authority. destruct (find_char 64 a) as [us at_]. apply parsed_bind.
  { destruct at_; [done|]. apply parsed_bind; [apply parsed_check|done]. }
  intros [user b]. apply parsed_bind.
  { unfold parse_host. assert (parsed (let '(h, b2) := find_char 58 b in if is_ipv4 h then Ok (4, h, b2) else if is_reg_name h then Ok (0, h, b2) else Throw parse_error)) as H
      by (destruct (find_char 58 b); repeat case_match; done).
    repeat match goal with |- context [match ?x with _ => _ end] => is_var x; destruct x; try exact H end.
    destruct (find_char 93 _) as [t [|c b2]]; [done|]. apply parsed_bind; [apply ip_literal_parsed|]. by intros []. }
  intros [[v h] b']. repeat match goal with |- context [match ?x with _ => _ end] => is_var x; destruct x; try done end.
  apply parsed_bind; [apply parsed_check|done].
Qed.

(** C19: on any text [parse_url] ends with the parts or with [parse_error]: its loops
    stop (each entry of the query takes a character or more) and no other
    exception leaves it. *)
Theorem parse_url_total s : parsed (parse_url (url_of s)).
Proof.
  unfold parse_url, url_of. cbn [m_url]. destruct s as [|c s]; [done|]. set (t := c :: s). apply parsed_bind; [apply parsed_check|]. intros _.
  apply parsed_bind.
  { unfold split_scheme. destruct (find_first_of (lit ":/?#") t) as [pre p].
    repeat match goal with |- context [match ?x with _ => _ end] => is_var x; destruct x; try done end. apply parsed_bind; [apply parsed_check|done]. }
  intros [[sch b] p]. apply parsed_bind.
  { unfold split_authority. repeat match goal with |- context [match ?x with _ => _ end] => is_var x; destruct x; try done end.
    destruct (find_first_of _ _). apply parsed_bind; [apply parse_authority_parsed|done]. }
  intros [auth b1]. apply parsed_bind.
  { unfold split_path. destruct (find_first_of _ b1) as [path p2]. apply parsed_bind; [apply parsed_check|]. intros _.
    destruct (match p2 with 63 :: b' => _ | _ => _ end) as [query p3].
    repeat match goal with |- context [match ?x with _ => _ end] => is_var x; destruct x; try done end. apply parsed_bind; [apply parsed_check|done]. }
  intros [[path query] fragment]. destruct (match auth with Some _ => _ | None => _ end) as [[[user v] host] port].
  apply parsed_bind; [apply decode_parsed|]. intros _user. apply parsed_bind.
  { destruct host as [h|]; [|done]. unfold decode_host. apply parsed_bind; [apply decode_parsed|]. intros h'.
    destruct (v =? 0); [done|]. destruct (v =? 6); [apply normalize_IPv6_parsed|done]. }
  intros _host. apply parsed_bind; [apply decode_parsed|]. intros path1. apply parsed_bind.
  { unfold query_entries. destruct query as [[|c' q]|]; try done. apply parse_query_parsed. lia. }
  intros query_v. apply parsed_bind; [apply decode_parsed|done].
Qed.

(** ** Texts that are accepted and ones that are not *)

(** The port is computed in 32 bits, so 2^32 + 80 passes for a port. *)
Lemma port_wraps : is_port (lit "4294967376") = true.
Proof. by vm_compute. Qed.

(** What follows the bracket of an address is dropped, unless it starts with ':'. *)
Lemma text_after_bracket_dropped : parse_authority (lit "[::1]evil.org") = Ok (None, 6, lit "::1", None).
Proof. by vm_compute. Qed.

(** [ip_v<<8] of a second digit, which is then read as the dot: versions of two
    digits are always refused. *)
Lemma future_version_two_digits : ip_literal (lit "v1f.x") = Throw parse_error /\ ip_literal (lit "v1.x") = Ok (1, lit "x").
Proof. split; by vm_compute. Qed.

(** A last segment ".." takes the slash with it, "." leaves it. *)
Lemma last_dotdot : normalize_path (lit "/a/b/..") = lit "/a" /\ normalize_path (lit "/a/b/.") = lit "/a/b/".
Proof. split; by vm_compute. Qed.

(** The default port is kept by [parse_url] and left out by [build_url]. *)
Lemma default_port_lost :
  (u ← parse_url (url_of (lit "http://h:80/")); t ← build_text u; Ok (m_port u, t)) = Ok (lit "80", lit "http://h/").
Proof. by vm_compute. Qed.
