(* ===== verification/Sockaddr.v ===== *)
(** Socket addresses: [msockaddr_in] of corelib/msockaddr_in.h and
    corelib/msockaddr_in.cpp, which key the RPC sessions and travel inside the
    cloud events.

    The union of [sockaddr_in], [sockaddr_in6] and [sockaddr_un] is one
    constructor per family; ports and IPv4 addresses are kept in network byte
    order, as the structure holds them.  A family outside the three is not
    represented: no operation of the class produces one.  The text form of an
    IPv6 address is the system's [inet_ntop]/[inet_pton] and name resolution is
    [getaddrinfo]; both are parameters. *)

From Stdlib Require Import ZArith Lia.
From stdpp Require Import base list strings numbers.
From S2P Require Import Prelude StdMap IoBuffer Codec CLib.
Open Scope Z_scope.

Definition AF_UNIX : Z := 1.
Definition AF_INET : Z := 2.
Definition AF_INET6 : Z := 10.

(** [sizeof(sun_path)] on Linux. *)
Definition SUN_PATH_SIZE : nat := 108.

Inductive msockaddr_in : Type :=
| Sa4 (sin_port sin_addr : Z)
| Sa6 (sin6_port : Z) (sin6_addr : list Z)
| SaUn (sun_path : list Z).

#[export] Instance msockaddr_eq_dec : EqDecision msockaddr_in.
Proof. solve_decision. Defined.

(** The default constructor: 0.0.0.0:0. *)
Definition msa_default : msockaddr_in := Sa4 0 0.

Definition family (a : msockaddr_in) : Z :=
  match a with Sa4 _ _ => AF_INET | Sa6 _ _ => AF_INET6 | SaUn _ => AF_UNIX end.

(** What the structure can hold: [sun_path] is a NUL-terminated string. *)
Definition msa_ok (a : msockaddr_in) : Prop :=
  match a with
  | Sa4 p x => 0 <= p < 2 ^ 16 /\ 0 <= x < 2 ^ 32
  | Sa6 p x => 0 <= p < 2 ^ 16 /\ Forall is_byte x /\ length x = 16%nat
  | SaUn s => no_nul s /\ (length s < SUN_PATH_SIZE)%nat
  end.

(** [strcpy(u.sa_un.sun_path, s)]: the array is not checked against the string. *)
Definition strcpy_sun_path (s : list Z) : res msockaddr_in :=
  if (length (c_str s) <? SUN_PATH_SIZE)%nat then Ok (SaUn (c_str s))
  else Throw (UB "strcpy past the end of sun_path").

(** ** Comparison *)

(** The loop over the 16 bytes of an IPv6 address: [Some] as soon as two bytes
    differ. *)
Fixpoint addr6_lt (x y : list Z) : option bool :=
  match x, y with
  | a :: x', b :: y' => if a <? b then Some true else if b <? a then Some false else addr6_lt x' y'
  | _, _ => None
  end.

Definition msa_lt (this b : msockaddr_in) : bool :=
  if family this <? family b then true
  else if family b <? family this then false
  else match this, b with
       | SaUn s, SaUn t => negb (strcmp s t =? 0)
       | Sa4 p x, Sa4 q y =>
           if x <? y then true else if y <? x then false
           else if p <? q then true else if q <? p then false else false
       | Sa6 p x, Sa6 q y =>
           match addr6_lt x y with
           | Some ans => ans
           | None => if p <? q then true else if q <? p then false else false
           end
       | _, _ => false
       end.

Fixpoint addr6_eq (x y : list Z) : bool :=
  match x, y with
  | a :: x', b :: y' => if negb (a =? b) then false else addr6_eq x' y'
  | _, _ => true
  end.

Definition msa_eqb (this b : msockaddr_in) : bool :=
  if negb (family this =? family b) then false
  else match this, b with
       | SaUn s, SaUn t => strcmp s t =? 0
       | Sa4 p x, Sa4 q y => if negb (x =? y) then false else negb (negb (p =? q))
       | Sa6 p x, Sa6 q y => if negb (p =? q) then false else addr6_eq x y
       | _, _ => true
       end.

(** ** Accessors *)

Definition port (a : msockaddr_in) : res Z :=
  match a with
  | SaUn _ => Throw (CommonError "invalid call")
  | Sa4 p _ => Ok (ntohs p)
  | Sa6 p _ => Ok (ntohs p)
  end.

Definition setPort (a : msockaddr_in) (p : Z) : res msockaddr_in :=
  match a with
  | Sa4 _ x => Ok (Sa4 (htons p) x)
  | Sa6 _ x => Ok (Sa6 (htons p) x)
  | SaUn _ => Throw (CommonError "else if(family()==AF_UNIX)")
  end.

(** [inet_ntoa]: dotted decimal of the four bytes in memory order. *)
Definition inet_ntoa (s_addr : Z) : list Z :=
  let h := ntohl s_addr in
  to_string (h / 2 ^ 24) ++ [46] ++ to_string ((h / 2 ^ 16) mod 256) ++ [46]
  ++ to_string ((h / 2 ^ 8) mod 256) ++ [46] ++ to_string (h mod 256).

(** [check_addr_for_mask]: clear the host bits and compare the text. *)
Definition check_addr_for_mask (s_addr : Z) (ipmask : list Z) (maskShift : Z) : bool :=
  let val := ntohl s_addr in
  let shift := 32 - maskShift in
  let val := Z.shiftr val shift in
  let val := wrapu 32 (Z.shiftl val shift) in
  bool_decide (inet_ntoa (htonl val) = ipmask).

Definition isNAT (a : msockaddr_in) : bool :=
  match a with
  | Sa4 _ x =>
      if check_addr_for_mask x (lit "10.0.0.0") 8 then true
      else if check_addr_for_mask x (lit "172.16.0.0") 12 then true
      else if check_addr_for_mask x (lit "192.168.0.0") 16 then true
      else false
  | _ => false
  end.

(** ** Wire form and construction from text *)

Section Inet.
Context (inet_ntop6 : list Z -> list Z) (inet_pton6 : list Z -> option (list Z)).

Definition msa_pack (b : outBuffer) (a : msockaddr_in) : outBuffer :=
  match a with
  | SaUn s => put_PSTR (put_PN b AF_UNIX) s
  | Sa4 p x => put_PN (put_PN (put_PN b AF_INET) (ntohs p)) (ntohl x)
  | Sa6 p x => put_PSTR (put_PN (put_PN b AF_INET6) (htons p)) (inet_ntop6 x)
  end.

(** [unpack] into a default-constructed address; [inet_pton] leaves the
    address field alone when it rejects the text. *)
Definition msa_unpack (b : inBuffer) : res (msockaddr_in * inBuffer) :=
  '(n, b) ← get_PN b;
  let fam := cast U8 n in
  if fam =? AF_UNIX then
    '(s, b) ← get_PSTR b; a ← strcpy_sun_path s; Ok (a, b)
  else if fam =? AF_INET then
    '(p, b) ← get_PN b; '(x, b) ← get_PN b; Ok (Sa4 (htons p) (htonl x), b)
  else if fam =? AF_INET6 then
    '(p, b) ← get_PN b; '(s, b) ← get_PSTR b;
    Ok (Sa6 (htons p) (default (repeat 0 16) (inet_pton6 (c_str s))), b)
  else Throw (CommonError "2 invalid family").

Definition getStringAddr (a : msockaddr_in) : list Z :=
  match a with
  | SaUn s => s
  | Sa4 _ x => inet_ntoa x
  | Sa6 _ x => inet_ntop6 x
  end.

(** [snprintf] into a 200-byte array. *)
Definition dump (a : msockaddr_in) : list Z :=
  take 199 (match a with
            | SaUn s => lit "unix@" ++ s
            | Sa4 p _ => getStringAddr a ++ [58] ++ to_string (ntohs p)
            | Sa6 p _ => [91] ++ getStringAddr a ++ [93; 58] ++ to_string (ntohs p)
            end).

(** [getAddrInfo] of the resolver: the IPv4 and the IPv6 texts of a host. *)
Context (getAddrInfo : list Z -> res (list (list Z) * list (list Z)))
        (inet_addr : list Z -> Z).

Definition init_host (host : list Z) (p : Z) : res msockaddr_in :=
  if bool_decide (host = lit "INADDR_ANY") then Ok (Sa4 (htons p) 0)
  else if bool_decide (host = lit "INADDR6_ANY") then Ok (Sa6 (htons p) (repeat 0 16))
  else
    '(v4, v6) ← getAddrInfo host;
    match v4, v6 with
    | t :: _, _ => Ok (Sa4 (htons p) (inet_addr t))
    | [], t :: _ => Ok (Sa6 (htons p) (default (repeat 0 16) (inet_pton6 t)))
    | [], [] => Throw (CommonError "invalid case!")
    end.

(** [s.find(c)] and the two halves around it. *)
Fixpoint split_at (c : Z) (s : list Z) : option (list Z * list Z) :=
  match s with
  | [] => None
  | x :: s' =>
      if x =? c then Some ([], s')
      else match split_at c s' with Some (u, v) => Some (x :: u, v) | None => None end
  end.

Definition init (s : list Z) : res msockaddr_in :=
  if bool_decide (take 5 s = lit "unix@") then strcpy_sun_path (drop 5 s)
  else match split_at 58 s with
       | Some (host, p) => init_host (c_str host) (cast U16 (atoi p))
       | None => Throw (CommonError "invalid case")
       end.
End Inet.

(** ** Facts on the comparison *)

Lemma addr6_eq_spec x y : length x = length y -> addr6_eq x y = true <-> x = y.
Proof.
  revert y; induction x as [|a x IH]; intros [|b y]; simpl; try done. intros [= Hl].
  destruct (Z.eqb_spec a b) as [->|Hn]; simpl.
  - rewrite (IH y Hl). split; [by intros -> | by intros [= ->]].
  - split; congruence.
Qed.

Lemma msa_eqb_spec a b : msa_ok a -> msa_ok b -> msa_eqb a b = true <-> a = b.
Proof.
  unfold msa_eqb. destruct a as [p x|p x|s], b as [q y|q y|t]; cbn; try done.
  - intros _ _. destruct (Z.eqb_spec x y), (Z.eqb_spec p q); simpl; split; congruence.
  - intros (_ & _ & Hx) (_ & _ & Hy). destruct (Z.eqb_spec p q); simpl; [|split; congruence].
    rewrite addr6_eq_spec by lia. split; [by intros ->; subst | by intros [= _ ->]].
  - intros _ _. rewrite Z.eqb_eq, strcmp_eq. split; [by intros -> | by intros [= ->]].
Qed.

Lemma addr6_lt_None x y : length x = length y -> addr6_lt x y = None <-> x = y.
Proof.
  revert y; induction x as [|a x IH]; intros [|b y]; simpl; try done. intros [= Hl].
  destruct (Z.ltb_spec a b); [split; [done | intros [=]; lia]|].
  destruct (Z.ltb_spec b a); [split; [done | intros [=]; lia]|].
  assert (a = b) as -> by lia. rewrite (IH y Hl). split; [by intros -> | by intros [=]].
Qed.

Lemma addr6_lt_flip x y :
  length x = length y -> addr6_lt y x = negb <$> addr6_lt x y.
Proof.
  revert y; induction x as [|a x IH]; intros [|b y]; simpl; try done. intros [= Hl].
  destruct (Z.ltb_spec a b), (Z.ltb_spec b a); try lia; try done. by apply IH.
Qed.

Lemma addr6_lt_trans x y z :
  length x = length y -> length y = length z ->
  addr6_lt x y = Some true -> addr6_lt y z = Some true -> addr6_lt x z = Some true.
Proof.
  revert y z; induction x as [|a x IH]; intros [|b y] [|c z]; simpl; try done.
  intros [= H1] [= H2]. specialize (IH y z H1 H2).
  destruct (Z.ltb_spec a b), (Z.ltb_spec b a), (Z.ltb_spec b c), (Z.ltb_spec c b),
    (Z.ltb_spec a c), (Z.ltb_spec c a); try lia; try done; auto.
Qed.

(** An internet address: what the order is sound for. *)
Definition is_inet (a : msockaddr_in) : Prop :=
  msa_ok a /\ match a with SaUn _ => False | _ => True end.

Lemma msa_lt_irrefl_inet a : is_inet a -> msa_lt a a = false.
Proof.
  intros [Ha Hi]. unfold msa_lt. rewrite Z.ltb_irrefl. destruct a as [p x|p x|s]; [|..|done].
  - by rewrite !Z.ltb_irrefl.
  - rewrite (proj2 (addr6_lt_None x x eq_refl) eq_refl). by rewrite Z.ltb_irrefl.
Qed.

Lemma msa_lt_trans_inet a b c :
  is_inet a -> is_inet b -> is_inet c ->
  msa_lt a b = true -> msa_lt b c = true -> msa_lt a c = true.
Proof.
  intros [Ha Hia] [Hb Hib] [Hc Hic]. unfold msa_lt.
  destruct a as [p x|p x|?], b as [q y|q y|?], c as [r z|r z|?]; cbn in *; try done.
  - split_if; try done; lia.
  - destruct Ha as (_ & _ & Hx), Hb as (_ & _ & Hy), Hc as (_ & _ & Hz).
    pose proof (addr6_lt_trans x y z) as Ht.
    destruct (addr6_lt x y) as [[]|] eqn:E1; destruct (addr6_lt y z) as [[]|] eqn:E2;
      intros H1 H2; try done.
    + by rewrite Ht by (done || lia).
    + apply addr6_lt_None in E2; [|lia]. subst. by rewrite E1.
    + apply addr6_lt_None in E1; [|lia]. subst. by rewrite E2.
    + apply addr6_lt_None in E1; [|lia]. apply addr6_lt_None in E2; [|lia]. subst.
      rewrite (proj2 (addr6_lt_None z z eq_refl) eq_refl). split_if; try done; lia.
Qed.

Lemma msa_lt_total_inet a b :
  is_inet a -> is_inet b -> msa_lt a b = false -> msa_lt b a = false -> a = b.
Proof.
  intros [Ha Hia] [Hb Hib]. unfold msa_lt.
  destruct a as [p x|p x|?], b as [q y|q y|?]; cbn in *; try done.
  - intros. split_if; try done. f_equal; lia.
  - destruct Ha as (_ & _ & Hx), Hb as (_ & _ & Hy).
    rewrite (addr6_lt_flip x y) by lia.
    destruct (addr6_lt x y) as [[]|] eqn:E; simpl; try done.
    apply addr6_lt_None in E; [|lia]. intros. split_if; try done. f_equal; [lia | done].
Qed.

(** On Unix-domain addresses the comparison only says "different", so it
    orders neither of two distinct paths after the other. *)
Lemma msa_lt_unix s t : s <> t -> msa_lt (SaUn s) (SaUn t) = true.
Proof.
  intros H. unfold msa_lt. cbn. destruct (Z.eqb_spec (strcmp s t) 0) as [E|]; [|done].
  by apply strcmp_eq in E.
Qed.

(** ** The wire form *)

(** What the address text functions of the C library promise. *)
Class InetText (ntop : list Z -> list Z) (pton : list Z -> option (list Z)) : Prop := {
  pton_ntop : forall x, Forall is_byte x -> length x = 16%nat -> pton (ntop x) = Some x;
  ntop_no_nul : forall x, no_nul (ntop x);
  ntop_short : forall x, (length (ntop x) < 46)%nat;
}.

(** A pair of functions with these properties: two letters for a byte. *)
Definition byte_text (c : Z) : list Z := [65 + (c / 16) mod 16; 65 + c mod 16].
Definition hex_ntop (x : list Z) : list Z := mjoin (byte_text <$> take 16 x).

Fixpoint hex_pton (s : list Z) : option (list Z) :=
  match s with
  | [] => Some []
  | h :: l :: s' => cons (16 * (h - 65) + (l - 65)) <$> hex_pton s'
  | _ => None
  end.

Lemma hex_inverse x : Forall is_byte x -> hex_pton (mjoin (byte_text <$> x)) = Some x.
Proof.
  unfold is_byte. induction 1 as [|c x Hc _ IH]; [done|]. rewrite join_cons. unfold byte_text at 1.
  cbn [app hex_pton]. rewrite IH. cbn [fmap option_fmap option_map].
  do 2 f_equal. rewrite (Z.mod_small (c / 16) 16) by (split; [apply Z.div_pos | apply Z.div_lt_upper_bound]; lia).
  pose proof (Z.div_mod c 16). lia.
Qed.

Lemma byte_text_length x : length (mjoin (byte_text <$> x)) = (2 * length x)%nat.
Proof. induction x as [|c x IH]; [done|]. rewrite join_cons, length_app, IH. cbn. lia. Qed.

#[export] Instance hex_inet_text : InetText hex_ntop hex_pton.
Proof.
  split.
  - intros x Hx Hl. unfold hex_ntop. rewrite take_ge by lia. by apply hex_inverse.
  - intros x. unfold hex_ntop, no_nul. induction (take 16 x) as [|c l IH]; [constructor|].
    rewrite join_cons. pose proof (Z.mod_pos_bound (c / 16) 16). pose proof (Z.mod_pos_bound c 16).
    apply Forall_app. split; [|exact IH]. constructor; [lia|]. constructor; [lia|constructor].
  - intros x. unfold hex_ntop. rewrite byte_text_length, length_take. lia.
Qed.

Lemma get_PN_bind {B} (f : Z * inBuffer -> res B) b N tl :
  0 <= N < 2 ^ 64 -> rest b = pn_bytes N ++ tl ->
  (get_PN b ≫= f) = f (N, advance b (length (pn_bytes N)))
  /\ rest (advance b (length (pn_bytes N))) = tl.
Proof.
  intros HN Hr. rewrite (get_PN_enc b N tl HN Hr). split; [done|].
  by rewrite rest_advance, Hr, drop_app_length.
Qed.

Lemma strcpy_sun_path_ok s :
  no_nul s -> (length s < SUN_PATH_SIZE)%nat -> strcpy_sun_path s = Ok (SaUn s).
Proof.
  intros Hn Hl. unfold strcpy_sun_path. rewrite c_str_id by done.
  by rewrite (proj2 (Nat.ltb_lt _ _) Hl).
Qed.

Section Wire.
Context (ntop : list Z -> list Z) (pton : list Z -> option (list Z)).

Definition msa_codec : Codec msockaddr_in :=
  mkCodec (msa_pack ntop) (msa_unpack pton) msa_ok.

Definition msa_enc (a : msockaddr_in) : list Z :=
  pn_bytes (family a) ++
  match a with
  | SaUn s => c_enc str_codec s
  | Sa4 p x => pn_bytes (ntohs p) ++ pn_bytes (ntohl x)
  | Sa6 p x => pn_bytes (htons p) ++ c_enc str_codec (ntop x)
  end.

Lemma htons_u64 p : 0 <= htons p < 2 ^ 64.
Proof. pose proof (bswap16_range (wrapu 16 p)). unfold htons. lia. Qed.

Lemma htonl_u64 p : 0 <= htonl p < 2 ^ 64.
Proof. pose proof (bswap32_range (wrapu 32 p)). unfold htonl. lia. Qed.

Lemma family_u64 a : 0 <= family a < 2 ^ 64.
Proof. destruct a; cbn [family]; unfold AF_UNIX, AF_INET, AF_INET6; lia. Qed.

Lemma msa_pack_app o a : container (msa_pack ntop o a) = container o ++ msa_enc a.
Proof.
  destruct a as [p x|p x|s]; unfold msa_pack, msa_enc.
  - rewrite !container_put_PN. by rewrite <- !app_assoc.
  - rewrite (c_put_app (c := str_codec)), !container_put_PN. by rewrite <- !app_assoc.
  - rewrite (c_put_app (c := str_codec)), container_put_PN. by rewrite <- app_assoc.
Qed.

Lemma msa_c_enc a : c_enc msa_codec a = msa_enc a.
Proof. open_codec msa_codec. rewrite msa_pack_app. by rewrite app_nil_l. Qed.

Context `{!InetText ntop pton}.


Lemma msa_unpack_enc a b tl :
  msa_ok a -> rest b = msa_enc a ++ tl ->
  msa_unpack pton b = Ok (a, advance b (length (msa_enc a))).
Proof.
  intros Hok Hr. unfold msa_unpack. unfold msa_enc in *. rewrite <- app_assoc in Hr.
  match goal with |- (get_PN _ ≫= ?f) = _ =>
    destruct (get_PN_bind f _ _ _ (family_u64 a) Hr) as [-> Hr2] end.
  rewrite length_app, <- advance_advance. revert Hr2.
  generalize (advance b (length (pn_bytes (family a)))) as b2. clear b Hr. intros b Hr2.
  destruct a as [p x|p x|s]; cbn [family] in *; rewrite <- ?app_assoc in Hr2.
  - destruct Hok as [Hp Hx].
    change (cast U8 AF_INET =? AF_UNIX) with false.
    change (cast U8 AF_INET =? AF_INET) with true. cbv iota.
    match goal with |- (get_PN _ ≫= ?f) = _ =>
      destruct (get_PN_bind f _ _ _ (htons_u64 p) Hr2) as [-> Hr3] end.
    match goal with |- (get_PN _ ≫= ?f) = _ =>
      destruct (get_PN_bind f _ _ _ (htonl_u64 x) Hr3) as [-> _] end.
    unfold ntohs, ntohl. rewrite htons_htons, htonl_htonl by lia.
    by rewrite !advance_advance, !length_app.
  - destruct Hok as (Hp & Hb & Hl).
    change (cast U8 AF_INET6 =? AF_UNIX) with false.
    change (cast U8 AF_INET6 =? AF_INET) with false.
    change (cast U8 AF_INET6 =? AF_INET6) with true. cbv iota.
    match goal with |- (get_PN _ ≫= ?f) = _ =>
      destruct (get_PN_bind f _ _ _ (htons_u64 p) Hr2) as [-> Hr3] end.
    pose proof (ntop_short (ntop := ntop) x) as Hs.
    assert (str_dom (ntop x)) as Hd by (unfold str_dom; lia).
    match goal with |- (get_PSTR _ ≫= ?f) = _ =>
      destruct (c_get_bind str_codec f (ntop x) _ tl Hd Hr3) as [E _] end.
    cbn [c_get str_codec] in E. rewrite E, c_str_id by apply ntop_no_nul.
    rewrite (pton_ntop x Hb Hl), htons_htons by lia. cbn [default from_option].
    by rewrite !advance_advance, !length_app.
  - destruct Hok as [Hn Hl].
    change (cast U8 AF_UNIX =? AF_UNIX) with true. cbv iota.
    assert (str_dom s) as Hd by (unfold str_dom; unfold SUN_PATH_SIZE in Hl; lia).
    match goal with |- (get_PSTR _ ≫= ?f) = _ =>
      destruct (c_get_bind str_codec f s _ tl Hd Hr2) as [E _] end.
    cbn [c_get str_codec] in E. rewrite E, strcpy_sun_path_ok by done.
    by rewrite res_bind_ok.
Qed.

#[export] Instance msa_codec_laws : CodecLaws msa_codec.
Proof.
  split.
  - intros o a. rewrite msa_c_enc. apply msa_pack_app.
  - intros a b tl Hd Hr. rewrite msa_c_enc in *. by apply (msa_unpack_enc a b tl).
Qed.
End Wire.

(** A Unix-domain path of 108 characters or more is copied past the end of the
    structure, whatever follows it in the buffer. *)
Lemma msa_unpack_unix_long pton s b tl :
  str_dom s -> no_nul s -> (SUN_PATH_SIZE <= length s)%nat ->
  rest b = pn_bytes AF_UNIX ++ c_enc str_codec s ++ tl ->
  msa_unpack pton b = Throw (UB "strcpy past the end of sun_path").
Proof.
  intros Hd Hn Hl Hr. unfold msa_unpack.
  match goal with |- (get_PN _ ≫= ?f) = _ =>
    destruct (get_PN_bind f _ _ _ (family_u64 (SaUn s)) Hr) as [-> Hr2] end.
  cbn [family] in *. change (cast U8 AF_UNIX =? AF_UNIX) with true. cbv iota.
  match goal with |- (get_PSTR _ ≫= ?f) = _ =>
    destruct (c_get_bind str_codec f s _ tl Hd Hr2) as [E _] end.
  cbn [c_get str_codec] in E. rewrite E. unfold strcpy_sun_path. rewrite c_str_id by done.
  by rewrite (proj2 (Nat.ltb_ge _ _) Hl).
Qed.

(** ** Private networks *)

Lemma digit_app_inj l1 l2 r1 r2 :
  Forall (fun c => isdigit c = true) l1 -> Forall (fun c => isdigit c = true) l2 ->
  l1 ++ 46 :: r1 = l2 ++ 46 :: r2 -> l1 = l2 /\ r1 = r2.
Proof.
  intros H1; revert l2; induction H1 as [|c l1 Hc H1 IH]; intros l2 H2 E;
    destruct H2 as [|d l2 Hd H2]; simpl in E; simplify_eq; try done.
  match goal with E : _ ++ _ = _ ++ _ |- _ => destruct (IH l2 H2 E) as [-> ->] end. done.
Qed.

Lemma to_string_digits z : 0 <= z -> Forall (fun c => isdigit c = true) (to_string z).
Proof.
  intros Hz. unfold to_string. destruct (Z.ltb_spec z 0); [lia|]. by apply dec_digits_digits.
Qed.

Lemma to_string_inj x y : in_range I32 x -> in_range I32 y -> to_string x = to_string y -> x = y.
Proof. intros Hx Hy E. rewrite <- (atoi_to_string x), <- (atoi_to_string y) by done. by rewrite E. Qed.

Lemma byte_i32 z : 0 <= z < 256 -> in_range I32 z.
Proof. cbv [in_range is_signed width]. lia. Qed.

Lemma inet_ntoa_inj x y :
  0 <= x < 2 ^ 32 -> 0 <= y < 2 ^ 32 -> inet_ntoa x = inet_ntoa y -> x = y.
Proof.
  intros Hx Hy. rewrite <- (htonl_htonl x Hx), <- (htonl_htonl y Hy). unfold inet_ntoa, ntohl.
  intros E. f_equal. revert E.
  rewrite (htonl_htonl x Hx), (htonl_htonl y Hy).
  pose proof (bswap32_range (wrapu 32 x)) as Hu. pose proof (bswap32_range (wrapu 32 y)) as Hv.
  fold (htonl x) in Hu. fold (htonl y) in Hv.
  generalize dependent (htonl x). generalize dependent (htonl y). clear. intros v Hv u Hu E.
  pose proof (Z.mod_pos_bound (u / 2 ^ 16) 256). pose proof (Z.mod_pos_bound (v / 2 ^ 16) 256).
  pose proof (Z.mod_pos_bound (u / 2 ^ 8) 256). pose proof (Z.mod_pos_bound (v / 2 ^ 8) 256).
  pose proof (Z.mod_pos_bound u 256). pose proof (Z.mod_pos_bound v 256).
  assert (0 <= u / 2 ^ 24 < 256) by (Z.to_euclidean_division_equations; lia).
  assert (0 <= v / 2 ^ 24 < 256) by (Z.to_euclidean_division_equations; lia).
  apply digit_app_inj in E as [E1 E]; [|apply to_string_digits; lia..].
  apply digit_app_inj in E as [E2 E]; [|apply to_string_digits; lia..].
  apply digit_app_inj in E as [E3 E4]; [|apply to_string_digits; lia..].
  apply to_string_inj in E1; [|apply byte_i32; lia..].
  apply to_string_inj in E2; [|apply byte_i32; lia..].
  apply to_string_inj in E3; [|apply byte_i32; lia..].
  apply to_string_inj in E4; [|apply byte_i32; lia..].
  Z.to_euclidean_division_equations. lia.
Qed.

Lemma check_addr_for_mask_spec x net bits :
  0 <= x < 2 ^ 32 -> 0 < bits <= 32 -> 0 <= net < 2 ^ bits ->
  check_addr_for_mask x (inet_ntoa (htonl (net * 2 ^ (32 - bits)))) bits
  = (ntohl x / 2 ^ (32 - bits) =? net).
Proof.
  intros Hx Hb Hn. unfold check_addr_for_mask, ntohl.
  pose proof (bswap32_range (wrapu 32 x)) as Hu. fold (htonl x) in Hu.
  rewrite Z.shiftr_div_pow2, Z.shiftl_mul_pow2 by lia.
  set (s := 32 - bits) in *. set (q := htonl x / 2 ^ s).
  assert (2 ^ 32 = 2 ^ bits * 2 ^ s) as E32 by (rewrite <- Z.pow_add_r by lia; f_equal; lia).
  assert (0 < 2 ^ s) by lia.
  assert (0 <= q < 2 ^ bits) as Hq.
  { split; [apply Z.div_pos; lia|]. apply Z.div_lt_upper_bound; lia. }
  rewrite wrapu_small by nia.
  destruct (Z.eqb_spec q net) as [->|Hne]; [by apply bool_decide_eq_true|].
  apply bool_decide_eq_false. intros E. apply Hne.
  apply inet_ntoa_inj in E; [|apply bswap32_range..].
  assert (htonl (htonl (q * 2 ^ s)) = htonl (htonl (net * 2 ^ s))) as E' by by rewrite E.
  rewrite !htonl_htonl in E' by nia. nia.
Qed.

(** [isNAT] as arithmetic on the address in host order. *)
Lemma isNAT_arith p x :
  0 <= x < 2 ^ 32 ->
  isNAT (Sa4 p x) = (ntohl x / 2 ^ 24 =? 10) || (ntohl x / 2 ^ 20 =? 172 * 16 + 1)
                    || (ntohl x / 2 ^ 16 =? 192 * 256 + 168).
Proof.
  intros Hx. unfold isNAT.
  pose proof (check_addr_for_mask_spec x 10 8 Hx) as H1.
  pose proof (check_addr_for_mask_spec x (172 * 16 + 1) 12 Hx) as H2.
  pose proof (check_addr_for_mask_spec x (192 * 256 + 168) 16 Hx) as H3.
  change (lit "10.0.0.0") with (inet_ntoa (htonl (10 * 2 ^ (32 - 8)))).
  change (lit "172.16.0.0") with (inet_ntoa (htonl ((172 * 16 + 1) * 2 ^ (32 - 12)))).
  change (lit "192.168.0.0") with (inet_ntoa (htonl ((192 * 256 + 168) * 2 ^ (32 - 16)))).
  rewrite H1, H2, H3 by lia.
  change (32 - 8) with 24. change (32 - 12) with 20. change (32 - 16) with 16.
  by destruct (_ =? 10), (_ =? 172 * 16 + 1), (_ =? 192 * 256 + 168).
Qed.

(** ** Properties *)

(** A socket address of any of the three families comes back from
    [operator>>] as [operator<<] wrote it, given that [inet_pton] inverts
    [inet_ntop] on IPv6 addresses. *)
Lemma address_roundtrip ntop pton `{!InetText ntop pton} a tl :
  msa_ok a ->
  exists b, msa_unpack pton (inBuffer_new (container (msa_pack ntop outBuffer_new a) ++ tl)) = Ok (a, b)
            /\ rest b = tl.
Proof.
  intros Ha.
  assert (container (msa_pack ntop outBuffer_new a) = c_enc (msa_codec ntop pton) a) as ->
    by (exact (c_put_app (c := msa_codec ntop pton) outBuffer_new a)).
  eexists. split; [exact (c_get_put (c := msa_codec ntop pton) a _ tl Ha (rest_new _))|].
  by rewrite rest_advance, rest_new, drop_app_length.
Qed.

Lemma address_roundtrip_witness :
  exists b, msa_unpack hex_pton (inBuffer_new (container (msa_pack hex_ntop outBuffer_new (Sa6 20480 (repeat 254 16))) ++ [3]))
            = Ok (Sa6 20480 (repeat 254 16), b) /\ rest b = [3].
Proof.
  apply (address_roundtrip hex_ntop hex_pton (Sa6 20480 (repeat 254 16)) [3]).
  split; [lia|]. split; [|reflexivity]. repeat constructor; unfold is_byte; lia.
Defined.

(** [isNAT] is true of an IPv4 address exactly when it is in one of the
    private ranges 10.0.0.0/8, 172.16.0.0/12 and 192.168.0.0/16. *)
Lemma isNAT_private p x :
  0 <= x < 2 ^ 32 ->
  isNAT (Sa4 p x) = true
  <-> 10 * 2 ^ 24 <= ntohl x < 11 * 2 ^ 24
      \/ (172 * 256 + 16) * 2 ^ 16 <= ntohl x < (172 * 256 + 32) * 2 ^ 16
      \/ (192 * 256 + 168) * 2 ^ 16 <= ntohl x < (192 * 256 + 169) * 2 ^ 16.
Proof.
  intros Hx. rewrite (isNAT_arith p x Hx), !orb_true_iff, !Z.eqb_eq.
  generalize (ntohl x). intros n.
  assert (forall k q, 0 < k -> n / k = q <-> q * k <= n < (q + 1) * k) as E.
  { intros k q Hk. split; [intros <-|intros H; symmetry; apply (Z.div_unique n k q (n - q * k)); lia].
    pose proof (Z.mul_div_le n k Hk). pose proof (Z.mul_succ_div_gt n k Hk). lia. }
  rewrite !E by lia. lia.
Qed.

Lemma isNAT_private_witness : isNAT (Sa4 0 (htonl (172 * 2 ^ 24 + 31 * 2 ^ 16))) = true.
Proof.
  apply (proj2 (isNAT_private 0 (htonl (172 * 2 ^ 24 + 31 * 2 ^ 16)) ltac:(vm_compute; intuition congruence))).
  right. left. vm_compute. intuition congruence.
Defined.

(** [operator<] of socket addresses is a strict total order on IPv4 and IPv6
    addresses, which maps keyed by them need. *)
Lemma inet_order a b c :
  is_inet a -> is_inet b -> is_inet c ->
  msa_lt a a = false
  /\ (msa_lt a b = true -> msa_lt b c = true -> msa_lt a c = true)
  /\ (msa_lt a b = false -> msa_lt b a = false -> a = b).
Proof.
  intros Ha Hb Hc. split; [by apply msa_lt_irrefl_inet|].
  split; [by apply msa_lt_trans_inet | by apply msa_lt_total_inet].
Qed.

Lemma inet_order_witness :
  msa_lt (Sa4 1 1) (Sa4 1 1) = false
  /\ (msa_lt (Sa4 1 1) (Sa4 1 2) = true -> msa_lt (Sa4 1 2) (Sa4 2 2) = true -> msa_lt (Sa4 1 1) (Sa4 2 2) = true)
  /\ (msa_lt (Sa4 1 1) (Sa4 1 2) = false -> msa_lt (Sa4 1 2) (Sa4 1 1) = false -> Sa4 1 1 = Sa4 1 2).
Proof. apply (inet_order (Sa4 1 1) (Sa4 1 2) (Sa4 2 2)); (split; [vm_compute; intuition congruence | exact I]). Defined.

(** On Unix-domain addresses [operator<] is not an order: of two different
    paths each is below the other, and a map keyed by them can hold the same
    path twice. *)
Lemma unix_order_broken s t :
  s <> t ->
  msa_lt (SaUn s) (SaUn t) = true /\ msa_lt (SaUn t) (SaUn s) = true.
Proof. intros H. split; by apply msa_lt_unix. Qed.

Lemma unix_order_broken_witness :
  msa_lt (SaUn [97]) (SaUn [98]) = true /\ msa_lt (SaUn [98]) (SaUn [97]) = true.
Proof. apply (unix_order_broken [97] [98]). discriminate. Defined.

(** A Unix-domain address of 108 characters or more in a packet makes
    [operator>>] write past the end of [sun_path]. *)
Lemma unix_path_overflow pton s tl :
  str_dom s -> no_nul s -> (SUN_PATH_SIZE <= length s)%nat ->
  msa_unpack pton (inBuffer_new (pn_bytes AF_UNIX ++ c_enc str_codec s ++ tl))
  = Throw (UB "strcpy past the end of sun_path").
Proof. intros Hd Hn Hl. by apply (msa_unpack_unix_long pton s _ tl); [..|rewrite rest_new]. Qed.

Lemma unix_path_overflow_witness :
  msa_unpack hex_pton (inBuffer_new (pn_bytes AF_UNIX ++ c_enc str_codec (repeat 47 108) ++ []))
  = Throw (UB "strcpy past the end of sun_path").
Proof.
  apply (unix_path_overflow hex_pton (repeat 47 108) []).
  - by vm_compute.
  - apply Forall_forall. intros c Hc. apply repeat_spec in Hc as ->. discriminate.
  - vm_compute. lia.
Defined.
