(* ===== verification/Config.v ===== *)
(** The configuration: [loadStringMapFromBuffer] of main/CUtils.cpp, [ConfigObj]
    of main/configObj.{h,cpp} and the file-backed [ConfigDB] of
    corelib/configDB.{h,cpp}.

    [pthread_self()] is an argument, the environment, the resolver and [strtod]
    are parameters; the files of [ConfigDB] are a map from names to contents. *)

From Stdlib Require Import ZArith Lia.
From stdpp Require Import base strings numbers list.
From S2P Require Import Prelude StdMap CLib Sockaddr Text.
Open Scope Z_scope.

(** ** Order of strings *)

#[export] Instance str_lt_order : StdOrder str_lt.
Proof.
  unfold str_lt. split.
  - intros a. by rewrite (proj2 (strcmp_eq a a) eq_refl).
  - induction a as [|x a IH]; intros [|y b] [|z c]; cbn [strcmp]; try done. specialize (IH b c).
    destruct (Z.eqb_spec x y), (Z.eqb_spec y z), (Z.eqb_spec x z); try lia; auto;
      destruct (Z.ltb_spec x y), (Z.ltb_spec y z), (Z.ltb_spec x z); try lia; done.
  - induction a as [|x a IH]; intros [|y b]; cbn [strcmp]; try done. specialize (IH b).
    destruct (Z.eqb_spec x y), (Z.eqb_spec y x); try lia; [intros H1 H2; f_equal; auto|].
    destruct (Z.ltb_spec x y), (Z.ltb_spec y x); try lia; done.
Qed.

(** ** The text of a configuration *)

Definition str_map (V : Type) : Type := list (list Z * V).

(** [m[k] = v]. *)
Definition map_assign {V} (k : list Z) (v : V) (m : str_map V) : str_map V :=
  map_update str_lt k v (fun _ => v) m.

Lemma map_find_assign_eq {V} k (v : V) m :
  map_sorted str_lt m -> map_find str_lt k (map_assign k v m) = Some v.
Proof. intros H. unfold map_assign. by rewrite (map_find_update_eq str_lt). Qed.

Lemma map_find_assign_ne {V} k j (v : V) m :
  map_sorted str_lt m -> j <> k -> map_find str_lt j (map_assign k v m) = map_find str_lt j m.
Proof. intros H Hne. by apply (map_find_update_ne str_lt). Qed.

Lemma map_assign_sorted {V} k (v : V) m : map_sorted str_lt m -> map_sorted str_lt (map_assign k v m).
Proof. apply (map_update_sorted str_lt). Qed.

(** One line of [loadStringMapFromBuffer]: the section so far and the map. *)
Definition load_line (st : list Z * str_map (list Z)) (line : list Z) : res (list Z * str_map (list Z)) :=
  let '(section, m) := st in
  if forallb isspace line then Ok st
  else
    let theString := skip_space line in
    if bool_decide (head theString = Some 35) then Ok st
    else if bool_decide (head theString = Some 37) then Ok (drop 1 theString, m)
    else match split_at 61 theString with
         | None => Throw (CommonError "--Error: syntax error in line")
         | Some (k, val) =>
             let key := match section with [] => k | _ => section ++ [95] ++ k end in
             Ok (section, map_assign key val m)
         end.

Definition loadStringMapFromBuffer (bod linedelim : list Z) : res (str_map (list Z)) :=
  '(_, m) ← foldM load_line ([], []) (splitString linedelim bod);
  Ok m.

(** ** ConfigObj *)

Record ConfigObj : Type := mkConfigObj {
  m_container : str_map (list Z * bool);
  m_prefixes : list (Z * list (list Z));
  m_filename : list Z;
}.

Definition set_container (c : ConfigObj) (m : str_map (list Z * bool)) : ConfigObj :=
  mkConfigObj m (m_prefixes c) (m_filename c).
Definition set_prefixes (c : ConfigObj) (p : list (Z * list (list Z))) : ConfigObj :=
  mkConfigObj (m_container c) p (m_filename c).

(** The loop [m_container[i.first] = make_pair(i.second, false)]. *)
Definition merge_entries (m : str_map (list Z)) (c : ConfigObj) : ConfigObj :=
  set_container c (fold_left (fun acc kv => map_assign kv.1 (kv.2, false) acc) m (m_container c)).

Definition load_from_buffer (buf : list Z) (c : ConfigObj) : res ConfigObj :=
  m ← loadStringMapFromBuffer buf [13; 10];
  Ok (merge_entries m c).

Definition m_initFromLine (buf : list Z) (c : ConfigObj) : res ConfigObj :=
  m ← loadStringMapFromBuffer buf [44];
  Ok (merge_entries m c).

Definition new_ConfigObj (fake_filename buffer : list Z) : res ConfigObj :=
  load_from_buffer buffer (mkConfigObj [] [] fake_filename).

Definition m_getPath (self : Z) (c : ConfigObj) (name : list Z) : list Z :=
  join [95] (default [] (map_find Z.ltb self (m_prefixes c)) ++ [name]).

Definition m_getPath2 (name : list Z) : list Z := name.

Definition push_prefix (self : Z) (p : list Z) (c : ConfigObj) : ConfigObj :=
  set_prefixes c (map_update Z.ltb self [] (fun d => d ++ [p]) (m_prefixes c)).

(** [pop_back] on an empty deque is undefined. *)
Definition pop_prefix (self : Z) (c : ConfigObj) : res ConfigObj :=
  match default [] (map_find Z.ltb self (m_prefixes c)) with
  | [] => Throw (UB "pop_back on an empty deque")
  | _ => Ok (set_prefixes c (map_update Z.ltb self [] (@removelast _) (m_prefixes c)))
  end.

Section Getters.
Context (getenv : list Z -> option (list Z)).
Context (inet_pton6 : list Z -> option (list Z)).
Context (getAddrInfo : list Z -> res (list (list Z) * list (list Z))) (inet_addr : list Z -> Z).

(** Where a parameter comes from. *)
Inductive source : Type :=
| FromEnv (s : list Z)
| FromFile (s : list Z)
| Missing.

(** The head every getter repeats: the environment first, then the file, whose
    entry is marked used. *)
Definition find_param (name : list Z) (c : ConfigObj) : source * ConfigObj :=
  match getenv (c_str name) with
  | Some s => (FromEnv s, c)
  | None =>
      match map_find str_lt name (m_container c) with
      | Some (v, _) => (FromFile v, set_container c (map_assign name (v, true) (m_container c)))
      | None => (Missing, c)
      end
  end.

Definition source_text (defv : list Z) (s : source) : list Z :=
  match s with FromEnv v => v | FromFile v => v | Missing => defv end.

Definition get_string_at (name defv : list Z) (c : ConfigObj) : list Z * ConfigObj :=
  let '(s, c') := find_param name c in (source_text defv s, c').

Definition get_string (self : Z) (name defv : list Z) (c : ConfigObj) : list Z * ConfigObj :=
  get_string_at (m_getPath self c name) defv c.
Definition get_string2 (name defv : list Z) (c : ConfigObj) : list Z * ConfigObj :=
  get_string_at (m_getPath2 name) defv c.

(** The loop over the pieces: [NONE] is skipped, anything else is an address. *)
Definition parse_addrs (vz : list (list Z)) : res (list msockaddr_in) :=
  foldM (fun ret v =>
           if bool_decide (strupper v = lit "NONE") then Ok ret
           else a ← init inet_pton6 getAddrInfo inet_addr v; Ok (set_insert msa_lt a ret)) [] vz.

(** [get_tcpaddr] keeps the empty pieces of the split, [get_tcpaddr2] does not. *)
Definition get_tcpaddr (self : Z) (name defv : list Z) (c : ConfigObj) : res (list msockaddr_in) * ConfigObj :=
  let '(s, c') := find_param (m_getPath self c name) c in
  (parse_addrs (resplit (lit ";, ") (source_text defv s)), c').

Definition get_tcpaddr2 (name defv : list Z) (c : ConfigObj) : res (list msockaddr_in) * ConfigObj :=
  let '(s, c') := find_param (m_getPath2 name) c in
  (parse_addrs (splitString (lit ";, ") (c_str (source_text defv s))), c').

Definition pieces (seps v : list Z) : list (list Z) :=
  fold_left (fun acc x => set_insert str_lt x acc) (splitString seps v) [].

(** The separators depend on where the text comes from. *)
Definition get_stringset (self : Z) (name defv : list Z) (c : ConfigObj) : list (list Z) * ConfigObj :=
  let '(s, c') := find_param (m_getPath self c name) c in
  (match s with
   | FromEnv v => pieces (lit ",|") v
   | FromFile v => pieces (lit ",|;") v
   | Missing => pieces (lit ",|") defv
   end, c').

Definition get_stringset2 (name defv : list Z) (c : ConfigObj) : list (list Z) * ConfigObj :=
  let '(s, c') := find_param (m_getPath2 name) c in
  (match s with
   | FromEnv v => pieces (lit ",|;") v
   | FromFile v => pieces (lit ",|;") v
   | Missing => pieces (lit ",|") defv
   end, c').

Definition get_bool_at (name : list Z) (defv : bool) (c : ConfigObj) : bool * ConfigObj :=
  let '(s, c') := find_param name c in
  (match s with
   | FromEnv v | FromFile v => bool_decide (v = lit "true")
   | Missing => defv
   end, c').

Definition get_bool (self : Z) (name : list Z) (defv : bool) (c : ConfigObj) : bool * ConfigObj :=
  get_bool_at (m_getPath self c name) defv c.
Definition get_bool2 (name : list Z) (defv : bool) (c : ConfigObj) : bool * ConfigObj :=
  get_bool_at (m_getPath2 name) defv c.

(** [atol] is [strtol(s, NULL, 10)] on a 64-bit [long]. *)
Definition get_int64_at (name : list Z) (defv : Z) (c : ConfigObj) : Z * ConfigObj :=
  let '(s, c') := find_param name c in
  (match s with
   | FromEnv v | FromFile v => strtol10 v
   | Missing => defv
   end, c').

Definition get_int64_t (self : Z) (name : list Z) (defv : Z) (c : ConfigObj) : Z * ConfigObj :=
  get_int64_at (m_getPath self c name) defv c.
Definition get_int64_t2 (name : list Z) (defv : Z) (c : ConfigObj) : Z * ConfigObj :=
  get_int64_at (m_getPath2 name) defv c.

Definition get_uint64_t (self : Z) (name : list Z) (defv : Z) (c : ConfigObj) : Z * ConfigObj :=
  let '(s, c') := find_param (m_getPath self c name) c in
  (match s with
   | FromEnv v | FromFile v => cast U64 (strtol10 v)
   | Missing => defv
   end, c').

Context {real : Type} (strtod : list Z -> real).

Definition get_real_at (name : list Z) (defv : real) (c : ConfigObj) : real * ConfigObj :=
  let '(s, c') := find_param name c in
  (match s with
   | FromEnv v | FromFile v => strtod (c_str v)
   | Missing => defv
   end, c').

Definition get_real (self : Z) (name : list Z) (defv : real) (c : ConfigObj) : real * ConfigObj :=
  get_real_at (m_getPath self c name) defv c.
Definition get_real2 (name : list Z) (defv : real) (c : ConfigObj) : real * ConfigObj :=
  get_real_at (m_getPath2 name) defv c.
End Getters.

(** ** ConfigDB

    A directory of one file per key; an absent file and an empty one read alike. *)

Section ConfigDB.
Context (gCacheDir app_name : list Z).

Definition fileName (shared : bool) (k : list Z) : list Z :=
  if shared then gCacheDir ++ lit "/config." ++ k
  else gCacheDir ++ lit "/config." ++ app_name ++ lit "." ++ k.

Definition db_val (files : str_map (list Z)) (shared : bool) (key : list Z) : list Z :=
  default [] (map_find str_lt (fileName shared key) files).

Definition db_set (files : str_map (list Z)) (shared : bool) (k v : list Z) : str_map (list Z) :=
  match v with
  | [] => map_erase str_lt (fileName shared k) files
  | _ => map_assign (fileName shared k) v files
  end.

Definition db_get_string (files : str_map (list Z)) (shared : bool) (name defv : list Z) : list Z :=
  match db_val files shared name with [] => defv | v => v end.

Definition db_get_uint64_t (files : str_map (list Z)) (shared : bool) (name : list Z) (defv : Z) : Z :=
  match db_val files shared name with [] => defv | v => cast U64 (strtol10 v) end.

Context (inet_pton6 : list Z -> option (list Z)).
Context (getAddrInfo : list Z -> res (list (list Z) * list (list Z))) (inet_addr : list Z -> Z).

Definition db_get_tcpaddr (files : str_map (list Z)) (shared : bool) (name defv : list Z) : res msockaddr_in :=
  init inet_pton6 getAddrInfo inet_addr (db_get_string files shared name defv).
End ConfigDB.

(** ** What a text of sections loads as *)

(** The writer's side of the format: sections of [key=value] lines. *)
Definition config_line (kv : list Z * list Z) : list Z := kv.1 ++ 61 :: kv.2.
Definition config_lines (sec : list Z * list (list Z * list Z)) : list (list Z) :=
  (37 :: sec.1) :: (config_line <$> sec.2).
Definition config_text (secs : list (list Z * list (list Z * list Z))) : list Z :=
  join [10] (mjoin (config_lines <$> secs)).

Definition config_key (section k : list Z) : list Z := section ++ 95 :: k.
Definition config_entries (secs : list (list Z * list (list Z * list Z))) : list (list Z * list Z) :=
  mjoin ((fun sec => (fun kv => (config_key sec.1 kv.1, kv.2)) <$> sec.2) <$> secs).

Definition no_newline (s : list Z) : Prop := Forall (fun x => x ∉ [13; 10]) s.

(** A key that the parser does not take for a comment, a section or a space. *)
Definition key_ok (k : list Z) : Prop :=
  no_newline k /\ (61 ∉ k)
  /\ match k with [] => False | c :: _ => isspace c = false /\ c <> 35 /\ c <> 37 end.
Definition sec_ok (sec : list Z * list (list Z * list Z)) : Prop :=
  sec.1 <> [] /\ no_newline sec.1 /\ Forall (fun kv => key_ok kv.1 /\ no_newline kv.2) sec.2.

Lemma split_at_first c k v : c ∉ k -> split_at c (k ++ c :: v) = Some (k, v).
Proof.
  induction k as [|x k IH]; cbn [app split_at]; intros H.
  - by rewrite Z.eqb_refl.
  - apply not_elem_of_cons in H as [H1 H2]. destruct (Z.eqb_spec x c); [congruence|]. by rewrite IH.
Qed.

Lemma load_key section m kv :
  section <> [] -> key_ok kv.1 ->
  load_line (section, m) (config_line kv) = Ok (section, map_assign (config_key section kv.1) kv.2 m).
Proof.
  destruct kv as [k v]. cbn [fst snd]. intros Hsec (_ & H61 & Hk). destruct k as [|c k]; [done|]. destruct Hk as (H1 & H2 & H3).
  unfold load_line, config_line. cbn [fst snd app forallb skip_space]. rewrite H1. cbn [andb].
  rewrite !bool_decide_eq_false_2 by (cbn; congruence).
  rewrite app_comm_cons, split_at_first by done. unfold config_key. by destruct section.
Qed.

Lemma load_section section m sec : load_line (section, m) (37 :: sec) = Ok (sec, m).
Proof. reflexivity. Qed.

Lemma load_keys section m kvs :
  section <> [] -> Forall (fun kv => key_ok kv.1 /\ no_newline kv.2) kvs ->
  foldM load_line (section, m) (config_line <$> kvs)
  = Ok (section, fold_left (fun acc kv => map_assign kv.1 kv.2 acc)
                   ((fun kv => (config_key section kv.1, kv.2)) <$> kvs) m).
Proof.
  intros Hs H. revert m. induction H as [|kv kvs [Hk _] H IH]; intros m; [done|].
  rewrite !fmap_cons. cbn [foldM fold_left fst snd]. rewrite load_key by done. by rewrite res_bind_ok, IH.
Qed.

Lemma load_sections secs section m :
  Forall sec_ok secs ->
  exists section', foldM load_line (section, m) (mjoin (config_lines <$> secs))
  = Ok (section', fold_left (fun acc kv => map_assign kv.1 kv.2 acc) (config_entries secs) m).
Proof.
  intros H. revert section m. induction H as [|sec secs (H1 & H2 & H3) H IH]; intros section m; [by exists section|].
  rewrite join_cons. unfold config_lines at 1. rewrite <- app_comm_cons. cbn [foldM].
  rewrite load_section, res_bind_ok, foldM_app, load_keys, res_bind_ok by done.
  match goal with |- context [foldM _ (_, ?m') _] => destruct (IH sec.1 m') as [s' E] end.
  exists s'. refine (eq_trans E _). unfold config_entries. by rewrite join_cons, fold_left_app.
Qed.

Lemma lines_ok secs : Forall sec_ok secs -> Forall (piece_ok [13; 10]) (mjoin (config_lines <$> secs)).
Proof.
  induction 1 as [|sec secs (H1 & H2 & H3) H IH]; [constructor|]. rewrite join_cons. apply Forall_app. split; [|done].
  constructor.
  - split; [done|]. constructor; [by rewrite !not_elem_of_cons; repeat split; try lia; apply not_elem_of_nil | done].
  - apply Forall_fmap. eapply Forall_impl; [exact H3|]. intros [k v] [(Hk & _ & Hne) Hv]. split.
    + by destruct k.
    + apply Forall_app. split; [done|]. constructor; [by rewrite !not_elem_of_cons; repeat split; try lia; apply not_elem_of_nil | done].
Qed.

Lemma load_config_text secs :
  Forall sec_ok secs ->
  loadStringMapFromBuffer (config_text secs) [13; 10]
  = Ok (fold_left (fun acc kv => map_assign kv.1 kv.2 acc) (config_entries secs) []).
Proof.
  intros H. unfold loadStringMapFromBuffer, config_text.
  rewrite splitString_join by (by (repeat constructor) || by apply lines_ok).
  destruct (load_sections secs [] [] H) as [s E]. refine (eq_trans (f_equal (fun r => r ≫= _) E) _). reflexivity.
Qed.

(** ** Reading it back *)

Lemma fold_insert_find {V W} (f : V -> W) (es : list (list Z * V)) k v pre post m :
  es = pre ++ (k, v) :: post -> k ∉ post.*1 -> map_sorted str_lt m ->
  map_find str_lt k (fold_left (fun acc kv => map_assign kv.1 (f kv.2) acc) es m) = Some (f v).
Proof.
  intros -> Hk. rewrite fold_left_app. cbn [fold_left fst snd]. intros Hm.
  assert (forall l m, map_sorted str_lt m ->
    map_sorted str_lt (fold_left (fun acc kv => map_assign kv.1 (f kv.2) acc) l m)) as Hsort.
  { induction l as [|kv l IH]; intros m' Hm'; [done|]. cbn [fold_left]. by apply IH, map_assign_sorted. }
  assert (forall l m, map_sorted str_lt m -> k ∉ l.*1 ->
    map_find str_lt k (fold_left (fun acc kv => map_assign kv.1 (f kv.2) acc) l m) = map_find str_lt k m) as Hfind.
  { induction l as [|kv l IH]; intros m' Hm' Hl; [done|]. rewrite fmap_cons in Hl.
    apply not_elem_of_cons in Hl as [H1 H2]. cbn [fold_left].
    rewrite IH by (done || by apply map_assign_sorted). by apply map_find_assign_ne. }
  rewrite Hfind by (done || by apply map_assign_sorted, Hsort).
  by apply map_find_assign_eq, Hsort.
Qed.

Lemma map_find_split {V} k (v : V) m :
  map_sorted str_lt m -> map_find str_lt k m = Some v ->
  exists pre post, m = pre ++ (k, v) :: post /\ k ∉ post.*1.
Proof.
  induction m as [|[k' v'] m IH]; cbn [map_sorted map_find]; intros Hs Hf; [done|]. destruct Hs as [Hlt Hs].
  destruct (str_lt k' k) eqn:E1.
  - destruct (IH Hs Hf) as (pre & post & -> & Hp). by exists ((k', v') :: pre), post.
  - destruct (str_lt k k') eqn:E2; [done|]. injection Hf as ->.
    pose proof (lt_total (lt := str_lt) _ _ E1 E2) as ->. exists [], m. split; [done|].
    intros ([k2 v2] & -> & Hin)%list_elem_of_fmap. rewrite Forall_forall in Hlt. specialize (Hlt _ Hin). cbn in Hlt.
    by rewrite lt_irrefl in Hlt.
Qed.

Lemma fold_assign_sorted {V W} (f : V -> W) (es : list (list Z * V)) m :
  map_sorted str_lt m ->
  map_sorted str_lt (fold_left (fun acc kv => map_assign kv.1 (f kv.2) acc) es m).
Proof. revert m. induction es as [|kv es IH]; intros m Hm; [done|]. by apply IH, map_assign_sorted. Qed.

(** The last line for a key is what the object holds. *)
Lemma new_ConfigObj_find fn secs key v pre post :
  Forall sec_ok secs -> config_entries secs = pre ++ (key, v) :: post -> key ∉ post.*1 ->
  exists c, new_ConfigObj fn (config_text secs) = Ok c /\ m_prefixes c = []
            /\ map_sorted str_lt (m_container c) /\ map_find str_lt key (m_container c) = Some (v, false).
Proof.
  intros Hs He Hk. unfold new_ConfigObj, load_from_buffer. rewrite load_config_text by done. rewrite res_bind_ok.
  eexists. split; [reflexivity|]. split; [done|]. cbn [merge_entries m_container set_container].
  set (m := fold_left (fun acc kv => map_assign kv.1 kv.2 acc) (config_entries secs) []).
  assert (map_sorted str_lt m) as Hm by (apply (fold_assign_sorted id); done).
  assert (map_find str_lt key m = Some v) as Hf by exact (fold_insert_find id _ key v pre post [] He Hk I).
  split; [by apply (fold_assign_sorted (fun x => (x, false)))|].
  destruct (map_find_split key v m Hm Hf) as (pre' & post' & E & Hp).
  exact (fold_insert_find (fun x => (x, false)) m key v pre' post' [] E Hp I).
Qed.

Lemma getPath_push self other p c name :
  map_sorted Z.ltb (m_prefixes c) -> other <> self ->
  m_getPath other (push_prefix self p c) name = m_getPath other c name.
Proof.
  intros Hs Hne. unfold m_getPath, push_prefix. cbn [m_prefixes set_prefixes]. by rewrite (map_find_update_ne Z.ltb).
Qed.



(** A list of addresses written with a blank after the comma: [get_tcpaddr2]
    gives both addresses, while [get_tcpaddr], which keeps the empty piece between
    the comma and the blank, throws [invalid case] on it. *)
Lemma address_list_with_blank getenv pton gai inet_addr self name c a b x y :
  piece_ok (lit ";, ") a -> piece_ok (lit ";, ") b -> no_nul a -> no_nul b ->
  strupper a <> lit "NONE" -> strupper b <> lit "NONE" ->
  init pton gai inet_addr a = Ok x -> init pton gai inet_addr b = Ok y ->
  getenv (c_str (m_getPath self c name)) = Some (a ++ lit ", " ++ b) -> getenv (c_str name) = Some (a ++ lit ", " ++ b) ->
  fst (get_tcpaddr getenv pton gai inet_addr self name [] c) = Throw (CommonError "invalid case")
  /\ fst (get_tcpaddr2 getenv pton gai inet_addr name [] c) = Ok (set_insert msa_lt y [x]).
Proof.
  intros [Ha1 Ha2] [Hb1 Hb2] Na Nb Ua Ub Hx Hy E1 E2.
  assert (split_any (lit ";, ") [] (a ++ lit ", " ++ b) = [a; []; b]) as Esplit.
  { change (lit ", " ++ b) with (44 :: 32 :: b). rewrite split_any_app by (done || by repeat constructor).
    cbn [app]. f_equal. change (32 :: b) with ([] ++ 32 :: b). rewrite split_any_app by (apply Forall_nil_2 || by repeat constructor).
    by rewrite split_any_all. }
  assert (resplit (lit ";, ") (a ++ lit ", " ++ b) = [a; []; b]) as Ere.
  { unfold resplit. rewrite Esplit. cbn [rev app]. destruct b; [congruence|done]. }
  unfold get_tcpaddr, get_tcpaddr2, find_param. rewrite E1. cbn [source_text fst]. rewrite Ere. split.
  - unfold parse_addrs. cbn [foldM]. rewrite (bool_decide_eq_false_2 (strupper a = _)) by done.
    by rewrite Hx, !res_bind_ok.
  - unfold m_getPath2. rewrite E2. cbn [source_text fst]. rewrite c_str_id by (apply Forall_app; split; [done|]; by repeat constructor).
    unfold splitString. destruct (a ++ lit ", " ++ b) eqn:E; [destruct a; [congruence|done]|]. rewrite Ere.
    assert (List.filter nonempty [a; []; b] = [a; b]) as -> by (destruct a, b; [congruence..|done]).
    unfold parse_addrs. cbn [foldM].
    rewrite (bool_decide_eq_false_2 (strupper a = _)), (bool_decide_eq_false_2 (strupper b = _)) by done.
    by rewrite Hx, !res_bind_ok, Hy.
Qed.

Lemma address_list_with_blank_witness :
  let gai := fun h : list Z => Ok ([h], []) in
  let env := fun _ : list Z => Some (lit "h:1, g:2") in
  fst (get_tcpaddr env hex_pton gai (fun _ => 7) 1 (lit "n") [] (mkConfigObj [] [] [])) = Throw (CommonError "invalid case")
  /\ fst (get_tcpaddr2 env hex_pton gai (fun _ => 7) (lit "n") [] (mkConfigObj [] [] []))
     = Ok (set_insert msa_lt (Sa4 (htons 2) 7) [Sa4 (htons 1) 7]).
Proof.
  intros gai env.
  apply (address_list_with_blank env hex_pton gai (fun _ => 7) 1 (lit "n") (mkConfigObj [] [] []) (lit "h:1") (lit "g:2"));
    try reflexivity; try (by vm_compute);
    try (split; [done|]); unfold no_nul; repeat constructor; by apply (bool_decide_unpack _); vm_compute.
Defined.
