(* ===== verification/UriParser.v ===== *)
(** The parser of request targets: corelib/httpUrlParser.h.

    The [std::string_view]s are their texts; the caller keeps the buffer alive. *)

From Stdlib Require Import ZArith Lia.
From stdpp Require Import base strings numbers list.
From S2P Require Import Prelude StdMap CLib Text Config.
Open Scope Z_scope.

Record URIParser : Type := mkURIParser {
  full_uri_ : list Z;
  path_ : list Z;
  query_ : list Z;
  fragment_ : list Z;
  params_ : list (list Z * list Z);       (* std::map<std::string_view, std::string_view> *)
}.

Definition URIParser_new : URIParser := mkURIParser [] [] [] [] [].

(** [s.find(c)]: the text before it and after it. *)
Definition find_c (c : Z) : list Z -> option (list Z * list Z) := find_sub [c].

(** One pair of the query. *)
Definition add_param (pr : list Z) (m : list (list Z * list Z)) : list (list Z * list Z) :=
  match pr with
  | [] => m
  | _ => match find_c 61 pr with
         | Some (k, v) => map_assign k v m
         | None => map_assign pr [] m
         end
  end.

(** The loop from [start] on; each round takes a character or more. *)
Fixpoint parse_query_params (fuel : nat) (query : list Z) (m : list (list Z * list Z)) : res (list (list Z * list Z)) :=
  match query with
  | [] => Ok m
  | _ =>
      match fuel with
      | O => Throw OutOfFuel
      | S f =>
          match find_c 38 query with
          | Some (pr, rest) => parse_query_params f rest (add_param pr m)
          | None => Ok (add_param query m)
          end
      end
  end.

Definition parse_path_components (p : URIParser) (path : list Z) : res URIParser :=
  p ← match find_c 63 path with
      | Some (pa, q) =>
          let '(q, fr) := match find_c 35 q with Some (q', f) => (q', f) | None => (q, fragment_ p) end in
          m ← parse_query_params (length q) q (params_ p);
          Ok (mkURIParser (full_uri_ p) pa q fr m)
      | None =>
          match find_c 35 path with
          | Some (pa, f) => Ok (mkURIParser (full_uri_ p) pa (query_ p) f (params_ p))
          | None => Ok (mkURIParser (full_uri_ p) path (query_ p) (fragment_ p) (params_ p))
          end
      end;
  Ok (match path_ p with [] => mkURIParser (full_uri_ p) [47] (query_ p) (fragment_ p) (params_ p) | _ => p end).

(** [parse]: query and fragment of an earlier call stay where none is found. *)
Definition parse (p : URIParser) (uri : list Z) : res URIParser :=
  let p := mkURIParser uri (path_ p) (query_ p) (fragment_ p) [] in
  match uri with
  | [] => Ok (mkURIParser uri [47] (query_ p) (fragment_ p) [])
  | _ =>
      match find_sub (lit "://") uri with
      | Some (_, remaining) =>
          match find_c 47 remaining with
          | Some (_, after) => parse_path_components p (47 :: after)
          | None => Ok (mkURIParser uri [47] (query_ p) (fragment_ p) [])
          end
      | None => parse_path_components p uri
      end
  end.

Definition geb_params (p : URIParser) (key default_val : list Z) : list Z :=
  match find (fun kv => bool_decide (kv.1 = key)) (params_ p) with Some kv => kv.2 | None => default_val end.
Definition has_param (p : URIParser) (key : list Z) : bool := existsb (fun kv => bool_decide (kv.1 = key)) (params_ p).
Definition param_count (p : URIParser) : nat := length (params_ p).

(** ** Searching *)

Lemma find_c_first c a b : c ∉ a -> find_c c (a ++ c :: b) = Some (a, b).
Proof.
  unfold find_c. induction a as [|x a IH]; intros Ha; cbn [app find_sub].
  - by rewrite bool_decide_true.
  - apply not_elem_of_cons in Ha as [Hx Ha]. rewrite bool_decide_false by (cbn; congruence). by rewrite IH.
Qed.

Lemma find_c_none c a : c ∉ a -> find_c c a = None.
Proof.
  unfold find_c. induction a as [|x a IH]; intros Ha; cbn [find_sub]; [by rewrite bool_decide_false|].
  apply not_elem_of_cons in Ha as [Hx Ha]. rewrite bool_decide_false by (cbn; congruence). by rewrite IH.
Qed.

Lemma find_c_shorter c s u v : find_c c s = Some (u, v) -> (length v < length s)%nat.
Proof.
  unfold find_c. revert u. induction s as [|x s IH]; intros u; cbn [find_sub].
  - case_bool_decide; [done|]. done.
  - case_bool_decide; [intros [= <- <-]; rewrite length_drop; cbn; lia|]. destruct (find_sub [c] s) as [[u' v']|]; [|done].
    intros [= <- <-]. specialize (IH _ eq_refl). cbn. lia.
Qed.

(** ** Properties *)

(** The fuel, the length of the query, is enough. *)
Lemma query_params_total f q m : (length q <= f)%nat -> exists m', parse_query_params f q m = Ok m'.
Proof.
  revert q m. induction f as [|f IH]; intros [|c q] m Hf; cbn in Hf; try lia; [by eexists|by eexists|]. cbn [parse_query_params].
  destruct (find_c 38 (c :: q)) as [[pr rest]|] eqn:E; [|by eexists]. apply find_c_shorter in E. apply IH. cbn in E. lia.
Qed.

(** [parse] always returns. *)
Lemma parse_total p uri : exists p', parse p uri = Ok p'.
Proof.
  assert (forall p s, exists p', parse_path_components p s = Ok p') as H.
  { intros p0 s. unfold parse_path_components. destruct (find_c 63 s) as [[pa q]|].
    - destruct (match find_c 35 q with Some _ => _ | None => _ end) as [q' fr].
      destruct (query_params_total (length q') q' (params_ p0)) as [m ->]; [lia|]. by eexists.
    - destruct (find_c 35 s) as [[pa f]|]; by eexists. }
  unfold parse. destruct uri as [|c uri]; [by eexists|]. destruct (find_sub _ _) as [[u v]|]; [|apply H].
  destruct (find_c 47 v) as [[h a]|]; [apply H|by eexists].
Qed.

Definition pair_text (kv : list Z * list Z) : list Z := kv.1 ++ 61 :: kv.2.
Definition pair_ok (kv : list Z * list Z) : Prop := (38 ∉ kv.1) /\ (61 ∉ kv.1) /\ (38 ∉ kv.2).

Definition store_pairs (kvs : list (list Z * list Z)) (m : list (list Z * list Z)) : list (list Z * list Z) :=
  fold_left (fun m kv => map_assign kv.1 kv.2 m) kvs m.

Lemma add_param_pair kv m : pair_ok kv -> add_param (pair_text kv) m = map_assign kv.1 kv.2 m.
Proof.
  destruct kv as [k v]. intros (_ & Hk & _). unfold add_param, pair_text. cbn [fst snd] in *. rewrite find_c_first by done. by destruct k.
Qed.

Lemma query_params_join f kvs : forall m,
  Forall pair_ok kvs -> (length (join [38%Z] (pair_text <$> kvs)) <= f)%nat ->
  parse_query_params f (join [38] (pair_text <$> kvs)) m = Ok (store_pairs kvs m).
Proof.
  revert f. induction kvs as [|kv kvs IH]; intros f m Hk Hf; [by destruct f|]. inversion_clear Hk as [|? ? Hkv Hkvs].
  assert (38 ∉ pair_text kv) as Hn.
  { unfold pair_text. destruct Hkv as (H1 & _ & H2). intros [H|[H|H]%elem_of_cons]%elem_of_app; done. }
  assert (pair_text kv <> []) as Hne by (unfold pair_text; by destruct kv.1). destruct kvs as [|kv' kvs].
  - cbn [fmap list_fmap join] in *. destruct f as [|f]; [destruct (pair_text kv); cbn in *; [done|lia]|].
    cbn [parse_query_params]. rewrite find_c_none by done. rewrite add_param_pair by done. by destruct (pair_text kv).
  - change (join [38] (pair_text <$> kv :: kv' :: kvs)) with (pair_text kv ++ 38 :: join [38] (pair_text <$> kv' :: kvs)) in *.
    rewrite length_app in Hf. cbn [length] in Hf. destruct f as [|f]; [lia|]. cbn [parse_query_params]. rewrite find_c_first by done.
    rewrite add_param_pair, IH by (done || lia). by destruct (pair_text kv).
Qed.

(** The values a later pair with the same key has replaced are gone. *)
Lemma store_pairs_find kvs : forall m k,
  map_sorted str_lt m ->
  map_find str_lt k (store_pairs kvs m)
  = match list.last (filter (fun kv => kv.1 = k) kvs) with Some kv => Some kv.2 | None => map_find str_lt k m end.
Proof.
  induction kvs as [|[k' v'] kvs IH]; intros m k Hm; [done|]. cbn [store_pairs fold_left fst snd].
  fold (store_pairs kvs (map_assign k' v' m)). rewrite IH by (by apply map_assign_sorted). rewrite filter_cons. cbn [fst].
  destruct (decide (k' = k)) as [-> |Hne].
  - rewrite map_find_assign_eq by done. destruct (list.last (filter _ kvs)) as [kv|] eqn:E.
    + rewrite last_cons, E. done.
    + by rewrite last_cons, E.
  - rewrite map_find_assign_ne by done. done.
Qed.

(** The target [path?k=v&...#fragment]. *)
Definition target (path : list Z) (kvs : list (list Z * list Z)) (fragment : list Z) : list Z :=
  path ++ 63 :: join [38] (pair_text <$> kvs) ++ 35 :: fragment.

Definition clean_pair (kv : list Z * list Z) : Prop := pair_ok kv /\ (35 ∉ kv.1) /\ (35 ∉ kv.2).

Lemma join_no_hash kvs : Forall clean_pair kvs -> 35 ∉ join [38] (pair_text <$> kvs).
Proof.
  induction 1 as [|kv kvs (_ & H1 & H2) Hk IH]; [by intros ?%elem_of_nil|].
  assert (35 ∉ pair_text kv) as Hp by (unfold pair_text; intros [H|[H|H]%elem_of_cons]%elem_of_app; done).
  destruct kvs as [|kv' kvs]; [done|].
  change (join [38] (pair_text <$> kv :: kv' :: kvs)) with (pair_text kv ++ 38 :: join [38] (pair_text <$> kv' :: kvs)).
  intros [H|[H|H]%elem_of_cons]%elem_of_app; done.
Qed.

(** a request target is taken apart as it was put together.  For a path, pairs
    without the delimiters in them and a fragment, with no "://" anywhere, the parser
    finds the path ("/" for an empty one), the query and the fragment, and the value
    of each key is that of its last pair. *)
Lemma uri_target_parsed path kvs fragment :
  63 ∉ path -> Forall clean_pair kvs -> find_sub (lit "://") (target path kvs fragment) = None ->
  exists m, parse URIParser_new (target path kvs fragment)
      = Ok (mkURIParser (target path kvs fragment) (match path with [] => [47] | _ => path end) (join [38] (pair_text <$> kvs)) fragment m)
    /\ forall k, map_find str_lt k m = snd <$> list.last (filter (fun kv => kv.1 = k) kvs).
Proof.
  intros Hp Hk Hs. exists (store_pairs kvs []). split.
  - unfold parse. rewrite Hs. destruct (target path kvs fragment) as [|c t] eqn:E; [by destruct path|]. rewrite <-E.
    unfold parse_path_components, target at 1. rewrite find_c_first by done. rewrite find_c_first by (by apply join_no_hash).
    rewrite query_params_join by (lia || (eapply Forall_impl; [exact Hk|by intros ? []])). rewrite !res_bind_ok. cbn. by destruct path.
  - intros k. rewrite store_pairs_find by done. by destruct (list.last _).
Qed.

Lemma uri_target_parsed_witness :
  exists m, parse URIParser_new (lit "/a/b?x=1&y=2&x=3#top") = Ok (mkURIParser (lit "/a/b?x=1&y=2&x=3#top") (lit "/a/b") (lit "x=1&y=2&x=3") (lit "top") m)
    /\ map_find str_lt (lit "x") m = Some (lit "3").
Proof.
  destruct (uri_target_parsed (lit "/a/b") [(lit "x", lit "1"); (lit "y", lit "2"); (lit "x", lit "3")] (lit "top")) as (m & H & Hf).
  - apply (bool_decide_eq_true_1 _). by vm_compute.
  - unfold clean_pair, pair_ok. apply (bool_decide_eq_true_1 _). by vm_compute.
  - by vm_compute.
  - exists m. split; [exact H|]. rewrite Hf. by vm_compute.
Defined.

(** an address in the query replaces the path.  The parser looks for "://" in the
    whole target: when the first one is inside the query, what precedes it (the path
    that was asked for, and the query) is dropped as a scheme, and the path found is
    what follows the host in the query's value. *)
Lemma uri_in_query_replaces_path path q host after :
  63 ∉ path -> find_sub (lit "://") (path ++ 63 :: q ++ lit "://" ++ host ++ 47 :: after) = Some (path ++ 63 :: q, host ++ 47 :: after) ->
  47 ∉ host -> 63 ∉ after -> 35 ∉ after ->
  parse URIParser_new (path ++ 63 :: q ++ lit "://" ++ host ++ 47 :: after)
  = Ok (mkURIParser (path ++ 63 :: q ++ lit "://" ++ host ++ 47 :: after) (47 :: after) [] [] []).
Proof.
  intros Hp Hs Hh Ha Hb. unfold parse. rewrite Hs, find_c_first by done. set (uri := path ++ _) in *.
  destruct uri as [|c t] eqn:E; [unfold uri in *; by destruct path|]. unfold parse_path_components. rewrite !find_c_none; [done|..].
  all: intros [H|H]%elem_of_cons; done.
Qed.

Lemma uri_in_query_replaces_path_witness :
  parse URIParser_new (lit "/login?next=http://h/admin") = Ok (mkURIParser (lit "/login?next=http://h/admin") (lit "/admin") [] [] []).
Proof.
  apply (uri_in_query_replaces_path (lit "/login") (lit "next=http") (lit "h") (lit "admin")); [|by vm_compute|..].
  all: apply (bool_decide_eq_true_1 _); by vm_compute.
Defined.

(** An object that is used twice keeps the query and the fragment of the first use. *)
Lemma parse_twice_keeps_query :
  (p ← parse URIParser_new (lit "/a?x=1#f"); p ← parse p (lit "/b"); Ok (path_ p, query_ p, fragment_ p, params_ p)) = Ok (lit "/b", lit "x=1", lit "f", []).
Proof. by vm_compute. Qed.
