(* ===== verification/Support.v ===== *)
(** Small tools: points in time (corelib/mtimespec.cpp), cookies
    (corelib/http_parse_cookie.h), big numbers on the wire (corelib/bigint.h, OpenSSL's
    BIGNUM being a parameter) and the name of the program (main/megatron.cpp). *)

From Stdlib Require Import ZArith Lia.
From stdpp Require Import base strings numbers list.
From S2P Require Import Prelude StdMap IoBuffer Codec Route CLib Sockaddr Text Config UriParser.
Open Scope Z_scope.

(** ** Points in time *)

Definition nano : Z := 1000000000.

Record mtimespec : Type := mkTime { tv_sec : Z; tv_nsec : Z }.

(** Signed arithmetic in 64 bits. *)
Definition long (z : Z) : res Z := if in_rangeb I64 z then Ok z else Throw (UB "signed overflow").

Definition time_lt (a b : mtimespec) : res bool :=
  if nano <? tv_nsec a then Throw (CommonError "if(a.tv_nsec>nano) ")
  else if nano <? tv_nsec b then Throw (CommonError "if(b.tv_nsec>nano) ")
  else Ok (if negb (tv_sec a =? tv_sec b) then tv_sec a <? tv_sec b
           else if negb (tv_nsec a =? tv_nsec b) then tv_nsec a <? tv_nsec b else false).

Definition time_le (a b : mtimespec) : res bool :=
  if nano <? tv_nsec a then Throw (CommonError "if(a.tv_nsec>nano) ")
  else if nano <? tv_nsec b then Throw (CommonError "if(b.tv_nsec>nano) ")
  else Ok (if tv_sec a <=? tv_sec b then true
           else if tv_sec a =? tv_sec b then tv_nsec a <=? tv_nsec b else false).

Definition time_add (a b : mtimespec) : res mtimespec :=
  s ← long (tv_sec a + tv_sec b);
  n ← long (tv_nsec a + tv_nsec b);
  s' ← long (s + Z.quot n nano);
  Ok (mkTime s' (Z.rem n nano)).

Definition time_sub (a b : mtimespec) : res mtimespec :=
  s ← long (tv_sec a - tv_sec b);
  n ← long (tv_nsec a - tv_nsec b);
  if n <? 0 then s' ← long (s - 1); n' ← long (n + nano); Ok (mkTime s' n') else Ok (mkTime s n).

(** *** Properties *)

Definition nanoseconds (a : mtimespec) : Z := tv_sec a * nano + tv_nsec a.
Definition normal_time (a : mtimespec) : Prop := 0 <= tv_nsec a < nano /\ Z.abs (tv_sec a) < 2 ^ 61.

Lemma long_ok z : - 2 ^ 63 <= z < 2 ^ 63 -> long z = Ok z.
Proof. intros H. unfold long. by rewrite (proj2 (in_rangeb_spec I64 z)) by (cbv [in_range is_signed width]; lia). Qed.

(** arithmetic of points in time is exact: on normal values the sum and the difference
    are the normal values of the sum and the difference in nanoseconds, [<] is the
    order of the nanoseconds, and subtraction undoes addition. *)
Lemma time_exact a b :
  normal_time a -> normal_time b ->
  (exists r, time_add a b = Ok r /\ 0 <= tv_nsec r < nano /\ nanoseconds r = nanoseconds a + nanoseconds b /\ time_sub r b = Ok a)
  /\ (exists r, time_sub a b = Ok r /\ 0 <= tv_nsec r < nano /\ nanoseconds r = nanoseconds a - nanoseconds b)
  /\ time_lt a b = Ok (nanoseconds a <? nanoseconds b).
Proof.
  destruct a as [s n], b as [t m]. intros [Hn Hs] [Hm Ht]. unfold time_add, time_sub, time_lt, nanoseconds. cbn [tv_sec tv_nsec] in *.
  assert (nano = 1000000000) as Hnano by done. split_and!.
  - rewrite !long_ok, !res_bind_ok by lia. rewrite Z.quot_div_nonneg, Z.rem_mod_nonneg by lia.
    pose proof (Z.div_mod (n + m) nano ltac:(lia)) as E. pose proof (Z.mod_pos_bound (n + m) nano ltac:(lia)) as B.
    assert (0 <= (n + m) / nano <= 1) as D by nia. rewrite long_ok, res_bind_ok by lia. eexists. split_and!; [done|cbn; lia..|].
    cbn [tv_sec tv_nsec]. rewrite !long_ok, !res_bind_ok by lia. destruct (Z.ltb_spec ((n + m) mod nano - m) 0).
    + assert ((n + m) / nano = 1) as -> by nia. rewrite !long_ok, !res_bind_ok by lia. do 2 f_equal; lia.
    + assert ((n + m) / nano = 0) as D0 by nia. rewrite D0 in *. do 2 f_equal; lia.
  - rewrite !long_ok, !res_bind_ok by lia. destruct (Z.ltb_spec (n - m) 0).
    + rewrite !long_ok, !res_bind_ok by lia. eexists. split_and!; [done|cbn; lia..].
    + eexists. split_and!; [done|cbn; lia..].
  - destruct (Z.ltb_spec nano n); [lia|]. destruct (Z.ltb_spec nano m); [lia|]. f_equal.
    destruct (Z.eqb_spec s t) as [-> |Hne]; cbn [negb].
    + destruct (Z.eqb_spec n m) as [-> |Hne]; cbn [negb]; [by rewrite Z.ltb_irrefl|]. destruct (Z.ltb_spec n m), (Z.ltb_spec (t * nano + n) (t * nano + m)); lia.
    + destruct (Z.ltb_spec s t), (Z.ltb_spec (s * nano + n) (t * nano + m)); nia.
Qed.

Lemma time_exact_witness : exists r, time_add (mkTime 1 999999999) (mkTime 2 2) = Ok r /\ nanoseconds r = 4000000001.
Proof.
  destruct (time_exact (mkTime 1 999999999) (mkTime 2 2)) as [(r & H & _ & E & _) _]; [split; cbn; unfold nano; lia..|].
  exists r. split; [exact H|]. rewrite E. reflexivity.
Defined.

(** [<=] compares the seconds alone when they are equal. *)
Lemma time_le_wrong : time_le (mkTime 1 5) (mkTime 1 3) = Ok true /\ time_lt (mkTime 1 3) (mkTime 1 5) = Ok true.
Proof. done. Qed.

(** ** Cookies *)

Definition blank (c : Z) : bool := (c =? 32) || (c =? 9).

Fixpoint skip_blank (s : list Z) : list Z :=
  match s with [] => [] | c :: s' => if blank c then skip_blank s' else s end.

Definition trim_blank (s : list Z) : list Z := rev (skip_blank (rev (skip_blank s))).

Definition add_cookie (piece : list Z) (m : str_map (list Z)) : str_map (list Z) :=
  match find_c 61 (trim_blank piece) with
  | Some (k, v) => map_assign (trim_blank k) (trim_blank v) m
  | None => m
  end.

(** The [std::unordered_map] is searched by key only. *)
Fixpoint cookie_loop (fuel : nat) (cookie : list Z) (m : str_map (list Z)) : res (str_map (list Z)) :=
  match cookie with
  | [] => Ok m
  | _ => match fuel with
         | O => Throw OutOfFuel
         | S f => match find_c 59 cookie with
                  | Some (piece, rest) => cookie_loop f rest (add_cookie piece m)
                  | None => Ok (add_cookie cookie m)
                  end
         end
  end.

Definition parse_cookie (cookie : list Z) : res (str_map (list Z)) := cookie_loop (length cookie) cookie [].

(** *** Properties *)

(** A text that does not begin or end with a blank. *)
Definition trimmed (s : list Z) : Prop := skip_blank s = s /\ skip_blank (rev s) = rev s.

Definition cookie_ok (kv : list Z * list Z) : Prop :=
  trimmed kv.1 /\ trimmed kv.2 /\ kv.1 <> [] /\ kv.2 <> [] /\ (61 ∉ kv.1) /\ (59 ∉ kv.1) /\ (59 ∉ kv.2).

Lemma trim_trimmed s : trimmed s -> trim_blank s = s.
Proof. intros [H1 H2]. unfold trim_blank. by rewrite H1, H2, rev_involutive. Qed.

Lemma skip_blank_app s t : s <> [] -> skip_blank s = s -> skip_blank (s ++ t) = s ++ t.
Proof. destruct s as [|c s]; [done|]. intros _. cbn [skip_blank app]. destruct (blank c) eqn:E; [|done]. intros H. exfalso.
  assert (length (skip_blank s) <= length s)%nat as Hl by (clear; induction s as [|x s IH]; cbn [skip_blank length]; [lia|destruct (blank x); cbn [length]; lia]).
  rewrite H in Hl. cbn [length] in Hl. lia.
Qed.

Lemma trim_pair k v : trimmed k -> trimmed v -> k <> [] -> v <> [] -> trim_blank (k ++ 61 :: v) = k ++ 61 :: v.
Proof.
  intros [Hk _] [_ Hv] Hk0 Hv0. apply trim_trimmed. split; [by apply skip_blank_app|].
  rewrite rev_app_distr. cbn [rev]. rewrite <-!app_assoc. apply skip_blank_app; [|done]. intros H. by apply (f_equal (@rev Z)) in H; rewrite rev_involutive in H.
Qed.

Lemma trim_pieces s : trim_blank (32 :: s) = trim_blank s.
Proof. done. Qed.

Lemma add_cookie_pair kv m : cookie_ok kv -> add_cookie (pair_text kv) m = map_assign kv.1 kv.2 m.
Proof.
  intros (Hk & Hv & Hk0 & Hv0 & He & _). unfold add_cookie, pair_text. rewrite trim_pair by done. rewrite find_c_first by done. by rewrite !trim_trimmed.
Qed.

Lemma cookie_loop_join kvs : forall f m,
  Forall cookie_ok kvs -> (length (join [59; 32]%Z (pair_text <$> kvs)) <= f)%nat ->
  cookie_loop f (join [59; 32] (pair_text <$> kvs)) m = Ok (store_pairs kvs m)
  /\ (kvs <> [] -> cookie_loop (S f) (32 :: join [59; 32] (pair_text <$> kvs)) m = Ok (store_pairs kvs m)).
Proof.
  induction kvs as [|kv kvs IH]; intros f m Hk Hf; [by destruct f|]. apply Forall_cons in Hk as [Hkv Hkvs].
  assert (59 ∉ pair_text kv) as Hn.
  { unfold pair_text. destruct Hkv as (_ & _ & _ & _ & _ & H1 & H2). intros [H|[H|H]%elem_of_cons]%elem_of_app; done. }
  assert (pair_text kv <> []) as Hne by (unfold pair_text; by destruct kv.1).
  assert (59 ∉ 32 :: pair_text kv) as Hn' by (intros [H|H]%elem_of_cons; done).
  assert (add_cookie (32 :: pair_text kv) m = add_cookie (pair_text kv) m) as Ha by done.
  destruct kvs as [|kv' kvs].
  - cbn [fmap list_fmap join] in *. split; [|intros _].
    + destruct f as [|f]; [destruct (pair_text kv); cbn in *; [done|lia]|].
      cbn [cookie_loop]. rewrite find_c_none, add_cookie_pair by done. by destruct (pair_text kv).
    + cbn [cookie_loop]. rewrite find_c_none, Ha, add_cookie_pair by done. done.
  - change (join [59; 32] (pair_text <$> kv :: kv' :: kvs)) with (pair_text kv ++ 59 :: 32 :: join [59; 32] (pair_text <$> kv' :: kvs)) in *.
    rewrite length_app in Hf. cbn [length] in Hf. destruct f as [|f]; [lia|]. destruct f as [|f]; [lia|].
    assert (forall g, (f <= g)%nat -> cookie_loop (S g) (32 :: join [59; 32] (pair_text <$> kv' :: kvs)) (map_assign kv.1 kv.2 m) = Ok (store_pairs (kv :: kv' :: kvs) m)) as Hrest.
    { intros g Hg. apply IH; [done|lia|done]. }
    split; [|intros _].
    + transitivity (cookie_loop (S f) (32 :: join [59; 32] (pair_text <$> kv' :: kvs)) (add_cookie (pair_text kv) m)).
      { cbn [cookie_loop]. rewrite find_c_first by done. by destruct (pair_text kv). }
      rewrite add_cookie_pair by done. apply Hrest. lia.
    + transitivity (cookie_loop (S (S f)) (32 :: join [59; 32] (pair_text <$> kv' :: kvs)) (add_cookie (32 :: pair_text kv) m)).
      { cbn [cookie_loop]. change (32 :: pair_text kv ++ ?x) with ((32 :: pair_text kv) ++ x). rewrite find_c_first by done. done. }
      rewrite Ha, add_cookie_pair by done. apply Hrest. lia.
Qed.

(** a cookie header is read back.  For names and values without the separators and
    without blanks around them, the header [k=v; k=v] gives each name its last
    value. *)
Lemma cookies_parsed kvs :
  Forall cookie_ok kvs ->
  exists m, parse_cookie (join [59; 32] (pair_text <$> kvs)) = Ok m
    /\ forall k, map_find str_lt k m = snd <$> list.last (filter (fun kv => kv.1 = k) kvs).
Proof.
  intros Hk. exists (store_pairs kvs []). split; [by apply cookie_loop_join|]. intros k. rewrite store_pairs_find by done. by destruct (list.last _).
Qed.

Lemma cookies_parsed_witness : exists m, parse_cookie (lit "a=1; b=x y; a=2") = Ok m /\ map_find str_lt (lit "a") m = Some (lit "2").
Proof.
  destruct (cookies_parsed [(lit "a", lit "1"); (lit "b", lit "x y"); (lit "a", lit "2")]) as (m & H & F).
  - repeat constructor; cbn; try done; apply (bool_decide_eq_true_1 _); by vm_compute.
  - exists m. split; [exact H|]. rewrite F. by vm_compute.
Defined.

(** ** Big numbers on the wire

    [BN_bn2bin] gives the bytes of the absolute value, [BN_num_bytes] of them, and
    [BN_bin2bn] reads such bytes.  Both directions use an array on the stack, [stack]
    bytes of which are left. *)

Section BigInt.
Context (BN_num_bytes : Z -> Z) (BN_bn2bin : Z -> list Z) (BN_bin2bn : list Z -> Z) (stack : Z).

Definition bigint_pack (o : outBuffer) (z : Z) : outBuffer := out_pack (put_PN o (BN_num_bytes z)) (BN_bn2bin z).

Definition bigint_unpack (b : inBuffer) : res (Z * inBuffer) :=
  '(len, b1) ← get_PN b;
  if stack <? len then Throw (UB "array larger than the stack")
  else '(buf, b2) ← unpack_raw b1 len; Ok (BN_bin2bn buf, b2).

Definition bigint_codec : Codec Z := mkCodec bigint_pack bigint_unpack (fun z => 0 <= z /\ BN_num_bytes z <= stack /\ BN_num_bytes z < 2 ^ 64).

Context (num_bytes_bin : forall z, BN_num_bytes z = Z.of_nat (length (BN_bn2bin z))) (bin_abs : forall z, BN_bin2bn (BN_bn2bin z) = Z.abs z).

Lemma bigint_pack_app o z : container (bigint_pack o z) = container o ++ str_enc (BN_bn2bin z).
Proof. unfold bigint_pack, out_pack, str_enc. cbn [container]. by rewrite container_put_PN, <-app_assoc, num_bytes_bin. Qed.

(** What is read is the absolute value: the sign is not written. *)
Lemma bigint_unpack_abs z b tl :
  BN_num_bytes z <= stack -> BN_num_bytes z < 2 ^ 64 -> rest b = str_enc (BN_bn2bin z) ++ tl ->
  bigint_unpack b = Ok (Z.abs z, advance b (length (str_enc (BN_bn2bin z)))).
Proof.
  unfold str_enc, bigint_unpack. rewrite num_bytes_bin. intros Hs H64 Hr. rewrite <-app_assoc in Hr.
  rewrite (get_PN_enc b (Z.of_nat (length (BN_bn2bin z))) (BN_bn2bin z ++ tl)), res_bind_ok by (done || lia).
  destruct (Z.ltb_spec stack (Z.of_nat (length (BN_bn2bin z)))); [lia|]. unfold unpack_raw.
  assert (rest (advance b (length (pn_bytes (Z.of_nat (length (BN_bn2bin z)))))) = BN_bn2bin z ++ tl) as Hr' by (by rewrite rest_advance, Hr, drop_app_length).
  rewrite <-length_rest, Hr', length_app. destruct (Z.ltb_spec (Z.of_nat (length (BN_bn2bin z) + length tl)) (Z.of_nat (length (BN_bn2bin z)))); [lia|].
  by rewrite res_bind_ok, Nat2Z.id, take_app_length, bin_abs, advance_advance, length_app.
Qed.

#[export] Instance bigint_codec_laws : CodecLaws bigint_codec.
Proof.
  split.
  - intros o z. open_codec bigint_codec. by rewrite !bigint_pack_app.
  - intros z b tl (H0 & Hs & H64) Hr. open_codec bigint_codec. rewrite bigint_pack_app, app_nil_l in Hr |- *.
    rewrite (bigint_unpack_abs z b tl) by done. by rewrite Z.abs_eq.
Qed.
End BigInt.

(** ** The name of the program *)

(** [rfind]: what is before the last [c]. *)
Fixpoint before_last (c : Z) (s : list Z) : option (list Z) :=
  match s with
  | [] => None
  | x :: s' => match before_last c s' with
               | Some r => Some (x :: r)
               | None => if x =? c then Some [] else None
               end
  end.

(** Of [argv[0]]; without a slash the name stays empty. *)
Definition app_name_of (f : list Z) : list Z :=
  let n := default [] (after_last 47 f) in default n (before_last 46 n).

Lemma app_name_samples :
  app_name_of (lit "/usr/bin/server.bin") = lit "server" /\ app_name_of (lit "./server") = lit "server" /\ app_name_of (lit "server") = [].
Proof. by vm_compute. Qed.
