(* ===== verification/Neighbours.v ===== *)
(** The addresses of neighbours: corelib/neighbours.cpp, a set that is written to the
    configuration store (corelib/configDB.cpp) at every change and read back by the
    next process. *)

From Stdlib Require Import ZArith Lia Sorted.
From stdpp Require Import base strings numbers list.
From S2P Require Import Prelude StdMap IoBuffer Codec Route CLib Sockaddr Text Config.
Open Scope Z_scope.

Record neighbours : Type := mkNeighbours { dbName : list Z; sas : list msockaddr_in (* std::set<msockaddr_in> *) }.

Section Neighbours.
Context (gCacheDir app_name : list Z) (ntop : list Z -> list Z) (pton : list Z -> option (list Z)).

Definition neighbours_key (name : list Z) : list Z := lit "_neighbours." ++ name.

(** [in >> sas]: the elements read before an exception stay in the set. *)
Fixpoint read_sas (n : nat) (s : list msockaddr_in) (b : inBuffer) : list msockaddr_in * option exn :=
  match n with
  | O => (s, None)
  | S n' => match msa_unpack pton b with
            | Ok (t, b') => read_sas n' (set_insert msa_lt t s) b'
            | Throw e => (s, Some e)
            end
  end.

Definition load_sas (text : list Z) : list msockaddr_in * option exn :=
  match in_int U32 (inBuffer_new text) with
  | Ok (n, b) => read_sas (Z.to_nat n) [] b
  | Throw e => ([], Some e)
  end.

Definition neighbours_new (files : str_map (list Z)) (name : list Z) : res neighbours :=
  match db_get_string gCacheDir app_name files false (neighbours_key name) [] with
  | [] => Ok (mkNeighbours name [])
  | text =>
      match load_sas text with
      | (s, None) => Ok (mkNeighbours name s)
      | (s, Some e) => if catchable e then Ok (mkNeighbours name s) else Throw e
      end
  end.

(** [o << sas] and [c.set]. *)
Definition save (x : neighbours) (files : str_map (list Z)) : neighbours * str_map (list Z) :=
  (x, db_set gCacheDir app_name files false (neighbours_key (dbName x)) (container (out_seq (msa_codec ntop pton) outBuffer_new (sas x)))).

Definition remove (sa : msockaddr_in) (x : neighbours) : str_map (list Z) -> neighbours * str_map (list Z) :=
  save (mkNeighbours (dbName x) (set_erase msa_lt sa (sas x))).

Definition add (sa : msockaddr_in) (pingTime : Z) (x : neighbours) : str_map (list Z) -> neighbours * str_map (list Z) :=
  save (mkNeighbours (dbName x) (set_insert msa_lt sa (sas x))).

Definition getAllAndClear (x : neighbours) (files : str_map (list Z)) : list msockaddr_in * (neighbours * str_map (list Z)) :=
  (sas x, save (mkNeighbours (dbName x) []) files).

(** ** Sequences of calls *)

Inductive nop : Type := N_add (sa : msockaddr_in) (pingTime : Z) | N_remove (sa : msockaddr_in) | N_clear.

Definition do_nop (st : neighbours * str_map (list Z)) (o : nop) : neighbours * str_map (list Z) :=
  match o with
  | N_add sa t => add sa t st.1 st.2
  | N_remove sa => remove sa st.1 st.2
  | N_clear => (getAllAndClear st.1 st.2).2
  end.

Definition do_nops (os : list nop) (st : neighbours * str_map (list Z)) : neighbours * str_map (list Z) := fold_left do_nop os st.

(** Whether an address is in the set after the calls. *)
Definition present (a : msockaddr_in) (b : bool) (o : nop) : bool :=
  match o with
  | N_add x _ => if decide (x = a) then true else b
  | N_remove x => if decide (x = a) then false else b
  | N_clear => false
  end.

Definition nop_inet (o : nop) : Prop := match o with N_add a _ | N_remove a => is_inet a | N_clear => True end.

(** ** The set, for addresses with a true order *)

Definition below (a b : msockaddr_in) : Prop := msa_lt a b = true.
Definition good_set (s : list msockaddr_in) : Prop := StronglySorted below s /\ Forall is_inet s.

Lemma good_nil : good_set [].
Proof. split; constructor. Qed.

Lemma good_cons_inv a s : good_set (a :: s) -> is_inet a /\ Forall (below a) s /\ good_set s.
Proof. intros [Hs Hi]. apply StronglySorted_inv in Hs as [? ?]. apply Forall_cons in Hi as [? ?]. by split_and!. Qed.

Lemma good_cons a s : is_inet a -> Forall (below a) s -> good_set s -> good_set (a :: s).
Proof. intros Ha Hb [Hs Hi]. split; [by constructor|by constructor]. Qed.

Lemma below_all a b s : is_inet a -> is_inet b -> good_set s -> below a b -> Forall (below b) s -> Forall (below a) s.
Proof.
  intros Ha Hb [_ Hi] Hab. induction s as [|c s IH]; [done|]. intros [Hc Hs]%Forall_cons. apply Forall_cons in Hi as [Hci Hi].
  constructor; [by apply (msa_lt_trans_inet a b c)|by apply IH].
Qed.

Lemma set_insert_elem lt (k x : msockaddr_in) s : x ∈ set_insert lt k s -> x = k \/ x ∈ s.
Proof.
  induction s as [|y s IH]; cbn [set_insert]; [intros ->%list_elem_of_singleton; by left|].
  destruct (lt y k); [|destruct (lt k y)]; rewrite ?elem_of_cons; [intros [Hx|[Hx|Hx]%IH]|intros Hx|intros Hx]; tauto.
Qed.

Lemma set_erase_elem lt (k x : msockaddr_in) s : x ∈ set_erase lt k s -> x ∈ s.
Proof.
  induction s as [|y s IH]; cbn [set_erase]; [done|]. destruct (lt y k); [|destruct (lt k y)]; rewrite ?elem_of_cons; tauto.
Qed.

Lemma good_insert k s : is_inet k -> good_set s -> good_set (set_insert msa_lt k s).
Proof.
  intros Hk. induction s as [|y s IH]; intros Hs; cbn [set_insert]; [by apply good_cons|].
  apply good_cons_inv in Hs as (Hy & Hb & Hs). destruct (msa_lt y k) eqn:E1.
  - apply good_cons; [done| |by apply IH]. apply Forall_forall. intros x [-> |Hx]%set_insert_elem; [done|]. by eapply Forall_forall in Hb.
  - destruct (msa_lt k y) eqn:E2; [|by apply good_cons]. apply good_cons; [done| |by apply good_cons].
    constructor; [done|]. by apply (below_all k y s).
Qed.

Lemma good_erase k s : good_set s -> good_set (set_erase msa_lt k s).
Proof.
  induction s as [|y s IH]; intros Hs; cbn [set_erase]; [done|]. pose proof Hs as Hs'. apply good_cons_inv in Hs' as (Hy & Hb & Ht).
  destruct (msa_lt y k); [|by destruct (msa_lt k y)]. apply good_cons; [done| |by apply IH].
  apply Forall_forall. intros x Hx%set_erase_elem. by eapply Forall_forall in Hb.
Qed.

(** What is above [k] is not [k]. *)
Lemma above_not_in k s : is_inet k -> Forall (below k) s -> k ∉ s.
Proof. intros Hk Hb Hin. eapply Forall_forall in Hb; [|done]. unfold below in Hb. by rewrite msa_lt_irrefl_inet in Hb. Qed.

Lemma insert_member a k s : is_inet k -> good_set s -> a ∈ set_insert msa_lt k s <-> a = k \/ a ∈ s.
Proof.
  intros Hk. induction s as [|y s IH]; intros Hs; cbn [set_insert]; [rewrite list_elem_of_singleton; split; [by left|by intros [|?%not_elem_of_nil]]|].
  apply good_cons_inv in Hs as (Hy & _ & Hs). destruct (msa_lt y k) eqn:E1; [rewrite !elem_of_cons, IH by done; tauto|].
  destruct (msa_lt k y) eqn:E2; rewrite !elem_of_cons; [tauto|]. pose proof (msa_lt_total_inet y k Hy Hk E1 E2) as ->. tauto.
Qed.

Lemma erase_member a k s : is_inet k -> good_set s -> a ∈ set_erase msa_lt k s <-> a <> k /\ a ∈ s.
Proof.
  intros Hk. induction s as [|y s IH]; intros Hs; cbn [set_erase]; [split; [by intros ?%not_elem_of_nil|by intros [_ ?]]|].
  apply good_cons_inv in Hs as (Hy & Hb & Hs). destruct (msa_lt y k) eqn:E1.
  - rewrite !elem_of_cons, IH by done. split; [|tauto]. intros [-> |?]; [|tauto].
    split; [|by left]. intros ->. by rewrite msa_lt_irrefl_inet in E1.
  - destruct (msa_lt k y) eqn:E2.
    + split; [|by intros [_ ?]]. intros Ha. split; [|done]. intros ->. revert Ha. apply above_not_in; [done|].
      constructor; [done|]. by apply (below_all k y s).
    + pose proof (msa_lt_total_inet y k Hy Hk E1 E2) as ->. rewrite elem_of_cons. split; [|tauto].
      intros Ha. split; [|by right]. intros ->. by apply (above_not_in k s).
Qed.

(** Reading a written set inserts its elements in order. *)
Lemma insert_last k s : Forall (fun x => below x k) s -> set_insert msa_lt k s = s ++ [k].
Proof. induction 1 as [|x s Hx _ IH]; cbn [set_insert app]; [done|]. unfold below in Hx. by rewrite Hx, IH. Qed.

Lemma insert_rebuild s2 : forall s1, StronglySorted below (s1 ++ s2) -> fold_left (fun v t => set_insert msa_lt t v) s2 s1 = s1 ++ s2.
Proof.
  induction s2 as [|k s2 IH]; intros s1 Hs; cbn [fold_left]; [by rewrite app_nil_r|]. rewrite insert_last.
  - rewrite IH; [by rewrite <-app_assoc|by rewrite <-app_assoc].
  - clear IH. induction s1 as [|x s1 IH]; [done|]. apply StronglySorted_inv in Hs as [Hs Hx]. constructor; [|by apply IH].
    apply Forall_app in Hx as [_ Hx]. by apply Forall_cons in Hx as [? _].
Qed.

(** ** The file *)

Context `{!InetText ntop pton}.

Lemma read_sas_loop n : forall s b s' b', in_loop (msa_codec ntop pton) (fun v t => set_insert msa_lt t v) n s b = Ok (s', b') -> read_sas n s b = (s', None).
Proof.
  induction n as [|n IH]; intros s b s' b'; cbn [in_loop read_sas]; [by intros [= <- _]|]. cbn [c_get msa_codec].
  destruct (msa_unpack pton b) as [[t b1]|e]; [|done]. rewrite res_bind_ok. apply IH.
Qed.

Lemma load_saved s : good_set s -> Z.of_nat (length s) < 2 ^ 32 -> load_sas (container (out_seq (msa_codec ntop pton) outBuffer_new s)) = (s, None).
Proof.
  intros [Hs Hi] Hl. rewrite out_seq_app by apply _. unfold load_sas.
  assert (Forall (c_dom (msa_codec ntop pton)) s) as Hd by (eapply Forall_impl; [exact Hi|by intros ? []]).
  pose proof (in_counted_enc (msa_codec ntop pton) (fun v t => set_insert msa_lt t v) s []
    (inBuffer_new (count_enc (length s) ++ elems_enc (msa_codec ntop pton) s)) [] Hl Hd) as H.
  rewrite rest_new, app_nil_r in H. specialize (H eq_refl). change (container outBuffer_new) with (@nil Z). rewrite app_nil_l.
  destruct (in_int U32 _) as [[n b]|e]; [|done]. rewrite res_bind_ok in H. rewrite (read_sas_loop _ _ _ _ _ H). by rewrite (insert_rebuild s []).
Qed.

Lemma saved_nonempty s : container (out_seq (msa_codec ntop pton) outBuffer_new s) <> [].
Proof.
  intros H. rewrite out_seq_app in H by apply _. apply app_eq_nil in H as [_ H]. apply app_eq_nil in H as [H _].
  pose proof (pn_enc_length put_PN_start (wrapu 64 (cast U32 (Z.of_nat (length s))))) as Hl. unfold count_enc, pn_bytes in H. rewrite H in Hl. cbn [length] in Hl. lia.
Qed.

(** What an object saves is what the next process loads; no other file changes. *)
Lemma save_loads x files :
  map_sorted str_lt files -> good_set (sas x) -> Z.of_nat (length (sas x)) < 2 ^ 32 ->
  map_sorted str_lt (save x files).2 /\ neighbours_new (save x files).2 (dbName x) = Ok x
  /\ forall k, k <> fileName gCacheDir app_name false (neighbours_key (dbName x)) -> map_find str_lt k (save x files).2 = map_find str_lt k files.
Proof.
  intros Hf Hs Hl. unfold save, neighbours_new, db_get_string, db_val, db_set. cbn [snd].
  pose proof (saved_nonempty (sas x)) as Hne. pose proof (load_saved (sas x) Hs Hl) as Hload.
  destruct (container _) as [|c t] eqn:E; [done|]. split_and!; [by apply map_assign_sorted| |].
  - rewrite map_find_assign_eq by done. cbn [default from_option id]. rewrite Hload. by destruct x.
  - intros k Hk. by apply map_find_assign_ne.
Qed.

(** An object, the files, and how many addresses it may hold. *)
Definition synced (name : list Z) (files : str_map (list Z)) (n : nat) (st : neighbours * str_map (list Z)) : Prop :=
  map_sorted str_lt st.2 /\ good_set (sas st.1) /\ dbName st.1 = name /\ (length (sas st.1) <= n)%nat /\ neighbours_new st.2 name = Ok st.1
  /\ forall k, k <> fileName gCacheDir app_name false (neighbours_key name) -> map_find str_lt k st.2 = map_find str_lt k files.

Lemma set_insert_length lt (k : msockaddr_in) s : (length (set_insert lt k s) <= S (length s))%nat.
Proof. induction s as [|y s IH]; cbn [set_insert length]; [lia|]. destruct (lt y k); [|destruct (lt k y)]; cbn [length]; lia. Qed.

Lemma set_erase_length lt (k : msockaddr_in) s : (length (set_erase lt k s) <= length s)%nat.
Proof. induction s as [|y s IH]; cbn [set_erase length]; [lia|]. destruct (lt y k); [|destruct (lt k y)]; cbn [length]; lia. Qed.

Lemma save_synced name files n s st :
  synced name files n st -> good_set s -> (length s <= S n)%nat -> Z.of_nat (S n) < 2 ^ 32 -> synced name files (S n) (save (mkNeighbours (dbName st.1) s) st.2).
Proof.
  intros (Hf & _ & Hd & _ & _ & Hk) Hs Hl Hn. rewrite Hd.
  destruct (save_loads (mkNeighbours name s) st.2 Hf Hs) as (H1 & H2 & H3); [cbn [sas]; lia|]. cbn [dbName] in *.
  split_and!; try done. intros k Hne. rewrite H3 by done. by apply Hk.
Qed.

Lemma nop_synced name files n st o : synced name files n st -> nop_inet o -> Z.of_nat (S n) < 2 ^ 32 -> synced name files (S n) (do_nop st o).
Proof.
  intros Hst Ho Hn. pose proof Hst as (_ & Hs & _ & Hl & _). destruct o as [a t|a|]; cbn [do_nop nop_inet] in *; apply save_synced; try done.
  - by apply good_insert.
  - pose proof (set_insert_length msa_lt a (sas st.1)). lia.
  - by apply good_erase.
  - pose proof (set_erase_length msa_lt a (sas st.1)). lia.
  - apply good_nil.
  - cbn [length]. lia.
Qed.

Lemma nop_present st o a : good_set (sas st.1) -> nop_inet o -> bool_decide (a ∈ sas (do_nop st o).1) = present a (bool_decide (a ∈ sas st.1)) o.
Proof.
  intros Hs Ho. destruct o as [x t|x|]; cbn [do_nop present nop_inet] in *; cbn [save add remove getAllAndClear sas fst snd].
  - unfold add, save. cbn [sas fst]. rewrite (bool_decide_ext _ _ (insert_member a x (sas st.1) Ho Hs)). destruct (decide (x = a)) as [-> |Hne].
    + apply bool_decide_eq_true_2. by left.
    + apply bool_decide_ext. split; [intros [-> |?]; done|by right].
  - unfold remove, save. cbn [sas fst]. rewrite (bool_decide_ext _ _ (erase_member a x (sas st.1) Ho Hs)). destruct (decide (x = a)) as [-> |Hne].
    + apply bool_decide_eq_false_2. by intros [? _].
    + apply bool_decide_ext. split; [by intros [_ ?]|]. intros ?. split; [|done]. by intros ->.
  - done.
Qed.

Lemma nops_synced name files os : forall n st,
  synced name files n st -> Forall nop_inet os -> Z.of_nat (n + length os) < 2 ^ 32 ->
  synced name files (n + length os) (do_nops os st)
  /\ forall a, bool_decide (a ∈ sas (do_nops os st).1) = fold_left (present a) os (bool_decide (a ∈ sas st.1)).
Proof.
  unfold do_nops. induction os as [|o os IH]; intros n st Hst Ho Hn; cbn [fold_left length]; [by rewrite Nat.add_0_r|].
  apply Forall_cons in Ho as [Ho Hos]. cbn [length] in Hn. pose proof (nop_synced name files n st o Hst Ho ltac:(lia)) as H1.
  destruct (IH (S n) (do_nop st o) H1 Hos) as [H2 H3]; [lia|]. replace (n + S (length os))%nat with (S n + length os)%nat by lia. split; [done|].
  intros a. rewrite H3. by rewrite nop_present by (done || apply Hst).
Qed.
End Neighbours.

(** C36: the neighbours survive the process.  After any calls with IPv4 and IPv6 addresses
    the set holds exactly the addresses that were added and not removed or cleared
    since, an object made anew from the files holds the same set, and no other file
    of the store has changed. *)
Theorem neighbours_persist gCacheDir app_name ntop pton `{!InetText ntop pton} name files x os :
  map_sorted str_lt files -> neighbours_new gCacheDir app_name pton files name = Ok x -> dbName x = name -> good_set (sas x) ->
  Forall nop_inet os -> Z.of_nat (length (sas x) + length os) < 2 ^ 32 ->
  let st := do_nops gCacheDir app_name ntop pton os (x, files) in
  (forall a, a ∈ sas st.1 <-> fold_left (present a) os (bool_decide (a ∈ sas x)) = true)
  /\ neighbours_new gCacheDir app_name pton st.2 name = Ok st.1
  /\ (forall k, k <> fileName gCacheDir app_name false (neighbours_key name) -> map_find str_lt k st.2 = map_find str_lt k files).
Proof.
  intros Hf Hx Hd Hs Ho Hl st.
  destruct (nops_synced gCacheDir app_name ntop pton name files os (length (sas x)) (x, files)) as [(H1 & H2 & H3 & H4 & H5 & H6) H7]; [by split_and!|done|done|].
  split_and!; [|done|done]. intros a. specialize (H7 a). cbn [fst] in H7. rewrite <-H7. by rewrite bool_decide_eq_true.
Qed.

Lemma neighbours_persist_witness :
  let st := do_nops (lit "/c") (lit "app") hex_ntop hex_pton [N_add (Sa4 1 7) 0; N_add (Sa4 2 7) 0; N_remove (Sa4 1 7)] (mkNeighbours (lit "n") [], []) in
  sas st.1 = [Sa4 2 7] /\ neighbours_new (lit "/c") (lit "app") hex_pton st.2 (lit "n") = Ok st.1.
Proof.
  intros st. split; [by vm_compute|].
  apply (neighbours_persist (lit "/c") (lit "app") hex_ntop hex_pton (lit "n") [] (mkNeighbours (lit "n") [])
    [N_add (Sa4 1 7) 0; N_add (Sa4 2 7) 0; N_remove (Sa4 1 7)]); [done|by vm_compute|done|apply good_nil| |by vm_compute].
  repeat constructor; cbn; lia.
Defined.
