(* ===== verification/Threads.v ===== *)
(** Names and call stacks of threads: main/threadNameCtl.cpp, with the scopes of
    corelib/mutexInspector.cpp that fill it.  Every method holds one mutex, so a
    run of the program is a sequence of calls. *)

From Stdlib Require Import ZArith Lia.
From stdpp Require Import base strings numbers list.
From S2P Require Import Prelude StdMap IoBuffer Codec Route CLib Sockaddr Text Config.
Open Scope Z_scope.

(** [mutex_inspector_entry]; [me_f] is null when there is no file name. *)
Record entry : Type := mkEntry { me_f : option (list Z); me_func : list Z; me_l : Z; me_t : Z; me_s : list Z }.

Record controller : Type := mkCtl {
  pt2str : list (Z * list Z);                    (* std::map<pthread_t,std::string> *)
  str2pt : str_map Z;                            (* std::map<std::string,pthread_t> *)
  inspectors : list (Z * list entry);            (* std::map<pthread_t,std::deque<...>> *)
}.

Definition controller_new : controller := mkCtl [] [] [].

(** ** Names *)

Definition add_LK (key : Z) (val : list Z) (c : controller) : controller :=
  mkCtl (map_insert Z.ltb key val (pt2str c)) (map_insert str_lt val key (str2pt c)) (inspectors c).

Definition undefined_pthread : exn := CommonError "ThreadNameController: access to undefined pthread".
Definition undefined_name : exn := CommonError "ThreadNameController: access to undefined pthread name".

Definition remove_names (key : Z) (val : list Z) (c : controller) : controller :=
  mkCtl (map_erase Z.ltb key (pt2str c)) (map_erase str_lt val (str2pt c)) (inspectors c).

(** [remove_LK(const pthread_t&)]. *)
Definition remove_LK (key : Z) (c : controller) : res controller :=
  match map_find Z.ltb key (pt2str c) with
  | None => Throw undefined_pthread
  | Some val => match map_find str_lt val (str2pt c) with
                | None => Throw undefined_name
                | Some _ => Ok (remove_names key val c)
                end
  end.

(** [remove_LK(const std::string&)]. *)
Definition remove_name_LK (val : list Z) (c : controller) : res controller :=
  match map_find str_lt val (str2pt c) with
  | None => Throw undefined_name
  | Some key => match map_find Z.ltb key (pt2str c) with
                | None => Throw undefined_pthread
                | Some _ => Ok (remove_names key val c)
                end
  end.

(** A thread without a name gets the number of the calling thread [self]. *)
Definition getName (self key : Z) (c : controller) : list Z :=
  match map_find Z.ltb key (pt2str c) with Some s => s | None => to_string (cast I64 self) end.

(** ** Stacks *)

Definition push_mi (pt : Z) (e : entry) (m : list (Z * list entry)) : list (Z * list entry) := map_update Z.ltb pt [] (cons e) m.

(** [operator[]] makes an empty stack where there is none; the last test erases it. *)
Definition pop_mi (pt : Z) (m : list (Z * list entry)) : list (Z * list entry) :=
  let m := map_update Z.ltb pt [] (fun d => tail d) m in
  match map_find Z.ltb pt m with
  | Some [] | None => map_erase Z.ltb pt m
  | Some _ => m
  end.

(** *** Reports *)

Fixpoint hex_upper (fuel : nat) (n : Z) : list Z :=
  match fuel with
  | O => []
  | S f => (if n <? 16 then [] else hex_upper f (n / 16)) ++ [let d := n mod 16 in if d <? 10 then 48 + d else 55 + d]
  end.

(** [%02ld]. *)
Definition pad2 (z : Z) : list Z := if (0 <=? z) && (z <? 10) then 48 :: to_string z else to_string z.

(** [snprintf(s,sizeof(s)-1,...)] with an array of 200. *)
Definition clipped (s : list Z) : list Z := take 198 s.

Definition states : list (list Z) := lit <$> ["LOOP"; "SLEEP"; "WAIT"; "USLEEP"; "SELECT"; "ACCEPT"]%string.
Definition more_states : list (list Z) := lit <$> ["POLL"; "MYSQL_REAL_QUERY"]%string.

(** A thread whose innermost entry names a state is reported by one line. *)
Definition state_line (known : list (list Z)) (self pt : Z) (d : list entry) (c : controller) : option (list Z) :=
  match d with
  | e :: _ =>
      match me_s e with
      | [] => None
      | _ => let s := strupper (c_str (me_s e)) in
             if bool_decide (s ∈ known) then Some (s ++ [32] ++ to_string (cast I64 pt) ++ [32] ++ getName self pt c ++ [10]) else None
      end
  | [] => None
  end.

Definition report_head (self pt : Z) (tail : list Z) (c : controller) : list Z :=
  clipped (lit "---THREAD REPORT " ++ to_string (cast I64 pt) ++ lit " (0x" ++ hex_upper 16 (wrapu 64 pt) ++ lit ") " ++ c_str (getName self pt c) ++ tail).

Definition entry_head (e : entry) : list Z :=
  [9] ++ default [] (me_f e) ++ lit ": " ++ to_string (me_l e) ++ lit ", " ++ me_func e ++ [32] ++ c_str (me_s e) ++ lit ", dt:".

(** The earliest time; a time of 0 restarts the search. *)
Definition min_time (d : list entry) : Z :=
  fold_left (fun mint e => let mint := if mint =? 0 then me_t e else mint in if me_t e <? mint then me_t e else mint) d 0.

Definition thread_report (self : Z) (c : controller) (x : Z * list entry) : list Z :=
  match state_line states self x.1 x.2 c with
  | Some s => s
  | None => report_head self x.1 [32; 10] c ++ mjoin ((fun e => clipped (entry_head e ++ pad2 (me_t e - min_time x.2) ++ [10])) <$> x.2)
  end.

Definition dump_mutex_inspectors (self : Z) (c : controller) : list Z := mjoin (thread_report self c <$> inspectors c).

Definition dump_mutex_inspector (self now pt : Z) (c : controller) : list Z :=
  match map_find Z.ltb pt (inspectors c) with
  | None => []
  | Some d =>
      match state_line (states ++ more_states) self pt d c with
      | Some s => s
      | None => report_head self pt [10] c
                ++ mjoin ((fun e => clipped (entry_head e ++ pad2 (now - me_t e) ++ lit " (" ++ pad2 (now - me_t e) ++ lit ")" ++ [10])) <$> d)
      end
  end.

(** [print_term]: the name of the file and its text, when there is something to
    report. *)
Definition print_term (self now signum : Z) (c : controller) : option (list Z * list Z) :=
  match dump_mutex_inspectors self c with
  | [] => None
  | out => Some ((if signum =? 10 then lit "USERTERM." else lit "TERM.") ++ to_string now,
                 lit "Received on SIGNAL " ++ to_string signum ++ [10] ++ out)
  end.

(** ** Scopes

    [MutexInspector] pushes in its constructor and pops in its destructor, which an
    exception runs too: the calls of a thread are those of nested scopes. *)

Inductive mi_call : Type := Enter (e : entry) | Exit.

Definition mi_step (m : list (Z * list entry)) (x : Z * mi_call) : list (Z * list entry) :=
  match x.2 with Enter e => push_mi x.1 e m | Exit => pop_mi x.1 m end.

Definition mi_run (l : list (Z * mi_call)) : list (Z * list entry) := fold_left mi_step l [].

Inductive scopes : Type := Done | Scope (e : entry) (body rest : scopes).

Fixpoint scope_calls (p : scopes) : list mi_call :=
  match p with Done => [] | Scope e body rest => Enter e :: scope_calls body ++ Exit :: scope_calls rest end.

(** The calls of one thread, and the entries it has entered and not left. *)
Definition calls_of (pt : Z) (l : list (Z * mi_call)) : list mi_call := snd <$> filter (fun x => x.1 = pt) l.

Definition open_call (d : list entry) (o : mi_call) : list entry := match o with Enter e => e :: d | Exit => tail d end.
Definition open_entries (l : list mi_call) : list entry := fold_left open_call l [].

(** ** Properties *)

Definition stack (pt : Z) (m : list (Z * list entry)) : list entry := default [] (map_find Z.ltb pt m).

(** The table has no empty stacks. *)
Definition mi_wf (m : list (Z * list entry)) : Prop := map_sorted Z.ltb m /\ forall pt, map_find Z.ltb pt m <> Some [].

Lemma pop_find pt m j : mi_wf m ->
  map_find Z.ltb j (pop_mi pt m) = if decide (j = pt) then match tail (stack pt m) with [] => None | d => Some d end else map_find Z.ltb j m.
Proof.
  intros [Hs Hne]. unfold pop_mi, stack. pose proof (map_update_sorted Z.ltb pt [] (fun d : list entry => tail d) m Hs) as Hs1.
  rewrite (map_find_update_eq Z.ltb) by done. destruct (tail (default [] (map_find Z.ltb pt m))) as [|e d] eqn:E; cbv beta; cbv beta in E; rewrite ?E.
  - destruct (decide (j = pt)) as [-> |Hj]; [by rewrite (map_find_erase_eq Z.ltb)|]. by rewrite (map_find_erase_ne Z.ltb), (map_find_update_ne Z.ltb).
  - destruct (decide (j = pt)) as [-> |Hj]; [by rewrite (map_find_update_eq Z.ltb), E|]. by rewrite (map_find_update_ne Z.ltb).
Qed.

Lemma mi_step_ok m x : mi_wf m ->
  mi_wf (mi_step m x) /\ forall pt, stack pt (mi_step m x) = if decide (x.1 = pt) then open_call (stack pt m) x.2 else stack pt m.
Proof.
  intros Hm. pose proof Hm as [Hs Hne]. destruct x as [p [e|]]; cbn [mi_step fst snd open_call].
  - assert (forall j, map_find Z.ltb j (push_mi p e m) = if decide (p = j) then Some (e :: stack j m) else map_find Z.ltb j m) as Hf.
    { intros j. unfold push_mi. destruct (decide (p = j)) as [-> |Hj]; [by rewrite (map_find_update_eq Z.ltb)|]. by rewrite (map_find_update_ne Z.ltb) by congruence. }
    split; [split; [by apply (map_update_sorted Z.ltb)|]|]; intros pt.
    + rewrite Hf. destruct (decide (p = pt)); [done|apply Hne].
    + unfold stack at 1. rewrite Hf. by destruct (decide (p = pt)).
  - split; [split|]; [| |].
    + unfold pop_mi. destruct (map_find _ _ _) as [[|? ?]|]; [| |]; repeat (apply (map_erase_sorted Z.ltb) || apply (map_update_sorted Z.ltb)); done.
    + intros pt. rewrite pop_find by done. destruct (decide (pt = p)); [by destruct (tail (stack p m))|apply Hne].
    + intros pt. unfold stack at 1. rewrite pop_find by done. destruct (decide (pt = p)) as [-> |Hj].
      * rewrite decide_True by done. by destruct (tail (stack p m)).
      * by rewrite decide_False by congruence.
Qed.

Lemma mi_run_ok l : forall m, mi_wf m ->
  mi_wf (fold_left mi_step l m) /\ forall pt, stack pt (fold_left mi_step l m) = fold_left open_call (calls_of pt l) (stack pt m).
Proof.
  induction l as [|x l IH]; intros m Hm; [done|]. cbn [fold_left]. destruct (mi_step_ok m x Hm) as [H1 H2]. destruct (IH _ H1) as [H3 H4].
  split; [done|]. intros pt. rewrite H4, H2. unfold calls_of. rewrite filter_cons. by destruct (decide (x.1 = pt)).
Qed.

Lemma scope_calls_open p : forall d, fold_left open_call (scope_calls p) d = d.
Proof.
  induction p as [|e body IHb rest IHr]; intros d; cbn [scope_calls fold_left]; [done|]. rewrite fold_left_app, IHb. cbn [fold_left open_call tail]. apply IHr.
Qed.

Lemma no_stack_nil m : mi_wf m -> (forall pt, stack pt m = []) -> m = [].
Proof.
  intros [_ Hne] H. destruct m as [|[k d] m]; [done|]. exfalso. apply (Hne k). specialize (H k). unfold stack in H. cbn [map_find] in *.
  rewrite Z.ltb_irrefl in *. cbn in H. by rewrite H.
Qed.

(** the stacks of the inspector are the open scopes.  In every interleaving of threads
    the table has, for each thread, exactly the scopes that thread has entered and
    not left, innermost first, whatever the others do; when every thread has run its
    nested scopes the table is empty. *)
Lemma inspector_stacks (l : list (Z * mi_call)) (ps : Z -> scopes) :
  (forall pt, calls_of pt l = scope_calls (ps pt)) ->
  mi_run l = []
  /\ forall pre suf, l = pre ++ suf -> forall pt,
       map_find Z.ltb pt (mi_run pre) = match open_entries (calls_of pt pre) with [] => None | d => Some d end.
Proof.
  intros H. assert (mi_wf []) as H0 by (split; done). split.
  - destruct (mi_run_ok l [] H0) as [H1 H2]. apply no_stack_nil; [done|]. intros pt. unfold mi_run. rewrite H2, H. apply scope_calls_open.
  - intros pre suf _ pt. destruct (mi_run_ok pre [] H0) as [[_ Hne] H2]. specialize (H2 pt). unfold stack in H2. cbn [map_find default] in H2.
    unfold mi_run, open_entries. specialize (Hne pt). cbn in H2. rewrite <-H2. destruct (map_find Z.ltb pt _) as [[|e d]|]; [done| |]; reflexivity.
Qed.

Definition sample_entry (n : Z) : entry := mkEntry None [102] n 0 [].

Lemma inspector_stacks_witness :
  let l := [(1, Enter (sample_entry 1)); (2, Enter (sample_entry 2)); (1, Enter (sample_entry 3)); (2, Exit); (1, Exit); (1, Exit)] in
  mi_run l = [] /\ map_find Z.ltb 1 (mi_run (take 4 l)) = Some [sample_entry 3; sample_entry 1].
Proof.
  intros l.
  destruct (inspector_stacks l (fun pt => if pt =? 1 then Scope (sample_entry 1) (Scope (sample_entry 3) Done Done) Done
                                          else if pt =? 2 then Scope (sample_entry 2) Done Done else Done)) as [H1 H2].
  - intros pt. unfold calls_of, l. rewrite !filter_cons. cbn [fst]. destruct (Z.eqb_spec pt 1) as [-> |H1]; [done|].
    destruct (Z.eqb_spec pt 2) as [-> |H2]; [done|]. rewrite !decide_False by congruence. done.
  - split; [done|]. by rewrite (H2 (take 4 l) (drop 4 l)).
Defined.

(** *** Names *)

(** A name that is free is found until it is removed, and then all is as before. *)
Lemma names_add_remove key val c :
  map_sorted Z.ltb (pt2str c) -> map_sorted str_lt (str2pt c) -> map_find Z.ltb key (pt2str c) = None -> map_find str_lt val (str2pt c) = None ->
  (forall self, getName self key (add_LK key val c) = val)
  /\ exists c', remove_LK key (add_LK key val c) = Ok c' /\ remove_name_LK val (add_LK key val c) = Ok c'
     /\ (forall j, map_find Z.ltb j (pt2str c') = map_find Z.ltb j (pt2str c)) /\ (forall n, map_find str_lt n (str2pt c') = map_find str_lt n (str2pt c)).
Proof.
  intros H1 H2 E1 E2. assert (map_find Z.ltb key (pt2str (add_LK key val c)) = Some val) as F1 by (cbn; by rewrite (map_find_insert_eq Z.ltb), E1).
  assert (map_find str_lt val (str2pt (add_LK key val c)) = Some key) as F2 by (cbn; by rewrite (map_find_insert_eq str_lt), E2).
  split; [intros self; unfold getName; by rewrite F1|]. unfold remove_LK, remove_name_LK. rewrite F1, F2. cbv beta iota. rewrite ?F1. eexists. split_and!; try done; intros j; cbn.
  - destruct (decide (j = key)) as [-> |Hne]; [by rewrite (map_find_erase_eq Z.ltb) by (by apply (map_insert_sorted Z.ltb))|].
    by rewrite (map_find_erase_ne Z.ltb), (map_find_insert_ne Z.ltb) by (done || by apply (map_insert_sorted Z.ltb)).
  - destruct (decide (j = val)) as [-> |Hne]; [by rewrite (map_find_erase_eq str_lt) by (by apply (map_insert_sorted str_lt))|].
    by rewrite (map_find_erase_ne str_lt), (map_find_insert_ne str_lt) by (done || by apply (map_insert_sorted str_lt)).
Qed.

(** Two threads with one name: the removal of the first makes that of the second
    throw. *)
Lemma shared_name_stuck :
  let c := add_LK 2 (lit "w") (add_LK 1 (lit "w") controller_new) in
  exists c', remove_LK 1 c = Ok c' /\ getName 9 2 c' = lit "w" /\ remove_LK 2 c' = Throw undefined_name.
Proof. eexists. by vm_compute. Qed.
