(* ===== verification/Sql.v ===== *)
(** The database layer: corelib/_QUERY.cpp, corelib/DBH.{h,cpp} and the pool and the
    driver of modules/mysql/mysqlService.*.

    The client library is a parameter: [escape] is [mysql_real_escape_string], and the
    answers of one query are a script of its calls. *)

From Stdlib Require Import ZArith Lia.
From stdpp Require Import base strings numbers list.
From S2P Require Import Prelude StdMap CLib Text Config.
Open Scope Z_scope.

(** ** QUERY *)

Definition MAX_PARAMS_IN_SQL : nat := 64.

Record QUERY : Type := mkQUERY { params_ : list (list Z); query_ : list Z }.
Definition QUERY_new (q : list Z) : QUERY := mkQUERY [] q.

Definition push_checked (s : list Z) (q : QUERY) : res QUERY :=
  if (MAX_PARAMS_IN_SQL <=? length (params_ q))%nat then Throw (CommonError "QUERY params")
  else Ok (mkQUERY (params_ q ++ [s]) (query_ q)).

(** [operator<<]: strings and the integer types; [int32_t] alone is not limited. *)
Definition q_string (s : list Z) : QUERY -> res QUERY := push_checked s.
Definition q_int (t : ity) (i : Z) (q : QUERY) : res QUERY :=
  match t with
  | I32 => Ok (mkQUERY (params_ q ++ [to_string i]) (query_ q))
  | _ => push_checked (to_string i) q
  end.

(** The loop of [prepare] and of [exec]: each '?' takes the next parameter. *)
Fixpoint bind_loop (f : list Z -> list Z) (what : string) (ps : list (list Z)) (s : list Z) : res (list Z) :=
  match s with
  | [] => Ok []
  | c :: s' =>
      if c =? 63 then
        match ps with
        | [] => Throw (CommonError what)
        | p :: ps' => r ← bind_loop f what ps' s'; Ok (f p ++ r)
        end
      else r ← bind_loop f what ps s'; Ok (c :: r)
  end.

Definition prepare (q : QUERY) : res (list Z) := bind_loop (fun p => p) "query params size not equal ?" (params_ q) (query_ q).

(** ** The driver *)

Definition row : Type := list (list Z).

(** One round of the loop over the result sets: what [mysql_store_result] holds
    (columns that are null are [None]), [mysql_field_count] and
    [mysql_next_result]. *)
Record round : Type := mkRound { stored : option (list (list (option (list Z)))); field_count : Z; next_result : Z }.

Record DBH_mysql : Type := mkDBH { connected : bool; bIsLost : bool; m_lastQueryTime : Z }.
Definition bIsValid (d : DBH_mysql) : bool := connected d && negb (bIsLost d).

Definition exec_failed : exn := CommonError "exec: mysql_real_query failed".

(** The rounds of one query: the rows and the number of result sets. *)
Fixpoint exec_rounds (script : list round) (values : list row) (sets_cnt : Z) : res (list row * Z) :=
  match script with
  | [] => Throw OutOfFuel
  | r :: script' =>
      '(values, sets_cnt) ← (match stored r with
                             | Some rows => Ok (values ++ map (map (default [])) rows, sets_cnt + 1)
                             | None => if field_count r =? 0 then Ok (values, sets_cnt) else Throw exec_failed
                             end);
      if 0 <? next_result r then Throw exec_failed
      else if next_result r =? 0 then exec_rounds script' values sets_cnt
      else Ok (values, sets_cnt)
  end.

Section Driver.
Context (escape : list Z -> list Z).

(** [exec(std::string)]: [status] is that of [mysql_real_query]. *)
Definition exec_string (now status : Z) (script : list round) (d : DBH_mysql) : res (list row) * DBH_mysql :=
  let d := mkDBH (connected d) (bIsLost d) now in
  let lost := mkDBH (connected d) true now in
  if negb (status =? 0) then (Throw exec_failed, lost)
  else match exec_rounds script [] 0 with
       | Throw e => (Throw e, lost)
       | Ok (values, sets_cnt) => if 1 <? sets_cnt then (Throw (CommonError "exec failed: multiresults returned"), d) else (Ok values, d)
       end.

(** [exec(QUERY)]: the text that is executed. *)
Definition bound_text (q : QUERY) : res (list Z) := bind_loop escape "query params size not equal ? count" (params_ q) (query_ q).
End Driver.

(** ** Selects *)

Section Select.
(** [exec] of the connection. *)
Context (exec : list Z -> res (list row)).

Definition one_value (r : row) : res (list Z) :=
  match r with [x] => Ok x | _ => Throw (CommonError "if(r->values[0].size()!=1)") end.

Definition select_1 (q : list Z) : res (list Z) :=
  values ← exec q; match values with [r] => one_value r | _ => Ok [] end.
Definition select_1_orThrow (q : list Z) : res (list Z) :=
  values ← exec q; match values with [r] => one_value r | _ => Throw (CommonError "select_1_orThrow") end.
Definition select_1_int (q : list Z) : res Z := s ← select_1 q; Ok (strtol10 s).
Definition select_1_int_orThrow (q : list Z) : res Z := s ← select_1_orThrow q; Ok (strtol10 s).
Definition select_1_row (q : list Z) : res row :=
  values ← exec q; match values with [] => Ok [] | [r] => Ok r | _ => Throw (CommonError "if(r->values.size()>1)") end.

Fixpoint column (values : list row) : res (list (list Z)) :=
  match values with
  | [] => Ok []
  | r :: values' => match r with [x] => l ← column values'; Ok (x :: l) | _ => Throw (CommonError "if(r->values[i].size()!=1)") end
  end.
Definition select_1_column (q : list Z) : res (list (list Z)) := values ← exec q; column values.
Definition select_1_columnSet (q : list Z) : res (list (list Z)) :=
  l ← select_1_column q; Ok (fold_left (fun s x => set_insert str_lt x s) l []).
End Select.

Definition insertStrVal (m : str_map (list Z)) (name prefix val postfix : list Z) : str_map (list Z) :=
  map_update str_lt name [] (fun s => s ++ prefix ++ val ++ postfix) m.
Definition insertString (m : str_map (list Z)) (tblname : list Z) : list Z :=
  lit "insert into " ++ tblname ++ lit "(" ++ join (lit ",") (fst <$> m) ++ lit ") values (" ++ join (lit ",") (snd <$> m) ++ lit ")".

(** ** Transactions *)

(** What a holder executes, and how its scope is left. *)
Inductive tcmd : Type := T_exec (s : list Z) | T_commit | T_rollback.

(** [st_DBH]: [transactionResult] is set by the constructor and by nothing else. *)
Definition st_DBH_run (isTransaction : bool) (body : list (list Z)) (outcome : res unit) : list (list Z) * res unit :=
  let transactionResult := true in
  ((if isTransaction then [lit "BEGIN"] else []) ++ body
   ++ (if isTransaction then [if transactionResult : bool then lit "COMMIT" else lit "ROLLBACK"] else []), outcome).

(** [st_TRANSACTION]: the last of [commit] and [rollback] decides, rollback if there
    was none. *)
Fixpoint exit_state (committed : bool) (body : list tcmd) : list (list Z) * bool :=
  match body with
  | [] => ([], committed)
  | T_exec s :: body' => let '(l, c) := exit_state committed body' in (s :: l, c)
  | T_commit :: body' => exit_state true body'
  | T_rollback :: body' => exit_state false body'
  end.
Definition st_TRANSACTION_run (body : list tcmd) (outcome : res unit) : list (list Z) * res unit :=
  let '(l, c) := exit_state false body in ([lit "BEGIN"] ++ l ++ [if c then lit "COMMIT" else lit "ROLLBACK"], outcome).

(** ** The pool *)

Definition INACTIVE_CONNECTION_DROP_TIMEOUT_SEC : Z := 60.
Definition max_connections : Z := 10.

(** The idle connections, first in first out, by their number. *)
Definition pool : Type := list (Z * DBH_mysql).

(** The first idle connection that is not too old; the older ones are dropped. *)
Fixpoint take_idle (now : Z) (c : pool) : option (Z * DBH_mysql) * pool :=
  match c with
  | [] => (None, [])
  | x :: c' => if INACTIVE_CONNECTION_DROP_TIMEOUT_SEC <? now - m_lastQueryTime x.2 then take_idle now c' else (Some x, c')
  end.

(** [get]: [fresh] is the number of a new connection, [up] whether
    [mysql_real_connect] succeeds. *)
Definition pool_get (now fresh : Z) (up : bool) (c : pool) : res (Z * DBH_mysql) * pool :=
  let nOpenedConnections := Z.of_nat (length c) in
  match take_idle now c with
  | (Some x, c') => (Ok x, c')
  | (None, c') =>
      if nOpenedConnections <? max_connections
      then if up then (Ok (fresh, mkDBH true false now), c') else (Throw (CommonError "mysql_real_connect failed"), c')
      else (Throw (CommonError "database maximum connection exceeded"), c')
  end.

Definition pool_unget (x : Z * DBH_mysql) (c : pool) : pool := if bIsValid x.2 then c ++ [x] else c.

(** [DBH_feature::getDB]: the connection of the calling thread, for ten minutes; one
    that is too old is forgotten, not given back. *)
Definition getDB (pt now fresh : Z) (up : bool) (m_sources : list (Z * (Z * Z))) (c : pool) : res Z * list (Z * (Z * Z)) * pool :=
  let take m := match pool_get now fresh up c with
                | (Ok x, c') => (Ok x.1, map_insert Z.ltb pt (x.1, now) m, c')
                | (Throw e, c') => (Throw e, m, c')
                end in
  match map_find Z.ltb pt m_sources with
  | Some (d, t) => if 600 <? now - t then take (map_erase Z.ltb pt m_sources) else (Ok d, m_sources, c)
  | None => take m_sources
  end.

(** ** Properties *)

(** A template by the pieces between its question marks. *)
Fixpoint fill (f : list Z -> list Z) (pieces ps : list (list Z)) : list Z :=
  match pieces with
  | [] => []
  | p :: pieces' => match ps with
                    | [] => p ++ fill f pieces' []
                    | a :: ps' => match pieces' with [] => p | _ => p ++ f a ++ fill f pieces' ps' end
                    end
  end.

Lemma bind_piece f w ps p s : 63 ∉ p -> bind_loop f w ps (p ++ s) = (r ← bind_loop f w ps s; Ok (p ++ r)).
Proof.
  induction p as [|c p IH]; intros Hp; [cbn [app]; by destruct (bind_loop f w ps s)|]. apply not_elem_of_cons in Hp as [Hc Hp].
  cbn [app bind_loop]. destruct (Z.eqb_spec c 63); [done|]. rewrite IH by done. by destruct (bind_loop f w ps s).
Qed.

Lemma bind_pieces f w : forall pieces ps,
  pieces <> [] -> Forall (fun p => 63 ∉ p) pieces ->
  bind_loop f w ps (join [63] pieces) = if (length pieces <=? S (length ps))%nat then Ok (fill f pieces ps) else Throw (CommonError w).
Proof.
  induction pieces as [|p [|p' pieces] IH]; intros ps Hne Hp; [done|..]; inversion_clear Hp as [|? ? Hp1 Hp2].
  - change (join [63] [p]) with p. rewrite <-(app_nil_r p). rewrite bind_piece by done. cbn [bind_loop]. rewrite res_bind_ok.
    rewrite !app_nil_r. destruct ps; cbn; by rewrite ?app_nil_r.
  - change (join [63] (p :: p' :: pieces)) with (p ++ 63 :: join [63] (p' :: pieces)). rewrite bind_piece by done. cbn [bind_loop Z.eqb Pos.eqb].
    destruct ps as [|a ps]; [done|]. rewrite IH by done. change (length (p :: p' :: pieces) <=? S (length (a :: ps)))%nat with (length (p' :: pieces) <=? S (length ps))%nat.
    by destruct (length (p' :: pieces) <=? S (length ps))%nat.
Qed.

(** C40: a query is bound position by position.  With a parameter for every '?' of the
    template the text that is executed is the template with the n-th '?' replaced by
    the n-th parameter, escaped; question marks and quotes inside a parameter are not
    looked at again, and parameters left over are ignored.  With too few nothing is
    executed. *)
Theorem query_bound (escape : list Z -> list Z) pieces ps :
  pieces <> [] -> Forall (fun p => 63 ∉ p) pieces ->
  bound_text escape (mkQUERY ps (join [63] pieces))
  = if (length pieces <=? S (length ps))%nat then Ok (fill escape pieces ps) else Throw (CommonError "query params size not equal ? count").
Proof. apply bind_pieces. Qed.

Lemma query_bound_witness :
  bound_text (fun s => s) (mkQUERY [lit "a?b"; lit "7"] (lit "x='?' and y=?")) = Ok (lit "x='a?b' and y=7")
  /\ bound_text (fun s => s) (mkQUERY [lit "1"] (lit "x='?' and y=?")) = Throw (CommonError "query params size not equal ? count").
Proof.
  split; [apply (query_bound (fun s => s) [lit "x='"; lit "' and y="; []] [lit "a?b"; lit "7"])
         |apply (query_bound (fun s => s) [lit "x='"; lit "' and y="; []] [lit "1"])]; try done.
  all: apply (bool_decide_eq_true_1 _); by vm_compute.
Defined.

(** Requests for a connection one after the other, none given back. *)
Fixpoint gets_only (now : Z) (fresh : list Z) (c : pool) : list (res (Z * DBH_mysql)) * pool :=
  match fresh with
  | [] => ([], c)
  | n :: fresh' => let '(r, c') := pool_get now n true c in let '(l, c'') := gets_only now fresh' c' in (r :: l, c'')
  end.

Definition stale (now : Z) (x : Z * DBH_mysql) : bool := INACTIVE_CONNECTION_DROP_TIMEOUT_SEC <? now - m_lastQueryTime x.2.

Lemma take_idle_stale now c : Forall (fun x => stale now x = true) c -> take_idle now c = (None, []).
Proof. induction 1 as [|x c Hx Hc IH]; [done|]. cbn. unfold stale in Hx. by rewrite Hx. Qed.

(** the limit on connections counts the idle ones.  From an empty pool any number
    of connections is opened, however many are in use; and when ten idle connections
    have all grown too old, the request that drops them is refused although none is
    open. *)
Lemma pool_limit_counts_idle now fresh c n :
  gets_only now fresh [] = ((fun n => Ok (n, mkDBH true false now)) <$> fresh, [])
  /\ (10 <= Z.of_nat (length c) -> Forall (fun x => stale now x = true) c ->
      pool_get now n true c = (Throw (CommonError "database maximum connection exceeded"), [])).
Proof.
  split.
  - induction fresh as [|k fresh IH]; [done|]. cbn [gets_only]. change (pool_get now k true []) with (@Ok (Z * DBH_mysql) (k, mkDBH true false now), @nil (Z * DBH_mysql)).
    cbv beta iota. by rewrite IH.
  - intros Hl Hs. unfold pool_get. rewrite take_idle_stale by done. destruct (Z.ltb_spec (Z.of_nat (length c)) max_connections); [unfold max_connections in *; lia|done].
Qed.

Lemma pool_limit_counts_idle_witness :
  pool_get 1000 77 true (repeat (5, mkDBH true false 0) 10) = (Throw (CommonError "database maximum connection exceeded"), []).
Proof. apply (pool_limit_counts_idle 1000 [] (repeat (5, mkDBH true false 0) 10) 77); [by vm_compute|]. apply (bool_decide_eq_true_1 _). by vm_compute. Defined.

(** a scope of [st_DBH] commits however it is left, by an exception too; a scope of
    [st_TRANSACTION] commits exactly when its last decision was [commit], so an
    exception before that rolls back. *)
Lemma transaction_scopes body outcome cmds e :
  (exists l, st_DBH_run true body outcome = ([lit "BEGIN"] ++ l ++ [lit "COMMIT"], outcome))
  /\ (~ T_commit ∈ cmds -> exists l, st_TRANSACTION_run cmds (Throw e) = ([lit "BEGIN"] ++ l ++ [lit "ROLLBACK"], Throw e))
  /\ (~ T_rollback ∈ cmds -> T_commit ∈ cmds -> exists l, st_TRANSACTION_run cmds (Ok tt) = ([lit "BEGIN"] ++ l ++ [lit "COMMIT"], Ok tt)).
Proof.
  assert (forall cmds, ~ T_commit ∈ cmds -> (exit_state false cmds).2 = false) as H1.
  { induction cmds0 as [|[s| |] l IH]; intros Hn; [done|..]; apply not_elem_of_cons in Hn as [Hc Hn]; cbn [exit_state]; try done; try by apply IH.
    specialize (IH Hn). by destruct (exit_state false l). }
  assert (forall cmds, ~ T_rollback ∈ cmds -> (exit_state true cmds).2 = true) as H2.
  { induction cmds0 as [|[s| |] l IH]; intros Hn; [done|..]; apply not_elem_of_cons in Hn as [Hc Hn]; cbn [exit_state]; try done; try by apply IH.
    specialize (IH Hn). by destruct (exit_state true l). }
  assert (forall cmds b, ~ T_rollback ∈ cmds -> T_commit ∈ cmds -> (exit_state b cmds).2 = true) as H3.
  { induction cmds0 as [|[s| |] l IH]; intros b Hn Hc; [by apply not_elem_of_nil in Hc|..]; apply not_elem_of_cons in Hn as [Hr Hn]; cbn [exit_state]; try done; [|by apply H2].
    apply elem_of_cons in Hc as [[=]|Hc]. specialize (IH b Hn Hc). by destruct (exit_state b l). }
  split_and!; [by eexists| |].
  - intros Hn. unfold st_TRANSACTION_run. specialize (H1 _ Hn). destruct (exit_state false cmds) as [l c]. cbn in H1. subst c. by eexists.
  - intros Hn Hc. unfold st_TRANSACTION_run. specialize (H3 _ false Hn Hc). destruct (exit_state false cmds) as [l c]. cbn in H3. subst c. by eexists.
Qed.
