(* ===== verification/Files.v ===== *)
(** Files, directories, host names and patterns: the functions of main/CUtils.cpp that
    wrap the system.  The file system, the resolver and [regexec] are parameters. *)

From Stdlib Require Import ZArith Lia.
From stdpp Require Import base strings numbers list.
From S2P Require Import Prelude StdMap IoBuffer Codec Route CLib Sockaddr Text HexUri Config.
Open Scope Z_scope.

(** ** Files *)

Section Disk.
(** [stat] succeeds; what opening and reading the file give. *)
Context (stat_ok : list Z -> bool) (read : list Z -> res (list Z)).

(** [None] is the answer -1. *)
Definition load_file_from_disk (fn : list Z) : res (option (list Z)) :=
  if stat_ok (c_str fn) then s ← read fn; Ok (Some s) else Ok None.

Definition load_file (fn : list Z) : res (list Z) :=
  r ← load_file_from_disk fn; match r with Some s => Ok s | None => Throw (CommonError "cannot stat file") end.

(** The size is kept in an [int]: that of a file of 2 GiB is negative. *)
Definition load_file_no_throw (fn : list Z) : list Z :=
  match load_file_from_disk fn with Ok (Some s) => if cast I32 (Z.of_nat (length s)) <? 0 then [] else s | _ => [] end.

(** The lines are those of [loadStringMapFromBuffer]. *)
Definition loadStringMapFromFile (fn : list Z) : res (str_map (list Z)) :=
  r ← load_file_from_disk fn;
  match r with
  | None => Ok []
  | Some bod => '(_, m) ← foldM load_line ([], []) (splitString [13; 10] bod); Ok m
  end.

(** [findExecutable]: the first of three places. *)
Definition findExecutable (fn : list Z) : list Z :=
  match filter (fun p => stat_ok (c_str p) = true) [lit "./" ++ fn; lit "/usr/bin/" ++ fn; lit "/usr/local/bin/" ++ fn] with
  | p :: _ => p
  | [] => []
  end.
End Disk.

(** *** Directories *)

Section Dirs.
Context {FS : Type} (stat : FS -> list Z -> bool) (mkdir : FS -> list Z -> option FS).

Definition is_file_exists : FS -> list Z -> bool := stat.

(** The loop over the names; [false] is the answer -1. *)
Fixpoint make_dirs (parts : list Z) (ar : list (list Z)) (fs : FS) : bool * FS :=
  match ar with
  | [] => (true, fs)
  | a :: ar' =>
      let par := parts ++ a in
      let parts' := parts ++ a ++ [47] in
      if negb (is_file_exists fs parts') && negb (is_file_exists fs par) then
        match mkdir fs parts' with
        | Some fs' => make_dirs parts' ar' fs'
        | None => (false, fs)
        end
      else make_dirs parts' ar' fs
  end.

Definition checkPath (pathname : list Z) (fs : FS) : bool * FS :=
  if stat fs pathname then (true, fs)
  else make_dirs (match pathname with c :: _ => if (c =? 47) || (c =? 92) then [47] else [] | [] => [] end) (splitString [47] pathname) fs.
End Dirs.

(** ** Tokens *)

Definition geb_params_string (tokens : list (list Z)) : res (list Z * list (list Z)) :=
  match tokens with [] => Throw (CommonError "skipped") | t :: ts => Ok (t, ts) end.
Definition geb_params_int (tokens : list (list Z)) : res (Z * list (list Z)) :=
  '(t, ts) ← geb_params_string tokens; Ok (atoi t, ts).
Definition geb_params_int64_t (tokens : list (list Z)) : res (Z * list (list Z)) :=
  '(t, ts) ← geb_params_string tokens; Ok (strtol10 t, ts).

(** [getNow]: microseconds of a [timespec], in 64 bits. *)
Definition getNow (tv_sec tv_nsec : Z) : Z := cast I64 (wrapu 64 (wrapu 64 (wrapu 64 tv_sec * 1000000) + wrapu 64 tv_nsec / 1000)).

(** ** Hosts *)

(** The address or -1, and the cache; [gethostbyname] answers for AF_INET. *)
Definition getHostByName (gethostbyname : list Z -> option Z) (hostname : list Z) (cache : str_map Z) : option Z * str_map Z :=
  match map_find str_lt hostname cache with
  | Some a => (Some a, cache)
  | None => match gethostbyname hostname with
            | None => (None, cache)
            | Some a => (Some a, map_assign hostname a cache)
            end
  end.

(** ** Dumps *)

Section Dump.
Context (inet_ntop6 : list Z -> list Z) (serviceName : Z -> list Z).

Definition dump_addrs (s : list msockaddr_in) : list Z := join [44] (dump inet_ntop6 <$> s).
Definition dump_named (s : list (msockaddr_in * list Z)) : list Z := join [44] ((fun i => dump inet_ntop6 i.1 ++ [58] ++ bin2hex i.2) <$> s).
Definition dump_services (s : list (Z * list msockaddr_in)) : list Z := join [44] ((fun i => serviceName i.1 ++ [35] ++ dump_addrs i.2) <$> s).
Definition dump_hosts (s : list (msockaddr_in * list Z)) : list Z :=
  join [59] ((fun i => dump inet_ntop6 i.1 ++ [35] ++ join [44] (serviceName <$> i.2)) <$> s).
End Dump.

(** ** Patterns *)

Record rxfind_data : Type := mkRx { rx_str : list Z; rx_so : Z; rx_eo : Z }.

Section Regex.
(** [regexec]: the offsets of the match and of its groups, up to the first that took
    no part; nothing when there is no match. *)
Context (regexec : list Z -> option (Z * Z * list (Z * Z))).

(** The rest of the text from [lastpos] on. *)
Fixpoint rxfind_loop (fuel : nat) (buffer : list Z) (lastpos : Z) : res (list rxfind_data) :=
  match fuel with
  | O => Throw OutOfFuel
  | S f =>
      let s := drop (Z.to_nat lastpos) buffer in
      match regexec s with
      | None => Ok []
      | Some (m0, groups) =>
          let slots := m0 :: groups in
          let found := (fun p => mkRx (take (Z.to_nat (p.2 - p.1)) (drop (Z.to_nat p.1) s)) (p.1 + lastpos) (p.2 + lastpos)) <$> slots in
          r ← rxfind_loop f buffer (lastpos + (default m0 (list.last slots)).2);
          Ok (found ++ r)
      end
  end.

Definition rxfind (fuel : nat) (buffer : list Z) : res (list rxfind_data) := rxfind_loop fuel (c_str buffer) 0.

(** [src.substr(pos, n)]: a negative [n] is converted to a huge one. *)
Definition substr (src : list Z) (pos n : Z) : res (list Z) :=
  if (pos <? 0) || (Z.of_nat (length src) <? pos) then Throw (RuntimeError "basic_string::substr")
  else Ok (if n <? 0 then drop (Z.to_nat pos) src else take (Z.to_nat n) (drop (Z.to_nat pos) src)).

(** The loop over the matches, [g] giving what replaces each. *)
Fixpoint splice (g : list Z -> list Z) (src : list Z) (lpz : Z) (r : list rxfind_data) : res (list Z) :=
  match r with
  | [] => substr src lpz (Z.of_nat (length src) - lpz)
  | m :: r' => a ← substr src lpz (rx_so m - lpz); b ← splice g src (rx_eo m) r'; Ok (a ++ g (rx_str m) ++ b)
  end.

Definition str_replace (fuel : nat) (sr src : list Z) : res (list Z) := r ← rxfind fuel src; splice (fun _ => sr) src 0 r.
End Regex.

(** [replace_vals]: the pattern is the alternation of the keys; [operator[]] adds the
    keys that are not there. *)
Definition replace_vals (regexec : list Z -> list Z -> option (Z * Z * list (Z * Z))) (fuel : nat) (p : str_map (list Z)) (src : list Z)
  : res (list Z * str_map (list Z)) :=
  match p with
  | [] => Ok (src, p)
  | _ =>
      r ← rxfind (regexec (join [124] (fst <$> p))) fuel src;
      t ← splice (fun k => default [] (map_find str_lt k p)) src 0 r;
      Ok (t, fold_left (fun m x => map_insert str_lt (rx_str x) [] m) r p)
  end.

(** ** Properties *)

(** *** Replacing *)

Section Replace.
(** A search that finds a match that is not empty. *)
Context (search : list Z -> option (Z * Z)) (search_ok : forall s so eo, search s = Some (so, eo) -> 0 <= so < eo /\ eo <= Z.of_nat (length s)).

Definition whole_match (s : list Z) : option (Z * Z * list (Z * Z)) := m ← search s; Some (m, []).

(** Every match from the left replaced, the search starting again behind it. *)
Fixpoint replace_all (fuel : nat) (g : list Z -> list Z) (s : list Z) : list Z :=
  match fuel with
  | O => s
  | S f => match search s with
           | None => s
           | Some (so, eo) =>
               take (Z.to_nat so) s ++ g (take (Z.to_nat (eo - so)) (drop (Z.to_nat so) s)) ++ replace_all f g (drop (Z.to_nat eo) s)
           end
  end.

Lemma rxfind_splice f g src : forall pos,
  0 <= pos <= Z.of_nat (length src) -> (length (drop (Z.to_nat pos) src) < f)%nat ->
  exists r, rxfind_loop whole_match f src pos = Ok r /\ splice g src pos r = Ok (replace_all f g (drop (Z.to_nat pos) src)).
Proof.
  induction f as [|f IH]; intros pos Hp Hf; [lia|]. cbn [rxfind_loop replace_all].
  assert (forall n, substr src pos n = Ok (if n <? 0 then drop (Z.to_nat pos) src else take (Z.to_nat n) (drop (Z.to_nat pos) src))) as Hsub.
  { intros n. unfold substr. destruct (Z.ltb_spec pos 0); [lia|]. by destruct (Z.ltb_spec (Z.of_nat (length src)) pos); [lia|]. }
  assert (whole_match (drop (Z.to_nat pos) src) = match search (drop (Z.to_nat pos) src) with Some m => Some (m, []) | None => None end) as -> by done.
  destruct (search (drop (Z.to_nat pos) src)) as [[so eo]|] eqn:E.
  - apply search_ok in E as [Hso Heo]. rewrite length_drop in Heo, Hf. cbn [fst snd list.last from_option id].
    destruct (IH (pos + eo)) as (r & Hr & Hs); [lia|rewrite length_drop; lia|].
    rewrite Hr, res_bind_ok. eexists. split; [done|]. cbn [fmap list_fmap app splice rx_so rx_eo rx_str fst snd]. rewrite Hsub, res_bind_ok.
    replace (eo + pos) with (pos + eo) by lia. rewrite Hs, res_bind_ok. destruct (Z.ltb_spec (so + pos - pos) 0); [lia|].
    replace (so + pos - pos) with so by lia. rewrite !drop_drop. by replace (Z.to_nat pos + Z.to_nat eo)%nat with (Z.to_nat (pos + eo)) by lia.
  - exists []. split; [done|]. cbn [splice]. rewrite Hsub. destruct (Z.ltb_spec (Z.of_nat (length src) - pos) 0); [lia|].
    rewrite take_ge; [done|]. rewrite length_drop. lia.
Qed.
End Replace.

(** [str_replace] and [replace_vals] replace every match.  For a pattern without
    groups whose matches are not empty, on a text without NUL, the search ends and the
    result is the text with each match, from the left, replaced. *)
Lemma str_replace_all (search : list Z -> option (Z * Z)) (sr src : list Z) :
  (forall s so eo, search s = Some (so, eo) -> 0 <= so < eo /\ eo <= Z.of_nat (length s)) -> no_nul src ->
  str_replace (whole_match search) (S (length src)) sr src = Ok (replace_all search (S (length src)) (fun _ => sr) src).
Proof.
  intros Hs Hn. unfold str_replace, rxfind. rewrite c_str_id by done.
  destruct (rxfind_splice search Hs (S (length src)) (fun _ => sr) src 0) as (r & Hr & Ht); [lia|rewrite length_drop; lia|].
  by rewrite Hr, res_bind_ok.
Qed.

(** The first 'a'. *)
Fixpoint search_a (s : list Z) : option (Z * Z) :=
  match s with
  | [] => None
  | c :: s' => if c =? 97 then Some (0, 1) else match search_a s' with Some (so, eo) => Some (so + 1, eo + 1) | None => None end
  end.

Lemma str_replace_all_witness :
  str_replace (whole_match search_a) 7 (lit "--") (lit "banana") = Ok (lit "b--n--n--").
Proof.
  assert (forall s so eo, search_a s = Some (so, eo) -> 0 <= so < eo /\ eo <= Z.of_nat (length s)) as H.
  { induction s as [|c s IH]; intros so eo; cbn [search_a]; [done|]. destruct (c =? 97); [intros [= <- <-]; cbn [length]; lia|].
    destruct (search_a s) as [[x y]|]; [|done]. intros [= <- <-]. specialize (IH x y eq_refl). cbn [length]. lia. }
  transitivity (Ok (replace_all search_a 7 (fun _ => lit "--") (lit "banana"))); [|by vm_compute].
  apply (str_replace_all search_a (lit "--") (lit "banana") H). unfold no_nul. apply (bool_decide_eq_true_1 _). by vm_compute.
Defined.

(** a pattern that matches the empty text hangs the search.  When a match, or its
    last group, ends where the search started, the position does not move: [rxfind]
    makes the same match for ever, whatever the fuel. *)
Lemma rxfind_empty_match_hangs regexec buffer pos m0 groups :
  regexec (drop (Z.to_nat pos) buffer) = Some (m0, groups) -> (default m0 (list.last (m0 :: groups))).2 = 0 ->
  forall fuel, rxfind_loop regexec fuel buffer pos = Throw OutOfFuel.
Proof.
  intros Hm H0 fuel. induction fuel as [|f IH]; [done|]. cbn [rxfind_loop]. rewrite Hm, H0, Z.add_0_r, IH. done.
Qed.

(** The pattern [x*] on the text [b]. *)
Lemma rxfind_empty_match_hangs_witness : rxfind_loop (fun _ => Some (0, 0, [])) 1000 (lit "b") 0 = Throw OutOfFuel.
Proof. apply (rxfind_empty_match_hangs (fun _ => Some (0, 0, [])) (lit "b") 0 (0, 0) []); reflexivity. Defined.

(** A group that ends before its match: the text behind it is matched twice, and the
    distance to the next match is negative, so the rest of the text is copied at each
    replacement.  [(a)b] replaced by [x] in [ab.]. *)
Lemma str_replace_with_group :
  let regexec s := if bool_decide (take 2 s = lit "ab") then Some (0, 2, [(0, 1)]) else None in
  str_replace regexec 5 (lit "x") (lit "ab.") = Ok (lit "x.xb.").
Proof. by vm_compute. Qed.

(** *** Directories *)

Section DirsOk.
Context {FS : Type} (stat : FS -> list Z -> bool) (mkdir : FS -> list Z -> option FS).
(** A directory that was made is there, and what was there stays. *)
Context (mkdir_makes : forall fs p fs', mkdir fs p = Some fs' -> stat fs' p = true)
        (mkdir_keeps : forall fs p fs' q, mkdir fs p = Some fs' -> stat fs q = true -> stat fs' q = true).

(** The directory with the given names below [parts] exists, with or without the
    slash. *)
Definition dir_there (fs : FS) (parts a : list Z) : Prop := stat fs (parts ++ a ++ [47]) = true \/ stat fs (parts ++ a) = true.

Fixpoint all_there (fs : FS) (parts : list Z) (ar : list (list Z)) : Prop :=
  match ar with [] => True | a :: ar' => dir_there fs parts a /\ all_there fs (parts ++ a ++ [47]) ar' end.

Lemma make_dirs_keeps ar : forall parts fs b fs' q, make_dirs stat mkdir parts ar fs = (b, fs') -> stat fs q = true -> stat fs' q = true.
Proof.
  induction ar as [|a ar IH]; intros parts fs b fs' q; cbn [make_dirs]; [by intros [= _ <-]|].
  destruct (_ && _); [|apply IH]. destruct (mkdir fs _) as [fs1|] eqn:E; [|by intros [= _ <-]]. intros H Hq. eapply IH; [done|]. by eapply mkdir_keeps.
Qed.

Lemma make_dirs_all ar : forall parts fs fs', make_dirs stat mkdir parts ar fs = (true, fs') -> all_there fs' parts ar.
Proof.
  induction ar as [|a ar IH]; intros parts fs fs'; cbn [make_dirs all_there]; [done|]. unfold is_file_exists.
  destruct (stat fs (parts ++ a ++ [47])) eqn:E1; cbn [negb andb].
  { intros H. split; [left; by eapply make_dirs_keeps|by eapply IH]. }
  destruct (stat fs (parts ++ a)) eqn:E2; cbn [negb].
  { intros H. split; [right; by eapply make_dirs_keeps|by eapply IH]. }
  destruct (mkdir fs _) as [fs1|] eqn:E; [|done]. intros H. split; [left|by eapply IH]. eapply make_dirs_keeps; [done|]. by eapply mkdir_makes.
Qed.

(** [checkPath] answers 0 only when the path or every directory on it is there. *)
Lemma checkPath_makes path fs fs' :
  checkPath stat mkdir path fs = (true, fs') ->
  stat fs' path = true \/ all_there fs' (match path with c :: _ => if (c =? 47) || (c =? 92) then [47] else [] | [] => [] end) (splitString [47] path).
Proof. unfold checkPath. destruct (stat fs path) eqn:E; [intros [= <-]; by left|]. intros H. right. by eapply make_dirs_all. Qed.
End DirsOk.
