(* ===== verification/Events.v ===== *)
(** The events of the system: Events/**.h, corelib/event_mt.h, corelib/ghash.h.

    One module per event namespace.  Its type [t] has one constructor per event
    class with the fields of the class; [id] is the class's identifier, the
    32-bit FNV-1a hash of its name ([ghash]) converted to [EVENT_id], an [int].
    A counted reference to a socket, a request or a cookie object is its
    pointer, a [Z] with 0 for null; a [char*] or [std::string] is its bytes.

    [Event] is [Event::Base]: the data of the class and the route.  The classes
    derived from [Event::Base] directly can be packed; those derived from
    [Event::NoPacked] throw. *)

From Stdlib Require Import ZArith QArith Lia.
From stdpp Require Import base list strings numbers.
From S2P Require Import Prelude StdMap IoBuffer Codec Route CLib Sockaddr.
Open Scope Z_scope.

(** ** Identifiers *)

Definition ghash_step (hash c : Z) : Z :=
  wrapu 32 (Z.lxor hash c * 16777619).

(** Every name that is hashed is 7-bit text, so [char] and byte agree. *)
Definition ghash (str : list Z) : Z := fold_left ghash_step str 2166136261.

(** [EVENT_id] and [SERVICE_id] are [int]. *)
Definition gid (name : string) : Z := cast I32 (ghash (lit name)).

Definition ptr := Z.
Definition is_valid (p : ptr) : bool := negb (p =? 0).
Definition SOCKET_id := Z.
Definition SERVICE_id := Z.
Definition EVENT_id := Z.

Record SECURE : Type := mkSECURE { use_ssl : bool; cert_pn : list Z; key_pn : list Z }.

#[export] Instance SECURE_eq_dec : EqDecision SECURE.
Proof. solve_decision. Defined.

(** ** Namespaces *)

Module systemEvent.
Inductive t : Type := startService.
Definition name (e : t) : string := "@g_startService".
Definition id (e : t) : EVENT_id := gid (name e).
End systemEvent.

Module ErrorEvent.
Inductive t : Type := ErrorRSP (errcode : Z) (errText : list Z).
Definition name (e : t) : string := "@g_ErrorRSP".
Definition id (e : t) : EVENT_id := gid (name e).
End ErrorEvent.

Module socketEvent.
Inductive t : Type :=
| UdpAssoc (socketId4 socketId6 : SOCKET_id) (addr4 addr6 : msockaddr_in) (socketDescription : list Z)
| UdpAssocRSP (socketId4 socketId6 : SOCKET_id) (addr4 addr6 : msockaddr_in) (esi4 esi6 : ptr) (errcode : Z)
| UdpPacketIncoming (esi : ptr) (addrFrom : msockaddr_in) (errcode : Z) (data : list Z)
| Write (socketId : SOCKET_id) (buf : list Z)
| StreamRead (esi : ptr)
| NotifyOutBufferEmpty (esi : ptr)
| NotifyBindAddress (addr : msockaddr_in) (socketDescription : list Z) (rebind : bool)
| Disconnected (esi : ptr) (reason : list Z)
| Disaccepted (esi : ptr) (reason : list Z)
| Connected (esi : ptr)
| ConnectFailed (esi : ptr) (addr : msockaddr_in) (errno : Z)
| AddToListenTCP (socketId : SOCKET_id) (addr : msockaddr_in) (socketDescription : list Z) (rebind : bool) (secure : SECURE)
| AddToConnectTCP (socketId : SOCKET_id) (addr : msockaddr_in) (socketDescription : list Z) (secure : SECURE)
| Accepted (esi : ptr).

Definition name (e : t) : string :=
  match e with
  | AddToListenTCP _ _ _ _ _ => "@g_socket_AddToListenTCP"
  | AddToConnectTCP _ _ _ _ => "@g_socket_AddToConnectTCP"
  | Accepted _ => "@g_socket_Accepted"
  | StreamRead _ => "@g_socket_StreamRead"
  | Connected _ => "@g_socket_Connected"
  | Disconnected _ _ => "@g_socket_Disconnected"
  | Disaccepted _ _ => "@g_socket_Disaccepted"
  | NotifyBindAddress _ _ _ => "@g_socket_NotifyBindAddress"
  | NotifyOutBufferEmpty _ => "@g_socket_NotifyOutBufferEmpty"
  | ConnectFailed _ _ _ => "@g_socket_ConnectFailed"
  | UdpAssoc _ _ _ _ _ => "@g_socket_UdpAssoc"
  | UdpAssocRSP _ _ _ _ _ _ _ => "@g_socket_UdpAssocRSP"
  | UdpPacketIncoming _ _ _ _ => "@g_socket_UdpPacketIncoming"
  | Write _ _ => "@g_socket_Write"
  end.

Definition id (e : t) : EVENT_id := gid (name e).
End socketEvent.

Module oscarEvent.
Inductive t : Type :=
| SendPacket (esi : ptr) (buf : option (list Z))
| PacketOnConnector (esi : ptr) (buf : option (list Z))
| PacketOnAcceptor (esi : ptr) (buf : option (list Z))
| NotifyOutBufferEmpty (esi : ptr)
| NotifyBindAddress (addr : msockaddr_in) (socketDescription : list Z) (rebind : bool)
| Disconnected (esi : ptr) (reason : list Z)
| Disaccepted (esi : ptr) (reason : list Z)
| Connected (esi : ptr)
| ConnectFailed (esi : ptr) (addr : msockaddr_in)
| Connect (socketId : SOCKET_id) (addr : msockaddr_in) (socketDescription : list Z) (secure : SECURE)
| AddToListenTCP (socketId : SOCKET_id) (addr : msockaddr_in) (socketDescription : list Z) (secure : SECURE)
| Accepted (esi : ptr).

Definition name (e : t) : string :=
  match e with
  | SendPacket _ _ => "@g_oscar_SendPacket"
  | AddToListenTCP _ _ _ _ => "@g_oscar_AddToListenTCP"
  | Connect _ _ _ _ => "@g_oscar_Connect"
  | PacketOnAcceptor _ _ => "@g_oscar_PacketOnAcceptor"
  | PacketOnConnector _ _ => "@g_oscar_PacketOnConnector"
  | Connected _ => "@g_oscar_Connected"
  | Disconnected _ _ => "@g_oscar_Disconnected"
  | Accepted _ => "@g_oscar_Accepted"
  | Disaccepted _ _ => "@g_oscar_Disaccepted"
  | NotifyBindAddress _ _ _ => "@g_oscar_NotifyBindAddress"
  | NotifyOutBufferEmpty _ => "@g_oscar_NotifyOutBufferEmpty"
  | ConnectFailed _ _ => "@g_oscar_ConnectFailed"
  end.

Definition id (e : t) : EVENT_id := gid (name e).
End oscarEvent.

(** The events of the RPC service carry events: [E] is [Event] below. *)
Module rpcEvent.
Inductive t (E : Type) : Type :=
| UnsubscribeNotifications
| SubscribeNotifications
| SendPacket (addressTo : msockaddr_in) (destination : SERVICE_id) (ev : E)
| PassPacket (socketIdTo : SOCKET_id) (e : E)
| NotifyOutBufferEmpty
| IncomingOnConnector (esi : ptr) (connect_addr : msockaddr_in) (e : E)
| IncomingOnAcceptor (esi : ptr) (e : E)
| Disconnected (esi : ptr) (destination_addr : msockaddr_in) (reason : list Z)
| Disaccepted (esi : ptr) (reason : list Z)
| Connected (esi : ptr) (addr : msockaddr_in)
| ConnectFailed (destination_addr : msockaddr_in)
| Binded (esi : ptr)
| Accepted (esi : ptr)
| DoListen (addr : msockaddr_in) (secure : SECURE).

Arguments UnsubscribeNotifications {E}.
Arguments SubscribeNotifications {E}.
Arguments SendPacket {E}.
Arguments PassPacket {E}.
Arguments NotifyOutBufferEmpty {E}.
Arguments IncomingOnConnector {E}.
Arguments IncomingOnAcceptor {E}.
Arguments Disconnected {E}.
Arguments Disaccepted {E}.
Arguments Connected {E}.
Arguments ConnectFailed {E}.
Arguments Binded {E}.
Arguments Accepted {E}.
Arguments DoListen {E}.

Definition name {E} (e : t E) : string :=
  match e with
  | PassPacket _ _ => "@g_rpcPassPacket"
  | SendPacket _ _ _ => "@g_rpcSendPacket"
  | SubscribeNotifications => "@g_rpcSubscribeNotifications"
  | UnsubscribeNotifications => "@g_rpcUnsubscribeNotifications"
  | Disconnected _ _ _ => "@g_rpcDisconnected"
  | Disaccepted _ _ => "@g_rpcDisaccepted"
  | ConnectFailed _ => "@g_rpcConnectFailed"
  | Connected _ _ => "@g_rpcConnected"
  | Accepted _ => "@g_rpcAccepted"
  | Binded _ => "@g_rpcBinded"
  | IncomingOnAcceptor _ _ => "@g_rpcIncomingOnAcceptor"
  | IncomingOnConnector _ _ _ => "@g_rpcIncomingOnConnector"
  | NotifyOutBufferEmpty => "@g_rpc_NotifyOutBufferEmpty"
  | DoListen _ _ => "@g_rpc_DoListen"
  end.

Definition id {E} (e : t E) : EVENT_id := gid (name e).
End rpcEvent.

(** The constructors replace a null [data] or [cookie] by a fresh empty buffer,
    so a built event has both.  [delay_secs], a [double], is the rational number
    it denotes. *)
Module timerEvent.
Inductive t : Type :=
| TickTimer (tid : Z) (data : list Z) (cookie : ptr)
| TickAlarm (tid : Z) (data : list Z) (cookie : ptr)
| StopTimer (tid : Z) (data : list Z)
| StopAlarm (tid : Z) (data : list Z)
| SetTimer (tid : Z) (data : list Z) (cookie : ptr) (delay_secs : Q)
| SetAlarm (tid : Z) (data : list Z) (cookie : ptr) (delay_secs : Q)
| ResetAlarm (tid : Z) (data : list Z) (cookie : ptr) (delay_secs : Q).

Definition name (e : t) : string :=
  match e with
  | SetTimer _ _ _ _ => "@g_timerSetTimer"
  | SetAlarm _ _ _ _ => "@g_timerSetAlarm"
  | ResetAlarm _ _ _ _ => "@g_timerResetAlarm"
  | StopTimer _ _ => "@g_timerStopTimer"
  | StopAlarm _ _ => "@g_timerStopAlarm"
  | TickTimer _ _ _ => "@g_timerTickTimer"
  | TickAlarm _ _ _ => "@g_timerTickAlarm"
  end.

Definition id (e : t) : EVENT_id := gid (name e).
End timerEvent.

Module httpEvent.
Inductive t : Type :=
| WSDisaccepted (req : ptr)
| WSWrite (r : ptr) (msg : list Z)
| WSDisconnected (req : ptr)
| WSTextMessage (req : ptr) (msg : list Z)
| RequestIncoming (req esi : ptr)
| GetBindPortsREQ
| GetBindPortsRSP (listenAddrs : list msockaddr_in)
| DoListen (addr : msockaddr_in) (secure : SECURE)
| RequestStartChunking (req esi : ptr)
| RequestChunkReceived (req esi : ptr) (chunkId : Z) (buf : option (list Z))
| RequestChunkingCompleted (req esi : ptr) (totalChunks : Z).

Definition name (e : t) : string :=
  match e with
  | DoListen _ _ => "@g_httpDoListen"
  | GetBindPortsREQ => "@g_GetBindPortsREQ"
  | GetBindPortsRSP _ => "@g_GetBindPortsRSP"
  | WSTextMessage _ _ => "@g_WSTextMessage"
  | WSDisaccepted _ => "@g_WSDisaccepted"
  | WSDisconnected _ => "@g_WSDisconnected"
  | WSWrite _ _ => "@g_WSWrite"
  | RequestIncoming _ _ => "@g_httpRequestIncoming"
  | RequestStartChunking _ _ => "@g_httpRequestStartChunking"
  | RequestChunkReceived _ _ _ _ => "@g_httpRequestChunkReceived"
  | RequestChunkingCompleted _ _ _ => "@g_httpRequestChunkingCompleted"
  end.

Definition id (e : t) : EVENT_id := gid (name e).
End httpEvent.

Module webSocketClientEvent.
Inductive t : Type :=
| Connect (socketId : SOCKET_id) (url : list Z) (socketDescription : list Z)
| Send (esi : ptr) (msg : list Z)
| Received (esi : ptr) (msg : list Z)
| Connected (esi : ptr)
| ConnectFailed (esi : ptr)
| Disconnected (esi : ptr).

Definition name (e : t) : string :=
  match e with
  | Connect _ _ _ => "@g_wscConnect"
  | Connected _ => "@g_wscConnected"
  | Disconnected _ => "@g_wscDisconnected"
  | Send _ _ => "@g_wscSend"
  | Received _ _ => "@g_wscReceived"
  | ConnectFailed _ => "@g_wscConnectFailed"
  end.

Definition id (e : t) : EVENT_id := gid (name e).
End webSocketClientEvent.

Module telnetEvent.
Inductive t : Type :=
| Reply (socketId : SOCKET_id) (buffer : list Z)
| DoListen (sa : msockaddr_in) (deviceName : list Z)
| RegisterCommand (directory cmd help : list Z)
| CommandEntered (socketId : SOCKET_id) (command path : list Z).

Definition name (e : t) : string :=
  match e with
  | RegisterCommand _ _ _ => "@g_telnetRegisterCommand"
  | Reply _ _ => "@g_telnetReply"
  | DoListen _ _ => "@g_telnetDoListen"
  | CommandEntered _ _ _ => "@g_telnetCommandEntered"
  end.

Definition id (e : t) : EVENT_id := gid (name e).
End telnetEvent.

Module webHandlerEvent.
Inductive t : Type :=
| RequestIncoming (req esi : ptr)
| RegisterHandler (url displayName : list Z)
| RegisterDirectory (url displayName : list Z).

Definition name (e : t) : string :=
  match e with
  | RegisterHandler _ _ => "@g_webHandlerRegisterHandler"
  | RegisterDirectory _ _ => "@g_webHandlerRegisterDirectory"
  | RequestIncoming _ _ => "@g_webHandlerRequestIncoming"
  end.

Definition id (e : t) : EVENT_id := gid (name e).
End webHandlerEvent.

Module loggerEvent.
Inductive t : Type := LogMessage (opcode msg : list Z).
Definition name (e : t) : string := "@g_loggerLogMessage".
Definition id (e : t) : EVENT_id := gid (name e).
End loggerEvent.

Module errorDispatcherEvent.
Inductive t : Type :=
| Unsubscribe
| Subscribe
| SendMessage (opcode msg : list Z)
| NotifySubscriber (opcode msg : list Z).

Definition name (e : t) : string :=
  match e with
  | SendMessage _ _ => "@g_errorDispatcherSendMessage"
  | Subscribe => "@g_errorDispatcherSubscribe"
  | Unsubscribe => "@g_errorDispatcherUnsubscribe"
  | NotifySubscriber _ _ => "@g_errorDispatcherNotifySubscriber"
  end.

Definition id (e : t) : EVENT_id := gid (name e).
End errorDispatcherEvent.

Module dfsCapsEvent.
Inductive t : Type :=
| RegisterMyRefferrerNodeREQ (externalListenAddr : list msockaddr_in) (uplink : msockaddr_in) (downlinkCount : Z)
| RegisterCloudRoot (externalListenAddr : list msockaddr_in) (uplink : msockaddr_in)
| GetReferrersREQ (externalListenAddr : list msockaddr_in)
| GetReferrersRSP (referrer_addresses : list msockaddr_in)
| GetCloudRootsREQ (externalListenAddr : list msockaddr_in)
| GetCloudRootsRSP (referrer_addresses : list msockaddr_in).

Definition name (e : t) : string :=
  match e with
  | RegisterMyRefferrerNodeREQ _ _ _ => "@g_DFSCaps_RegisterMyRefferrerNodeREQ"
  | RegisterCloudRoot _ _ => "@g_DFSCaps_RegisterCloudRoot"
  | GetReferrersREQ _ => "@g_DFSCaps_GetReferrersREQ"
  | GetReferrersRSP _ => "@g_DFSCaps_GetReferrersRSP"
  | GetCloudRootsREQ _ => "@g_DFSCaps_GetCloudRootsREQ"
  | GetCloudRootsRSP _ => "@g_DFSCaps_GetCloudRootsRSP"
  end.

Definition id (e : t) : EVENT_id := gid (name e).
End dfsCapsEvent.

Module dfsReferrerEvent.
Inductive t : Type :=
| InitClient (caps : list msockaddr_in)
| NotifyReferrerDownlinkDisconnected (socketId : SOCKET_id)
| NotifyReferrerUplinkIsConnected (sa : msockaddr_in)
| NotifyReferrerUplinkIsDisconnected (sa : msockaddr_in)
| Ping (pingType : Z) (globalCookieOfSender : list Z) (externalListenPort : Z)
       (internalListenAddr : list msockaddr_in) (ping_time connection_sequence_id clientType : Z)
| Pong (pingType : Z) (visible_name_of_pinger : msockaddr_in) (globalCookieOfResponder : list Z)
       (nodeLevelInHierarhy ping_time connection_sequence_id : Z)
| ToplinkDeliverREQ (destinationService : SERVICE_id) (eventData : option (list Z)) (uuid : list (list Z))
| ToplinkDeliverRSP (eventData : option (list Z))
| SubscribeNotifications
| UpdateConfigREQ (bod : list Z)
| UpdateConfigRSP (bod : list Z).

Definition name (e : t) : string :=
  match e with
  | Ping _ _ _ _ _ _ _ => "@g_DFSReferrer_Ping"
  | SubscribeNotifications => "@g_DFSReferrer_SubscribeNotifications"
  | ToplinkDeliverREQ _ _ _ => "@g_DFSReferrer_ToplinkDeliverREQ"
  | ToplinkDeliverRSP _ => "@g_DFSReferrer_ToplinkDeliverRSP"
  | Pong _ _ _ _ _ _ => "@g_DFSReferrer_Pong"
  | NotifyReferrerUplinkIsConnected _ => "@g_DFSReferrerNotifyReferrerUplinkIsConnected"
  | NotifyReferrerUplinkIsDisconnected _ => "@g_DFSReferrerNotifyReferrerUplinkIsDisconnected"
  | NotifyReferrerDownlinkDisconnected _ => "@g_DFSReferrerNotifyReferrerDownlinkDisconnected"
  | InitClient _ => "@g_DFSReferrerInitClient"
  | UpdateConfigREQ _ => "@g_DFSReferrerUpdateConfigREQ"
  | UpdateConfigRSP _ => "@g_DFSReferrerUpdateConfigRSP"
  end.

Definition id (e : t) : EVENT_id := gid (name e).
End dfsReferrerEvent.

(** ** Event::Base *)

Inductive Event : Type := mkEvent (body : event_body) (route : route_t)
with event_body : Type :=
| Esystem (e : systemEvent.t)
| Eerror (e : ErrorEvent.t)
| Esocket (e : socketEvent.t)
| Eoscar (e : oscarEvent.t)
| Erpc (e : rpcEvent.t Event)
| Etimer (e : timerEvent.t)
| Ehttp (e : httpEvent.t)
| Ewsc (e : webSocketClientEvent.t)
| Etelnet (e : telnetEvent.t)
| Ewebhandler (e : webHandlerEvent.t)
| Elogger (e : loggerEvent.t)
| Eerrdisp (e : errorDispatcherEvent.t)
| Ecaps (e : dfsCapsEvent.t)
| Ereferrer (e : dfsReferrerEvent.t).

Definition ev_body (e : Event) : event_body := match e with mkEvent b _ => b end.
Definition ev_route (e : Event) : route_t := match e with mkEvent _ r => r end.
Definition with_route (e : Event) (r : route_t) : Event := mkEvent (ev_body e) r.

(** The name whose hash identifies the class. *)
Definition body_name (b : event_body) : string :=
  match b with
  | Esystem e => systemEvent.name e
  | Eerror e => ErrorEvent.name e
  | Esocket e => socketEvent.name e
  | Eoscar e => oscarEvent.name e
  | Erpc e => rpcEvent.name e
  | Etimer e => timerEvent.name e
  | Ehttp e => httpEvent.name e
  | Ewsc e => webSocketClientEvent.name e
  | Etelnet e => telnetEvent.name e
  | Ewebhandler e => webHandlerEvent.name e
  | Elogger e => loggerEvent.name e
  | Eerrdisp e => errorDispatcherEvent.name e
  | Ecaps e => dfsCapsEvent.name e
  | Ereferrer e => dfsReferrerEvent.name e
  end.

Definition body_id (b : event_body) : EVENT_id :=
  match b with
  | Esystem e => systemEvent.id e
  | Eerror e => ErrorEvent.id e
  | Esocket e => socketEvent.id e
  | Eoscar e => oscarEvent.id e
  | Erpc e => rpcEvent.id e
  | Etimer e => timerEvent.id e
  | Ehttp e => httpEvent.id e
  | Ewsc e => webSocketClientEvent.id e
  | Etelnet e => telnetEvent.id e
  | Ewebhandler e => webHandlerEvent.id e
  | Elogger e => loggerEvent.id e
  | Eerrdisp e => errorDispatcherEvent.id e
  | Ecaps e => dfsCapsEvent.id e
  | Ereferrer e => dfsReferrerEvent.id e
  end.

Definition ev_id (e : Event) : EVENT_id := body_id (ev_body e).

(** ** The identifiers do not collide *)

Definition all_names : list string :=
  ["@g_startService"; "@g_ErrorRSP";
   "@g_socket_AddToListenTCP"; "@g_socket_AddToConnectTCP";
   "@g_socket_Accepted"; "@g_socket_StreamRead";
   "@g_socket_Connected"; "@g_socket_Disconnected";
   "@g_socket_Disaccepted"; "@g_socket_NotifyBindAddress";
   "@g_socket_NotifyOutBufferEmpty"; "@g_socket_ConnectFailed";
   "@g_socket_UdpAssoc"; "@g_socket_UdpAssocRSP";
   "@g_socket_UdpPacketIncoming"; "@g_socket_Write";
   "@g_oscar_SendPacket"; "@g_oscar_AddToListenTCP";
   "@g_oscar_Connect"; "@g_oscar_PacketOnAcceptor";
   "@g_oscar_PacketOnConnector"; "@g_oscar_Connected";
   "@g_oscar_Disconnected"; "@g_oscar_Accepted";
   "@g_oscar_Disaccepted"; "@g_oscar_NotifyBindAddress";
   "@g_oscar_NotifyOutBufferEmpty"; "@g_oscar_ConnectFailed";
   "@g_rpcPassPacket"; "@g_rpcSendPacket";
   "@g_rpcSubscribeNotifications"; "@g_rpcUnsubscribeNotifications";
   "@g_rpcDisconnected"; "@g_rpcDisaccepted";
   "@g_rpcConnectFailed"; "@g_rpcConnected";
   "@g_rpcAccepted"; "@g_rpcBinded";
   "@g_rpcIncomingOnAcceptor"; "@g_rpcIncomingOnConnector";
   "@g_rpc_NotifyOutBufferEmpty"; "@g_rpc_DoListen";
   "@g_timerSetTimer"; "@g_timerSetAlarm";
   "@g_timerResetAlarm"; "@g_timerStopTimer";
   "@g_timerStopAlarm"; "@g_timerTickTimer";
   "@g_timerTickAlarm"; "@g_httpDoListen";
   "@g_GetBindPortsREQ"; "@g_GetBindPortsRSP";
   "@g_WSTextMessage"; "@g_WSDisaccepted";
   "@g_WSDisconnected"; "@g_WSWrite";
   "@g_httpRequestIncoming"; "@g_httpRequestStartChunking";
   "@g_httpRequestChunkReceived"; "@g_httpRequestChunkingCompleted";
   "@g_wscConnect"; "@g_wscConnected";
   "@g_wscDisconnected"; "@g_wscSend";
   "@g_wscReceived"; "@g_wscConnectFailed";
   "@g_telnetRegisterCommand"; "@g_telnetReply";
   "@g_telnetDoListen"; "@g_telnetCommandEntered";
   "@g_webHandlerRegisterHandler"; "@g_webHandlerRegisterDirectory";
   "@g_webHandlerRequestIncoming"; "@g_loggerLogMessage";
   "@g_errorDispatcherSendMessage"; "@g_errorDispatcherSubscribe";
   "@g_errorDispatcherUnsubscribe"; "@g_errorDispatcherNotifySubscriber";
   "@g_DFSCaps_RegisterMyRefferrerNodeREQ"; "@g_DFSCaps_RegisterCloudRoot";
   "@g_DFSCaps_GetReferrersREQ"; "@g_DFSCaps_GetReferrersRSP";
   "@g_DFSCaps_GetCloudRootsREQ"; "@g_DFSCaps_GetCloudRootsRSP";
   "@g_DFSReferrer_Ping"; "@g_DFSReferrer_SubscribeNotifications";
   "@g_DFSReferrer_ToplinkDeliverREQ"; "@g_DFSReferrer_ToplinkDeliverRSP";
   "@g_DFSReferrer_Pong"; "@g_DFSReferrerNotifyReferrerUplinkIsConnected";
   "@g_DFSReferrerNotifyReferrerUplinkIsDisconnected"; "@g_DFSReferrerNotifyReferrerDownlinkDisconnected";
   "@g_DFSReferrerInitClient"; "@g_DFSReferrerUpdateConfigREQ";
   "@g_DFSReferrerUpdateConfigRSP"].

Lemma body_name_listed b : body_name b ∈ all_names.
Proof.
  apply (bool_decide_unpack _).
  destruct b as [x|x|x|x|x|x|x|x|x|x|x|x|x|x]; destruct x; vm_compute; exact I.
Qed.

Lemma body_id_gid b : body_id b = gid (body_name b).
Proof. by destruct b. Qed.

Lemma all_gids_NoDup : NoDup (gid <$> all_names).
Proof. apply (bool_decide_unpack _). vm_compute. exact I. Qed.

Lemma gid_inj n1 n2 : n1 ∈ all_names -> n2 ∈ all_names -> gid n1 = gid n2 -> n1 = n2.
Proof.
  intros [i Hi]%list_elem_of_lookup [j Hj]%list_elem_of_lookup E.
  assert (i = j) as ->; [|congruence].
  apply (proj1 (NoDup_alt (gid <$> all_names)) all_gids_NoDup i j (gid n1)).
  - by rewrite list_lookup_fmap, Hi.
  - by rewrite list_lookup_fmap, Hj, E.
Qed.

(** ** Properties *)

(** The 32-bit identifiers [ghash] gives the event classes do not collide:
    two events with the same identifier are of the same class. *)
Lemma event_ids_distinct b1 b2 : body_id b1 = body_id b2 -> body_name b1 = body_name b2.
Proof. rewrite !body_id_gid. apply gid_inj; apply body_name_listed. Qed.

Lemma event_ids_distinct_witness :
  body_name (Etimer (timerEvent.StopTimer 1 [])) = body_name (Etimer (timerEvent.StopTimer 2 [5])).
Proof. apply (event_ids_distinct (Etimer (timerEvent.StopTimer 1 [])) (Etimer (timerEvent.StopTimer 2 [5]))). reflexivity. Defined.
