(* ===== verification/EventCodec.v ===== *)
(** Packing and unpacking events for the network: the [pack] and [unpack]
    members of the event classes (Events/**.h), [Event::NoPacked]
    (corelib/event_mt.cpp) and [packEvent], [unpackEvent] and [registerEvent] of
    main/CUtils.cpp with the [regEvents_*] lists of the modules.

    A class is identified by a [packed_class]; the registry maps an [EVENT_id]
    to the class whose static constructor was registered under it.  The
    addresses inside events go through [inet_ntop]/[inet_pton], parameters of
    the section; so is the loading of a plugin, which may register more
    classes. *)

From Stdlib Require Import ZArith Lia.
From stdpp Require Import base list strings numbers.
From S2P Require Import Prelude StdMap IoBuffer Codec Route CLib Sockaddr Events.
Open Scope Z_scope.

(** ** Classes that can be packed *)

Inductive packed_class : Type :=
| K_ErrorRSP
| K_GetBindPortsREQ | K_GetBindPortsRSP
| K_LogMessage
| K_Unsubscribe | K_Subscribe | K_SendMessage | K_NotifySubscriber
| K_RegisterMyRefferrerNodeREQ | K_RegisterCloudRoot | K_GetReferrersREQ
| K_GetReferrersRSP | K_GetCloudRootsREQ | K_GetCloudRootsRSP
| K_Ping | K_Pong | K_ToplinkDeliverREQ | K_ToplinkDeliverRSP
| K_SubscribeNotifications | K_UpdateConfigREQ | K_UpdateConfigRSP.

#[export] Instance packed_class_eq_dec : EqDecision packed_class.
Proof. solve_decision. Defined.

(** The name and the identifier the class's constructor stores. *)
Definition class_name (k : packed_class) : string :=
  match k with
  | K_ErrorRSP => "@g_ErrorRSP"
  | K_GetBindPortsREQ => "@g_GetBindPortsREQ"
  | K_GetBindPortsRSP => "@g_GetBindPortsRSP"
  | K_LogMessage => "@g_loggerLogMessage"
  | K_Unsubscribe => "@g_errorDispatcherUnsubscribe"
  | K_Subscribe => "@g_errorDispatcherSubscribe"
  | K_SendMessage => "@g_errorDispatcherSendMessage"
  | K_NotifySubscriber => "@g_errorDispatcherNotifySubscriber"
  | K_RegisterMyRefferrerNodeREQ => "@g_DFSCaps_RegisterMyRefferrerNodeREQ"
  | K_RegisterCloudRoot => "@g_DFSCaps_RegisterCloudRoot"
  | K_GetReferrersREQ => "@g_DFSCaps_GetReferrersREQ"
  | K_GetReferrersRSP => "@g_DFSCaps_GetReferrersRSP"
  | K_GetCloudRootsREQ => "@g_DFSCaps_GetCloudRootsREQ"
  | K_GetCloudRootsRSP => "@g_DFSCaps_GetCloudRootsRSP"
  | K_Ping => "@g_DFSReferrer_Ping"
  | K_Pong => "@g_DFSReferrer_Pong"
  | K_ToplinkDeliverREQ => "@g_DFSReferrer_ToplinkDeliverREQ"
  | K_ToplinkDeliverRSP => "@g_DFSReferrer_ToplinkDeliverRSP"
  | K_SubscribeNotifications => "@g_DFSReferrer_SubscribeNotifications"
  | K_UpdateConfigREQ => "@g_DFSReferrerUpdateConfigREQ"
  | K_UpdateConfigRSP => "@g_DFSReferrerUpdateConfigRSP"
  end.

Definition class_id (k : packed_class) : EVENT_id := gid (class_name k).

(** The class of an event, [None] for those derived from [NoPacked]. *)
Definition class_of (b : event_body) : option packed_class :=
  match b with
  | Eerror (ErrorEvent.ErrorRSP _ _) => Some K_ErrorRSP
  | Ehttp httpEvent.GetBindPortsREQ => Some K_GetBindPortsREQ
  | Ehttp (httpEvent.GetBindPortsRSP _) => Some K_GetBindPortsRSP
  | Elogger (loggerEvent.LogMessage _ _) => Some K_LogMessage
  | Eerrdisp errorDispatcherEvent.Unsubscribe => Some K_Unsubscribe
  | Eerrdisp errorDispatcherEvent.Subscribe => Some K_Subscribe
  | Eerrdisp (errorDispatcherEvent.SendMessage _ _) => Some K_SendMessage
  | Eerrdisp (errorDispatcherEvent.NotifySubscriber _ _) => Some K_NotifySubscriber
  | Ecaps (dfsCapsEvent.RegisterMyRefferrerNodeREQ _ _ _) => Some K_RegisterMyRefferrerNodeREQ
  | Ecaps (dfsCapsEvent.RegisterCloudRoot _ _) => Some K_RegisterCloudRoot
  | Ecaps (dfsCapsEvent.GetReferrersREQ _) => Some K_GetReferrersREQ
  | Ecaps (dfsCapsEvent.GetReferrersRSP _) => Some K_GetReferrersRSP
  | Ecaps (dfsCapsEvent.GetCloudRootsREQ _) => Some K_GetCloudRootsREQ
  | Ecaps (dfsCapsEvent.GetCloudRootsRSP _) => Some K_GetCloudRootsRSP
  | Ereferrer (dfsReferrerEvent.Ping _ _ _ _ _ _ _) => Some K_Ping
  | Ereferrer (dfsReferrerEvent.Pong _ _ _ _ _ _) => Some K_Pong
  | Ereferrer (dfsReferrerEvent.ToplinkDeliverREQ _ _ _) => Some K_ToplinkDeliverREQ
  | Ereferrer (dfsReferrerEvent.ToplinkDeliverRSP _) => Some K_ToplinkDeliverRSP
  | Ereferrer dfsReferrerEvent.SubscribeNotifications => Some K_SubscribeNotifications
  | Ereferrer (dfsReferrerEvent.UpdateConfigREQ _) => Some K_UpdateConfigREQ
  | Ereferrer (dfsReferrerEvent.UpdateConfigRSP _) => Some K_UpdateConfigRSP
  | _ => None
  end.

Lemma class_of_id b k : class_of b = Some k -> body_id b = class_id k.
Proof. destruct b as [| | | | | |[]| | | |[]|[]|[]|[]]; cbn; try discriminate; try (destruct e; cbn); intros [= <-]; reflexivity. Qed.

(** ** pack and unpack of the classes *)

(** [o << a << b]: the two writers in sequence. *)
Infix "⊗" := pair_codec (at level 45, left associativity).

(** No field. *)
Definition unit_codec : Codec unit :=
  mkCodec (fun o _ => o) (fun b => Ok (tt, b)) (fun _ => True).

Lemma advance_0 b : advance b 0 = b.
Proof. unfold advance. destruct b. cbn. f_equal. lia. Qed.

#[export] Instance unit_codec_laws : CodecLaws unit_codec.
Proof.
  split.
  - intros o []. open_codec unit_codec. by rewrite app_nil_r.
  - intros [] b tl _ _. open_codec unit_codec. cbn. by rewrite advance_0.
Qed.

#[export] Instance unit_codec_safe : CodecSafe unit_codec.
Proof. intros b. apply safe_read_ok. Qed.

(** The fields of an event in the order its [pack] writes them. *)
Record wire : Type := Wire { w_ty : Type; w_codec : Codec w_ty; w_val : w_ty }.
Arguments Wire {w_ty}.

Section Wire.
Context (ntop : list Z -> list Z) (pton : list Z -> option (list Z)).

#[local] Abbreviation INT := (int_codec I32).
#[local] Abbreviation STR := str_codec.
#[local] Abbreviation ADDR := (msa_codec ntop pton).
#[local] Abbreviation ADDRS := (set_codec (msa_codec ntop pton) msa_lt).
#[local] Abbreviation VADDRS := (seq_codec (msa_codec ntop pton)).
#[local] Abbreviation BUF := refbuffer_codec.

(** The fields of each class, in the order its [pack] writes and its [unpack]
    reads them. *)
Definition ErrorRSP_codec := INT ⊗ STR.
Definition GetBindPortsREQ_codec := unit_codec.
Definition GetBindPortsRSP_codec := ADDRS.
Definition LogMessage_codec := STR ⊗ STR.
Definition Unsubscribe_codec := unit_codec.
Definition Subscribe_codec := unit_codec.
Definition SendMessage_codec := STR ⊗ STR.
Definition NotifySubscriber_codec := STR ⊗ STR.
Definition RegisterMyRefferrerNodeREQ_codec := ADDRS ⊗ ADDR ⊗ INT.
Definition RegisterCloudRoot_codec := ADDRS ⊗ ADDR.
Definition GetReferrersREQ_codec := ADDRS.
Definition GetReferrersRSP_codec := VADDRS.
Definition GetCloudRootsREQ_codec := ADDRS.
Definition GetCloudRootsRSP_codec := VADDRS.
Definition Ping_codec := INT ⊗ STR ⊗ int_codec U16 ⊗ ADDRS ⊗ int_codec I64 ⊗ INT ⊗ INT.
Definition Pong_codec := INT ⊗ ADDR ⊗ STR ⊗ INT ⊗ int_codec I64 ⊗ INT.
Definition ToplinkDeliverREQ_codec := INT ⊗ BUF ⊗ set_codec STR str_lt.
Definition ToplinkDeliverRSP_codec := BUF.
Definition SubscribeNotifications_codec := unit_codec.
Definition UpdateConfigREQ_codec := STR.
Definition UpdateConfigRSP_codec := STR.

Definition body_wire (b : event_body) : option wire :=
  match b with
  | Eerror (ErrorEvent.ErrorRSP errcode errText) => Some (Wire ErrorRSP_codec (errcode, errText))
  | Ehttp httpEvent.GetBindPortsREQ => Some (Wire GetBindPortsREQ_codec tt)
  | Ehttp (httpEvent.GetBindPortsRSP listenAddrs) => Some (Wire GetBindPortsRSP_codec listenAddrs)
  | Elogger (loggerEvent.LogMessage opcode msg) => Some (Wire LogMessage_codec (opcode, msg))
  | Eerrdisp errorDispatcherEvent.Unsubscribe => Some (Wire Unsubscribe_codec tt)
  | Eerrdisp errorDispatcherEvent.Subscribe => Some (Wire Subscribe_codec tt)
  | Eerrdisp (errorDispatcherEvent.SendMessage opcode msg) => Some (Wire SendMessage_codec (opcode, msg))
  | Eerrdisp (errorDispatcherEvent.NotifySubscriber opcode msg) => Some (Wire NotifySubscriber_codec (opcode, msg))
  | Ecaps (dfsCapsEvent.RegisterMyRefferrerNodeREQ ext up dcount) =>
      Some (Wire RegisterMyRefferrerNodeREQ_codec (ext, up, dcount))
  | Ecaps (dfsCapsEvent.RegisterCloudRoot ext up) => Some (Wire RegisterCloudRoot_codec (ext, up))
  | Ecaps (dfsCapsEvent.GetReferrersREQ ext) => Some (Wire GetReferrersREQ_codec ext)
  | Ecaps (dfsCapsEvent.GetReferrersRSP refs) => Some (Wire GetReferrersRSP_codec refs)
  | Ecaps (dfsCapsEvent.GetCloudRootsREQ ext) => Some (Wire GetCloudRootsREQ_codec ext)
  | Ecaps (dfsCapsEvent.GetCloudRootsRSP refs) => Some (Wire GetCloudRootsRSP_codec refs)
  | Ereferrer (dfsReferrerEvent.Ping ty cookie lport addrs time seq ct) =>
      Some (Wire Ping_codec
                 (ty, cookie, lport, addrs, time, seq, ct))
  | Ereferrer (dfsReferrerEvent.Pong ty name cookie level time seq) =>
      Some (Wire Pong_codec
                 (ty, name, cookie, level, time, seq))
  | Ereferrer (dfsReferrerEvent.ToplinkDeliverREQ dst data uuid) =>
      Some (Wire ToplinkDeliverREQ_codec (dst, data, uuid))
  | Ereferrer (dfsReferrerEvent.ToplinkDeliverRSP data) => Some (Wire ToplinkDeliverRSP_codec data)
  | Ereferrer dfsReferrerEvent.SubscribeNotifications => Some (Wire SubscribeNotifications_codec tt)
  | Ereferrer (dfsReferrerEvent.UpdateConfigREQ bod) => Some (Wire UpdateConfigREQ_codec bod)
  | Ereferrer (dfsReferrerEvent.UpdateConfigRSP bod) => Some (Wire UpdateConfigRSP_codec bod)
  | _ => None
  end.

(** [e->pack(b)]. *)
Definition body_pack (o : outBuffer) (b : event_body) : res outBuffer :=
  match body_wire b with
  | Some w => Ok (c_put (w_codec w) o (w_val w))
  | None => Throw (CommonError "NoPacked::pack: invalid usage for class")
  end.

(** [e->unpack(b)] on a fresh event of class [k]. *)
Definition body_unpack (k : packed_class) (b : inBuffer) : res (event_body * inBuffer) :=
  match k with
  | K_ErrorRSP => '((c, s), b) ← c_get ErrorRSP_codec b; Ok (Eerror (ErrorEvent.ErrorRSP c s), b)
  | K_GetBindPortsREQ => '(_, b) ← c_get GetBindPortsREQ_codec b; Ok (Ehttp httpEvent.GetBindPortsREQ, b)
  | K_GetBindPortsRSP => '(l, b) ← c_get GetBindPortsRSP_codec b; Ok (Ehttp (httpEvent.GetBindPortsRSP l), b)
  | K_LogMessage => '((c, s), b) ← c_get LogMessage_codec b; Ok (Elogger (loggerEvent.LogMessage c s), b)
  | K_Unsubscribe => '(_, b) ← c_get Unsubscribe_codec b; Ok (Eerrdisp errorDispatcherEvent.Unsubscribe, b)
  | K_Subscribe => '(_, b) ← c_get Subscribe_codec b; Ok (Eerrdisp errorDispatcherEvent.Subscribe, b)
  | K_SendMessage =>
      '((c, s), b) ← c_get SendMessage_codec b; Ok (Eerrdisp (errorDispatcherEvent.SendMessage c s), b)
  | K_NotifySubscriber =>
      '((c, s), b) ← c_get NotifySubscriber_codec b; Ok (Eerrdisp (errorDispatcherEvent.NotifySubscriber c s), b)
  | K_RegisterMyRefferrerNodeREQ =>
      '((x, u, n), b) ← c_get RegisterMyRefferrerNodeREQ_codec b;
      Ok (Ecaps (dfsCapsEvent.RegisterMyRefferrerNodeREQ x u n), b)
  | K_RegisterCloudRoot =>
      '((x, u), b) ← c_get RegisterCloudRoot_codec b; Ok (Ecaps (dfsCapsEvent.RegisterCloudRoot x u), b)
  | K_GetReferrersREQ => '(x, b) ← c_get GetReferrersREQ_codec b; Ok (Ecaps (dfsCapsEvent.GetReferrersREQ x), b)
  | K_GetReferrersRSP => '(x, b) ← c_get GetReferrersRSP_codec b; Ok (Ecaps (dfsCapsEvent.GetReferrersRSP x), b)
  | K_GetCloudRootsREQ => '(x, b) ← c_get GetCloudRootsREQ_codec b; Ok (Ecaps (dfsCapsEvent.GetCloudRootsREQ x), b)
  | K_GetCloudRootsRSP => '(x, b) ← c_get GetCloudRootsRSP_codec b; Ok (Ecaps (dfsCapsEvent.GetCloudRootsRSP x), b)
  | K_Ping =>
      '((ty, cookie, lport, addrs, time, seq, ct), b) ←
         c_get Ping_codec b;
      Ok (Ereferrer (dfsReferrerEvent.Ping ty cookie lport addrs time seq ct), b)
  | K_Pong =>
      '((ty, name, cookie, level, time, seq), b) ←
         c_get Pong_codec b;
      Ok (Ereferrer (dfsReferrerEvent.Pong ty name cookie level time seq), b)
  | K_ToplinkDeliverREQ =>
      '((dst, data, uuid), b) ← c_get ToplinkDeliverREQ_codec b;
      Ok (Ereferrer (dfsReferrerEvent.ToplinkDeliverREQ dst data uuid), b)
  | K_ToplinkDeliverRSP => '(d, b) ← c_get ToplinkDeliverRSP_codec b; Ok (Ereferrer (dfsReferrerEvent.ToplinkDeliverRSP d), b)
  | K_SubscribeNotifications =>
      '(_, b) ← c_get SubscribeNotifications_codec b; Ok (Ereferrer dfsReferrerEvent.SubscribeNotifications, b)
  | K_UpdateConfigREQ => '(s, b) ← c_get UpdateConfigREQ_codec b; Ok (Ereferrer (dfsReferrerEvent.UpdateConfigREQ s), b)
  | K_UpdateConfigRSP => '(s, b) ← c_get UpdateConfigRSP_codec b; Ok (Ereferrer (dfsReferrerEvent.UpdateConfigRSP s), b)
  end.

(** The values the fields can hold. *)
Definition body_dom (b : event_body) : Prop :=
  match body_wire b with Some w => c_dom (w_codec w) (w_val w) | None => False end.

(** The bytes of the fields. *)
Definition body_enc (b : event_body) : list Z :=
  match body_wire b with Some w => c_enc (w_codec w) (w_val w) | None => [] end.

(** ** CUtils::packEvent, registerEvent, unpackEvent *)

Definition packEvent (o : outBuffer) (e : Event) : res outBuffer :=
  body_pack (route_pack (out_int o (ev_id e)) (ev_route e)) (ev_body e).

(** The constructors registered so far and the plugin that declares each
    event ([local.event_constructors], [local.pluginInfo.events]). *)
Record registry : Type := mkRegistry {
  event_constructors : list (EVENT_id * packed_class);
  plugin_events : list (EVENT_id * list (list Z));
  m_isTerminating : bool;
}.

(** A static [construct]: the class it builds, or [NULL] for [NoPacked]. *)
Definition construct := option packed_class.

(** [container.insert]: an identifier already taken keeps its constructor. *)
Definition registerEvent (ec : construct) (r : registry) : registry :=
  if m_isTerminating r then r
  else match ec with
       | None => r
       | Some k => mkRegistry (map_insert Z.ltb (class_id k) k (event_constructors r))
                              (plugin_events r) (m_isTerminating r)
       end.

(** [registerPluginDLL] loads a shared object whose initialiser registers its
    events. *)
Context (registerPluginDLL : list Z -> registry -> registry).

(** The registry after the search for a constructor of [id], which may have
    loaded the plugin that declares it. *)
Definition find_constructor (r : registry) (id : EVENT_id) : option packed_class * registry :=
  match map_find Z.ltb id (event_constructors r) with
  | Some esc => (Some esc, r)
  | None =>
      let r' := match map_find Z.ltb id (plugin_events r) with
                | Some (pluginFileName :: _) => registerPluginDLL pluginFileName r
                | _ => r
                end in
      (map_find Z.ltb id (event_constructors r'), r')
  end.

Definition unpackEvent (r : registry) (b : inBuffer) : res (option Event * inBuffer * registry) :=
  if m_isTerminating r then Ok (None, b, r)
  else
    '(id, b) ← in_int I32 b;
    '(rt, b) ← route_unpack [] b;
    let '(esc, r) := find_constructor r id in
    match esc with
    | None => Throw (CommonError "Event constructor not found")
    | Some k => '(e, b) ← body_unpack k b; Ok (Some (mkEvent e rt), b, r)
    end.

(** ** Facts *)

Definition ev_enc (e : Event) : list Z :=
  c_enc (int_codec I32) (ev_id e) ++ c_enc route_codec (ev_route e) ++ body_enc (ev_body e).

(** An event that can travel. *)
Definition ev_portable (e : Event) : Prop :=
  route_portable (ev_route e) /\ body_dom (ev_body e).

Lemma gid_range name : in_range I32 (gid name).
Proof. apply cast_in_range. Qed.

Lemma ev_id_range e : in_range I32 (ev_id e).
Proof.
  unfold ev_id. destruct (ev_body e) as [x|x|x|x|x|x|x|x|x|x|x|x|x|x]; cbn [body_id];
    try apply gid_range; destruct x; apply gid_range.
Qed.

Lemma body_wire_class b : body_wire b = None <-> class_of b = None.
Proof. destruct b as [x|x|x|x|x|x|x|x|x|x|x|x|x|x]; try (by split); by destruct x. Qed.

(** ** Reading what a peer sends *)

(** The classes whose fields hold no socket address. *)
Definition addressless (k : packed_class) : bool :=
  match k with
  | K_ErrorRSP | K_GetBindPortsREQ | K_LogMessage | K_Unsubscribe | K_Subscribe | K_SendMessage
  | K_NotifySubscriber | K_ToplinkDeliverREQ | K_ToplinkDeliverRSP | K_SubscribeNotifications
  | K_UpdateConfigREQ | K_UpdateConfigRSP => true
  | _ => false
  end.

Lemma safe_get {A B} (c : Codec A) `{!CodecSafe c} b (f : A -> B) :
  safe_read b ('(a, b') ← c_get c b; Ok (f a, b')).
Proof. apply safe_read_bind; [apply c_get_safe|]. intros. apply safe_read_ok. Qed.

Lemma body_unpack_safe k b : addressless k = true -> safe_read b (body_unpack k b).
Proof.
  destruct k; try discriminate; intros _; unfold body_unpack;
    match goal with |- safe_read _ (c_get ?C _ ≫= _) => apply safe_read_bind; [apply (c_get_safe (c := C))|] end;
    intros a n _; repeat match goal with x : (_ * _)%type |- _ => destruct x end; apply safe_read_ok.
Qed.

Lemma unpackEvent_reads r b :
  (forall id k, fst (find_constructor r id) = Some k -> addressless k = true) ->
  match unpackEvent r b with
  | Ok (_, b', _) => exists n, b' = advance b n /\ (n <= remains b)%nat
  | Throw e => catchable e = true
  end.
Proof.
  intros Hr. unfold unpackEvent. destruct (m_isTerminating r).
  { exists 0%nat. rewrite advance_0. split; [done|lia]. }
  pose proof (int_codec_safe I32 b) as H1. cbn [c_get int_codec] in H1.
  destruct (in_int I32 b) as [[id b1]|e1]; [|exact H1]. rewrite res_bind_ok. destruct H1 as (n1 & -> & L1).
  pose proof (route_codec_safe (advance b n1)) as H2. cbn [c_get route_codec] in H2.
  destruct (route_unpack [] (advance b n1)) as [[rt b2]|e2]; [|exact H2]. rewrite res_bind_ok.
  destruct H2 as (n2 & -> & L2). specialize (Hr id).
  destruct (find_constructor r id) as [[k|] r2]; [|done]. cbn [fst] in Hr.
  pose proof (body_unpack_safe k (advance (advance b n1) n2) (Hr k eq_refl)) as H3.
  destruct (body_unpack k _) as [[e b3]|e3]; [|exact H3]. rewrite res_bind_ok. destruct H3 as (n3 & -> & L3).
  rewrite !remains_advance in *. exists (n1 + n2 + n3)%nat. rewrite !advance_advance. split; [f_equal; lia | lia].
Qed.

Context `{!InetText ntop pton}.

Ltac open_class_codecs :=
  unfold ErrorRSP_codec, GetBindPortsREQ_codec, GetBindPortsRSP_codec, LogMessage_codec, Unsubscribe_codec, Subscribe_codec, SendMessage_codec, NotifySubscriber_codec, RegisterMyRefferrerNodeREQ_codec, RegisterCloudRoot_codec, GetReferrersREQ_codec, GetReferrersRSP_codec, GetCloudRootsREQ_codec, GetCloudRootsRSP_codec, Ping_codec, Pong_codec, ToplinkDeliverREQ_codec, ToplinkDeliverRSP_codec, SubscribeNotifications_codec, UpdateConfigREQ_codec, UpdateConfigRSP_codec.

Lemma body_wire_laws b w : body_wire b = Some w -> CodecLaws (w_codec w).
Proof.
  destruct b as [x|x|x|x|x|x|x|x|x|x|x|x|x|x]; try discriminate; destruct x; try discriminate;
    intros [= <-]; cbn [w_codec w_ty]; open_class_codecs; apply _.
Qed.

Lemma body_pack_app o b :
  body_dom b -> exists o', body_pack o b = Ok o' /\ container o' = container o ++ body_enc b.
Proof.
  unfold body_dom, body_pack, body_enc. destruct (body_wire b) as [w|] eqn:E; [|done].
  intros _. eexists. split; [done|]. pose proof (body_wire_laws b w E). apply c_put_app.
Qed.

Lemma body_unpack_enc e k b tl :
  class_of e = Some k -> body_dom e -> rest b = body_enc e ++ tl ->
  body_unpack k b = Ok (e, advance b (length (body_enc e))).
Proof.
  intros Hk Hd Hr. unfold body_dom, body_enc in *.
  destruct e as [x|x|x|x|x|x|x|x|x|x|x|x|x|x]; try discriminate Hk; destruct x; try discriminate Hk;
    injection Hk as <-; cbn [body_wire w_codec w_val w_ty body_unpack] in *;
    match goal with |- (c_get ?C _ ≫= ?f) = _ =>
      exact (proj1 (c_get_bind C f _ b tl Hd Hr)) end.
Qed.

Lemma packEvent_app o e :
  body_dom (ev_body e) ->
  exists o', packEvent o e = Ok o' /\ container o' = container o ++ ev_enc e.
Proof.
  intros Hd. unfold packEvent.
  destruct (body_pack_app (route_pack (out_int o (ev_id e)) (ev_route e)) _ Hd) as (o' & -> & Eo).
  exists o'. split; [done|]. rewrite Eo. unfold ev_enc.
  rewrite (c_put_app (c := route_codec)), (c_put_app (c := int_codec I32)).
  by rewrite <- !app_assoc.
Qed.

Lemma unpackEvent_enc r e k b tl :
  m_isTerminating r = false -> ev_portable e -> class_of (ev_body e) = Some k ->
  map_find Z.ltb (ev_id e) (event_constructors r) = Some k ->
  rest b = ev_enc e ++ tl ->
  unpackEvent r b = Ok (Some e, advance b (length (ev_enc e)), r).
Proof.
  intros Ht [Hp Hd] Hk Hf Hr. unfold unpackEvent. rewrite Ht. unfold ev_enc in *.
  rewrite <- !app_assoc in Hr.
  match goal with |- (in_int I32 _ ≫= ?f) = _ =>
    destruct (c_get_bind (int_codec I32) f _ b _ (ev_id_range e) Hr) as [E1 Hr2];
    refine (eq_trans E1 _) end.
  cbv beta iota.
  match goal with |- (route_unpack [] _ ≫= ?f) = _ =>
    destruct (c_get_bind route_codec f _ _ _ Hp Hr2) as [E2 Hr3];
    refine (eq_trans E2 _) end.
  cbv beta iota. unfold find_constructor. rewrite Hf. cbv beta iota.
  rewrite (body_unpack_enc _ _ _ _ Hk Hd Hr3). rewrite res_bind_ok.
  rewrite !advance_advance, !length_app, Nat.add_assoc. by destruct e.
Qed.
End Wire.

(** ** The lists of the modules *)

(** [regEvents_errorDispatcher], [regEvents_logger] and [regEvents_http]: the
    constructors each module registers, [None] where the class is [NoPacked].
    The lists of the other modules register no class that can be packed. *)
Definition regEvents_errorDispatcher : list construct :=
  [Some K_NotifySubscriber; Some K_SendMessage; Some K_Subscribe; Some K_Unsubscribe; None; None].
Definition regEvents_logger : list construct := [Some K_LogMessage; None; None; None].
Definition regEvents_http : list construct :=
  [None; Some K_GetBindPortsREQ; Some K_GetBindPortsRSP; None; None; None; None; None; None; None;
   None; None; None; None; None; None; None; None; None; None].

Definition registerAll (l : list construct) (r : registry) : registry :=
  fold_left (fun r ec => registerEvent ec r) l r.

(** No two packable classes have the same identifier. *)
Lemma class_name_listed k : class_name k ∈ all_names.
Proof. apply (bool_decide_unpack _). destruct k; vm_compute; exact I. Qed.

Lemma class_name_inj k1 k2 : class_name k1 = class_name k2 -> k1 = k2.
Proof. by destruct k1, k2. Qed.

Lemma class_id_inj k1 k2 : class_id k1 = class_id k2 -> k1 = k2.
Proof. intros E. apply class_name_inj, gid_inj; [apply class_name_listed..|done]. Qed.

(** ** Properties *)

(** C2: An event packed by [packEvent] and read by [unpackEvent] in a process
    that has registered its class comes back equal, with its route, and the
    reader stops right after it: for all 21 classes that can be packed. *)
Theorem event_roundtrip ntop pton `{!InetText ntop pton} registerPluginDLL r e k tl :
  m_isTerminating r = false -> ev_portable ntop pton e ->
  class_of (ev_body e) = Some k -> map_find Z.ltb (ev_id e) (event_constructors r) = Some k ->
  exists o b, packEvent ntop pton outBuffer_new e = Ok o
    /\ unpackEvent ntop pton registerPluginDLL r (inBuffer_new (container o ++ tl)) = Ok (Some e, b, r)
    /\ rest b = tl.
Proof.
  intros Ht Hp Hk Hf.
  destruct (packEvent_app ntop pton outBuffer_new e (proj2 Hp)) as (o & E & Ho).
  cbn [container outBuffer_new] in Ho. rewrite app_nil_l in Ho.
  exists o, (advance (inBuffer_new (container o ++ tl)) (length (ev_enc ntop pton e))). split; [done|].
  rewrite Ho. split; [by apply (unpackEvent_enc ntop pton registerPluginDLL r e k _ tl); [..|rewrite rest_new]|].
  by rewrite rest_advance, rest_new, drop_app_length.
Qed.

(** The registry of a process that runs the HTTP, logger and error-dispatcher
    modules. *)
Definition registry_modules : registry :=
  registerAll (regEvents_errorDispatcher ++ regEvents_logger ++ regEvents_http) (mkRegistry [] [] false).

Definition ports_rsp : Event :=
  mkEvent (Ehttp (httpEvent.GetBindPortsRSP [Sa4 20480 16777343])) [LOCALSERVICE 11; REMOTEADDR 3].

Lemma ports_rsp_portable : ev_portable hex_ntop hex_pton ports_rsp.
Proof.
  split.
  - split; [|by vm_compute].
    repeat (constructor; [split; [vm_compute; intuition congruence | intros p; discriminate]|]). constructor.
  - split; [repeat constructor|]. split; [by vm_compute|]. constructor; [|constructor]. cbn. lia.
Qed.

Lemma event_roundtrip_witness :
  exists o b, packEvent hex_ntop hex_pton outBuffer_new ports_rsp = Ok o
    /\ unpackEvent hex_ntop hex_pton (fun _ r => r) registry_modules (inBuffer_new (container o ++ [1; 2]))
       = Ok (Some ports_rsp, b, registry_modules)
    /\ rest b = [1; 2].
Proof.
  apply (event_roundtrip hex_ntop hex_pton (fun _ r => r) registry_modules ports_rsp K_GetBindPortsRSP [1; 2]);
    [reflexivity | apply ports_rsp_portable | reflexivity | by vm_compute].
Defined.

(** C29: Whatever bytes a peer sends, [unpackEvent] of a process whose registered
    classes have no socket address in their fields reads inside the buffer and
    ends with an event or with an exception the callers catch. *)
Theorem unpackEvent_total ntop pton registerPluginDLL r bytes :
  (forall id k, fst (find_constructor registerPluginDLL r id) = Some k -> addressless k = true) ->
  match unpackEvent ntop pton registerPluginDLL r (inBuffer_new bytes) with
  | Ok (_, b, _) => exists n, b = advance (inBuffer_new bytes) n /\ (n <= length bytes)%nat
  | Throw e => catchable e = true
  end.
Proof.
  intros H. pose proof (unpackEvent_reads ntop pton registerPluginDLL r (inBuffer_new bytes) H) as Hu.
  by rewrite <- length_rest, rest_new in Hu.
Qed.

Lemma logger_addressless id k :
  fst (find_constructor (fun _ r => r) (registerAll regEvents_logger (mkRegistry [] [] false)) id) = Some k ->
  addressless k = true.
Proof.
  change (registerAll regEvents_logger (mkRegistry [] [] false))
    with (mkRegistry [(class_id K_LogMessage, K_LogMessage)] [] false).
  generalize (class_id K_LogMessage). intros i. unfold find_constructor.
  cbn [event_constructors plugin_events map_find].
  destruct (i <? id); cbn [fst map_find]; [discriminate|].
  destruct (id <? i); cbn [fst map_find]; [discriminate|]. by intros [= <-].
Qed.

Lemma unpackEvent_total_witness :
  match unpackEvent hex_ntop hex_pton (fun _ r => r)
          (registerAll regEvents_logger (mkRegistry [] [] false)) (inBuffer_new [129; 255; 3]) with
  | Ok (_, b, _) => exists n, b = advance (inBuffer_new [129; 255; 3]) n /\ (n <= length [129; 255; 3])%nat
  | Throw e => catchable e = true
  end.
Proof.
  apply (unpackEvent_total hex_ntop hex_pton (fun _ r => r) (registerAll regEvents_logger (mkRegistry [] [] false))).
  apply logger_addressless.
Defined.
