(* ===== verification/Registry.v ===== *)
(** The registry of services, interfaces and plugins: [Utils_local]
    (main/utils_local.h) and the functions of main/CUtils.cpp that fill and search it,
    with the registration functions of the modules.

    Constructors are function pointers: [SC] are those of services, [EC] those of
    events, of which [event_of] gives the identifier of the object they build (none
    when they return null).  The file system and the loader are parameters. *)

From Stdlib Require Import ZArith Lia.
From stdpp Require Import base strings numbers list.
From S2P Require Import Prelude StdMap IoBuffer Codec Route CLib Sockaddr Text Config Events.
Open Scope Z_scope.

Section Registry.
Context {SC EC : Type} (event_of : EC -> option EVENT_id).

(** ** The tables *)

Record Utils_local : Type := mkLocal {
  ifaces : list (SERVICE_id * ptr);
  pi_services : list (SERVICE_id * list Z);
  pi_ifaces : list (SERVICE_id * list Z);
  pi_events : list (EVENT_id * list (list Z));
  name2id : list (list Z * SERVICE_id);
  id2name : list (SERVICE_id * list Z);
  service_constructors : list (SERVICE_id * SC);
  event_constructors : list (EVENT_id * EC);
}.

Record CUtils : Type := mkCUtils {
  local : Utils_local;
  registered_dlls : list Z;
  instances : list ptr;
  m_isTerminating : bool;
  m_exit_code : Z;
}.

Definition local_empty : Utils_local := mkLocal [] [] [] [] [] [] [] [].
Definition CUtils_new : CUtils := mkCUtils local_empty [] [] false 0.

Definition with_local (f : Utils_local -> Utils_local) (u : CUtils) : CUtils :=
  mkCUtils (f (local u)) (registered_dlls u) (instances u) (m_isTerminating u) (m_exit_code u).
Definition with_dlls (f : list Z -> list Z) (u : CUtils) : CUtils :=
  mkCUtils (local u) (f (registered_dlls u)) (instances u) (m_isTerminating u) (m_exit_code u).
Definition with_instances (f : list ptr -> list ptr) (u : CUtils) : CUtils :=
  mkCUtils (local u) (registered_dlls u) (f (instances u)) (m_isTerminating u) (m_exit_code u).

(** [m[k] = v] on identifiers. *)
Definition put {V} (k : Z) (v : V) (m : list (Z * V)) : list (Z * V) := map_update Z.ltb k v (fun _ => v) m.

(** ** Registration *)

Definition name_service (id : SERVICE_id) (name : list Z) (l : Utils_local) : Utils_local :=
  mkLocal (ifaces l) (pi_services l) (pi_ifaces l) (pi_events l) (map_assign name id (name2id l)) (put id name (id2name l))
          (service_constructors l) (event_constructors l).

(** The constructor of the first registration stays, the name is that of the last. *)
Definition registerService (id : SERVICE_id) (cs : SC) (literalName : list Z) (u : CUtils) : CUtils :=
  if m_isTerminating u then u
  else with_local (fun l => name_service id literalName
         (mkLocal (ifaces l) (pi_services l) (pi_ifaces l) (pi_events l) (name2id l) (id2name l)
                  (map_insert Z.ltb id cs (service_constructors l)) (event_constructors l))) u.

Definition registerEvent (ec : EC) (u : CUtils) : CUtils :=
  if m_isTerminating u then u
  else match event_of ec with
       | None => u
       | Some id => with_local (fun l => mkLocal (ifaces l) (pi_services l) (pi_ifaces l) (pi_events l) (name2id l) (id2name l)
                      (service_constructors l) (map_insert Z.ltb id ec (event_constructors l))) u
       end.

(** There is no test for the end of the program here. *)
Definition registerIface (id : SERVICE_id) (p : ptr) (u : CUtils) : CUtils :=
  with_local (fun l => mkLocal (map_insert Z.ltb id p (ifaces l)) (pi_services l) (pi_ifaces l) (pi_events l) (name2id l) (id2name l)
                               (service_constructors l) (event_constructors l)) u.

Definition PLUGIN_TYPE_IFACE : Z := 0.
Definition PLUGIN_TYPE_SERVICE : Z := 1.

Definition registerPlugingInfo (pluginFileName : list Z) (pt : Z) (id : SERVICE_id) (name : list Z) (evts : list EVENT_id) (u : CUtils) : res CUtils :=
  if m_isTerminating u then Ok u
  else if pt =? PLUGIN_TYPE_IFACE then
    Ok (with_local (fun l => mkLocal (ifaces l) (pi_services l) (put id pluginFileName (pi_ifaces l)) (pi_events l) (name2id l) (id2name l)
                                     (service_constructors l) (event_constructors l)) u)
  else if pt =? PLUGIN_TYPE_SERVICE then
    Ok (with_local (fun l => name_service id name
         (mkLocal (ifaces l) (put id pluginFileName (pi_services l)) (pi_ifaces l)
                  (fold_left (fun m z => map_update Z.ltb z [] (set_insert str_lt pluginFileName) m) evts (pi_events l))
                  (name2id l) (id2name l) (service_constructors l) (event_constructors l))) u)
  else Throw (CommonError "invalid plugintype").

(** *** The registration functions of the modules *)

Inductive provided : Type :=
| P_service (id : SERVICE_id) (cs : SC) (name : list Z)
| P_iface (id : SERVICE_id) (p : ptr) (name : list Z).

(** What a module provides, the events it declares and their constructors. *)
Record module : Type := mkModule { md_provides : list provided; md_events : list EVENT_id; md_constructors : list EC }.

Definition register_info (pn : list Z) (evts : list EVENT_id) (p : provided) (u : CUtils) : res CUtils :=
  match p with
  | P_service id _ name => registerPlugingInfo pn PLUGIN_TYPE_SERVICE id name evts u
  | P_iface id _ name => registerPlugingInfo pn PLUGIN_TYPE_IFACE id name [] u
  end.

Definition register_provided (p : provided) (u : CUtils) : CUtils :=
  match p with
  | P_service id cs name => registerService id cs name u
  | P_iface id x _ => registerIface id x u
  end.

(** [registerModule(f, NULL)]: services and interfaces, then the events. *)
Definition register_all (md : module) (u : CUtils) : CUtils :=
  fold_left (fun u ec => registerEvent ec u) (md_constructors md) (fold_left (fun u p => register_provided p u) (md_provides md) u).

(** [registerModule(f, pn)]: what it has, for the file [pn]. *)
Definition register_infos (md : module) (pn : list Z) (u : CUtils) : res CUtils :=
  fold_left (fun r p => u ← r; register_info pn (md_events md) p u) (md_provides md) (Ok u).

(** ** Plugins *)

(** [dlopen] and [dlsym] of the entry; the names in a directory; [stat]; [HOME]. *)
Context (dlopen : list Z -> option Z) (dlsym : Z -> option module)
        (readdir : list Z -> option (list (list Z))) (stat_ok : list Z -> bool) (home : option (list Z)).

Definition registerPluginDLL (pn : list Z) (u : CUtils) : CUtils :=
  if m_isTerminating u then u
  else match dlopen (c_str pn) with
       | None => u
       | Some h =>
           let u := with_dlls (set_insert Z.ltb h) u in
           match dlsym h with
           | Some md => register_all md u
           | None => with_dlls (set_erase Z.ltb h) u
           end
       end.

Definition expand_homedir (base : list Z) : list Z :=
  mjoin ((fun c => if c =? 126 then match home with Some h => h | None => [] end else [c]) <$> base).

(** One file of a directory. *)
Definition load_info (pn : list Z) (u : CUtils) : res CUtils :=
  if stat_ok (c_str pn) then
    match dlopen (c_str pn) with
    | None => Ok u
    | Some h => match dlsym h with Some md => register_infos md (c_str pn) u | None => Ok u end
    end
  else Ok u.

(** The files of a directory, as a set of path names. *)
Definition plugin_files (base : list Z) (names : list (list Z)) : list (list Z) :=
  fold_left (fun ss n => if bool_decide (n = lit ".") || bool_decide (n = lit "..") then ss else set_insert str_lt (base ++ lit "/" ++ n) ss) names [].

Definition load_plugins_info (bases : list (list Z)) (u : CUtils) : res CUtils :=
  fold_left (fun r b =>
    u ← r;
    let base := expand_homedir b in
    match readdir (c_str base) with
    | None => Ok u
    | Some names => fold_left (fun r pn => u ← r; load_info pn u) (plugin_files base names) (Ok u)
    end) bases (Ok u).

(** ** Queries *)

Definition queryIface (id : SERVICE_id) (u : CUtils) : res ptr * CUtils :=
  if m_isTerminating u then (Throw (CommonError "terminating"), u)
  else match map_find Z.ltb id (ifaces (local u)) with
       | Some p => (Ok p, u)
       | None =>
           match map_find Z.ltb id (pi_ifaces (local u)) with
           | None => (Throw (CommonError "iface not found"), u)
           | Some pn =>
               let u' := registerPluginDLL pn u in
               match map_find Z.ltb id (ifaces (local u')) with
               | Some p => (Ok p, u')
               | None => (Throw (CommonError "cannot find iface"), u')
               end
           end
       end.

Context (genum_name : Z -> list Z).

Definition serviceName (id : SERVICE_id) (u : CUtils) : list Z :=
  match map_find Z.ltb id (id2name (local u)) with Some n => n | None => lit "jc:" ++ genum_name id end.

Definition serviceIdByName (name : list Z) (u : CUtils) : res SERVICE_id :=
  match map_find str_lt name (name2id (local u)) with Some id => Ok id | None => Throw (CommonError "Service name not found") end.

Definition isServiceRegistered (svs : SERVICE_id) (u : CUtils) : bool :=
  match map_find Z.ltb svs (service_constructors (local u)) with
  | Some _ => true
  | None => match map_find Z.ltb svs (pi_services (local u)) with Some _ => true | None => false end
  end.

(** ** Instances and the end *)

Definition getInstances (u : CUtils) : res (list ptr) := if m_isTerminating u then Throw (CommonError "if(m_isTerminating)") else Ok (instances u).
Definition registerInstance (i : ptr) (u : CUtils) : CUtils := if m_isTerminating u then u else with_instances (set_insert Z.ltb i) u.
Definition unregisterInstance (i : ptr) (u : CUtils) : CUtils := with_instances (set_erase Z.ltb i) u.
(** [ins] is the new object. *)
Definition createNewInstance (ins : ptr) (u : CUtils) : ptr * CUtils := if m_isTerminating u then (0, u) else (ins, with_instances (set_insert Z.ltb ins) u).
Definition setTerminate (exit_flag : Z) (u : CUtils) : CUtils := mkCUtils (local u) (registered_dlls u) (instances u) true exit_flag.
Definition isTerminating (u : CUtils) : bool := m_isTerminating u.
Definition getExitFlag (u : CUtils) : Z := m_exit_code u.
(** The destructor: what is deleted and unloaded, in this order, and what is left. *)
Definition CUtils_destroy (u : CUtils) : (list ptr * list ptr * list Z) * CUtils :=
  ((instances u, snd <$> ifaces (local u), registered_dlls u), mkCUtils local_empty [] [] true (m_exit_code u)).

(** ** The tables stay sorted *)

Definition local_wf (l : Utils_local) : Prop :=
  map_sorted Z.ltb (ifaces l) /\ map_sorted Z.ltb (pi_services l) /\ map_sorted Z.ltb (pi_ifaces l) /\ map_sorted Z.ltb (pi_events l)
  /\ map_sorted str_lt (name2id l) /\ map_sorted Z.ltb (id2name l) /\ map_sorted Z.ltb (service_constructors l) /\ map_sorted Z.ltb (event_constructors l).

(** Every table is a map: its keys are in strictly increasing order. *)
Definition wf (u : CUtils) : Prop := local_wf (local u) /\ set_sorted Z.ltb (registered_dlls u) /\ set_sorted Z.ltb (instances u).

Lemma put_sorted {V} k (v : V) m : map_sorted Z.ltb m -> map_sorted Z.ltb (put k v m).
Proof. apply map_update_sorted. apply _. Qed.

Hint Resolve put_sorted map_assign_sorted map_insert_sorted map_update_sorted : core.

Lemma events_sorted pn evts m :
  map_sorted Z.ltb m -> map_sorted Z.ltb (fold_left (fun m z => map_update Z.ltb z [] (set_insert str_lt pn) m) evts m).
Proof. revert m. induction evts as [|e evts IH]; intros m Hm; [done|]. cbn. apply IH. apply map_update_sorted; [apply _|done]. Qed.

Lemma name_service_wf id name l : local_wf l -> local_wf (name_service id name l).
Proof. intros (?&?&?&?&?&?&?&?). unfold local_wf, name_service. cbn. split_and!; auto. Qed.

Lemma registerService_wf id cs n u : wf u -> wf (registerService id cs n u).
Proof.
  intros (Hl & ? & ?). unfold registerService. destruct (m_isTerminating u); [done|]. split_and!; [|done|done].
  cbn. apply name_service_wf. destruct Hl as (?&?&?&?&?&?&?&?). unfold local_wf. cbn. split_and!; auto using map_insert_sorted with typeclass_instances.
Qed.

Lemma registerEvent_wf ec u : wf u -> wf (registerEvent ec u).
Proof.
  intros (Hl & ? & ?). unfold registerEvent. destruct (m_isTerminating u), (event_of ec); try done. split_and!; [|done|done].
  destruct Hl as (?&?&?&?&?&?&?&?). unfold local_wf. cbn. split_and!; auto using map_insert_sorted with typeclass_instances.
Qed.

Lemma registerIface_wf id p u : wf u -> wf (registerIface id p u).
Proof.
  intros (Hl & ? & ?). split_and!; [|done|done]. destruct Hl as (?&?&?&?&?&?&?&?). unfold local_wf. cbn.
  split_and!; auto using map_insert_sorted with typeclass_instances.
Qed.

Lemma registerPlugingInfo_wf pn pt id n evts u u' : wf u -> registerPlugingInfo pn pt id n evts u = Ok u' -> wf u'.
Proof.
  intros (Hl & ? & ?). unfold registerPlugingInfo. destruct (m_isTerminating u); [by intros [= <-]|].
  destruct (pt =? _); [|destruct (pt =? _); [|done]]; intros [= <-]; (split_and!; [|done|done]).
  - destruct Hl as (?&?&?&?&?&?&?&?). unfold local_wf. cbn. split_and!; auto.
  - cbn. apply name_service_wf. destruct Hl as (?&?&?&?&?&?&?&?). unfold local_wf. cbn. split_and!; auto using events_sorted.
Qed.

Lemma with_dlls_wf f u : (forall s, set_sorted Z.ltb s -> set_sorted Z.ltb (f s)) -> wf u -> wf (with_dlls f u).
Proof. intros Hf (? & ? & ?). split_and!; [done|by apply Hf|done]. Qed.

Lemma with_instances_wf f u : (forall s, set_sorted Z.ltb s -> set_sorted Z.ltb (f s)) -> wf u -> wf (with_instances f u).
Proof. intros Hf (? & ? & ?). split_and!; [done|done|by apply Hf]. Qed.

(** What holds before a sequence of registrations and is kept by each holds after. *)
Lemma fold_inv {A} (P : CUtils -> Prop) (f : CUtils -> A -> CUtils) l : (forall u a, P u -> P (f u a)) -> forall u, P u -> P (fold_left f l u).
Proof. intros Hf. induction l as [|a l IH]; intros u Hu; [done|]. apply IH, Hf, Hu. Qed.

Lemma fold_res_inv {A} (P : CUtils -> Prop) (f : A -> CUtils -> res CUtils) l :
  (forall a u, a ∈ l -> P u -> exists u', f a u = Ok u' /\ P u') -> forall u, P u -> exists u', fold_left (fun r a => u ← r; f a u) l (Ok u) = Ok u' /\ P u'.
Proof.
  induction l as [|a l IH]; intros Hf u Hu; [by exists u|]. cbn [fold_left]. rewrite res_bind_ok.
  destruct (Hf a u) as (u1 & E & H1); [apply elem_of_cons; by left|done|]. rewrite E. apply IH; [|done].
  intros a' u' Ha'. apply Hf. apply elem_of_cons. by right.
Qed.

Lemma register_all_wf md u : wf u -> wf (register_all md u).
Proof.
  intros Hu. unfold register_all. apply fold_inv; [intros; by apply registerEvent_wf|]. apply fold_inv; [|done].
  intros u' [] Hu'; [by apply registerService_wf|by apply registerIface_wf].
Qed.

Lemma registerPluginDLL_wf pn u : wf u -> wf (registerPluginDLL pn u).
Proof.
  intros Hu. unfold registerPluginDLL. destruct (m_isTerminating u); [done|]. destruct (dlopen (c_str pn)) as [h|]; [|done].
  assert (wf (with_dlls (set_insert Z.ltb h) u)) by (apply with_dlls_wf; [|done]; intros s Hs; exact (set_insert_sorted Z.ltb h s Hs)).
  destruct (dlsym h); [by apply register_all_wf|]. apply with_dlls_wf; [|done]. intros s Hs; exact (set_erase_sorted Z.ltb h s Hs).
Qed.

(** *** The files behind the tables *)

(** Each service and interface that is announced is provided by the file it is
    announced with. *)
Definition info_ok (u : CUtils) : Prop :=
  (forall id pn, map_find Z.ltb id (pi_services (local u)) = Some pn ->
     exists h md cs n, dlopen (c_str pn) = Some h /\ dlsym h = Some md /\ P_service id cs n ∈ md_provides md)
  /\ (forall id pn, map_find Z.ltb id (pi_ifaces (local u)) = Some pn ->
     exists h md p n, dlopen (c_str pn) = Some h /\ dlsym h = Some md /\ P_iface id p n ∈ md_provides md).

Lemma put_find {V} k (v : V) m j : map_sorted Z.ltb m -> map_find Z.ltb j (put k v m) = if j =? k then Some v else map_find Z.ltb j m.
Proof.
  intros Hm. destruct (Z.eqb_spec j k) as [-> |Hne]; [by apply (map_find_update_eq Z.ltb)|by apply (map_find_update_ne Z.ltb)].
Qed.

Lemma c_str_idem s : c_str (c_str s) = c_str s.
Proof. induction s as [|c s IH]; [done|]. cbn. destruct (c =? 0) eqn:E; [done|]. cbn. by rewrite E, IH. Qed.

(** What is loaded, and whether the program ends. *)
Definition loaded (u : CUtils) : bool * list Z * list (SERVICE_id * SC) * list (SERVICE_id * ptr) :=
  (m_isTerminating u, registered_dlls u, service_constructors (local u), ifaces (local u)).

Lemma register_info_ok pn h md evts p u :
  dlopen (c_str pn) = Some h -> dlsym h = Some md -> p ∈ md_provides md -> wf u -> info_ok u ->
  exists u', register_info pn evts p u = Ok u' /\ wf u' /\ info_ok u' /\ loaded u' = loaded u.
Proof.
  intros Ho Hs Hp Hw Hi.
  assert (exists u', register_info pn evts p u = Ok u') as [u' Hu'].
  { destruct p; cbn [register_info]; unfold registerPlugingInfo; destruct (m_isTerminating u); by eexists. }
  exists u'. split; [done|]. split; [by destruct p; eapply registerPlugingInfo_wf|].
  destruct Hw as ((_ & Hw1 & Hw2 & _) & _), Hi as [Hi1 Hi2].
  destruct p as [id cs n|id x n]; cbn [register_info] in Hu'; unfold registerPlugingInfo in Hu'; cbn in Hu';
    destruct (m_isTerminating u) eqn:Et; injection Hu' as <-; (split; [|done]); (split; [|done]) || (split; [done|]) || idtac; try done.
  - intros j f. cbn. rewrite put_find by done. destruct (Z.eqb_spec j id) as [-> |_]; [|apply Hi1]. intros [= <-]. by exists h, md, cs, n.
  - intros j f. cbn. rewrite put_find by done. destruct (Z.eqb_spec j id) as [-> |_]; [|apply Hi2]. intros [= <-]. by exists h, md, x, n.
Qed.

(** Only announcements so far. *)
Definition good (u : CUtils) : Prop := wf u /\ info_ok u /\ loaded u = (false, [], [], []).

Lemma load_info_good pn u : good u -> exists u', load_info pn u = Ok u' /\ good u'.
Proof.
  intros Hu. unfold load_info. destruct (stat_ok (c_str pn)); [|by exists u]. destruct (dlopen (c_str pn)) as [h|] eqn:Eo; [|by exists u].
  destruct (dlsym h) as [md|] eqn:Es; [|by exists u]. unfold register_infos. apply fold_res_inv; [|done].
  intros p u1 Hp (Hw & Hi & Ht). destruct (register_info_ok (c_str pn) h md (md_events md) p u1) as (u2 & E & ? & ? & ?); try done.
  { by rewrite c_str_idem. }
  exists u2. split; [done|]. split_and!; [done|done|congruence].
Qed.

Lemma load_plugins_info_good bases u : good u -> exists u', load_plugins_info bases u = Ok u' /\ good u'.
Proof.
  intros Hu. unfold load_plugins_info.
  apply (fold_res_inv good (fun b u => match readdir (c_str (expand_homedir b)) with
           | None => Ok u
           | Some names => fold_left (fun r pn => u ← r; load_info pn u) (plugin_files (expand_homedir b) names) (Ok u) end)); [|done].
  intros b u1 _ Hu1. destruct (readdir _) as [names|]; [|by exists u1]. apply (fold_res_inv good load_info); [|done].
  intros pn u2 _ Hu2. by apply load_info_good.
Qed.

(** *** Loading on demand *)

Lemma insert_find {V} k (v : V) m j :
  map_sorted Z.ltb m -> map_find Z.ltb j (map_insert Z.ltb k v m) = if j =? k then Some (default v (map_find Z.ltb j m)) else map_find Z.ltb j m.
Proof.
  intros Hm. destruct (Z.eqb_spec j k) as [-> |Hne]; [by apply (map_find_insert_eq Z.ltb)|by apply (map_find_insert_ne Z.ltb)].
Qed.

Definition has_service (id : SERVICE_id) (u : CUtils) : Prop := is_Some (map_find Z.ltb id (service_constructors (local u))).
Definition has_iface (id : SERVICE_id) (u : CUtils) : Prop := is_Some (map_find Z.ltb id (ifaces (local u))).

(** Registering keeps what is there and adds what is given. *)
Lemma register_provided_has p u :
  wf u -> m_isTerminating u = false ->
  m_isTerminating (register_provided p u) = false
  /\ (forall id, has_service id u \/ (exists cs n, p = P_service id cs n) -> has_service id (register_provided p u))
  /\ (forall id, has_iface id u \/ (exists x n, p = P_iface id x n) -> has_iface id (register_provided p u)).
Proof.
  intros ((Hi & _ & _ & _ & _ & _ & Hs & _) & _) Ht. destruct p as [j cs n|j x n]; cbn [register_provided].
  - unfold registerService. rewrite Ht. split_and!; [done| |intros id [H|(?&?&[=])]; done]. intros id H. unfold has_service in *. cbn.
    rewrite insert_find by done. destruct (Z.eqb_spec id j) as [-> |Hne]; [by eexists|]. destruct H as [H|(?&?&[= <- _ _])]; done.
  - unfold registerIface. split_and!; [done|intros id [H|(?&?&[=])]; done|]. intros id H. unfold has_iface in *. cbn.
    rewrite insert_find by done. destruct (Z.eqb_spec id j) as [-> |Hne]; [by eexists|]. destruct H as [H|(?&?&[= <- _ _])]; done.
Qed.

Lemma register_provided_wf p u : wf u -> wf (register_provided p u).
Proof. destruct p; [apply registerService_wf|apply registerIface_wf]. Qed.

Lemma register_list_has ps : forall u,
  wf u -> m_isTerminating u = false ->
  let u' := fold_left (fun u p => register_provided p u) ps u in
  wf u' /\ m_isTerminating u' = false
  /\ (forall id, has_service id u \/ (exists cs n, P_service id cs n ∈ ps) -> has_service id u')
  /\ (forall id, has_iface id u \/ (exists x n, P_iface id x n ∈ ps) -> has_iface id u').
Proof.
  induction ps as [|p ps IH]; intros u Hw Ht.
  { split_and!; try done; intros id [H|(?&?&H)]; try done; by apply not_elem_of_nil in H. }
  cbn [fold_left]. destruct (register_provided_has p u Hw Ht) as (Ht' & Hs & Hi).
  destruct (IH _ (register_provided_wf p u Hw) Ht') as (? & ? & Hs' & Hi'). split_and!; try done.
  - intros id [Hid|(cs&n&[<-|Hin]%elem_of_cons)]; apply Hs'; [left; apply Hs; by left|left; apply Hs; right; by eexists _, _|right; by eexists _, _].
  - intros id [Hid|(x&n&[<-|Hin]%elem_of_cons)]; apply Hi'; [left; apply Hi; by left|left; apply Hi; right; by eexists _, _|right; by eexists _, _].
Qed.

Lemma registerEvent_keeps ec u : service_constructors (local (registerEvent ec u)) = service_constructors (local u) /\ ifaces (local (registerEvent ec u)) = ifaces (local u).
Proof. unfold registerEvent. by destruct (m_isTerminating u), (event_of ec). Qed.

Lemma registerPluginDLL_has pn h md u :
  wf u -> m_isTerminating u = false -> dlopen (c_str pn) = Some h -> dlsym h = Some md ->
  let u' := registerPluginDLL pn u in
  (forall id cs n, P_service id cs n ∈ md_provides md -> has_service id u') /\ (forall id x n, P_iface id x n ∈ md_provides md -> has_iface id u').
Proof.
  intros Hw Ht Ho Hs. unfold registerPluginDLL. rewrite Ht, Ho, Hs. cbv zeta. set (u0 := with_dlls _ u).
  assert (wf u0) as Hw0 by (apply with_dlls_wf; [intros s Hs'; exact (set_insert_sorted Z.ltb h s Hs')|done]).
  destruct (register_list_has (md_provides md) u0 Hw0 Ht) as (_ & _ & H1 & H2). unfold register_all.
  set (u1 := fold_left (fun u p => register_provided p u) (md_provides md) u0) in *.
  assert (forall l u, service_constructors (local (fold_left (fun u ec => registerEvent ec u) l u)) = service_constructors (local u)
                      /\ ifaces (local (fold_left (fun u ec => registerEvent ec u) l u)) = ifaces (local u)) as Hk.
  { clear. induction l as [|ec l IH]; intros u; [done|]. cbn [fold_left]. rewrite !(proj1 (IH _)), !(proj2 (IH _)). apply registerEvent_keeps. }
  destruct (Hk (md_constructors md) u1) as [K1 K2]. unfold has_service, has_iface in *. rewrite K1, K2.
  split; intros id x n Hin; [apply H1|apply H2]; right; by eexists _, _.
Qed.

Lemma registerPluginDLL_running pn u : m_isTerminating u = false -> m_isTerminating (registerPluginDLL pn u) = false.
Proof.
  intros Hu. unfold registerPluginDLL. rewrite Hu. destruct (dlopen (c_str pn)) as [h|]; [|done]. destruct (dlsym h) as [md|]; [|done].
  unfold register_all. apply (fold_inv (fun u => m_isTerminating u = false)).
  { intros u1 ec H1. unfold registerEvent. rewrite H1. by destruct (event_of ec). }
  apply (fold_inv (fun u => m_isTerminating u = false)); [|done]. intros u1 [] H1; cbn; unfold registerService; by rewrite ?H1.
Qed.


(** ** Every operation *)

Inductive op : Type :=
| O_registerService (id : SERVICE_id) (cs : SC) (name : list Z)
| O_registerEvent (ec : EC)
| O_registerIface (id : SERVICE_id) (p : ptr)
| O_registerPlugingInfo (pn : list Z) (pt : Z) (id : SERVICE_id) (name : list Z) (evts : list EVENT_id)
| O_registerPluginDLL (pn : list Z)
| O_load_plugins_info (bases : list (list Z))
| O_queryIface (id : SERVICE_id)
| O_registerInstance (i : ptr)
| O_unregisterInstance (i : ptr)
| O_createNewInstance (i : ptr)
| O_setTerminate (flag : Z).

(** The state after a call, whether it returned or threw ([registerPlugingInfo] throws
    before it changes anything, [load_plugins_info] does not throw). *)
Definition apply_op (o : op) (u : CUtils) : CUtils :=
  match o with
  | O_registerService id cs n => registerService id cs n u
  | O_registerEvent ec => registerEvent ec u
  | O_registerIface id p => registerIface id p u
  | O_registerPlugingInfo pn pt id n evts => match registerPlugingInfo pn pt id n evts u with Ok u' => u' | Throw _ => u end
  | O_registerPluginDLL pn => registerPluginDLL pn u
  | O_load_plugins_info bases => match load_plugins_info bases u with Ok u' => u' | Throw _ => u end
  | O_queryIface id => (queryIface id u).2
  | O_registerInstance i => registerInstance i u
  | O_unregisterInstance i => unregisterInstance i u
  | O_createNewInstance i => (createNewInstance i u).2
  | O_setTerminate f => setTerminate f u
  end.

Lemma register_info_wf pn evts p u : wf u -> exists u', register_info pn evts p u = Ok u' /\ wf u' /\ (m_isTerminating u = true -> u' = u).
Proof.
  intros Hu. assert (exists u', register_info pn evts p u = Ok u' /\ (m_isTerminating u = true -> u' = u)) as (u' & H & Ht).
  { destruct p; cbn [register_info]; unfold registerPlugingInfo; destruct (m_isTerminating u); by eexists. }
  exists u'. split_and!; [done| |done]. by destruct p; eapply registerPlugingInfo_wf.
Qed.

(** Announcing keeps the tables maps; at the end of the program it does nothing. *)
Lemma load_plugins_info_wf bases u : wf u -> exists u', load_plugins_info bases u = Ok u' /\ wf u' /\ (m_isTerminating u = true -> u' = u).
Proof.
  intros Hu. unfold load_plugins_info. set (P u' := wf u' /\ (m_isTerminating u = true -> u' = u)).
  apply (fold_res_inv P (fun b u => match readdir (c_str (expand_homedir b)) with
           | None => Ok u
           | Some names => fold_left (fun r pn => u ← r; load_info pn u) (plugin_files (expand_homedir b) names) (Ok u) end)); [|by split].
  intros b u1 _ Hu1. destruct (readdir _) as [names|]; [|by exists u1]. apply (fold_res_inv P load_info); [|done].
  intros pn u2 _ Hu2. unfold load_info. destruct (stat_ok (c_str pn)); [|by exists u2]. destruct (dlopen (c_str pn)) as [h|]; [|by exists u2].
  destruct (dlsym h) as [md|]; [|by exists u2]. unfold register_infos. apply (fold_res_inv P); [|done].
  intros p u3 _ [Hw3 Ht3]. destruct (register_info_wf (c_str pn) (md_events md) p u3 Hw3) as (u4 & E & Hw4 & Ht4).
  exists u4. split; [done|]. split; [done|]. intros Ht. specialize (Ht3 Ht). subst u3. by apply Ht4.
Qed.

Lemma apply_op_wf o u : wf u -> wf (apply_op o u).
Proof.
  intros Hu. destruct o; cbn [apply_op].
  - by apply registerService_wf.
  - by apply registerEvent_wf.
  - by apply registerIface_wf.
  - destruct (registerPlugingInfo pn pt id name evts u) eqn:E; [by eapply registerPlugingInfo_wf|done].
  - by apply registerPluginDLL_wf.
  - by destruct (load_plugins_info_wf bases u Hu) as (u' & -> & ? & _).
  - unfold queryIface. destruct (m_isTerminating u); [done|]. destruct (map_find Z.ltb id (ifaces (local u))); [done|].
    destruct (map_find Z.ltb id (pi_ifaces (local u))) as [pn|]; [|done]. cbv zeta. pose proof (registerPluginDLL_wf pn u Hu).
    by destruct (map_find Z.ltb id (ifaces (local (registerPluginDLL pn u)))).
  - unfold registerInstance. destruct (m_isTerminating u); [done|]. apply with_instances_wf; [|done]. intros s Hs. exact (set_insert_sorted Z.ltb _ s Hs).
  - apply with_instances_wf; [|done]. intros s Hs. exact (set_erase_sorted Z.ltb _ s Hs).
  - unfold createNewInstance. destruct (m_isTerminating u); [done|]. cbn [snd]. apply with_instances_wf; [|done]. intros s Hs. exact (set_insert_sorted Z.ltb _ s Hs).
  - done.
Qed.


(** After [setTerminate] the tables are frozen, but for [registerIface], which does
    not test for it. *)
Lemma terminated_frozen o u :
  wf u -> m_isTerminating u = true ->
  match o with O_registerIface _ _ | O_unregisterInstance _ | O_setTerminate _ => True | _ => apply_op o u = u end
  /\ (forall id, queryIface id u = (Throw (CommonError "terminating"), u)) /\ getInstances u = Throw (CommonError "if(m_isTerminating)").
Proof.
  intros Hw Ht. split_and!.
  2: { intros id. unfold queryIface. by rewrite Ht. }
  2: { unfold getInstances. by rewrite Ht. }
  destruct o; cbn [apply_op]; try done.
  - unfold registerService. by rewrite Ht.
  - unfold registerEvent. by rewrite Ht.
  - unfold registerPlugingInfo. by rewrite Ht.
  - unfold registerPluginDLL. by rewrite Ht.
  - destruct (load_plugins_info_wf bases u Hw) as (u' & -> & _ & H). by apply H.
  - unfold queryIface. by rewrite Ht.
  - unfold registerInstance. by rewrite Ht.
  - unfold createNewInstance. by rewrite Ht.
Qed.

(** Names: the last name given to a service and the last service given a name are the
    ones found; the first constructor stays. *)
Lemma registerService_names id cs name u :
  wf u -> m_isTerminating u = false ->
  let u' := registerService id cs name u in
  serviceName id u' = name /\ serviceIdByName name u' = Ok id
  /\ map_find Z.ltb id (service_constructors (local u')) = Some (default cs (map_find Z.ltb id (service_constructors (local u)))).
Proof.
  intros ((_ & _ & _ & _ & Hn & Hi & Hs & _) & _) Ht. unfold registerService. rewrite Ht. cbv zeta.
  unfold serviceName, serviceIdByName. cbn [local with_local name_service id2name name2id service_constructors]. rewrite put_find, Z.eqb_refl, map_find_assign_eq, insert_find, Z.eqb_refl by done. done.
Qed.
End Registry.

(** A directory with one plugin: announced, and loaded when its interface is asked
    for. *)
Lemma plugin_sample :
  let oscar := mkModule (SC := Z) (EC := Z) [P_service 5 77 (lit "Oscar"); P_iface 6 400 (lit "SSL")] [11; 12] [11] in
  let dlopen p := if bool_decide (p = lit "/p/o.so") then Some 1 else None in
  let dlsym (h : Z) := Some oscar in
  let readdir d := if bool_decide (d = lit "/p") then Some [lit "."; lit ".."; lit "o.so"; lit "x.txt"] else None in
  match load_plugins_info dlopen dlsym readdir (fun _ => true) (Some (lit "/p")) [lit "~"; lit "/none"] CUtils_new with
  | Ok u => serviceIdByName (lit "Oscar") u = Ok 5 /\ isServiceRegistered 5 u = true /\ service_constructors (local u) = []
            /\ let '(r, u') := queryIface Some dlopen dlsym 6 u in
               r = Ok 400 /\ service_constructors (local u') = [(5, 77)] /\ registered_dlls u' = [1] /\ event_constructors (local u') = [(11, 11)]
  | Throw _ => False
  end.
Proof. vm_compute. by split_and!. Qed.
