(* ===== verification/SocketInfo.v ===== *)
(** One socket: [epoll_socket_info], its two buffers and its registration with
    the selector (corelib/epoll_socket_info.h, epoll_socket_info.cpp and the
    epoll branch of networkMultiplexor.cpp).

    System calls are arguments: [ctl] is whether [epoll_ctl] succeeded, [res]
    is what [send(2)] or [SSL_write] returned.  [interest] is the event mask the
    selector holds for the socket, [true] when it includes EPOLLOUT.

    [wstep] is the interleaving of writers and the socket thread at the
    granularity of the buffer lock: an [append] is two steps, because the lock
    is released before [sockStartWrite] is called. *)

From Stdlib Require Import ZArith Lia.
From stdpp Require Import base list strings numbers relations.
From S2P Require Import Prelude StdMap IoBuffer Codec Route Sockaddr Events.
Open Scope Z_scope.

Inductive STREAMTYPE : Type :=
| STREAMTYPE_ACCEPTED | STREAMTYPE_CONNECTED | STREAMTYPE_LISTENING | STREAMTYPE_UDP_ASSOC.

#[export] Instance STREAMTYPE_eq_dec : EqDecision STREAMTYPE.
Proof. solve_decision. Defined.

Record epoll_socket_info : Type := mkEsi {
  streamType_ : STREAMTYPE;
  id_ : SOCKET_id;
  fd_ : Z;
  m_route : route_t;
  outBuffer_ : list Z;              (* socketBuffersOut::container_ *)
  markedToDestroyOnSend_ : bool;
  inBuffer_ : list Z;               (* _inBuffer::_mx_data *)
  ev_added : bool;
  interest : bool;
}.

Definition set_fd (s : epoll_socket_info) (fd : Z) : epoll_socket_info :=
  mkEsi (streamType_ s) (id_ s) fd (m_route s) (outBuffer_ s) (markedToDestroyOnSend_ s)
        (inBuffer_ s) (ev_added s) (interest s).
Definition set_out (s : epoll_socket_info) (o : list Z) : epoll_socket_info :=
  mkEsi (streamType_ s) (id_ s) (fd_ s) (m_route s) o (markedToDestroyOnSend_ s)
        (inBuffer_ s) (ev_added s) (interest s).
Definition set_marked (s : epoll_socket_info) : epoll_socket_info :=
  mkEsi (streamType_ s) (id_ s) (fd_ s) (m_route s) (outBuffer_ s) true
        (inBuffer_ s) (ev_added s) (interest s).
Definition set_in (s : epoll_socket_info) (i : list Z) : epoll_socket_info :=
  mkEsi (streamType_ s) (id_ s) (fd_ s) (m_route s) (outBuffer_ s) (markedToDestroyOnSend_ s)
        i (ev_added s) (interest s).
Definition set_interest (s : epoll_socket_info) (added i : bool) : epoll_socket_info :=
  mkEsi (streamType_ s) (id_ s) (fd_ s) (m_route s) (outBuffer_ s) (markedToDestroyOnSend_ s)
        (inBuffer_ s) added i.

(** The constructor. *)
Definition esi_new (ty : STREAMTYPE) (id : SOCKET_id) (fd : Z) (r : route_t) : epoll_socket_info :=
  mkEsi ty id fd r [] false [] false false.

Definition closed (s : epoll_socket_info) : bool := fd_ s =? -1.

(** [close]: the descriptor is closed once and forgotten. *)
Definition esi_close (s : epoll_socket_info) : epoll_socket_info :=
  if fd_ s =? -1 then s
  else if closed s then s
  else set_fd s (-1).

(** [epoll_ctl] with the mask [out]; the flag [ev_added] is set even when the
    descriptor is gone, and a failed call closes the socket. *)
Definition epoll_ctl_mask (out ctl : bool) (s : epoll_socket_info) : epoll_socket_info :=
  let s1 := set_interest s true (interest s) in
  if fd_ s =? -1 then s1
  else if ctl then set_interest s1 true out
  else if negb (closed s1) then esi_close s1 else s1.

Definition sockStartWrite := epoll_ctl_mask true.
Definition sockStopWrite := epoll_ctl_mask false.
Definition sockAddReadOnNew := epoll_ctl_mask false.

(** [sockAddRWOnNew] only logs a failure. *)
Definition sockAddRWOnNew (ctl : bool) (s : epoll_socket_info) : epoll_socket_info :=
  set_interest s true (if ctl then true else interest s).

(** ** Out buffer *)

(** The part of [append] under the lock. *)
Definition out_append (s : epoll_socket_info) (d : list Z) : epoll_socket_info :=
  set_out s (outBuffer_ s ++ d).

Definition append (ctl : bool) (s : epoll_socket_info) (d : list Z) : epoll_socket_info :=
  sockStartWrite ctl (out_append s d).

Definition append_and_close (ctl : bool) (s : epoll_socket_info) (d : list Z) : epoll_socket_info :=
  sockStartWrite ctl (set_marked (out_append s d)).

Definition write_buf (ctl : bool) (s : epoll_socket_info) (d : list Z) : epoll_socket_info :=
  if negb (closed s) then append ctl s d else s.
Definition write_ (ctl : bool) (s : epoll_socket_info) (d : list Z) : epoll_socket_info :=
  if negb (closed s) then append ctl s d else s.
Definition write_and_close (ctl : bool) (s : epoll_socket_info) (d : list Z) : epoll_socket_info :=
  if negb (closed s) then append_and_close ctl s d else s.

(** [socketBuffersOut::send], whole under the lock; [res] is what the system
    call answers when it is made.  Returns the result and the bytes that left. *)
Definition send (ctl : bool) (res : Z) (s : epoll_socket_info) : Z * epoll_socket_info :=
  let c := outBuffer_ s in
  let called := negb (length c =? 0)%nat in
  let s1 := if called && (0 <? res)
            then set_out s (if res =? Z.of_nat (length c) then [] else drop (Z.to_nat res) c)
            else s in
  (if called then res else 0,
   if (length (outBuffer_ s1) =? 0)%nat then sockStopWrite ctl s1 else s1).

(** ** In buffer *)

Definition in_append (s : epoll_socket_info) (d : list Z) : epoll_socket_info :=
  set_in s (inBuffer_ s ++ d).
Definition in_size (s : epoll_socket_info) : nat := length (inBuffer_ s).
Definition extract_all (s : epoll_socket_info) : list Z * epoll_socket_info :=
  (inBuffer_ s, set_in s []).

(** ** Writers and the socket thread *)

(** A writer between the two halves of its [append]; what the kernel took. *)
Record wstate : Type := mkW { w_esi : epoll_socket_info; w_pending : nat; w_sent : list Z; w_all : list Z }.

Inductive wstep : wstate -> wstate -> Prop :=
| W_append s n sent all d :
    closed s = false ->
    wstep (mkW s n sent all) (mkW (out_append s d) (S n) sent (all ++ d))
| W_start ctl s n sent all :
    wstep (mkW s (S n) sent all) (mkW (sockStartWrite ctl s) n sent all)
| W_send ctl res s n sent all :
    closed s = false -> res <= Z.of_nat (length (outBuffer_ s)) ->
    wstep (mkW s n sent all)
          (mkW (snd (send ctl res s)) n (sent ++ take (Z.to_nat res) (outBuffer_ s)) all).

(** ** Facts *)

Lemma epoll_ctl_mask_buffers out ctl s :
  outBuffer_ (epoll_ctl_mask out ctl s) = outBuffer_ s
  /\ inBuffer_ (epoll_ctl_mask out ctl s) = inBuffer_ s.
Proof.
  unfold epoll_ctl_mask, esi_close, closed. cbn [fd_ set_interest].
  by destruct (fd_ s =? -1), ctl.
Qed.

(** After the call the socket is closed or has the mask asked for. *)
Lemma epoll_ctl_mask_interest out ctl s :
  closed (epoll_ctl_mask out ctl s) = true \/ interest (epoll_ctl_mask out ctl s) = out.
Proof.
  unfold epoll_ctl_mask, esi_close, closed. cbn [fd_ set_interest].
  destruct (fd_ s =? -1) eqn:E; [by left|]. destruct ctl; [by right|]. left. cbn. by rewrite ?E.
Qed.

(** The bytes that stay behind, whatever the selector answers. *)
Lemma send_out ctl res s :
  res <= Z.of_nat (length (outBuffer_ s)) ->
  outBuffer_ (snd (send ctl res s)) = drop (Z.to_nat res) (outBuffer_ s).
Proof.
  intros Hr. unfold send. cbn [snd].
  set (s1 := if _ && _ then _ else s).
  assert (outBuffer_ s1 = drop (Z.to_nat res) (outBuffer_ s)) as E.
  { subst s1. destruct (Nat.eqb_spec (length (outBuffer_ s)) 0) as [E|E]; cbn [negb andb].
    - apply length_zero_iff_nil in E. by rewrite E, drop_nil.
    - destruct (Z.ltb_spec 0 res); [|by replace (Z.to_nat res) with 0%nat by lia].
      destruct (Z.eqb_spec res (Z.of_nat (length (outBuffer_ s)))) as [->|]; [|done].
      by rewrite Nat2Z.id, drop_all. }
  rewrite <- E. destruct (length (outBuffer_ s1) =? 0)%nat; [|done].
  apply epoll_ctl_mask_buffers.
Qed.

(** While bytes stay behind, the socket and its mask are untouched. *)
Lemma send_keeps ctl res s :
  outBuffer_ (snd (send ctl res s)) <> [] ->
  interest (snd (send ctl res s)) = interest s /\ closed (snd (send ctl res s)) = closed s
  /\ outBuffer_ s <> [].
Proof.
  unfold send. cbn [snd]. set (s1 := if _ && _ then _ else s).
  assert (interest s1 = interest s /\ closed s1 = closed s /\ (outBuffer_ s = [] -> outBuffer_ s1 = [])) as (Hi & Hc & Ho).
  { subst s1. destruct (outBuffer_ s) eqn:E; cbn [length Nat.eqb negb andb]; [done|].
    by destruct (0 <? res). }
  destruct (Nat.eqb_spec (length (outBuffer_ s1)) 0) as [E|E].
  - unfold sockStopWrite. rewrite (proj1 (epoll_ctl_mask_buffers _ _ _)).
    by apply length_zero_iff_nil in E.
  - intros Hn. split; [done|]. split; [done|]. intros Hs. by apply Hn, Ho.
Qed.

(** Nothing is lost, repeated or reordered between the writers and the kernel,
    and a socket with bytes to send is watched for writing or about to be. *)
Definition winv (w : wstate) : Prop :=
  w_sent w ++ outBuffer_ (w_esi w) = w_all w
  /\ (closed (w_esi w) = false -> outBuffer_ (w_esi w) <> [] ->
      interest (w_esi w) = true \/ (0 < w_pending w)%nat).

Lemma winv_init s : outBuffer_ s = [] -> winv (mkW s 0 [] []).
Proof. intros Hs. split; cbn; [by rewrite Hs | by intros ??]. Qed.

Lemma winv_step w1 w2 : wstep w1 w2 -> winv w1 -> winv w2.
Proof.
  intros Hs [Ha Hw]. unfold winv in *.
  destruct Hs as [s n sent all d Hc|ctl s n sent all|ctl res s n sent all Hc Hr];
    cbn [w_esi w_pending w_sent w_all] in *.
  - split; [cbn; by rewrite app_assoc, Ha|]. intros _ _. right. lia.
  - unfold sockStartWrite. rewrite (proj1 (epoll_ctl_mask_buffers _ _ _)). split; [done|].
    intros Hcl Hne. left. destruct (epoll_ctl_mask_interest true ctl s); congruence.
  - split.
    + rewrite send_out by done. by rewrite <- app_assoc, take_drop.
    + intros Hcl Hne. apply send_keeps in Hne as (-> & Hcl' & Hne). by apply Hw.
Qed.

Lemma winv_reachable w1 w2 : rtc wstep w1 w2 -> winv w1 -> winv w2.
Proof. induction 1; eauto using winv_step. Qed.

(** ** Properties *)

(** C24: With any number of writers that append and then arm the selector, and
    the poller sending what the kernel takes, in any order: the kernel gets the
    bytes in the order they were appended, none twice and none missing, and an
    open socket that has bytes to send is watched for writing or has a writer
    about to arm it. *)
Theorem socket_bytes_in_order s w :
  outBuffer_ s = [] -> rtc wstep (mkW s 0 [] []) w ->
  w_sent w ++ outBuffer_ (w_esi w) = w_all w
  /\ (closed (w_esi w) = false -> outBuffer_ (w_esi w) <> [] ->
      interest (w_esi w) = true \/ (0 < w_pending w)%nat).
Proof. intros Hs Hr. exact (winv_reachable _ _ Hr (winv_init s Hs)). Qed.

Lemma socket_bytes_in_order_witness :
  let s := esi_new STREAMTYPE_CONNECTED 1 5 [] in
  let w := mkW (set_out (set_interest s true true) [3]) 0 [1; 2] [1; 2; 3] in
  w_sent w ++ outBuffer_ (w_esi w) = w_all w
  /\ (closed (w_esi w) = false -> outBuffer_ (w_esi w) <> [] -> interest (w_esi w) = true \/ (0 < w_pending w)%nat).
Proof.
  intros s w. apply (socket_bytes_in_order s w); [reflexivity|].
  eapply rtc_l; [exact (W_append s 0 [] [] [1; 2; 3] eq_refl)|].
  eapply rtc_l; [exact (W_start true _ 0 [] [1; 2; 3])|].
  eapply rtc_l; [apply (W_send true 2); [reflexivity | vm_compute; discriminate]|].
  apply rtc_refl.
Defined.
