(* ===== verification/Service.v ===== *)
(** What a service asks of the instance it runs in: the calls of
    [Broadcaster] (corelib/broadcaster.cpp) and of the sockets it holds.

    A handler is a function from the service's state and an event to the new
    state and the list of these calls, in program order. *)

From Stdlib Require Import ZArith Lia.
From stdpp Require Import base gmap list strings numbers.
From S2P Require Import Prelude StdMap IoBuffer Codec Route CLib Sockaddr Events.
Open Scope Z_scope.

Inductive action : Type :=
| A_send (svs : SERVICE_id) (e : Event)            (* sendEvent(SERVICE_id, e) *)
| A_sendListener (l : ptr) (e : Event)             (* sendEvent(ListenerBase*, e) *)
| A_sendAddr (addr : msockaddr_in) (svs : SERVICE_id) (e : Event)
| A_sendHost (host : list Z) (svs : SERVICE_id) (e : Event)
| A_pass (e : Event)                               (* passEvent(e) *)
| A_write (esi : ptr) (d : list Z)                 (* esi->write_buf *)
| A_write_and_close (esi : ptr) (d : list Z)
| A_close (esi : ptr) (reason : list Z).           (* esi->close *)

(** Service identifiers. *)
Module ServiceEnum.
Definition Socket : SERVICE_id := gid "@g_Socket".
Definition Oscar : SERVICE_id := gid "@g_Oscar".
Definition RPC : SERVICE_id := gid "@g_RPC".
Definition ObjectProxyPolled : SERVICE_id := gid "@g_ObjectProxyPolled".
Definition ObjectProxyThreaded : SERVICE_id := gid "@g_ObjectProxyThreaded".
Definition Timer : SERVICE_id := gid "@g_Timer".
Definition HTTP : SERVICE_id := gid "@g_HTTP".
Definition Telnet : SERVICE_id := gid "@g_Telnet".
Definition WebHandler : SERVICE_id := gid "@g_WebHandler".
Definition WebSocketClient : SERVICE_id := gid "@g_WebSocketClient".
Definition ErrorDispatcher : SERVICE_id := gid "@g_ErrorDispatcher".
Definition Logger : SERVICE_id := gid "@g_Logger".
Definition DFSCaps : SERVICE_id := gid "@g_DFSCaps".
Definition DFSReferrer : SERVICE_id := gid "@g_DFSReferrer".
Definition ReferrerClient : SERVICE_id := gid "@g_RefferrerClient".
End ServiceEnum.

(** What a handler returns: whether it took the event, the state, the calls. *)
Definition handled (S : Type) : Type := bool * S * list action.

(** ** Handlers with effects

    A handler that may throw keeps the changes it made before the throw: it is
    a function from the state to an outcome, the state it left and the calls it
    made. *)

Definition M (S A : Type) : Type := S -> res A * S * list action.

#[export] Instance M_ret S : MRet (M S) := fun A a s => (Ok a, s, []).
#[export] Instance M_bind S : MBind (M S) :=
  fun A B f m s =>
    match m s with
    | (Ok a, s1, l1) => let '(r, s2, l2) := f a s1 in (r, s2, l1 ++ l2)
    | (Throw e, s1, l1) => (Throw e, s1, l1)
    end.

Definition throw {S A} (e : exn) : M S A := fun s => (Throw e, s, []).
Definition gets {S A} (f : S -> A) : M S A := fun s => (Ok (f s), s, []).
Definition modify {S} (f : S -> S) : M S unit := fun s => (Ok tt, f s, []).
Definition emit {S} (a : action) : M S unit := fun s => (Ok tt, s, [a]).
Definition lift {S A} (r : res A) : M S A := fun s => (r, s, []).

(** [try { m } catch (const std::exception &e) { h }]. *)
Definition try_catch {S A} (m : M S A) (h : M S A) : M S A :=
  fun s => match m s with
           | (Throw e, s1, l1) =>
               if catchable e then let '(r, s2, l2) := h s1 in (r, s2, l1 ++ l2)
               else (Throw e, s1, l1)
           | x => x
           end.

(** [passEvent]: the last hop is popped, which throws on an empty route; what
    follows is handled by the receiver. *)
Definition passEvent_ {S} (e : Event) : M S unit :=
  _ ← lift (pop_back (ev_route e)); emit (A_pass e).

Definition foreach {S A} (f : A -> M S unit) : list A -> M S unit :=
  fix go l := match l with
              | [] => mret tt
              | x :: l' => _ ← f x; go l'
              end.

Lemma M_bind_eq {S A B} (m : M S A) (f : A -> M S B) s :
  (m ≫= f) s = match m s with
               | (Ok a, s1, l1) => let '(r, s2, l2) := f a s1 in (r, s2, l1 ++ l2)
               | (Throw e, s1, l1) => (Throw e, s1, l1)
               end.
Proof. reflexivity. Qed.

Lemma foreach_cons {S A} (f : A -> M S unit) x l : foreach f (x :: l) = (_ ← f x; foreach f l).
Proof. reflexivity. Qed.

(** A first part that makes no calls. *)
Lemma M_bind_silent {S A B} (m : M S A) (f : A -> M S B) s a s1 : m s = (Ok a, s1, []) -> (m ≫= f) s = f a s1.
Proof. intros H. rewrite M_bind_eq, H. by destruct (f a s1) as [[r s2] l]. Qed.

(** Shared objects are in a heap; an update of one that is there. *)
Lemma alter_known {A} (f : A -> A) (m : gmap ptr A) p x : m !! p = Some x -> alter f p m = <[p := f x]> m.
Proof.
  intros H. apply map_eq. intros q. destruct (decide (q = p)) as [->|Hq].
  - by rewrite lookup_alter_eq, H, lookup_insert_eq.
  - by rewrite lookup_alter_ne, lookup_insert_ne.
Qed.

Lemma passEvent_ok {S} (s : S) e : ev_route e <> [] -> passEvent_ e s = (Ok tt, s, [A_pass e]).
Proof.
  intros He. unfold passEvent_. rewrite M_bind_eq. unfold lift, pop_back.
  destruct (list.last (ev_route e)) eqn:E; [done|]. by apply last_None in E.
Qed.
