(* ===== verification/ErrorLog.v ===== *)
(** Two small services: the error dispatcher (modules/errorDispatcher) and the logger
    (modules/logger). *)

From Stdlib Require Import ZArith Lia.
From stdpp Require Import base strings numbers list.
From S2P Require Import Prelude StdMap IoBuffer Codec Route CLib Sockaddr Events Service.
Open Scope Z_scope.

(** ** ErrorDispatcher *)

Module ErrorDispatcher.

Record ErrDisp : Type := mkErrDisp { m_subscribers : list route_t (* std::set<route_t> *) }.

Definition on_startService : M ErrDisp bool := mret true.

Definition on_Subscribe (r : route_t) : M ErrDisp bool :=
  _ ← modify (fun s => mkErrDisp (set_insert route_lt r (m_subscribers s))); mret true.

Definition on_UnsubscribeAll (r : route_t) : M ErrDisp bool :=
  _ ← modify (fun s => mkErrDisp (set_erase route_lt r (m_subscribers s))); mret true.

Definition notify (opcode msg : list Z) (r : route_t) : M ErrDisp unit :=
  r' ← lift (poppedFrontRoute r); passEvent_ (mkEvent (Eerrdisp (errorDispatcherEvent.NotifySubscriber opcode msg)) r').

Definition on_SendMessage (opcode msg : list Z) : M ErrDisp bool :=
  subs ← gets m_subscribers; _ ← foreach (notify opcode msg) subs; mret true.

(** The tests of [on_IncomingOnAcceptor] on the event it carries. *)
Definition on_IncomingOnAcceptor (e : Event) : M ErrDisp bool :=
  match ev_body e with
  | Eerrdisp errorDispatcherEvent.Subscribe => on_Subscribe (ev_route e)
  | Eerrdisp errorDispatcherEvent.Unsubscribe => on_UnsubscribeAll (ev_route e)
  | Eerrdisp (errorDispatcherEvent.SendMessage op msg) => on_SendMessage op msg
  | _ => mret false
  end.

(** The tests of [handleEvent] on the identifier. *)
Definition dispatch (e : Event) : M ErrDisp bool :=
  match ev_body e with
  | Eerrdisp errorDispatcherEvent.Subscribe => on_Subscribe (ev_route e)
  | Eerrdisp errorDispatcherEvent.Unsubscribe => on_UnsubscribeAll (ev_route e)
  | Eerrdisp (errorDispatcherEvent.SendMessage op msg) => on_SendMessage op msg
  | Esystem systemEvent.startService => on_startService
  | Erpc (rpcEvent.IncomingOnAcceptor _ ev) => on_IncomingOnAcceptor ev
  | _ => mret false
  end.

(** [handleEvent] on the event at the address [p].  The [static_cast] to [Subscribe]
    gives the same address for an event of any class, and [on_Subscribe] only reads
    the route through it. *)
Definition handleEvent (p : ptr) (e : Event) : M ErrDisp bool := if is_valid p then on_Subscribe (ev_route e) else dispatch e.

Definition run (es : list (ptr * Event)) : M ErrDisp unit := foreach (fun pe => _ ← handleEvent pe.1 pe.2; mret tt) es.

Lemma run_subscribes es : forall s,
  Forall (fun pe => is_valid pe.1 = true) es ->
  run es s = (Ok tt, mkErrDisp (fold_left (fun acc pe => set_insert route_lt (ev_route pe.2) acc) es (m_subscribers s)), []).
Proof.
  induction es as [|[p e] es IH]; intros [subs] Hv; [done|]. inversion_clear Hv as [|? ? Hp Hv']. cbn in Hp.
  unfold run. rewrite foreach_cons, (M_bind_silent _ _ _ tt (mkErrDisp (set_insert route_lt (ev_route e) subs))).
  - apply (IH (mkErrDisp (set_insert route_lt (ev_route e) subs)) Hv').
  - unfold handleEvent. cbn [fst snd]. by rewrite Hp.
Qed.

Lemma fold_insert_count es : forall subs r,
  set_sorted route_lt subs ->
  set_count route_lt r (fold_left (fun acc pe => set_insert route_lt (ev_route (pe : ptr * Event).2) acc) es subs)
  = bool_decide (r ∈ ((fun pe => ev_route pe.2) <$> es)) || set_count route_lt r subs.
Proof.
  induction es as [|[p e] es IH]; intros subs r Hs; [done|]. cbn [fold_left]. rewrite IH by (by apply set_insert_sorted; [apply _|]).
  rewrite fmap_cons. cbn [snd]. destruct (decide (r = ev_route e)) as [-> |Hne].
  - rewrite set_count_insert_eq by (done || apply _). rewrite orb_true_r. by rewrite bool_decide_true by (apply elem_of_cons; by left).
  - rewrite set_count_insert_ne by (done || apply _). f_equal. apply bool_decide_ext. rewrite elem_of_cons. tauto.
Qed.

(** the error dispatcher never dispatches.  [handleEvent] casts every event to
    [Subscribe] before it looks at the identifier, and the cast never gives null: for
    every sequence of events (messages to dispatch, unsubscriptions, the start of the
    service and remote requests among them) it makes no call, answers nobody, and
    ends with the routes of all the events as its subscribers. *)
Lemma error_dispatcher_deaf (es : list (ptr * Event)) :
  Forall (fun pe => is_valid pe.1 = true) es ->
  exists subs, run es (mkErrDisp []) = (Ok tt, mkErrDisp subs, [])
    /\ forall r, set_count route_lt r subs = bool_decide (r ∈ ((fun pe => ev_route pe.2) <$> es)).
Proof.
  intros Hv. eexists. split; [by apply run_subscribes|]. intros r. cbn [m_subscribers]. rewrite fold_insert_count by done. apply orb_false_r.
Qed.

(** A message to dispatch, and one that unsubscribes: both subscribe. *)
Lemma error_dispatcher_deaf_witness :
  exists subs, run [(8, mkEvent (Eerrdisp (errorDispatcherEvent.SendMessage (lit "op") (lit "m"))) [LOCALSERVICE 1; LOCALSERVICE 2]);
                    (9, mkEvent (Eerrdisp errorDispatcherEvent.Unsubscribe) [LOCALSERVICE 1])] (mkErrDisp [])
               = (Ok tt, mkErrDisp subs, [])
    /\ set_count route_lt [LOCALSERVICE 1] subs = true.
Proof.
  destruct (error_dispatcher_deaf
    [(8, mkEvent (Eerrdisp (errorDispatcherEvent.SendMessage (lit "op") (lit "m"))) [LOCALSERVICE 1; LOCALSERVICE 2]);
     (9, mkEvent (Eerrdisp errorDispatcherEvent.Unsubscribe) [LOCALSERVICE 1])]) as (subs & H & Hc).
  { repeat constructor. }
  exists subs. split; [exact H|]. rewrite Hc. by vm_compute.
Defined.

(** What the tests below the cast would do: every subscriber whose route has two
    hops or more is notified once, in the order of the set. *)
Lemma dispatch_notifies op msg subs :
  Forall (fun r => (2 <= length r)%nat) subs ->
  dispatch (mkEvent (Eerrdisp (errorDispatcherEvent.SendMessage op msg)) []) (mkErrDisp subs)
  = (Ok true, mkErrDisp subs, (fun r => A_pass (mkEvent (Eerrdisp (errorDispatcherEvent.NotifySubscriber op msg)) (removelast r))) <$> subs).
Proof.
  intros H. unfold dispatch. cbn [ev_body]. unfold on_SendMessage. rewrite (M_bind_silent (gets m_subscribers) _ (mkErrDisp subs) subs _ eq_refl). rewrite M_bind_eq.
  assert (forall s, foreach (notify op msg) subs s
    = (Ok tt, s, (fun r => A_pass (mkEvent (Eerrdisp (errorDispatcherEvent.NotifySubscriber op msg)) (removelast r))) <$> subs)) as ->; [|cbn [mret M_ret]; by rewrite app_nil_r].
  clear -H. induction H as [|r subs Hr H IH]; intros s; [done|]. rewrite foreach_cons, M_bind_eq.
  destruct (exists_last (l := r)) as (r' & h & ->); [by intros ->; cbn in Hr; lia|].
  assert (notify op msg (r' ++ [h]) s = (Ok tt, s, [A_pass (mkEvent (Eerrdisp (errorDispatcherEvent.NotifySubscriber op msg)) r')])) as ->.
  { unfold notify. rewrite (M_bind_silent (lift _) _ _ r' s).
    - apply passEvent_ok. cbn. intros ->. cbn in Hr. lia.
    - unfold lift, poppedFrontRoute, pop_back. by rewrite last_snoc, removelast_last. }
  rewrite IH. rewrite fmap_cons, removelast_last. done.
Qed.
End ErrorDispatcher.

(** ** Logger *)

Module Logger.

(** The text of the open file; [None] is the null pointer. *)
Record Logger : Type := mkLogger { log_file : option (list Z) }.

Definition getLogName (app_name gLogDir : list Z) : list Z := gLogDir ++ lit "/" ++ (app_name ++ lit ".log").

Section Handlers.
(** Whether [fopen(name, "w")] succeeds, the name of the program and of the directory. *)
Context (fopen : list Z -> bool) (app_name gLogDir : list Z).

Definition on_startService : M Logger bool :=
  let ln := getLogName app_name gLogDir in
  if fopen (c_str ln) then _ ← modify (fun _ => mkLogger (Some [])); mret true
  else _ ← modify (fun _ => mkLogger None); throw (CommonError "fopen failed").

(** [fprintf(log_file, "%s %s\n", ...)]. *)
Definition log_line (opcode msg : list Z) : list Z := c_str opcode ++ [32] ++ c_str msg ++ [10].

Definition on_LogMessage (opcode msg : list Z) : M Logger bool :=
  f ← gets log_file;
  match f with
  | None => throw (UB "fprintf to a null file")
  | Some t => _ ← modify (fun _ => mkLogger (Some (t ++ log_line opcode msg))); mret true
  end.

Definition on_IncomingOnAcceptor (e : Event) : M Logger bool :=
  match ev_body e with
  | Elogger (loggerEvent.LogMessage op msg) => on_LogMessage op msg
  | _ => mret false
  end.

Definition handleEvent (e : Event) : M Logger bool :=
  match ev_body e with
  | Elogger (loggerEvent.LogMessage op msg) => on_LogMessage op msg
  | Esystem systemEvent.startService => on_startService
  | Erpc (rpcEvent.IncomingOnAcceptor _ ev) => on_IncomingOnAcceptor ev
  | _ => mret false
  end.

Definition run (es : list Event) : M Logger unit := foreach (fun e => _ ← handleEvent e; mret tt) es.

(** The line an event adds: sent here, or to this process over RPC. *)
Definition line_of (e : Event) : list Z :=
  match ev_body e with
  | Elogger (loggerEvent.LogMessage op msg) => log_line op msg
  | Erpc (rpcEvent.IncomingOnAcceptor _ (mkEvent (Elogger (loggerEvent.LogMessage op msg)) _)) => log_line op msg
  | _ => []
  end.

Definition is_start (e : Event) : bool := match ev_body e with Esystem systemEvent.startService => true | _ => false end.

Lemma handle_line e t : is_start e = false -> exists b, handleEvent e (mkLogger (Some t)) = (Ok b, mkLogger (Some (t ++ line_of e)), []).
Proof.
  intros H. unfold handleEvent, line_of, is_start, on_IncomingOnAcceptor in *. destruct e as [[]].
  all: cbn [ev_body] in *; repeat (case_match; simplify_eq; cbn [ev_body] in *); try done; eexists; cbn; rewrite ?app_nil_r; reflexivity.
Qed.

Lemma run_lines es : forall t, Forall (fun e => is_start e = false) es -> run es (mkLogger (Some t)) = (Ok tt, mkLogger (Some (t ++ mjoin (line_of <$> es))), []).
Proof.
  induction es as [|e es IH]; intros t H; [cbn; by rewrite app_nil_r|]. inversion_clear H as [|? ? He Hes].
  destruct (handle_line e t He) as [b Hb]. unfold run. rewrite foreach_cons, (M_bind_silent _ _ _ tt (mkLogger (Some (t ++ line_of e)))).
  - fold (run es). rewrite IH by done. change (mjoin (line_of <$> e :: es)) with (line_of e ++ mjoin (line_of <$> es)). by rewrite app_assoc.
  - by rewrite (M_bind_silent _ _ _ _ _ Hb).
Qed.

(** once started, the logger writes one line per message, local or remote, in the
    order it gets them, and nothing else; other events leave the file as it is.  When
    the file cannot be opened, the start fails and the next message is written
    through a null pointer. *)
Lemma logger_lines (es : list Event) r s :
  Forall (fun e => is_start e = false) es ->
  (fopen (c_str (getLogName app_name gLogDir)) = true ->
   run (mkEvent (Esystem systemEvent.startService) r :: es) s = (Ok tt, mkLogger (Some (mjoin (line_of <$> es))), []))
  /\ (fopen (c_str (getLogName app_name gLogDir)) = false ->
      handleEvent (mkEvent (Esystem systemEvent.startService) r) s = (Throw (CommonError "fopen failed"), mkLogger None, [])
      /\ forall op msg r', handleEvent (mkEvent (Elogger (loggerEvent.LogMessage op msg)) r') (mkLogger None)
                           = (Throw (UB "fprintf to a null file"), mkLogger None, [])).
Proof.
  intros H. split; intros Ho.
  - unfold run. rewrite foreach_cons, (M_bind_silent _ _ _ tt (mkLogger (Some []))).
    + apply (run_lines es [] H).
    + rewrite (M_bind_silent _ _ _ true (mkLogger (Some []))); [done|]. unfold handleEvent. cbn [ev_body]. unfold on_startService. by rewrite Ho.
  - split; [|done]. unfold handleEvent. cbn [ev_body]. unfold on_startService. by rewrite Ho.
Qed.
End Handlers.

Lemma logger_lines_witness :
  run (fun _ => true) (lit "prog") (lit "/log")
      [mkEvent (Esystem systemEvent.startService) []; mkEvent (Elogger (loggerEvent.LogMessage (lit "op") (lit "m1"))) [];
       mkEvent (Erpc (rpcEvent.IncomingOnAcceptor 3 (mkEvent (Elogger (loggerEvent.LogMessage (lit "op2") (lit "m2"))) []))) []] (mkLogger None)
  = (Ok tt, mkLogger (Some (lit "op m1" ++ [10] ++ lit "op2 m2" ++ [10])), []).
Proof.
  apply (logger_lines (fun _ => true) (lit "prog") (lit "/log")
           [mkEvent (Elogger (loggerEvent.LogMessage (lit "op") (lit "m1"))) [];
            mkEvent (Erpc (rpcEvent.IncomingOnAcceptor 3 (mkEvent (Elogger (loggerEvent.LogMessage (lit "op2") (lit "m2"))) []))) []] [] (mkLogger None)).
  - repeat constructor.
  - reflexivity.
Defined.
End Logger.
