(* ===== verification/SocketService.v ===== *)
(** The socket service: modules/socket/socketService.{h,cpp} on Linux (the epoll
    branch).

    Sockets are shared objects: the service, its pollers and the events name
    them by pointer, so the state has a heap of [sock]s and, per poller, the
    [container_] from identifiers to pointers.  A poller is its index.  Answers
    of system and TLS calls, the random choice of a poller and the batch that
    [epoll_wait] returns are arguments of the handlers; [errno] is read where
    the source reads it.  A handler runs to its end before the next one: the
    interleaving of writers with a poller is in SocketInfo. *)

From Stdlib Require Import ZArith Lia.
From stdpp Require Import base gmap strings numbers list.
From S2P Require Import Prelude StdMap IoBuffer Codec Route CLib Sockaddr Events SocketInfo Service.
Open Scope Z_scope.

Definition SOCK_STREAM : Z := 1.
Definition READBUFSIZE : Z := 64 * 128.

(** ** Sockets *)

(** The fields of [epoll_socket_info] that only this service uses, around the
    part in SocketInfo. *)
Record sock : Type := mkSock {
  socketType_ : Z;
  esi : epoll_socket_info;
  inConnection_ : bool;
  request_for_connect_ : option msockaddr_in;
  local_name_ : option msockaddr_in;
  remote_name_ : option msockaddr_in;
  server_name_ : option msockaddr_in;
  secure_context : bool;                      (* secure_context.valid() *)
  ssl_connected : bool;
  socketDescription_ : list Z;
  multiplexor_ : nat;
}.

Definition sock_new (ty : STREAMTYPE) (id : SOCKET_id) (fd : Z) (r : route_t) (descr : list Z) (mux : nat) (sec : bool) : sock :=
  mkSock SOCK_STREAM (esi_new ty id fd r) false None None None None sec false descr mux.

Definition on_esi (f : epoll_socket_info -> epoll_socket_info) (s : sock) : sock :=
  mkSock (socketType_ s) (f (esi s)) (inConnection_ s) (request_for_connect_ s) (local_name_ s) (remote_name_ s)
         (server_name_ s) (secure_context s) (ssl_connected s) (socketDescription_ s) (multiplexor_ s).
Definition set_inConnection (b : bool) (s : sock) : sock :=
  mkSock (socketType_ s) (esi s) b (request_for_connect_ s) (local_name_ s) (remote_name_ s)
         (server_name_ s) (secure_context s) (ssl_connected s) (socketDescription_ s) (multiplexor_ s).
Definition set_request (a : msockaddr_in) (s : sock) : sock :=
  mkSock (socketType_ s) (esi s) (inConnection_ s) (Some a) (local_name_ s) (remote_name_ s)
         (server_name_ s) (secure_context s) (ssl_connected s) (socketDescription_ s) (multiplexor_ s).
Definition set_local_name (a : msockaddr_in) (s : sock) : sock :=
  mkSock (socketType_ s) (esi s) (inConnection_ s) (request_for_connect_ s) (Some a) (remote_name_ s)
         (server_name_ s) (secure_context s) (ssl_connected s) (socketDescription_ s) (multiplexor_ s).
Definition set_remote_name (a : msockaddr_in) (s : sock) : sock :=
  mkSock (socketType_ s) (esi s) (inConnection_ s) (request_for_connect_ s) (local_name_ s) (Some a)
         (server_name_ s) (secure_context s) (ssl_connected s) (socketDescription_ s) (multiplexor_ s).
Definition set_server_name (a : option msockaddr_in) (s : sock) : sock :=
  mkSock (socketType_ s) (esi s) (inConnection_ s) (request_for_connect_ s) (local_name_ s) (remote_name_ s)
         a (secure_context s) (ssl_connected s) (socketDescription_ s) (multiplexor_ s).
Definition set_ssl_connected (s : sock) : sock :=
  mkSock (socketType_ s) (esi s) (inConnection_ s) (request_for_connect_ s) (local_name_ s) (remote_name_ s)
         (server_name_ s) (secure_context s) true (socketDescription_ s) (multiplexor_ s).

(** ** The service *)

Record SocketIO : Type := mkIO {
  heap : gmap ptr sock;
  pollers : list (gmap SOCKET_id ptr);        (* socks_pollers_[k]->container_ *)
  n_workers_ : nat;
  next_ptr : ptr;
  sockIdGen : SOCKET_id;
  service_secure : bool;                      (* Service::secure_context.valid() *)
  terminate : bool;                           (* iUtils->setTerminate was called *)
  raw_closed : list Z;                        (* descriptors closed without a socket object *)
}.

Definition set_heap (h : gmap ptr sock) (s : SocketIO) : SocketIO :=
  mkIO h (pollers s) (n_workers_ s) (next_ptr s) (sockIdGen s) (service_secure s) (terminate s) (raw_closed s).
Definition set_pollers (p : list (gmap SOCKET_id ptr)) (s : SocketIO) : SocketIO :=
  mkIO (heap s) p (n_workers_ s) (next_ptr s) (sockIdGen s) (service_secure s) (terminate s) (raw_closed s).
Definition set_service_secure (b : bool) (s : SocketIO) : SocketIO :=
  mkIO (heap s) (pollers s) (n_workers_ s) (next_ptr s) (sockIdGen s) b (terminate s) (raw_closed s).
Definition set_terminate (s : SocketIO) : SocketIO :=
  mkIO (heap s) (pollers s) (n_workers_ s) (next_ptr s) (sockIdGen s) (service_secure s) true (raw_closed s).
Definition raw_close (fd : Z) (s : SocketIO) : SocketIO :=
  mkIO (heap s) (pollers s) (n_workers_ s) (next_ptr s) (sockIdGen s) (service_secure s) (terminate s) (raw_closed s ++ [fd]).

(** The constructor, when every thread could be created. *)
Definition socketio_new (n : nat) : SocketIO := mkIO ∅ (replicate n ∅) n 1 0 false false [].

(** [new epoll_socket_info(...)]. *)
Definition alloc (x : sock) : M SocketIO ptr :=
  fun s => (Ok (next_ptr s),
            mkIO (<[next_ptr s := x]> (heap s)) (pollers s) (n_workers_ s) (next_ptr s + 1) (sockIdGen s)
                 (service_secure s) (terminate s) (raw_closed s), []).

Definition getNewSocketId : M SocketIO SOCKET_id :=
  fun s => (Ok (cast I64 (sockIdGen s + 1)),
            mkIO (heap s) (pollers s) (n_workers_ s) (next_ptr s) (cast I64 (sockIdGen s + 1))
                 (service_secure s) (terminate s) (raw_closed s), []).

Definition deref (p : ptr) : M SocketIO sock :=
  fun s => match heap s !! p with
           | Some x => (Ok x, s, [])
           | None => (Throw (UB "null epoll_socket_info"), s, [])
           end.

Definition update (p : ptr) (f : sock -> sock) : M SocketIO unit :=
  modify (fun s => set_heap (alter f p (heap s)) s).

(** *** SocketsContainerForSocketIO *)

Definition container (k : nat) (s : SocketIO) : gmap SOCKET_id ptr := default ∅ (pollers s !! k).

Definition ms_remove (k : nat) (sid : SOCKET_id) : M SocketIO unit :=
  modify (fun s => set_pollers (alter (delete sid) k (pollers s)) s).

Definition ms_count (k : nat) (sid : SOCKET_id) : M SocketIO bool :=
  gets (fun s => bool_decide (is_Some (container k s !! sid))).

Definition ms_getOrNull (k : nat) (sid : SOCKET_id) : M SocketIO (option ptr) :=
  gets (fun s => container k s !! sid).

(** [container_.insert]: an identifier that is there keeps its socket. *)
Definition ms_add (k : nat) (p : ptr) : M SocketIO unit :=
  x ← deref p;
  modify (fun s => set_pollers (alter (fun m => match m !! id_ (esi x) with
                                                | Some _ => m
                                                | None => <[id_ (esi x) := p]> m
                                                end) k (pollers s)) s).

(** [PTHSOCKS::getPoller]. *)
Definition getPoller (rand : nat) : M SocketIO nat :=
  s ← gets id;
  if negb (length (pollers s) =? n_workers_ s)%nat then throw (CommonError "if(m_socks_pollers.size()!=s->n_workers)")
  else if (length (pollers s) =? 0)%nat then throw (UB "rand()%0")
  else mret (rand mod length (pollers s))%nat.

(** [passEvent] of an event of this socket along the route it was made with. *)
Definition pass (p : ptr) (e : socketEvent.t) : M SocketIO unit :=
  x ← deref p;
  passEvent_ (mkEvent (Esocket e) (m_route (esi x))).

(** ** Closing *)

Definition closeSocket (p : ptr) (reason : list Z) (errNo : Z) (k : nat) : M SocketIO unit :=
  x ← deref p;
  if closed (esi x) then mret tt
  else
    _ ← match streamType_ (esi x) with
        | STREAMTYPE_CONNECTED =>
            if inConnection_ x then
              match request_for_connect_ x with
              | Some a => pass p (socketEvent.ConnectFailed p a errNo)
              | None => throw (UB "*request_for_connect_ of an empty optional")
              end
            else pass p (socketEvent.Disconnected p reason)
        | STREAMTYPE_ACCEPTED => pass p (socketEvent.Disaccepted p reason)
        | _ => throw (CommonError "invalid case")
        end;
    _ ← ms_remove k (id_ (esi x));
    update p (on_esi esi_close).

(** ** Accepting *)

Record accept_sys : Type := mkAcceptSys {
  ac_fd : Z;                (* accept *)
  ac_addr : msockaddr_in;
  ac_reuse : bool;          (* setsockopt(SO_REUSEADDR) succeeds *)
  ac_linger : bool;         (* setsockopt(SO_LINGER) succeeds *)
  ac_rand : nat;
  ac_ssl : bool;            (* SSL_new and SSL_set_fd succeed *)
  ac_ctl : bool;            (* epoll_ctl succeeds *)
}.

(** The constructor of a socket with a TLS context may throw. *)
Definition new_sock (ssl_ok : bool) (x : sock) : M SocketIO ptr :=
  if secure_context x && negb ssl_ok then throw (CommonError "SSL_new failed") else alloc x.

Definition handle_accepted1 (sys : accept_sys) (listening : ptr) : M SocketIO unit :=
  if ac_fd sys =? -1 then mret tt
  else if ac_fd sys <? 0 then mret tt
  else if negb (ac_reuse sys) then modify (raw_close (ac_fd sys))
  else if negb (ac_linger sys) then modify (raw_close (ac_fd sys))
  else
    k2 ← getPoller (ac_rand sys);
    sid ← getNewSocketId;
    l ← deref listening;
    nesi ← new_sock (ac_ssl sys)
             (sock_new STREAMTYPE_ACCEPTED sid (ac_fd sys) (m_route (esi l)) (socketDescription_ l) k2 (secure_context l));
    _ ← update listening (set_remote_name (ac_addr sys));
    _ ← update nesi (set_server_name (server_name_ l));
    _ ← update nesi (on_esi (sockAddReadOnNew (ac_ctl sys)));
    _ ← ms_add k2 nesi;
    pass nesi (socketEvent.Accepted nesi).

(** ** Reading *)

(** [SSL_do_handshake] and, when it is not done, [SSL_get_error]. *)
Inductive handshake : Type := HS_done | HS_want_write | HS_want_read | HS_error.

Record in_sys : Type := mkInSys {
  in_accept : accept_sys;
  in_hs : handshake;
  in_ctl : bool;
  in_recv : list Z + Z;     (* the bytes read, none at the end of the stream; or -1 and errno *)
  in_errno : Z;             (* errno when nothing was read *)
}.

Definition onEPOLLIN_LISTENING (sys : in_sys) (p : ptr) : M SocketIO unit :=
  handle_accepted1 (in_accept sys) p.

(** Both arms of the switch on [errno] return before the socket is closed. *)
Definition onEPOLLIN_STREAM (sys : in_sys) (k : nat) (p : ptr) : M SocketIO unit :=
  x ← deref p;
  if secure_context x && negb (ssl_connected x) then
    match in_hs sys with
    | HS_done => update p set_ssl_connected
    | HS_want_write => update p (on_esi (sockStartWrite (in_ctl sys)))
    | HS_want_read | HS_error => mret tt
    end
  else if fd_ (esi x) =? -1 then mret tt
  else
    match in_recv sys with
    | inl [] => closeSocket p (lit "recv 0, resetted by peer") (in_errno sys) k
    | inr _ => mret tt
    | inl d => _ ← update p (on_esi (fun e => in_append e d)); pass p (socketEvent.StreamRead p)
    end.

Definition onEPOLLIN (sys : in_sys) (k : nat) (p : ptr) : M SocketIO unit :=
  x ← deref p;
  match streamType_ (esi x) with
  | STREAMTYPE_LISTENING => onEPOLLIN_LISTENING sys p
  | STREAMTYPE_CONNECTED | STREAMTYPE_ACCEPTED => onEPOLLIN_STREAM sys k p
  | STREAMTYPE_UDP_ASSOC => mret tt
  end.

(** ** Writing *)

Record out_sys : Type := mkOutSys {
  out_hs : handshake;
  out_hs_ctl : bool;
  out_stop_ctl : bool;
  out_ctl : bool;
  out_res : Z;              (* send or SSL_write *)
  out_again : bool;         (* errno is EAGAIN or ENOBUFS *)
}.

(** After the handshake the source falls through, whatever its outcome was. *)
Definition onEPOLLOUT_handshake (sys : out_sys) (p : ptr) : M SocketIO bool :=
  x ← deref p;
  if secure_context x && inConnection_ x && negb (ssl_connected x) then
    match out_hs sys with
    | HS_done =>
        _ ← update p set_ssl_connected;
        _ ← update p (set_inConnection false);
        _ ← pass p (socketEvent.Connected p);
        mret true
    | HS_want_write => _ ← update p (on_esi (sockStartWrite (out_hs_ctl sys))); mret false
    | HS_want_read | HS_error => mret false
    end
  else mret false.

(** The first [EPOLLOUT] of a connecting socket. *)
Definition onEPOLLOUT_connecting (sys : out_sys) (k : nat) (p : ptr) : M SocketIO unit :=
  x ← deref p;
  there ← ms_count k (id_ (esi x));
  if negb there then mret tt
  else
    _ ← update p (set_inConnection false);
    _ ← (if (length (outBuffer_ (esi x)) =? 0)%nat then update p (on_esi (sockStopWrite (out_stop_ctl sys))) else mret tt);
    pass p (socketEvent.Connected p).

Definition onEPOLLOUT_send (sys : out_sys) (k : nat) (p : ptr) : M SocketIO unit :=
  x ← deref p;
  if closed (esi x) then mret tt
  else
    let '(r, e1) := send (out_ctl sys) (out_res sys) (esi x) in
    _ ← update p (on_esi (fun _ => e1));
    let empty := (length (outBuffer_ e1) =? 0)%nat in
    let need_to_close := (0 <? r) && empty && markedToDestroyOnSend_ e1 in
    _ ← (if empty then pass p (socketEvent.NotifyOutBufferEmpty p) else mret tt);
    if need_to_close then closeSocket p (lit "marked to destroy on send") 0 k
    else if r =? -1 then if out_again sys then mret tt else closeSocket p (lit "send result (-1)") 0 k
    else mret tt.

Definition onEPOLLOUT (sys : out_sys) (k : nat) (p : ptr) : M SocketIO unit :=
  done ← onEPOLLOUT_handshake sys p;
  if done : bool then mret tt
  else
    x ← deref p;
    if negb (socketType_ x =? SOCK_STREAM) then throw (CommonError "if(esi->m_socketType!=SOCK_STREAM)")
    else if inConnection_ x then onEPOLLOUT_connecting sys k p
    else onEPOLLOUT_send sys k p.

(** [so_error] is what [getsockopt(SO_ERROR)] stored, 0 when it failed. *)
Definition onEPOLLERR (so_error : Z) (k : nat) (p : ptr) : M SocketIO unit :=
  x ← deref p;
  if negb (socketType_ x =? SOCK_STREAM) then throw (CommonError "if(esi->m_socketType!=SOCK_STREAM)")
  else closeSocket p (lit "EPOLERR") so_error k.

(** ** The worker *)

Record epoll_event : Type := mkEpollEvent {
  ev_id : SOCKET_id;                                  (* data.u64 *)
  ev_err : bool; ev_in : bool; ev_out : bool;         (* events & EPOLLERR, EPOLLIN, EPOLLOUT *)
  ev_so_error : Z;
  ev_in_sys : in_sys;
  ev_out_sys : out_sys;
}.

Definition worker_event (k : nat) (ev : epoll_event) : M SocketIO unit :=
  o ← ms_getOrNull k (ev_id ev);
  match o with
  | None => mret tt
  | Some p =>
      x ← deref p;
      if closed (esi x) then mret tt
      else if ev_err ev then onEPOLLERR (ev_so_error ev) k p
      else
        _ ← (if ev_in ev then onEPOLLIN (ev_in_sys ev) k p else mret tt);
        if ev_out ev then onEPOLLOUT (ev_out_sys ev) k p else mret tt
  end.

(** One round of the loop: an exception ends the batch and is logged. *)
Definition worker_round (k : nat) (events : list epoll_event) : M SocketIO unit :=
  try_catch (foreach (worker_event k) events) (mret tt).

(** ** Requests *)

(** [initSSL] stores the context when every call succeeded. *)
Definition initSSL (ok : bool) : M SocketIO unit :=
  if ok then modify (set_service_secure true) else throw (CommonError "SSL_CTX_use_certificate_file failed").

Record listen_sys : Type := mkListenSys {
  ls_ssl : bool;            (* initSSL succeeds *)
  ls_rand : nat;
  ls_fd : Z;                (* socket *)
  ls_ssl_new : bool;
  ls_reuse : bool; ls_bind : bool; ls_getsockname : bool; ls_listen : bool;
  ls_errno : Z;
  ls_local : msockaddr_in;
  ls_ctl : bool;
}.

Definition on_AddToListenTCP (sys : listen_sys) (socketId : SOCKET_id) (addr : msockaddr_in) (descr : list Z)
  (rebind : bool) (secure : SECURE) (route : route_t) : M SocketIO bool :=
  _ ← (if use_ssl secure then initSSL (ls_ssl sys) else mret tt);
  k ← getPoller (ls_rand sys);
  sc ← gets service_secure;
  r ← lift (poppedFrontRoute route);
  nesi ← new_sock (ls_ssl_new sys) (sock_new STREAMTYPE_LISTENING socketId (ls_fd sys) r descr k (use_ssl secure && sc));
  _ ← update nesi (set_server_name (Some addr));
  if negb (ls_reuse sys) then _ ← closeSocket nesi (lit "setsockopt") (ls_errno sys) k; mret true
  else if negb (ls_bind sys) then _ ← modify set_terminate; mret true
  else if negb (ls_getsockname sys) then _ ← closeSocket nesi (lit "getsockname") (ls_errno sys) k; mret true
  else
    _ ← update nesi (set_local_name (ls_local sys));
    if negb (ls_listen sys) then _ ← closeSocket nesi (lit "listen") (ls_errno sys) k; mret true
    else
      _ ← pass nesi (socketEvent.NotifyBindAddress (ls_local sys) descr rebind);
      _ ← update nesi (on_esi (sockAddReadOnNew (ls_ctl sys)));
      _ ← ms_add k nesi;
      mret true.

Inductive connect_result : Type := C_done | C_in_progress | C_failed (errno : Z).

Record connect_sys : Type := mkConnectSys {
  cs_rand : nat;
  cs_fd : Z;
  cs_ssl : bool;
  cs_ssl_new : bool;
  cs_reuse : bool; cs_ioctl : bool; cs_linger : bool;
  cs_errno : Z;
  cs_ctl : bool;
  cs_connect : connect_result;
  cs_errno_after : Z;       (* errno as the second ConnectFailed reads it *)
}.

(** The context of the service, made on first use. *)
Definition connect_context (sys : connect_sys) (secure : SECURE) : M SocketIO bool :=
  if use_ssl secure then
    have ← gets service_secure;
    _ ← (if have : bool then mret tt else initSSL (cs_ssl sys));
    gets service_secure
  else mret false.

Definition on_AddToConnectTCP (sys : connect_sys) (socketId : SOCKET_id) (addr : msockaddr_in) (descr : list Z)
  (secure : SECURE) (route : route_t) : M SocketIO bool :=
  k ← getPoller (cs_rand sys);
  if cs_fd sys =? -1 then mret true
  else
    sc ← connect_context sys secure;
    r ← lift (poppedFrontRoute route);
    nesi ← new_sock (cs_ssl_new sys) (sock_new STREAMTYPE_CONNECTED socketId (cs_fd sys) r descr k sc);
    _ ← update nesi (set_inConnection true);
    if negb (family addr =? AF_UNIX) && negb (cs_reuse sys)
    then _ ← closeSocket nesi (lit "setsockopt") (cs_errno sys) k; mret true
    else if negb (cs_ioctl sys) then _ ← closeSocket nesi (lit "ioctl") (cs_errno sys) k; mret true
    else if negb (cs_linger sys) then _ ← closeSocket nesi (lit "SP_LINGER") (cs_errno sys) k; mret true
    else
      _ ← update nesi (set_request addr);
      _ ← update nesi (on_esi (sockAddRWOnNew (cs_ctl sys)));
      _ ← ms_add k nesi;
      match cs_connect sys with
      | C_failed errno =>
          _ ← closeSocket nesi (lit "connect") errno k;
          _ ← passEvent_ (mkEvent (Esocket (socketEvent.ConnectFailed nesi addr (cs_errno_after sys))) route);
          mret true
      | C_in_progress => mret true
      | C_done => _ ← passEvent_ (mkEvent (Esocket (socketEvent.Connected nesi)) route); mret true
      end.

(** ** Runs *)

(** What happens to the service: requests, rounds of its workers, and what other
    services do with the sockets they were given. *)
Inductive op : Type :=
| Op_listen (sys : listen_sys) (socketId : SOCKET_id) (addr : msockaddr_in) (descr : list Z) (rebind : bool) (secure : SECURE) (route : route_t)
| Op_connect (sys : connect_sys) (socketId : SOCKET_id) (addr : msockaddr_in) (descr : list Z) (secure : SECURE) (route : route_t)
| Op_worker (k : nat) (events : list epoll_event)
| Op_close (p : ptr)                               (* esi->close(reason) *)
| Op_write (p : ptr) (ctl and_close : bool) (d : list Z)  (* esi->write_, write_and_close *)
| Op_extract (p : ptr).                            (* esi->inBuffer_.extract_all() *)

Definition run_op (o : op) : M SocketIO unit :=
  match o with
  | Op_listen sys id addr descr rb sec r => _ ← on_AddToListenTCP sys id addr descr rb sec r; mret tt
  | Op_connect sys id addr descr sec r => _ ← on_AddToConnectTCP sys id addr descr sec r; mret tt
  | Op_worker k evs => worker_round k evs
  | Op_close p => update p (on_esi esi_close)
  | Op_write p ctl c d => update p (on_esi (fun e => if c then write_and_close ctl e d else write_ ctl e d))
  | Op_extract p => update p (on_esi (fun e => snd (extract_all e)))
  end.

(** A handler that throws is left for the next event; undefined behaviour ends
    the run. *)
Fixpoint run (os : list op) (s : SocketIO) : SocketIO * list action :=
  match os with
  | [] => (s, [])
  | o :: os' =>
      let '(r, s1, l1) := run_op o s in
      match r with
      | Throw e => if catchable e then let '(s2, l2) := run os' s1 in (s2, l1 ++ l2) else (s1, l1)
      | Ok _ => let '(s2, l2) := run os' s1 in (s2, l1 ++ l2)
      end
  end.
