(* ===== verification/SocketProto.v ===== *)
(** What the holder of a socket can rely on: the protocol of events per socket,
    proved for every run of the socket service (SocketService), the silence of a
    socket its holder closed, and the failures on the way to a connection.

    [wp] is a weakest precondition over the calls made so far; [keeps] says that a
    handler keeps the invariant, [leaves] that it does not touch a given socket. *)

From Stdlib Require Import ZArith Lia.
From stdpp Require Import base gmap strings numbers list.
From S2P Require Import Prelude StdMap IoBuffer Codec Route CLib Sockaddr Events SocketInfo Service SocketService.
Open Scope Z_scope.

(** ** The protocol of a socket

    The events a holder of a socket sees, as an automaton per kind of socket.  A
    peer that speaks first can be read before [Connected] is announced. *)

Inductive phase : Type := Fresh | Up | Down.

#[export] Instance phase_eq_dec : EqDecision phase.
Proof. solve_decision. Defined.

Definition proto_step (ty : STREAMTYPE) (ph : phase) (e : socketEvent.t) : option phase :=
  match ty, ph, e with
  | STREAMTYPE_ACCEPTED, Fresh, socketEvent.Accepted _ => Some Up
  | STREAMTYPE_ACCEPTED, Up, socketEvent.StreamRead _ => Some Up
  | STREAMTYPE_ACCEPTED, Up, socketEvent.NotifyOutBufferEmpty _ => Some Up
  | STREAMTYPE_ACCEPTED, Up, socketEvent.Disaccepted _ _ => Some Down
  | STREAMTYPE_CONNECTED, Fresh, socketEvent.StreamRead _ => Some Fresh
  | STREAMTYPE_CONNECTED, Fresh, socketEvent.Connected _ => Some Up
  | STREAMTYPE_CONNECTED, Fresh, socketEvent.ConnectFailed _ _ _ => Some Down
  | STREAMTYPE_CONNECTED, Up, socketEvent.StreamRead _ => Some Up
  | STREAMTYPE_CONNECTED, Up, socketEvent.NotifyOutBufferEmpty _ => Some Up
  | STREAMTYPE_CONNECTED, Up, socketEvent.Disconnected _ _ => Some Down
  | STREAMTYPE_LISTENING, Fresh, socketEvent.NotifyOutBufferEmpty _ => Some Fresh
  | STREAMTYPE_UDP_ASSOC, Fresh, socketEvent.NotifyOutBufferEmpty _ => Some Fresh
  | _, _, _ => None
  end.

Fixpoint proto (ty : STREAMTYPE) (ph : phase) (l : list socketEvent.t) : option phase :=
  match l with
  | [] => Some ph
  | e :: l' => match proto_step ty ph e with Some ph' => proto ty ph' l' | None => None end
  end.

(** The events that name the socket [p]. *)
Definition about (p : ptr) (e : socketEvent.t) : bool :=
  match e with
  | socketEvent.StreamRead q | socketEvent.NotifyOutBufferEmpty q | socketEvent.Connected q | socketEvent.Accepted q
  | socketEvent.Disconnected q _ | socketEvent.Disaccepted q _ | socketEvent.ConnectFailed q _ _ => q =? p
  | _ => false
  end.

Definition passed (p : ptr) (r : route_t) (a : action) : option socketEvent.t :=
  match a with
  | A_pass e => match ev_body e with
                | Esocket x => if about p x && bool_decide (ev_route e = r) then Some x else None
                | _ => None
                end
  | _ => None
  end.

(** What was passed about [p] along the route [r]. *)
Definition events_of (p : ptr) (r : route_t) (l : list action) : list socketEvent.t := omap (passed p r) l.

Lemma proto_app ty ph l1 l2 :
  proto ty ph (l1 ++ l2) = match proto ty ph l1 with Some ph' => proto ty ph' l2 | None => None end.
Proof. revert ph. induction l1 as [|e l1 IH]; intros ph; [done|]. cbn. by destruct (proto_step ty ph e). Qed.

Lemma events_of_app p r l1 l2 : events_of p r (l1 ++ l2) = events_of p r l1 ++ events_of p r l2.
Proof. apply omap_app. Qed.

Definition act (r : route_t) (e : socketEvent.t) : action := A_pass (mkEvent (Esocket e) r).

Lemma events_of_self p r evs :
  Forall (fun e => about p e = true) evs -> events_of p r (act r <$> evs) = evs.
Proof.
  induction 1 as [|e evs He _ IH]; [done|]. cbn. rewrite He. cbn [andb].
  rewrite bool_decide_eq_true_2 by done. f_equal. exact IH.
Qed.

Lemma about_other p q e : about p e = true -> q <> p -> about q e = false.
Proof. destruct e; cbn; try done; intros E Hq; apply Z.eqb_eq in E; subst; by apply Z.eqb_neq. Qed.

Lemma events_of_other p q r r' evs :
  Forall (fun e => about p e = true) evs -> q <> p -> events_of q r' (act r <$> evs) = [].
Proof.
  intros H Hq. induction H as [|e evs He _ IH]; [done|]. cbn. rewrite (about_other p q e He Hq). exact IH.
Qed.

(** The phase a socket is in, unless it was closed with its last event. *)
Definition base (x : sock) : phase :=
  match streamType_ (esi x) with
  | STREAMTYPE_ACCEPTED => Up
  | STREAMTYPE_CONNECTED => if inConnection_ x then Fresh else Up
  | _ => Fresh
  end.

Definition phase_ok (x : sock) (ph : phase) : Prop :=
  ph = base x \/ (ph = Down /\ closed (esi x) = true).

(** The events about a socket lead to its phase; a socket with an empty route
    can pass nothing. *)
Definition sock_ok (x : sock) (evs : list socketEvent.t) : Prop :=
  (streamType_ (esi x) <> STREAMTYPE_CONNECTED -> inConnection_ x = false)
  /\ match m_route (esi x) with
     | [] => evs = []
     | _ => exists ph, proto (streamType_ (esi x)) Fresh evs = Some ph /\ phase_ok x ph
     end.

Record io_inv (s : SocketIO) (l : list action) : Prop := {
  io_heap : forall p x, heap s !! p = Some x -> p < next_ptr s /\ sock_ok x (events_of p (m_route (esi x)) l);
  io_fresh : forall p r, next_ptr s <= p -> events_of p r l = [];
}.

(** ** One step of one socket *)

Lemma deref_eq p s x : heap s !! p = Some x -> deref p s = (Ok x, s, []).
Proof. unfold deref. by intros ->. Qed.

Lemma update_eq p f s x : heap s !! p = Some x -> update p f s = (Ok tt, set_heap (<[p := f x]> (heap s)) s, []).
Proof. intros H. unfold update, modify. by rewrite (alter_known f _ p x H). Qed.

Lemma pass_eq p s x e :
  heap s !! p = Some x ->
  pass p e s = match m_route (esi x) with
               | [] => (Throw (RuntimeError "route_t::pop_back: m_container.size()==0"), s, [])
               | r => (Ok tt, s, [act r e])
               end.
Proof.
  intros H. unfold pass. rewrite M_bind_eq, (deref_eq _ _ _ H). unfold passEvent_. rewrite M_bind_eq. unfold lift, pop_back, act.
  cbn [ev_route]. destruct (m_route (esi x)) as [|h t]; [done|].
  destruct (list.last (h :: t)) eqn:E; [done|]. apply last_None in E. done.
Qed.

(** Replacing a socket by one of the same kind and passing events about it. *)
Lemma inv_local s l p x x' evs pl :
  io_inv s l -> heap s !! p = Some x -> m_route (esi x') = m_route (esi x) ->
  Forall (fun e => about p e = true) evs ->
  (sock_ok x (events_of p (m_route (esi x)) l) -> sock_ok x' (events_of p (m_route (esi x)) l ++ evs)) ->
  io_inv (set_pollers pl (set_heap (<[p := x']> (heap s)) s)) (l ++ (act (m_route (esi x)) <$> evs)).
Proof.
  intros [Hh Hf] Hp Hr He Hok. destruct (Hh p x Hp) as [Hlt Hx]. split; cbn [heap set_heap set_pollers next_ptr].
  - intros q y Hq. rewrite events_of_app. destruct (decide (q = p)) as [->|Hne].
    + rewrite lookup_insert_eq in Hq. injection Hq as <-. split; [done|].
      rewrite Hr, events_of_self by done. by apply Hok.
    + rewrite lookup_insert_ne in Hq by done. rewrite (events_of_other p q) by done. rewrite app_nil_r. by apply Hh.
  - intros q r Hq. rewrite events_of_app, Hf by done. apply (events_of_other p q); [done|lia].
Qed.

(** A change that keeps the kind, the route and the connection state, and does
    not reopen the socket. *)
Definition same_kind (x x' : sock) : Prop :=
  streamType_ (esi x') = streamType_ (esi x) /\ m_route (esi x') = m_route (esi x)
  /\ id_ (esi x') = id_ (esi x) /\ secure_context x' = secure_context x.

Lemma ok_quiet x x' evs :
  same_kind x x' -> inConnection_ x' = inConnection_ x -> (closed (esi x) = true -> closed (esi x') = true) ->
  sock_ok x evs -> sock_ok x' evs.
Proof.
  intros (E1 & E2 & _) E3 Hc [H1 H2]. unfold sock_ok, phase_ok, base in *. rewrite E1, E2, E3.
  split; [done|]. destruct (m_route (esi x)); [done|]. destruct H2 as (ph & Hp & [->|[-> Hcl]]).
  - eexists. split; [exact Hp|]. by left.
  - exists Down. split; [done|]. right. auto.
Qed.

(** A socket that is open is in its base phase. *)
Lemma ok_open x evs :
  sock_ok x evs -> m_route (esi x) <> [] -> closed (esi x) = false ->
  proto (streamType_ (esi x)) Fresh evs = Some (base x).
Proof.
  intros [_ H] Hr Hc. destruct (m_route (esi x)); [done|]. destruct H as (ph & Hp & [->|[_ ?]]); [done|congruence].
Qed.

(** An event that the automaton takes. *)
Lemma ok_event x x' evs e ph ph' :
  same_kind x x' -> m_route (esi x) <> [] ->
  (streamType_ (esi x') <> STREAMTYPE_CONNECTED -> inConnection_ x' = false) ->
  proto (streamType_ (esi x)) Fresh evs = Some ph ->
  proto_step (streamType_ (esi x)) ph e = Some ph' -> phase_ok x' ph' -> sock_ok x' (evs ++ [e]).
Proof.
  intros (E1 & E2 & _) Hr Hc Hp Hs Hok. split; [done|]. rewrite E1, E2. destruct (m_route (esi x)); [done|].
  exists ph'. split; [|done]. rewrite proto_app, Hp. cbn. by rewrite Hs.
Qed.

(** [inv_local] without an event, and with one. *)
Lemma inv_quiet s l p x x' pl :
  io_inv s l -> heap s !! p = Some x -> same_kind x x' -> inConnection_ x' = inConnection_ x ->
  (closed (esi x) = true -> closed (esi x') = true) ->
  io_inv (set_pollers pl (set_heap (<[p := x']> (heap s)) s)) (l ++ []).
Proof.
  intros Hi Hp Hk Hin Hc. apply (inv_local s l p x x' []); try done; [apply Hk|].
  rewrite app_nil_r. by apply ok_quiet.
Qed.

Lemma inv_event s l p x x' e ph ph' pl r :
  io_inv s l -> heap s !! p = Some x -> same_kind x x' -> r = m_route (esi x) -> m_route (esi x) <> [] ->
  about p e = true -> (streamType_ (esi x') <> STREAMTYPE_CONNECTED -> inConnection_ x' = false) ->
  proto (streamType_ (esi x)) Fresh (events_of p (m_route (esi x)) l) = Some ph ->
  proto_step (streamType_ (esi x)) ph e = Some ph' -> phase_ok x' ph' ->
  io_inv (set_pollers pl (set_heap (<[p := x']> (heap s)) s)) (l ++ [act r e]).
Proof.
  intros Hi Hp Hk -> Hr He Hin Hpr Hs Hok.
  apply (inv_local s l p x x' [e] pl); try done; [apply Hk | by repeat constructor|].
  intros _. by eapply ok_event.
Qed.

Lemma inv_pollers s l pl : io_inv s l -> io_inv (set_pollers pl s) l.
Proof. by intros [H1 H2]. Qed.

(** *** closeSocket *)

Lemma closed_close e : closed (esi_close e) = true.
Proof. unfold esi_close, closed. by destruct (fd_ e =? -1) eqn:E; cbn; rewrite ?E. Qed.

Lemma same_close x : same_kind x (on_esi esi_close x).
Proof. unfold same_kind, esi_close. cbn. by destruct (fd_ (esi x) =? -1), (closed (esi x)). Qed.

Lemma container_remove k sid s :
  container k (set_pollers (alter (delete sid) k (pollers s)) s) !! sid = None.
Proof.
  unfold container. cbn [pollers set_pollers]. destruct (pollers s !! k) as [m|] eqn:E.
  - rewrite list_lookup_alter_eq, E. cbn. apply lookup_delete_eq.
  - rewrite list_lookup_alter_eq, E. apply lookup_empty.
Qed.

Ltac unchanged := unfold throw, mret, M_ret; cbv beta iota; rewrite ?app_nil_r; by split; [|left].

(** Either nothing happened, or the socket is closed, gone from its poller and
    its last event passed. *)
Lemma closeSocket_spec s l p x reason errNo k :
  io_inv s l -> heap s !! p = Some x ->
  let '(r, s', l') := closeSocket p reason errNo k s in
  io_inv s' (l ++ l')
  /\ (s' = s /\ l' = []
      \/ heap s' !! p = Some (on_esi esi_close x) /\ container k s' !! id_ (esi x) = None).
Proof.
  intros Hi Hp. unfold closeSocket. rewrite M_bind_eq, (deref_eq _ _ _ Hp). cbv beta iota zeta.
  destruct (closed (esi x)) eqn:Hc; [unchanged|].
  rewrite M_bind_eq. destruct (io_heap s l Hi p x Hp) as [_ Hok]. pose proof (ok_open x _ Hok) as Hph.
  (* The tail after a passed event [e]. *)
  assert (forall e, m_route (esi x) <> [] -> about p e = true ->
    proto_step (streamType_ (esi x)) (base x) e = Some Down ->
    let s' := set_pollers (alter (delete (id_ (esi x))) k (pollers s)) (set_heap (<[p := on_esi esi_close x]> (heap s)) s) in
    io_inv s' (l ++ [act (m_route (esi x)) e])
    /\ (heap s' !! p = Some (on_esi esi_close x) /\ container k s' !! id_ (esi x) = None)) as Htail.
  { intros e Hr He Hs. split; [|split; [apply lookup_insert_eq | exact (container_remove k _ (set_heap _ s))]].
    apply (inv_event s l p x _ e (base x) Down); try done; [apply same_close | | by apply Hph|].
    - rewrite (proj1 (same_close x)). exact (proj1 Hok).
    - right. split; [done|]. apply closed_close. }
  assert (forall e r, m_route (esi x) = r -> r <> [] -> about p e = true ->
    proto_step (streamType_ (esi x)) (base x) e = Some Down ->
    let '(r', s', l') := (let '(r2, s2, l2) := (_ ← ms_remove k (id_ (esi x)); update p (on_esi esi_close)) s in
                          (r2, s2, [act r e] ++ l2)) in
    io_inv s' (l ++ l') /\ (s' = s /\ l' = [] \/ heap s' !! p = Some (on_esi esi_close x) /\ container k s' !! id_ (esi x) = None)) as Hrun.
  { intros e r <- Hr He Hs. rewrite M_bind_eq. unfold ms_remove, modify. rewrite (update_eq p _ _ x) by done.
    cbn [app]. destruct (Htail e Hr He Hs) as [H1 H2]. split; [exact H1 | right; exact H2]. }
  destruct (streamType_ (esi x)) eqn:Ety; try unchanged.
  - rewrite (pass_eq p s x) by done. destruct (m_route (esi x)) as [|h t] eqn:Er; [unchanged|].
    apply (Hrun (socketEvent.Disaccepted p reason) (h :: t)); try done; [apply Z.eqb_refl | by unfold base; rewrite Ety].
  - destruct (inConnection_ x) eqn:Ein.
    + destruct (request_for_connect_ x) as [a|]; [|unchanged].
      rewrite (pass_eq p s x) by done. destruct (m_route (esi x)) as [|h t] eqn:Er; [unchanged|].
      apply (Hrun (socketEvent.ConnectFailed p a errNo) (h :: t)); try done; [apply Z.eqb_refl | by unfold base; rewrite Ety, Ein].
    + rewrite (pass_eq p s x) by done. destruct (m_route (esi x)) as [|h t] eqn:Er; [unchanged|].
      apply (Hrun (socketEvent.Disconnected p reason) (h :: t)); try done; [apply Z.eqb_refl | by unfold base; rewrite Ety, Ein].
Qed.

(** ** Weakest preconditions over the calls made so far *)

Definition wp {A} (m : M SocketIO A) (s : SocketIO) (l : list action) (Q : res A -> SocketIO -> list action -> Prop) : Prop :=
  let '(r, s', l') := m s in Q r s' (l ++ l').

Lemma wp_bind {A B} (m : M SocketIO A) (f : A -> M SocketIO B) s l Q :
  wp m s l (fun r s' l' => match r with Ok a => wp (f a) s' l' Q | Throw e => Q (Throw e) s' l' end) ->
  wp (m ≫= f) s l Q.
Proof.
  unfold wp. rewrite M_bind_eq. destruct (m s) as [[[a|e] s1] l1]; [|done].
  destruct (f a s1) as [[r s2] l2]. by rewrite app_assoc.
Qed.

Lemma wp_ret {A} (a : A) s l (Q : res A -> SocketIO -> list action -> Prop) : Q (Ok a) s l -> wp (mret a) s l Q.
Proof. unfold wp, mret, M_ret. by rewrite app_nil_r. Qed.

Lemma wp_throw {A} e s l (Q : res A -> SocketIO -> list action -> Prop) : Q (Throw e) s l -> wp (throw e) s l Q.
Proof. unfold wp, throw. by rewrite app_nil_r. Qed.

Lemma wp_gets {A} (f : SocketIO -> A) s l (Q : res A -> SocketIO -> list action -> Prop) : Q (Ok (f s)) s l -> wp (gets f) s l Q.
Proof. unfold wp, gets. by rewrite app_nil_r. Qed.

Lemma wp_modify f s l (Q : res unit -> SocketIO -> list action -> Prop) : Q (Ok tt) (f s) l -> wp (modify f) s l Q.
Proof. unfold wp, modify. by rewrite app_nil_r. Qed.

Lemma wp_lift {A} (r : res A) s l (Q : res A -> SocketIO -> list action -> Prop) : Q r s l -> wp (lift r) s l Q.
Proof. unfold wp, lift. by rewrite app_nil_r. Qed.

Lemma wp_deref p s l x (Q : res sock -> SocketIO -> list action -> Prop) : heap s !! p = Some x -> Q (Ok x) s l -> wp (deref p) s l Q.
Proof. intros H HQ. unfold wp. rewrite (deref_eq _ _ _ H). by rewrite app_nil_r. Qed.

Lemma wp_deref_null p s l (Q : res sock -> SocketIO -> list action -> Prop) :
  (forall x, heap s !! p = Some x -> Q (Ok x) s l) -> (forall e, Q (Throw e) s l) -> wp (deref p) s l Q.
Proof. intros H1 H2. unfold wp, deref. destruct (heap s !! p) eqn:E; rewrite app_nil_r; auto. Qed.

Lemma wp_update p f s l x (Q : res unit -> SocketIO -> list action -> Prop) :
  heap s !! p = Some x -> Q (Ok tt) (set_heap (<[p := f x]> (heap s)) s) l -> wp (update p f) s l Q.
Proof. intros H HQ. unfold wp. rewrite (update_eq p f s x H). by rewrite app_nil_r. Qed.

Lemma wp_pass p e s l x (Q : res unit -> SocketIO -> list action -> Prop) :
  heap s !! p = Some x ->
  (m_route (esi x) = [] -> forall ex, Q (Throw ex) s l) ->
  (m_route (esi x) <> [] -> Q (Ok tt) s (l ++ [act (m_route (esi x)) e])) -> wp (pass p e) s l Q.
Proof.
  intros H H1 H2. unfold wp. rewrite (pass_eq p s x e H).
  destruct (m_route (esi x)); [rewrite app_nil_r; auto | by apply H2].
Qed.

Lemma wp_mono {A} (m : M SocketIO A) s l (Q Q' : res A -> SocketIO -> list action -> Prop) :
  (forall r s' l', Q r s' l' -> Q' r s' l') -> wp m s l Q -> wp m s l Q'.
Proof. intros H. unfold wp. destruct (m s) as [[r s'] l']. apply H. Qed.

(** The invariant, whatever the outcome. *)
Definition keeps {A} (m : M SocketIO A) : Prop := forall s l, io_inv s l -> wp m s l (fun _ s' l' => io_inv s' l').

Lemma keeps_bind {A B} (m : M SocketIO A) (f : A -> M SocketIO B) : keeps m -> (forall a, keeps (f a)) -> keeps (m ≫= f).
Proof.
  intros Hm Hf s l Hi. apply wp_bind. eapply wp_mono; [|by apply Hm].
  intros [a|e] s' l' Hi'; [by apply Hf | done].
Qed.

Lemma keeps_ret {A} (a : A) : keeps (mret a).
Proof. intros s l Hi. by apply wp_ret. Qed.

Lemma keeps_throw {A} e : keeps (throw (A := A) e).
Proof. intros s l Hi. by apply wp_throw. Qed.

Lemma keeps_gets {A} (f : SocketIO -> A) : keeps (gets f).
Proof. intros s l Hi. by apply wp_gets. Qed.

Lemma keeps_lift {A} (r : res A) : keeps (lift r).
Proof. intros s l Hi. by apply wp_lift. Qed.

Lemma inv_ext s s' l : heap s' = heap s -> next_ptr s' = next_ptr s -> io_inv s l -> io_inv s' l.
Proof. intros E1 E2 [H1 H2]. split; [rewrite E1, E2 | rewrite E2]; done. Qed.

Lemma keeps_modify f : (forall s, heap (f s) = heap s) -> (forall s, next_ptr (f s) = next_ptr s) -> keeps (modify f).
Proof. intros H1 H2 s l Hi. apply wp_modify. by apply (inv_ext s). Qed.

Lemma keeps_deref p : keeps (deref p).
Proof. intros s l Hi. apply wp_deref_null; done. Qed.

(** A socket operation that passes no event. *)
Record quiet (f : sock -> sock) : Prop := {
  q_kind : forall x, same_kind x (f x);
  q_conn : forall x, inConnection_ (f x) = inConnection_ x;
  q_open : forall x, closed (esi x) = true -> closed (esi (f x)) = true;
}.

Lemma keeps_update p f : quiet f -> keeps (update p f).
Proof.
  intros [H1 H2 H3] s l Hi. destruct (heap s !! p) as [x|] eqn:E.
  - eapply wp_update; [done|]. rewrite <- (app_nil_r l).
    apply (inv_quiet s l p x (f x) (pollers s)); auto.
  - unfold update. apply wp_modify. apply (inv_ext s); [|done|done]. cbn.
    apply map_eq. intros q. destruct (decide (q = p)) as [->|Hq]; [by rewrite lookup_alter_eq, E | by rewrite lookup_alter_ne].
Qed.

Lemma keeps_close p reason errNo k : keeps (closeSocket p reason errNo k).
Proof.
  intros s l Hi. destruct (heap s !! p) as [x|] eqn:E.
  - pose proof (closeSocket_spec s l p x reason errNo k Hi E) as H. unfold wp.
    destruct (closeSocket p reason errNo k s) as [[r s'] l']. apply H.
  - unfold closeSocket. apply wp_bind. apply wp_deref_null; [intros x Hx; congruence | intros e; exact Hi].
Qed.

#[export] Hint Resolve keeps_bind keeps_ret keeps_throw keeps_gets keeps_lift keeps_deref keeps_update keeps_close : megatron.

(** *** Quiet operations *)

Definition esi_quiet (f : epoll_socket_info -> epoll_socket_info) : Prop :=
  forall e, streamType_ (f e) = streamType_ e /\ m_route (f e) = m_route e /\ id_ (f e) = id_ e
            /\ (closed e = true -> closed (f e) = true).

Lemma quiet_esi f : esi_quiet f -> quiet (on_esi f).
Proof.
  intros H. split; intros x; cbn; [|done|apply H].
  destruct (H (esi x)) as (H1 & H2 & H3 & _). by repeat split.
Qed.

Lemma esi_quiet_close : esi_quiet esi_close.
Proof.
  intros e. split; [|split; [|split]]; [| | |intros _; apply closed_close];
    unfold esi_close; by destruct (fd_ e =? -1), (closed e).
Qed.

Lemma esi_quiet_ctl out ctl : esi_quiet (epoll_ctl_mask out ctl).
Proof.
  intros e. unfold epoll_ctl_mask. destruct (fd_ e =? -1) eqn:E; [done|]. destruct ctl; [done|].
  destruct (negb (closed (set_interest e true (interest e)))); [|done].
  destruct (esi_quiet_close (set_interest e true (interest e))) as (H1 & H2 & H3 & H4). rewrite H1, H2, H3. auto.
Qed.

Lemma esi_quiet_rw ctl : esi_quiet (sockAddRWOnNew ctl).
Proof. by intros e. Qed.

Lemma esi_quiet_in d : esi_quiet (fun e => in_append e d).
Proof. by intros e. Qed.

Lemma esi_quiet_write ctl (c : bool) d : esi_quiet (fun e => if c then write_and_close ctl e d else write_ ctl e d).
Proof.
  intros e. unfold write_and_close, write_, append_and_close, append, sockStartWrite.
  destruct c, (negb (closed e)); try done; exact (esi_quiet_ctl true ctl _).
Qed.

Lemma esi_quiet_send ctl res e : 
  streamType_ (snd (send ctl res e)) = streamType_ e /\ m_route (snd (send ctl res e)) = m_route e
  /\ id_ (snd (send ctl res e)) = id_ e /\ (closed e = true -> closed (snd (send ctl res e)) = true).
Proof.
  unfold send. cbn [snd]. set (e1 := if _ && _ then _ else e).
  assert (streamType_ e1 = streamType_ e /\ m_route e1 = m_route e /\ id_ e1 = id_ e /\ closed e1 = closed e) as (H1 & H2 & H3 & H4)
    by (subst e1; by destruct (_ && _)).
  destruct (length (outBuffer_ e1) =? 0)%nat; [|by rewrite H1, H2, H3, H4].
  destruct (esi_quiet_ctl false ctl e1) as (H5 & H6 & H7 & H8). unfold sockStopWrite. rewrite H5, H6, H7, H1, H2, H3.
  repeat split. rewrite <- H4. exact H8.
Qed.

Lemma quiet_remote a : quiet (set_remote_name a).
Proof. by split. Qed.
Lemma quiet_server a : quiet (set_server_name a).
Proof. by split. Qed.
Lemma quiet_local a : quiet (set_local_name a).
Proof. by split. Qed.
Lemma quiet_request a : quiet (set_request a).
Proof. by split. Qed.
Lemma quiet_ssl : quiet set_ssl_connected.
Proof. by split. Qed.

Lemma quiet_comp f g : quiet f -> quiet g -> quiet (fun x => f (g x)).
Proof.
  intros [F1 F2 F3] [G1 G2 G3]. split; intros x.
  - destruct (F1 (g x)) as (H1 & H2 & H3 & H4), (G1 x) as (H5 & H6 & H7 & H8). unfold same_kind. by rewrite H1, H2, H3, H4.
  - by rewrite F2.
  - auto.
Qed.

#[export] Hint Resolve quiet_esi esi_quiet_close esi_quiet_ctl esi_quiet_rw esi_quiet_in esi_quiet_write
  quiet_remote quiet_server quiet_local quiet_request quiet_ssl : megatron.

(** *** A new socket *)

Lemma inv_new s s' l x' evs :
  io_inv s l -> next_ptr s' = next_ptr s + 1 -> heap s' !! next_ptr s = Some x' ->
  (forall q y, q <> next_ptr s -> heap s' !! q = Some y ->
     exists y0 f, heap s !! q = Some y0 /\ quiet f /\ y = f y0) ->
  Forall (fun e => about (next_ptr s) e = true) evs -> sock_ok x' evs ->
  io_inv s' (l ++ (act (m_route (esi x')) <$> evs)).
Proof.
  intros [H1 H2] En Hx Hold He Hok. split.
  - intros q y Hq. rewrite events_of_app. destruct (decide (q = next_ptr s)) as [->|Hne].
    + pose proof (eq_trans (eq_sym Hx) Hq) as E. injection E as <-. split; [unfold ptr in *; lia|].
      rewrite H2, events_of_self by (done || lia). done.
    + destruct (Hold q y Hne Hq) as (y0 & f & Hy0 & [F1 F2 F3] & ->). destruct (H1 q y0 Hy0) as [Hlt Hok0].
      split; [unfold ptr in *; lia|]. rewrite (events_of_other (next_ptr s) q) by done. rewrite app_nil_r.
      rewrite (proj1 (proj2 (F1 y0))). apply (ok_quiet y0); auto.
  - intros q r Hq. rewrite events_of_app, H2 by (unfold ptr in *; lia).
    apply (events_of_other (next_ptr s) q); [done|]. unfold ptr in *; lia.
Qed.

(** An event about a socket that goes another way than its route. *)
Lemma inv_foreign s l p x r e :
  io_inv s l -> heap s !! p = Some x -> about p e = true -> r <> m_route (esi x) -> io_inv s (l ++ [act r e]).
Proof.
  intros [H1 H2] Hp He Hr. destruct (H1 p x Hp) as [Hlt _]. split.
  - intros q y Hq. rewrite events_of_app. destruct (decide (q = p)) as [->|Hne].
    + pose proof (eq_trans (eq_sym Hp) Hq) as E. injection E as <-.
      assert (events_of p (m_route (esi x)) [act r e] = []) as ->.
      { cbn. rewrite He, bool_decide_eq_false_2 by done. done. }
      rewrite app_nil_r. by apply H1.
    + pose proof (events_of_other p q r (m_route (esi y)) [e]) as E. cbn in E. cbn. rewrite E by (done || by repeat constructor).
      rewrite app_nil_r. by apply H1.
  - intros q r' Hq. rewrite events_of_app, H2 by done.
    apply (events_of_other p q r r' [e]); [by repeat constructor|]. unfold ptr in *; lia.
Qed.

(** ** The handlers keep the invariant *)

Lemma keeps_getPoller rand : keeps (getPoller rand).
Proof.
  unfold getPoller. apply keeps_bind; [apply keeps_gets|]. intros s0.
  destruct (negb _); [apply keeps_throw|]. destruct (_ =? 0)%nat; [apply keeps_throw | apply keeps_ret].
Qed.

Lemma keeps_getNewSocketId : keeps getNewSocketId.
Proof. intros s l Hi. unfold wp, getNewSocketId. rewrite app_nil_r. by apply (inv_ext s). Qed.

Lemma wp_alloc x s l (Q : res ptr -> SocketIO -> list action -> Prop) :
  Q (Ok (next_ptr s)) (mkIO (<[next_ptr s := x]> (heap s)) (pollers s) (n_workers_ s) (next_ptr s + 1) (sockIdGen s)
                            (service_secure s) (terminate s) (raw_closed s)) l ->
  wp (alloc x) s l Q.
Proof. intros H. unfold wp, alloc. by rewrite app_nil_r. Qed.

Lemma wp_new_sock ok x s l (Q : res ptr -> SocketIO -> list action -> Prop) :
  (forall e, Q (Throw e) s l) ->
  Q (Ok (next_ptr s)) (mkIO (<[next_ptr s := x]> (heap s)) (pollers s) (n_workers_ s) (next_ptr s + 1) (sockIdGen s)
                            (service_secure s) (terminate s) (raw_closed s)) l ->
  wp (new_sock ok x) s l Q.
Proof. intros H1 H2. unfold new_sock. destruct (_ && _); [by apply wp_throw | by apply wp_alloc]. Qed.

Lemma wp_ms_add k p x s l (Q : res unit -> SocketIO -> list action -> Prop) :
  heap s !! p = Some x -> (forall pl, Q (Ok tt) (set_pollers pl s) l) -> wp (ms_add k p) s l Q.
Proof. intros H HQ. unfold ms_add. apply wp_bind. eapply wp_deref; [done|]. by apply wp_modify. Qed.

(** The invariant, and the socket at [L] is still of its kind. *)
Definition listener_kept (L : ptr) (y : sock) {A} (_ : res A) (s' : SocketIO) (l' : list action) : Prop :=
  io_inv s' l' /\ exists y', heap s' !! L = Some y' /\ streamType_ (esi y') = streamType_ (esi y).

(** The new socket is announced once it is in its poller. *)
Lemma accept_announces ok L y x0 f1 f2 ff k s l :
  io_inv s l -> heap s !! L = Some y -> quiet f1 -> quiet f2 -> quiet ff ->
  streamType_ (esi x0) = STREAMTYPE_ACCEPTED -> inConnection_ x0 = false ->
  wp (n ← new_sock ok x0; _ ← update L ff; _ ← update n f1; _ ← update n f2; _ ← ms_add k n;
      pass n (socketEvent.Accepted n)) s l (listener_kept L y).
Proof.
  intros Hi HL [F1 F2 F3] [G1 G2 G3] Hff Hty Hin. destruct (io_heap s l Hi L y HL) as [Hlt _].
  apply wp_bind, wp_new_sock; [intros e; split; [done | by exists y]|]. set (n := next_ptr s).
  assert (L <> n) as Hne by (unfold n, ptr in *; lia).
  apply wp_bind. eapply (wp_update L ff _ _ y); [by cbn; rewrite lookup_insert_ne|].
  apply wp_bind. eapply (wp_update n f1 _ _ x0); [by cbn; rewrite lookup_insert_ne, lookup_insert_eq|].
  apply wp_bind. eapply (wp_update n f2 _ _ (f1 x0)); [by cbn; rewrite lookup_insert_eq|].
  apply wp_bind. eapply (wp_ms_add k n (f2 (f1 x0))); [by cbn; rewrite lookup_insert_eq|]. intros pl.
  destruct (G1 (f1 x0)) as (K1 & K2 & _), (F1 x0) as (K3 & K4 & _).
  assert (inConnection_ (f2 (f1 x0)) = false) as Hin' by (by rewrite G2, F2).
  match goal with |- wp _ ?st _ _ => set (s' := st) end.
  assert (heap s' !! n = Some (f2 (f1 x0))) as Hn by (cbn; by rewrite lookup_insert_eq).
  assert (forall q z, q <> n -> heap s' !! q = Some z -> exists y0 f, heap s !! q = Some y0 /\ quiet f /\ z = f y0) as Hold.
  { intros q z Hq Hz. cbn in Hz. rewrite !lookup_insert_ne in Hz by congruence.
    destruct (decide (q = L)) as [->|HqL].
    - rewrite lookup_insert_eq in Hz. injection Hz as <-. by exists y, ff.
    - rewrite !lookup_insert_ne in Hz by congruence. exists z, id. by repeat split. }
  assert (exists y', heap s' !! L = Some y' /\ streamType_ (esi y') = streamType_ (esi y)) as Hkept.
  { exists (ff y). split; [cbn; by rewrite !lookup_insert_ne, lookup_insert_eq by congruence | apply (q_kind ff Hff y)]. }
  eapply wp_pass; [exact Hn| |].
  - intros Hr ex. split; [|done]. rewrite <- (app_nil_r l). apply (inv_new s s' l (f2 (f1 x0)) []); try done. split; [done|]. by rewrite Hr.
  - intros Hr. split; [|done]. apply (inv_new s s' l (f2 (f1 x0)) [socketEvent.Accepted n]); try done.
    + constructor; [apply Z.eqb_refl | constructor].
    + split; [done|]. destruct (m_route _); [done|]. rewrite K1, K3, Hty. exists Up. split; [done|].
      left. unfold base. by rewrite K1, K3, Hty.
Qed.

Lemma accepted_spec sys L s l y :
  io_inv s l -> heap s !! L = Some y -> wp (handle_accepted1 sys L) s l (listener_kept L y).
Proof.
  intros Hi HL. assert (forall A (r : res A) s', heap s' = heap s -> next_ptr s' = next_ptr s -> listener_kept L y r s' l) as Hstay.
  { intros A r s' E1 E2. split; [by apply (inv_ext s) | exists y; by rewrite E1]. }
  unfold handle_accepted1. destruct (_ =? -1); [by apply wp_ret, Hstay|]. destruct (_ <? 0); [by apply wp_ret, Hstay|].
  destruct (negb (ac_reuse sys)); [by apply wp_modify, Hstay|].
  destruct (negb (ac_linger sys)); [by apply wp_modify, Hstay|].
  apply wp_bind. unfold getPoller. apply wp_bind, wp_gets.
  destruct (negb _); [by apply wp_throw, Hstay|]. destruct (_ =? 0)%nat; [by apply wp_throw, Hstay|]. apply wp_ret.
  apply wp_bind. unfold wp at 1, getNewSocketId. rewrite app_nil_r. apply wp_bind. eapply wp_deref; [exact HL|].
  apply accept_announces; auto with megatron; [by apply (inv_ext s) | apply quiet_esi, esi_quiet_ctl].
Qed.

(** When [EPOLLOUT] is handled after [EPOLLIN] has closed the socket. *)
Definition safe_out (k : nat) (x : sock) (s : SocketIO) (evs : list socketEvent.t) : Prop :=
  proto (streamType_ (esi x)) Fresh evs = Some Down ->
  container k s !! id_ (esi x) = None /\ secure_context x && inConnection_ x && negb (ssl_connected x) = false.

Lemma safe_open k x s evs :
  closed (esi x) = false -> sock_ok x evs -> safe_out k x s evs.
Proof.
  intros Hc [_ H] Hd. destruct (m_route (esi x)) eqn:Er; [by subst|].
  destruct H as (ph & Hp & [->|[_ ?]]); [|congruence]. rewrite Hp in Hd. injection Hd as Hd.
  unfold base in Hd. by destruct (streamType_ (esi x)), (inConnection_ x).
Qed.

Definition in_post (k : nat) (p : ptr) {A} (_ : res A) (s' : SocketIO) (l' : list action) : Prop :=
  io_inv s' l' /\ exists x', heap s' !! p = Some x' /\ safe_out k x' s' (events_of p (m_route (esi x')) l').

Lemma in_post_open k p A (r : res A) s l x :
  io_inv s l -> heap s !! p = Some x -> closed (esi x) = false -> in_post k p r s l.
Proof. intros Hi Hp Hc. split; [done|]. exists x. split; [done|]. apply safe_open; [done|]. by apply (io_heap s l Hi). Qed.

(** A socket that is not closed by its last event is safe. *)
Lemma in_post_quiet k p A (r : res A) s l x x' :
  io_inv s l -> heap s !! p = Some x -> closed (esi x) = false -> same_kind x x' -> inConnection_ x' = inConnection_ x ->
  in_post k p r (set_heap (<[p := x']> (heap s)) s) l.
Proof.
  intros Hi Hp Hc Hk Hin. pose proof (io_heap s l Hi p x Hp) as [_ Hok]. split.
  - rewrite <- (app_nil_r l). apply (inv_quiet s l p x x' (pollers s)); congruence || done.
  - exists x'. split; [apply lookup_insert_eq|]. destruct Hk as (E1 & E2 & E3 & _). rewrite E2. intros Hd. rewrite E1 in Hd.
    exfalso. destruct (safe_open 0 x (mkIO ∅ [{[id_ (esi x) := p]}] 0 0 0 false false []) _ Hc Hok Hd) as [C _].
    cbn in C. by rewrite lookup_singleton_eq in C.
Qed.

Lemma onEPOLLIN_STREAM_spec sys k p s l x :
  io_inv s l -> heap s !! p = Some x -> closed (esi x) = false ->
  streamType_ (esi x) = STREAMTYPE_ACCEPTED \/ streamType_ (esi x) = STREAMTYPE_CONNECTED ->
  wp (onEPOLLIN_STREAM sys k p) s l (in_post k p).
Proof.
  intros Hi Hp Hc Hty. unfold onEPOLLIN_STREAM. apply wp_bind. eapply wp_deref; [done|].
  destruct (secure_context x && negb (ssl_connected x)) eqn:Es.
  { destruct (in_hs sys).
    - eapply wp_update; [done|]. by eapply in_post_quiet.
    - eapply wp_update; [done|]. eapply in_post_quiet; try done. apply (q_kind _ (quiet_esi _ (esi_quiet_ctl true (in_ctl sys)))).
    - apply wp_ret. by eapply in_post_open.
    - apply wp_ret. by eapply in_post_open. }
  change (fd_ (esi x) =? -1) with (closed (esi x)). rewrite Hc.
  destruct (in_recv sys) as [[|c d]|e]; [| |apply wp_ret; by eapply in_post_open].
  - pose proof (closeSocket_spec s l p x (lit "recv 0, resetted by peer") (in_errno sys) k Hi Hp) as H. unfold wp.
    destruct (closeSocket p (lit "recv 0, resetted by peer") (in_errno sys) k s) as [[r s'] l'].
    destruct H as [Hi' [[-> ->]|[Hp' Hk]]]; [rewrite app_nil_r; by eapply in_post_open|].
    split; [done|]. eexists. split; [exact Hp'|]. intros _. rewrite (proj1 (proj2 (proj2 (same_close x)))). split; [done|].
    cbn. rewrite andb_comm, andb_assoc, (andb_comm _ (secure_context x)), Es. done.
  - apply wp_bind. eapply wp_update; [done|]. set (x' := on_esi (fun e => in_append e (c :: d)) x).
    pose proof (io_heap s l Hi p x Hp) as [_ Hok].
    eapply (wp_pass p _ _ _ x'); [apply lookup_insert_eq| |].
    + intros _ ex. by eapply in_post_quiet.
    + intros Hr. pose proof (ok_open x _ Hok Hr Hc) as Hph.
      eapply (in_post_open _ _ _ _ _ _ x'); [|apply lookup_insert_eq|done].
      apply (inv_event s l p x x' _ (base x) (base x) (pollers s)); try done.
      * apply Z.eqb_refl.
      * apply Hok.
      * unfold base. destruct Hty as [-> | ->]; [done|]. by destruct (inConnection_ x).
      * by left.
Qed.

Lemma listening_never_down evs : proto STREAMTYPE_LISTENING Fresh evs <> Some Down.
Proof. induction evs as [|e evs IH]; cbn; [done|]. by destruct e. Qed.

Lemma onEPOLLIN_spec sys k p s l x :
  io_inv s l -> heap s !! p = Some x -> closed (esi x) = false -> wp (onEPOLLIN sys k p) s l (in_post k p).
Proof.
  intros Hi Hp Hc. unfold onEPOLLIN. apply wp_bind. eapply wp_deref; [done|].
  destruct (streamType_ (esi x)) eqn:Ety.
  - by eapply onEPOLLIN_STREAM_spec; eauto.
  - by eapply onEPOLLIN_STREAM_spec; eauto.
  - eapply wp_mono; [|by eapply accepted_spec]. intros r s' l' [Hi' (y & Hy & Et)]. split; [done|].
    exists y. split; [done|]. intros Hd. rewrite Et, Ety in Hd. by apply listening_never_down in Hd.
  - apply wp_ret. by eapply in_post_open.
Qed.

(** *** EPOLLOUT *)

Lemma set_conn_same x b : same_kind x (set_inConnection b x).
Proof. done. Qed.

(** The announcement of a connection that was under way. *)
Lemma announce_connected s l p x x' pl :
  io_inv s l -> heap s !! p = Some x -> same_kind x x' -> inConnection_ x = true -> inConnection_ x' = false ->
  m_route (esi x) <> [] ->
  proto (streamType_ (esi x)) Fresh (events_of p (m_route (esi x)) l) <> Some Down ->
  io_inv (set_pollers pl (set_heap (<[p := x']> (heap s)) s)) (l ++ [act (m_route (esi x)) (socketEvent.Connected p)]).
Proof.
  intros Hi Hp Hk Hin Hin' Hr Hd. destruct (io_heap s l Hi p x Hp) as [_ [Hc Hok]].
  assert (streamType_ (esi x) = STREAMTYPE_CONNECTED) as Ety.
  { destruct (decide (streamType_ (esi x) = STREAMTYPE_CONNECTED)) as [|n]; [done|]. by rewrite (Hc n) in Hin. }
  destruct (m_route (esi x)) as [|h t] eqn:Er; [done|]. destruct Hok as (ph & Hph & Hph'). rewrite <- Er in *.
  apply (inv_event s l p x x' _ Fresh Up pl); try done.
  - apply Z.eqb_refl.
  - destruct Hph' as [->|[-> _]]; [|done]. rewrite Hph. unfold base. by rewrite Ety, Hin.
  - by rewrite Ety.
  - left. unfold base. by rewrite (proj1 Hk), Ety, Hin'.
Qed.

(** When nothing can be passed the connection state is free to change. *)
Lemma silent_change s l p x x' pl :
  io_inv s l -> heap s !! p = Some x -> same_kind x x' -> m_route (esi x) = [] ->
  (streamType_ (esi x') <> STREAMTYPE_CONNECTED -> inConnection_ x' = false) ->
  io_inv (set_pollers pl (set_heap (<[p := x']> (heap s)) s)) l.
Proof.
  intros Hi Hp Hk Hr Hc. rewrite <- (app_nil_r l). apply (inv_local s l p x x' [] pl); try done; [apply Hk|].
  rewrite app_nil_r. intros [_ H]. split; [done|]. rewrite (proj1 (proj2 Hk)), Hr. by rewrite Hr in H.
Qed.

Lemma onEPOLLOUT_handshake_spec sys k p s l x :
  io_inv s l -> heap s !! p = Some x -> safe_out k x s (events_of p (m_route (esi x)) l) ->
  wp (onEPOLLOUT_handshake sys p) s l
    (fun r s' l' => match r with Ok false => in_post k p r s' l' | _ => io_inv s' l' end).
Proof.
  intros Hi Hp Hs. unfold onEPOLLOUT_handshake. apply wp_bind. eapply wp_deref; [done|].
  destruct (secure_context x && inConnection_ x && negb (ssl_connected x)) eqn:Eg;
    [|apply wp_ret; split; [done|]; by exists x].
  assert (proto (streamType_ (esi x)) Fresh (events_of p (m_route (esi x)) l) <> Some Down) as Hd
    by (intros Hd; destruct (Hs Hd); congruence).
  apply andb_prop in Eg as [Eg _]. apply andb_prop in Eg as [_ Ein].
  destruct (out_hs sys).
  - apply wp_bind. eapply wp_update; [done|]. apply wp_bind. eapply wp_update; [apply lookup_insert_eq|].
    apply wp_bind. set (x' := set_inConnection false (set_ssl_connected x)). cbn [heap set_heap]. rewrite insert_insert_eq.
    eapply (wp_pass p _ _ _ x'); [apply lookup_insert_eq| |].
    + intros Hr ex. by apply (silent_change s l p x x' (pollers s)).
    + intros Hr. apply wp_ret. by apply (announce_connected s l p x x' (pollers s)).
  - apply wp_bind. eapply wp_update; [done|]. apply wp_ret.
    pose proof (quiet_esi _ (esi_quiet_ctl true (out_hs_ctl sys))) as [Q1 Q2 Q3]. split.
    + rewrite <- (app_nil_r l). apply (inv_quiet s l p x _ (pollers s)); auto.
    + eexists. split; [apply lookup_insert_eq|]. intros Hd'. exfalso. apply Hd.
      destruct (Q1 x) as (E1 & E2 & _). unfold sockStartWrite in Hd'. by rewrite E1, E2 in Hd'.
  - apply wp_ret. split; [done|]. by exists x.
  - apply wp_ret. split; [done|]. by exists x.
Qed.

Lemma onEPOLLOUT_connecting_spec sys k p s l x :
  io_inv s l -> heap s !! p = Some x -> inConnection_ x = true -> safe_out k x s (events_of p (m_route (esi x)) l) ->
  wp (onEPOLLOUT_connecting sys k p) s l (fun _ s' l' => io_inv s' l').
Proof.
  intros Hi Hp Hin Hs. unfold onEPOLLOUT_connecting. apply wp_bind. eapply wp_deref; [done|].
  apply wp_bind. unfold ms_count. apply wp_gets. destruct (bool_decide _) eqn:Eb; [|by apply wp_ret].
  apply bool_decide_eq_true in Eb. cbn [negb].
  assert (proto (streamType_ (esi x)) Fresh (events_of p (m_route (esi x)) l) <> Some Down) as Hd.
  { intros Hd. destruct (Hs Hd) as [Hn _]. rewrite Hn in Eb. by destruct Eb. }
  apply wp_bind. eapply wp_update; [done|]. apply wp_bind.
  (* The mask may change in between; the socket keeps its kind. *)
  assert (forall f, quiet f ->
    wp (pass p (socketEvent.Connected p))
       (set_heap (<[p := f (set_inConnection false x)]> (heap s)) s) l (fun _ s' l' => io_inv s' l')) as Hgo.
  { intros f [Q1 Q2 Q3]. destruct (Q1 (set_inConnection false x)) as (E1 & E2 & E3 & E4). cbn in E1, E2, E3, E4.
    eapply (wp_pass p _ _ _ (f (set_inConnection false x))); [apply lookup_insert_eq| |]; rewrite E2; intros Hr.
    - intros ex. apply (silent_change s l p x _ (pollers s)); done || (intros; by rewrite Q2).
    - apply (announce_connected s l p x _ (pollers s)); done || (intros; by rewrite Q2). }
  destruct (length (outBuffer_ (esi x)) =? 0)%nat.
  - eapply wp_update; [apply lookup_insert_eq|]. cbn [heap set_heap]. rewrite insert_insert_eq.
    apply (Hgo (on_esi (sockStopWrite (out_stop_ctl sys)))). apply quiet_esi, esi_quiet_ctl.
  - apply wp_ret. apply (Hgo id). by split.
Qed.

(** The announcement of an empty buffer on a socket that was open. *)
Lemma announce_empty s l p x x' pl :
  io_inv s l -> heap s !! p = Some x -> closed (esi x) = false -> inConnection_ x = false -> same_kind x x' ->
  inConnection_ x' = false -> m_route (esi x) <> [] ->
  io_inv (set_pollers pl (set_heap (<[p := x']> (heap s)) s)) (l ++ [act (m_route (esi x)) (socketEvent.NotifyOutBufferEmpty p)]).
Proof.
  intros Hi Hp Hc Hin Hk Hin' Hr. destruct (io_heap s l Hi p x Hp) as [_ Hok].
  apply (inv_event s l p x x' _ (base x) (base x) pl); try done.
  - apply Z.eqb_refl.
  - by apply ok_open.
  - unfold base. by destruct (streamType_ (esi x)); rewrite ?Hin.
  - left. unfold base. by rewrite (proj1 Hk), Hin, Hin'.
Qed.

Lemma onEPOLLOUT_send_spec sys k p s l x :
  io_inv s l -> heap s !! p = Some x -> inConnection_ x = false ->
  wp (onEPOLLOUT_send sys k p) s l (fun _ s' l' => io_inv s' l').
Proof.
  intros Hi Hp Hin. unfold onEPOLLOUT_send. apply wp_bind. eapply wp_deref; [done|].
  destruct (closed (esi x)) eqn:Hc; [by apply wp_ret|].
  pose proof (esi_quiet_send (out_ctl sys) (out_res sys) (esi x)) as (S1 & S2 & S3 & S4).
  destruct (send (out_ctl sys) (out_res sys) (esi x)) as [r e1]. cbn [snd] in *.
  apply wp_bind. eapply wp_update; [done|]. set (x' := on_esi (fun _ => e1) x).
  assert (same_kind x x') as Hk by done. cbv zeta. apply wp_bind.
  assert (forall s' l', io_inv s' l' ->
    wp (if (0 <? r) && (length (outBuffer_ e1) =? 0)%nat && markedToDestroyOnSend_ e1
        then closeSocket p (lit "marked to destroy on send") 0 k
        else if r =? -1 then if out_again sys then mret tt else closeSocket p (lit "send result (-1)") 0 k else mret tt)
       s' l' (fun _ s' l' => io_inv s' l')) as Htail.
  { intros s' l' Hi'. destruct (_ && _); [by apply keeps_close|]. destruct (r =? -1); [|by apply keeps_ret].
    destruct (out_again sys); [by apply keeps_ret | by apply keeps_close]. }
  assert (io_inv (set_heap (<[p := x']> (heap s)) s) l) as Hi'.
  { rewrite <- (app_nil_r l). apply (inv_quiet s l p x x' (pollers s)); try done. }
  destruct (length (outBuffer_ e1) =? 0)%nat eqn:Ee; [|by apply wp_ret, Htail].
  eapply (wp_pass p _ _ _ x'); [apply lookup_insert_eq| |]; intros Hr.
  - done.
  - apply Htail. cbn in Hr. rewrite S2 in Hr. cbn. rewrite S2. by apply (announce_empty s l p x x' (pollers s)).
Qed.

Lemma onEPOLLOUT_spec sys k p s l x :
  io_inv s l -> heap s !! p = Some x -> safe_out k x s (events_of p (m_route (esi x)) l) ->
  wp (onEPOLLOUT sys k p) s l (fun _ s' l' => io_inv s' l').
Proof.
  intros Hi Hp Hs. unfold onEPOLLOUT. apply wp_bind. eapply wp_mono; [|by eapply onEPOLLOUT_handshake_spec].
  intros [[|]|e] s' l'; [intros H; by apply wp_ret| |done].
  intros [Hi' (x' & Hp' & Hs')]. apply wp_bind. eapply wp_deref; [done|].
  destruct (negb _); [by apply wp_throw|]. destruct (inConnection_ x') eqn:Ein.
  - by eapply onEPOLLOUT_connecting_spec.
  - by eapply onEPOLLOUT_send_spec.
Qed.

(** ** The worker and the requests *)

Lemma keeps_worker_event k ev : keeps (worker_event k ev).
Proof.
  intros s l Hi. unfold worker_event. apply wp_bind. unfold ms_getOrNull. apply wp_gets.
  destruct (container k s !! ev_id ev) as [p|]; [|by apply wp_ret].
  apply wp_bind, wp_deref_null; [|done]. intros x Hp. destruct (closed (esi x)) eqn:Hc; [by apply wp_ret|].
  destruct (ev_err ev).
  { unfold onEPOLLERR. apply wp_bind. eapply wp_deref; [done|]. destruct (negb _); [by apply wp_throw | by apply keeps_close]. }
  apply wp_bind. apply wp_mono with (Q := in_post k p).
  - intros [[]|e] s' l'; [|by intros []]. intros [Hi' (x' & Hp' & Hs')].
    destruct (ev_out ev); [by eapply onEPOLLOUT_spec | by apply wp_ret].
  - destruct (ev_in ev); [by eapply onEPOLLIN_spec | apply wp_ret; by eapply in_post_open].
Qed.

Lemma keeps_foreach {A} (f : A -> M SocketIO unit) l : (forall a, keeps (f a)) -> keeps (foreach f l).
Proof. intros H. induction l as [|a l IH]; [apply keeps_ret|]. apply keeps_bind; [apply H | done]. Qed.

Lemma keeps_try {A} (m h : M SocketIO A) : keeps m -> keeps h -> keeps (try_catch m h).
Proof.
  intros Hm Hh s l Hi. specialize (Hm s l Hi). unfold wp, try_catch in *. destruct (m s) as [[[a|e] s1] l1]; [done|].
  destruct (catchable e); [|done]. specialize (Hh s1 (l ++ l1) Hm). unfold wp in Hh.
  destruct (h s1) as [[r s2] l2]. by rewrite app_assoc.
Qed.

Lemma keeps_worker k evs : keeps (worker_round k evs).
Proof. apply keeps_try; [apply keeps_foreach, keeps_worker_event | apply keeps_ret]. Qed.

(** A socket that is not yet known to anybody, made in a phase without events. *)
Lemma inv_make s l x :
  io_inv s l -> base x = Fresh -> (streamType_ (esi x) <> STREAMTYPE_CONNECTED -> inConnection_ x = false) ->
  io_inv (mkIO (<[next_ptr s := x]> (heap s)) (pollers s) (n_workers_ s) (next_ptr s + 1) (sockIdGen s)
               (service_secure s) (terminate s) (raw_closed s)) l.
Proof.
  intros Hi Hb Hc. rewrite <- (app_nil_r l). apply (inv_new s _ l x []); try done.
  - apply lookup_insert_eq.
  - intros q y Hq Hy. cbn in Hy. rewrite lookup_insert_ne in Hy by congruence. exists y, id. by repeat split.
  - split; [done|]. destruct (m_route _); [done|]. exists Fresh. split; [done|]. by left.
Qed.

Lemma keeps_ms_add k p : keeps (ms_add k p).
Proof. unfold ms_add. apply keeps_bind; [apply keeps_deref|]. intros x. by apply keeps_modify. Qed.

(** An event that names no socket. *)
Lemma inv_nobody s l r e : io_inv s l -> (forall p, about p e = false) -> io_inv s (l ++ [act r e]).
Proof.
  intros [H1 H2] He. assert (forall p r', events_of p r' [act r e] = []) as E by (intros p r'; cbn; by rewrite He).
  split; intros p; [intros x Hx | intros r' Hp]; rewrite events_of_app, E, app_nil_r; auto.
Qed.

Lemma keeps_pass_nobody p e : (forall q, about q e = false) -> keeps (pass p e).
Proof.
  intros He s l Hi. destruct (heap s !! p) as [x|] eqn:Hp.
  - eapply wp_pass; [done|done|]. intros _. by apply inv_nobody.
  - unfold pass. apply wp_bind, wp_deref_null; [congruence|done].
Qed.

Lemma keeps_initSSL ok : keeps (initSSL ok).
Proof. destruct ok; [by apply keeps_modify | apply keeps_throw]. Qed.

Ltac keep :=
  lazymatch goal with
  | |- keeps (mbind _ _) => apply keeps_bind; [keep | intros ?; keep]
  | |- keeps (mret _) => apply keeps_ret
  | |- keeps (throw _) => apply keeps_throw
  | |- keeps (gets _) => apply keeps_gets
  | |- keeps (lift _) => apply keeps_lift
  | |- keeps (deref _) => apply keeps_deref
  | |- keeps (modify _) => by apply keeps_modify
  | |- keeps (update _ _) => apply keeps_update; solve [auto with megatron | apply quiet_esi, esi_quiet_ctl]
  | |- keeps (pass _ _) => by apply keeps_pass_nobody
  | |- keeps (if ?b then _ else _) => destruct b; keep
  | |- _ => solve [auto using keeps_close, keeps_getPoller, keeps_initSSL, keeps_ms_add]
  end.

Lemma keeps_new_listening ok id fd r descr k sec : keeps (new_sock ok (sock_new STREAMTYPE_LISTENING id fd r descr k sec)).
Proof. intros s l Hi. apply wp_new_sock; [done|]. by apply inv_make. Qed.

Lemma keeps_listen sys id addr descr rb sec r : keeps (on_AddToListenTCP sys id addr descr rb sec r).
Proof.
  unfold on_AddToListenTCP. apply keeps_bind; [keep|]. intros _. apply keeps_bind; [keep|]. intros k.
  apply keeps_bind; [keep|]. intros sc. apply keeps_bind; [keep|]. intros rt.
  apply keeps_bind; [apply keeps_new_listening|]. intros p. keep.
Qed.

Lemma keeps_context sys sec : keeps (connect_context sys sec).
Proof. unfold connect_context. keep. Qed.

(** The last step of a connection request: what goes along the request's own
    route is not along the route of the socket. *)
Lemma connect_tail sys addr r h p s l x k :
  io_inv s l -> heap s !! p = Some x -> m_route (esi x) = r ->
  wp (match cs_connect sys with
      | C_failed errno =>
          _ ← closeSocket p (lit "connect") errno k;
          _ ← passEvent_ (mkEvent (Esocket (socketEvent.ConnectFailed p addr (cs_errno_after sys))) (push_back r h));
          mret true
      | C_in_progress => mret true
      | C_done => _ ← passEvent_ (mkEvent (Esocket (socketEvent.Connected p)) (push_back r h)); mret true
      end) s l (fun _ s' l' => io_inv s' l').
Proof.
  intros Hi Hp Hr.
  assert (forall s' l' x' e, io_inv s' l' -> heap s' !! p = Some x' -> m_route (esi x') = r -> about p e = true ->
    wp (_ ← passEvent_ (mkEvent (Esocket e) (push_back r h)); mret true) s' l' (fun _ s' l' => io_inv s' l')) as Hpass.
  { intros s' l' x' e Hi' Hp' Hr' He. apply wp_bind. unfold passEvent_. apply wp_bind, wp_lift. cbn [ev_route].
    rewrite pop_push. unfold emit, wp at 1. apply wp_ret. apply (inv_foreign s' l' p x' (push_back r h)); try done.
    rewrite Hr'. intros E. apply (f_equal length) in E. unfold push_back in E. rewrite length_app in E. cbn in E. lia. }
  destruct (cs_connect sys) as [| |errno].
  - apply (Hpass s l x); try done. apply Z.eqb_refl.
  - by apply wp_ret.
  - apply wp_bind. pose proof (closeSocket_spec s l p x (lit "connect") errno k Hi Hp) as H. unfold wp.
    destruct (closeSocket p (lit "connect") errno k s) as [[[[]|e] s'] l']; destruct H as [Hi' Hcase]; [|done].
    destruct Hcase as [[-> ->]|[Hp' _]].
    + apply (Hpass _ _ x); try done. apply Z.eqb_refl.
    + apply (Hpass _ _ (on_esi esi_close x)); try done; [|apply Z.eqb_refl].
      by rewrite (proj1 (proj2 (same_close x))).
Qed.

Lemma keeps_connect sys id addr descr sec r : keeps (on_AddToConnectTCP sys id addr descr sec r).
Proof.
  unfold on_AddToConnectTCP. apply keeps_bind; [keep|]. intros k. destruct (_ =? -1); [keep|].
  apply keeps_bind; [apply keeps_context|]. intros sc.
  intros s l Hi. apply wp_bind, wp_lift. unfold poppedFrontRoute.
  destruct (pop_back r) as [[h rt]|e] eqn:Epop; [|done]. apply pop_back_inv in Epop as ->. cbn [mbind res_bind].
  apply wp_bind, wp_new_sock; [done|]. apply wp_bind. eapply wp_update; [apply lookup_insert_eq|].
  cbn [heap set_heap]. rewrite insert_insert_eq.
  set (x0 := sock_new STREAMTYPE_CONNECTED id (cs_fd sys) rt descr k sc). set (x := set_inConnection true x0).
  match goal with |- wp _ ?st _ _ => set (s1 := st) end. set (p := next_ptr s).
  assert (heap s1 !! p = Some x) as Hp by apply lookup_insert_eq.
  assert (io_inv s1 l) as Hi1 by exact (inv_make s l x Hi eq_refl (fun n => False_ind _ (n eq_refl))).
  assert (forall reason, wp (_ ← closeSocket p reason (cs_errno sys) k; mret true) s1 l (fun _ s' l' => io_inv s' l')) as Hfail.
  { intros reason. apply keeps_bind; [apply keeps_close | intros _; apply keeps_ret | done]. }
  destruct (_ && _); [apply Hfail|]. destruct (negb (cs_ioctl sys)); [apply Hfail|].
  destruct (negb (cs_linger sys)); [apply Hfail|].
  apply wp_bind. eapply wp_update; [exact Hp|]. apply wp_bind. eapply wp_update; [apply lookup_insert_eq|].
  cbn [heap set_heap]. rewrite insert_insert_eq.
  apply wp_bind. eapply wp_ms_add; [apply lookup_insert_eq|]. intros pl.
  eapply connect_tail; [|apply lookup_insert_eq|done].
  rewrite <- (app_nil_r l). by apply (inv_quiet s1 l p x).
Qed.

Lemma keeps_run_op o : keeps (run_op o).
Proof.
  destruct o; cbn [run_op].
  - apply keeps_bind; [apply keeps_listen | intros _; apply keeps_ret].
  - apply keeps_bind; [apply keeps_connect | intros _; apply keeps_ret].
  - apply keeps_worker.
  - apply keeps_update, quiet_esi, esi_quiet_close.
  - apply keeps_update, quiet_esi, esi_quiet_write.
  - apply keeps_update, quiet_esi. by intros e.
Qed.

Lemma run_inv os s l : io_inv s l -> io_inv (run os s).1 (l ++ (run os s).2).
Proof.
  revert s l. induction os as [|o os IH]; intros s l Hi; cbn [run]; [by rewrite app_nil_r|].
  pose proof (keeps_run_op o s l Hi) as H. unfold wp in H. destruct (run_op o s) as [[[a|e] s1] l1].
  - specialize (IH s1 (l ++ l1) H). destruct (run os s1) as [s2 l2]. cbn in *. by rewrite app_assoc.
  - destruct (catchable e); [|done]. specialize (IH s1 (l ++ l1) H). destruct (run os s1) as [s2 l2]. cbn in *. by rewrite app_assoc.
Qed.

Lemma new_io_inv n : io_inv (socketio_new n) [].
Proof. split; [intros p x Hx; cbn in Hx; by rewrite lookup_empty in Hx | done]. Qed.

(** ** What the holders of sockets see *)


(** A run: listen, accept a peer that speaks and leaves. *)
Definition demo_accept : accept_sys := mkAcceptSys 9 (Sa4 1 2) true true 0 true true.
Definition demo_in (d : list Z + Z) : in_sys := mkInSys demo_accept HS_done true d 0.
Definition demo_out : out_sys := mkOutSys HS_done true true true 0 false.
Definition demo_ev (id : SOCKET_id) (d : list Z + Z) : epoll_event := mkEpollEvent id false true false 0 (demo_in d) demo_out.
Definition demo_route : route_t := [LOCALSERVICE 1; LOCALSERVICE 2].
Definition demo_ops : list op :=
  [Op_listen (mkListenSys true 0 5 true true true true true 0 (Sa4 1 0) true) 77 (Sa4 1 0) [] false (mkSECURE false [] []) demo_route;
   Op_worker 0 [demo_ev 77 (inl [])];
   Op_worker 0 [demo_ev 1 (inl [65])];
   Op_worker 0 [demo_ev 1 (inl [])]].


(** ** A socket closed behind the service's back

    What a handler does to the sockets it is not about: nothing is passed, and a
    closed socket stays closed. *)

Definition untouched (p : ptr) (s : SocketIO) (l : list action) (s' : SocketIO) (l' : list action) : Prop :=
  (forall x, heap s !! p = Some x -> exists x', heap s' !! p = Some x' /\ (closed (esi x) = true -> closed (esi x') = true))
  /\ forall r, events_of p r l' = events_of p r l.

(** [leaves p m]: whatever the state, [m] leaves [p] untouched. *)
Definition leaves {A} (p : ptr) (m : M SocketIO A) : Prop :=
  forall s l, p < next_ptr s -> wp m s l (fun _ s' l' => next_ptr s <= next_ptr s' /\ untouched p s l s' l').

Lemma leaves_bind {A B} p (m : M SocketIO A) (f : A -> M SocketIO B) : leaves p m -> (forall a, leaves p (f a)) -> leaves p (m ≫= f).
Proof.
  intros Hm Hf s l Hp. apply wp_bind. eapply wp_mono; [|by apply Hm].
  intros [a|e] s1 l1 [Hn [H1 H2]]; [|done]. eapply wp_mono; [|apply Hf; unfold ptr in *; lia].
  intros r s2 l2 [Hn' [H3 H4]]. split; [unfold ptr in *; lia|]. split.
  - intros x Hx. destruct (H1 x Hx) as (x1 & Hx1 & Hc1). destruct (H3 x1 Hx1) as (x2 & Hx2 & Hc2). eauto.
  - intros r'. by rewrite H4.
Qed.

Lemma untouched_refl p s l : untouched p s l s l.
Proof. split; [eauto | done]. Qed.

Lemma leaves_still {A} p (m : M SocketIO A) :
  (forall s, exists r s', m s = (r, s', []) /\ heap s' = heap s /\ next_ptr s' = next_ptr s) -> leaves p m.
Proof.
  intros H s l Hp. unfold wp. destruct (H s) as (r & s' & -> & E1 & E2). rewrite app_nil_r, E2. split; [lia|].
  split; [rewrite E1; eauto | done].
Qed.

Lemma leaves_ret {A} p (a : A) : leaves p (mret a).
Proof. apply leaves_still. intros s. by repeat eexists. Qed.
Lemma leaves_throw {A} p e : leaves p (throw (A := A) e).
Proof. apply leaves_still. intros s. by repeat eexists. Qed.
Lemma leaves_gets {A} p (f : SocketIO -> A) : leaves p (gets f).
Proof. apply leaves_still. intros s. by repeat eexists. Qed.
Lemma leaves_lift {A} p (r : res A) : leaves p (lift r).
Proof. apply leaves_still. intros s. by repeat eexists. Qed.
Lemma leaves_modify p f : (forall s, heap (f s) = heap s /\ next_ptr (f s) = next_ptr s) -> leaves p (modify f).
Proof. intros H. apply leaves_still. intros s. eexists _, _. split; [reflexivity|]. apply H. Qed.
Lemma leaves_deref p q : leaves p (deref q).
Proof. apply leaves_still. intros s. unfold deref. destruct (heap s !! q); by repeat eexists. Qed.
Lemma leaves_id p : leaves p getNewSocketId.
Proof. apply leaves_still. intros s. by repeat eexists. Qed.

(** An update is harmless elsewhere, and on [p] itself when it does not reopen. *)
Lemma leaves_update p q f :
  q <> p \/ (forall x, closed (esi x) = true -> closed (esi (f x)) = true) -> leaves p (update q f).
Proof.
  intros Hf s l Hp. unfold update. apply wp_modify. split; [done|]. split; [|done]. intros x Hx. cbn.
  destruct (decide (q = p)) as [->|Hne].
  - exists (f x). split; [by rewrite lookup_alter_eq, Hx|]. destruct Hf as [?|Hf]; [done | apply Hf].
  - exists x. by rewrite lookup_alter_ne.
Qed.

Lemma leaves_passEvent p e r : about p e = false -> leaves p (passEvent_ (mkEvent (Esocket e) r)).
Proof.
  intros He. unfold passEvent_. apply leaves_bind; [apply leaves_lift|]. intros _ s l Hp. unfold wp, emit. split; [done|].
  split; [eauto|]. intros r'. rewrite events_of_app. cbn. rewrite He. apply app_nil_r.
Qed.

Lemma leaves_pass p q e : about p e = false -> leaves p (pass q e).
Proof. intros He. unfold pass. apply leaves_bind; [apply leaves_deref|]. intros x. by apply leaves_passEvent. Qed.

Lemma leaves_new p ok x : leaves p (new_sock ok x).
Proof.
  intros s l Hp. apply wp_new_sock; [intros e; split; [done | apply untouched_refl]|]. cbn. split; [lia|]. split; [|done].
  intros y Hy. exists y. split; [|done]. refine (eq_trans (lookup_insert_ne (heap s) (next_ptr s) p x _) Hy). unfold ptr in *; lia.
Qed.

Lemma leaves_add p k q : leaves p (ms_add k q).
Proof. unfold ms_add. apply leaves_bind; [apply leaves_deref|]. intros x. by apply leaves_modify. Qed.

Lemma leaves_poller p rand : leaves p (getPoller rand).
Proof.
  unfold getPoller. apply leaves_bind; [apply leaves_gets|]. intros s0.
  destruct (negb _); [apply leaves_throw|]. destruct (_ =? 0)%nat; [apply leaves_throw | apply leaves_ret].
Qed.

Lemma not_about p q : q <> p -> (q =? p) = false.
Proof. apply Z.eqb_neq. Qed.

Ltac leave :=
  lazymatch goal with
  | |- leaves _ (mbind _ _) => apply leaves_bind; [leave | intros ?; leave]
  | |- leaves _ (mret _) => apply leaves_ret
  | |- leaves _ (throw _) => apply leaves_throw
  | |- leaves _ (gets _) => apply leaves_gets
  | |- leaves _ (lift _) => apply leaves_lift
  | |- leaves _ (deref _) => apply leaves_deref
  | |- leaves _ (modify _) => by apply leaves_modify
  | |- leaves _ (update _ _) => apply leaves_update; first [by left | right; solve [done | apply esi_quiet_ctl | intros; apply closed_close]]
  | |- leaves _ (pass _ _) => apply leaves_pass; first [done | by apply not_about]
  | |- leaves _ (if ?b then _ else _) => destruct b; leave
  | |- leaves _ (match ?b with _ => _ end) => destruct b; leave
  | |- _ => solve [auto using leaves_new, leaves_add, leaves_poller, leaves_id]
  end.

Lemma leaves_close p q reason errNo k : q <> p -> leaves p (closeSocket q reason errNo k).
Proof. intros Hq. unfold closeSocket, ms_remove. leave. Qed.

Lemma leaves_new_bind {B} p ok x (f : ptr -> M SocketIO B) :
  (forall n, n <> p -> leaves p (f n)) -> leaves p (new_sock ok x ≫= f).
Proof.
  intros Hf s l Hp. pose proof (leaves_new p ok x s l Hp) as H. apply wp_bind. revert H. unfold new_sock.
  destruct (_ && _); [by unfold wp, throw|]. unfold alloc. unfold wp at 1. intros [Hn [H1 H2]]. unfold wp at 1.
  assert (next_ptr s <> p) as Hne by (unfold ptr in *; lia).
  eapply wp_mono; [|apply (Hf _ Hne); cbn; unfold ptr in *; lia]. intros r s2 l2 [Hn' [H3 H4]]. cbn in Hn'.
  split; [unfold ptr in *; lia|]. split; [|intros r'; by rewrite H4].
  intros y Hy. destruct (H1 y Hy) as (y1 & Hy1 & Hc1). destruct (H3 y1 Hy1) as (y2 & Hy2 & Hc2). eauto.
Qed.

Lemma leaves_accepted p sys L : leaves p (handle_accepted1 sys L).
Proof.
  unfold handle_accepted1. do 4 (match goal with |- leaves _ (if ?b then _ else _) => destruct b; [leave|] end).
  apply leaves_bind; [leave|]. intros k2. apply leaves_bind; [leave|]. intros sid. apply leaves_bind; [leave|]. intros y.
  apply leaves_new_bind. intros n Hn. leave.
Qed.

Lemma leaves_in p sys k q : q <> p -> leaves p (onEPOLLIN sys k q).
Proof.
  intros Hq. unfold onEPOLLIN, onEPOLLIN_STREAM, onEPOLLIN_LISTENING.
  apply leaves_bind; [leave|]. intros x. destruct (streamType_ (esi x)); try apply leaves_accepted; [| |leave];
    (apply leaves_bind; [leave|]); intros y; (destruct (_ && _); [leave|]); (destruct (_ =? -1); [leave|]);
    (destruct (in_recv sys) as [[|c d]|e]; [by apply leaves_close | leave | leave]).
Qed.

Lemma leaves_out p sys k q : q <> p -> leaves p (onEPOLLOUT sys k q).
Proof.
  intros Hq. unfold onEPOLLOUT, onEPOLLOUT_handshake, onEPOLLOUT_connecting, ms_count, onEPOLLOUT_send.
  apply leaves_bind; [leave|]. intros d. destruct d; [leave|].
  apply leaves_bind; [leave|]. intros x. destruct (negb _); [leave|]. destruct (inConnection_ x); [leave|].
  apply leaves_bind; [leave|]. intros y. destruct (closed (esi y)); [leave|].
  destruct (send _ _ _) as [r e1]. apply leaves_bind; [leave|]. intros _. cbv zeta. apply leaves_bind; [leave|]. intros _.
  destruct (_ && _); [by apply leaves_close|]. destruct (r =? -1); [|leave].
  destruct (out_again sys); [leave | by apply leaves_close].
Qed.

Lemma leaves_listen p sys id addr descr rb sec r : leaves p (on_AddToListenTCP sys id addr descr rb sec r).
Proof.
  unfold on_AddToListenTCP, initSSL. apply leaves_bind; [leave|]. intros _. apply leaves_bind; [leave|]. intros k.
  apply leaves_bind; [leave|]. intros sc. apply leaves_bind; [leave|]. intros rt. apply leaves_new_bind. intros n Hn.
  apply leaves_bind; [leave|]. intros _.
  destruct (negb _); [apply leaves_bind; [by apply leaves_close | intros _; leave]|]. destruct (negb _); [leave|].
  destruct (negb _); [apply leaves_bind; [by apply leaves_close | intros _; leave]|]. apply leaves_bind; [leave|]. intros _.
  destruct (negb _); [apply leaves_bind; [by apply leaves_close | intros _; leave]|]. leave.
Qed.

Lemma leaves_connect p sys id addr descr sec r : leaves p (on_AddToConnectTCP sys id addr descr sec r).
Proof.
  unfold on_AddToConnectTCP, connect_context, initSSL. apply leaves_bind; [leave|]. intros k. destruct (_ =? -1); [leave|].
  apply leaves_bind; [leave|]. intros sc. apply leaves_bind; [leave|]. intros rt. apply leaves_new_bind. intros n Hn.
  apply leaves_bind; [leave|]. intros _.
  do 3 (match goal with |- leaves _ (if ?b then _ else _) => destruct b; [apply leaves_bind; [by apply leaves_close | intros _; leave]|] end).
  do 3 (apply leaves_bind; [leave|]; intros _).
  destruct (cs_connect sys); [|leave|].
  - apply leaves_bind; [apply leaves_passEvent; by apply not_about | intros _; leave].
  - apply leaves_bind; [by apply leaves_close|]. intros _.
    apply leaves_bind; [apply leaves_passEvent; by apply not_about | intros _; leave].
Qed.

(** [dead p s]: the object at [p] has no descriptor any more. *)
Definition dead (p : ptr) (s : SocketIO) : Prop :=
  p < next_ptr s /\ exists x, heap s !! p = Some x /\ closed (esi x) = true.

Definition stays_dead {A} (p : ptr) (m : M SocketIO A) : Prop :=
  forall s l, dead p s -> wp m s l (fun _ s' l' => dead p s' /\ forall r, events_of p r l' = events_of p r l).

Lemma leaves_dead {A} p (m : M SocketIO A) : leaves p m -> stays_dead p m.
Proof.
  intros H s l [Hp (x & Hx & Hc)]. eapply wp_mono; [|by apply H]. intros r s' l' [Hn [H1 H2]]. split; [|done].
  split; [unfold ptr in *; lia|]. destruct (H1 x Hx) as (x' & Hx' & Hc'). eauto.
Qed.

Lemma dead_bind {A B} p (m : M SocketIO A) (f : A -> M SocketIO B) :
  stays_dead p m -> (forall a, stays_dead p (f a)) -> stays_dead p (m ≫= f).
Proof.
  intros Hm Hf s l Hd. apply wp_bind. eapply wp_mono; [|by apply Hm]. intros [a|e] s1 l1 [Hd1 H1]; [|done].
  eapply wp_mono; [|by apply Hf]. intros r s2 l2 [Hd2 H2]. split; [done|]. intros r'. by rewrite H2.
Qed.

Lemma dead_worker_event p k ev : stays_dead p (worker_event k ev).
Proof.
  intros s l Hd. unfold worker_event. apply wp_bind. unfold ms_getOrNull. apply wp_gets.
  destruct (container k s !! ev_id ev) as [q|]; [|by apply wp_ret].
  destruct (decide (q = p)) as [->|Hq].
  - destruct Hd as [Hp (x & Hx & Hc)]. apply wp_bind. eapply wp_deref; [done|]. rewrite Hc. apply wp_ret.
    split; [|done]. split; [done|]. by exists x.
  - revert s l Hd. apply leaves_dead. unfold onEPOLLERR. apply leaves_bind; [leave|]. intros x.
    destruct (closed (esi x)); [leave|]. destruct (ev_err ev).
    + apply leaves_bind; [leave|]. intros y. destruct (negb _); [leave | by apply leaves_close].
    + apply leaves_bind.
      * destruct (ev_in ev); [by apply leaves_in | leave].
      * intros _. destruct (ev_out ev); [by apply leaves_out | leave].
Qed.

Lemma dead_worker p k evs : stays_dead p (worker_round k evs).
Proof.
  assert (stays_dead p (foreach (worker_event k) evs)) as H.
  { induction evs as [|ev evs IH]; [exact (leaves_dead p _ (leaves_ret p tt))|]. apply dead_bind; [apply dead_worker_event | done]. }
  intros s l Hd. specialize (H s l Hd). unfold worker_round, wp, try_catch in *.
  destruct (foreach (worker_event k) evs s) as [[[a|e] s1] l1]; [done|]. destruct (catchable e); [|done]. cbn. by rewrite app_nil_r.
Qed.

Lemma dead_run_op p o : stays_dead p (run_op o).
Proof.
  destruct o; cbn [run_op]; [| |apply dead_worker|..]; apply leaves_dead.
  - apply leaves_bind; [apply leaves_listen | intros _; leave].
  - apply leaves_bind; [apply leaves_connect | intros _; leave].
  - leave.
  - apply leaves_update. right. intros x. apply esi_quiet_write.
  - leave.
Qed.

Lemma dead_run p os s l : dead p s -> forall r, events_of p r (l ++ (run os s).2) = events_of p r l.
Proof.
  revert s l. induction os as [|o os IH]; intros s l Hd r; cbn [run]; [by rewrite app_nil_r|].
  pose proof (dead_run_op p o s l Hd) as H. unfold wp in H. destruct (run_op o s) as [[[a|e] s1] l1]; destruct H as [Hd1 H1].
  - specialize (IH s1 (l ++ l1) Hd1 r). destruct (run os s1) as [s2 l2]. cbn in *. by rewrite app_assoc, IH.
  - destruct (catchable e); [|apply H1]. specialize (IH s1 (l ++ l1) Hd1 r). destruct (run os s1) as [s2 l2]. cbn in *.
    by rewrite app_assoc, IH.
Qed.

Lemma run_next n os p x : heap (run os (socketio_new n)).1 !! p = Some x -> p < next_ptr (run os (socketio_new n)).1.
Proof. intros Hp. pose proof (run_inv os _ _ (new_io_inv n)) as [H _]. by apply (H p x). Qed.

(** A socket closed by its holder disappears in silence.  Oscar, RPC and HTTP
    close a broken connection with [esi->close] instead of a request to the
    socket service: from then on no event about the socket is ever passed, so
    [Disaccepted] or [Disconnected] never reaches whoever else follows it, and the
    close itself leaves the socket in the container of its poller. *)
Lemma closed_by_holder_is_silent n os os' p x :
  let s := (run os (socketio_new n)).1 in
  heap s !! p = Some x ->
  (forall k, container k (run [Op_close p] s).1 = container k s)
  /\ forall r, events_of p r (run (Op_close p :: os') s).2 = [].
Proof.
  intros s Hp. pose proof (run_next n os p x Hp) as Hn. fold s in Hn.
  assert (run_op (Op_close p) s = (Ok tt, set_heap (<[p := on_esi esi_close x]> (heap s)) s, [])) as E
    by exact (update_eq p _ s x Hp).
  split.
  - intros k. cbn [run]. rewrite E. reflexivity.
  - intros r. cbn [run]. rewrite E. set (s1 := set_heap _ s).
    assert (dead p s1) as Hd.
    { split; [exact Hn|]. eexists. split; [apply lookup_insert_eq | apply closed_close]. }
    pose proof (dead_run p os' s1 [] Hd r) as H. cbn [app] in H. destruct (run os' s1) as [s2 l2]. exact H.
Qed.

Lemma closed_by_holder_is_silent_witness :
  let s := (run (take 3 demo_ops) (socketio_new 1)).1 in
  container 0 (run [Op_close 2] s).1 !! (1 : SOCKET_id) = Some 2
  /\ events_of 2 [LOCALSERVICE 1] (run (Op_close 2 :: [Op_worker 0 [demo_ev 1 (inl [])]]) s).2 = [].
Proof.
  intros s. destruct (heap s !! (2 : ptr)) as [x|] eqn:E; [|by vm_compute in E].
  destruct (closed_by_holder_is_silent 1 (take 3 demo_ops) [Op_worker 0 [demo_ev 1 (inl [])]] 2 x E) as [H1 H2].
  split; [rewrite H1; by vm_compute | apply H2].
Defined.

(** ** Failures while connecting *)

(** A connection request whose socket options cannot be set reads an optional
    that is empty: [closeSocket] reports [*request_for_connect_], which
    [on_AddToConnectTCP] stores only after [setsockopt], [ioctl] and [SO_LINGER]
    have succeeded. *)
Lemma connect_option_failure_UB sys sid addr descr rt h s :
  length (pollers s) = n_workers_ s -> n_workers_ s <> 0%nat -> cs_fd sys <> -1 ->
  family addr <> AF_UNIX /\ cs_reuse sys = false \/ cs_ioctl sys = false \/ cs_linger sys = false ->
  (on_AddToConnectTCP sys sid addr descr (mkSECURE false [] []) (push_back rt h) s).1.1
  = Throw (UB "*request_for_connect_ of an empty optional").
Proof.
  intros Hn H0 Hfd Hopt.
  assert (wp (on_AddToConnectTCP sys sid addr descr (mkSECURE false [] []) (push_back rt h)) s []
            (fun r _ _ => r = Throw (UB "*request_for_connect_ of an empty optional"))) as H;
    [|unfold wp in H; by destruct (on_AddToConnectTCP _ _ _ _ _ _ s) as [[r s'] l']].
  unfold on_AddToConnectTCP. apply wp_bind. unfold getPoller. apply wp_bind, wp_gets. cbn [id].
  unfold id. rewrite Hn, Nat.eqb_refl. cbn [negb]. destruct (Nat.eqb_spec (n_workers_ s) 0); [done|]. apply wp_ret.
  destruct (Z.eqb_spec (cs_fd sys) (-1)) as [|Hfd']; [done|]. apply wp_bind, wp_ret. apply wp_bind, wp_lift.
  unfold poppedFrontRoute. rewrite pop_push. cbn [mbind res_bind]. apply wp_bind.
  unfold new_sock. cbn [secure_context sock_new andb]. apply wp_alloc. apply wp_bind. eapply wp_update; [apply lookup_insert_eq|].
  cbn [heap set_heap]. rewrite insert_insert_eq. match goal with |- wp _ ?st _ _ => set (s1 := st) end.
  set (x := set_inConnection true _) in s1. set (p := next_ptr s) in *.
  assert (heap s1 !! p = Some x) as Hp by apply lookup_insert_eq.
  assert (forall reason errNo k, wp (_ ← closeSocket p reason errNo k; mret true) s1 []
            (fun r _ _ => r = Throw (UB "*request_for_connect_ of an empty optional"))) as Hclose.
  { intros reason errNo k. apply wp_bind. unfold closeSocket. apply wp_bind. eapply wp_deref; [exact Hp|].
    change (closed (esi x)) with (cs_fd sys =? -1). destruct (Z.eqb_spec (cs_fd sys) (-1)); [done|].
    apply wp_bind. by apply wp_throw. }
  destruct (negb (family addr =? AF_UNIX) && negb (cs_reuse sys)) eqn:E1; [apply Hclose|].
  destruct (negb (cs_ioctl sys)) eqn:E2; [apply Hclose|]. destruct (negb (cs_linger sys)) eqn:E3; [apply Hclose|].
  exfalso. apply negb_false_iff in E2, E3. destruct Hopt as [[Hf Hr]|[?|?]]; [|congruence..].
  rewrite Hr in E1. destruct (Z.eqb_spec (family addr) AF_UNIX); done.
Qed.

Definition demo_connect (reuse : bool) : connect_sys := mkConnectSys 0 7 false true reuse true true 92 true C_in_progress 0.

Lemma connect_option_failure_UB_witness :
  (on_AddToConnectTCP (demo_connect false) 3 (Sa4 1 2) [] (mkSECURE false [] []) (push_back [LOCALSERVICE 1] (LOCALSERVICE 2))
     (socketio_new 2)).1.1 = Throw (UB "*request_for_connect_ of an empty optional").
Proof.
  apply connect_option_failure_UB; [reflexivity | done | done |]. left. split; [done | reflexivity].
Defined.

(** TLS is announced too early.  The first [EPOLLOUT] of a TLS connection runs
    the handshake, and when it needs more data the handler falls through to the
    code for plain sockets: [Connected] is passed while the handshake is not
    finished. *)
Lemma tls_connected_before_handshake sys k p s x h :
  heap s !! p = Some x -> socketType_ x = SOCK_STREAM -> secure_context x = true -> inConnection_ x = true ->
  ssl_connected x = false -> container k s !! id_ (esi x) = Some p -> m_route (esi x) = h ->
  h <> [] -> out_hs sys = HS_want_read ->
  let '(r, s', l') := onEPOLLOUT sys k p s in
  r = Ok tt /\ l' = [act h (socketEvent.Connected p)]
  /\ exists x', heap s' !! p = Some x' /\ ssl_connected x' = false /\ inConnection_ x' = false.
Proof.
  intros Hp Hst Hsec Hin Hssl Hk Hr Hne Hhs.
  assert (wp (onEPOLLOUT sys k p) s [] (fun r s' l' => r = Ok tt /\ l' = [act h (socketEvent.Connected p)]
    /\ exists x', heap s' !! p = Some x' /\ ssl_connected x' = false /\ inConnection_ x' = false)) as H;
    [|unfold wp in H; destruct (onEPOLLOUT sys k p s) as [[r s'] l']; exact H].
  unfold onEPOLLOUT, onEPOLLOUT_handshake. apply wp_bind, wp_bind. eapply wp_deref; [done|].
  rewrite Hsec, Hin, Hssl, Hhs. apply wp_ret. apply wp_bind. eapply wp_deref; [done|]. rewrite Hst, Hin. cbn [Z.eqb SOCK_STREAM Pos.eqb negb].
  unfold onEPOLLOUT_connecting. apply wp_bind. eapply wp_deref; [done|]. apply wp_bind. unfold ms_count. apply wp_gets.
  rewrite bool_decide_eq_true_2 by (by rewrite Hk). cbn [negb]. apply wp_bind. eapply wp_update; [done|]. apply wp_bind.
  assert (forall f, quiet f -> (forall y, ssl_connected (f y) = ssl_connected y) ->
    wp (pass p (socketEvent.Connected p)) (set_heap (<[p := f (set_inConnection false x)]> (heap s)) s) []
      (fun r s' l' => r = Ok tt /\ l' = [act h (socketEvent.Connected p)]
         /\ exists x', heap s' !! p = Some x' /\ ssl_connected x' = false /\ inConnection_ x' = false)) as Hgo.
  { intros f [Q1 Q2 Q3] Hf. destruct (Q1 (set_inConnection false x)) as (_ & E2 & _). cbn in E2.
    eapply wp_pass; [apply lookup_insert_eq|congruence|]. intros _. rewrite E2, Hr. split; [done|]. split; [done|].
    eexists. split; [apply lookup_insert_eq|]. by rewrite Hf, Q2. }
  destruct (length (outBuffer_ (esi x)) =? 0)%nat.
  - eapply wp_update; [apply lookup_insert_eq|]. cbn [heap set_heap]. rewrite insert_insert_eq.
    apply (Hgo (on_esi (sockStopWrite (out_stop_ctl sys)))); [apply quiet_esi, esi_quiet_ctl | done].
  - apply wp_ret. by apply (Hgo id).
Qed.

Lemma tls_connected_before_handshake_witness :
  let x := set_inConnection true (sock_new STREAMTYPE_CONNECTED 3 7 [LOCALSERVICE 1] [] 0 true) in
  let s := mkIO {[1 := x]} [{[3 := 1]}] 1 2 0 true false [] in
  let '(r, s', l') := onEPOLLOUT (mkOutSys HS_want_read true true true 0 false) 0 1 s in
  r = Ok tt /\ l' = [act [LOCALSERVICE 1] (socketEvent.Connected 1)]
  /\ exists x', heap s' !! (1 : ptr) = Some x' /\ ssl_connected x' = false /\ inConnection_ x' = false.
Proof.
  intros x s. apply (tls_connected_before_handshake (mkOutSys HS_want_read true true true 0 false) 0 1 s x [LOCALSERVICE 1]);
    by try reflexivity.
Defined.
