(* ===== verification/WebSocket.v ===== *)
(** WebSocket frames: [WebSocket_getFrame] and [WebSocket_makeFrame] of
    modules/http/httpService.cpp, and what [on_StreamRead] does with the bytes of
    a connection that was upgraded.

    The decoder gets the [data()] of a [std::string] and works on it in place.
    Reading the terminator at [size()] is allowed; reading past it, or writing at
    or past it, is undefined ([UB]).  [int] arithmetic that overflows is too. *)

From Stdlib Require Import ZArith Lia.
From stdpp Require Import base strings numbers list.
From S2P Require Import Prelude.
Open Scope Z_scope.

(** ** Frame types *)

Definition ERROR_FRAME : Z := 0xFF00.
Definition INCOMPLETE_FRAME : Z := 0xFE00.
Definition OPENING_FRAME : Z := 0x3300.
Definition CLOSING_FRAME : Z := 0x3400.
Definition INCOMPLETE_TEXT_FRAME : Z := 0x01.
Definition INCOMPLETE_BINARY_FRAME : Z := 0x02.
Definition TEXT_FRAME : Z := 0x81.
Definition BINARY_FRAME : Z := 0x82.
Definition PING_FRAME : Z := 0x19.
Definition PONG_FRAME : Z := 0x1A.

(** ** Decoding *)

(** [in_buffer[i]]. *)
Definition rd (b : list Z) (i : Z) : res Z :=
  if (0 <=? i) && (i <? Z.of_nat (length b)) then Ok (default 0 (b !! Z.to_nat i))
  else if i =? Z.of_nat (length b) then Ok 0
  else Throw (UB "read past the end of the frame").

(** [in_buffer[i] = v]. *)
Definition wr (b : list Z) (i v : Z) : res (list Z) :=
  if (0 <=? i) && (i <? Z.of_nat (length b)) then Ok (<[Z.to_nat i := v]> b)
  else Throw (UB "write past the end of the frame").

Definition int_add (a b : Z) : res Z :=
  if in_rangeb I32 (a + b) then Ok (a + b) else Throw (UB "signed overflow").

(** [k] bytes from [i] on, most significant first. *)
Fixpoint rd_be (k : nat) (acc : Z) (b : list Z) (i : Z) : res Z :=
  match k with
  | O => Ok acc
  | S k' => c ← rd b i; rd_be k' (Z.lor (Z.shiftl acc 8) c) b (i + 1)
  end.

(** The payload length and the position after it.  The 64-bit length is stored
    in an [int]. *)
Definition frame_length (b : list Z) (length_field : Z) : res (Z * Z) :=
  if length_field <=? 125 then Ok (length_field, 2)
  else if length_field =? 126 then n ← rd_be 2 0 b 2; Ok (n, 4)
  else n ← rd_be 8 0 b 2; Ok (cast I32 n, 10).

(** The loop that unmasks [n] bytes from [pos] on, in place; [mask] has four bytes. *)
Fixpoint unmask (n : nat) (i : Z) (mask : list Z) (pos : Z) (b : list Z) : res (list Z) :=
  match n with
  | O => Ok b
  | S n' =>
      c ← rd b (pos + i);
      b' ← wr b (pos + i) (Z.lxor c (default 0 (mask !! Z.to_nat (i mod 4))));
      unmask n' (i + 1) mask pos b'
  end.

(** [std::string(in_buffer + pos, n)]: a negative [n] is a huge [size_t]. *)
Fixpoint rd_bytes (n : nat) (b : list Z) (i : Z) : res (list Z) :=
  match n with
  | O => Ok []
  | S n' => c ← rd b i; l ← rd_bytes n' b (i + 1); Ok (c :: l)
  end.

Definition frame_type (opcode fin : Z) : Z :=
  if (opcode =? 0) || (opcode =? 1) then if fin =? 0 then INCOMPLETE_TEXT_FRAME else TEXT_FRAME
  else if opcode =? 2 then if fin =? 0 then INCOMPLETE_BINARY_FRAME else BINARY_FRAME
  else if opcode =? 9 then PING_FRAME
  else if opcode =? 10 then PONG_FRAME
  else ERROR_FRAME.

(** From the check of the length on: unmasking, copying, the type. *)
Definition frame_body (b : list Z) (opcode fin masked payload_length pos : Z) : res (Z * list Z * list Z) :=
  '(b, pos) ← (if masked =? 0 then Ok (b, pos)
               else
                 mask ← rd_bytes 4 b pos;
                 b' ← unmask (Z.to_nat payload_length) 0 mask (pos + 4) b;
                 Ok (b', pos + 4));
  if payload_length <? 0 then Throw (RuntimeError "basic_string::_M_create")
  else
    o ← rd_bytes (Z.to_nat payload_length) b pos;
    Ok (frame_type opcode fin, o, b).

(** The type, the bytes appended to [o] and the buffer as it is left. *)
Definition WebSocket_getFrame (b : list Z) : res (Z * list Z * list Z) :=
  let in_length := cast I32 (Z.of_nat (length b)) in
  if in_length <? 2 then Ok (INCOMPLETE_FRAME, [], b)
  else
    b0 ← rd b 0;
    b1 ← rd b 1;
    let msg_opcode := Z.land b0 0x0F in
    let msg_fin := Z.land (Z.shiftr b0 7) 0x01 in
    let msg_masked := Z.land (Z.shiftr b1 7) 0x01 in
    '(payload_length, pos) ← frame_length b (Z.land b1 0x7F);
    need ← int_add payload_length pos;
    if in_length <? need then Ok (INCOMPLETE_FRAME, [], b)
    else frame_body b msg_opcode msg_fin msg_masked payload_length pos.

(** ** Encoding *)

Definition byte_of (size k : Z) : Z := Z.land (Z.shiftr size (8 * k)) 0xFF.

(** [msg_length] is an [int]; the buffer is always large enough. *)
Definition WebSocket_makeFrame (ftype : Z) (msg : list Z) : list Z :=
  let size := Z.of_nat (length msg) in
  [cast U8 ftype]
    ++ (if size <=? 125 then [size]
        else if size <=? 65535 then [126; byte_of size 1; byte_of size 0]
        else [127; 0; 0; 0; 0; byte_of size 3; byte_of size 2; byte_of size 1; byte_of size 0])
    ++ msg.

(** ** The upgraded connection *)

(** [on_StreamRead]: the new bytes are added to [websocket_buffer], one frame is
    decoded, and its payload is passed as [WSTextMessage] unless the frame is an
    error.  Only a text frame empties the buffer, and it empties all of it. *)
Definition ws_StreamRead (websocket_buffer data : list Z) : res (list Z * option (list Z)) :=
  '(ft, o, b) ← WebSocket_getFrame (websocket_buffer ++ data);
  if ft =? ERROR_FRAME then Ok (b, None)
  else if ft =? TEXT_FRAME then Ok ([], Some o)
  else Ok (b, Some o).

(** ** What a client sends (RFC 6455, section 5.2) *)

(** The second byte and the extended length of a payload of [n] bytes. *)
Definition ws_length (masked : bool) (n : Z) : list Z :=
  let m := if masked then 128 else 0 in
  if n <=? 125 then [n + m]
  else if n <=? 65535 then [126 + m; n / 256; n mod 256]
  else [127 + m; 0; 0; 0; 0; n / 2 ^ 24; (n / 2 ^ 16) mod 256; (n / 2 ^ 8) mod 256; n mod 256].

Definition ws_mask (mask msg : list Z) : list Z :=
  imap (fun i c => Z.lxor c (default 0 (mask !! (i mod 4)%nat))) msg.

(** A final text frame from a client. *)
Definition client_frame (mask msg : list Z) : list Z :=
  [0x81] ++ ws_length true (Z.of_nat (length msg)) ++ mask ++ ws_mask mask msg.

(** ** Reading a frame *)

(** [lia] with division by constants. *)
Ltac Zify.zify_post_hook ::= Z.div_mod_to_equations.

Lemma rd_at b i c : b !! i = Some c -> rd b (Z.of_nat i) = Ok c.
Proof.
  intros H. pose proof (lookup_lt_Some _ _ _ H) as Hl. unfold rd.
  destruct (Z.leb_spec 0 (Z.of_nat i)), (Z.ltb_spec (Z.of_nat i) (Z.of_nat (length b))); try lia. cbn [andb].
  by rewrite Nat2Z.id, H.
Qed.

Lemma rd_mid pre c post : rd (pre ++ c :: post) (Z.of_nat (length pre)) = Ok c.
Proof. apply rd_at. by apply list_lookup_middle. Qed.

Lemma wr_mid pre c d post : wr (pre ++ c :: post) (Z.of_nat (length pre)) d = Ok (pre ++ d :: post).
Proof.
  unfold wr. rewrite length_app. cbn [length].
  destruct (Z.leb_spec 0 (Z.of_nat (length pre))), (Z.ltb_spec (Z.of_nat (length pre)) (Z.of_nat (length pre + S (length post)))); try lia.
  cbn [andb]. rewrite Nat2Z.id, insert_app_r_alt, Nat.sub_diag by lia. done.
Qed.

Lemma rd_bytes_mid m pre post : rd_bytes (length m) (pre ++ m ++ post) (Z.of_nat (length pre)) = Ok m.
Proof.
  revert pre. induction m as [|c m IH]; intros pre; [done|]. cbn [length rd_bytes app].
  rewrite rd_mid, res_bind_ok. specialize (IH (pre ++ [c])). rewrite length_app in IH. cbn [length] in IH.
  rewrite <- app_assoc in IH. cbn [app] in IH.
  replace (Z.of_nat (length pre) + 1) with (Z.of_nat (length pre + 1)) by lia. by rewrite IH.
Qed.

Lemma to_nat_mod4 k : Z.to_nat (Z.of_nat k mod 4) = (k mod 4)%nat.
Proof. rewrite Z2Nat.inj_mod by lia. by rewrite Nat2Z.id. Qed.

(** The in-place loop, with the bytes already done in [d]. *)
Lemma unmask_mid mask m d pre post :
  unmask (length m) (Z.of_nat (length d)) mask (Z.of_nat (length pre)) (pre ++ d ++ m ++ post)
  = Ok (pre ++ d ++ imap (fun i c => Z.lxor c (default 0 (mask !! ((length d + i) mod 4)%nat))) m ++ post).
Proof.
  revert d. induction m as [|c m IH]; intros d; [done|]. cbn [length unmask].
  replace (Z.of_nat (length pre) + Z.of_nat (length d)) with (Z.of_nat (length (pre ++ d))) by (rewrite length_app; lia).
  rewrite app_assoc. cbn [app]. rewrite rd_mid, res_bind_ok, wr_mid, res_bind_ok.
  set (c' := Z.lxor c _). specialize (IH (d ++ [c'])). rewrite length_app in IH. cbn [length] in IH.
  replace (Z.of_nat (length d) + 1) with (Z.of_nat (length d + 1)) by lia.
  replace ((pre ++ d) ++ c' :: m ++ post) with (pre ++ (d ++ [c']) ++ m ++ post) by (by rewrite <- !app_assoc).
  rewrite IH. rewrite imap_cons. rewrite <- !app_assoc. cbn [app]. do 4 f_equal.
  - unfold c'. by rewrite Nat.add_0_r, to_nat_mod4.
  - f_equal. apply imap_ext. intros i x Hi. cbn. by replace (length d + S i)%nat with (length d + 1 + i)%nat by lia.
Qed.

Lemma mask_twice mask m : ws_mask mask (ws_mask mask m) = m.
Proof.
  apply list_eq. intros i. unfold ws_mask. rewrite !list_lookup_imap. destruct (m !! i) as [c|]; [|done].
  cbn. by rewrite Z.lxor_assoc, Z.lxor_nilpotent, Z.lxor_0_r.
Qed.

Lemma length_mask mask m : length (ws_mask mask m) = length m.
Proof. apply length_imap. Qed.

(** *** The header *)

Lemma rd_be_at k acc b i l :
  length l = k -> take k (drop i b) = l ->
  rd_be k acc b (Z.of_nat i) = Ok (fold_left (fun a c => Z.lor (Z.shiftl a 8) c) l acc).
Proof.
  revert acc i l. induction k as [|k IH]; intros acc i l Hl Ht; [by destruct l|].
  destruct l as [|c l]; [done|]. cbn [rd_be fold_left].
  assert (b !! i = Some c) as Hc.
  { rewrite <- (Nat.add_0_r i), <- lookup_drop, <- (lookup_take_lt _ (S k)) by lia. by rewrite Ht. }
  rewrite (rd_at b i c Hc), res_bind_ok. replace (Z.of_nat i + 1) with (Z.of_nat (S i)) by lia.
  apply IH; [by injection Hl|]. rewrite (drop_S b c i Hc) in Ht. cbn in Ht. by injection Ht.
Qed.

Lemma be_step a c : 0 <= c < 256 -> Z.lor (Z.shiftl a 8) c = a * 256 + c.
Proof. intros H. by rewrite lor_shiftl_add. Qed.

Definition frame_max : Z := 2 ^ 31 - 16.

Lemma land_mask_bit n (m : bool) : 0 <= n < 128 -> Z.land (n + (if m then 128 else 0)) 0x7F = n.
Proof. intros H. rewrite land_127. destruct m; [|rewrite Z.add_0_r, Z.mod_small; lia].
  replace (n + 128) with (n + 1 * 128) by lia. rewrite Z.mod_add, Z.mod_small; lia.
Qed.

Lemma masked_bit n (m : bool) : 0 <= n < 128 -> Z.land (Z.shiftr (n + (if m then 128 else 0)) 7) 0x01 = if m then 1 else 0.
Proof.
  intros H. change 1 with (Z.ones 1) at 1. rewrite Z.land_ones, Z.shiftr_div_pow2 by lia. change (2 ^ 7) with 128. change (2 ^ 1) with 2.
  destruct m.
  - replace (n + 128) with (1 * 128 + n) by lia. rewrite Z.div_add_l, (Z.div_small n) by lia. reflexivity.
  - rewrite Z.add_0_r, Z.div_small by lia. reflexivity.
Qed.

(** The three forms of a length are read back. *)
Lemma frame_length_spec b0 m n rest :
  0 <= n < 2 ^ 31 ->
  let b := b0 :: ws_length m n ++ rest in
  exists b1, b !! 1%nat = Some b1 /\ Z.land (Z.shiftr b1 7) 0x01 = (if m then 1 else 0)
    /\ frame_length b (Z.land b1 0x7F) = Ok (n, 1 + Z.of_nat (length (ws_length m n))).
Proof.
  intros Hn b. unfold b, ws_length. set (mm := if m then 128 else 0).
  destruct (Z.leb_spec n 125); [|destruct (Z.leb_spec n 65535)].
  - exists (n + mm). split; [done|]. unfold mm. rewrite masked_bit, land_mask_bit by lia. split; [done|].
    unfold frame_length. destruct (Z.leb_spec n 125); [done|lia].
  - exists (126 + mm). split; [done|]. unfold mm. rewrite masked_bit, land_mask_bit by lia. split; [done|].
    unfold frame_length. cbn [Z.leb Z.compare Pos.compare Pos.compare_cont Z.eqb Pos.eqb].
    rewrite (rd_be_at 2 0 _ 2 [n / 256; n mod 256]) by done. cbn [fold_left]. rewrite res_bind_ok, !be_step by lia.
    do 2 f_equal. lia.
  - exists (127 + mm). split; [done|]. unfold mm. rewrite masked_bit, land_mask_bit by lia. split; [done|].
    unfold frame_length. cbn [Z.leb Z.compare Pos.compare Pos.compare_cont Z.eqb Pos.eqb].
    rewrite (rd_be_at 8 0 _ 2 [0; 0; 0; 0; n / 2 ^ 24; (n / 2 ^ 16) mod 256; (n / 2 ^ 8) mod 256; n mod 256]) by done.
    cbn [fold_left]. rewrite res_bind_ok, !be_step by lia.
    do 2 f_equal. rewrite cast_id by (unfold in_range; cbn; lia). lia.
Qed.

Lemma length_ws_length m n : (1 <= length (ws_length m n) <= 9)%nat.
Proof. unfold ws_length. destruct (n <=? 125), (n <=? 65535); cbn; lia. Qed.

Lemma getFrame_header b0 m n rest :
  0 <= n < frame_max -> Z.of_nat (length (b0 :: ws_length m n ++ rest)) < 2 ^ 31 ->
  let b := b0 :: ws_length m n ++ rest in
  WebSocket_getFrame b
  = if Z.of_nat (length rest) <? n then Ok (INCOMPLETE_FRAME, [], b)
    else frame_body b (Z.land b0 0x0F) (Z.land (Z.shiftr b0 7) 0x01) (if m then 1 else 0) n
           (1 + Z.of_nat (length (ws_length m n))).
Proof.
  intros Hn Hb b. unfold frame_max in Hn. pose proof (length_ws_length m n) as Hl.
  destruct (frame_length_spec b0 m n rest) as (b1 & Hb1 & Hm & Hf); [lia|]. fold b in Hb, Hb1, Hf.
  assert (Z.of_nat (length b) = 1 + Z.of_nat (length (ws_length m n)) + Z.of_nat (length rest)) as El
    by (unfold b; cbn [length]; rewrite length_app; lia).
  unfold WebSocket_getFrame. rewrite (cast_id I32) by (change (- 2 ^ 31 <= Z.of_nat (length b) < 2 ^ 31); lia).
  destruct (Z.ltb_spec (Z.of_nat (length b)) 2); [lia|].
  change (rd b 0) with (rd b (Z.of_nat 0)). rewrite (rd_at b 0 b0), res_bind_ok by done.
  change (rd b 1) with (rd b (Z.of_nat 1)). rewrite (rd_at b 1 b1), res_bind_ok by done. cbv zeta.
  rewrite Hf, res_bind_ok, Hm. unfold int_add. set (p := 1 + Z.of_nat (length (ws_length m n))) in *.
  assert (in_rangeb I32 (n + p) = true) as ->.
  { change ((- 2 ^ 31 <=? n + p) && (n + p <? 2 ^ 31) = true). lia. }
  rewrite res_bind_ok.
  destruct (Z.ltb_spec (Z.of_nat (length b)) (n + p)), (Z.ltb_spec (Z.of_nat (length rest)) n); done || lia.
Qed.

Lemma body_masked b0 h mask msg extra opcode fin :
  length mask = 4%nat -> (length h <= 9)%nat ->
  frame_body (b0 :: h ++ mask ++ ws_mask mask msg ++ extra) opcode fin 1 (Z.of_nat (length msg)) (1 + Z.of_nat (length h))
  = Ok (frame_type opcode fin, msg, b0 :: h ++ mask ++ msg ++ extra).
Proof.
  intros Hm Hh. unfold frame_body. cbn [Z.eqb].
  replace (1 + Z.of_nat (length h)) with (Z.of_nat (length (b0 :: h))) by (cbn; lia).
  pose proof (rd_bytes_mid mask (b0 :: h) (ws_mask mask msg ++ extra)) as E1. rewrite Hm in E1. cbn [app] in E1.
  rewrite E1, res_bind_ok, Nat2Z.id.
  pose proof (unmask_mid mask (ws_mask mask msg) [] (b0 :: h ++ mask) extra) as E2.
  rewrite length_mask in E2. cbn [length Z.of_nat app Nat.add] in E2. rewrite length_app, Hm, <- app_assoc in E2.
  replace (Z.of_nat (length (b0 :: h)) + 4) with (Z.of_nat (S (length h + 4))) by (cbn [length]; lia).
  change (imap _ (ws_mask mask msg)) with (ws_mask mask (ws_mask mask msg)) in E2. rewrite mask_twice, <- app_assoc in E2.
  change (Z.of_nat 0) with 0 in E2. rewrite E2, !res_bind_ok. destruct (Z.ltb_spec (Z.of_nat (length msg)) 0); [lia|].
  pose proof (rd_bytes_mid msg (b0 :: h ++ mask) extra) as E3. cbn [app length] in E3. rewrite length_app, Hm, <- app_assoc in E3.
  by rewrite E3, res_bind_ok.
Qed.

Lemma body_plain b0 h msg extra opcode fin :
  frame_body (b0 :: h ++ msg ++ extra) opcode fin 0 (Z.of_nat (length msg)) (1 + Z.of_nat (length h))
  = Ok (frame_type opcode fin, msg, b0 :: h ++ msg ++ extra).
Proof.
  unfold frame_body. cbn [Z.eqb]. rewrite res_bind_ok, Nat2Z.id. destruct (Z.ltb_spec (Z.of_nat (length msg)) 0); [lia|].
  replace (1 + Z.of_nat (length h)) with (Z.of_nat (length (b0 :: h))) by (cbn; lia).
  pose proof (rd_bytes_mid msg (b0 :: h) extra) as E. cbn [app] in E. by rewrite E.
Qed.

Lemma makeFrame_length ft msg :
  Z.of_nat (length msg) < frame_max ->
  WebSocket_makeFrame ft msg = cast U8 ft :: ws_length false (Z.of_nat (length msg)) ++ msg.
Proof.
  unfold frame_max, WebSocket_makeFrame, ws_length. intros Hn. set (n := Z.of_nat (length msg)) in *.
  assert (forall k, 0 <= k -> byte_of n k = (n / 2 ^ (8 * k)) mod 256) as Eb.
  { intros k Hk. unfold byte_of. rewrite land_255, Z.shiftr_div_pow2 by lia. done. }
  assert (0 <= n) by (unfold n; lia). change (2 ^ 31 - 16) with 2147483632 in Hn.
  destruct (Z.leb_spec n 125); [by rewrite Z.add_0_r|]. destruct (Z.leb_spec n 65535).
  - rewrite !Eb by lia. cbn [app]. change (2 ^ (8 * 1)) with 256. change (2 ^ (8 * 0)) with 1.
    rewrite Z.div_1_r, (Z.mod_small (n / 256)) by lia. done.
  - rewrite !Eb by lia. cbn [app]. change (2 ^ (8 * 3)) with (2 ^ 24). change (2 ^ (8 * 2)) with (2 ^ 16).
    change (2 ^ (8 * 1)) with (2 ^ 8). change (2 ^ (8 * 0)) with 1. rewrite Z.div_1_r.
    change (2 ^ 24) with 16777216. rewrite (Z.mod_small (n / 16777216)) by lia. done.
Qed.

(** ** Properties *)

(** A frame read back, masked and not. *)
Lemma frame_roundtrip (mask msg : list Z) :
  length mask = 4%nat -> Z.of_nat (length msg) < frame_max - 16 ->
  (exists b, WebSocket_getFrame (client_frame mask msg) = Ok (TEXT_FRAME, msg, b))
  /\ (exists b, WebSocket_getFrame (WebSocket_makeFrame TEXT_FRAME msg) = Ok (TEXT_FRAME, msg, b)).
Proof.
  intros Hm Hn. unfold frame_max in Hn. pose proof (length_ws_length true (Z.of_nat (length msg))).
  pose proof (length_ws_length false (Z.of_nat (length msg))). split.
  - unfold client_frame. cbn [app]. rewrite getFrame_header by (unfold frame_max; cbn [length]; rewrite ?length_app, ?length_mask; lia).
    rewrite length_app, length_mask. destruct (Z.ltb_spec (Z.of_nat (length mask + length msg)) (Z.of_nat (length msg))); [lia|].
    eexists. rewrite <- (app_nil_r (ws_mask mask msg)). rewrite body_masked by (done || lia). reflexivity.
  - rewrite makeFrame_length by (unfold frame_max; lia).
    rewrite getFrame_header by (unfold frame_max; cbn [length]; rewrite ?length_app; lia).
    destruct (Z.ltb_spec (Z.of_nat (length msg)) (Z.of_nat (length msg))); [lia|].
    eexists. rewrite <- (app_nil_r msg) at 2. rewrite body_plain. reflexivity.
Qed.

(** C32: WebSocket frames round trip, for messages whose length takes one, three or
    nine bytes: a masked text frame of a client is decoded to its message with the
    mask removed, and what [WebSocket_makeFrame] builds is decoded to the same
    message. *)
Theorem ws_frame_roundtrip (mask msg : list Z) :
  length mask = 4%nat -> Z.of_nat (length msg) < frame_max - 16 ->
  (exists b, WebSocket_getFrame (client_frame mask msg) = Ok (TEXT_FRAME, msg, b))
  /\ (exists b, WebSocket_getFrame (WebSocket_makeFrame TEXT_FRAME msg) = Ok (TEXT_FRAME, msg, b)).
Proof. apply frame_roundtrip. Qed.

Lemma ws_frame_roundtrip_witness :
  (exists b, WebSocket_getFrame (client_frame [1; 2; 3; 4] (repeat 7 200)) = Ok (TEXT_FRAME, repeat 7 200, b))
  /\ (exists b, WebSocket_getFrame (WebSocket_makeFrame TEXT_FRAME (repeat 7 200)) = Ok (TEXT_FRAME, repeat 7 200, b)).
Proof. apply ws_frame_roundtrip; [reflexivity | vm_compute; reflexivity]. Defined.

(** The loop runs off the end of the buffer. *)
Lemma unmask_short n mask i pos b :
  0 <= pos -> 0 <= i -> pos + i <= Z.of_nat (length b) -> Z.of_nat (length b) < pos + i + Z.of_nat n ->
  exists w, unmask n i mask pos b = Throw (UB w).
Proof.
  revert i b. induction n as [|n IH]; intros i b Hp Hi Hlo Hhi; [lia|]. cbn [unmask].
  destruct (decide (pos + i < Z.of_nat (length b))) as [Hlt|Hge].
  - unfold rd, wr. destruct (Z.leb_spec 0 (pos + i)), (Z.ltb_spec (pos + i) (Z.of_nat (length b))); try lia. cbn [andb].
    rewrite !res_bind_ok. apply IH; rewrite ?length_insert; lia.
  - unfold rd, wr. destruct (Z.leb_spec 0 (pos + i)), (Z.ltb_spec (pos + i) (Z.of_nat (length b))); try lia. cbn [andb].
    destruct (Z.eqb_spec (pos + i) (Z.of_nat (length b))); [|lia]. by eexists.
Qed.

(** C37: A client frame that has not arrived completely is decoded past the end of
    the buffer.  The check for an incomplete frame does not count the four bytes
    of the mask: when one to four bytes of a masked frame are still missing, the
    frame is taken for complete, and the loop that unmasks it in place reads and
    writes behind the buffer. *)
Theorem ws_partial_frame_UB (mask msg : list Z) (missing : nat) :
  length mask = 4%nat -> (1 <= missing <= 4)%nat -> (4 <= length msg)%nat -> Z.of_nat (length msg) < frame_max - 16 ->
  let f := client_frame mask msg in
  exists w, WebSocket_getFrame (take (length f - missing) f) = Throw (UB w).
Proof.
  intros Hm Hk Hlen Hn f. unfold frame_max in Hn. set (n := Z.of_nat (length msg)) in *.
  pose proof (length_ws_length true n) as Hh. set (h := ws_length true n) in *.
  assert (f = (0x81 :: h ++ mask) ++ ws_mask mask msg) as Ef by (unfold f, client_frame; cbn; by rewrite <- app_assoc).
  set (m' := take (length msg - missing) (ws_mask mask msg)).
  assert (take (length f - missing) f = 0x81 :: h ++ mask ++ m') as ->.
  { rewrite Ef, length_app, length_mask, take_app. cbn [length]. rewrite length_app, Hm.
    rewrite take_ge by (cbn [length]; rewrite length_app, Hm; lia). cbn [app]. rewrite <- app_assoc. unfold m'. do 3 f_equal. f_equal. lia. }
  assert (length m' = length msg - missing)%nat as Hm' by (unfold m'; rewrite length_take, length_mask; lia).
  unfold h. rewrite getFrame_header; fold h; [|unfold frame_max; lia|cbn [length]; rewrite !length_app; lia].
  rewrite length_app, Hm, Hm'. destruct (Z.ltb_spec (Z.of_nat (4 + (length msg - missing))) n); [lia|].
  unfold frame_body. cbn [Z.eqb].
  pose proof (rd_bytes_mid mask (0x81 :: h) m') as E1. rewrite Hm in E1. cbn [app] in E1.
  replace (1 + Z.of_nat (length h)) with (Z.of_nat (length (0x81 :: h))) by (cbn; lia). rewrite E1, res_bind_ok.
  destruct (unmask_short (Z.to_nat n) mask 0 (Z.of_nat (length (0x81 :: h)) + 4) (0x81 :: h ++ mask ++ m')) as [w ->];
    [lia|lia| | |by eexists]; cbn [length]; rewrite !length_app, Hm, Hm'; lia.
Qed.

Lemma ws_partial_frame_UB_witness :
  let f := client_frame [1; 2; 3; 4] (lit "hello") in
  exists w, WebSocket_getFrame (take (length f - 1) f) = Throw (UB w).
Proof. intros f. apply (ws_partial_frame_UB [1; 2; 3; 4] (lit "hello") 1); [reflexivity | lia | cbn; lia | vm_compute; reflexivity]. Defined.

(** Frames that arrive together are lost but for the first.  After a text frame
    the whole buffer is emptied, whatever follows the frame in it. *)
Lemma ws_pipelined_frame_lost (mask msg rest : list Z) :
  length mask = 4%nat -> Z.of_nat (length msg) + Z.of_nat (length rest) < frame_max - 16 ->
  ws_StreamRead [] (client_frame mask msg ++ rest) = Ok ([], Some msg).
Proof.
  intros Hm Hn. unfold frame_max in Hn. unfold ws_StreamRead. cbn [app]. unfold client_frame.
  pose proof (length_ws_length true (Z.of_nat (length msg))).
  replace (([129] ++ ws_length true (Z.of_nat (length msg)) ++ mask ++ ws_mask mask msg) ++ rest)
    with (129 :: ws_length true (Z.of_nat (length msg)) ++ mask ++ ws_mask mask msg ++ rest) by (cbn; by rewrite <- !app_assoc).
  rewrite getFrame_header by (unfold frame_max; cbn [length]; rewrite ?length_app, ?length_mask; lia).
  rewrite !length_app, length_mask.
  destruct (Z.ltb_spec (Z.of_nat (length mask + (length msg + length rest))) (Z.of_nat (length msg))); [lia|].
  rewrite body_masked by (done || lia). reflexivity.
Qed.

Lemma ws_pipelined_frame_lost_witness :
  ws_StreamRead [] (client_frame [1; 2; 3; 4] (lit "one") ++ client_frame [5; 6; 7; 8] (lit "two")) = Ok ([], Some (lit "one")).
Proof. apply ws_pipelined_frame_lost; [reflexivity | vm_compute; reflexivity]. Defined.
