(* ===== verification/Sha1.v ===== *)
(** The digest of the WebSocket handshake: modules/http/sha1_1.hpp,
    modules/http/base64.hpp and [calc_key_answer] of modules/http/httpService.cpp,
    against SHA-1 as FIPS 180-4 defines it and against [CUtils::Base64Encode].

    The round buffer [w] is the list of the words written so far: the source
    rewrites every word above the fifteenth before it reads it. *)

From Stdlib Require Import ZArith Lia.
From stdpp Require Import base strings numbers list.
From S2P Require Import Prelude Text.
Open Scope Z_scope.

(** [lia] with division by constants. *)
Ltac Zify.zify_post_hook ::= Z.div_mod_to_equations.

Definition u32 (z : Z) : Z := wrapu 32 z.

(** ** The implementation *)

Definition rol (value steps : Z) : Z := Z.lor (u32 (Z.shiftl value steps)) (Z.shiftr value (32 - steps)).

Definition not32 (b : Z) : Z := Z.land (Z.lnot b) 0xFFFFFFFF.

Definition word5 : Type := Z * Z * Z * Z * Z.

(** [sha1macro]. *)
Definition sha1macro (func val wr : Z) (r : word5) : word5 :=
  let '(a, b, c, d, e) := r in
  let t := u32 (rol a 5 + func + e + val + wr) in
  (t, a, rol b 30, c, d).

(** [w[round] = rol(w[round - 3] ^ w[round - 8] ^ w[round - 14] ^ w[round - 16], 1)]. *)
Definition w_at (w : list Z) (i : nat) : Z := default 0 (w !! i).
Definition w_next (w : list Z) (round : nat) : Z :=
  rol (Z.lxor (Z.lxor (Z.lxor (w_at w (round - 3)) (w_at w (round - 8))) (w_at w (round - 14))) (w_at w (round - 16))) 1.

(** One round of the loops of [innerHash]: the word, then the macro. *)
Definition inner_round (round : nat) (w : list Z) (r : word5) : list Z * word5 :=
  let w := if (round <? 16)%nat then w else w ++ [w_next w round] in
  let '(a, b, c, d, e) := r in
  let wr := w_at w round in
  (w,
   if (round <? 20)%nat then sha1macro (Z.lor (Z.land b c) (Z.land (not32 b) d)) 0x5a827999 wr r
   else if (round <? 40)%nat then sha1macro (Z.lxor (Z.lxor b c) d) 0x6ed9eba1 wr r
   else if (round <? 60)%nat then sha1macro (Z.lor (Z.lor (Z.land b c) (Z.land b d)) (Z.land c d)) 0x8f1bbcdc wr r
   else sha1macro (Z.lxor (Z.lxor b c) d) 0xca62c1d6 wr r).

Fixpoint inner_rounds (n round : nat) (w : list Z) (r : word5) : word5 :=
  match n with
  | O => r
  | S n' => let '(w', r') := inner_round round w r in inner_rounds n' (S round) w' r'
  end.

Definition add5 (x y : word5) : word5 :=
  let '(a, b, c, d, e) := x in let '(a', b', c', d', e') := y in
  (u32 (a + a'), u32 (b + b'), u32 (c + c'), u32 (d + d'), u32 (e + e')).

Definition innerHash (result : word5) (w : list Z) : word5 := add5 result (inner_rounds 80 0 w result).

(** Four bytes of [sarray] at [i], and the sixteen words of a block. *)
Definition load_word (s : list Z) (i : nat) : Z :=
  let b k := default 0 (s !! (i + k)%nat) in
  Z.lor (Z.lor (Z.lor (b 3%nat) (Z.shiftl (b 2%nat) 8)) (Z.shiftl (b 1%nat) 16)) (Z.shiftl (b 0%nat) 24).
Definition load_block (s : list Z) : list Z := (fun j => load_word s (4 * j)) <$> seq 0 16.

(** [while (currentBlock <= endOfFullBlocks)]: the state and the bytes left. *)
Fixpoint full_blocks (fuel : nat) (result : word5) (s : list Z) : word5 * list Z :=
  match fuel with
  | O => (result, s)
  | S f => if (64 <=? length s)%nat then full_blocks f (innerHash result (load_block s)) (drop 64 s) else (result, s)
  end.

(** [w[i >> 2] |= c << ((3 - (i & 3)) << 3)]. *)
Definition or_byte (w : list Z) (i : nat) (c : Z) : list Z :=
  alter (fun x => Z.lor x (Z.shiftl c (8 * Z.of_nat (3 - i mod 4)))) (i / 4)%nat w.

Fixpoint or_bytes (w : list Z) (i : nat) (s : list Z) : list Z :=
  match s with [] => w | c :: s' => or_bytes (or_byte w i c) (S i) s' end.

Definition sha1_init : word5 := (0x67452301, 0xefcdab89, 0x98badcfe, 0x10325476, 0xc3d2e1f0).

(** [hash[i] = result[i >> 2] >> (((3 - i) & 3) << 3)]. *)
Definition word_bytes (x : Z) : list Z :=
  [Z.land (Z.shiftr x 24) 0xff; Z.land (Z.shiftr x 16) 0xff; Z.land (Z.shiftr x 8) 0xff; Z.land x 0xff].
Definition store5 (r : word5) : list Z :=
  let '(a, b, c, d, e) := r in mjoin (word_bytes <$> [a; b; c; d; e]).

Definition sha1_calc (src : list Z) : list Z :=
  let bytelength := length src in
  let '(result, rest) := full_blocks (length src) sha1_init src in
  let w := or_byte (or_bytes (replicate 16 0) 0 rest) (length rest) 0x80 in
  let '(result, w) := if (56 <=? length rest)%nat then (innerHash result w, replicate 16 0) else (result, w) in
  let w := <[15%nat := u32 (Z.shiftl (Z.of_nat bytelength) 3)]> w in
  store5 (innerHash result w).

(** ** SHA-1 (FIPS 180-4, sections 4.1.1, 5.1.1 and 6.1.2) *)

Definition ROTL (n x : Z) : Z := Z.lor (u32 (Z.shiftl x n)) (Z.shiftr x (32 - n)).
Definition Ch (x y z : Z) : Z := Z.lxor (Z.land x y) (Z.land (Z.lxor x 0xFFFFFFFF) z).
Definition Parity (x y z : Z) : Z := Z.lxor (Z.lxor x y) z.
Definition Maj (x y z : Z) : Z := Z.lxor (Z.lxor (Z.land x y) (Z.land x z)) (Z.land y z).
Definition ft (t : nat) : Z -> Z -> Z -> Z :=
  if (t <=? 19)%nat then Ch else if (t <=? 39)%nat then Parity else if (t <=? 59)%nat then Maj else Parity.
Definition Kt (t : nat) : Z :=
  if (t <=? 19)%nat then 0x5a827999 else if (t <=? 39)%nat then 0x6ed9eba1 else if (t <=? 59)%nat then 0x8f1bbcdc else 0xca62c1d6.

(** The message schedule: sixteen words extended to eighty. *)
Fixpoint schedule (n : nat) (W : list Z) : list Z :=
  match n with
  | O => W
  | S n' =>
      let t := length W in
      schedule n' (W ++ [ROTL 1 (Z.lxor (Z.lxor (Z.lxor (w_at W (t - 3)) (w_at W (t - 8))) (w_at W (t - 14))) (w_at W (t - 16)))])
  end.

Definition sha1_step (W : list Z) (r : word5) (t : nat) : word5 :=
  let '(a, b, c, d, e) := r in
  (u32 (ROTL 5 a + ft t b c d + e + Kt t + w_at W t), a, ROTL 30 b, c, d).

Definition compress (H : word5) (M : list Z) : word5 :=
  add5 H (fold_left (sha1_step (schedule 64 M)) (seq 0 80) H).

(** A block of 64 bytes as big-endian words. *)
Definition be_word (s : list Z) (j : nat) : Z :=
  let b k := default 0 (s !! (4 * j + k)%nat) in b 0%nat * 2 ^ 24 + b 1%nat * 2 ^ 16 + b 2%nat * 2 ^ 8 + b 3%nat.
Definition be_words (s : list Z) : list Z := be_word s <$> seq 0 16.

Fixpoint sha1_blocks (n : nat) (H : word5) (s : list Z) : word5 :=
  match n with O => H | S n' => sha1_blocks n' (compress H (be_words (take 64 s))) (drop 64 s) end.

(** Padding to a multiple of 64 bytes with the length in bits. *)
Definition be64 (n : Z) : list Z := (fun k => (n / 2 ^ (8 * (7 - Z.of_nat k))) mod 256) <$> seq 0 8.
Definition sha1_pad (m : list Z) : list Z :=
  m ++ [0x80] ++ repeat 0 ((119 - length m mod 64) mod 64) ++ be64 (8 * Z.of_nat (length m)).

Definition SHA1 (m : list Z) : list Z :=
  let p := sha1_pad m in store5 (sha1_blocks (length p / 64) sha1_init p).

(** ** Equal words *)

Definition is32 (x : Z) : Prop := 0 <= x < 2 ^ 32.
Definition in5 (r : word5) : Prop := let '(a, b, c, d, e) := r in is32 a /\ is32 b /\ is32 c /\ is32 d /\ is32 e.

Lemma u32_range z : is32 (u32 z).
Proof. apply wrapu_range. lia. Qed.

Lemma lor_range a b : is32 a -> is32 b -> is32 (Z.lor a b).
Proof.
  unfold is32. intros Ha Hb. assert (Z.lor a b = Z.lor a b mod 2 ^ 32) as ->; [|by apply Z.mod_pos_bound].
  apply Z.bits_inj'. intros n Hn. destruct (Z.lt_ge_cases n 32).
  - by rewrite Z.mod_pow2_bits_low.
  - rewrite Z.mod_pow2_bits_high, Z.lor_spec, (testbit_small a 32), (testbit_small b 32) by lia. done.
Qed.

Lemma rol_range v s : is32 v -> 0 <= s <= 32 -> is32 (rol v s).
Proof.
  intros Hv Hs. apply lor_range; [apply u32_range|]. unfold is32 in *. rewrite Z.shiftr_div_pow2 by lia. split.
  - apply Z.div_pos; [lia|]. apply Z.pow_pos_nonneg; lia.
  - apply Z.le_lt_trans with v; [|lia]. apply Z.div_le_upper_bound; [apply Z.pow_pos_nonneg; lia|].
    assert (0 < 2 ^ (32 - s)) by (apply Z.pow_pos_nonneg; lia). nia.
Qed.

Lemma choose_eq b c d : is32 d -> Z.lor (Z.land b c) (Z.land (not32 b) d) = Ch b c d.
Proof.
  unfold is32. intros Hd. unfold Ch, not32. apply Z.bits_inj'. intros n Hn.
  rewrite Z.lor_spec, Z.lxor_spec, !Z.land_spec, Z.lxor_spec, Z.lnot_spec by done.
  destruct (Z.lt_ge_cases n 32).
  - change 0xFFFFFFFF with (Z.ones 32). rewrite Z.ones_spec_low by lia.
    by destruct (Z.testbit b n), (Z.testbit c n), (Z.testbit d n).
  - rewrite (testbit_small d 32) by lia. by destruct (Z.testbit b n), (Z.testbit c n), (Z.testbit 0xFFFFFFFF n).
Qed.

Lemma majority_eq b c d : Z.lor (Z.lor (Z.land b c) (Z.land b d)) (Z.land c d) = Maj b c d.
Proof.
  unfold Maj. apply Z.bits_inj'. intros n _. rewrite !Z.lor_spec, !Z.lxor_spec, !Z.land_spec.
  by destruct (Z.testbit b n), (Z.testbit c n), (Z.testbit d n).
Qed.

Lemma schedule_prefix n W i : (i < length W)%nat -> w_at (schedule n W) i = w_at W i.
Proof.
  revert W. induction n as [|n IH]; intros W Hi; [done|]. cbn [schedule]. rewrite IH by (rewrite length_app; cbn; lia).
  unfold w_at. by rewrite lookup_app_l.
Qed.

Lemma round_eq round w r W :
  in5 r -> (round < 80)%nat ->
  (forall w', w' = (if (round <? 16)%nat then w else w ++ [w_next w round]) -> w_at W round = w_at w' round) ->
  snd (inner_round round w r) = sha1_step W r round /\ in5 (sha1_step W r round).
Proof.
  destruct r as [[[[a b] c] d] e]. intros (Ha & Hb & Hc & Hd & He) Hr HW. unfold inner_round, sha1_step, sha1macro. cbn [snd].
  rewrite (HW _ eq_refl). unfold ft, Kt.
  assert (in5 (u32 (ROTL 5 a + ft round b c d + e + Kt round + w_at W round), a, ROTL 30 b, c, d)) as Hin.
  { repeat split; try apply u32_range; try apply Ha; try apply Hc; try apply Hd; by apply rol_range. }
  unfold ft, Kt in Hin. rewrite (HW _ eq_refl) in Hin. split; [|exact Hin].
  destruct (Nat.ltb_spec round 20), (Nat.leb_spec round 19); try lia; [by rewrite choose_eq|].
  destruct (Nat.ltb_spec round 40), (Nat.leb_spec round 39); try lia; [done|].
  destruct (Nat.ltb_spec round 60), (Nat.leb_spec round 59); try lia; [by rewrite majority_eq | done].
Qed.

(** The words computed on the way are the schedule. *)
Lemma inner_eq n round w r :
  (round + n = 80)%nat -> length w = Nat.max 16 round -> in5 r ->
  inner_rounds n round w r = fold_left (sha1_step (schedule (80 - length w) w)) (seq round n) r
  /\ in5 (fold_left (sha1_step (schedule (80 - length w) w)) (seq round n) r).
Proof.
  revert round w r. induction n as [|n IH]; intros round w r Hn Hw Hr; [done|]. cbn [inner_rounds seq fold_left].
  set (w' := if (round <? 16)%nat then w else w ++ [w_next w round]).
  assert (length w' = Nat.max 16 (S round) /\ schedule (80 - length w) w = schedule (80 - length w') w') as [Hw' HW].
  { unfold w'. destruct (Nat.ltb_spec round 16); [split; [lia|done]|]. rewrite length_app. cbn [length]. split; [lia|].
    replace (80 - length w)%nat with (S (80 - (length w + 1))) by lia. cbn [schedule].
    replace (length w) with round by lia. done. }
  destruct (round_eq round w r (schedule (80 - length w) w)) as [E Hin]; [done|lia| |].
  { intros w'' ->. fold w'. rewrite HW. apply schedule_prefix. lia. }
  assert (fst (inner_round round w r) = w') as Ew by (unfold inner_round; by destruct r as [[[[a b] c] d] e]).
  destruct (inner_round round w r) as [w1 r1]. cbn [fst snd] in *. subst w1 r1. rewrite HW.
  apply IH; [lia|done|]. by rewrite <- HW.
Qed.

Lemma add5_range x y : in5 (add5 x y).
Proof. destruct x as [[[[a b] c] d] e], y as [[[[a' b'] c'] d'] e']. repeat split; apply u32_range. Qed.

Lemma innerHash_eq H M : in5 H -> length M = 16%nat -> innerHash H M = compress H M.
Proof.
  intros Hin HM. unfold innerHash, compress. destruct (inner_eq 80 0 M H) as [-> _]; [lia|lia|done|].
  by rewrite HM.
Qed.

Lemma compress_range H M : in5 (compress H M).
Proof. apply add5_range. Qed.

(** ** Equal blocks *)

Lemma byte_at s i : Forall is_byte s -> is_byte (default 0 (s !! i)).
Proof.
  intros Hs. destruct (s !! i) as [c|] eqn:E; [|unfold is_byte; cbn; lia]. rewrite Forall_lookup in Hs. by apply (Hs i).
Qed.

(** [x * 2^(s+8)] has room for a byte at [s]. *)
Lemma lor_byte h c s : 0 <= s -> is_byte c -> Z.lor (h * 2 ^ (s + 8)) (Z.shiftl c s) = h * 2 ^ (s + 8) + c * 2 ^ s.
Proof.
  intros Hs Hc. unfold is_byte in Hc. replace (h * 2 ^ (s + 8)) with (Z.shiftl (Z.shiftl h 8) s)
    by (rewrite !Z.shiftl_mul_pow2, Z.pow_add_r by lia; lia).
  rewrite <- Z.shiftl_lor, lor_shiftl_add, !Z.shiftl_mul_pow2 by lia. lia.
Qed.

Lemma load_word_be s j : Forall is_byte s -> load_word s (4 * j) = be_word s j.
Proof.
  intros Hs. unfold load_word, be_word. cbv zeta.
  pose proof (byte_at s (4 * j + 0) Hs) as H0. pose proof (byte_at s (4 * j + 1) Hs) as H1.
  pose proof (byte_at s (4 * j + 2) Hs) as H2. pose proof (byte_at s (4 * j + 3) Hs) as H3.
  set (b0 := default 0 (s !! (4 * j + 0)%nat)) in *. set (b1 := default 0 (s !! (4 * j + 1)%nat)) in *.
  set (b2 := default 0 (s !! (4 * j + 2)%nat)) in *. set (b3 := default 0 (s !! (4 * j + 3)%nat)) in *. unfold is_byte in *.
  rewrite (Z.lor_comm b3), lor_shiftl_add by lia. rewrite (Z.lor_comm _ (Z.shiftl b1 16)), lor_shiftl_add by lia.
  rewrite (Z.lor_comm _ (Z.shiftl b0 24)), lor_shiftl_add by lia. lia.
Qed.

Lemma be_words_lookup s j : (j < 16)%nat -> be_words s !! j = Some (be_word s j).
Proof. intros H. unfold be_words. by rewrite list_lookup_fmap, lookup_seq_lt. Qed.

Lemma be_words_ext s t :
  (forall i, (i < 64)%nat -> default 0 (s !! i) = default 0 (t !! i)) -> be_words s = be_words t.
Proof.
  intros H. apply list_eq. intros j. destruct (decide (j < 16)%nat) as [Hj|Hj].
  - rewrite !be_words_lookup by done. unfold be_word. by rewrite !H by lia.
  - unfold be_words. by rewrite !list_lookup_fmap, lookup_seq_ge by lia.
Qed.

Lemma load_block_be s : Forall is_byte s -> load_block s = be_words (take 64 s).
Proof.
  intros Hs. transitivity (be_words s).
  - unfold load_block, be_words. apply list_fmap_ext. intros i j _. by apply load_word_be.
  - apply be_words_ext. intros i Hi. by rewrite lookup_take_lt.
Qed.

(** One byte more. *)
Lemma or_byte_be p c :
  (length p < 64)%nat -> is_byte c -> or_byte (be_words p) (length p) c = be_words (p ++ [c]).
Proof.
  intros Hp Hc. set (n := length p) in *. pose proof (Nat.div_mod n 4) as Hn. pose proof (Nat.mod_upper_bound n 4).
  assert (forall i, (n <= i)%nat -> default 0 (p !! i) = 0) as Hbeyond by (intros i Hi; by rewrite lookup_ge_None_2).
  assert (forall i, i <> n -> default 0 ((p ++ [c]) !! i) = default 0 (p !! i)) as Hother.
  { intros i Hi. destruct (Nat.lt_ge_cases i n); [by rewrite lookup_app_l|].
    rewrite lookup_app_r, (lookup_ge_None_2 p i) by lia. by rewrite lookup_ge_None_2 by (cbn; lia). }
  assert (default 0 ((p ++ [c]) !! n) = c) as Hself by (unfold n; by rewrite list_lookup_middle).
  apply list_eq. intros j. unfold or_byte. destruct (decide (j < 16)%nat) as [Hj|Hj].
  - rewrite be_words_lookup by done. destruct (decide (j = n / 4)%nat) as [->|Hne].
    + rewrite list_lookup_alter_eq, be_words_lookup by lia. cbn [fmap option_fmap option_map]. f_equal.
      set (q := (n / 4)%nat) in *. unfold be_word. cbv zeta.
      assert (n mod 4 = 0 \/ n mod 4 = 1 \/ n mod 4 = 2 \/ n mod 4 = 3)%nat as [E|[E|[E|E]]] by lia; rewrite E;
        cbn [Nat.sub]; change (8 * Z.of_nat 3) with 24; change (8 * Z.of_nat 2) with 16; change (8 * Z.of_nat 1) with 8; change (8 * Z.of_nat 0) with 0.
      * replace (4 * q + 0)%nat with n by lia. rewrite Hself, !Hother, !Hbeyond by lia.
        rewrite Z.shiftl_mul_pow2 by lia. rewrite !Z.mul_0_l, !Z.add_0_l, Z.lor_0_l. lia.
      * replace (4 * q + 1)%nat with n by lia.
        rewrite Hself, !Hother, (Hbeyond n), (Hbeyond (4 * q + 2)%nat), (Hbeyond (4 * q + 3)%nat) by lia.
        rewrite !Z.mul_0_l, !Z.add_0_r. rewrite (lor_byte _ c 16) by (done || lia). lia.
      * replace (4 * q + 2)%nat with n by lia.
        rewrite Hself, !Hother, (Hbeyond n), (Hbeyond (4 * q + 3)%nat) by lia. rewrite !Z.mul_0_l, !Z.add_0_r.
        replace (default 0 (p !! (4 * q + 0)%nat) * 2 ^ 24 + default 0 (p !! (4 * q + 1)%nat) * 2 ^ 16)
          with ((default 0 (p !! (4 * q + 0)%nat) * 2 ^ 8 + default 0 (p !! (4 * q + 1)%nat)) * 2 ^ (8 + 8)) by lia.
        rewrite (lor_byte _ c 8) by (done || lia). lia.
      * replace (4 * q + 3)%nat with n by lia. rewrite Hself, !Hother, (Hbeyond n) by lia. rewrite !Z.add_0_r.
        set (h := _ + _ + _).
        replace h with ((default 0 (p !! (4 * q + 0)%nat) * 2 ^ 16 + default 0 (p !! (4 * q + 1)%nat) * 2 ^ 8
                         + default 0 (p !! (4 * q + 2)%nat)) * 2 ^ (0 + 8)) by (unfold h; lia).
        rewrite (lor_byte _ c 0) by (done || lia). lia.
    + rewrite list_lookup_alter_ne, be_words_lookup by done. f_equal. unfold be_word. by rewrite !Hother by lia.
  - rewrite list_lookup_alter_ne by lia. unfold be_words. by rewrite !list_lookup_fmap, lookup_seq_ge by lia.
Qed.

Lemma or_bytes_be s p :
  (length p + length s <= 64)%nat -> Forall is_byte s -> or_bytes (be_words p) (length p) s = be_words (p ++ s).
Proof.
  intros Hl Hs. revert p Hl. induction Hs as [|c s Hc Hs IH]; intros p Hl; [by rewrite app_nil_r|]. cbn [or_bytes length] in *.
  rewrite or_byte_be by (done || lia). specialize (IH (p ++ [c])). rewrite length_app in IH. cbn [length] in IH.
  replace (S (length p)) with (length p + 1)%nat by lia. rewrite IH by lia. by rewrite <- app_assoc.
Qed.

Lemma be_words_nil : be_words [] = replicate 16 0.
Proof. reflexivity. Qed.

Lemma be_words_zeros p k : be_words (p ++ repeat 0 k) = be_words p.
Proof.
  apply be_words_ext. intros i _. destruct (Nat.lt_ge_cases i (length p)); [by rewrite lookup_app_l|].
  rewrite lookup_app_r, (lookup_ge_None_2 p) by lia. destruct (repeat 0 k !! (i - length p)%nat) as [x|] eqn:E; [|done].
  apply list_elem_of_lookup_2, list_elem_of_In, repeat_spec in E. by subst.
Qed.

(** The length goes into the last word. *)
Lemma be_words_length q n :
  length q = 56%nat -> 0 <= n < 2 ^ 32 -> be_words (q ++ be64 n) = <[15%nat := n]> (be_words q).
Proof.
  intros Hq Hn. apply list_eq. intros j. destruct (decide (j = 15)%nat) as [->|Hne].
  - rewrite list_lookup_insert_eq by (unfold be_words; rewrite length_fmap, length_seq; lia).
    rewrite be_words_lookup by lia. f_equal. unfold be_word. cbv zeta.
    rewrite !lookup_app_r, Hq by lia. cbn [Nat.mul Nat.add Nat.sub]. unfold be64. cbn.
    change (2 ^ (8 * (7 - Z.of_nat 4))) with 16777216. change (2 ^ (8 * (7 - Z.of_nat 5))) with 65536.
    change (2 ^ (8 * (7 - Z.of_nat 6))) with 256. change (2 ^ (8 * (7 - Z.of_nat 7))) with 1. lia.
  - rewrite list_lookup_insert_ne by done. destruct (decide (j < 16)%nat); [|unfold be_words; by rewrite !list_lookup_fmap, lookup_seq_ge by lia].
    rewrite !be_words_lookup by done. f_equal. unfold be_word. cbv zeta. destruct (decide (j = 14)%nat) as [->|Hj].
    + rewrite !lookup_app_r, Hq by lia. rewrite !(lookup_ge_None_2 q) by lia. cbn [Nat.mul Nat.add Nat.sub]. unfold be64. cbn.
      change (2 ^ (8 * (7 - Z.of_nat 0))) with (2 ^ 56). change (2 ^ (8 * (7 - Z.of_nat 1))) with (2 ^ 48).
      change (2 ^ (8 * (7 - Z.of_nat 2))) with (2 ^ 40). change (2 ^ (8 * (7 - Z.of_nat 3))) with (2 ^ 32).
      rewrite !Z.div_small by lia. done.
    + by rewrite !lookup_app_l by lia.
Qed.

(** ** Equal digests *)

Lemma sha1_blocks_app q k H s t :
  length s = (64 * q)%nat -> sha1_blocks (q + k) H (s ++ t) = sha1_blocks k (sha1_blocks q H s) t.
Proof.
  revert H s. induction q as [|q IH]; intros H s Hs; [by destruct s|]. cbn [Nat.add sha1_blocks].
  rewrite take_app_le, drop_app_le by lia. apply IH. rewrite length_drop. lia.
Qed.

Lemma sha1_blocks_range q H s : in5 H -> in5 (sha1_blocks q H s).
Proof. revert H s. induction q as [|q IH]; intros H s Hin; [done|]. apply IH, compress_range. Qed.

Lemma full_blocks_eq fuel H s :
  (length s <= fuel)%nat -> Forall is_byte s -> in5 H ->
  full_blocks fuel H s = (sha1_blocks (length s / 64) H (take (64 * (length s / 64)) s), drop (64 * (length s / 64)) s).
Proof.
  revert H s. induction fuel as [|fuel IH]; intros H s Hf Hs Hin.
  - destruct s; [done|]. cbn in Hf. lia.
  - cbn [full_blocks]. destruct (Nat.leb_spec 64 (length s)).
    + rewrite IH by (rewrite ?length_drop; try lia; try apply Forall_drop, Hs; rewrite load_block_be, innerHash_eq; try done; apply compress_range).
      rewrite length_drop. assert (length s / 64 = S ((length s - 64) / 64))%nat as ->.
      { replace (length s) with ((length s - 64) + 1 * 64)%nat at 1 by lia. rewrite Nat.div_add by lia. lia. }
      set (q := ((length s - 64) / 64)%nat). cbn [sha1_blocks].
      rewrite load_block_be, innerHash_eq by done. rewrite take_take, drop_drop, skipn_firstn_comm.
      rewrite Nat.min_l by lia.
      replace (64 * S q - 64)%nat with (64 * q)%nat by lia. replace (64 + 64 * q)%nat with (64 * S q)%nat by lia. done.
    + rewrite Nat.div_small by lia. done.
Qed.

(** The last one or two blocks. *)
Lemma last_blocks H (m rest : list Z) :
  in5 H -> Forall is_byte rest -> length rest = (length m mod 64)%nat -> 8 * Z.of_nat (length m) < 2 ^ 32 ->
  let tail := rest ++ [0x80] ++ repeat 0 ((119 - length m mod 64) mod 64) ++ be64 (8 * Z.of_nat (length m)) in
  length tail = (64 * (if (56 <=? length rest)%nat then 2 else 1))%nat /\
  (let w := or_byte (or_bytes (replicate 16 0) 0 rest) (length rest) 0x80 in
   let '(result, w) := if (56 <=? length rest)%nat then (innerHash H w, replicate 16 0) else (H, w) in
   innerHash result (<[15%nat := u32 (Z.shiftl (Z.of_nat (length m)) 3)]> w))
  = sha1_blocks (length tail / 64) H tail.
Proof.
  intros Hin Hs Hr Hlen. rewrite <- Hr. intros tail. pose proof (Nat.mod_upper_bound (length m) 64 ltac:(done)) as Hub. rewrite <- Hr in Hub.
  assert (u32 (Z.shiftl (Z.of_nat (length m)) 3) = 8 * Z.of_nat (length m)) as Eu.
  { rewrite Z.shiftl_mul_pow2 by lia. unfold u32. rewrite wrapu_small; lia. }
  assert (or_byte (or_bytes (replicate 16 0) 0 rest) (length rest) 0x80 = be_words (rest ++ [0x80])) as Ew.
  { change (replicate 16 0) with (be_words []). change 0%nat with (length (@nil Z)).
    rewrite or_bytes_be by (cbn; done || lia). cbn [app]. apply or_byte_be; [lia | unfold is_byte; lia]. }
  cbv zeta. rewrite Ew, Eu. set (n := 8 * Z.of_nat (length m)) in *.
  assert (forall p, length (be_words p) = 16%nat) as Hbe by (intros; unfold be_words; by rewrite length_fmap, length_seq).
  assert (length (be64 n) = 8%nat) as H64 by done.
  assert (length tail = length rest + 1 + (119 - length rest) mod 64 + 8)%nat as Ht.
  { unfold tail. rewrite !length_app, repeat_length, H64. cbn [length]. lia. }
  destruct (Nat.leb_spec 56 (length rest)) as [Hge|Hlt].
  - assert ((119 - length rest) mod 64 = 119 - length rest)%nat as Emod by (rewrite Nat.mod_small; lia). rewrite Emod in Ht.
    split; [lia|]. replace (length tail) with (2 * 64)%nat by lia. rewrite Nat.div_mul by done. cbn [sha1_blocks].
    assert (tail = (rest ++ [0x80] ++ repeat 0 (63 - length rest)) ++ (repeat 0 56 ++ be64 n)) as Etail.
    { unfold tail. rewrite Emod, <- !app_assoc. do 2 f_equal. rewrite app_assoc, <- repeat_app. do 2 f_equal. lia. }
    assert (length (rest ++ [0x80] ++ repeat 0 (63 - length rest)) = 64%nat) as Hl1
      by (rewrite !length_app, repeat_length; cbn; lia).
    rewrite Etail, take_app_eq, drop_app_eq by done. rewrite app_assoc, be_words_zeros.
    rewrite (take_ge (repeat 0 56 ++ be64 n)) by (rewrite length_app, repeat_length, H64; lia).
    rewrite be_words_length by (rewrite ?repeat_length; lia).
    replace (be_words (repeat 0 56)) with (replicate 16 0) by reflexivity.
    rewrite (innerHash_eq H (be_words (rest ++ [128]))) by done.
    rewrite innerHash_eq by (apply compress_range || by rewrite length_insert). done.
  - assert ((119 - length rest) mod 64 = 55 - length rest)%nat as Emod
      by (replace (119 - length rest)%nat with (55 - length rest + 1 * 64)%nat by lia; rewrite Nat.Div0.mod_add, Nat.mod_small; lia). rewrite Emod in Ht.
    split; [lia|]. replace (length tail) with (1 * 64)%nat by lia. rewrite Nat.div_mul by done. cbn [sha1_blocks].
    rewrite take_ge by lia. unfold tail. rewrite Emod, !app_assoc. rewrite be_words_length by (rewrite ?length_app, ?repeat_length; cbn; lia).
    rewrite be_words_zeros. rewrite innerHash_eq by (done || by rewrite length_insert). done.
Qed.

Lemma sha1_eq m : Forall is_byte m -> 8 * Z.of_nat (length m) < 2 ^ 32 -> sha1_calc m = SHA1 m.
Proof.
  intros Hm Hlen. unfold sha1_calc, SHA1. assert (in5 sha1_init) as Hin by (unfold in5, is32; cbn; lia).
  rewrite full_blocks_eq by done. set (q := (length m / 64)%nat). set (rest := drop (64 * q) m).
  pose proof (Nat.div_mod (length m) 64 ltac:(done)) as Hdm. fold q in Hdm.
  assert (length rest = (length m mod 64)%nat) as Hr by (unfold rest; rewrite length_drop; lia).
  pose proof (last_blocks (sha1_blocks q sha1_init (take (64 * q) m)) m rest) as H. cbv zeta in H.
  destruct H as [Ht E]; [by apply sha1_blocks_range | by apply Forall_drop | done | done|]. cbv zeta.
  set (tail := rest ++ _) in *.
  assert (sha1_pad m = take (64 * q) m ++ tail) as Ep.
  { unfold sha1_pad, tail, rest. rewrite <- (take_drop (64 * q) m) at 1. by rewrite <- app_assoc. }
  assert (length (take (64 * q) m) = (64 * q)%nat) as Hl by (rewrite length_take; lia).
  rewrite Ep, length_app, Hl. replace (64 * q + length tail)%nat with (length tail + q * 64)%nat by lia.
  rewrite Nat.div_add, (Nat.add_comm _ q), sha1_blocks_app by done. rewrite <- E.
  by destruct (56 <=? length rest)%nat.
Qed.

(** C33: The digest of the WebSocket handshake is SHA-1: [websocketpp::sha1::calc],
    which extends the schedule in place and assembles the last one or two blocks
    byte by byte, equals the digest of FIPS 180-4 for every message of less than
    2^29 bytes (above, the 64-bit length is cut to its low word). *)
Theorem sha1_calc_is_SHA1 (m : list Z) :
  Forall is_byte m -> 8 * Z.of_nat (length m) < 2 ^ 32 -> sha1_calc m = SHA1 m.
Proof. apply sha1_eq. Qed.

Lemma sha1_calc_is_SHA1_witness :
  sha1_calc (lit "abc") = SHA1 (lit "abc")
  /\ sha1_calc (lit "abc") = [0xa9; 0x99; 0x3e; 0x36; 0x47; 0x06; 0x81; 0x6a; 0xba; 0x3e; 0x25; 0x71; 0x78; 0x50; 0xc2; 0x6c; 0x9c; 0xd0; 0xd8; 0x9d].
Proof. split; [apply sha1_calc_is_SHA1; [apply lit_bytes | reflexivity] | vm_compute; reflexivity]. Defined.

(** ** base64.hpp *)

(** [char_array_3] to [char_array_4]. *)
Definition sextets (a b c : Z) : list Z :=
  [Z.shiftr (Z.land a 0xfc) 2;
   Z.shiftl (Z.land a 0x03) 4 + Z.shiftr (Z.land b 0xf0) 4;
   Z.shiftl (Z.land b 0x0f) 2 + Z.shiftr (Z.land c 0xc0) 6;
   Z.land c 0x3f].

(** Groups of three bytes; the last group is filled with NUL and its missing
    characters with [=]. *)
Fixpoint base64_encode (s : list Z) : list Z :=
  match s with
  | a :: b :: c :: s' => (table_at B64chars <$> sextets a b c) ++ base64_encode s'
  | [a; b] => (table_at B64chars <$> take 3 (sextets a b 0)) ++ [61]
  | [a] => (table_at B64chars <$> take 2 (sextets a 0 0)) ++ [61; 61]
  | [] => []
  end.

Definition is_base64 (c : Z) : bool :=
  (c =? 43) || (47 <=? c) && (c <=? 57) || (65 <=? c) && (c <=? 90) || (97 <=? c) && (c <=? 122).

(** [static_cast<unsigned char>(base64_chars.find(c))], 255 for [npos]. *)
Definition b64_find (c : Z) : Z :=
  match list_find (fun x => x = c) B64chars with Some (i, _) => Z.of_nat i | None => 255 end.

(** [char_array_4] to [char_array_3], whose elements are bytes. *)
Definition triple (i j k l : Z) : list Z :=
  [cast U8 (Z.shiftl i 2 + Z.shiftr (Z.land j 0x30) 4);
   cast U8 (Z.shiftl (Z.land j 0xf) 4 + Z.shiftr (Z.land k 0x3c) 2);
   cast U8 (Z.shiftl (Z.land k 0x3) 6 + l)].

(** [grp] is the part of [char_array_4] that is filled. *)
Fixpoint b64_loop (grp s : list Z) : list Z :=
  let finish :=
    match b64_find <$> (grp ++ repeat 0 (4 - length grp)) with
    | i :: j :: k :: l :: _ => take (length grp - 1) (triple i j k l)
    | _ => []
    end in
  match s with
  | [] => match grp with [] => [] | _ => finish end
  | c :: s' =>
      if negb (c =? 61) && is_base64 c then
        match grp with
        | [i; j; k] => triple (b64_find i) (b64_find j) (b64_find k) (b64_find c) ++ b64_loop [] s'
        | _ => b64_loop (grp ++ [c]) s'
        end
      else match grp with [] => [] | _ => finish end
  end.

Definition base64_decode (s : list Z) : list Z := b64_loop [] s.

(** [calc_key_answer]. *)
Definition calc_key_answer (key_ws : list Z) : list Z :=
  base64_encode (sha1_calc (key_ws ++ lit "258EAFA5-E914-47DA-95CA-C5AB0DC85B11")).

(** *** The same encoding as [CUtils::Base64Encode] *)

Lemma sextets_eq a b c :
  is_byte a -> is_byte b -> is_byte c ->
  sextets a b c = [a / 4; a mod 4 * 16 + b / 16; b mod 16 * 4 + c / 64; c mod 64].
Proof.
  unfold is_byte, sextets. intros Ha Hb Hc.
  assert (forall x m k, Z.shiftr (Z.land x (Z.shiftl m k)) k = Z.land (Z.shiftr x k) (Z.shiftr (Z.shiftl m k) k)) as E
    by (intros; apply Z.shiftr_land).
  change 0xfc with (Z.shiftl 63 2). change 0xf0 with (Z.shiftl 15 4). change 0xc0 with (Z.shiftl 3 6). rewrite !E.
  change (Z.shiftr (Z.shiftl 63 2) 2) with (Z.ones 6). change (Z.shiftr (Z.shiftl 15 4) 4) with (Z.ones 4).
  change (Z.shiftr (Z.shiftl 3 6) 6) with (Z.ones 2). change 0x03 with (Z.ones 2). change 0x0f with (Z.ones 4). change 0x3f with (Z.ones 6).
  rewrite !Z.land_ones, !Z.shiftr_div_pow2, !Z.shiftl_mul_pow2 by lia.
  change (2 ^ 2) with 4. change (2 ^ 4) with 16. change (2 ^ 6) with 64.
  rewrite (Z.mod_small (a / 4)), (Z.mod_small (b / 16)), (Z.mod_small (c / 64)) by lia. done.
Qed.

Lemma b64_pad4 i j k l s : b64_pad (i :: j :: k :: l :: s) = i :: j :: k :: l :: b64_pad s.
Proof.
  unfold b64_pad. cbn [app]. do 6 f_equal. cbn [length]. replace (S (S (S (S (length s))))) with (length s + 1 * 4)%nat by lia.
  by rewrite Nat.Div0.mod_add.
Qed.

Lemma base64_pad_body n s val : (length s <= n)%nat -> Forall is_byte s -> b64_pad (b64_body val s) = base64_encode s.
Proof.
  revert s val. induction n as [n IH] using lt_wf_ind. intros s val Hn Hs.
  destruct s as [|a [|b [|c s]]]; [done|..]; inversion_clear Hs as [|? ? Ha Hs1].
  - destruct (b64_enc1 val a Ha) as (v & E1 & E2). unfold b64_body. rewrite E1. cbn [Z.ltb Z.compare Pos.compare Pos.compare_cont CompOpp].
    rewrite E2. cbn [base64_encode]. rewrite sextets_eq by (done || unfold is_byte; lia). cbn. by rewrite Z.add_0_r.
  - inversion_clear Hs1 as [|? ? Hb _]. destruct (b64_enc2 val a b Ha Hb) as (v & E1 & E2). unfold b64_body. rewrite E1.
    cbn [Z.ltb Z.compare Pos.compare Pos.compare_cont CompOpp]. rewrite E2. cbn [base64_encode].
    rewrite sextets_eq by (done || unfold is_byte; lia). cbn. by rewrite Z.add_0_r.
  - inversion_clear Hs1 as [|? ? Hb Hs2]. inversion_clear Hs2 as [|? ? Hc Hs].
    destruct (b64_body3 val a b c s Ha Hb Hc) as [val' ->]. rewrite b64_pad4. cbn [base64_encode].
    rewrite sextets_eq by done. cbn [fmap list_fmap app]. do 4 f_equal. apply (IH (length s)); [cbn in Hn; lia|lia|done].
Qed.

(** *** Decoding *)

Definition b64_char_ok (i : Z) : bool :=
  let c := table_at B64chars i in negb (c =? 61) && is_base64 c && (b64_find c =? i).

Lemma b64_chars_ok i : 0 <= i < 64 -> negb (table_at B64chars i =? 61) && is_base64 (table_at B64chars i) = true /\ b64_find (table_at B64chars i) = i.
Proof.
  intros Hi. assert (forallb b64_char_ok (Z.of_nat <$> seq 0 64) = true) as H by by vm_compute.
  rewrite forallb_forall in H. specialize (H i). unfold b64_char_ok in H. cbv zeta in H.
  assert (negb (table_at B64chars i =? 61) && is_base64 (table_at B64chars i) && (b64_find (table_at B64chars i) =? i) = true) as H'.
  { apply H, list_elem_of_In, list_elem_of_fmap. exists (Z.to_nat i). split; [lia|]. apply elem_of_seq. lia. }
  apply andb_prop in H' as [H1 H2]. split; [done|]. by apply Z.eqb_eq.
Qed.

Lemma triple_eq a b c :
  is_byte a -> is_byte b -> is_byte c ->
  triple (a / 4) (a mod 4 * 16 + b / 16) (b mod 16 * 4 + c / 64) (c mod 64) = [a; b; c].
Proof.
  unfold is_byte, triple. intros Ha Hb Hc.
  assert (forall x m k, Z.shiftr (Z.land x (Z.shiftl m k)) k = Z.land (Z.shiftr x k) (Z.shiftr (Z.shiftl m k) k)) as E
    by (intros; apply Z.shiftr_land).
  change 0x30 with (Z.shiftl 3 4). change 0x3c with (Z.shiftl 15 2). rewrite !E.
  change (Z.shiftr (Z.shiftl 3 4) 4) with (Z.ones 2). change (Z.shiftr (Z.shiftl 15 2) 2) with (Z.ones 4).
  change 0xf with (Z.ones 4). change 0x3 with (Z.ones 2). rewrite !Z.land_ones, !Z.shiftr_div_pow2, !Z.shiftl_mul_pow2 by lia.
  change (2 ^ 2) with 4. change (2 ^ 4) with 16. change (2 ^ 6) with 64. rewrite !div_join, !mod_join by lia.
  rewrite !Z.mod_mod by lia.
  rewrite !(cast_id U8) by (unfold in_range; cbn; change (2 ^ 8) with 256; lia). repeat (f_equal; try lia).
Qed.

Lemma b64_loop_char grp i s :
  0 <= i < 64 -> (length grp < 3)%nat -> b64_loop grp (table_at B64chars i :: s) = b64_loop (grp ++ [table_at B64chars i]) s.
Proof.
  intros Hi Hg. cbn [b64_loop]. rewrite (proj1 (b64_chars_ok i Hi)). destruct grp as [|? [|? [|? [|]]]]; cbn in Hg; lia || done.
Qed.

Lemma b64_loop_last i j k l s :
  0 <= i < 64 -> 0 <= j < 64 -> 0 <= k < 64 -> 0 <= l < 64 ->
  b64_loop [table_at B64chars i; table_at B64chars j; table_at B64chars k] (table_at B64chars l :: s)
  = triple i j k l ++ b64_loop [] s.
Proof.
  intros Hi Hj Hk Hl. cbn [b64_loop]. rewrite (proj1 (b64_chars_ok l Hl)).
  by rewrite (proj2 (b64_chars_ok i Hi)), (proj2 (b64_chars_ok j Hj)), (proj2 (b64_chars_ok k Hk)), (proj2 (b64_chars_ok l Hl)).
Qed.

Lemma base64_decode_encode n s : (length s <= n)%nat -> Forall is_byte s -> b64_loop [] (base64_encode s) = s.
Proof.
  revert s. induction n as [n IH] using lt_wf_ind. intros s Hn Hs.
  destruct s as [|a [|b [|c s]]]; [done|..]; inversion_clear Hs as [|? ? Ha Hs1]; cbn [base64_encode].
  - assert (is_byte 0) as H0 by (unfold is_byte; lia). rewrite sextets_eq by done. unfold is_byte in Ha. cbn [take fmap list_fmap app].
    rewrite !b64_loop_char by (cbn; lia). cbn [app b64_loop Z.eqb Pos.eqb negb andb length Nat.sub repeat fmap list_fmap].
    rewrite (proj2 (b64_chars_ok (a / 4) ltac:(lia))), (proj2 (b64_chars_ok (a mod 4 * 16 + 0 / 16) ltac:(lia))).
    pose proof (triple_eq a 0 0 ltac:(unfold is_byte; lia) H0 H0) as E. unfold triple in *. cbn [take]. by injection E as ->.
  - inversion_clear Hs1 as [|? ? Hb _]. assert (is_byte 0) as H0 by (unfold is_byte; lia). rewrite sextets_eq by done.
    pose proof (triple_eq a b 0 Ha Hb H0) as E. unfold is_byte in Ha, Hb. cbn [take fmap list_fmap app].
    rewrite !b64_loop_char by (cbn; lia). cbn [app b64_loop Z.eqb Pos.eqb negb andb length Nat.sub repeat fmap list_fmap].
    rewrite (proj2 (b64_chars_ok (a / 4) ltac:(lia))), (proj2 (b64_chars_ok (a mod 4 * 16 + b / 16) ltac:(lia))),
      (proj2 (b64_chars_ok (b mod 16 * 4 + 0 / 64) ltac:(lia))). unfold triple in *. cbn [take]. by injection E as -> ->.
  - inversion_clear Hs1 as [|? ? Hb Hs2]. inversion_clear Hs2 as [|? ? Hc Hs]. rewrite sextets_eq by done.
    pose proof (triple_eq a b c Ha Hb Hc) as E. unfold is_byte in Ha, Hb, Hc. cbn [fmap list_fmap app].
    rewrite !b64_loop_char by (cbn; lia). cbn [app]. rewrite b64_loop_last by lia. rewrite E.
    cbn [app]. do 3 f_equal. apply (IH (length s)); [cbn in Hn; lia|lia|done].
Qed.

(** The two Base64 implementations of the program agree: the accumulator-based
    [CUtils::Base64Encode] and the three-byte groups of base64.hpp give the same
    text for every byte string, and the decoder of either reads it back. *)
Lemma base64_encoders_agree (s : list Z) :
  Forall is_byte s ->
  Base64Encode s = base64_encode s /\ base64_decode (Base64Encode s) = s /\ Base64Decode (base64_encode s) = s.
Proof.
  intros Hs. assert (Base64Encode s = base64_encode s) as E.
  { rewrite <- (base64_pad_body (length s) s 0) by done.
    unfold Base64Encode, b64_body. by destruct (b64_enc 0 (-6) s) as [[out v] vb]. }
  split_and!; [done| |by rewrite <- E; apply base64_roundtrip]. rewrite E. by apply (base64_decode_encode (length s)).
Qed.

Lemma base64_encoders_agree_witness :
  let d := sha1_calc (lit "abc") in
  (Base64Encode d = base64_encode d /\ base64_decode (Base64Encode d) = d /\ Base64Decode (base64_encode d) = d)
  /\ calc_key_answer (lit "dGhlIHNhbXBsZSBub25jZQ==") = lit "s3pPLMBiTxaQ9kYGzzhZRbK+xOo=".
Proof.
  split; [|vm_compute; reflexivity]. apply base64_encoders_agree.
  vm_compute. repeat (constructor; [by split|]). constructor.
Defined.
