(* ===== verification/LlhttpNodes.v ===== *)
(** The parser of corelib/llhttp/llhttp.c, block by block.

    [llhttp__internal__run] is one function whose blocks end in a goto, in a
    return of the state to go on from, or in an error.  Every block has one of a
    dozen shapes, the constructors of [node]; each block is the definition of its
    name, [n_x] for the block s_n_llhttp__internal__n_x, and [s_n_x] is its label.
    The half of the file for LLHTTP_STRICT_MODE = 0 is what is built; the copy for
    strict mode and the loops for SSE4.2, which only skip bytes that the tables
    skip too, are left out. *)

From Stdlib Require Import ZArith.
From stdpp Require Import base strings list.
From S2P Require Import Prelude.
Open Scope Z_scope.

(** ** Labels *)

(** The states of the enumeration, then the blocks that are only jumped to. *)
Inductive llparse_state : Type :=
| s_error
| s_n_closed
| s_n_invoke_llhttp__after_message_complete
| s_n_pause_1
| s_n_invoke_is_equal_upgrade
| s_n_invoke_llhttp__on_message_complete_2
| s_n_chunk_data_almost_done_skip
| s_n_chunk_data_almost_done
| s_n_consume_content_length
| s_n_span_start_llhttp__on_body
| s_n_invoke_is_equal_content_length
| s_n_chunk_size_almost_done
| s_n_chunk_parameters
| s_n_chunk_size_otherwise
| s_n_chunk_size
| s_n_chunk_size_digit
| s_n_invoke_update_content_length
| s_n_consume_content_length_1
| s_n_span_start_llhttp__on_body_1
| s_n_eof
| s_n_span_start_llhttp__on_body_2
| s_n_invoke_llhttp__after_headers_complete
| s_n_headers_almost_done
| s_n_header_field_colon_discard_ws
| s_n_error_14
| s_n_invoke_llhttp__on_header_value_complete
| s_n_span_start_llhttp__on_header_value
| s_n_header_value_discard_lws
| s_n_header_value_discard_ws_almost_done
| s_n_header_value_lws
| s_n_header_value_almost_done
| s_n_header_value_lenient
| s_n_header_value_otherwise
| s_n_header_value_connection_token
| s_n_header_value_connection_ws
| s_n_header_value_connection_1
| s_n_header_value_connection_2
| s_n_header_value_connection_3
| s_n_header_value_connection
| s_n_error_19
| s_n_error_20
| s_n_header_value_content_length_ws
| s_n_header_value_content_length
| s_n_header_value_te_chunked_last
| s_n_header_value_te_token_ows
| s_n_header_value
| s_n_header_value_te_token
| s_n_header_value_te_chunked
| s_n_span_start_llhttp__on_header_value_1
| s_n_header_value_discard_ws
| s_n_invoke_llhttp__on_header_field_complete
| s_n_header_field_general_otherwise
| s_n_header_field_general
| s_n_header_field_colon
| s_n_header_field_3
| s_n_header_field_4
| s_n_header_field_2
| s_n_header_field_1
| s_n_header_field_5
| s_n_header_field_6
| s_n_header_field_7
| s_n_header_field
| s_n_span_start_llhttp__on_header_field
| s_n_header_field_start
| s_n_url_skip_to_http09
| s_n_url_skip_lf_to_http09
| s_n_req_pri_upgrade
| s_n_req_http_complete_1
| s_n_req_http_complete
| s_n_req_http_minor
| s_n_req_http_dot
| s_n_req_http_major
| s_n_req_http_start_1
| s_n_req_http_start_2
| s_n_req_http_start_3
| s_n_req_http_start
| s_n_url_skip_to_http
| s_n_url_fragment
| s_n_span_end_stub_query_3
| s_n_url_query
| s_n_url_query_or_fragment
| s_n_url_path
| s_n_span_start_stub_path_2
| s_n_span_start_stub_path
| s_n_span_start_stub_path_1
| s_n_url_server_with_at
| s_n_url_server
| s_n_url_schema_delim_1
| s_n_url_schema_delim
| s_n_span_end_stub_schema
| s_n_url_schema
| s_n_url_start
| s_n_span_start_llhttp__on_url_1
| s_n_span_start_llhttp__on_url
| s_n_req_spaces_before_url
| s_n_req_first_space_before_url
| s_n_start_req_2
| s_n_start_req_3
| s_n_start_req_1
| s_n_start_req_4
| s_n_start_req_6
| s_n_start_req_8
| s_n_start_req_9
| s_n_start_req_7
| s_n_start_req_5
| s_n_start_req_12
| s_n_start_req_13
| s_n_start_req_11
| s_n_start_req_10
| s_n_start_req_14
| s_n_start_req_17
| s_n_start_req_16
| s_n_start_req_15
| s_n_start_req_18
| s_n_start_req_20
| s_n_start_req_21
| s_n_start_req_19
| s_n_start_req_23
| s_n_start_req_24
| s_n_start_req_26
| s_n_start_req_28
| s_n_start_req_29
| s_n_start_req_27
| s_n_start_req_25
| s_n_start_req_30
| s_n_start_req_22
| s_n_start_req_31
| s_n_start_req_32
| s_n_start_req_35
| s_n_start_req_36
| s_n_start_req_34
| s_n_start_req_37
| s_n_start_req_38
| s_n_start_req_42
| s_n_start_req_43
| s_n_start_req_41
| s_n_start_req_40
| s_n_start_req_39
| s_n_start_req_45
| s_n_start_req_44
| s_n_start_req_33
| s_n_start_req_48
| s_n_start_req_49
| s_n_start_req_50
| s_n_start_req_51
| s_n_start_req_47
| s_n_start_req_46
| s_n_start_req_54
| s_n_start_req_56
| s_n_start_req_57
| s_n_start_req_55
| s_n_start_req_53
| s_n_start_req_58
| s_n_start_req_59
| s_n_start_req_52
| s_n_start_req_61
| s_n_start_req_62
| s_n_start_req_60
| s_n_start_req_65
| s_n_start_req_67
| s_n_start_req_68
| s_n_start_req_66
| s_n_start_req_69
| s_n_start_req_64
| s_n_start_req_63
| s_n_start_req
| s_n_invoke_llhttp__on_status_complete
| s_n_res_line_almost_done
| s_n_res_status
| s_n_span_start_llhttp__on_status
| s_n_res_status_start
| s_n_res_status_code_otherwise
| s_n_res_status_code
| s_n_res_http_end
| s_n_res_http_minor
| s_n_res_http_dot
| s_n_res_http_major
| s_n_start_res
| s_n_req_or_res_method_2
| s_n_req_or_res_method_3
| s_n_req_or_res_method_1
| s_n_req_or_res_method
| s_n_start_req_or_res
| s_n_invoke_load_type
| s_n_start
| s_n_error_39
| s_n_invoke_update_finish_2
| s_n_invoke_test_lenient_flags
| s_n_invoke_update_finish_1
| s_n_pause_5
| s_n_error_10
| s_n_pause_7
| s_n_error_13
| s_n_invoke_llhttp__on_chunk_complete_1
| s_n_error_12
| s_n_pause_2
| s_n_error_3
| s_n_invoke_llhttp__on_message_complete_1
| s_n_error_8
| s_n_pause_3
| s_n_error_5
| s_n_invoke_llhttp__on_chunk_complete
| s_n_span_end_llhttp__on_body
| s_n_invoke_or_flags
| s_n_pause_4
| s_n_error_4
| s_n_invoke_llhttp__on_chunk_header
| s_n_error_6
| s_n_error_7
| s_n_invoke_mul_add_content_length
| s_n_error_9
| s_n_span_end_llhttp__on_body_1
| s_n_invoke_update_finish_3
| s_n_error_11
| s_n_pause
| s_n_error_2
| s_n_invoke_llhttp__on_message_complete
| s_n_invoke_or_flags_1
| s_n_invoke_or_flags_2
| s_n_invoke_update_upgrade
| s_n_pause_6
| s_n_error_1
| s_n_invoke_llhttp__on_headers_complete
| s_n_invoke_llhttp__before_headers_complete
| s_n_invoke_test_lenient_flags_1
| s_n_invoke_test_flags_1
| s_n_invoke_test_flags
| s_n_span_end_llhttp__on_header_field
| s_n_invoke_test_lenient_flags_2
| s_n_error_15
| s_n_span_end_llhttp__on_header_value
| s_n_invoke_update_header_state
| s_n_invoke_or_flags_3
| s_n_invoke_or_flags_4
| s_n_invoke_or_flags_5
| s_n_invoke_or_flags_6
| s_n_invoke_load_header_state_1
| s_n_invoke_load_header_state
| s_n_invoke_update_header_state_1
| s_n_invoke_or_flags_7
| s_n_invoke_or_flags_8
| s_n_invoke_or_flags_9
| s_n_invoke_or_flags_10
| s_n_invoke_load_header_state_3
| s_n_error_16
| s_n_span_end_llhttp__on_header_value_1
| s_n_span_end_llhttp__on_header_value_2
| s_n_span_end_llhttp__on_header_value_3
| s_n_error_17
| s_n_invoke_test_lenient_flags_3
| s_n_invoke_update_header_state_3
| s_n_invoke_or_flags_11
| s_n_invoke_or_flags_12
| s_n_invoke_or_flags_13
| s_n_invoke_or_flags_14
| s_n_invoke_load_header_state_4
| s_n_invoke_update_header_state_4
| s_n_invoke_update_header_state_2
| s_n_invoke_update_header_state_5
| s_n_invoke_update_header_state_6
| s_n_span_end_llhttp__on_header_value_4
| s_n_invoke_mul_add_content_length_1
| s_n_invoke_or_flags_15
| s_n_span_end_llhttp__on_header_value_5
| s_n_error_18
| s_n_invoke_test_flags_2
| s_n_invoke_update_header_state_7
| s_n_invoke_update_header_state_8
| s_n_invoke_and_flags
| s_n_invoke_or_flags_16
| s_n_invoke_or_flags_17
| s_n_invoke_load_header_state_2
| s_n_span_end_llhttp__on_header_field_1
| s_n_span_end_llhttp__on_header_field_2
| s_n_error_21
| s_n_invoke_update_header_state_9
| s_n_invoke_store_header_state
| s_n_invoke_update_header_state_10
| s_n_invoke_llhttp__on_url_complete
| s_n_invoke_update_http_minor
| s_n_invoke_update_http_major
| s_n_span_end_llhttp__on_url_3
| s_n_error_22
| s_n_span_end_llhttp__on_url_4
| s_n_error_25
| s_n_error_26
| s_n_error_24
| s_n_invoke_load_method_1
| s_n_invoke_store_http_minor
| s_n_error_27
| s_n_error_28
| s_n_invoke_store_http_major
| s_n_error_29
| s_n_error_23
| s_n_invoke_load_method
| s_n_error_32
| s_n_error_30
| s_n_invoke_load_method_2
| s_n_error_31
| s_n_invoke_load_method_3
| s_n_invoke_llhttp__on_url_complete_1
| s_n_span_end_llhttp__on_url_5
| s_n_span_end_llhttp__on_url_6
| s_n_span_end_llhttp__on_url_7
| s_n_span_end_llhttp__on_url_8
| s_n_error_33
| s_n_span_end_llhttp__on_url_9
| s_n_span_end_llhttp__on_url_10
| s_n_span_end_llhttp__on_url_11
| s_n_error_34
| s_n_error_35
| s_n_span_end_llhttp__on_url
| s_n_span_end_llhttp__on_url_1
| s_n_span_end_llhttp__on_url_2
| s_n_span_end_llhttp__on_url_12
| s_n_span_end_llhttp__on_url_13
| s_n_span_end_llhttp__on_url_14
| s_n_error_36
| s_n_error_37
| s_n_error_38
| s_n_error_40
| s_n_error_41
| s_n_error_42
| s_n_invoke_is_equal_method
| s_n_error_43
| s_n_invoke_store_method_1
| s_n_error_51
| s_n_error_44
| s_n_invoke_mul_add_status_code
| s_n_span_end_llhttp__on_status
| s_n_span_end_llhttp__on_status_1
| s_n_error_45
| s_n_invoke_update_status_code
| s_n_error_46
| s_n_invoke_store_http_minor_1
| s_n_error_47
| s_n_error_48
| s_n_invoke_store_http_major_1
| s_n_error_49
| s_n_error_52
| s_n_invoke_update_type
| s_n_invoke_store_method
| s_n_error_50
| s_n_invoke_update_type_1
| s_n_invoke_update_type_2
| s_n_pause_8
| s_n_error
| s_n_invoke_llhttp__on_message_begin
| s_n_invoke_update_finish.

(** What a block may call: a function of the file, of http.c or a callback. *)
Inductive llparse_code : Type :=
| k_after_message_complete
| k_is_equal_upgrade
| k_on_message_complete
| k_is_equal_content_length
| k_update_content_length
| k_after_headers_complete
| k_on_header_value_complete
| k_on_header_field_complete
| k_on_status_complete
| k_load_type
| k_update_finish_1
| k_test_lenient_flags
| k_on_chunk_complete
| k_or_flags
| k_on_chunk_header
| k_mul_add_content_length
| k_update_finish_3
| k_or_flags_1
| k_update_upgrade
| k_on_headers_complete
| k_before_headers_complete
| k_test_lenient_flags_1
| k_test_flags_1
| k_test_flags
| k_test_lenient_flags_2
| k_update_header_state
| k_or_flags_3
| k_or_flags_4
| k_or_flags_5
| k_or_flags_6
| k_load_header_state
| k_update_header_state_4
| k_update_header_state_2
| k_update_header_state_5
| k_update_header_state_6
| k_mul_add_content_length_1
| k_or_flags_15
| k_test_flags_2
| k_update_header_state_7
| k_and_flags
| k_or_flags_16
| k_or_flags_17
| k_store_header_state
| k_on_url_complete
| k_update_http_minor
| k_update_http_major
| k_load_method
| k_store_http_minor
| k_store_http_major
| k_is_equal_method
| k_store_method
| k_mul_add_status_code
| k_update_status_code
| k_update_type
| k_update_type_1
| k_on_message_begin
| k_update_finish.

(** The callbacks that are given a span. *)
Inductive span_cb : Type :=
| k_on_url
| k_on_header_field
| k_on_header_value
| k_on_body
| k_on_status.

(** ** Shapes *)

(** How a byte is read: [*p], or [*p] in lower case, or [*p | 0x20]. *)
Inductive transform : Type := match_id | to_lower | to_lower_unsafe.

(** [p++], the value given to the variable match, the label. *)
Inductive edge : Type := Edge (advance : bool) (set_match : option Z) (next : llparse_state).

Definition go (l : llparse_state) : edge := Edge false None l.
Definition adv (l : llparse_state) : edge := Edge true None l.
Definition go_match (m : Z) (l : llparse_state) : edge := Edge false (Some m) l.
Definition adv_match (m : Z) (l : llparse_state) : edge := Edge true (Some m) l.

(** A case of a switch has all the numbers that share its body. *)
Inductive node : Type :=
| Switch (how : transform) (cases : list (list Z * edge)) (otherwise : edge)
| Lookup (lookup_table : list Z) (cases : list (list Z * edge)) (otherwise : edge)
| Skip (next : llparse_state)
| Sequence (how : transform) (blob : list Z) (complete mismatch : edge)
| Consume (next : llparse_state)
| SpanStart (cb : span_cb) (next : llparse_state)
| SpanEnd (cb : span_cb) (e : edge)
| Invoke (f : llparse_code) (cases : list (list Z * llparse_state)) (otherwise : llparse_state)
| Fault (code : Z) (reason : string) (current : llparse_state)
| Unreachable.

(** ** Blocks *)

Definition n_closed : node := Skip s_n_closed.
Definition n_invoke_llhttp__after_message_complete : node :=
  Invoke k_after_message_complete [([1], s_n_invoke_update_finish_2)] s_n_invoke_update_finish_1.
Definition n_pause_1 : node := Fault 22 "Pause on CONNECT/Upgrade" s_n_invoke_llhttp__after_message_complete.
Definition n_invoke_is_equal_upgrade : node :=
  Invoke k_is_equal_upgrade [([0], s_n_invoke_llhttp__after_message_complete)] s_n_pause_1.
Definition n_invoke_llhttp__on_message_complete_2 : node :=
  Invoke k_on_message_complete [([0], s_n_invoke_is_equal_upgrade); ([21], s_n_pause_5)] s_n_error_10.
Definition n_chunk_data_almost_done_skip : node := Skip s_n_invoke_llhttp__on_chunk_complete.
Definition n_chunk_data_almost_done : node := Skip s_n_chunk_data_almost_done_skip.
Definition n_consume_content_length : node := Consume s_n_span_end_llhttp__on_body.
Definition n_span_start_llhttp__on_body : node := SpanStart k_on_body s_n_consume_content_length.
Definition n_invoke_is_equal_content_length : node :=
  Invoke k_is_equal_content_length [([0], s_n_span_start_llhttp__on_body)] s_n_invoke_or_flags.
Definition n_chunk_size_almost_done : node := Skip s_n_invoke_llhttp__on_chunk_header.
Definition n_chunk_parameters : node :=
  Lookup
    [0; 0; 0; 0; 0; 0; 0; 0; 0; 1; 0; 0; 0; 2; 0; 0; 0; 0; 0; 0; 0; 0; 0; 0; 0; 0; 0; 0; 0; 0; 0; 0;
     1; 1; 1; 1; 1; 1; 1; 1; 1; 1; 1; 1; 1; 1; 1; 1; 1; 1; 1; 1; 1; 1; 1; 1; 1; 1; 1; 1; 1; 1; 1; 1;
     1; 1; 1; 1; 1; 1; 1; 1; 1; 1; 1; 1; 1; 1; 1; 1; 1; 1; 1; 1; 1; 1; 1; 1; 1; 1; 1; 1; 1; 1; 1; 1;
     1; 1; 1; 1; 1; 1; 1; 1; 1; 1; 1; 1; 1; 1; 1; 1; 1; 1; 1; 1; 1; 1; 1; 1; 1; 1; 1; 1; 1; 1; 1; 0;
     1; 1; 1; 1; 1; 1; 1; 1; 1; 1; 1; 1; 1; 1; 1; 1; 1; 1; 1; 1; 1; 1; 1; 1; 1; 1; 1; 1; 1; 1; 1; 1;
     1; 1; 1; 1; 1; 1; 1; 1; 1; 1; 1; 1; 1; 1; 1; 1; 1; 1; 1; 1; 1; 1; 1; 1; 1; 1; 1; 1; 1; 1; 1; 1;
     1; 1; 1; 1; 1; 1; 1; 1; 1; 1; 1; 1; 1; 1; 1; 1; 1; 1; 1; 1; 1; 1; 1; 1; 1; 1; 1; 1; 1; 1; 1; 1;
     1; 1; 1; 1; 1; 1; 1; 1; 1; 1; 1; 1; 1; 1; 1; 1; 1; 1; 1; 1; 1; 1; 1; 1; 1; 1; 1; 1; 1; 1; 1; 1]
    [([1], adv s_n_chunk_parameters); ([2], adv s_n_chunk_size_almost_done)] (go s_n_error_6).
Definition n_chunk_size_otherwise : node :=
  Switch match_id
    [([13], adv s_n_chunk_size_almost_done); (lit " ;", adv s_n_chunk_parameters)]
    (go s_n_error_7).
Definition n_chunk_size : node :=
  Switch match_id
    [(lit "0", adv_match 0 s_n_invoke_mul_add_content_length);
     (lit "1", adv_match 1 s_n_invoke_mul_add_content_length);
     (lit "2", adv_match 2 s_n_invoke_mul_add_content_length);
     (lit "3", adv_match 3 s_n_invoke_mul_add_content_length);
     (lit "4", adv_match 4 s_n_invoke_mul_add_content_length);
     (lit "5", adv_match 5 s_n_invoke_mul_add_content_length);
     (lit "6", adv_match 6 s_n_invoke_mul_add_content_length);
     (lit "7", adv_match 7 s_n_invoke_mul_add_content_length);
     (lit "8", adv_match 8 s_n_invoke_mul_add_content_length);
     (lit "9", adv_match 9 s_n_invoke_mul_add_content_length);
     (lit "Aa", adv_match 10 s_n_invoke_mul_add_content_length);
     (lit "Bb", adv_match 11 s_n_invoke_mul_add_content_length);
     (lit "Cc", adv_match 12 s_n_invoke_mul_add_content_length);
     (lit "Dd", adv_match 13 s_n_invoke_mul_add_content_length);
     (lit "Ee", adv_match 14 s_n_invoke_mul_add_content_length);
     (lit "Ff", adv_match 15 s_n_invoke_mul_add_content_length)]
    (go s_n_chunk_size_otherwise).
Definition n_chunk_size_digit : node :=
  Switch match_id
    [(lit "0", adv_match 0 s_n_invoke_mul_add_content_length);
     (lit "1", adv_match 1 s_n_invoke_mul_add_content_length);
     (lit "2", adv_match 2 s_n_invoke_mul_add_content_length);
     (lit "3", adv_match 3 s_n_invoke_mul_add_content_length);
     (lit "4", adv_match 4 s_n_invoke_mul_add_content_length);
     (lit "5", adv_match 5 s_n_invoke_mul_add_content_length);
     (lit "6", adv_match 6 s_n_invoke_mul_add_content_length);
     (lit "7", adv_match 7 s_n_invoke_mul_add_content_length);
     (lit "8", adv_match 8 s_n_invoke_mul_add_content_length);
     (lit "9", adv_match 9 s_n_invoke_mul_add_content_length);
     (lit "Aa", adv_match 10 s_n_invoke_mul_add_content_length);
     (lit "Bb", adv_match 11 s_n_invoke_mul_add_content_length);
     (lit "Cc", adv_match 12 s_n_invoke_mul_add_content_length);
     (lit "Dd", adv_match 13 s_n_invoke_mul_add_content_length);
     (lit "Ee", adv_match 14 s_n_invoke_mul_add_content_length);
     (lit "Ff", adv_match 15 s_n_invoke_mul_add_content_length)]
    (go s_n_error_9).
Definition n_invoke_update_content_length : node := Invoke k_update_content_length [] s_n_chunk_size_digit.
Definition n_consume_content_length_1 : node := Consume s_n_span_end_llhttp__on_body_1.
Definition n_span_start_llhttp__on_body_1 : node := SpanStart k_on_body s_n_consume_content_length_1.
Definition n_eof : node := Skip s_n_eof.
Definition n_span_start_llhttp__on_body_2 : node := SpanStart k_on_body s_n_eof.
Definition n_invoke_llhttp__after_headers_complete : node :=
  Invoke k_after_headers_complete [([1], s_n_invoke_llhttp__on_message_complete_1); ([2], s_n_invoke_update_content_length);
    ([3], s_n_span_start_llhttp__on_body_1); ([4], s_n_invoke_update_finish_3); ([5], s_n_error_11)] s_n_invoke_llhttp__on_message_complete.
Definition n_headers_almost_done : node := Skip s_n_invoke_test_flags.
Definition n_header_field_colon_discard_ws : node :=
  Switch match_id [(lit " ", adv s_n_header_field_colon_discard_ws)] (go s_n_header_field_colon).
Definition n_error_14 : node := Fault 10 "Invalid header field char" s_error.
Definition n_invoke_llhttp__on_header_value_complete : node :=
  Invoke k_on_header_value_complete [] s_n_header_field_start.
Definition n_span_start_llhttp__on_header_value : node :=
  SpanStart k_on_header_value s_n_span_end_llhttp__on_header_value.
Definition n_header_value_discard_lws : node :=
  Switch match_id [([9; 32], adv s_n_header_value_discard_ws)] (go s_n_invoke_load_header_state).
Definition n_header_value_discard_ws_almost_done : node := Skip s_n_header_value_discard_lws.
Definition n_header_value_lws : node :=
  Switch match_id
    [([9; 32], go s_n_span_start_llhttp__on_header_value_1)]
    (go s_n_invoke_load_header_state_3).
Definition n_header_value_almost_done : node := Switch match_id [([10], adv s_n_header_value_lws)] (go s_n_error_16).
Definition n_header_value_lenient : node :=
  Switch match_id
    [([10], go s_n_span_end_llhttp__on_header_value_1); ([13], go s_n_span_end_llhttp__on_header_value_3)]
    (adv s_n_header_value_lenient).
Definition n_header_value_otherwise : node :=
  Switch match_id
    [([10], go s_n_span_end_llhttp__on_header_value_1); ([13], go s_n_span_end_llhttp__on_header_value_2)]
    (go s_n_invoke_test_lenient_flags_3).
Definition n_header_value_connection_token : node :=
  Lookup
    [0; 0; 0; 0; 0; 0; 0; 0; 0; 1; 0; 0; 0; 0; 0; 0; 0; 0; 0; 0; 0; 0; 0; 0; 0; 0; 0; 0; 0; 0; 0; 0;
     1; 1; 1; 1; 1; 1; 1; 1; 1; 1; 1; 1; 2; 1; 1; 1; 1; 1; 1; 1; 1; 1; 1; 1; 1; 1; 1; 1; 1; 1; 1; 1;
     1; 1; 1; 1; 1; 1; 1; 1; 1; 1; 1; 1; 1; 1; 1; 1; 1; 1; 1; 1; 1; 1; 1; 1; 1; 1; 1; 1; 1; 1; 1; 1;
     1; 1; 1; 1; 1; 1; 1; 1; 1; 1; 1; 1; 1; 1; 1; 1; 1; 1; 1; 1; 1; 1; 1; 1; 1; 1; 1; 1; 1; 1; 1; 0;
     1; 1; 1; 1; 1; 1; 1; 1; 1; 1; 1; 1; 1; 1; 1; 1; 1; 1; 1; 1; 1; 1; 1; 1; 1; 1; 1; 1; 1; 1; 1; 1;
     1; 1; 1; 1; 1; 1; 1; 1; 1; 1; 1; 1; 1; 1; 1; 1; 1; 1; 1; 1; 1; 1; 1; 1; 1; 1; 1; 1; 1; 1; 1; 1;
     1; 1; 1; 1; 1; 1; 1; 1; 1; 1; 1; 1; 1; 1; 1; 1; 1; 1; 1; 1; 1; 1; 1; 1; 1; 1; 1; 1; 1; 1; 1; 1;
     1; 1; 1; 1; 1; 1; 1; 1; 1; 1; 1; 1; 1; 1; 1; 1; 1; 1; 1; 1; 1; 1; 1; 1; 1; 1; 1; 1; 1; 1; 1; 1]
    [([1], adv s_n_header_value_connection_token); ([2], adv s_n_header_value_connection)] (go s_n_header_value_otherwise).
Definition n_header_value_connection_ws : node :=
  Switch match_id
    [([10; 13], go s_n_header_value_otherwise); (lit " ", adv s_n_header_value_connection_ws);
     (lit ",", adv s_n_invoke_load_header_state_4)]
    (go s_n_invoke_update_header_state_4).
Definition n_header_value_connection_1 : node :=
  Sequence to_lower (lit "lose") (adv s_n_invoke_update_header_state_2) (go s_n_header_value_connection_token).
Definition n_header_value_connection_2 : node :=
  Sequence to_lower (lit "eep-alive") (adv s_n_invoke_update_header_state_5) (go s_n_header_value_connection_token).
Definition n_header_value_connection_3 : node :=
  Sequence to_lower (lit "pgrade") (adv s_n_invoke_update_header_state_6) (go s_n_header_value_connection_token).
Definition n_header_value_connection : node :=
  Switch to_lower
    [([9; 32], adv s_n_header_value_connection); (lit "c", adv s_n_header_value_connection_1);
     (lit "k", adv s_n_header_value_connection_2); (lit "u", adv s_n_header_value_connection_3)]
    (go s_n_header_value_connection_token).
Definition n_error_19 : node := Fault 11 "Content-Length overflow" s_error.
Definition n_error_20 : node := Fault 11 "Invalid character in Content-Length" s_error.
Definition n_header_value_content_length_ws : node :=
  Switch match_id
    [([10; 13], go s_n_invoke_or_flags_15); (lit " ", adv s_n_header_value_content_length_ws)]
    (go s_n_span_end_llhttp__on_header_value_5).
Definition n_header_value_content_length : node :=
  Switch match_id
    [(lit "0", adv_match 0 s_n_invoke_mul_add_content_length_1);
     (lit "1", adv_match 1 s_n_invoke_mul_add_content_length_1);
     (lit "2", adv_match 2 s_n_invoke_mul_add_content_length_1);
     (lit "3", adv_match 3 s_n_invoke_mul_add_content_length_1);
     (lit "4", adv_match 4 s_n_invoke_mul_add_content_length_1);
     (lit "5", adv_match 5 s_n_invoke_mul_add_content_length_1);
     (lit "6", adv_match 6 s_n_invoke_mul_add_content_length_1);
     (lit "7", adv_match 7 s_n_invoke_mul_add_content_length_1);
     (lit "8", adv_match 8 s_n_invoke_mul_add_content_length_1);
     (lit "9", adv_match 9 s_n_invoke_mul_add_content_length_1)]
    (go s_n_header_value_content_length_ws).
Definition n_header_value_te_chunked_last : node :=
  Switch match_id
    [([10; 13], go s_n_invoke_update_header_state_7); (lit " ", adv s_n_header_value_te_chunked_last)]
    (go s_n_header_value_te_chunked).
Definition n_header_value_te_token_ows : node :=
  Switch match_id [([9; 32], adv s_n_header_value_te_token_ows)] (go s_n_header_value_te_chunked).
Definition n_header_value : node :=
  Lookup
    [0; 0; 0; 0; 0; 0; 0; 0; 0; 1; 0; 0; 0; 0; 0; 0; 0; 0; 0; 0; 0; 0; 0; 0; 0; 0; 0; 0; 0; 0; 0; 0;
     1; 1; 1; 1; 1; 1; 1; 1; 1; 1; 1; 1; 1; 1; 1; 1; 1; 1; 1; 1; 1; 1; 1; 1; 1; 1; 1; 1; 1; 1; 1; 1;
     1; 1; 1; 1; 1; 1; 1; 1; 1; 1; 1; 1; 1; 1; 1; 1; 1; 1; 1; 1; 1; 1; 1; 1; 1; 1; 1; 1; 1; 1; 1; 1;
     1; 1; 1; 1; 1; 1; 1; 1; 1; 1; 1; 1; 1; 1; 1; 1; 1; 1; 1; 1; 1; 1; 1; 1; 1; 1; 1; 1; 1; 1; 1; 0;
     1; 1; 1; 1; 1; 1; 1; 1; 1; 1; 1; 1; 1; 1; 1; 1; 1; 1; 1; 1; 1; 1; 1; 1; 1; 1; 1; 1; 1; 1; 1; 1;
     1; 1; 1; 1; 1; 1; 1; 1; 1; 1; 1; 1; 1; 1; 1; 1; 1; 1; 1; 1; 1; 1; 1; 1; 1; 1; 1; 1; 1; 1; 1; 1;
     1; 1; 1; 1; 1; 1; 1; 1; 1; 1; 1; 1; 1; 1; 1; 1; 1; 1; 1; 1; 1; 1; 1; 1; 1; 1; 1; 1; 1; 1; 1; 1;
     1; 1; 1; 1; 1; 1; 1; 1; 1; 1; 1; 1; 1; 1; 1; 1; 1; 1; 1; 1; 1; 1; 1; 1; 1; 1; 1; 1; 1; 1; 1; 1]
    [([1], adv s_n_header_value)] (go s_n_header_value_otherwise).
Definition n_header_value_te_token : node :=
  Lookup
    [0; 0; 0; 0; 0; 0; 0; 0; 0; 1; 0; 0; 0; 0; 0; 0; 0; 0; 0; 0; 0; 0; 0; 0; 0; 0; 0; 0; 0; 0; 0; 0;
     1; 1; 1; 1; 1; 1; 1; 1; 1; 1; 1; 1; 2; 1; 1; 1; 1; 1; 1; 1; 1; 1; 1; 1; 1; 1; 1; 1; 1; 1; 1; 1;
     1; 1; 1; 1; 1; 1; 1; 1; 1; 1; 1; 1; 1; 1; 1; 1; 1; 1; 1; 1; 1; 1; 1; 1; 1; 1; 1; 1; 1; 1; 1; 1;
     1; 1; 1; 1; 1; 1; 1; 1; 1; 1; 1; 1; 1; 1; 1; 1; 1; 1; 1; 1; 1; 1; 1; 1; 1; 1; 1; 1; 1; 1; 1; 0;
     1; 1; 1; 1; 1; 1; 1; 1; 1; 1; 1; 1; 1; 1; 1; 1; 1; 1; 1; 1; 1; 1; 1; 1; 1; 1; 1; 1; 1; 1; 1; 1;
     1; 1; 1; 1; 1; 1; 1; 1; 1; 1; 1; 1; 1; 1; 1; 1; 1; 1; 1; 1; 1; 1; 1; 1; 1; 1; 1; 1; 1; 1; 1; 1;
     1; 1; 1; 1; 1; 1; 1; 1; 1; 1; 1; 1; 1; 1; 1; 1; 1; 1; 1; 1; 1; 1; 1; 1; 1; 1; 1; 1; 1; 1; 1; 1;
     1; 1; 1; 1; 1; 1; 1; 1; 1; 1; 1; 1; 1; 1; 1; 1; 1; 1; 1; 1; 1; 1; 1; 1; 1; 1; 1; 1; 1; 1; 1; 1]
    [([1], adv s_n_header_value_te_token); ([2], adv s_n_header_value_te_token_ows)] (go s_n_invoke_update_header_state_8).
Definition n_header_value_te_chunked : node :=
  Sequence to_lower_unsafe (lit "chunked") (adv s_n_header_value_te_chunked_last) (go s_n_header_value_te_token).
Definition n_span_start_llhttp__on_header_value_1 : node := SpanStart k_on_header_value s_n_invoke_load_header_state_2.
Definition n_header_value_discard_ws : node :=
  Switch match_id
    [([9; 32], adv s_n_header_value_discard_ws); ([10], adv s_n_header_value_discard_lws);
     ([13], adv s_n_header_value_discard_ws_almost_done)]
    (go s_n_span_start_llhttp__on_header_value_1).
Definition n_invoke_llhttp__on_header_field_complete : node :=
  Invoke k_on_header_field_complete [] s_n_header_value_discard_ws.
Definition n_header_field_general_otherwise : node :=
  Switch match_id [(lit ":", go s_n_span_end_llhttp__on_header_field_2)] (go s_n_error_21).
Definition n_header_field_general : node :=
  Lookup
    [0; 0; 0; 0; 0; 0; 0; 0; 0; 0; 0; 0; 0; 0; 0; 0; 0; 0; 0; 0; 0; 0; 0; 0; 0; 0; 0; 0; 0; 0; 0; 0;
     1; 1; 0; 1; 1; 1; 1; 1; 0; 0; 1; 1; 0; 1; 1; 0; 1; 1; 1; 1; 1; 1; 1; 1; 1; 1; 0; 0; 0; 0; 0; 0;
     0; 1; 1; 1; 1; 1; 1; 1; 1; 1; 1; 1; 1; 1; 1; 1; 1; 1; 1; 1; 1; 1; 1; 1; 1; 1; 1; 0; 0; 0; 1; 1;
     1; 1; 1; 1; 1; 1; 1; 1; 1; 1; 1; 1; 1; 1; 1; 1; 1; 1; 1; 1; 1; 1; 1; 1; 1; 1; 1; 0; 1; 0; 1; 0;
     0; 0; 0; 0; 0; 0; 0; 0; 0; 0; 0; 0; 0; 0; 0; 0; 0; 0; 0; 0; 0; 0; 0; 0; 0; 0; 0; 0; 0; 0; 0; 0;
     0; 0; 0; 0; 0; 0; 0; 0; 0; 0; 0; 0; 0; 0; 0; 0; 0; 0; 0; 0; 0; 0; 0; 0; 0; 0; 0; 0; 0; 0; 0; 0;
     0; 0; 0; 0; 0; 0; 0; 0; 0; 0; 0; 0; 0; 0; 0; 0; 0; 0; 0; 0; 0; 0; 0; 0; 0; 0; 0; 0; 0; 0; 0; 0;
     0; 0; 0; 0; 0; 0; 0; 0; 0; 0; 0; 0; 0; 0; 0; 0; 0; 0; 0; 0; 0; 0; 0; 0; 0; 0; 0; 0; 0; 0; 0; 0]
    [([1], adv s_n_header_field_general)] (go s_n_header_field_general_otherwise).
Definition n_header_field_colon : node :=
  Switch match_id
    [(lit " ", go s_n_invoke_test_lenient_flags_2); (lit ":", go s_n_span_end_llhttp__on_header_field_1)]
    (go s_n_invoke_update_header_state_9).
Definition n_header_field_3 : node :=
  Sequence to_lower (lit "ection") (adv_match 1 s_n_invoke_store_header_state) (go s_n_invoke_update_header_state_10).
Definition n_header_field_4 : node :=
  Sequence to_lower (lit "ent-length") (adv_match 2 s_n_invoke_store_header_state) (go s_n_invoke_update_header_state_10).
Definition n_header_field_2 : node :=
  Switch to_lower
    [(lit "n", adv s_n_header_field_3); (lit "t", adv s_n_header_field_4)]
    (go s_n_invoke_update_header_state_10).
Definition n_header_field_1 : node :=
  Sequence to_lower (lit "on") (adv s_n_header_field_2) (go s_n_invoke_update_header_state_10).
Definition n_header_field_5 : node :=
  Sequence to_lower (lit "roxy-connection") (adv_match 1 s_n_invoke_store_header_state) (go s_n_invoke_update_header_state_10).
Definition n_header_field_6 : node :=
  Sequence to_lower (lit "ransfer-encoding") (adv_match 3 s_n_invoke_store_header_state) (go s_n_invoke_update_header_state_10).
Definition n_header_field_7 : node :=
  Sequence to_lower (lit "pgrade") (adv_match 4 s_n_invoke_store_header_state) (go s_n_invoke_update_header_state_10).
Definition n_header_field : node :=
  Switch to_lower
    [(lit "c", adv s_n_header_field_1); (lit "p", adv s_n_header_field_5); (lit "t", adv s_n_header_field_6);
     (lit "u", adv s_n_header_field_7)]
    (go s_n_invoke_update_header_state_10).
Definition n_span_start_llhttp__on_header_field : node := SpanStart k_on_header_field s_n_header_field.
Definition n_header_field_start : node :=
  Switch match_id
    [([10], go s_n_headers_almost_done); ([13], adv s_n_headers_almost_done)]
    (go s_n_span_start_llhttp__on_header_field).
Definition n_url_skip_to_http09 : node := Skip s_n_invoke_update_http_major.
Definition n_url_skip_lf_to_http09 : node :=
  Sequence match_id ([13; 10]) (adv s_n_invoke_update_http_major) (go s_n_error_22).
Definition n_req_pri_upgrade : node :=
  Sequence match_id ([13; 10; 13; 10; 83; 77; 13; 10; 13; 10]) (adv s_n_error_25) (go s_n_error_26).
Definition n_req_http_complete_1 : node := Switch match_id [([10], adv s_n_header_field_start)] (go s_n_error_24).
Definition n_req_http_complete : node :=
  Switch match_id
    [([10], adv s_n_header_field_start); ([13], adv s_n_req_http_complete_1)]
    (go s_n_error_24).
Definition n_req_http_minor : node :=
  Switch match_id
    [(lit "0", adv_match 0 s_n_invoke_store_http_minor); (lit "1", adv_match 1 s_n_invoke_store_http_minor);
     (lit "2", adv_match 2 s_n_invoke_store_http_minor); (lit "3", adv_match 3 s_n_invoke_store_http_minor);
     (lit "4", adv_match 4 s_n_invoke_store_http_minor); (lit "5", adv_match 5 s_n_invoke_store_http_minor);
     (lit "6", adv_match 6 s_n_invoke_store_http_minor); (lit "7", adv_match 7 s_n_invoke_store_http_minor);
     (lit "8", adv_match 8 s_n_invoke_store_http_minor); (lit "9", adv_match 9 s_n_invoke_store_http_minor)]
    (go s_n_error_27).
Definition n_req_http_dot : node := Switch match_id [(lit ".", adv s_n_req_http_minor)] (go s_n_error_28).
Definition n_req_http_major : node :=
  Switch match_id
    [(lit "0", adv_match 0 s_n_invoke_store_http_major); (lit "1", adv_match 1 s_n_invoke_store_http_major);
     (lit "2", adv_match 2 s_n_invoke_store_http_major); (lit "3", adv_match 3 s_n_invoke_store_http_major);
     (lit "4", adv_match 4 s_n_invoke_store_http_major); (lit "5", adv_match 5 s_n_invoke_store_http_major);
     (lit "6", adv_match 6 s_n_invoke_store_http_major); (lit "7", adv_match 7 s_n_invoke_store_http_major);
     (lit "8", adv_match 8 s_n_invoke_store_http_major); (lit "9", adv_match 9 s_n_invoke_store_http_major)]
    (go s_n_error_29).
Definition n_req_http_start_1 : node := Sequence match_id (lit "TTP/") (adv s_n_invoke_load_method) (go s_n_error_32).
Definition n_req_http_start_2 : node := Sequence match_id (lit "CE/") (adv s_n_invoke_load_method_2) (go s_n_error_32).
Definition n_req_http_start_3 : node := Sequence match_id (lit "TSP/") (adv s_n_invoke_load_method_3) (go s_n_error_32).
Definition n_req_http_start : node :=
  Switch match_id
    [(lit " ", adv s_n_req_http_start); (lit "H", adv s_n_req_http_start_1); (lit "I", adv s_n_req_http_start_2);
     (lit "R", adv s_n_req_http_start_3)]
    (go s_n_error_32).
Definition n_url_skip_to_http : node := Skip s_n_invoke_llhttp__on_url_complete_1.
Definition n_url_fragment : node :=
  Lookup
    [0; 0; 0; 0; 0; 0; 0; 0; 0; 1; 2; 0; 1; 3; 0; 0; 0; 0; 0; 0; 0; 0; 0; 0; 0; 0; 0; 0; 0; 0; 0; 0;
     4; 1; 1; 1; 1; 1; 1; 1; 1; 1; 1; 1; 1; 1; 1; 1; 1; 1; 1; 1; 1; 1; 1; 1; 1; 1; 1; 1; 1; 1; 1; 1;
     1; 1; 1; 1; 1; 1; 1; 1; 1; 1; 1; 1; 1; 1; 1; 1; 1; 1; 1; 1; 1; 1; 1; 1; 1; 1; 1; 1; 1; 1; 1; 1;
     1; 1; 1; 1; 1; 1; 1; 1; 1; 1; 1; 1; 1; 1; 1; 1; 1; 1; 1; 1; 1; 1; 1; 1; 1; 1; 1; 1; 1; 1; 1; 0;
     1; 1; 1; 1; 1; 1; 1; 1; 1; 1; 1; 1; 1; 1; 1; 1; 1; 1; 1; 1; 1; 1; 1; 1; 1; 1; 1; 1; 1; 1; 1; 1;
     1; 1; 1; 1; 1; 1; 1; 1; 1; 1; 1; 1; 1; 1; 1; 1; 1; 1; 1; 1; 1; 1; 1; 1; 1; 1; 1; 1; 1; 1; 1; 1;
     1; 1; 1; 1; 1; 1; 1; 1; 1; 1; 1; 1; 1; 1; 1; 1; 1; 1; 1; 1; 1; 1; 1; 1; 1; 1; 1; 1; 1; 1; 1; 1;
     1; 1; 1; 1; 1; 1; 1; 1; 1; 1; 1; 1; 1; 1; 1; 1; 1; 1; 1; 1; 1; 1; 1; 1; 1; 1; 1; 1; 1; 1; 1; 1]
    [([1], adv s_n_url_fragment); ([2], go s_n_span_end_llhttp__on_url_6); ([3], go s_n_span_end_llhttp__on_url_7);
     ([4], go s_n_span_end_llhttp__on_url_8)] (go s_n_error_33).
Definition n_span_end_stub_query_3 : node := Skip s_n_url_fragment.
Definition n_url_query : node :=
  Lookup
    [0; 0; 0; 0; 0; 0; 0; 0; 0; 1; 2; 0; 1; 3; 0; 0; 0; 0; 0; 0; 0; 0; 0; 0; 0; 0; 0; 0; 0; 0; 0; 0;
     4; 1; 1; 5; 1; 1; 1; 1; 1; 1; 1; 1; 1; 1; 1; 1; 1; 1; 1; 1; 1; 1; 1; 1; 1; 1; 1; 1; 1; 1; 1; 1;
     1; 1; 1; 1; 1; 1; 1; 1; 1; 1; 1; 1; 1; 1; 1; 1; 1; 1; 1; 1; 1; 1; 1; 1; 1; 1; 1; 1; 1; 1; 1; 1;
     1; 1; 1; 1; 1; 1; 1; 1; 1; 1; 1; 1; 1; 1; 1; 1; 1; 1; 1; 1; 1; 1; 1; 1; 1; 1; 1; 1; 1; 1; 1; 0;
     1; 1; 1; 1; 1; 1; 1; 1; 1; 1; 1; 1; 1; 1; 1; 1; 1; 1; 1; 1; 1; 1; 1; 1; 1; 1; 1; 1; 1; 1; 1; 1;
     1; 1; 1; 1; 1; 1; 1; 1; 1; 1; 1; 1; 1; 1; 1; 1; 1; 1; 1; 1; 1; 1; 1; 1; 1; 1; 1; 1; 1; 1; 1; 1;
     1; 1; 1; 1; 1; 1; 1; 1; 1; 1; 1; 1; 1; 1; 1; 1; 1; 1; 1; 1; 1; 1; 1; 1; 1; 1; 1; 1; 1; 1; 1; 1;
     1; 1; 1; 1; 1; 1; 1; 1; 1; 1; 1; 1; 1; 1; 1; 1; 1; 1; 1; 1; 1; 1; 1; 1; 1; 1; 1; 1; 1; 1; 1; 1]
    [([1], adv s_n_url_query); ([2], go s_n_span_end_llhttp__on_url_9); ([3], go s_n_span_end_llhttp__on_url_10);
     ([4], go s_n_span_end_llhttp__on_url_11); ([5], go s_n_span_end_stub_query_3)] (go s_n_error_34).
Definition n_url_query_or_fragment : node :=
  Switch match_id
    [([10], go s_n_span_end_llhttp__on_url_3); ([13], go s_n_span_end_llhttp__on_url_4);
     (lit " ", go s_n_span_end_llhttp__on_url_5); (lit "#", adv s_n_url_fragment); (lit "?", adv s_n_url_query)]
    (go s_n_error_35).
Definition n_url_path : node :=
  Lookup
    [0; 0; 0; 0; 0; 0; 0; 0; 0; 1; 0; 0; 1; 0; 0; 0; 0; 0; 0; 0; 0; 0; 0; 0; 0; 0; 0; 0; 0; 0; 0; 0;
     0; 1; 1; 0; 1; 1; 1; 1; 1; 1; 1; 1; 1; 1; 1; 1; 1; 1; 1; 1; 1; 1; 1; 1; 1; 1; 1; 1; 1; 1; 1; 0;
     1; 1; 1; 1; 1; 1; 1; 1; 1; 1; 1; 1; 1; 1; 1; 1; 1; 1; 1; 1; 1; 1; 1; 1; 1; 1; 1; 1; 1; 1; 1; 1;
     1; 1; 1; 1; 1; 1; 1; 1; 1; 1; 1; 1; 1; 1; 1; 1; 1; 1; 1; 1; 1; 1; 1; 1; 1; 1; 1; 1; 1; 1; 1; 0;
     1; 1; 1; 1; 1; 1; 1; 1; 1; 1; 1; 1; 1; 1; 1; 1; 1; 1; 1; 1; 1; 1; 1; 1; 1; 1; 1; 1; 1; 1; 1; 1;
     1; 1; 1; 1; 1; 1; 1; 1; 1; 1; 1; 1; 1; 1; 1; 1; 1; 1; 1; 1; 1; 1; 1; 1; 1; 1; 1; 1; 1; 1; 1; 1;
     1; 1; 1; 1; 1; 1; 1; 1; 1; 1; 1; 1; 1; 1; 1; 1; 1; 1; 1; 1; 1; 1; 1; 1; 1; 1; 1; 1; 1; 1; 1; 1;
     1; 1; 1; 1; 1; 1; 1; 1; 1; 1; 1; 1; 1; 1; 1; 1; 1; 1; 1; 1; 1; 1; 1; 1; 1; 1; 1; 1; 1; 1; 1; 1]
    [([1], adv s_n_url_path)] (go s_n_url_query_or_fragment).
Definition n_span_start_stub_path_2 : node := Skip s_n_url_path.
Definition n_span_start_stub_path : node := Skip s_n_url_path.
Definition n_span_start_stub_path_1 : node := Skip s_n_url_path.
Definition n_url_server_with_at : node :=
  Lookup
    [0; 0; 0; 0; 0; 0; 0; 0; 0; 0; 1; 0; 0; 2; 0; 0; 0; 0; 0; 0; 0; 0; 0; 0; 0; 0; 0; 0; 0; 0; 0; 0;
     3; 4; 0; 0; 4; 4; 4; 4; 4; 4; 4; 4; 4; 4; 4; 5; 4; 4; 4; 4; 4; 4; 4; 4; 4; 4; 4; 4; 0; 4; 0; 6;
     7; 4; 4; 4; 4; 4; 4; 4; 4; 4; 4; 4; 4; 4; 4; 4; 4; 4; 4; 4; 4; 4; 4; 4; 4; 4; 4; 4; 0; 4; 0; 4;
     0; 4; 4; 4; 4; 4; 4; 4; 4; 4; 4; 4; 4; 4; 4; 4; 4; 4; 4; 4; 4; 4; 4; 4; 4; 4; 4; 0; 0; 0; 4; 0;
     0; 0; 0; 0; 0; 0; 0; 0; 0; 0; 0; 0; 0; 0; 0; 0; 0; 0; 0; 0; 0; 0; 0; 0; 0; 0; 0; 0; 0; 0; 0; 0;
     0; 0; 0; 0; 0; 0; 0; 0; 0; 0; 0; 0; 0; 0; 0; 0; 0; 0; 0; 0; 0; 0; 0; 0; 0; 0; 0; 0; 0; 0; 0; 0;
     0; 0; 0; 0; 0; 0; 0; 0; 0; 0; 0; 0; 0; 0; 0; 0; 0; 0; 0; 0; 0; 0; 0; 0; 0; 0; 0; 0; 0; 0; 0; 0;
     0; 0; 0; 0; 0; 0; 0; 0; 0; 0; 0; 0; 0; 0; 0; 0; 0; 0; 0; 0; 0; 0; 0; 0; 0; 0; 0; 0; 0; 0; 0; 0]
    [([1], go s_n_span_end_llhttp__on_url_12); ([2], go s_n_span_end_llhttp__on_url_13);
     ([3], go s_n_span_end_llhttp__on_url_14); ([4], adv s_n_url_server); ([5], go s_n_span_start_stub_path_1);
     ([6], adv s_n_url_query); ([7], adv s_n_error_36)] (go s_n_error_37).
Definition n_url_server : node :=
  Lookup
    [0; 0; 0; 0; 0; 0; 0; 0; 0; 0; 1; 0; 0; 2; 0; 0; 0; 0; 0; 0; 0; 0; 0; 0; 0; 0; 0; 0; 0; 0; 0; 0;
     3; 4; 0; 0; 4; 4; 4; 4; 4; 4; 4; 4; 4; 4; 4; 5; 4; 4; 4; 4; 4; 4; 4; 4; 4; 4; 4; 4; 0; 4; 0; 6;
     7; 4; 4; 4; 4; 4; 4; 4; 4; 4; 4; 4; 4; 4; 4; 4; 4; 4; 4; 4; 4; 4; 4; 4; 4; 4; 4; 4; 0; 4; 0; 4;
     0; 4; 4; 4; 4; 4; 4; 4; 4; 4; 4; 4; 4; 4; 4; 4; 4; 4; 4; 4; 4; 4; 4; 4; 4; 4; 4; 0; 0; 0; 4; 0;
     0; 0; 0; 0; 0; 0; 0; 0; 0; 0; 0; 0; 0; 0; 0; 0; 0; 0; 0; 0; 0; 0; 0; 0; 0; 0; 0; 0; 0; 0; 0; 0;
     0; 0; 0; 0; 0; 0; 0; 0; 0; 0; 0; 0; 0; 0; 0; 0; 0; 0; 0; 0; 0; 0; 0; 0; 0; 0; 0; 0; 0; 0; 0; 0;
     0; 0; 0; 0; 0; 0; 0; 0; 0; 0; 0; 0; 0; 0; 0; 0; 0; 0; 0; 0; 0; 0; 0; 0; 0; 0; 0; 0; 0; 0; 0; 0;
     0; 0; 0; 0; 0; 0; 0; 0; 0; 0; 0; 0; 0; 0; 0; 0; 0; 0; 0; 0; 0; 0; 0; 0; 0; 0; 0; 0; 0; 0; 0; 0]
    [([1], go s_n_span_end_llhttp__on_url); ([2], go s_n_span_end_llhttp__on_url_1);
     ([3], go s_n_span_end_llhttp__on_url_2); ([4], adv s_n_url_server); ([5], go s_n_span_start_stub_path);
     ([6], adv s_n_url_query); ([7], adv s_n_url_server_with_at)] (go s_n_error_38).
Definition n_url_schema_delim_1 : node := Switch match_id [(lit "/", adv s_n_url_server)] (go s_n_error_40).
Definition n_url_schema_delim : node :=
  Switch match_id
    [([10; 13; 32], adv s_n_error_39); (lit "/", adv s_n_url_schema_delim_1)]
    (go s_n_error_40).
Definition n_span_end_stub_schema : node := Skip s_n_url_schema_delim.
Definition n_url_schema : node :=
  Lookup
    [0; 0; 0; 0; 0; 0; 0; 0; 0; 0; 1; 0; 0; 1; 0; 0; 0; 0; 0; 0; 0; 0; 0; 0; 0; 0; 0; 0; 0; 0; 0; 0;
     1; 0; 0; 0; 0; 0; 0; 0; 0; 0; 0; 0; 0; 0; 0; 0; 0; 0; 0; 0; 0; 0; 0; 0; 0; 0; 2; 0; 0; 0; 0; 0;
     0; 3; 3; 3; 3; 3; 3; 3; 3; 3; 3; 3; 3; 3; 3; 3; 3; 3; 3; 3; 3; 3; 3; 3; 3; 3; 3; 0; 0; 0; 0; 0;
     0; 3; 3; 3; 3; 3; 3; 3; 3; 3; 3; 3; 3; 3; 3; 3; 3; 3; 3; 3; 3; 3; 3; 3; 3; 3; 3; 0; 0; 0; 0; 0;
     0; 0; 0; 0; 0; 0; 0; 0; 0; 0; 0; 0; 0; 0; 0; 0; 0; 0; 0; 0; 0; 0; 0; 0; 0; 0; 0; 0; 0; 0; 0; 0;
     0; 0; 0; 0; 0; 0; 0; 0; 0; 0; 0; 0; 0; 0; 0; 0; 0; 0; 0; 0; 0; 0; 0; 0; 0; 0; 0; 0; 0; 0; 0; 0;
     0; 0; 0; 0; 0; 0; 0; 0; 0; 0; 0; 0; 0; 0; 0; 0; 0; 0; 0; 0; 0; 0; 0; 0; 0; 0; 0; 0; 0; 0; 0; 0;
     0; 0; 0; 0; 0; 0; 0; 0; 0; 0; 0; 0; 0; 0; 0; 0; 0; 0; 0; 0; 0; 0; 0; 0; 0; 0; 0; 0; 0; 0; 0; 0]
    [([1], adv s_n_error_39); ([2], go s_n_span_end_stub_schema); ([3], adv s_n_url_schema)] (go s_n_error_41).
Definition n_url_start : node :=
  Lookup
    [0; 0; 0; 0; 0; 0; 0; 0; 0; 0; 1; 0; 0; 1; 0; 0; 0; 0; 0; 0; 0; 0; 0; 0; 0; 0; 0; 0; 0; 0; 0; 0;
     1; 0; 0; 0; 0; 0; 0; 0; 0; 0; 2; 0; 0; 0; 0; 2; 0; 0; 0; 0; 0; 0; 0; 0; 0; 0; 0; 0; 0; 0; 0; 0;
     0; 3; 3; 3; 3; 3; 3; 3; 3; 3; 3; 3; 3; 3; 3; 3; 3; 3; 3; 3; 3; 3; 3; 3; 3; 3; 3; 0; 0; 0; 0; 0;
     0; 3; 3; 3; 3; 3; 3; 3; 3; 3; 3; 3; 3; 3; 3; 3; 3; 3; 3; 3; 3; 3; 3; 3; 3; 3; 3; 0; 0; 0; 0; 0;
     0; 0; 0; 0; 0; 0; 0; 0; 0; 0; 0; 0; 0; 0; 0; 0; 0; 0; 0; 0; 0; 0; 0; 0; 0; 0; 0; 0; 0; 0; 0; 0;
     0; 0; 0; 0; 0; 0; 0; 0; 0; 0; 0; 0; 0; 0; 0; 0; 0; 0; 0; 0; 0; 0; 0; 0; 0; 0; 0; 0; 0; 0; 0; 0;
     0; 0; 0; 0; 0; 0; 0; 0; 0; 0; 0; 0; 0; 0; 0; 0; 0; 0; 0; 0; 0; 0; 0; 0; 0; 0; 0; 0; 0; 0; 0; 0;
     0; 0; 0; 0; 0; 0; 0; 0; 0; 0; 0; 0; 0; 0; 0; 0; 0; 0; 0; 0; 0; 0; 0; 0; 0; 0; 0; 0; 0; 0; 0; 0]
    [([1], adv s_n_error_39); ([2], go s_n_span_start_stub_path_2); ([3], go s_n_url_schema)] (go s_n_error_42).
Definition n_span_start_llhttp__on_url_1 : node := SpanStart k_on_url s_n_url_start.
Definition n_span_start_llhttp__on_url : node := SpanStart k_on_url s_n_url_server.
Definition n_req_spaces_before_url : node :=
  Switch match_id [(lit " ", adv s_n_req_spaces_before_url)] (go s_n_invoke_is_equal_method).
Definition n_req_first_space_before_url : node :=
  Switch match_id [(lit " ", adv s_n_req_spaces_before_url)] (go s_n_error_43).
Definition n_start_req_2 : node :=
  Switch match_id [(lit "L", adv_match 19 s_n_invoke_store_method_1)] (go s_n_error_51).
Definition n_start_req_3 : node :=
  Sequence match_id (lit "NOUNCE") (adv_match 36 s_n_invoke_store_method_1) (go s_n_error_51).
Definition n_start_req_1 : node :=
  Switch match_id
    [(lit "C", adv s_n_start_req_2); (lit "N", adv s_n_start_req_3)]
    (go s_n_error_51).
Definition n_start_req_4 : node :=
  Sequence match_id (lit "IND") (adv_match 16 s_n_invoke_store_method_1) (go s_n_error_51).
Definition n_start_req_6 : node :=
  Sequence match_id (lit "ECKOUT") (adv_match 22 s_n_invoke_store_method_1) (go s_n_error_51).
Definition n_start_req_8 : node :=
  Sequence match_id (lit "NECT") (adv_match 5 s_n_invoke_store_method_1) (go s_n_error_51).
Definition n_start_req_9 : node := Switch match_id [(lit "Y", adv_match 8 s_n_invoke_store_method_1)] (go s_n_error_51).
Definition n_start_req_7 : node :=
  Switch match_id
    [(lit "N", adv s_n_start_req_8); (lit "P", adv s_n_start_req_9)]
    (go s_n_error_51).
Definition n_start_req_5 : node :=
  Switch match_id
    [(lit "H", adv s_n_start_req_6); (lit "O", adv s_n_start_req_7)]
    (go s_n_error_51).
Definition n_start_req_12 : node :=
  Sequence match_id (lit "ETE") (adv_match 0 s_n_invoke_store_method_1) (go s_n_error_51).
Definition n_start_req_13 : node :=
  Sequence match_id (lit "CRIBE") (adv_match 35 s_n_invoke_store_method_1) (go s_n_error_51).
Definition n_start_req_11 : node :=
  Switch match_id
    [(lit "L", adv s_n_start_req_12); (lit "S", adv s_n_start_req_13)]
    (go s_n_error_51).
Definition n_start_req_10 : node := Switch match_id [(lit "E", adv s_n_start_req_11)] (go s_n_error_51).
Definition n_start_req_14 : node :=
  Sequence match_id (lit "LUSH") (adv_match 45 s_n_invoke_store_method_1) (go s_n_error_51).
Definition n_start_req_17 : node :=
  Sequence match_id (lit "PARAMETER") (adv_match 41 s_n_invoke_store_method_1) (go s_n_error_51).
Definition n_start_req_16 : node :=
  Switch match_id [(lit "_", adv s_n_start_req_17)] (go_match 1 s_n_invoke_store_method_1).
Definition n_start_req_15 : node := Sequence match_id (lit "ET") (adv s_n_start_req_16) (go s_n_error_51).
Definition n_start_req_18 : node :=
  Sequence match_id (lit "EAD") (adv_match 2 s_n_invoke_store_method_1) (go s_n_error_51).
Definition n_start_req_20 : node :=
  Sequence match_id (lit "NK") (adv_match 31 s_n_invoke_store_method_1) (go s_n_error_51).
Definition n_start_req_21 : node :=
  Sequence match_id (lit "CK") (adv_match 9 s_n_invoke_store_method_1) (go s_n_error_51).
Definition n_start_req_19 : node :=
  Switch match_id
    [(lit "I", adv s_n_start_req_20); (lit "O", adv s_n_start_req_21)]
    (go s_n_error_51).
Definition n_start_req_23 : node :=
  Sequence match_id (lit "SEARCH") (adv_match 24 s_n_invoke_store_method_1) (go s_n_error_51).
Definition n_start_req_24 : node :=
  Sequence match_id (lit "RGE") (adv_match 23 s_n_invoke_store_method_1) (go s_n_error_51).
Definition n_start_req_26 : node :=
  Sequence match_id (lit "CTIVITY") (adv_match 21 s_n_invoke_store_method_1) (go s_n_error_51).
Definition n_start_req_28 : node :=
  Sequence match_id (lit "LENDAR") (adv_match 30 s_n_invoke_store_method_1) (go s_n_error_51).
Definition n_start_req_29 : node :=
  Switch match_id [(lit "L", adv_match 10 s_n_invoke_store_method_1)] (go s_n_error_51).
Definition n_start_req_27 : node :=
  Switch match_id
    [(lit "A", adv s_n_start_req_28); (lit "O", adv s_n_start_req_29)]
    (go s_n_error_51).
Definition n_start_req_25 : node :=
  Switch match_id
    [(lit "A", adv s_n_start_req_26); (lit "C", adv s_n_start_req_27)]
    (go s_n_error_51).
Definition n_start_req_30 : node :=
  Sequence match_id (lit "VE") (adv_match 11 s_n_invoke_store_method_1) (go s_n_error_51).
Definition n_start_req_22 : node :=
  Switch match_id
    [(lit "-", adv s_n_start_req_23); (lit "E", adv s_n_start_req_24); (lit "K", adv s_n_start_req_25);
     (lit "O", adv s_n_start_req_30)]
    (go s_n_error_51).
Definition n_start_req_31 : node :=
  Sequence match_id (lit "OTIFY") (adv_match 25 s_n_invoke_store_method_1) (go s_n_error_51).
Definition n_start_req_32 : node :=
  Sequence match_id (lit "PTIONS") (adv_match 6 s_n_invoke_store_method_1) (go s_n_error_51).
Definition n_start_req_35 : node :=
  Sequence match_id (lit "CH") (adv_match 28 s_n_invoke_store_method_1) (go s_n_error_51).
Definition n_start_req_36 : node :=
  Sequence match_id (lit "SE") (adv_match 39 s_n_invoke_store_method_1) (go s_n_error_51).
Definition n_start_req_34 : node :=
  Switch match_id
    [(lit "T", adv s_n_start_req_35); (lit "U", adv s_n_start_req_36)]
    (go s_n_error_51).
Definition n_start_req_37 : node :=
  Sequence match_id (lit "AY") (adv_match 38 s_n_invoke_store_method_1) (go s_n_error_51).
Definition n_start_req_38 : node :=
  Sequence match_id (lit "ST") (adv_match 3 s_n_invoke_store_method_1) (go s_n_error_51).
Definition n_start_req_42 : node :=
  Sequence match_id (lit "IND") (adv_match 12 s_n_invoke_store_method_1) (go s_n_error_51).
Definition n_start_req_43 : node :=
  Sequence match_id (lit "ATCH") (adv_match 13 s_n_invoke_store_method_1) (go s_n_error_51).
Definition n_start_req_41 : node :=
  Switch match_id
    [(lit "F", adv s_n_start_req_42); (lit "P", adv s_n_start_req_43)]
    (go s_n_error_51).
Definition n_start_req_40 : node := Switch match_id [(lit "P", adv s_n_start_req_41)] (go s_n_error_51).
Definition n_start_req_39 : node :=
  Switch match_id
    [(lit "I", adv_match 34 s_n_invoke_store_method_1); (lit "O", adv s_n_start_req_40)]
    (go s_n_error_51).
Definition n_start_req_45 : node :=
  Sequence match_id (lit "GE") (adv_match 29 s_n_invoke_store_method_1) (go s_n_error_51).
Definition n_start_req_44 : node :=
  Switch match_id
    [(lit "R", adv s_n_start_req_45); (lit "T", adv_match 4 s_n_invoke_store_method_1)]
    (go s_n_error_51).
Definition n_start_req_33 : node :=
  Switch match_id
    [(lit "A", adv s_n_start_req_34); (lit "L", adv s_n_start_req_37); (lit "O", adv s_n_start_req_38);
     (lit "R", adv s_n_start_req_39); (lit "U", adv s_n_start_req_44)]
    (go s_n_error_51).
Definition n_start_req_48 : node :=
  Sequence match_id (lit "IND") (adv_match 17 s_n_invoke_store_method_1) (go s_n_error_51).
Definition n_start_req_49 : node :=
  Sequence match_id (lit "ORD") (adv_match 44 s_n_invoke_store_method_1) (go s_n_error_51).
Definition n_start_req_50 : node :=
  Sequence match_id (lit "IRECT") (adv_match 43 s_n_invoke_store_method_1) (go s_n_error_51).
Definition n_start_req_51 : node :=
  Sequence match_id (lit "ORT") (adv_match 20 s_n_invoke_store_method_1) (go s_n_error_51).
Definition n_start_req_47 : node :=
  Switch match_id
    [(lit "B", adv s_n_start_req_48); (lit "C", adv s_n_start_req_49); (lit "D", adv s_n_start_req_50);
     (lit "P", adv s_n_start_req_51)]
    (go s_n_error_51).
Definition n_start_req_46 : node := Switch match_id [(lit "E", adv s_n_start_req_47)] (go s_n_error_51).
Definition n_start_req_54 : node :=
  Sequence match_id (lit "RCH") (adv_match 14 s_n_invoke_store_method_1) (go s_n_error_51).
Definition n_start_req_56 : node :=
  Switch match_id [(lit "P", adv_match 37 s_n_invoke_store_method_1)] (go s_n_error_51).
Definition n_start_req_57 : node :=
  Sequence match_id (lit "PARAMETER") (adv_match 42 s_n_invoke_store_method_1) (go s_n_error_51).
Definition n_start_req_55 : node :=
  Switch match_id
    [(lit "U", adv s_n_start_req_56); (lit "_", adv s_n_start_req_57)]
    (go s_n_error_51).
Definition n_start_req_53 : node :=
  Switch match_id
    [(lit "A", adv s_n_start_req_54); (lit "T", adv s_n_start_req_55)]
    (go s_n_error_51).
Definition n_start_req_58 : node :=
  Sequence match_id (lit "URCE") (adv_match 33 s_n_invoke_store_method_1) (go s_n_error_51).
Definition n_start_req_59 : node :=
  Sequence match_id (lit "BSCRIBE") (adv_match 26 s_n_invoke_store_method_1) (go s_n_error_51).
Definition n_start_req_52 : node :=
  Switch match_id
    [(lit "E", adv s_n_start_req_53); (lit "O", adv s_n_start_req_58); (lit "U", adv s_n_start_req_59)]
    (go s_n_error_51).
Definition n_start_req_61 : node :=
  Sequence match_id (lit "ARDOWN") (adv_match 40 s_n_invoke_store_method_1) (go s_n_error_51).
Definition n_start_req_62 : node :=
  Sequence match_id (lit "ACE") (adv_match 7 s_n_invoke_store_method_1) (go s_n_error_51).
Definition n_start_req_60 : node :=
  Switch match_id
    [(lit "E", adv s_n_start_req_61); (lit "R", adv s_n_start_req_62)]
    (go s_n_error_51).
Definition n_start_req_65 : node :=
  Sequence match_id (lit "IND") (adv_match 18 s_n_invoke_store_method_1) (go s_n_error_51).
Definition n_start_req_67 : node :=
  Sequence match_id (lit "NK") (adv_match 32 s_n_invoke_store_method_1) (go s_n_error_51).
Definition n_start_req_68 : node :=
  Sequence match_id (lit "CK") (adv_match 15 s_n_invoke_store_method_1) (go s_n_error_51).
Definition n_start_req_66 : node :=
  Switch match_id
    [(lit "I", adv s_n_start_req_67); (lit "O", adv s_n_start_req_68)]
    (go s_n_error_51).
Definition n_start_req_69 : node :=
  Sequence match_id (lit "UBSCRIBE") (adv_match 27 s_n_invoke_store_method_1) (go s_n_error_51).
Definition n_start_req_64 : node :=
  Switch match_id
    [(lit "B", adv s_n_start_req_65); (lit "L", adv s_n_start_req_66); (lit "S", adv s_n_start_req_69)]
    (go s_n_error_51).
Definition n_start_req_63 : node := Switch match_id [(lit "N", adv s_n_start_req_64)] (go s_n_error_51).
Definition n_start_req : node :=
  Switch match_id
    [(lit "A", adv s_n_start_req_1); (lit "B", adv s_n_start_req_4); (lit "C", adv s_n_start_req_5);
     (lit "D", adv s_n_start_req_10); (lit "F", adv s_n_start_req_14); (lit "G", adv s_n_start_req_15);
     (lit "H", adv s_n_start_req_18); (lit "L", adv s_n_start_req_19); (lit "M", adv s_n_start_req_22);
     (lit "N", adv s_n_start_req_31); (lit "O", adv s_n_start_req_32); (lit "P", adv s_n_start_req_33);
     (lit "R", adv s_n_start_req_46); (lit "S", adv s_n_start_req_52); (lit "T", adv s_n_start_req_60);
     (lit "U", adv s_n_start_req_63)]
    (go s_n_error_51).
Definition n_invoke_llhttp__on_status_complete : node := Invoke k_on_status_complete [] s_n_header_field_start.
Definition n_res_line_almost_done : node := Skip s_n_invoke_llhttp__on_status_complete.
Definition n_res_status : node :=
  Switch match_id
    [([10], go s_n_span_end_llhttp__on_status); ([13], go s_n_span_end_llhttp__on_status_1)]
    (adv s_n_res_status).
Definition n_span_start_llhttp__on_status : node := SpanStart k_on_status s_n_res_status.
Definition n_res_status_start : node :=
  Switch match_id
    [([10], adv s_n_invoke_llhttp__on_status_complete); ([13], adv s_n_res_line_almost_done)]
    (go s_n_span_start_llhttp__on_status).
Definition n_res_status_code_otherwise : node :=
  Switch match_id
    [([10; 13], go s_n_res_status_start); (lit " ", adv s_n_res_status_start)]
    (go s_n_error_45).
Definition n_res_status_code : node :=
  Switch match_id
    [(lit "0", adv_match 0 s_n_invoke_mul_add_status_code); (lit "1", adv_match 1 s_n_invoke_mul_add_status_code);
     (lit "2", adv_match 2 s_n_invoke_mul_add_status_code); (lit "3", adv_match 3 s_n_invoke_mul_add_status_code);
     (lit "4", adv_match 4 s_n_invoke_mul_add_status_code); (lit "5", adv_match 5 s_n_invoke_mul_add_status_code);
     (lit "6", adv_match 6 s_n_invoke_mul_add_status_code); (lit "7", adv_match 7 s_n_invoke_mul_add_status_code);
     (lit "8", adv_match 8 s_n_invoke_mul_add_status_code); (lit "9", adv_match 9 s_n_invoke_mul_add_status_code)]
    (go s_n_res_status_code_otherwise).
Definition n_res_http_end : node := Switch match_id [(lit " ", adv s_n_invoke_update_status_code)] (go s_n_error_46).
Definition n_res_http_minor : node :=
  Switch match_id
    [(lit "0", adv_match 0 s_n_invoke_store_http_minor_1); (lit "1", adv_match 1 s_n_invoke_store_http_minor_1);
     (lit "2", adv_match 2 s_n_invoke_store_http_minor_1); (lit "3", adv_match 3 s_n_invoke_store_http_minor_1);
     (lit "4", adv_match 4 s_n_invoke_store_http_minor_1); (lit "5", adv_match 5 s_n_invoke_store_http_minor_1);
     (lit "6", adv_match 6 s_n_invoke_store_http_minor_1); (lit "7", adv_match 7 s_n_invoke_store_http_minor_1);
     (lit "8", adv_match 8 s_n_invoke_store_http_minor_1); (lit "9", adv_match 9 s_n_invoke_store_http_minor_1)]
    (go s_n_error_47).
Definition n_res_http_dot : node := Switch match_id [(lit ".", adv s_n_res_http_minor)] (go s_n_error_48).
Definition n_res_http_major : node :=
  Switch match_id
    [(lit "0", adv_match 0 s_n_invoke_store_http_major_1); (lit "1", adv_match 1 s_n_invoke_store_http_major_1);
     (lit "2", adv_match 2 s_n_invoke_store_http_major_1); (lit "3", adv_match 3 s_n_invoke_store_http_major_1);
     (lit "4", adv_match 4 s_n_invoke_store_http_major_1); (lit "5", adv_match 5 s_n_invoke_store_http_major_1);
     (lit "6", adv_match 6 s_n_invoke_store_http_major_1); (lit "7", adv_match 7 s_n_invoke_store_http_major_1);
     (lit "8", adv_match 8 s_n_invoke_store_http_major_1); (lit "9", adv_match 9 s_n_invoke_store_http_major_1)]
    (go s_n_error_49).
Definition n_start_res : node := Sequence match_id (lit "HTTP/") (adv s_n_res_http_major) (go s_n_error_52).
Definition n_req_or_res_method_2 : node :=
  Sequence match_id (lit "AD") (adv_match 2 s_n_invoke_store_method) (go s_n_error_50).
Definition n_req_or_res_method_3 : node :=
  Sequence match_id (lit "TP/") (adv s_n_invoke_update_type_1) (go s_n_error_50).
Definition n_req_or_res_method_1 : node :=
  Switch match_id
    [(lit "E", adv s_n_req_or_res_method_2); (lit "T", adv s_n_req_or_res_method_3)]
    (go s_n_error_50).
Definition n_req_or_res_method : node := Switch match_id [(lit "H", adv s_n_req_or_res_method_1)] (go s_n_error_50).
Definition n_start_req_or_res : node :=
  Switch match_id [(lit "H", go s_n_req_or_res_method)] (go s_n_invoke_update_type_2).
Definition n_invoke_load_type : node :=
  Invoke k_load_type [([1], s_n_start_req); ([2], s_n_start_res)] s_n_start_req_or_res.
Definition n_start : node := Switch match_id [([10; 13], adv s_n_start)] (go s_n_invoke_update_finish).
Definition n_error_39 : node := Fault 7 "Invalid characters in url" s_error.
Definition n_invoke_update_finish_2 : node := Invoke k_update_finish_1 [] s_n_start.
Definition n_invoke_test_lenient_flags : node :=
  Invoke k_test_lenient_flags [([1], s_n_invoke_update_finish_2)] s_n_closed.
Definition n_invoke_update_finish_1 : node := Invoke k_update_finish_1 [] s_n_invoke_test_lenient_flags.
Definition n_pause_5 : node := Fault 21 "on_message_complete pause" s_n_invoke_is_equal_upgrade.
Definition n_error_10 : node := Fault 18 "`on_message_complete` callback error" s_error.
Definition n_pause_7 : node := Fault 21 "on_chunk_complete pause" s_n_invoke_llhttp__on_message_complete_2.
Definition n_error_13 : node := Fault 20 "`on_chunk_complete` callback error" s_error.
Definition n_invoke_llhttp__on_chunk_complete_1 : node :=
  Invoke k_on_chunk_complete [([0], s_n_invoke_llhttp__on_message_complete_2); ([21], s_n_pause_7)] s_n_error_13.
Definition n_error_12 : node := Fault 4 "Content-Length can't be present with Transfer-Encoding" s_error.
Definition n_pause_2 : node := Fault 21 "on_message_complete pause" s_n_pause_1.
Definition n_error_3 : node := Fault 18 "`on_message_complete` callback error" s_error.
Definition n_invoke_llhttp__on_message_complete_1 : node :=
  Invoke k_on_message_complete [([0], s_n_pause_1); ([21], s_n_pause_2)] s_n_error_3.
Definition n_error_8 : node := Fault 12 "Chunk size overflow" s_error.
Definition n_pause_3 : node := Fault 21 "on_chunk_complete pause" s_n_invoke_update_content_length.
Definition n_error_5 : node := Fault 20 "`on_chunk_complete` callback error" s_error.
Definition n_invoke_llhttp__on_chunk_complete : node :=
  Invoke k_on_chunk_complete [([0], s_n_invoke_update_content_length); ([21], s_n_pause_3)] s_n_error_5.
Definition n_span_end_llhttp__on_body : node := SpanEnd k_on_body (go s_n_chunk_data_almost_done).
Definition n_invoke_or_flags : node := Invoke k_or_flags [] s_n_header_field_start.
Definition n_pause_4 : node := Fault 21 "on_chunk_header pause" s_n_invoke_is_equal_content_length.
Definition n_error_4 : node := Fault 19 "`on_chunk_header` callback error" s_error.
Definition n_invoke_llhttp__on_chunk_header : node :=
  Invoke k_on_chunk_header [([0], s_n_invoke_is_equal_content_length); ([21], s_n_pause_4)] s_n_error_4.
Definition n_error_6 : node := Fault 2 "Invalid character in chunk parameters" s_error.
Definition n_error_7 : node := Fault 12 "Invalid character in chunk size" s_error.
Definition n_invoke_mul_add_content_length : node :=
  Invoke k_mul_add_content_length [([1], s_n_error_8)] s_n_chunk_size.
Definition n_error_9 : node := Fault 12 "Invalid character in chunk size" s_error.
Definition n_span_end_llhttp__on_body_1 : node := SpanEnd k_on_body (go s_n_invoke_llhttp__on_message_complete_2).
Definition n_invoke_update_finish_3 : node := Invoke k_update_finish_3 [] s_n_span_start_llhttp__on_body_2.
Definition n_error_11 : node := Fault 15 "Request has invalid `Transfer-Encoding`" s_error.
Definition n_pause : node := Fault 21 "on_message_complete pause" s_n_invoke_llhttp__after_message_complete.
Definition n_error_2 : node := Fault 18 "`on_message_complete` callback error" s_error.
Definition n_invoke_llhttp__on_message_complete : node :=
  Invoke k_on_message_complete [([0], s_n_invoke_llhttp__after_message_complete); ([21], s_n_pause)] s_n_error_2.
Definition n_invoke_or_flags_1 : node := Invoke k_or_flags_1 [] s_n_invoke_llhttp__after_headers_complete.
Definition n_invoke_or_flags_2 : node := Invoke k_or_flags_1 [] s_n_invoke_llhttp__after_headers_complete.
Definition n_invoke_update_upgrade : node := Invoke k_update_upgrade [] s_n_invoke_or_flags_2.
Definition n_pause_6 : node := Fault 21 "Paused by on_headers_complete" s_n_invoke_llhttp__after_headers_complete.
Definition n_error_1 : node := Fault 17 "User callback error" s_error.
Definition n_invoke_llhttp__on_headers_complete : node :=
  Invoke k_on_headers_complete [([0], s_n_invoke_llhttp__after_headers_complete); ([1], s_n_invoke_or_flags_1);
    ([2], s_n_invoke_update_upgrade); ([21], s_n_pause_6)] s_n_error_1.
Definition n_invoke_llhttp__before_headers_complete : node :=
  Invoke k_before_headers_complete [] s_n_invoke_llhttp__on_headers_complete.
Definition n_invoke_test_lenient_flags_1 : node :=
  Invoke k_test_lenient_flags_1 [([0], s_n_error_12)] s_n_invoke_llhttp__before_headers_complete.
Definition n_invoke_test_flags_1 : node :=
  Invoke k_test_flags_1 [([1], s_n_invoke_test_lenient_flags_1)] s_n_invoke_llhttp__before_headers_complete.
Definition n_invoke_test_flags : node :=
  Invoke k_test_flags [([1], s_n_invoke_llhttp__on_chunk_complete_1)] s_n_invoke_test_flags_1.
Definition n_span_end_llhttp__on_header_field : node := SpanEnd k_on_header_field (adv s_n_error_14).
Definition n_invoke_test_lenient_flags_2 : node :=
  Invoke k_test_lenient_flags_2 [([1], s_n_header_field_colon_discard_ws)] s_n_span_end_llhttp__on_header_field.
Definition n_error_15 : node := Fault 11 "Empty Content-Length" s_error.
Definition n_span_end_llhttp__on_header_value : node :=
  SpanEnd k_on_header_value (go s_n_invoke_llhttp__on_header_value_complete).
Definition n_invoke_update_header_state : node :=
  Invoke k_update_header_state [] s_n_span_start_llhttp__on_header_value.
Definition n_invoke_or_flags_3 : node := Invoke k_or_flags_3 [] s_n_invoke_update_header_state.
Definition n_invoke_or_flags_4 : node := Invoke k_or_flags_4 [] s_n_invoke_update_header_state.
Definition n_invoke_or_flags_5 : node := Invoke k_or_flags_5 [] s_n_invoke_update_header_state.
Definition n_invoke_or_flags_6 : node := Invoke k_or_flags_6 [] s_n_span_start_llhttp__on_header_value.
Definition n_invoke_load_header_state_1 : node :=
  Invoke k_load_header_state [([5], s_n_invoke_or_flags_3); ([6], s_n_invoke_or_flags_4); ([7], s_n_invoke_or_flags_5);
    ([8], s_n_invoke_or_flags_6)] s_n_span_start_llhttp__on_header_value.
Definition n_invoke_load_header_state : node :=
  Invoke k_load_header_state [([2], s_n_error_15)] s_n_invoke_load_header_state_1.
Definition n_invoke_update_header_state_1 : node :=
  Invoke k_update_header_state [] s_n_invoke_llhttp__on_header_value_complete.
Definition n_invoke_or_flags_7 : node := Invoke k_or_flags_3 [] s_n_invoke_update_header_state_1.
Definition n_invoke_or_flags_8 : node := Invoke k_or_flags_4 [] s_n_invoke_update_header_state_1.
Definition n_invoke_or_flags_9 : node := Invoke k_or_flags_5 [] s_n_invoke_update_header_state_1.
Definition n_invoke_or_flags_10 : node := Invoke k_or_flags_6 [] s_n_invoke_llhttp__on_header_value_complete.
Definition n_invoke_load_header_state_3 : node :=
  Invoke k_load_header_state [([5], s_n_invoke_or_flags_7); ([6], s_n_invoke_or_flags_8); ([7], s_n_invoke_or_flags_9);
    ([8], s_n_invoke_or_flags_10)] s_n_invoke_llhttp__on_header_value_complete.
Definition n_error_16 : node := Fault 3 "Missing expected LF after header value" s_error.
Definition n_span_end_llhttp__on_header_value_1 : node := SpanEnd k_on_header_value (go s_n_header_value_almost_done).
Definition n_span_end_llhttp__on_header_value_2 : node := SpanEnd k_on_header_value (adv s_n_header_value_almost_done).
Definition n_span_end_llhttp__on_header_value_3 : node := SpanEnd k_on_header_value (adv s_n_header_value_almost_done).
Definition n_error_17 : node := Fault 10 "Invalid header value char" s_error.
Definition n_invoke_test_lenient_flags_3 : node :=
  Invoke k_test_lenient_flags_2 [([1], s_n_header_value_lenient)] s_n_error_17.
Definition n_invoke_update_header_state_3 : node := Invoke k_update_header_state [] s_n_header_value_connection.
Definition n_invoke_or_flags_11 : node := Invoke k_or_flags_3 [] s_n_invoke_update_header_state_3.
Definition n_invoke_or_flags_12 : node := Invoke k_or_flags_4 [] s_n_invoke_update_header_state_3.
Definition n_invoke_or_flags_13 : node := Invoke k_or_flags_5 [] s_n_invoke_update_header_state_3.
Definition n_invoke_or_flags_14 : node := Invoke k_or_flags_6 [] s_n_header_value_connection.
Definition n_invoke_load_header_state_4 : node :=
  Invoke k_load_header_state [([5], s_n_invoke_or_flags_11); ([6], s_n_invoke_or_flags_12); ([7], s_n_invoke_or_flags_13);
    ([8], s_n_invoke_or_flags_14)] s_n_header_value_connection.
Definition n_invoke_update_header_state_4 : node := Invoke k_update_header_state_4 [] s_n_header_value_connection_token.
Definition n_invoke_update_header_state_2 : node := Invoke k_update_header_state_2 [] s_n_header_value_connection_ws.
Definition n_invoke_update_header_state_5 : node := Invoke k_update_header_state_5 [] s_n_header_value_connection_ws.
Definition n_invoke_update_header_state_6 : node := Invoke k_update_header_state_6 [] s_n_header_value_connection_ws.
Definition n_span_end_llhttp__on_header_value_4 : node := SpanEnd k_on_header_value (go s_n_error_19).
Definition n_invoke_mul_add_content_length_1 : node :=
  Invoke k_mul_add_content_length_1 [([1], s_n_span_end_llhttp__on_header_value_4)] s_n_header_value_content_length.
Definition n_invoke_or_flags_15 : node := Invoke k_or_flags_15 [] s_n_header_value_otherwise.
Definition n_span_end_llhttp__on_header_value_5 : node := SpanEnd k_on_header_value (go s_n_error_20).
Definition n_error_18 : node := Fault 4 "Duplicate Content-Length" s_error.
Definition n_invoke_test_flags_2 : node := Invoke k_test_flags_2 [([0], s_n_header_value_content_length)] s_n_error_18.
Definition n_invoke_update_header_state_7 : node := Invoke k_update_header_state_7 [] s_n_header_value_otherwise.
Definition n_invoke_update_header_state_8 : node := Invoke k_update_header_state_4 [] s_n_header_value.
Definition n_invoke_and_flags : node := Invoke k_and_flags [] s_n_header_value_te_chunked.
Definition n_invoke_or_flags_16 : node := Invoke k_or_flags_16 [] s_n_invoke_and_flags.
Definition n_invoke_or_flags_17 : node := Invoke k_or_flags_17 [] s_n_invoke_update_header_state_8.
Definition n_invoke_load_header_state_2 : node :=
  Invoke k_load_header_state [([1], s_n_header_value_connection); ([2], s_n_invoke_test_flags_2); ([3], s_n_invoke_or_flags_16);
    ([4], s_n_invoke_or_flags_17)] s_n_header_value.
Definition n_span_end_llhttp__on_header_field_1 : node :=
  SpanEnd k_on_header_field (adv s_n_invoke_llhttp__on_header_field_complete).
Definition n_span_end_llhttp__on_header_field_2 : node :=
  SpanEnd k_on_header_field (adv s_n_invoke_llhttp__on_header_field_complete).
Definition n_error_21 : node := Fault 10 "Invalid header token" s_error.
Definition n_invoke_update_header_state_9 : node := Invoke k_update_header_state_4 [] s_n_header_field_general.
Definition n_invoke_store_header_state : node := Invoke k_store_header_state [] s_n_header_field_colon.
Definition n_invoke_update_header_state_10 : node := Invoke k_update_header_state_4 [] s_n_header_field_general.
Definition n_invoke_llhttp__on_url_complete : node := Invoke k_on_url_complete [] s_n_header_field_start.
Definition n_invoke_update_http_minor : node := Invoke k_update_http_minor [] s_n_invoke_llhttp__on_url_complete.
Definition n_invoke_update_http_major : node := Invoke k_update_http_major [] s_n_invoke_update_http_minor.
Definition n_span_end_llhttp__on_url_3 : node := SpanEnd k_on_url (go s_n_url_skip_to_http09).
Definition n_error_22 : node := Fault 7 "Expected CRLF" s_error.
Definition n_span_end_llhttp__on_url_4 : node := SpanEnd k_on_url (go s_n_url_skip_lf_to_http09).
Definition n_error_25 : node := Fault 23 "Pause on PRI/Upgrade" s_error.
Definition n_error_26 : node := Fault 9 "Expected HTTP/2 Connection Preface" s_error.
Definition n_error_24 : node := Fault 9 "Expected CRLF after version" s_error.
Definition n_invoke_load_method_1 : node := Invoke k_load_method [([34], s_n_req_pri_upgrade)] s_n_req_http_complete.
Definition n_invoke_store_http_minor : node := Invoke k_store_http_minor [] s_n_invoke_load_method_1.
Definition n_error_27 : node := Fault 9 "Invalid minor version" s_error.
Definition n_error_28 : node := Fault 9 "Expected dot" s_error.
Definition n_invoke_store_http_major : node := Invoke k_store_http_major [] s_n_req_http_dot.
Definition n_error_29 : node := Fault 9 "Invalid major version" s_error.
Definition n_error_23 : node := Fault 8 "Invalid method for HTTP/x.x request" s_error.
Definition n_invoke_load_method : node :=
  Invoke k_load_method [([0; 1; 2; 3; 4; 5; 6; 7; 8; 9; 10; 11; 12; 13; 14; 15; 16; 17; 18; 19; 20; 21; 22; 23; 24; 25; 26; 27; 28; 29; 30; 31; 32; 33; 34], s_n_req_http_major)] s_n_error_23.
Definition n_error_32 : node := Fault 8 "Expected HTTP/" s_error.
Definition n_error_30 : node := Fault 8 "Expected SOURCE method for ICE/x.x request" s_error.
Definition n_invoke_load_method_2 : node := Invoke k_load_method [([33], s_n_req_http_major)] s_n_error_30.
Definition n_error_31 : node := Fault 8 "Invalid method for RTSP/x.x request" s_error.
Definition n_invoke_load_method_3 : node :=
  Invoke k_load_method [([1; 3; 6; 35; 36; 37; 38; 39; 40; 41; 42; 43; 44; 45], s_n_req_http_major)] s_n_error_31.
Definition n_invoke_llhttp__on_url_complete_1 : node := Invoke k_on_url_complete [] s_n_req_http_start.
Definition n_span_end_llhttp__on_url_5 : node := SpanEnd k_on_url (go s_n_url_skip_to_http).
Definition n_span_end_llhttp__on_url_6 : node := SpanEnd k_on_url (go s_n_url_skip_to_http09).
Definition n_span_end_llhttp__on_url_7 : node := SpanEnd k_on_url (go s_n_url_skip_lf_to_http09).
Definition n_span_end_llhttp__on_url_8 : node := SpanEnd k_on_url (go s_n_url_skip_to_http).
Definition n_error_33 : node := Fault 7 "Invalid char in url fragment start" s_error.
Definition n_span_end_llhttp__on_url_9 : node := SpanEnd k_on_url (go s_n_url_skip_to_http09).
Definition n_span_end_llhttp__on_url_10 : node := SpanEnd k_on_url (go s_n_url_skip_lf_to_http09).
Definition n_span_end_llhttp__on_url_11 : node := SpanEnd k_on_url (go s_n_url_skip_to_http).
Definition n_error_34 : node := Fault 7 "Invalid char in url query" s_error.
Definition n_error_35 : node := Fault 7 "Invalid char in url path" s_error.
Definition n_span_end_llhttp__on_url : node := SpanEnd k_on_url (go s_n_url_skip_to_http09).
Definition n_span_end_llhttp__on_url_1 : node := SpanEnd k_on_url (go s_n_url_skip_lf_to_http09).
Definition n_span_end_llhttp__on_url_2 : node := SpanEnd k_on_url (go s_n_url_skip_to_http).
Definition n_span_end_llhttp__on_url_12 : node := SpanEnd k_on_url (go s_n_url_skip_to_http09).
Definition n_span_end_llhttp__on_url_13 : node := SpanEnd k_on_url (go s_n_url_skip_lf_to_http09).
Definition n_span_end_llhttp__on_url_14 : node := SpanEnd k_on_url (go s_n_url_skip_to_http).
Definition n_error_36 : node := Fault 7 "Double @ in url" s_error.
Definition n_error_37 : node := Fault 7 "Unexpected char in url server" s_error.
Definition n_error_38 : node := Fault 7 "Unexpected char in url server" s_error.
Definition n_error_40 : node := Fault 7 "Unexpected char in url schema" s_error.
Definition n_error_41 : node := Fault 7 "Unexpected char in url schema" s_error.
Definition n_error_42 : node := Fault 7 "Unexpected start char in url" s_error.
Definition n_invoke_is_equal_method : node :=
  Invoke k_is_equal_method [([0], s_n_span_start_llhttp__on_url_1)] s_n_span_start_llhttp__on_url.
Definition n_error_43 : node := Fault 6 "Expected space after method" s_error.
Definition n_invoke_store_method_1 : node := Invoke k_store_method [] s_n_req_first_space_before_url.
Definition n_error_51 : node := Fault 6 "Invalid method encountered" s_error.
Definition n_error_44 : node := Fault 13 "Response overflow" s_error.
Definition n_invoke_mul_add_status_code : node :=
  Invoke k_mul_add_status_code [([1], s_n_error_44)] s_n_res_status_code.
Definition n_span_end_llhttp__on_status : node := SpanEnd k_on_status (adv s_n_invoke_llhttp__on_status_complete).
Definition n_span_end_llhttp__on_status_1 : node := SpanEnd k_on_status (adv s_n_res_line_almost_done).
Definition n_error_45 : node := Fault 13 "Invalid response status" s_error.
Definition n_invoke_update_status_code : node := Invoke k_update_status_code [] s_n_res_status_code.
Definition n_error_46 : node := Fault 9 "Expected space after version" s_error.
Definition n_invoke_store_http_minor_1 : node := Invoke k_store_http_minor [] s_n_res_http_end.
Definition n_error_47 : node := Fault 9 "Invalid minor version" s_error.
Definition n_error_48 : node := Fault 9 "Expected dot" s_error.
Definition n_invoke_store_http_major_1 : node := Invoke k_store_http_major [] s_n_res_http_dot.
Definition n_error_49 : node := Fault 9 "Invalid major version" s_error.
Definition n_error_52 : node := Fault 8 "Expected HTTP/" s_error.
Definition n_invoke_update_type : node := Invoke k_update_type [] s_n_req_first_space_before_url.
Definition n_invoke_store_method : node := Invoke k_store_method [] s_n_invoke_update_type.
Definition n_error_50 : node := Fault 8 "Invalid word encountered" s_error.
Definition n_invoke_update_type_1 : node := Invoke k_update_type_1 [] s_n_res_http_major.
Definition n_invoke_update_type_2 : node := Invoke k_update_type [] s_n_start_req.
Definition n_pause_8 : node := Fault 21 "on_message_begin pause" s_n_invoke_load_type.
Definition n_error : node := Fault 16 "`on_message_begin` callback error" s_error.
Definition n_invoke_llhttp__on_message_begin : node :=
  Invoke k_on_message_begin [([0], s_n_invoke_load_type); ([21], s_n_pause_8)] s_n_error.
Definition n_invoke_update_finish : node := Invoke k_update_finish [] s_n_invoke_llhttp__on_message_begin.

(** ** The switch of [llhttp__internal__run] *)

Definition node_of (l : llparse_state) : node :=
  match l with
  | s_error => Unreachable
  | s_n_closed => n_closed
  | s_n_invoke_llhttp__after_message_complete => n_invoke_llhttp__after_message_complete
  | s_n_pause_1 => n_pause_1
  | s_n_invoke_is_equal_upgrade => n_invoke_is_equal_upgrade
  | s_n_invoke_llhttp__on_message_complete_2 => n_invoke_llhttp__on_message_complete_2
  | s_n_chunk_data_almost_done_skip => n_chunk_data_almost_done_skip
  | s_n_chunk_data_almost_done => n_chunk_data_almost_done
  | s_n_consume_content_length => n_consume_content_length
  | s_n_span_start_llhttp__on_body => n_span_start_llhttp__on_body
  | s_n_invoke_is_equal_content_length => n_invoke_is_equal_content_length
  | s_n_chunk_size_almost_done => n_chunk_size_almost_done
  | s_n_chunk_parameters => n_chunk_parameters
  | s_n_chunk_size_otherwise => n_chunk_size_otherwise
  | s_n_chunk_size => n_chunk_size
  | s_n_chunk_size_digit => n_chunk_size_digit
  | s_n_invoke_update_content_length => n_invoke_update_content_length
  | s_n_consume_content_length_1 => n_consume_content_length_1
  | s_n_span_start_llhttp__on_body_1 => n_span_start_llhttp__on_body_1
  | s_n_eof => n_eof
  | s_n_span_start_llhttp__on_body_2 => n_span_start_llhttp__on_body_2
  | s_n_invoke_llhttp__after_headers_complete => n_invoke_llhttp__after_headers_complete
  | s_n_headers_almost_done => n_headers_almost_done
  | s_n_header_field_colon_discard_ws => n_header_field_colon_discard_ws
  | s_n_error_14 => n_error_14
  | s_n_invoke_llhttp__on_header_value_complete => n_invoke_llhttp__on_header_value_complete
  | s_n_span_start_llhttp__on_header_value => n_span_start_llhttp__on_header_value
  | s_n_header_value_discard_lws => n_header_value_discard_lws
  | s_n_header_value_discard_ws_almost_done => n_header_value_discard_ws_almost_done
  | s_n_header_value_lws => n_header_value_lws
  | s_n_header_value_almost_done => n_header_value_almost_done
  | s_n_header_value_lenient => n_header_value_lenient
  | s_n_header_value_otherwise => n_header_value_otherwise
  | s_n_header_value_connection_token => n_header_value_connection_token
  | s_n_header_value_connection_ws => n_header_value_connection_ws
  | s_n_header_value_connection_1 => n_header_value_connection_1
  | s_n_header_value_connection_2 => n_header_value_connection_2
  | s_n_header_value_connection_3 => n_header_value_connection_3
  | s_n_header_value_connection => n_header_value_connection
  | s_n_error_19 => n_error_19
  | s_n_error_20 => n_error_20
  | s_n_header_value_content_length_ws => n_header_value_content_length_ws
  | s_n_header_value_content_length => n_header_value_content_length
  | s_n_header_value_te_chunked_last => n_header_value_te_chunked_last
  | s_n_header_value_te_token_ows => n_header_value_te_token_ows
  | s_n_header_value => n_header_value
  | s_n_header_value_te_token => n_header_value_te_token
  | s_n_header_value_te_chunked => n_header_value_te_chunked
  | s_n_span_start_llhttp__on_header_value_1 => n_span_start_llhttp__on_header_value_1
  | s_n_header_value_discard_ws => n_header_value_discard_ws
  | s_n_invoke_llhttp__on_header_field_complete => n_invoke_llhttp__on_header_field_complete
  | s_n_header_field_general_otherwise => n_header_field_general_otherwise
  | s_n_header_field_general => n_header_field_general
  | s_n_header_field_colon => n_header_field_colon
  | s_n_header_field_3 => n_header_field_3
  | s_n_header_field_4 => n_header_field_4
  | s_n_header_field_2 => n_header_field_2
  | s_n_header_field_1 => n_header_field_1
  | s_n_header_field_5 => n_header_field_5
  | s_n_header_field_6 => n_header_field_6
  | s_n_header_field_7 => n_header_field_7
  | s_n_header_field => n_header_field
  | s_n_span_start_llhttp__on_header_field => n_span_start_llhttp__on_header_field
  | s_n_header_field_start => n_header_field_start
  | s_n_url_skip_to_http09 => n_url_skip_to_http09
  | s_n_url_skip_lf_to_http09 => n_url_skip_lf_to_http09
  | s_n_req_pri_upgrade => n_req_pri_upgrade
  | s_n_req_http_complete_1 => n_req_http_complete_1
  | s_n_req_http_complete => n_req_http_complete
  | s_n_req_http_minor => n_req_http_minor
  | s_n_req_http_dot => n_req_http_dot
  | s_n_req_http_major => n_req_http_major
  | s_n_req_http_start_1 => n_req_http_start_1
  | s_n_req_http_start_2 => n_req_http_start_2
  | s_n_req_http_start_3 => n_req_http_start_3
  | s_n_req_http_start => n_req_http_start
  | s_n_url_skip_to_http => n_url_skip_to_http
  | s_n_url_fragment => n_url_fragment
  | s_n_span_end_stub_query_3 => n_span_end_stub_query_3
  | s_n_url_query => n_url_query
  | s_n_url_query_or_fragment => n_url_query_or_fragment
  | s_n_url_path => n_url_path
  | s_n_span_start_stub_path_2 => n_span_start_stub_path_2
  | s_n_span_start_stub_path => n_span_start_stub_path
  | s_n_span_start_stub_path_1 => n_span_start_stub_path_1
  | s_n_url_server_with_at => n_url_server_with_at
  | s_n_url_server => n_url_server
  | s_n_url_schema_delim_1 => n_url_schema_delim_1
  | s_n_url_schema_delim => n_url_schema_delim
  | s_n_span_end_stub_schema => n_span_end_stub_schema
  | s_n_url_schema => n_url_schema
  | s_n_url_start => n_url_start
  | s_n_span_start_llhttp__on_url_1 => n_span_start_llhttp__on_url_1
  | s_n_span_start_llhttp__on_url => n_span_start_llhttp__on_url
  | s_n_req_spaces_before_url => n_req_spaces_before_url
  | s_n_req_first_space_before_url => n_req_first_space_before_url
  | s_n_start_req_2 => n_start_req_2
  | s_n_start_req_3 => n_start_req_3
  | s_n_start_req_1 => n_start_req_1
  | s_n_start_req_4 => n_start_req_4
  | s_n_start_req_6 => n_start_req_6
  | s_n_start_req_8 => n_start_req_8
  | s_n_start_req_9 => n_start_req_9
  | s_n_start_req_7 => n_start_req_7
  | s_n_start_req_5 => n_start_req_5
  | s_n_start_req_12 => n_start_req_12
  | s_n_start_req_13 => n_start_req_13
  | s_n_start_req_11 => n_start_req_11
  | s_n_start_req_10 => n_start_req_10
  | s_n_start_req_14 => n_start_req_14
  | s_n_start_req_17 => n_start_req_17
  | s_n_start_req_16 => n_start_req_16
  | s_n_start_req_15 => n_start_req_15
  | s_n_start_req_18 => n_start_req_18
  | s_n_start_req_20 => n_start_req_20
  | s_n_start_req_21 => n_start_req_21
  | s_n_start_req_19 => n_start_req_19
  | s_n_start_req_23 => n_start_req_23
  | s_n_start_req_24 => n_start_req_24
  | s_n_start_req_26 => n_start_req_26
  | s_n_start_req_28 => n_start_req_28
  | s_n_start_req_29 => n_start_req_29
  | s_n_start_req_27 => n_start_req_27
  | s_n_start_req_25 => n_start_req_25
  | s_n_start_req_30 => n_start_req_30
  | s_n_start_req_22 => n_start_req_22
  | s_n_start_req_31 => n_start_req_31
  | s_n_start_req_32 => n_start_req_32
  | s_n_start_req_35 => n_start_req_35
  | s_n_start_req_36 => n_start_req_36
  | s_n_start_req_34 => n_start_req_34
  | s_n_start_req_37 => n_start_req_37
  | s_n_start_req_38 => n_start_req_38
  | s_n_start_req_42 => n_start_req_42
  | s_n_start_req_43 => n_start_req_43
  | s_n_start_req_41 => n_start_req_41
  | s_n_start_req_40 => n_start_req_40
  | s_n_start_req_39 => n_start_req_39
  | s_n_start_req_45 => n_start_req_45
  | s_n_start_req_44 => n_start_req_44
  | s_n_start_req_33 => n_start_req_33
  | s_n_start_req_48 => n_start_req_48
  | s_n_start_req_49 => n_start_req_49
  | s_n_start_req_50 => n_start_req_50
  | s_n_start_req_51 => n_start_req_51
  | s_n_start_req_47 => n_start_req_47
  | s_n_start_req_46 => n_start_req_46
  | s_n_start_req_54 => n_start_req_54
  | s_n_start_req_56 => n_start_req_56
  | s_n_start_req_57 => n_start_req_57
  | s_n_start_req_55 => n_start_req_55
  | s_n_start_req_53 => n_start_req_53
  | s_n_start_req_58 => n_start_req_58
  | s_n_start_req_59 => n_start_req_59
  | s_n_start_req_52 => n_start_req_52
  | s_n_start_req_61 => n_start_req_61
  | s_n_start_req_62 => n_start_req_62
  | s_n_start_req_60 => n_start_req_60
  | s_n_start_req_65 => n_start_req_65
  | s_n_start_req_67 => n_start_req_67
  | s_n_start_req_68 => n_start_req_68
  | s_n_start_req_66 => n_start_req_66
  | s_n_start_req_69 => n_start_req_69
  | s_n_start_req_64 => n_start_req_64
  | s_n_start_req_63 => n_start_req_63
  | s_n_start_req => n_start_req
  | s_n_invoke_llhttp__on_status_complete => n_invoke_llhttp__on_status_complete
  | s_n_res_line_almost_done => n_res_line_almost_done
  | s_n_res_status => n_res_status
  | s_n_span_start_llhttp__on_status => n_span_start_llhttp__on_status
  | s_n_res_status_start => n_res_status_start
  | s_n_res_status_code_otherwise => n_res_status_code_otherwise
  | s_n_res_status_code => n_res_status_code
  | s_n_res_http_end => n_res_http_end
  | s_n_res_http_minor => n_res_http_minor
  | s_n_res_http_dot => n_res_http_dot
  | s_n_res_http_major => n_res_http_major
  | s_n_start_res => n_start_res
  | s_n_req_or_res_method_2 => n_req_or_res_method_2
  | s_n_req_or_res_method_3 => n_req_or_res_method_3
  | s_n_req_or_res_method_1 => n_req_or_res_method_1
  | s_n_req_or_res_method => n_req_or_res_method
  | s_n_start_req_or_res => n_start_req_or_res
  | s_n_invoke_load_type => n_invoke_load_type
  | s_n_start => n_start
  | s_n_error_39 => n_error_39
  | s_n_invoke_update_finish_2 => n_invoke_update_finish_2
  | s_n_invoke_test_lenient_flags => n_invoke_test_lenient_flags
  | s_n_invoke_update_finish_1 => n_invoke_update_finish_1
  | s_n_pause_5 => n_pause_5
  | s_n_error_10 => n_error_10
  | s_n_pause_7 => n_pause_7
  | s_n_error_13 => n_error_13
  | s_n_invoke_llhttp__on_chunk_complete_1 => n_invoke_llhttp__on_chunk_complete_1
  | s_n_error_12 => n_error_12
  | s_n_pause_2 => n_pause_2
  | s_n_error_3 => n_error_3
  | s_n_invoke_llhttp__on_message_complete_1 => n_invoke_llhttp__on_message_complete_1
  | s_n_error_8 => n_error_8
  | s_n_pause_3 => n_pause_3
  | s_n_error_5 => n_error_5
  | s_n_invoke_llhttp__on_chunk_complete => n_invoke_llhttp__on_chunk_complete
  | s_n_span_end_llhttp__on_body => n_span_end_llhttp__on_body
  | s_n_invoke_or_flags => n_invoke_or_flags
  | s_n_pause_4 => n_pause_4
  | s_n_error_4 => n_error_4
  | s_n_invoke_llhttp__on_chunk_header => n_invoke_llhttp__on_chunk_header
  | s_n_error_6 => n_error_6
  | s_n_error_7 => n_error_7
  | s_n_invoke_mul_add_content_length => n_invoke_mul_add_content_length
  | s_n_error_9 => n_error_9
  | s_n_span_end_llhttp__on_body_1 => n_span_end_llhttp__on_body_1
  | s_n_invoke_update_finish_3 => n_invoke_update_finish_3
  | s_n_error_11 => n_error_11
  | s_n_pause => n_pause
  | s_n_error_2 => n_error_2
  | s_n_invoke_llhttp__on_message_complete => n_invoke_llhttp__on_message_complete
  | s_n_invoke_or_flags_1 => n_invoke_or_flags_1
  | s_n_invoke_or_flags_2 => n_invoke_or_flags_2
  | s_n_invoke_update_upgrade => n_invoke_update_upgrade
  | s_n_pause_6 => n_pause_6
  | s_n_error_1 => n_error_1
  | s_n_invoke_llhttp__on_headers_complete => n_invoke_llhttp__on_headers_complete
  | s_n_invoke_llhttp__before_headers_complete => n_invoke_llhttp__before_headers_complete
  | s_n_invoke_test_lenient_flags_1 => n_invoke_test_lenient_flags_1
  | s_n_invoke_test_flags_1 => n_invoke_test_flags_1
  | s_n_invoke_test_flags => n_invoke_test_flags
  | s_n_span_end_llhttp__on_header_field => n_span_end_llhttp__on_header_field
  | s_n_invoke_test_lenient_flags_2 => n_invoke_test_lenient_flags_2
  | s_n_error_15 => n_error_15
  | s_n_span_end_llhttp__on_header_value => n_span_end_llhttp__on_header_value
  | s_n_invoke_update_header_state => n_invoke_update_header_state
  | s_n_invoke_or_flags_3 => n_invoke_or_flags_3
  | s_n_invoke_or_flags_4 => n_invoke_or_flags_4
  | s_n_invoke_or_flags_5 => n_invoke_or_flags_5
  | s_n_invoke_or_flags_6 => n_invoke_or_flags_6
  | s_n_invoke_load_header_state_1 => n_invoke_load_header_state_1
  | s_n_invoke_load_header_state => n_invoke_load_header_state
  | s_n_invoke_update_header_state_1 => n_invoke_update_header_state_1
  | s_n_invoke_or_flags_7 => n_invoke_or_flags_7
  | s_n_invoke_or_flags_8 => n_invoke_or_flags_8
  | s_n_invoke_or_flags_9 => n_invoke_or_flags_9
  | s_n_invoke_or_flags_10 => n_invoke_or_flags_10
  | s_n_invoke_load_header_state_3 => n_invoke_load_header_state_3
  | s_n_error_16 => n_error_16
  | s_n_span_end_llhttp__on_header_value_1 => n_span_end_llhttp__on_header_value_1
  | s_n_span_end_llhttp__on_header_value_2 => n_span_end_llhttp__on_header_value_2
  | s_n_span_end_llhttp__on_header_value_3 => n_span_end_llhttp__on_header_value_3
  | s_n_error_17 => n_error_17
  | s_n_invoke_test_lenient_flags_3 => n_invoke_test_lenient_flags_3
  | s_n_invoke_update_header_state_3 => n_invoke_update_header_state_3
  | s_n_invoke_or_flags_11 => n_invoke_or_flags_11
  | s_n_invoke_or_flags_12 => n_invoke_or_flags_12
  | s_n_invoke_or_flags_13 => n_invoke_or_flags_13
  | s_n_invoke_or_flags_14 => n_invoke_or_flags_14
  | s_n_invoke_load_header_state_4 => n_invoke_load_header_state_4
  | s_n_invoke_update_header_state_4 => n_invoke_update_header_state_4
  | s_n_invoke_update_header_state_2 => n_invoke_update_header_state_2
  | s_n_invoke_update_header_state_5 => n_invoke_update_header_state_5
  | s_n_invoke_update_header_state_6 => n_invoke_update_header_state_6
  | s_n_span_end_llhttp__on_header_value_4 => n_span_end_llhttp__on_header_value_4
  | s_n_invoke_mul_add_content_length_1 => n_invoke_mul_add_content_length_1
  | s_n_invoke_or_flags_15 => n_invoke_or_flags_15
  | s_n_span_end_llhttp__on_header_value_5 => n_span_end_llhttp__on_header_value_5
  | s_n_error_18 => n_error_18
  | s_n_invoke_test_flags_2 => n_invoke_test_flags_2
  | s_n_invoke_update_header_state_7 => n_invoke_update_header_state_7
  | s_n_invoke_update_header_state_8 => n_invoke_update_header_state_8
  | s_n_invoke_and_flags => n_invoke_and_flags
  | s_n_invoke_or_flags_16 => n_invoke_or_flags_16
  | s_n_invoke_or_flags_17 => n_invoke_or_flags_17
  | s_n_invoke_load_header_state_2 => n_invoke_load_header_state_2
  | s_n_span_end_llhttp__on_header_field_1 => n_span_end_llhttp__on_header_field_1
  | s_n_span_end_llhttp__on_header_field_2 => n_span_end_llhttp__on_header_field_2
  | s_n_error_21 => n_error_21
  | s_n_invoke_update_header_state_9 => n_invoke_update_header_state_9
  | s_n_invoke_store_header_state => n_invoke_store_header_state
  | s_n_invoke_update_header_state_10 => n_invoke_update_header_state_10
  | s_n_invoke_llhttp__on_url_complete => n_invoke_llhttp__on_url_complete
  | s_n_invoke_update_http_minor => n_invoke_update_http_minor
  | s_n_invoke_update_http_major => n_invoke_update_http_major
  | s_n_span_end_llhttp__on_url_3 => n_span_end_llhttp__on_url_3
  | s_n_error_22 => n_error_22
  | s_n_span_end_llhttp__on_url_4 => n_span_end_llhttp__on_url_4
  | s_n_error_25 => n_error_25
  | s_n_error_26 => n_error_26
  | s_n_error_24 => n_error_24
  | s_n_invoke_load_method_1 => n_invoke_load_method_1
  | s_n_invoke_store_http_minor => n_invoke_store_http_minor
  | s_n_error_27 => n_error_27
  | s_n_error_28 => n_error_28
  | s_n_invoke_store_http_major => n_invoke_store_http_major
  | s_n_error_29 => n_error_29
  | s_n_error_23 => n_error_23
  | s_n_invoke_load_method => n_invoke_load_method
  | s_n_error_32 => n_error_32
  | s_n_error_30 => n_error_30
  | s_n_invoke_load_method_2 => n_invoke_load_method_2
  | s_n_error_31 => n_error_31
  | s_n_invoke_load_method_3 => n_invoke_load_method_3
  | s_n_invoke_llhttp__on_url_complete_1 => n_invoke_llhttp__on_url_complete_1
  | s_n_span_end_llhttp__on_url_5 => n_span_end_llhttp__on_url_5
  | s_n_span_end_llhttp__on_url_6 => n_span_end_llhttp__on_url_6
  | s_n_span_end_llhttp__on_url_7 => n_span_end_llhttp__on_url_7
  | s_n_span_end_llhttp__on_url_8 => n_span_end_llhttp__on_url_8
  | s_n_error_33 => n_error_33
  | s_n_span_end_llhttp__on_url_9 => n_span_end_llhttp__on_url_9
  | s_n_span_end_llhttp__on_url_10 => n_span_end_llhttp__on_url_10
  | s_n_span_end_llhttp__on_url_11 => n_span_end_llhttp__on_url_11
  | s_n_error_34 => n_error_34
  | s_n_error_35 => n_error_35
  | s_n_span_end_llhttp__on_url => n_span_end_llhttp__on_url
  | s_n_span_end_llhttp__on_url_1 => n_span_end_llhttp__on_url_1
  | s_n_span_end_llhttp__on_url_2 => n_span_end_llhttp__on_url_2
  | s_n_span_end_llhttp__on_url_12 => n_span_end_llhttp__on_url_12
  | s_n_span_end_llhttp__on_url_13 => n_span_end_llhttp__on_url_13
  | s_n_span_end_llhttp__on_url_14 => n_span_end_llhttp__on_url_14
  | s_n_error_36 => n_error_36
  | s_n_error_37 => n_error_37
  | s_n_error_38 => n_error_38
  | s_n_error_40 => n_error_40
  | s_n_error_41 => n_error_41
  | s_n_error_42 => n_error_42
  | s_n_invoke_is_equal_method => n_invoke_is_equal_method
  | s_n_error_43 => n_error_43
  | s_n_invoke_store_method_1 => n_invoke_store_method_1
  | s_n_error_51 => n_error_51
  | s_n_error_44 => n_error_44
  | s_n_invoke_mul_add_status_code => n_invoke_mul_add_status_code
  | s_n_span_end_llhttp__on_status => n_span_end_llhttp__on_status
  | s_n_span_end_llhttp__on_status_1 => n_span_end_llhttp__on_status_1
  | s_n_error_45 => n_error_45
  | s_n_invoke_update_status_code => n_invoke_update_status_code
  | s_n_error_46 => n_error_46
  | s_n_invoke_store_http_minor_1 => n_invoke_store_http_minor_1
  | s_n_error_47 => n_error_47
  | s_n_error_48 => n_error_48
  | s_n_invoke_store_http_major_1 => n_invoke_store_http_major_1
  | s_n_error_49 => n_error_49
  | s_n_error_52 => n_error_52
  | s_n_invoke_update_type => n_invoke_update_type
  | s_n_invoke_store_method => n_invoke_store_method
  | s_n_error_50 => n_error_50
  | s_n_invoke_update_type_1 => n_invoke_update_type_1
  | s_n_invoke_update_type_2 => n_invoke_update_type_2
  | s_n_pause_8 => n_pause_8
  | s_n_error => n_error
  | s_n_invoke_llhttp__on_message_begin => n_invoke_llhttp__on_message_begin
  | s_n_invoke_update_finish => n_invoke_update_finish
  end.
