(* ===== verification/Llhttp.v ===== *)
(** The parser object of corelib/llhttp: its record, the hand-written functions of
    http.c and api.c and the functions that the blocks of llhttp.c call.

    A pointer into the buffer of a read is the rest of the buffer from there, so
    [endp] is []; [settings] is an address, 0 for NULL, and [settings_at] the
    callbacks there.  A callback is a function of the parser object, whose [data]
    it may change; the number is what it returns. *)

From Stdlib Require Import ZArith Lia.
From stdpp Require Import base strings numbers list.
From S2P Require Import Prelude LlhttpNodes.
Open Scope Z_scope.

(** ** llhttp.h *)

Definition HPE_OK : Z := 0.
Definition HPE_PAUSED_UPGRADE : Z := 22.
Definition HPE_INTERNAL : Z := 1.
Definition HPE_STRICT : Z := 2.
Definition HPE_LF_EXPECTED : Z := 3.
Definition HPE_UNEXPECTED_CONTENT_LENGTH : Z := 4.
Definition HPE_CLOSED_CONNECTION : Z := 5.
Definition HPE_INVALID_METHOD : Z := 6.
Definition HPE_INVALID_URL : Z := 7.
Definition HPE_INVALID_CONSTANT : Z := 8.
Definition HPE_INVALID_VERSION : Z := 9.
Definition HPE_INVALID_HEADER_TOKEN : Z := 10.
Definition HPE_INVALID_CONTENT_LENGTH : Z := 11.
Definition HPE_INVALID_CHUNK_SIZE : Z := 12.
Definition HPE_INVALID_STATUS : Z := 13.
Definition HPE_INVALID_EOF_STATE : Z := 14.
Definition HPE_INVALID_TRANSFER_ENCODING : Z := 15.
Definition HPE_CB_MESSAGE_BEGIN : Z := 16.
Definition HPE_CB_HEADERS_COMPLETE : Z := 17.
Definition HPE_CB_MESSAGE_COMPLETE : Z := 18.
Definition HPE_CB_CHUNK_HEADER : Z := 19.
Definition HPE_CB_CHUNK_COMPLETE : Z := 20.
Definition HPE_PAUSED : Z := 21.
Definition HPE_PAUSED_H2_UPGRADE : Z := 23.
Definition HPE_USER : Z := 24.

Definition F_CONNECTION_KEEP_ALIVE : Z := 0x1.
Definition F_CONNECTION_CLOSE : Z := 0x2.
Definition F_CONNECTION_UPGRADE : Z := 0x4.
Definition F_CHUNKED : Z := 0x8.
Definition F_UPGRADE : Z := 0x10.
Definition F_CONTENT_LENGTH : Z := 0x20.
Definition F_SKIPBODY : Z := 0x40.
Definition F_TRAILING : Z := 0x80.
Definition F_TRANSFER_ENCODING : Z := 0x200.
Definition LENIENT_HEADERS : Z := 0x1.
Definition LENIENT_CHUNKED_LENGTH : Z := 0x2.
Definition LENIENT_KEEP_ALIVE : Z := 0x4.

Definition HTTP_BOTH : Z := 0.
Definition HTTP_REQUEST : Z := 1.
Definition HTTP_RESPONSE : Z := 2.
Definition HTTP_FINISH_SAFE : Z := 0.
Definition HTTP_FINISH_SAFE_WITH_CB : Z := 1.
Definition HTTP_FINISH_UNSAFE : Z := 2.
Definition HTTP_CONNECT : Z := 5.

(** [llhttp__internal_s]. *)
Record llhttp_t (D : Type) : Type := mkLlhttp {
  _index : Z;
  _span_pos0 : option (list Z);
  _span_cb0 : option span_cb;
  error : Z;
  reason : option string;
  error_pos : option (list Z);
  data : D;
  _current : llparse_state;
  content_length : Z;
  type : Z;
  method : Z;
  http_major : Z;
  http_minor : Z;
  header_state : Z;
  lenient_flags : Z;
  upgrade : Z;
  finish : Z;
  flags : Z;
  status_code : Z;
  settings : Z;
}.

Arguments mkLlhttp {D}.
Arguments _index {D} _.
Arguments _span_pos0 {D} _.
Arguments _span_cb0 {D} _.
Arguments error {D} _.
Arguments reason {D} _.
Arguments error_pos {D} _.
Arguments data {D} _.
Arguments _current {D} _.
Arguments content_length {D} _.
Arguments type {D} _.
Arguments method {D} _.
Arguments http_major {D} _.
Arguments http_minor {D} _.
Arguments header_state {D} _.
Arguments lenient_flags {D} _.
Arguments upgrade {D} _.
Arguments finish {D} _.
Arguments flags {D} _.
Arguments status_code {D} _.
Arguments settings {D} _.

Definition set_index {D} (v : Z) (s : llhttp_t D) : llhttp_t D :=
  mkLlhttp v (_span_pos0 s) (_span_cb0 s) (error s) (reason s) (error_pos s) (data s) (_current s)
    (content_length s) (type s) (method s) (http_major s) (http_minor s) (header_state s) (lenient_flags s)
    (upgrade s) (finish s) (flags s) (status_code s) (settings s).
Definition set_span_pos0 {D} (v : option (list Z)) (s : llhttp_t D) : llhttp_t D :=
  mkLlhttp (_index s) v (_span_cb0 s) (error s) (reason s) (error_pos s) (data s) (_current s) (content_length s)
    (type s) (method s) (http_major s) (http_minor s) (header_state s) (lenient_flags s) (upgrade s) (finish s)
    (flags s) (status_code s) (settings s).
Definition set_span_cb0 {D} (v : option span_cb) (s : llhttp_t D) : llhttp_t D :=
  mkLlhttp (_index s) (_span_pos0 s) v (error s) (reason s) (error_pos s) (data s) (_current s) (content_length s)
    (type s) (method s) (http_major s) (http_minor s) (header_state s) (lenient_flags s) (upgrade s) (finish s)
    (flags s) (status_code s) (settings s).
Definition set_error {D} (v : Z) (s : llhttp_t D) : llhttp_t D :=
  mkLlhttp (_index s) (_span_pos0 s) (_span_cb0 s) v (reason s) (error_pos s) (data s) (_current s)
    (content_length s) (type s) (method s) (http_major s) (http_minor s) (header_state s) (lenient_flags s)
    (upgrade s) (finish s) (flags s) (status_code s) (settings s).
Definition set_reason {D} (v : option string) (s : llhttp_t D) : llhttp_t D :=
  mkLlhttp (_index s) (_span_pos0 s) (_span_cb0 s) (error s) v (error_pos s) (data s) (_current s)
    (content_length s) (type s) (method s) (http_major s) (http_minor s) (header_state s) (lenient_flags s)
    (upgrade s) (finish s) (flags s) (status_code s) (settings s).
Definition set_error_pos {D} (v : option (list Z)) (s : llhttp_t D) : llhttp_t D :=
  mkLlhttp (_index s) (_span_pos0 s) (_span_cb0 s) (error s) (reason s) v (data s) (_current s) (content_length s)
    (type s) (method s) (http_major s) (http_minor s) (header_state s) (lenient_flags s) (upgrade s) (finish s)
    (flags s) (status_code s) (settings s).
Definition set_current {D} (v : llparse_state) (s : llhttp_t D) : llhttp_t D :=
  mkLlhttp (_index s) (_span_pos0 s) (_span_cb0 s) (error s) (reason s) (error_pos s) (data s) v (content_length s)
    (type s) (method s) (http_major s) (http_minor s) (header_state s) (lenient_flags s) (upgrade s) (finish s)
    (flags s) (status_code s) (settings s).
Definition set_content_length {D} (v : Z) (s : llhttp_t D) : llhttp_t D :=
  mkLlhttp (_index s) (_span_pos0 s) (_span_cb0 s) (error s) (reason s) (error_pos s) (data s) (_current s) v
    (type s) (method s) (http_major s) (http_minor s) (header_state s) (lenient_flags s) (upgrade s) (finish s)
    (flags s) (status_code s) (settings s).
Definition set_type {D} (v : Z) (s : llhttp_t D) : llhttp_t D :=
  mkLlhttp (_index s) (_span_pos0 s) (_span_cb0 s) (error s) (reason s) (error_pos s) (data s) (_current s)
    (content_length s) v (method s) (http_major s) (http_minor s) (header_state s) (lenient_flags s) (upgrade s)
    (finish s) (flags s) (status_code s) (settings s).
Definition set_method {D} (v : Z) (s : llhttp_t D) : llhttp_t D :=
  mkLlhttp (_index s) (_span_pos0 s) (_span_cb0 s) (error s) (reason s) (error_pos s) (data s) (_current s)
    (content_length s) (type s) v (http_major s) (http_minor s) (header_state s) (lenient_flags s) (upgrade s)
    (finish s) (flags s) (status_code s) (settings s).
Definition set_http_major {D} (v : Z) (s : llhttp_t D) : llhttp_t D :=
  mkLlhttp (_index s) (_span_pos0 s) (_span_cb0 s) (error s) (reason s) (error_pos s) (data s) (_current s)
    (content_length s) (type s) (method s) v (http_minor s) (header_state s) (lenient_flags s) (upgrade s)
    (finish s) (flags s) (status_code s) (settings s).
Definition set_http_minor {D} (v : Z) (s : llhttp_t D) : llhttp_t D :=
  mkLlhttp (_index s) (_span_pos0 s) (_span_cb0 s) (error s) (reason s) (error_pos s) (data s) (_current s)
    (content_length s) (type s) (method s) (http_major s) v (header_state s) (lenient_flags s) (upgrade s)
    (finish s) (flags s) (status_code s) (settings s).
Definition set_header_state {D} (v : Z) (s : llhttp_t D) : llhttp_t D :=
  mkLlhttp (_index s) (_span_pos0 s) (_span_cb0 s) (error s) (reason s) (error_pos s) (data s) (_current s)
    (content_length s) (type s) (method s) (http_major s) (http_minor s) v (lenient_flags s) (upgrade s) (finish s)
    (flags s) (status_code s) (settings s).
Definition set_lenient_flags {D} (v : Z) (s : llhttp_t D) : llhttp_t D :=
  mkLlhttp (_index s) (_span_pos0 s) (_span_cb0 s) (error s) (reason s) (error_pos s) (data s) (_current s)
    (content_length s) (type s) (method s) (http_major s) (http_minor s) (header_state s) v (upgrade s) (finish s)
    (flags s) (status_code s) (settings s).
Definition set_upgrade {D} (v : Z) (s : llhttp_t D) : llhttp_t D :=
  mkLlhttp (_index s) (_span_pos0 s) (_span_cb0 s) (error s) (reason s) (error_pos s) (data s) (_current s)
    (content_length s) (type s) (method s) (http_major s) (http_minor s) (header_state s) (lenient_flags s) v
    (finish s) (flags s) (status_code s) (settings s).
Definition set_finish {D} (v : Z) (s : llhttp_t D) : llhttp_t D :=
  mkLlhttp (_index s) (_span_pos0 s) (_span_cb0 s) (error s) (reason s) (error_pos s) (data s) (_current s)
    (content_length s) (type s) (method s) (http_major s) (http_minor s) (header_state s) (lenient_flags s)
    (upgrade s) v (flags s) (status_code s) (settings s).
Definition set_flags {D} (v : Z) (s : llhttp_t D) : llhttp_t D :=
  mkLlhttp (_index s) (_span_pos0 s) (_span_cb0 s) (error s) (reason s) (error_pos s) (data s) (_current s)
    (content_length s) (type s) (method s) (http_major s) (http_minor s) (header_state s) (lenient_flags s)
    (upgrade s) (finish s) v (status_code s) (settings s).
Definition set_status_code {D} (v : Z) (s : llhttp_t D) : llhttp_t D :=
  mkLlhttp (_index s) (_span_pos0 s) (_span_cb0 s) (error s) (reason s) (error_pos s) (data s) (_current s)
    (content_length s) (type s) (method s) (http_major s) (http_minor s) (header_state s) (lenient_flags s)
    (upgrade s) (finish s) (flags s) v (settings s).
Definition set_settings {D} (v : Z) (s : llhttp_t D) : llhttp_t D :=
  mkLlhttp (_index s) (_span_pos0 s) (_span_cb0 s) (error s) (reason s) (error_pos s) (data s) (_current s)
    (content_length s) (type s) (method s) (http_major s) (http_minor s) (header_state s) (lenient_flags s)
    (upgrade s) (finish s) (flags s) (status_code s) v.
Definition set_data {D E} (v : E) (s : llhttp_t D) : llhttp_t E :=
  mkLlhttp (_index s) (_span_pos0 s) (_span_cb0 s) (error s) (reason s) (error_pos s) v (_current s)
    (content_length s) (type s) (method s) (http_major s) (http_minor s) (header_state s) (lenient_flags s)
    (upgrade s) (finish s) (flags s) (status_code s) (settings s).

Record llhttp_settings_t (D : Type) : Type := mkSettings {
  on_message_begin : option (llhttp_t D -> Z * llhttp_t D);
  on_url : option (llhttp_t D -> list Z -> Z * llhttp_t D);
  on_status : option (llhttp_t D -> list Z -> Z * llhttp_t D);
  on_header_field : option (llhttp_t D -> list Z -> Z * llhttp_t D);
  on_header_value : option (llhttp_t D -> list Z -> Z * llhttp_t D);
  on_headers_complete : option (llhttp_t D -> Z * llhttp_t D);
  on_body : option (llhttp_t D -> list Z -> Z * llhttp_t D);
  on_message_complete : option (llhttp_t D -> Z * llhttp_t D);
  on_chunk_header : option (llhttp_t D -> Z * llhttp_t D);
  on_chunk_complete : option (llhttp_t D -> Z * llhttp_t D);
  on_url_complete : option (llhttp_t D -> Z * llhttp_t D);
  on_status_complete : option (llhttp_t D -> Z * llhttp_t D);
  on_header_field_complete : option (llhttp_t D -> Z * llhttp_t D);
  on_header_value_complete : option (llhttp_t D -> Z * llhttp_t D);
}.
Arguments mkSettings {D}.
Arguments on_message_begin {D} _.
Arguments on_url {D} _.
Arguments on_status {D} _.
Arguments on_header_field {D} _.
Arguments on_header_value {D} _.
Arguments on_headers_complete {D} _.
Arguments on_body {D} _.
Arguments on_message_complete {D} _.
Arguments on_chunk_header {D} _.
Arguments on_chunk_complete {D} _.
Arguments on_url_complete {D} _.
Arguments on_status_complete {D} _.
Arguments on_header_field_complete {D} _.
Arguments on_header_value_complete {D} _.

(** [llhttp_settings_init]. *)
Definition llhttp_settings_init {D} : llhttp_settings_t D :=
  mkSettings None None None None None None None None None None None None None None.

(** The names of the errors and of the methods; None is abort(). *)
Definition HTTP_ERRNO_MAP : list (Z * string) :=
  [(0, "HPE_OK"%string); (1, "HPE_INTERNAL"%string); (2, "HPE_STRICT"%string); (3, "HPE_LF_EXPECTED"%string);
   (4, "HPE_UNEXPECTED_CONTENT_LENGTH"%string); (5, "HPE_CLOSED_CONNECTION"%string);
   (6, "HPE_INVALID_METHOD"%string); (7, "HPE_INVALID_URL"%string); (8, "HPE_INVALID_CONSTANT"%string);
   (9, "HPE_INVALID_VERSION"%string); (10, "HPE_INVALID_HEADER_TOKEN"%string);
   (11, "HPE_INVALID_CONTENT_LENGTH"%string); (12, "HPE_INVALID_CHUNK_SIZE"%string);
   (13, "HPE_INVALID_STATUS"%string); (14, "HPE_INVALID_EOF_STATE"%string);
   (15, "HPE_INVALID_TRANSFER_ENCODING"%string); (16, "HPE_CB_MESSAGE_BEGIN"%string);
   (17, "HPE_CB_HEADERS_COMPLETE"%string); (18, "HPE_CB_MESSAGE_COMPLETE"%string);
   (19, "HPE_CB_CHUNK_HEADER"%string); (20, "HPE_CB_CHUNK_COMPLETE"%string); (21, "HPE_PAUSED"%string);
   (22, "HPE_PAUSED_UPGRADE"%string); (23, "HPE_PAUSED_H2_UPGRADE"%string); (24, "HPE_USER"%string)].

Definition HTTP_ALL_METHOD_MAP : list (Z * string) :=
  [(0, "DELETE"%string); (1, "GET"%string); (2, "HEAD"%string); (3, "POST"%string); (4, "PUT"%string);
   (5, "CONNECT"%string); (6, "OPTIONS"%string); (7, "TRACE"%string); (8, "COPY"%string); (9, "LOCK"%string);
   (10, "MKCOL"%string); (11, "MOVE"%string); (12, "PROPFIND"%string); (13, "PROPPATCH"%string);
   (14, "SEARCH"%string); (15, "UNLOCK"%string); (16, "BIND"%string); (17, "REBIND"%string);
   (18, "UNBIND"%string); (19, "ACL"%string); (20, "REPORT"%string); (21, "MKACTIVITY"%string);
   (22, "CHECKOUT"%string); (23, "MERGE"%string); (24, "M-SEARCH"%string); (25, "NOTIFY"%string);
   (26, "SUBSCRIBE"%string); (27, "UNSUBSCRIBE"%string); (28, "PATCH"%string); (29, "PURGE"%string);
   (30, "MKCALENDAR"%string); (31, "LINK"%string); (32, "UNLINK"%string); (33, "SOURCE"%string);
   (34, "PRI"%string); (35, "DESCRIBE"%string); (36, "ANNOUNCE"%string); (37, "SETUP"%string);
   (38, "PLAY"%string); (39, "PAUSE"%string); (40, "TEARDOWN"%string); (41, "GET_PARAMETER"%string);
   (42, "SET_PARAMETER"%string); (43, "REDIRECT"%string); (44, "RECORD"%string); (45, "FLUSH"%string)].

Definition name_in (table : list (Z * string)) (n : Z) : option string := snd <$> find (fun x => fst x =? n) table.
Definition llhttp_errno_name (err : Z) : option string := name_in HTTP_ERRNO_MAP err.
Definition llhttp_method_name (m : Z) : option string := name_in HTTP_ALL_METHOD_MAP m.

(** ** http.c *)

Definition has (mask v : Z) : bool := negb (Z.land v mask =? 0).

Section Parser.
Context {D : Type}.
Abbreviation parser := (llhttp_t D).

Definition llhttp__before_headers_complete (s : parser) : Z * parser :=
  (0, if has F_UPGRADE (flags s) && has F_CONNECTION_UPGRADE (flags s)
      then set_upgrade (Z.b2z ((type s =? HTTP_REQUEST) || (status_code s =? 101))) s
      else set_upgrade (Z.b2z (method s =? HTTP_CONNECT)) s).

Definition llhttp_message_needs_eof (s : parser) : bool :=
  if type s =? HTTP_REQUEST then false
  else if (status_code s / 100 =? 1) || (status_code s =? 204) || (status_code s =? 304) || has F_SKIPBODY (flags s) then false
  else if has F_TRANSFER_ENCODING (flags s) && (Z.land (flags s) F_CHUNKED =? 0) then true
  else if has (Z.lor F_CHUNKED F_CONTENT_LENGTH) (flags s) then false
  else true.

Definition llhttp_should_keep_alive (s : parser) : bool :=
  if (http_major s >? 0) && (http_minor s >? 0)
  then if has F_CONNECTION_CLOSE (flags s) then false else negb (llhttp_message_needs_eof s)
  else if negb (has F_CONNECTION_KEEP_ALIVE (flags s)) then false else negb (llhttp_message_needs_eof s).

Definition llhttp__after_headers_complete (s : parser) : Z * parser :=
  let hasBody := has F_CHUNKED (flags s) || (content_length s >? 0) in
  let answer :=
    if negb (upgrade s =? 0) && ((method s =? HTTP_CONNECT) || has F_SKIPBODY (flags s) || negb hasBody) then 1
    else if has F_SKIPBODY (flags s) then 0
    else if has F_CHUNKED (flags s) then 2
    else if has F_TRANSFER_ENCODING (flags s) then
      if (type s =? HTTP_REQUEST) && (Z.land (lenient_flags s) LENIENT_CHUNKED_LENGTH =? 0) then 5 else 4
    else if negb (has F_CONTENT_LENGTH (flags s)) then
      if negb (llhttp_message_needs_eof s) then 0 else 4
    else if content_length s =? 0 then 0
    else 3 in
  (answer, s).

Definition llhttp__after_message_complete (s : parser) : Z * parser :=
  let should_keep_alive := llhttp_should_keep_alive s in
  (Z.b2z should_keep_alive, set_flags 0 (set_finish HTTP_FINISH_SAFE s)).

(** ** Functions of llhttp.c *)

Definition c_update_finish (s : parser) : Z * parser := (0, set_finish 2 s).
Definition c_load_type (s : parser) : Z * parser := (type s, s).
Definition c_store_method (m : Z) (s : parser) : Z * parser := (0, set_method (wrapu 8 m) s).
Definition c_is_equal_method (s : parser) : Z * parser := (Z.b2z (method s =? 5), s).
Definition c_update_http_major (s : parser) : Z * parser := (0, set_http_major 0 s).
Definition c_update_http_minor (s : parser) : Z * parser := (0, set_http_minor 9 s).
Definition c_test_flags (s : parser) : Z * parser := (Z.b2z (Z.land (flags s) 128 =? 128), s).
Definition c_is_equal_upgrade (s : parser) : Z * parser := (Z.b2z (upgrade s =? 1), s).
Definition c_update_finish_1 (s : parser) : Z * parser := (0, set_finish 0 s).
Definition c_test_lenient_flags (s : parser) : Z * parser := (Z.b2z (Z.land (lenient_flags s) 4 =? 4), s).
Definition c_test_flags_1 (s : parser) : Z * parser := (Z.b2z (Z.land (flags s) 544 =? 544), s).
Definition c_test_lenient_flags_1 (s : parser) : Z * parser := (Z.b2z (Z.land (lenient_flags s) 2 =? 2), s).
Definition c_update_content_length (s : parser) : Z * parser := (0, set_content_length 0 s).
Definition c_is_equal_content_length (s : parser) : Z * parser := (Z.b2z (content_length s =? 0), s).
Definition c_or_flags (s : parser) : Z * parser := (0, set_flags (Z.lor (flags s) 128) s).
Definition c_update_finish_3 (s : parser) : Z * parser := (0, set_finish 1 s).
Definition c_or_flags_1 (s : parser) : Z * parser := (0, set_flags (Z.lor (flags s) 64) s).
Definition c_update_upgrade (s : parser) : Z * parser := (0, set_upgrade 1 s).
Definition c_store_header_state (m : Z) (s : parser) : Z * parser := (0, set_header_state (wrapu 8 m) s).
Definition c_test_lenient_flags_2 (s : parser) : Z * parser := (Z.b2z (Z.land (lenient_flags s) 1 =? 1), s).
Definition c_load_header_state (s : parser) : Z * parser := (header_state s, s).
Definition c_or_flags_3 (s : parser) : Z * parser := (0, set_flags (Z.lor (flags s) 1) s).
Definition c_update_header_state (s : parser) : Z * parser := (0, set_header_state 1 s).
Definition c_or_flags_4 (s : parser) : Z * parser := (0, set_flags (Z.lor (flags s) 2) s).
Definition c_or_flags_5 (s : parser) : Z * parser := (0, set_flags (Z.lor (flags s) 4) s).
Definition c_or_flags_6 (s : parser) : Z * parser := (0, set_flags (Z.lor (flags s) 8) s).
Definition c_update_header_state_2 (s : parser) : Z * parser := (0, set_header_state 6 s).
Definition c_update_header_state_4 (s : parser) : Z * parser := (0, set_header_state 0 s).
Definition c_update_header_state_5 (s : parser) : Z * parser := (0, set_header_state 5 s).
Definition c_update_header_state_6 (s : parser) : Z * parser := (0, set_header_state 7 s).
Definition c_test_flags_2 (s : parser) : Z * parser := (Z.b2z (Z.land (flags s) 32 =? 32), s).
Definition c_or_flags_15 (s : parser) : Z * parser := (0, set_flags (Z.lor (flags s) 32) s).
Definition c_or_flags_16 (s : parser) : Z * parser := (0, set_flags (Z.lor (flags s) 512) s).
Definition c_and_flags (s : parser) : Z * parser := (0, set_flags (wrapu 16 (Z.land (flags s) (-9))) s).
Definition c_update_header_state_7 (s : parser) : Z * parser := (0, set_header_state 8 s).
Definition c_or_flags_17 (s : parser) : Z * parser := (0, set_flags (Z.lor (flags s) 16) s).
Definition c_load_method (s : parser) : Z * parser := (method s, s).
Definition c_store_http_major (m : Z) (s : parser) : Z * parser := (0, set_http_major (wrapu 8 m) s).
Definition c_store_http_minor (m : Z) (s : parser) : Z * parser := (0, set_http_minor (wrapu 8 m) s).
Definition c_update_status_code (s : parser) : Z * parser := (0, set_status_code 0 s).
Definition c_update_type (s : parser) : Z * parser := (0, set_type 1 s).
Definition c_update_type_1 (s : parser) : Z * parser := (0, set_type 2 s).

(** [mul_add_*]: the number so far times the base plus the digit, 1 on overflow;
    the product is stored before the sum is tested. *)
Definition mul_add (base max : Z) (m v : Z) : Z * Z :=
  if v >? max / base then (1, v)
  else
    let v1 := v * base in
    if (if m >=? 0 then v1 >? max - m else v1 <? - m) then (1, v1)
    else (0, v1 + m).

Definition c_mul_add_content_length (m : Z) (s : parser) : Z * parser :=
  let '(r, v) := mul_add 16 (2 ^ 64 - 1) m (content_length s) in (r, set_content_length v s).

Definition c_mul_add_content_length_1 (m : Z) (s : parser) : Z * parser :=
  let '(r, v) := mul_add 10 (2 ^ 64 - 1) m (content_length s) in (r, set_content_length v s).

Definition c_mul_add_status_code (m : Z) (s : parser) : Z * parser :=
  let '(r, v) := mul_add 10 (2 ^ 16 - 1) m (status_code s) in
  (if r =? 0 then Z.b2z (v >? 999) else r, set_status_code v s).

(** ** api.c *)

Definition llhttp_set_error_reason (r : string) (s : parser) : parser := set_reason (Some r) s.
Definition llhttp_get_errno (s : parser) : Z := error s.
Definition llhttp_get_error_reason (s : parser) : option string := reason s.
Definition llhttp_get_error_pos (s : parser) : option (list Z) := error_pos s.

Definition llhttp_pause (s : parser) : parser :=
  if negb (error s =? HPE_OK) then s else set_reason (Some "Paused"%string) (set_error HPE_PAUSED s).

Definition llhttp_resume (s : parser) : parser :=
  if negb (error s =? HPE_PAUSED) then s else set_error 0 s.

Definition llhttp_resume_after_upgrade (s : parser) : parser :=
  if negb (error s =? HPE_PAUSED_UPGRADE) then s else set_error 0 s.

Definition set_lenient (mask : Z) (enabled : bool) (s : parser) : parser :=
  if enabled then set_lenient_flags (Z.lor (lenient_flags s) mask) s
  else set_lenient_flags (Z.land (lenient_flags s) (Z.lnot mask)) s.
Definition llhttp_set_lenient_headers : bool -> parser -> parser := set_lenient LENIENT_HEADERS.
Definition llhttp_set_lenient_chunked_length : bool -> parser -> parser := set_lenient LENIENT_CHUNKED_LENGTH.
Definition llhttp_set_lenient_keep_alive : bool -> parser -> parser := set_lenient LENIENT_KEEP_ALIVE.

Section Callbacks.
Context (settings_at : Z -> llhttp_settings_t D).

Definition CALLBACK_MAYBE (name : llhttp_settings_t D -> option (parser -> Z * parser)) (s : parser) : Z * parser :=
  if settings s =? 0 then (0, s)
  else match name (settings_at (settings s)) with None => (0, s) | Some f => f s end.

Definition SPAN_CALLBACK_MAYBE (name : llhttp_settings_t D -> option (parser -> list Z -> Z * parser)) (what : string)
    (s : parser) (span : list Z) : Z * parser :=
  if settings s =? 0 then (0, s)
  else match name (settings_at (settings s)) with
       | None => (0, s)
       | Some f =>
           let '(err, s1) := f s span in
           if err =? -1 then (HPE_USER, llhttp_set_error_reason ("Span callback error in " ++ what)%string s1) else (err, s1)
       end.

Definition llhttp__on_message_begin : parser -> Z * parser := CALLBACK_MAYBE on_message_begin.
Definition llhttp__on_url : parser -> list Z -> Z * parser := SPAN_CALLBACK_MAYBE on_url "on_url".
Definition llhttp__on_url_complete : parser -> Z * parser := CALLBACK_MAYBE on_url_complete.
Definition llhttp__on_status : parser -> list Z -> Z * parser := SPAN_CALLBACK_MAYBE on_status "on_status".
Definition llhttp__on_status_complete : parser -> Z * parser := CALLBACK_MAYBE on_status_complete.
Definition llhttp__on_header_field : parser -> list Z -> Z * parser := SPAN_CALLBACK_MAYBE on_header_field "on_header_field".
Definition llhttp__on_header_field_complete : parser -> Z * parser := CALLBACK_MAYBE on_header_field_complete.
Definition llhttp__on_header_value : parser -> list Z -> Z * parser := SPAN_CALLBACK_MAYBE on_header_value "on_header_value".
Definition llhttp__on_header_value_complete : parser -> Z * parser := CALLBACK_MAYBE on_header_value_complete.
Definition llhttp__on_headers_complete : parser -> Z * parser := CALLBACK_MAYBE on_headers_complete.
Definition llhttp__on_message_complete : parser -> Z * parser := CALLBACK_MAYBE on_message_complete.
Definition llhttp__on_body : parser -> list Z -> Z * parser := SPAN_CALLBACK_MAYBE on_body "on_body".
Definition llhttp__on_chunk_header : parser -> Z * parser := CALLBACK_MAYBE on_chunk_header.
Definition llhttp__on_chunk_complete : parser -> Z * parser := CALLBACK_MAYBE on_chunk_complete.

(** ** What a block calls *)

Definition call (k : llparse_code) (m : Z) (s : parser) : Z * parser :=
  match k with
  | k_after_message_complete => llhttp__after_message_complete s
  | k_is_equal_upgrade => c_is_equal_upgrade s
  | k_on_message_complete => llhttp__on_message_complete s
  | k_is_equal_content_length => c_is_equal_content_length s
  | k_update_content_length => c_update_content_length s
  | k_after_headers_complete => llhttp__after_headers_complete s
  | k_on_header_value_complete => llhttp__on_header_value_complete s
  | k_on_header_field_complete => llhttp__on_header_field_complete s
  | k_on_status_complete => llhttp__on_status_complete s
  | k_load_type => c_load_type s
  | k_update_finish_1 => c_update_finish_1 s
  | k_test_lenient_flags => c_test_lenient_flags s
  | k_on_chunk_complete => llhttp__on_chunk_complete s
  | k_or_flags => c_or_flags s
  | k_on_chunk_header => llhttp__on_chunk_header s
  | k_mul_add_content_length => c_mul_add_content_length m s
  | k_update_finish_3 => c_update_finish_3 s
  | k_or_flags_1 => c_or_flags_1 s
  | k_update_upgrade => c_update_upgrade s
  | k_on_headers_complete => llhttp__on_headers_complete s
  | k_before_headers_complete => llhttp__before_headers_complete s
  | k_test_lenient_flags_1 => c_test_lenient_flags_1 s
  | k_test_flags_1 => c_test_flags_1 s
  | k_test_flags => c_test_flags s
  | k_test_lenient_flags_2 => c_test_lenient_flags_2 s
  | k_update_header_state => c_update_header_state s
  | k_or_flags_3 => c_or_flags_3 s
  | k_or_flags_4 => c_or_flags_4 s
  | k_or_flags_5 => c_or_flags_5 s
  | k_or_flags_6 => c_or_flags_6 s
  | k_load_header_state => c_load_header_state s
  | k_update_header_state_4 => c_update_header_state_4 s
  | k_update_header_state_2 => c_update_header_state_2 s
  | k_update_header_state_5 => c_update_header_state_5 s
  | k_update_header_state_6 => c_update_header_state_6 s
  | k_mul_add_content_length_1 => c_mul_add_content_length_1 m s
  | k_or_flags_15 => c_or_flags_15 s
  | k_test_flags_2 => c_test_flags_2 s
  | k_update_header_state_7 => c_update_header_state_7 s
  | k_and_flags => c_and_flags s
  | k_or_flags_16 => c_or_flags_16 s
  | k_or_flags_17 => c_or_flags_17 s
  | k_store_header_state => c_store_header_state m s
  | k_on_url_complete => llhttp__on_url_complete s
  | k_update_http_minor => c_update_http_minor s
  | k_update_http_major => c_update_http_major s
  | k_load_method => c_load_method s
  | k_store_http_minor => c_store_http_minor m s
  | k_store_http_major => c_store_http_major m s
  | k_is_equal_method => c_is_equal_method s
  | k_store_method => c_store_method m s
  | k_mul_add_status_code => c_mul_add_status_code m s
  | k_update_status_code => c_update_status_code s
  | k_update_type => c_update_type s
  | k_update_type_1 => c_update_type_1 s
  | k_on_message_begin => llhttp__on_message_begin s
  | k_update_finish => c_update_finish s
  end.

Definition call_span (k : span_cb) (s : parser) (span : list Z) : Z * parser :=
  match k with
  | k_on_url => llhttp__on_url s span
  | k_on_header_field => llhttp__on_header_field s span
  | k_on_header_value => llhttp__on_header_value s span
  | k_on_body => llhttp__on_body s span
  | k_on_status => llhttp__on_status s span
  end.

(** ** llparse__match_sequence_* *)

Definition transform_byte (how : transform) (c : Z) : Z :=
  match how with
  | match_id => c
  | to_lower => if (65 <=? c) && (c <=? 90) then Z.lor c 0x20 else c
  | to_lower_unsafe => Z.lor c 0x20
  end.

Inductive match_status : Type := kMatchComplete | kMatchPause | kMatchMismatch.

(** The status, the index reached and the place in the buffer. *)
Fixpoint match_sequence (how : transform) (seq : list Z) (index : nat) (p : list Z) : match_status * nat * list Z :=
  match p with
  | [] => (kMatchPause, index, [])
  | c :: p' =>
      if bool_decide (seq !! index = Some (transform_byte how c))
      then if (S index =? length seq)%nat then (kMatchComplete, 0%nat, p) else match_sequence how seq (S index) p'
      else (kMatchMismatch, 0%nat, p)
  end.

(** ** llhttp__internal__run *)

(** What a block does: it jumps, with the variable match and the place, it
    returns the state to go on from, or it aborts. *)
Inductive outcome : Type :=
| Goto (l : llparse_state) (s : parser) (m : Z) (p : list Z)
| Return (l : llparse_state) (s : parser)
| Abort_.

Definition follow (e : edge) (s : parser) (m : Z) (p : list Z) : outcome :=
  match e with Edge a v l => Goto l s (default m v) (if a then tail p else p) end.

Fixpoint select {A} (c : Z) (cases : list (list Z * A)) (otherwise : A) : A :=
  match cases with
  | [] => otherwise
  | (ks, e) :: cases' => if existsb (Z.eqb c) ks then e else select c cases' otherwise
  end.

(** The bytes from [start] to [p]. *)
Definition span_text (start p : list Z) : list Z := take (length start - length p) start.

Definition step (l : llparse_state) (s : parser) (m : Z) (p : list Z) : outcome :=
  match node_of l with
  | Switch how cases otherwise =>
      match p with
      | [] => Return l s
      | c :: _ => follow (select (transform_byte how c) cases otherwise) s m p
      end
  | Lookup lookup_table cases otherwise =>
      match p with
      | [] => Return l s
      | c :: _ => follow (select (default 0 (lookup_table !! Z.to_nat c)) cases otherwise) s m p
      end
  | Skip next => match p with [] => Return l s | _ :: p' => Goto next s m p' end
  | Sequence how blob complete mismatch =>
      match p with
      | [] => Return l s
      | _ =>
          let '(status, index, p') := match_sequence how blob (Z.to_nat (_index s)) p in
          let s' := set_index (Z.of_nat index) s in
          match status with
          | kMatchComplete => follow complete s' m p'
          | kMatchPause => Return l s'
          | kMatchMismatch => follow mismatch s' m p'
          end
      end
  | Consume next =>
      let avail := Z.of_nat (length p) in
      let need := content_length s in
      if avail >=? need then Goto next (set_content_length 0 s) m (drop (Z.to_nat need) p)
      else Return l (set_content_length (need - avail) s)
  | SpanStart cb next =>
      match p with
      | [] => Return l s
      | _ => Goto next (set_span_cb0 (Some cb) (set_span_pos0 (Some p) s)) m p
      end
  | SpanEnd cb (Edge a v next) =>
      let start := default p (_span_pos0 s) in
      let '(err, s1) := call_span cb (set_span_pos0 None s) (span_text start p) in
      let p' := if a then tail p else p in
      if negb (err =? 0)
      then Return s_error (set_current next (set_error_pos (Some p') (set_error err s1)))
      else Goto next s1 (default m v) p'
  | Invoke f cases otherwise => let '(r, s1) := call f m s in Goto (select r cases otherwise) s1 m p
  | Fault code r current =>
      Return s_error (set_current current (set_error_pos (Some p) (set_reason (Some r) (set_error code s))))
  | Unreachable => Abort_
  end.

Fixpoint run (fuel : nat) (l : llparse_state) (s : parser) (m : Z) (p : list Z) : option (llparse_state * parser) :=
  match fuel with
  | O => None
  | S fuel' =>
      match step l s m p with
      | Goto l' s' m' p' => run fuel' l' s' m' p'
      | Return l' s' => Some (l', s')
      | Abort_ => None
      end
  end.

(** Blocks run between two bytes, see [step_measure]. *)
Definition run_fuel (p : list Z) : nat := (32 * S (length p))%nat.

(** [m] is what the uninitialised variable match holds. *)
Definition llhttp__internal__run (m : Z) (s : parser) (p : list Z) : option (llparse_state * parser) :=
  run (run_fuel p) (_current s) s m p.

Definition is_error (l : llparse_state) : bool := match l with s_error => true | _ => false end.

Definition llhttp__internal_execute (m : Z) (s : parser) (p : list Z) : option (Z * parser) :=
  if negb (error s =? 0) then Some (error s, s)
  else
    let s0 := match _span_pos0 s with None => s | Some _ => set_span_pos0 (Some p) s end in
    match llhttp__internal__run m s0 p with
    | None => None
    | Some (next, s1) =>
        if is_error next then Some (error s1, s1)
        else
          let s2 := set_current next s1 in
          match _span_pos0 s2, _span_cb0 s2 with
          | Some start, Some cb =>
              let '(err, s3) := call_span cb s2 start in
              if negb (err =? 0) then Some (err, set_error_pos (Some []) (set_error err s3)) else Some (0, s3)
          | _, _ => Some (0, s2)
          end
    end.

Definition llhttp_execute (m : Z) (s : parser) (d : list Z) : option (Z * parser) := llhttp__internal_execute m s d.

Definition llhttp_finish (s : parser) : option (Z * parser) :=
  if negb (error s =? 0) then Some (0, s)
  else if finish s =? HTTP_FINISH_SAFE_WITH_CB then
    let '(err, s1) := CALLBACK_MAYBE on_message_complete s in
    if negb (err =? HPE_OK) then Some (err, s1) else Some (HPE_OK, s1)
  else if finish s =? HTTP_FINISH_SAFE then Some (HPE_OK, s)
  else if finish s =? HTTP_FINISH_UNSAFE then Some (HPE_INVALID_EOF_STATE, set_reason (Some "Invalid EOF state"%string) s)
  else None.
End Callbacks.

(** memset to 0, and the first state; [null] is what [data] is then. *)
Definition llhttp__internal_init (null : D) : parser :=
  mkLlhttp 0 None None 0 None None null s_n_start 0 0 0 0 0 0 0 0 0 0 0 0.

Definition llhttp_init (null : D) (t : Z) (settings_ : Z) : parser :=
  set_settings settings_ (set_type (wrapu 8 t) (llhttp__internal_init null)).

Definition llhttp_reset (null : D) (s : parser) : parser :=
  set_lenient_flags (lenient_flags s) (set_data (data s) (set_settings (settings s) (set_type (type s) (llhttp__internal_init null)))).
End Parser.
