(* ===== verification/LlhttpRun.v ===== *)
(** The machine of llhttp.c: it stops on every input, whatever the callbacks do.

    Two tables about the blocks are checked by evaluation of the blocks: [rank],
    which falls along every jump that consumes no byte, and [span_of], the span
    that is open at a label. *)

From Stdlib Require Import ZArith Lia.
From stdpp Require Import base strings numbers list.
From S2P Require Import Prelude LlhttpNodes Llhttp.
Open Scope Z_scope.

(** ** Ranks *)

(** [sp]: the next byte is a space.  A space after the name of a header goes
    round two blocks, which is the one place where the byte matters. *)
Definition rank (l : llparse_state) (sp : bool) : nat :=
  match l with
  | s_n_header_field_colon => if sp then 23 else 20
  | s_n_start_res | s_n_req_or_res_method | s_n_start_req | s_n_span_end_llhttp__on_body |
      s_n_header_value_almost_done | s_n_span_end_llhttp__on_header_value_5 | s_n_chunk_parameters |
      s_n_chunk_size_otherwise | s_n_chunk_size_digit | s_n_span_start_llhttp__on_body_2 |
      s_n_invoke_llhttp__on_message_complete_1 | s_n_url_skip_lf_to_http09 | s_n_req_pri_upgrade |
      s_n_req_http_complete_1 | s_n_req_http_complete | s_n_req_http_minor | s_n_req_http_dot | s_n_req_http_major |
      s_n_req_http_start_1 | s_n_req_http_start_2 | s_n_req_http_start_3 | s_n_req_http_start |
      s_n_span_end_llhttp__on_url_8 | s_n_span_end_llhttp__on_url_6 | s_n_span_end_llhttp__on_url_11 |
      s_n_span_end_llhttp__on_url_9 | s_n_span_end_llhttp__on_url_5 | s_n_span_end_llhttp__on_url_3 |
      s_n_span_end_llhttp__on_url_12 | s_n_span_end_llhttp__on_url_14 | s_n_span_end_llhttp__on_url_2 |
      s_n_span_end_llhttp__on_url | s_n_url_schema_delim_1 | s_n_url_schema_delim | s_n_url_schema |
      s_n_req_first_space_before_url | s_n_start_req_2 | s_n_start_req_3 | s_n_start_req_1 | s_n_start_req_4 |
      s_n_start_req_6 | s_n_start_req_8 | s_n_start_req_9 | s_n_start_req_7 | s_n_start_req_5 | s_n_start_req_12 |
      s_n_start_req_13 | s_n_start_req_11 | s_n_start_req_10 | s_n_start_req_14 | s_n_start_req_17 |
      s_n_start_req_15 | s_n_start_req_18 | s_n_start_req_20 | s_n_start_req_21 | s_n_start_req_19 |
      s_n_start_req_23 | s_n_start_req_24 | s_n_start_req_26 | s_n_start_req_28 | s_n_start_req_29 |
      s_n_start_req_27 | s_n_start_req_25 | s_n_start_req_30 | s_n_start_req_22 | s_n_start_req_31 |
      s_n_start_req_32 | s_n_start_req_35 | s_n_start_req_36 | s_n_start_req_34 | s_n_start_req_37 |
      s_n_start_req_38 | s_n_start_req_42 | s_n_start_req_43 | s_n_start_req_41 | s_n_start_req_40 |
      s_n_start_req_39 | s_n_start_req_45 | s_n_start_req_44 | s_n_start_req_33 | s_n_start_req_48 |
      s_n_start_req_49 | s_n_start_req_50 | s_n_start_req_51 | s_n_start_req_47 | s_n_start_req_46 |
      s_n_start_req_54 | s_n_start_req_56 | s_n_start_req_57 | s_n_start_req_55 | s_n_start_req_53 |
      s_n_start_req_58 | s_n_start_req_59 | s_n_start_req_52 | s_n_start_req_61 | s_n_start_req_62 |
      s_n_start_req_60 | s_n_start_req_65 | s_n_start_req_67 | s_n_start_req_68 | s_n_start_req_66 |
      s_n_start_req_69 | s_n_start_req_64 | s_n_start_req_63 | s_n_span_end_llhttp__on_status_1 | s_n_res_http_end |
      s_n_res_http_minor | s_n_res_http_dot | s_n_res_http_major | s_n_req_or_res_method_2 |
      s_n_req_or_res_method_3 | s_n_req_or_res_method_1 | s_n_span_end_llhttp__on_header_field |
      s_n_span_end_llhttp__on_header_value_4 => 1
  | s_n_invoke_update_type_2 | s_n_consume_content_length | s_n_span_end_llhttp__on_header_value_1 |
      s_n_span_end_llhttp__on_header_value_3 | s_n_span_end_llhttp__on_header_value_2 | s_n_chunk_size |
      s_n_invoke_update_content_length | s_n_invoke_update_finish_3 | s_n_span_end_llhttp__on_url_7 |
      s_n_span_end_llhttp__on_url_10 | s_n_span_end_llhttp__on_url_4 | s_n_span_end_llhttp__on_url_13 |
      s_n_span_end_llhttp__on_url_1 | s_n_url_start | s_n_invoke_store_method_1 | s_n_invoke_load_method_1 |
      s_n_invoke_store_http_major | s_n_invoke_load_method | s_n_invoke_load_method_2 | s_n_invoke_load_method_3 |
      s_n_invoke_llhttp__on_url_complete_1 | s_n_invoke_store_http_minor_1 | s_n_invoke_store_http_major_1 |
      s_n_invoke_update_type | s_n_invoke_update_type_1 => 2
  | s_n_start_req_or_res | s_n_span_start_llhttp__on_body | s_n_header_value_lenient | s_n_url_fragment |
      s_n_url_query | s_n_url_query_or_fragment | s_n_url_server_with_at | s_n_url_server |
      s_n_span_start_llhttp__on_url_1 | s_n_start_req_16 | s_n_invoke_llhttp__on_chunk_complete |
      s_n_invoke_mul_add_content_length | s_n_invoke_store_http_minor | s_n_invoke_store_method => 3
  | s_n_invoke_load_type | s_n_invoke_test_lenient_flags_3 | s_n_url_path | s_n_span_start_llhttp__on_url => 4
  | s_n_invoke_llhttp__on_message_begin | s_n_header_value_otherwise | s_n_invoke_is_equal_method => 5
  | s_n_invoke_update_finish | s_n_header_value_connection_token | s_n_invoke_or_flags_15 | s_n_header_value |
      s_n_invoke_update_header_state_7 | s_n_req_spaces_before_url => 6
  | s_n_start | s_n_header_value_connection | s_n_header_value_content_length_ws |
      s_n_invoke_update_header_state_8 | s_n_invoke_update_header_state_4 | s_n_header_value_connection_1 |
      s_n_header_value_connection_2 | s_n_header_value_connection_3 => 7
  | s_n_invoke_update_finish_2 | s_n_header_value_content_length | s_n_header_value_te_token |
      s_n_invoke_or_flags_17 | s_n_header_value_connection_ws | s_n_invoke_update_header_state_3 |
      s_n_invoke_or_flags_14 => 8
  | s_n_invoke_test_lenient_flags | s_n_invoke_test_flags_2 | s_n_header_value_te_chunked | s_n_invoke_or_flags_11 |
      s_n_invoke_or_flags_12 | s_n_invoke_or_flags_13 | s_n_invoke_update_header_state_2 |
      s_n_invoke_update_header_state_5 | s_n_invoke_update_header_state_6 | s_n_invoke_mul_add_content_length_1 => 9
  | s_n_invoke_update_finish_1 | s_n_invoke_and_flags | s_n_header_value_te_chunked_last |
      s_n_header_value_te_token_ows | s_n_invoke_load_header_state_4 => 10
  | s_n_invoke_llhttp__after_message_complete | s_n_invoke_or_flags_16 => 11
  | s_n_invoke_is_equal_upgrade | s_n_invoke_load_header_state_2 | s_n_invoke_llhttp__on_message_complete => 12
  | s_n_invoke_llhttp__on_message_complete_2 | s_n_span_start_llhttp__on_header_value_1 => 13
  | s_n_header_value_discard_ws | s_n_span_end_llhttp__on_body_1 | s_n_invoke_llhttp__on_chunk_complete_1 => 14
  | s_n_invoke_llhttp__on_header_field_complete | s_n_consume_content_length_1 => 15
  | s_n_span_end_llhttp__on_header_field_2 | s_n_span_start_llhttp__on_body_1 |
      s_n_span_end_llhttp__on_header_field_1 => 16
  | s_n_header_field_general_otherwise | s_n_invoke_llhttp__after_headers_complete => 17
  | s_n_header_field_general | s_n_invoke_or_flags_1 | s_n_invoke_or_flags_2 => 18
  | s_n_invoke_update_header_state_10 | s_n_invoke_update_header_state_9 | s_n_invoke_update_upgrade => 19
  | s_n_header_field | s_n_header_field_3 | s_n_header_field_4 | s_n_header_field_2 | s_n_header_field_1 |
      s_n_header_field_5 | s_n_header_field_6 | s_n_header_field_7 | s_n_invoke_llhttp__on_headers_complete => 20
  | s_n_span_start_llhttp__on_header_field | s_n_header_field_colon_discard_ws |
      s_n_invoke_llhttp__before_headers_complete => 21
  | s_n_header_field_start | s_n_invoke_test_lenient_flags_1 | s_n_invoke_test_lenient_flags_2 => 22
  | s_n_invoke_or_flags | s_n_invoke_llhttp__on_header_value_complete | s_n_invoke_llhttp__on_status_complete |
      s_n_invoke_test_flags_1 | s_n_invoke_llhttp__on_url_complete => 23
  | s_n_invoke_is_equal_content_length | s_n_span_end_llhttp__on_header_value | s_n_invoke_update_header_state_1 |
      s_n_invoke_or_flags_10 | s_n_span_end_llhttp__on_status | s_n_invoke_test_flags |
      s_n_invoke_store_header_state | s_n_invoke_update_http_minor => 24
  | s_n_span_start_llhttp__on_header_value | s_n_invoke_or_flags_9 | s_n_invoke_or_flags_7 | s_n_invoke_or_flags_8 |
      s_n_res_status | s_n_invoke_llhttp__on_chunk_header | s_n_invoke_update_http_major => 25
  | s_n_invoke_or_flags_6 | s_n_invoke_update_header_state | s_n_invoke_load_header_state_3 |
      s_n_span_start_llhttp__on_status => 26
  | s_n_invoke_or_flags_4 | s_n_invoke_or_flags_5 | s_n_invoke_or_flags_3 | s_n_header_value_lws |
      s_n_res_status_start => 27
  | s_n_invoke_load_header_state_1 | s_n_res_status_code_otherwise => 28
  | s_n_invoke_load_header_state | s_n_res_status_code => 29
  | s_n_header_value_discard_lws | s_n_invoke_mul_add_status_code | s_n_invoke_update_status_code => 30
  | _ => 0
  end.

Definition next_space (p : list Z) : bool := match p with c :: _ => c =? 32 | [] => false end.

Definition edge_target (e : edge) : llparse_state := match e with Edge _ _ l => l end.
Definition edge_advances (e : edge) : bool := match e with Edge a _ _ => a end.

(** The edges a block can take when the next byte is a space, or is not. *)
Definition switch_edges (sp : bool) (cases : list (list Z * edge)) (otherwise : edge) : list edge :=
  if sp then [select 32 cases otherwise]
  else otherwise :: (snd <$> filter (fun x => existsb (fun k => negb (k =? 32)) (fst x)) cases).

Definition node_edges (sp : bool) (n : node) : list edge :=
  match n with
  | Switch _ cases otherwise => switch_edges sp cases otherwise
  | Lookup table cases otherwise =>
      if sp then [select (default 0 (table !! 32%nat)) cases otherwise] else otherwise :: (snd <$> cases)
  | Skip next => [adv next]
  | Sequence _ _ complete mismatch => [adv (edge_target complete); mismatch]
  | Consume next | SpanStart _ next => [go next]
  | SpanEnd _ e => [go (edge_target e)]
  | Invoke _ cases otherwise => go otherwise :: (go <$> (snd <$> cases))
  | Fault _ _ _ | Unreachable => []
  end.

Definition edge_falls (sp : bool) (r : nat) (e : edge) : bool := edge_advances e || (rank (edge_target e) sp <? r)%nat.

Definition complete_advances (n : node) : bool := match n with Sequence _ _ e _ => edge_advances e | _ => true end.

Lemma blocks_fall l sp : forallb (edge_falls sp (rank l sp)) (node_edges sp (node_of l)) = true.
Proof. destruct l, sp; vm_compute; reflexivity. Qed.

Lemma blocks_complete l : complete_advances (node_of l) = true.
Proof. destruct l; vm_compute; reflexivity. Qed.

Lemma rank_bound l sp : (rank l sp < 32)%nat.
Proof. destruct l, sp; vm_compute; lia. Qed.

Lemma select_elem {A} c (cases : list (list Z * A)) d :
  select c cases d = d \/ exists ks, existsb (Z.eqb c) ks = true /\ (ks, select c cases d) ∈ cases.
Proof.
  induction cases as [|[ks e] cases IH]; [by left|]. cbn [select]. destruct (existsb (Z.eqb c) ks) eqn:E.
  - right. exists ks. split; [done|]. apply elem_of_cons. by left.
  - destruct IH as [->|(k & Hk & H)]; [by left|]. right. exists k. split; [done|]. apply elem_of_cons. by right.
Qed.

Lemma transform_space how c : how <> to_lower_unsafe -> (transform_byte how c =? 32) = (c =? 32).
Proof.
  intros Hh. destruct how; [done| |done]. cbn [transform_byte].
  destruct ((65 <=? c) && (c <=? 90)) eqn:E; [|done].
  apply andb_true_iff in E as [E1%Z.leb_le E2%Z.leb_le].
  assert (forallb (fun k => negb (Z.lor k 32 =? 32)) (Z.of_nat <$> seq 65 26) = true) as H by (vm_compute; reflexivity).
  rewrite forallb_forall in H. specialize (H c). rewrite negb_true_iff in H. rewrite H; [|].
  - symmetry. apply Z.eqb_neq. lia.
  - apply list_elem_of_In, list_elem_of_fmap. exists (Z.to_nat c). split; [lia|]. apply elem_of_seq. lia.
Qed.

Lemma switch_edges_select c cases d : select c cases d ∈ switch_edges (c =? 32) cases d.
Proof.
  unfold switch_edges. destruct (c =? 32) eqn:E.
  - apply Z.eqb_eq in E as ->. by apply elem_of_cons; left.
  - destruct (select_elem c cases d) as [->|(ks & Hk & H)]; [by apply elem_of_cons; left|].
    apply elem_of_cons. right. apply list_elem_of_fmap. exists (ks, select c cases d). split; [done|].
    apply list_elem_of_filter. split; [|done]. cbn. apply Is_true_true.
    apply existsb_exists in Hk as (k & Hk & ->%Z.eqb_eq). apply existsb_exists. exists k. by rewrite E.
Qed.

(** No block uses [to_lower_unsafe] in a switch. *)
Lemma blocks_switch l : match node_of l with Switch to_lower_unsafe _ _ => false | _ => true end = true.
Proof. destruct l; vm_compute; reflexivity. Qed.

(** ** Spans *)

Definition span_of (l : llparse_state) : option span_cb :=
  match l with
  | s_n_eof | s_n_consume_content_length_1 | s_n_span_end_llhttp__on_body_1 | s_n_consume_content_length |
      s_n_span_end_llhttp__on_body => Some k_on_body
  | s_n_header_field | s_n_header_field_1 | s_n_header_field_5 | s_n_header_field_6 | s_n_header_field_7 |
      s_n_invoke_update_header_state_10 | s_n_header_field_general | s_n_header_field_general_otherwise |
      s_n_span_end_llhttp__on_header_field_2 | s_n_invoke_store_header_state | s_n_header_field_colon |
      s_n_invoke_test_lenient_flags_2 | s_n_span_end_llhttp__on_header_field_1 | s_n_invoke_update_header_state_9 |
      s_n_header_field_colon_discard_ws | s_n_span_end_llhttp__on_header_field | s_n_header_field_2 |
      s_n_header_field_3 | s_n_header_field_4 => Some k_on_header_field
  | s_n_invoke_load_header_state_2 | s_n_header_value_connection | s_n_invoke_test_flags_2 |
      s_n_invoke_or_flags_16 | s_n_invoke_or_flags_17 | s_n_header_value | s_n_header_value_otherwise |
      s_n_span_end_llhttp__on_header_value_1 | s_n_span_end_llhttp__on_header_value_2 |
      s_n_invoke_test_lenient_flags_3 | s_n_header_value_lenient | s_n_span_end_llhttp__on_header_value_3 |
      s_n_invoke_update_header_state_8 | s_n_invoke_and_flags | s_n_header_value_te_chunked |
      s_n_header_value_te_chunked_last | s_n_header_value_te_token | s_n_header_value_te_token_ows |
      s_n_invoke_update_header_state_7 | s_n_header_value_content_length | s_n_invoke_mul_add_content_length_1 |
      s_n_header_value_content_length_ws | s_n_invoke_or_flags_15 | s_n_span_end_llhttp__on_header_value_5 |
      s_n_span_end_llhttp__on_header_value_4 | s_n_header_value_connection_1 | s_n_header_value_connection_2 |
      s_n_header_value_connection_3 | s_n_header_value_connection_token | s_n_invoke_update_header_state_6 |
      s_n_header_value_connection_ws | s_n_invoke_load_header_state_4 | s_n_invoke_update_header_state_4 |
      s_n_invoke_or_flags_11 | s_n_invoke_or_flags_12 | s_n_invoke_or_flags_13 | s_n_invoke_or_flags_14 |
      s_n_invoke_update_header_state_3 | s_n_invoke_update_header_state_5 | s_n_invoke_update_header_state_2 |
      s_n_span_end_llhttp__on_header_value => Some k_on_header_value
  | s_n_res_status | s_n_span_end_llhttp__on_status | s_n_span_end_llhttp__on_status_1 => Some k_on_status
  | s_n_url_server | s_n_span_end_llhttp__on_url | s_n_span_end_llhttp__on_url_1 | s_n_span_end_llhttp__on_url_2 |
      s_n_span_start_stub_path | s_n_url_query | s_n_url_server_with_at | s_n_span_end_llhttp__on_url_12 |
      s_n_span_end_llhttp__on_url_13 | s_n_span_end_llhttp__on_url_14 | s_n_span_start_stub_path_1 | s_n_url_path |
      s_n_url_query_or_fragment | s_n_span_end_llhttp__on_url_3 | s_n_span_end_llhttp__on_url_4 |
      s_n_span_end_llhttp__on_url_5 | s_n_url_fragment | s_n_span_end_llhttp__on_url_6 |
      s_n_span_end_llhttp__on_url_7 | s_n_span_end_llhttp__on_url_8 | s_n_span_end_llhttp__on_url_9 |
      s_n_span_end_llhttp__on_url_10 | s_n_span_end_llhttp__on_url_11 | s_n_span_end_stub_query_3 | s_n_url_start |
      s_n_span_start_stub_path_2 | s_n_url_schema | s_n_span_end_stub_schema | s_n_url_schema_delim |
      s_n_url_schema_delim_1 => Some k_on_url
  | _ => None
  end.

Definition span_eqb (a b : option span_cb) : bool :=
  match a, b with
  | None, None => true
  | Some k_on_url, Some k_on_url | Some k_on_header_field, Some k_on_header_field
  | Some k_on_header_value, Some k_on_header_value | Some k_on_body, Some k_on_body | Some k_on_status, Some k_on_status => true
  | _, _ => false
  end.

Lemma span_eqb_eq a b : span_eqb a b = true -> a = b.
Proof. by destruct a as [[]|], b as [[]|]. Qed.

(** A block that ends the run for good. *)
Definition fatal (l : llparse_state) : bool := match node_of l with Fault _ _ s_error => true | _ => false end.

Definition span_kept (c : option span_cb) (l : llparse_state) : bool := fatal l || span_eqb (span_of l) c.

(** Spans are opened where none is open and closed with the callback they were
    opened with; every other jump stays inside or outside. *)
Definition spans_ok (l : llparse_state) : bool :=
  match node_of l with
  | SpanStart cb next => span_eqb (span_of l) None && span_kept (Some cb) next
  | SpanEnd cb e => span_eqb (span_of l) (Some cb) && span_kept None (edge_target e)
  | Fault _ _ current => match current with s_error => true | _ => span_eqb (span_of l) None && span_eqb (span_of current) None end
  | Switch _ cases otherwise | Lookup _ cases otherwise =>
      forallb (fun e => span_kept (span_of l) (edge_target e)) (otherwise :: (snd <$> cases))
  | n => forallb (fun e => span_kept (span_of l) (edge_target e)) (node_edges false n)
  end.

Lemma blocks_spans l : spans_ok l = true.
Proof. destruct l; vm_compute; reflexivity. Qed.

(** The callbacks without a span are called outside spans. *)
Definition code_calls (f : llparse_code) : bool :=
  match f with
  | k_on_message_begin | k_on_message_complete | k_on_headers_complete | k_on_chunk_header | k_on_chunk_complete => true
  | _ => false
  end.

Lemma blocks_calls l : match node_of l with Invoke f _ _ => negb (code_calls f) || span_eqb (span_of l) None | _ => true end = true.
Proof. destruct l; vm_compute; reflexivity. Qed.

(** ** The variable match *)

Definition code_match (f : llparse_code) : bool :=
  match f with
  | k_store_method | k_store_header_state | k_store_http_major | k_store_http_minor
  | k_mul_add_content_length | k_mul_add_content_length_1 | k_mul_add_status_code => true
  | _ => false
  end.

Definition uses_match (l : llparse_state) : bool := match node_of l with Invoke f _ _ => code_match f | _ => false end.

Definition sets_match (e : edge) : bool := match e with Edge _ (Some _) _ => true | _ => false end.

(** A block that reads match is entered by edges that set it. *)
Definition match_set (l : llparse_state) : bool :=
  match node_of l with
  | Switch _ cases otherwise | Lookup _ cases otherwise =>
      forallb (fun e => sets_match e || negb (uses_match (edge_target e))) (otherwise :: (snd <$> cases))
  | Sequence _ _ complete mismatch =>
      forallb (fun e => sets_match e || negb (uses_match (edge_target e))) [complete; mismatch]
  | n => forallb (fun e => sets_match e || negb (uses_match (edge_target e))) (node_edges false n)
  end.

Lemma blocks_match l : match_set l = true.
Proof. destruct l; vm_compute; reflexivity. Qed.

(** ** Bytes looked at *)

(** A block that ends a span and skips a byte is entered by a jump that has
    looked at the byte and left it. *)
Definition span_skips (l : llparse_state) : bool :=
  match l with
  | s_n_invoke_test_lenient_flags_2 => true
  | _ => match node_of l with SpanEnd _ e => edge_advances e | _ => false end
  end.

Definition skips_seen (l : llparse_state) : bool :=
  match node_of l with
  | Switch _ cases otherwise | Lookup _ cases otherwise =>
      forallb (fun e => negb (span_skips (edge_target e)) || negb (edge_advances e)) (otherwise :: (snd <$> cases))
  | Invoke _ _ _ as n => span_skips l || forallb (fun e => negb (span_skips (edge_target e))) (node_edges false n)
  | n => forallb (fun e => negb (span_skips (edge_target e))) (node_edges false n)
  end.

Lemma blocks_skip l : skips_seen l = true.
Proof. destruct l; vm_compute; reflexivity. Qed.

Lemma skips_kind l : span_skips l = true -> match node_of l with SpanEnd _ _ | Invoke _ _ _ => True | _ => False end.
Proof. destruct l; vm_compute; done. Qed.

(** No jump goes to [s_error], the one label without a block. *)
Definition node_targets (n : node) : list llparse_state :=
  match n with
  | Switch _ cases otherwise | Lookup _ cases otherwise => edge_target <$> otherwise :: (snd <$> cases)
  | n => edge_target <$> node_edges false n
  end.

Lemma blocks_targets l : forallb (fun t => negb (is_error t)) (node_targets (node_of l)) = true.
Proof. destruct l; vm_compute; reflexivity. Qed.

Lemma blocks_reachable l : is_error l = false -> node_of l <> Unreachable.
Proof. by destruct l. Qed.

Lemma blocks_fault l : match node_of l with Fault co _ _ => negb (co =? 0) | _ => true end = true.
Proof. destruct l; vm_compute; reflexivity. Qed.

(** ** Runs *)

Lemma match_sequence_place how seq : forall index p,
  let '(_, _, p') := match_sequence how seq index p in (length p' <= length p)%nat /\ (length p' = length p -> p' = p).
Proof.
  intros index p. revert index. induction p as [|c p IH]; intros index; cbn [match_sequence]; [done|].
  destruct (bool_decide _); [destruct (S index =? _)%nat; [done|]|done].
  specialize (IH (S index)). destruct (match_sequence how seq (S index) p) as [[st i] p'].
  destruct IH as [H1 H2]. cbn. split; lia.
Qed.

Lemma match_complete_place how seq index p i p' :
  match_sequence how seq index p = (kMatchComplete, i, p') -> p' <> [].
Proof.
  revert index. induction p as [|c p IH]; intros index; cbn [match_sequence]; [done|].
  destruct (bool_decide _); [destruct (S index =? _)%nat|]; [by intros [= _ <-]|apply IH|done].
Qed.

Section Runs.
Context {D : Type} (settings_at : Z -> llhttp_settings_t D).
Abbreviation stepd := (step settings_at).
Abbreviation rund := (run settings_at).

Lemma follow_measure e s m p l' s' m' p' sp r :
  follow (D := D) e s m p = Goto l' s' m' p' -> edge_falls sp r e = true -> p <> [] ->
  (length p' < length p)%nat \/ p' = p /\ (rank l' sp < r)%nat.
Proof.
  destruct e as [a v l]. intros [= <- _ _ <-] H Hp. unfold edge_falls in H. cbn in H. destruct a.
  - left. destruct p; [done|]. cbn. lia.
  - right. split; [done|]. by apply Nat.ltb_lt.
Qed.

Lemma step_measure l s m p l' s' m' p' :
  stepd l s m p = Goto l' s' m' p' ->
  (length p' < length p)%nat \/ p' = p /\ (rank l' (next_space p) < rank l (next_space p))%nat.
Proof.
  pose proof (blocks_fall l (next_space p)) as Hf. pose proof (blocks_complete l) as Hc. pose proof (blocks_switch l) as Hs.
  rewrite forallb_forall in Hf. unfold step. destruct (node_of l) as [how cases d|t cases d|n|how blob e1 e2|n|cb n|cb e|f cases d|co r cur|].
  - destruct p as [|c p]; [done|]. intros H. eapply follow_measure; [done| |done]. apply Hf, list_elem_of_In. cbn [node_edges next_space].
    assert (how <> to_lower_unsafe) as Hh by (intros ->; discriminate Hs). rewrite <- (transform_space how) by done. apply switch_edges_select.
  - destruct p as [|c p]; [done|]. intros H. eapply follow_measure; [done| |done]. apply Hf, list_elem_of_In. cbn [node_edges next_space].
    destruct (c =? 32) eqn:E.
    + apply Z.eqb_eq in E as ->. by apply elem_of_cons; left.
    + destruct (select_elem (default 0 (t !! Z.to_nat c)) cases d) as [->|(ks & _ & He)]; apply elem_of_cons; [by left|].
      right. apply list_elem_of_fmap. eexists. by split; [|exact He].
  - destruct p as [|c p]; [done|]. intros [= _ _ _ <-]. left. cbn. lia.
  - destruct p as [|c p]; [done|]. set (q := c :: p) in *. cbn [complete_advances] in Hc.
    pose proof (match_sequence_place how blob (Z.to_nat (_index s)) q) as Hq.
    destruct (match_sequence how blob (Z.to_nat (_index s)) q) as [[st i] q'] eqn:E. destruct Hq as [Hq1 Hq2].
    destruct st; [|done|].
    + apply match_complete_place in E. destruct e1 as [a v l1]. cbn in Hc. subst a. intros [= _ _ _ <-].
      left. destruct q'; [done|]. cbn in *. lia.
    + destruct e2 as [a v l2] eqn:E2. intros [= <- _ _ <-].
      destruct (decide (length q' = length q)) as [Hl|Hl]; [|left; destruct a, q'; cbn in *; lia].
      rewrite (Hq2 Hl) in *. clear Hq2. specialize (Hf e2). cbn [node_edges] in Hf.
      assert (edge_falls (next_space q) (rank l (next_space q)) e2 = true) as H by (apply Hf; subst; cbn; tauto).
      subst e2. unfold edge_falls in H. cbn in H. destruct a; [left; cbn; lia|]. right. split; [done|]. by apply Nat.ltb_lt.
  - destruct (Z.of_nat (length p) >=? content_length s) eqn:E; [|done]. intros [= <- _ _ <-].
    rewrite length_drop. destruct (decide (length p <= length p - Z.to_nat (content_length s)))%nat as [Hle|Hle]; [|left; lia].
    right. split; [|].
    + destruct (decide (Z.to_nat (content_length s) = 0)%nat) as [->|]; [done|]. destruct p; [by rewrite drop_nil|cbn in *; lia].
    + specialize (Hf (go n)). cbn in Hf. apply Nat.ltb_lt, Hf. by left.
  - destruct p as [|c p]; [done|]. intros [= <- _ _ <-]. right. split; [done|]. specialize (Hf (go n)). cbn in Hf. apply Nat.ltb_lt, Hf. by left.
  - destruct e as [a v n]. destruct (call_span _ _ _ _) as [err s1]. destruct (negb (err =? 0)); [done|]. intros [= <- _ _ <-].
    assert (rank n (next_space p) < rank l (next_space p))%nat as H by (specialize (Hf (go n)); cbn in Hf; apply Nat.ltb_lt, Hf; by left).
    destruct a; [|by right]. destruct p as [|c p]; [by right|left; cbn; lia].
  - destruct (call _ _ _ _) as [v s1]. intros [= <- _ _ <-]. right. split; [done|].
    assert (go (select v cases d) ∈ go d :: (go <$> (snd <$> cases))) as H.
    { destruct (select_elem v cases d) as [->|(ks & _ & He)]; apply elem_of_cons; [by left|]. right.
      apply list_elem_of_fmap. eexists. split; [done|]. apply list_elem_of_fmap. eexists. by split; [|exact He]. }
    apply list_elem_of_In in H. apply Hf in H. by apply Nat.ltb_lt.
  - done.
  - done.
Qed.
Lemma step_targets l s m p l' s' m' p' : stepd l s m p = Goto l' s' m' p' -> l' ∈ node_targets (node_of l).
Proof.
  assert (forall c (cases : list (list Z * edge)) d, edge_target (select c cases d) ∈ edge_target <$> d :: (snd <$> cases)) as Hsel.
  { intros c cases d. apply list_elem_of_fmap. exists (select c cases d). split; [done|].
    destruct (select_elem c cases d) as [->|(ks & _ & He)]; apply elem_of_cons; [by left|].
    right. apply list_elem_of_fmap. eexists. by split; [|exact He]. }
  unfold step. destruct (node_of l) as [how cases d|t cases d|n|how blob e1 e2|n|cb n|cb e|f cases d|co r cur|]; cbn [node_targets].
  1,2: destruct p as [|c p]; [done|];
    match goal with |- follow (select ?x ?y ?z) _ _ _ = _ -> _ => specialize (Hsel x y z); destruct (select x y z) end;
    intros [= <- _ _ _]; exact Hsel.
  - destruct p; [done|]. intros [= <- _ _ _]. by apply elem_of_cons; left.
  - destruct p as [|c p]; [done|]. destruct (match_sequence _ _ _ _) as [[[] i] q]; [| done |].
    + destruct e1 as [a v l1]. intros [= <- _ _ _]. by apply elem_of_cons; left.
    + destruct e2 as [a v l2]. intros [= <- _ _ _]. apply elem_of_cons. right. by apply elem_of_cons; left.
  - destruct (_ >=? _); [|done]. intros [= <- _ _ _]. by apply elem_of_cons; left.
  - destruct p; [done|]. intros [= <- _ _ _]. by apply elem_of_cons; left.
  - destruct e as [a v n]. destruct (call_span _ _ _ _) as [err s1]. destruct (negb _); [done|]. intros [= <- _ _ _]. by apply elem_of_cons; left.
  - destruct (call _ _ _ _) as [v s1]. intros [= <- _ _ _]. apply list_elem_of_fmap. exists (go (select v cases d)). split; [done|].
    destruct (select_elem v cases d) as [->|(ks & _ & He)]; apply elem_of_cons; [by left|].
    right. apply list_elem_of_fmap. eexists. split; [done|]. apply list_elem_of_fmap. eexists. by split; [|exact He].
  - done.
  - done.
Qed.

Lemma step_no_error l s m p l' s' m' p' : stepd l s m p = Goto l' s' m' p' -> is_error l' = false.
Proof.
  intros H%step_targets. pose proof (blocks_targets l) as Hb. rewrite forallb_forall in Hb.
  apply list_elem_of_In, Hb in H. by apply negb_true_iff.
Qed.

Lemma step_no_abort l s m p : is_error l = false -> stepd l s m p <> Abort_.
Proof.
  intros Hl%blocks_reachable. unfold step. destruct (node_of l) as [how cases d|t cases d|n|how blob e1 e2|n|cb n|cb e|f cases d|co r cur|];
    try done.
  - destruct p; [done|]. by destruct (select _ _ _).
  - destruct p; [done|]. by destruct (select _ _ _).
  - by destruct p.
  - destruct p; [done|]. destruct (match_sequence _ _ _ _) as [[[] i] q]; [by destruct e1|done|by destruct e2].
  - by destruct (_ >=? _).
  - by destruct p.
  - destruct e. destruct (call_span _ _ _ _) as [err s1]. by destruct (negb _).
  - by destruct (call _ _ _ _).
Qed.

(** The run from a block ends by returning [l'] in the state [s']. *)
Inductive ends : llparse_state -> llhttp_t D -> Z -> list Z -> llparse_state -> llhttp_t D -> Prop :=
| ends_return l s m p l' s' : stepd l s m p = Return l' s' -> ends l s m p l' s'
| ends_goto l s m p l1 s1 m1 p1 l' s' :
    stepd l s m p = Goto l1 s1 m1 p1 -> ends l1 s1 m1 p1 l' s' -> ends l s m p l' s'.

Lemma ends_functional l s m p l1 s1 l2 s2 : ends l s m p l1 s1 -> ends l s m p l2 s2 -> l1 = l2 /\ s1 = s2.
Proof.
  intros H. revert l2 s2. induction H as [l s m p l' s' E|l s m p l1 s1 m1 p1 l' s' E H IH]; intros l2 s2 H2;
    inversion H2 as [? ? ? ? ? ? E2|? ? ? ? ? ? ? ? ? ? E2 H2']; subst; rewrite E in E2; simplify_eq; by auto.
Qed.

Lemma run_ends fuel l s m p :
  is_error l = false -> (32 * length p + rank l (next_space p) < fuel)%nat ->
  exists l' s', rund fuel l s m p = Some (l', s') /\ ends l s m p l' s'.
Proof.
  revert l s m p. induction fuel as [|fuel IH]; intros l s m p Hl Hf; [lia|]. cbn [run].
  destruct (stepd l s m p) as [l1 s1 m1 p1|l1 s1|] eqn:E.
  - destruct (IH l1 s1 m1 p1) as (l' & s' & Hr & He).
    + by eapply step_no_error.
    + pose proof (rank_bound l1 (next_space p1)). apply step_measure in E as [|[-> ?]]; lia.
    + exists l', s'. split; [done|]. by eapply ends_goto.
  - exists l1, s1. split; [done|]. by apply ends_return.
  - exfalso. by eapply step_no_abort.
Qed.

(** A run that ends in [s_error] leaves an error. *)
Lemma ends_error l s m p t : is_error l = false -> ends l s m p s_error t -> error t <> 0.
Proof.
  intros Hl H. remember s_error as l' eqn:El. induction H as [l s m p l' t E|l s m p l1 s1 m1 p1 l' t E H IH].
  - subst l'. pose proof (blocks_fault l) as Hf. revert E. unfold step.
    destruct (node_of l) as [how cases d|tb cases d|n|how blob e1 e2|n|cb n|cb e|f cases d|co r cur|].
    1, 2: destruct p; [by intros [= -> _]|by destruct (select _ _ _)].
    + destruct p; [by intros [= -> _]|done].
    + destruct p; [by intros [= -> _]|]. destruct (match_sequence _ _ _ _) as [[[] i] q]; [by destruct e1|by intros [= -> _]|by destruct e2].
    + destruct (_ >=? _); [done|by intros [= -> _]].
    + destruct p; [by intros [= -> _]|done].
    + destruct e as [a v n]. destruct (call_span _ _ _ _) as [err s1]. destruct (negb (err =? 0)) eqn:Ee; [|done].
      intros [= <-]. cbn. by apply negb_true_iff, Z.eqb_neq in Ee.
    + by destruct (call _ _ _ _).
    + intros [= <-]. cbn. by apply negb_true_iff, Z.eqb_neq in Hf.
    + done.
  - apply IH; [|done]. by eapply step_no_error.
Qed.

(** A parser that has used up its input stays where it is. *)
Definition stays (l : llparse_state) (s : llhttp_t D) : Prop := forall m, stepd l s m [] = Return l s.

Lemma step_stays l s m p l' t : is_error l' = false -> stepd l s m p = Return l' t -> l' = l /\ stays l' t.
Proof.
  intros Hl. unfold stays, step. destruct (node_of l) as [how cases d|tb cases d|n|how blob e1 e2|n|cb n|cb e|f cases d|co r cur|] eqn:En.
  1, 2: destruct p; [intros [= <- <-]; by rewrite En|by destruct (select _ _ _)].
  - destruct p; [|done]. intros [= <- <-]. by rewrite En.
  - destruct p; [intros [= <- <-]; by rewrite En|].
    destruct (match_sequence _ _ _ _) as [[[] i] q]; [by destruct e1| |by destruct e2]. intros [= <- <-]. by rewrite En.
  - destruct (Z.geb_spec (Z.of_nat (length p)) (content_length s)) as [|Hlt]; [done|]. intros [= <- <-]. rewrite En. split; [done|].
    intros m'. change (Z.of_nat (length [])) with 0. cbn [content_length set_content_length].
    destruct (Z.geb_spec 0 (content_length s - Z.of_nat (length p))); [lia|]. rewrite Z.sub_0_r. reflexivity.
  - destruct p; [|done]. intros [= <- <-]. by rewrite En.
  - destruct e as [a v n]. destruct (call_span _ _ _ _) as [err s1]. destruct (negb _); [|done]. by intros [= <- <-].
  - by destruct (call _ _ _ _).
  - by intros [= <- <-].
  - done.
Qed.

Lemma ends_stays l s m p l' t : is_error l' = false -> ends l s m p l' t -> stays l' t.
Proof. intros Hl. induction 1 as [l s m p l' t E|]; [|auto]. by eapply step_stays. Qed.

Lemma stays_ends l s m l' t : stays l s -> ends l s m [] l' t -> l' = l /\ t = s.
Proof. intros Hs He. eapply ends_functional; [done|]. by apply ends_return. Qed.

Lemma stays_kind l s : is_error l = false -> stays l s -> uses_match l = false /\ span_skips l = false /\ fatal l = false.
Proof.
  intros Hl Hs. specialize (Hs 0). revert Hs. pose proof (skips_kind l) as Hk. unfold step, uses_match, fatal.
  destruct (node_of l) as [how cases d|tb cases d|n|how blob e1 e2|n|cb n|cb e|f cases d|co r cur|] eqn:En; intros Hs.
  1-6: split_and!; [done| |done]; destruct (span_skips l); [by destruct Hk|done].
  - exfalso. destruct e as [a v n]. destruct (call_span _ _ _ _) as [err s1]. destruct (negb _); [|done]. injection Hs as Hs _. by subst l.
  - by destruct (call _ _ _ _).
  - injection Hs as Hs _. by subst l.
  - done.
Qed.

(** Every run ends, and [run_fuel] is enough for it. *)
Lemma run_total m s p :
  is_error (_current s) = false ->
  exists l' s', llhttp__internal__run settings_at m s p = Some (l', s') /\ ends (_current s) s m p l' s'.
Proof.
  intros Hl. unfold llhttp__internal__run. apply run_ends; [done|].
  pose proof (rank_bound (_current s) (next_space p)). unfold run_fuel. lia.
Qed.

Lemma ends_run m s p l' s' :
  is_error (_current s) = false -> ends (_current s) s m p l' s' -> llhttp__internal__run settings_at m s p = Some (l', s').
Proof.
  intros Hl He. destruct (run_total m s p Hl) as (l1 & s1 & Hr & H1).
  destruct (ends_functional _ _ _ _ _ _ _ _ H1 He) as [-> ->]. done.
Qed.
End Runs.

(** C12: [llhttp_execute] returns.  Whatever the parser object holds, whatever bytes
    are read and whatever the callbacks do to the object, the jumps between blocks
    end after at most 32 blocks per byte: between two bytes the rank of the block
    falls, and no jump leaves the blocks of the file. *)
Theorem llhttp_execute_total {D} (settings_at : Z -> llhttp_settings_t D) m s d :
  error s <> 0 \/ is_error (_current s) = false ->
  exists err t, llhttp_execute settings_at m s d = Some (err, t).
Proof.
  intros H. unfold llhttp_execute, llhttp__internal_execute. destruct (Z.eqb_spec (error s) 0) as [He|He]; [|by eexists _, _]. cbn [negb].
  destruct H as [|Hl]; [done|].
  set (s0 := match _span_pos0 s with None => s | Some _ => set_span_pos0 (Some d) s end).
  destruct (run_total settings_at m s0 d) as (l & t & -> & _); [unfold s0; by destruct (_span_pos0 s)|].
  destruct (is_error l); [by eexists _, _|]. cbv zeta. destruct (_span_pos0 (set_current l t)), (_span_cb0 (set_current l t)); try (by eexists _, _).
  destruct (call_span _ _ _ _) as [err u]. destruct (negb (err =? 0)); by eexists _, _.
Qed.

Lemma llhttp_execute_total_witness :
  let p := llhttp_init tt HTTP_BOTH 0 in
  (error p <> 0 \/ is_error (_current p) = false)
  /\ exists err t, llhttp_execute (fun _ => llhttp_settings_init) 0 p (lit "HTTP/1.1 200 OK") = Some (err, t).
Proof.
  split; [by right|]. apply (llhttp_execute_total (fun _ => llhttp_settings_init) 0 (llhttp_init tt HTTP_BOTH 0) (lit "HTTP/1.1 200 OK")).
  by right.
Defined.
