(* ===== verification/HttpService.v ===== *)
(** The HTTP service: corelib/httpConnection.{h,cpp} and the handlers of
    modules/http/httpService.cpp.

    The parser (corelib/llhttp, generated code) is a parameter: a state and, for
    a state and the bytes of a read, the callbacks it makes, each with the state
    it is in at that moment, the error code and the state it ends in.  What the
    callbacks read of the parser (flags, method, lengths) are arguments of the
    callback.  Contexts are shared objects: the events name them by pointer while
    the parser goes on filling them, so they are in a heap.  [additions_[HTTP]] of
    a socket is the entry of its pointer in [requests]; the [parser] member of a
    [Request] is in [parsers], so that the callbacks, which never change it, are
    functions of the rest. *)

From Stdlib Require Import ZArith Lia.
From stdpp Require Import base gmap strings numbers list.
From S2P Require Import Prelude StdMap IoBuffer Codec Route CLib Sockaddr Events Service HexUri Config WebSocket Sha1.
Open Scope Z_scope.

Definition HTTP_GET : Z := 1.
Definition HTTP_POST : Z := 3.
Definition HPE_OK : Z := 0.
Definition HPE_PAUSED_UPGRADE : Z := 22.

(** ** HttpContext *)

Record HttpContext : Type := mkCtx {
  method : list Z;
  method_int : Z;
  url : list Z;
  current_field : list Z;
  current_value : list Z;
  headers : str_map (list Z);
  keepalive : bool;
  upgrade : bool;
  body : option (list Z);
  chunk_size : Z;
  is_chunked : bool;
  chunkId : Z;
  isWebSocket : bool;
  websocket_buffer : list Z;
  content_length : Z;
  ctx_esi : ptr;
}.

Definition HttpContext_new (esi : ptr) : HttpContext :=
  mkCtx [] HTTP_GET [] [] [] [] true false None 0 false 0 false [] 0 esi.

(** [clear] keeps the method number and the socket. *)
Definition HttpContext_clear (c : HttpContext) : HttpContext :=
  mkCtx [] (method_int c) [] [] [] [] true false None 0 false 0 false [] 0 (ctx_esi c).

Definition add_url (d : list Z) (c : HttpContext) : HttpContext :=
  mkCtx (method c) (method_int c) (url c ++ d) (current_field c) (current_value c) (headers c) (keepalive c) (upgrade c)
        (body c) (chunk_size c) (is_chunked c) (chunkId c) (isWebSocket c) (websocket_buffer c) (content_length c) (ctx_esi c).
Definition set_fields (f v : list Z) (h : str_map (list Z)) (c : HttpContext) : HttpContext :=
  mkCtx (method c) (method_int c) (url c) f v h (keepalive c) (upgrade c)
        (body c) (chunk_size c) (is_chunked c) (chunkId c) (isWebSocket c) (websocket_buffer c) (content_length c) (ctx_esi c).
Definition set_message (name : list Z) (m : Z) (ka ug : bool) (c : HttpContext) : HttpContext :=
  mkCtx name m (url c) (current_field c) (current_value c) (headers c) ka ug
        (body c) (chunk_size c) (is_chunked c) (chunkId c) (isWebSocket c) (websocket_buffer c) (content_length c) (ctx_esi c).
Definition set_is_chunked (c : HttpContext) : HttpContext :=
  mkCtx (method c) (method_int c) (url c) (current_field c) (current_value c) (headers c) (keepalive c) (upgrade c)
        (body c) (chunk_size c) true (chunkId c) (isWebSocket c) (websocket_buffer c) (content_length c) (ctx_esi c).
Definition set_chunk (b : option (list Z)) (size id : Z) (c : HttpContext) : HttpContext :=
  mkCtx (method c) (method_int c) (url c) (current_field c) (current_value c) (headers c) (keepalive c) (upgrade c)
        b size (is_chunked c) id (isWebSocket c) (websocket_buffer c) (content_length c) (ctx_esi c).
Definition set_websocket (b : list Z) (c : HttpContext) : HttpContext :=
  mkCtx (method c) (method_int c) (url c) (current_field c) (current_value c) (headers c) (keepalive c) (upgrade c)
        (body c) (chunk_size c) (is_chunked c) (chunkId c) true b (content_length c) (ctx_esi c).

(** ** State *)

Record Request : Type := mkRequest {
  rq_this : ptr;
  rq_ctx : ptr;
  currentEvent : route_t;                     (* currentEvent->route *)
}.

Record HttpCore : Type := mkHttp {
  contexts : gmap ptr HttpContext;
  requests : gmap ptr Request;                (* additions_[ServiceEnum::HTTP] of a socket *)
  next_obj : ptr;
  bind_addrs : list msockaddr_in;
  socketListener : ptr;
}.

Definition set_contexts (h : gmap ptr HttpContext) (s : HttpCore) : HttpCore :=
  mkHttp h (requests s) (next_obj s) (bind_addrs s) (socketListener s).
Definition set_request (p : ptr) (r : Request) (s : HttpCore) : HttpCore :=
  mkHttp (contexts s) (<[p := r]> (requests s)) (next_obj s) (bind_addrs s) (socketListener s).
Definition set_bind_addrs (a : list msockaddr_in) (s : HttpCore) : HttpCore :=
  mkHttp (contexts s) (requests s) (next_obj s) a (socketListener s).
Definition set_socketListener (l : ptr) (s : HttpCore) : HttpCore :=
  mkHttp (contexts s) (requests s) (next_obj s) (bind_addrs s) l.

Definition new_ctx (esi : ptr) : M HttpCore ptr :=
  fun s => (Ok (next_obj s),
            mkHttp (<[next_obj s := HttpContext_new esi]> (contexts s)) (requests s) (next_obj s + 1) (bind_addrs s) (socketListener s), []).

Definition the_request (sock : ptr) : M HttpCore Request :=
  fun s => match requests s !! sock with
           | Some r => (Ok r, s, [])
           | None => (Throw (UB "null HTTP::Request"), s, [])
           end.

Definition the_ctx (c : ptr) : M HttpCore HttpContext :=
  fun s => match contexts s !! c with
           | Some x => (Ok x, s, [])
           | None => (Throw (UB "null HttpContext"), s, [])
           end.

Definition update_ctx (c : ptr) (f : HttpContext -> HttpContext) : M HttpCore unit :=
  modify (fun s => set_contexts (alter f c (contexts s)) s).

(** ** Callbacks *)

Inductive callback : Type :=
| on_message_begin
| on_url (d : list Z)
| on_header_field (d : list Z)
| on_header_value (d : list Z)
| on_headers_complete (keep_alive upgrade chunked : bool) (method : Z)
    (* llhttp_should_keep_alive(p), p->upgrade, p->flags & F_CHUNKED, p->method *)
| on_body (d : list Z)
| on_message_complete
| on_chunk_header (content_length : Z)
| on_chunk_complete.

Definition lower (c : Z) : Z := if (65 <=? c) && (c <=? 90) then c + 32 else c.

Definition equals_case_insensitive (a b : list Z) : bool :=
  (length a =? length b)%nat && bool_decide (lower <$> a = lower <$> b).

(** [headers[k]] of a [std::map] inserts an empty value when there is none. *)
Definition header_at (k : list Z) (h : str_map (list Z)) : list Z * str_map (list Z) :=
  (default [] (map_find str_lt k h), map_update str_lt k [] id h).

Definition pass_http (e : httpEvent.t) (r : route_t) : M HttpCore unit := passEvent_ (mkEvent (Ehttp e) r).

Section Callbacks.
Context (llhttp_method_name : Z -> list Z).

Definition field_saved (c : HttpContext) : HttpContext :=
  match current_value c with
  | [] => c
  | _ => set_fields [] [] (map_assign (current_field c) (current_value c) (headers c)) c
  end.

Definition add_field (d : list Z) (c : HttpContext) : HttpContext :=
  let c := field_saved c in set_fields (current_field c ++ d) (current_value c) (headers c) c.

Definition add_value (d : list Z) (c : HttpContext) : HttpContext :=
  set_fields (current_field c) (current_value c ++ d) (headers c) c.

Definition add_body (d : list Z) (c : HttpContext) : HttpContext :=
  set_chunk (Some (default [] (body c) ++ d)) (chunk_size c) (chunkId c) c.

(** What [on_headers_complete] does before it looks at the flags. *)
Definition message_known (ka ug : bool) (m : Z) (c : HttpContext) : HttpContext :=
  let h := match current_field c with
           | [] => headers c
           | _ => map_assign (current_field c) (current_value c) (headers c)
           end in
  set_message (llhttp_method_name m) m ka ug (set_fields (current_field c) (current_value c) h c).

Definition switching (key : list Z) : list Z :=
  lit "HTTP/1.1 101 Switching Protocols" ++ [13; 10] ++ lit "Upgrade: websocket" ++ [13; 10]
  ++ lit "Connection: Upgrade" ++ [13; 10] ++ lit "Sec-WebSocket-Accept: " ++ calc_key_answer key ++ [13; 10] ++ [13; 10].

Definition upgrade_request (sock c : ptr) : M HttpCore unit :=
  x ← the_ctx c;
  let '(ug, h1) := header_at (lit "Upgrade") (headers x) in
  if equals_case_insensitive ug (lit "websocket") then
    let '(_, h2) := header_at (lit "Sec-WebSocket-Version") h1 in
    let '(key, h3) := header_at (lit "Sec-WebSocket-Key") h2 in
    _ ← update_ctx c (fun x => set_websocket (websocket_buffer x) (set_fields (current_field x) (current_value x) h3 x));
    emit (A_write sock (switching key))
  else update_ctx c (fun x => set_fields (current_field x) (current_value x) h1 x).

(** The message is over: its context is handed over and a new one is started. *)
Definition replace_ctx (sock : ptr) (rq : Request) (esi : ptr) : M HttpCore unit :=
  c' ← new_ctx esi; modify (set_request sock (mkRequest (rq_this rq) c' (currentEvent rq))).

(** One callback on the request of the socket; the number is what it returns to
    the parser. *)
Definition run_callback (sock : ptr) (cb : callback) : M HttpCore Z :=
  rq ← the_request sock;
  let c := rq_ctx rq in
  match cb with
  | on_message_begin => mret 0
  | on_url d => _ ← update_ctx c (add_url d); mret 0
  | on_header_field d => _ ← update_ctx c (add_field d); mret 0
  | on_header_value d => _ ← update_ctx c (add_value d); mret 0
  | on_headers_complete ka ug chunked m =>
      _ ← update_ctx c (message_known ka ug m);
      if chunked : bool then
        _ ← update_ctx c set_is_chunked;
        _ ← pass_http (httpEvent.RequestIncoming c sock) (currentEvent rq);
        mret 0
      else if ug : bool then _ ← upgrade_request sock c; mret 1
      else mret 0
  | on_body d => _ ← update_ctx c (add_body d); mret 0
  | on_message_complete =>
      x ← the_ctx c;
      if is_chunked x then
        _ ← pass_http (httpEvent.RequestChunkingCompleted c sock (chunkId x)) (currentEvent rq);
        _ ← replace_ctx sock rq (ctx_esi x); mret 0
      else if (method_int x =? HTTP_GET) || (method_int x =? HTTP_POST) then
        _ ← pass_http (httpEvent.RequestIncoming c sock) (currentEvent rq);
        _ ← replace_ctx sock rq (ctx_esi x); mret 0
      else mret 0
  | on_chunk_header len => _ ← update_ctx c (fun x => set_chunk None len (chunkId x) x); mret 0
  | on_chunk_complete =>
      x ← the_ctx c;
      match body x with
      | None => mret 0
      | Some b =>
          if negb (Z.of_nat (length b) =? chunk_size x) then throw (CommonError "chunk size mismatch")
          else
            _ ← update_ctx c (fun x => set_chunk (body x) (chunk_size x) (cast I32 (chunkId x + 1)) x);
            _ ← pass_http (httpEvent.RequestChunkReceived c sock (chunkId x) (Some b)) (currentEvent rq);
            _ ← update_ctx c (fun x => set_chunk None 0 (chunkId x) x);
            mret 0
      end
  end.
End Callbacks.

(** ** Requests of a socket *)

(** [new HTTP::Request(esi, settings, this)] and its context. *)
Definition new_request (sock : ptr) : M HttpCore unit :=
  fun s => (Ok tt,
            mkHttp (<[next_obj s := HttpContext_new sock]> (contexts s))
                   (<[sock := mkRequest (next_obj s + 1) (next_obj s) []]> (requests s)) (next_obj s + 2)
                   (bind_addrs s) (socketListener s), []).

(** [additions_.insert]: a socket that has a request keeps it. *)
Definition add_request (sock : ptr) : M HttpCore bool :=
  s ← gets id;
  match requests s !! sock with
  | Some _ => mret false
  | None => _ ← new_request sock; mret true
  end.

Definition set_currentEvent (sock : ptr) (r : route_t) : M HttpCore unit :=
  rq ← the_request sock; modify (set_request sock (mkRequest (rq_this rq) (rq_ctx rq) r)).

Section Service.
Context {P : Type} (llhttp_init : P).
Context (llhttp_execute : P -> list Z -> list (callback * P) * Z * P).
Context (llhttp_method_name : Z -> list Z).

Record Http : Type := mkService { core : HttpCore; parsers : gmap ptr P }.

Definition on_core {A} (m : M HttpCore A) : M Http A :=
  fun s => let '(r, c, l) := m (core s) in (r, mkService c (parsers s), l).

Definition set_parser (sock : ptr) (p : P) : M Http unit :=
  modify (fun s => mkService (core s) (<[sock := p]> (parsers s))).

Definition the_parser (sock : ptr) : M Http P := gets (fun s => default llhttp_init (parsers s !! sock)).

(** [new HTTP::Request] also initialises its parser. *)
Definition getData (sock : ptr) : M Http Request :=
  fresh ← on_core (add_request sock);
  _ ← (if fresh : bool then set_parser sock llhttp_init else mret tt);
  on_core (the_request sock).

Definition run_callbacks (sock : ptr) : list (callback * P) -> M Http unit :=
  foreach (fun '(cb, p) => _ ← set_parser sock p; _ ← on_core (run_callback llhttp_method_name sock cb); mret tt).

(** A read of an upgraded connection. *)
Definition on_StreamRead_websocket (c : ptr) (x : HttpContext) (route : route_t) (data : list Z) : M HttpCore bool :=
  '(b, o) ← lift (ws_StreamRead (websocket_buffer x) data);
  _ ← update_ctx c (set_websocket b);
  match o with
  | None => mret true
  | Some msg => _ ← pass_http (httpEvent.WSTextMessage c msg) route; mret true
  end.

(** [data] is what the input buffer of the socket held; both branches take it. *)
Definition on_StreamRead (sock : ptr) (route : route_t) (data : list Z) : M Http bool :=
  W ← getData sock;
  x ← on_core (the_ctx (rq_ctx W));
  if isWebSocket x then on_core (on_StreamRead_websocket (rq_ctx W) x route data)
  else
    _ ← on_core (set_currentEvent sock route);
    p ← the_parser sock;
    let '(cbs, err, p') := llhttp_execute p data in
    _ ← run_callbacks sock cbs;
    _ ← set_parser sock p';
    if err =? HPE_OK then mret true else throw (CommonError "Parse error").

Definition on_Accepted (sock : ptr) : M Http bool :=
  fresh ← on_core (add_request sock);
  _ ← (if fresh : bool then set_parser sock llhttp_init else mret tt);
  mret true.

Definition on_Disaccepted (sock : ptr) (route : route_t) : M Http bool :=
  rq ← getData sock;
  x ← on_core (the_ctx (rq_ctx rq));
  _ ← (if isWebSocket x then on_core (pass_http (httpEvent.WSDisaccepted (rq_this rq)) route) else mret tt);
  mret true.

Definition on_Disconnected (sock : ptr) (route : route_t) : M Http bool :=
  rq ← getData sock;
  x ← on_core (the_ctx (rq_ctx rq));
  _ ← (if isWebSocket x then on_core (pass_http (httpEvent.WSDisconnected (rq_ctx rq)) route) else mret tt);
  mret true.

Definition on_NotifyBindAddress (addr : msockaddr_in) : M Http bool :=
  _ ← on_core (modify (fun s => set_bind_addrs (set_insert msa_lt addr (bind_addrs s)) s)); mret true.

Definition on_DoListen (newid : SOCKET_id) (addr : msockaddr_in) (secure : SECURE) (route : route_t) : M Http bool :=
  l ← on_core (gets socketListener);
  _ ← on_core (emit (A_sendListener l (mkEvent (Esocket (socketEvent.AddToListenTCP newid addr (lit "HTTP") false secure)) route)));
  mret true.

(** [listener] is what [getServiceOrCreate(Socket)] returns, 0 for none. *)
Definition on_startService (listener : ptr) : M Http bool :=
  _ ← on_core (modify (set_socketListener listener));
  if listener =? 0 then throw (CommonError "if(!socketListener)") else mret true.

Definition on_GetBindPortsREQ (route : route_t) : M Http bool :=
  r ← lift (poppedFrontRoute route);
  a ← on_core (gets bind_addrs);
  _ ← on_core (pass_http (httpEvent.GetBindPortsRSP a) r);
  mret true.

Definition on_WSWrite (r : ptr) (msg : list Z) : M Http bool :=
  x ← on_core (the_ctx r);
  _ ← on_core (emit (A_write (ctx_esi x) (WebSocket_makeFrame TEXT_FRAME msg)));
  mret true.

(** [inBuffer] gives the bytes a socket has received, [newid] the next socket
    identifier, [listener] the socket service. *)
Definition http_handleEvent (inBuffer : ptr -> list Z) (newid : SOCKET_id) (listener : ptr) (e : Event) : M Http bool :=
  match ev_body e with
  | Ehttp (httpEvent.WSWrite r msg) => on_WSWrite r msg
  | Esocket (socketEvent.Disaccepted esi _) => on_Disaccepted esi (ev_route e)
  | Esocket (socketEvent.Disconnected esi _) => on_Disconnected esi (ev_route e)
  | Esocket (socketEvent.Accepted esi) => on_Accepted esi
  | Esocket (socketEvent.StreamRead esi) => on_StreamRead esi (ev_route e) (inBuffer esi)
  | Esocket (socketEvent.Connected _) => mret true
  | Esocket (socketEvent.NotifyBindAddress addr _ _) => on_NotifyBindAddress addr
  | Esocket (socketEvent.NotifyOutBufferEmpty _) => mret true
  | Ehttp (httpEvent.DoListen addr sec) => on_DoListen newid addr sec (ev_route e)
  | Ehttp httpEvent.GetBindPortsREQ => on_GetBindPortsREQ (ev_route e)
  | Esystem systemEvent.startService => on_startService listener
  | Erpc (rpcEvent.IncomingOnAcceptor _ inner) =>
      match ev_body inner with
      | Ehttp httpEvent.GetBindPortsREQ => on_GetBindPortsREQ (ev_route inner)
      | _ => mret false
      end
  | _ => mret false
  end.
End Service.
