(* ===== verification/HttpResponse.v ===== *)
(** Responses: [HTTP::Response] of corelib/httpConnection.{h,cpp}.

    A response names the context of its request and writes to the socket of that
    context; its own fields are passed explicitly. *)

From Stdlib Require Import ZArith Lia.
From stdpp Require Import base gmap strings numbers list.
From S2P Require Import Prelude StdMap IoBuffer Codec Route CLib Sockaddr Events Service HexUri Config HttpService.
Open Scope Z_scope.

Definition get_name_of_http_code (code : Z) : list Z :=
  if code =? 200 then lit "OK"
  else if code =? 203 then lit "Non-Authoritative Information"
  else if code =? 206 then lit "Partial Content"
  else if code =? 302 then lit "Found"
  else if code =? 303 then lit "See Other"
  else if code =? 400 then lit "Bad Request"
  else if code =? 401 then lit "Unauthorized"
  else if code =? 402 then lit "Payment Required"
  else if code =? 403 then lit "Forbidden"
  else if code =? 404 then lit "Not Found"
  else if code =? 405 then lit "Method Not Allowed"
  else if code =? 406 then lit "Not Acceptable"
  else if code =? 413 then lit "Request Entity Too Large"
  else if code =? 500 then lit "Internal Server Error"
  else if code =? 501 then lit "Not Implemented"
  else if code =? 502 then lit "Bad Gateway"
  else if code =? 503 then lit "Service Unavailable"
  else if code =? 505 then lit "HTTP Version not supported"
  else lit "Unknow".

Inductive CONN_TYPE : Type := CONN_CLOSE | CONN_KEEP_ALIVE | CONN_UPGRADE | CONN_UNKNOWN.

Record Response : Type := mkResponse {
  http_code : Z;
  http_content_type : list Z;
  content : list Z;
  http_charset : list Z;
  serverName : list Z;
  http_header_out : list Z;
  chunked_http_header_sent : bool;
  connection : CONN_TYPE;
  rs_is_chunked : bool;
}.

Definition Response_new : Response := mkResponse 200 (lit "text/html") [] [] [] [] false CONN_CLOSE false.

Definition crlf : list Z := [13; 10].

(** [!strcasecmp(a, b)]. *)
Definition strcaseeq (a b : list Z) : bool := bool_decide (lower <$> c_str a = lower <$> c_str b).

Definition set_connection (k : CONN_TYPE) (r : Response) : Response :=
  mkResponse (http_code r) (http_content_type r) (content r) (http_charset r) (serverName r) (http_header_out r)
             (chunked_http_header_sent r) k (rs_is_chunked r).

(** [connection] is stored here and read nowhere. *)
Definition setHeader (key value : list Z) (r : Response) : Response :=
  if strcaseeq key (lit "Connection") then
    if strcaseeq value (lit "Close") then set_connection CONN_CLOSE r
    else if strcaseeq value (lit "Keep-Alive") then set_connection CONN_KEEP_ALIVE r
    else if strcaseeq value (lit "Upgrade") then set_connection CONN_UPGRADE r
    else r
  else mkResponse (http_code r) (http_content_type r) (content r) (http_charset r) (serverName r)
                  (http_header_out r ++ key ++ lit ": " ++ value ++ crlf)
                  (chunked_http_header_sent r) (connection r) (rs_is_chunked r).

Definition setContentType (ct : list Z) (r : Response) : Response :=
  mkResponse (http_code r) ct (content r) (http_charset r) (serverName r) (http_header_out r)
             (chunked_http_header_sent r) (connection r) (rs_is_chunked r).

Definition setStatus (code : Z) (r : Response) : Response :=
  mkResponse code (http_content_type r) (content r) (http_charset r) (serverName r) (http_header_out r)
             (chunked_http_header_sent r) (connection r) (rs_is_chunked r).

Definition set_body (content : list Z) (chunked sent : bool) (r : Response) : Response :=
  mkResponse (http_code r) (http_content_type r) content (http_charset r) (serverName r) (http_header_out r)
             sent (connection r) chunked.

(** The header lines of a response, up to the empty line. *)
Definition response_header (keep : bool) (r : Response) : list Z :=
  lit "HTTP/1.1 " ++ to_string (http_code r) ++ lit " " ++ get_name_of_http_code (http_code r) ++ crlf
  ++ (match http_content_type r with
      | [] => []
      | ct => lit "Content-Type: " ++ ct
              ++ (match http_charset r with [] => [] | cs => lit "; charset: " ++ cs end) ++ crlf
      end)
  ++ lit "Server: " ++ (match serverName r with [] => lit "Web Server" | s => s end) ++ crlf
  ++ (if negb (rs_is_chunked r) && negb (length (content r) =? 0)%nat
      then lit "Content-Length: " ++ to_string (Z.of_nat (length (content r))) ++ crlf else [])
  ++ (if keep && negb (rs_is_chunked r)
      then lit "Connection: Keep-Alive" ++ crlf ++ lit "Keep-Alive: timeout=7200, max=1000000000" ++ crlf
      else lit "Connection: close" ++ crlf)
  ++ (if rs_is_chunked r then lit "Transfer-Encoding: chunked" ++ crlf else [])
  ++ http_header_out r.

Definition build_html_response (keep : bool) (r : Response) : list Z :=
  response_header keep r ++ crlf ++ (if rs_is_chunked r then [] else content r).

(** ** What is written to the socket *)

(** The operations of a response whose context has the socket [sock] and the flag
    [keep]. *)
Section Operations.
Context (sock : ptr) (keep : bool).

Definition finish (d : list Z) : action := if keep then A_write sock d else A_write_and_close sock d.

Definition make_response (s : list Z) : M Response unit :=
  r ← gets id;
  if rs_is_chunked r then throw (CommonError "if(is_chunked)")
  else
    _ ← modify (fun r => set_body s (rs_is_chunked r) (chunked_http_header_sent r) r);
    r ← gets id;
    emit (finish (build_html_response keep r)).

(** [snprintf(buf, sizeof(buf), "%lx", n)]. *)
Fixpoint hex_digits (fuel : nat) (n : Z) : list Z :=
  match fuel with
  | O => []
  | S f => if n <? 16 then [hex_char n] else hex_digits f (n / 16) ++ [hex_char (n mod 16)]
  end.

Definition chunk_bytes (s : list Z) : list Z :=
  hex_digits 16 (Z.of_nat (length s)) ++ crlf ++ s ++ crlf.

Definition send_chunked (s : list Z) : M Response unit :=
  _ ← modify (fun r => set_body (content r) true (chunked_http_header_sent r) r);
  r ← gets id;
  if negb (length (content r) =? 0)%nat then throw (CommonError "if(content.size())")
  else
    _ ← (if chunked_http_header_sent r then mret tt
         else _ ← emit (A_write sock (build_html_response keep r));
              modify (fun r => set_body (content r) true true r));
    emit (A_write sock (chunk_bytes s)).

Definition end_chunked : M Response unit :=
  r ← gets id;
  if negb (rs_is_chunked r) then throw (CommonError "if(!is_chunked)")
  else if negb (length (content r) =? 0)%nat then throw (CommonError "if(content.size())")
  else emit (finish (lit "0" ++ crlf ++ crlf)).

(** A handler that answers in pieces. *)
Definition chunked_answer (ss : list (list Z)) : M Response unit :=
  _ ← foreach send_chunked ss; end_chunked.
End Operations.

(** ** A client (RFC 9112)

    The lines of the head, then a body in chunks, of the announced length, or up
    to the end of the connection. *)

Fixpoint take_line (s : list Z) : option (list Z * list Z) :=
  match s with
  | 13 :: 10 :: rest => Some ([], rest)
  | c :: rest => '(l, r) ← take_line rest; Some (c :: l, r)
  | [] => None
  end.

(** One line takes two bytes or more: the length of the text is fuel enough. *)
Fixpoint read_head (fuel : nat) (s : list Z) : option (list (list Z) * list Z) :=
  match fuel with
  | O => None
  | S f =>
      '(l, rest) ← take_line s;
      match l with
      | [] => Some ([], rest)
      | _ => '(ls, rest') ← read_head f rest; Some (l :: ls, rest')
      end
  end.

Definition strip_name (name l : list Z) : option (list Z) :=
  if bool_decide (lower <$> take (length name) l = lower <$> name) then Some (drop (length name) l) else None.

Definition field (name : list Z) (ls : list (list Z)) : option (list Z) := head (omap (strip_name name) ls).

Fixpoint hex_number (acc : Z) (s : list Z) : option Z :=
  match s with
  | [] => Some acc
  | c :: s' => d ← hex_value c; hex_number (16 * acc + d) s'
  end.

Fixpoint dechunk (fuel : nat) (s : list Z) : option (list Z * list Z) :=
  match fuel with
  | O => None
  | S f =>
      '(l, rest) ← take_line s;
      n ← hex_number 0 l;
      if n =? 0 then '(_, rest') ← take_line rest; Some ([], rest')
      else
        let k := Z.to_nat n in
        if (length rest <? k)%nat then None
        else
          '(e, rest') ← take_line (drop k rest);
          '(b, rest'') ← dechunk f rest';
          if bool_decide (e = []) then Some (take k rest ++ b, rest'') else None
  end.

Definition client_read (s : list Z) : option (list (list Z) * list Z * list Z) :=
  '(ls, rest) ← read_head (S (length s)) s;
  match field (lit "Transfer-Encoding: ") ls, field (lit "Content-Length: ") ls with
  | Some _, _ => '(b, rest') ← dechunk (S (length rest)) rest; Some (ls, b, rest')
  | None, Some n =>
      let k := Z.to_nat (strtol10 n) in
      if (length rest <? k)%nat then None else Some (ls, take k rest, drop k rest)
  | None, None => Some (ls, rest, [])
  end.

(** The bytes an answer puts on the connection. *)
Definition written (l : list action) : list Z :=
  mjoin ((fun a => match a with A_write _ d | A_write_and_close _ d => d | _ => [] end) <$> l).

Definition header_line (kv : list Z * list Z) : list Z := kv.1 ++ lit ": " ++ kv.2.

(** Headers a handler may set: one line each, not the ones that frame the body,
    and not [Connection], which [setHeader] does not write. *)
Definition header_ok (kv : list Z * list Z) : Prop :=
  (13 ∉ header_line kv) /\ strcaseeq kv.1 (lit "Connection") = false
  /\ strip_name (lit "Transfer-Encoding: ") (header_line kv) = None
  /\ strip_name (lit "Content-Length: ") (header_line kv) = None.

Definition response_of (code : Z) (ct : list Z) (hs : list (list Z * list Z)) : Response :=
  foldl (fun r kv => setHeader kv.1 kv.2 r) (setContentType ct (setStatus code Response_new)) hs.

Definition status_line (code : Z) : list Z :=
  lit "HTTP/1.1 " ++ to_string code ++ lit " " ++ get_name_of_http_code code.

(** ** Reading lines *)

Lemma take_line_cons c s : c <> 13 -> take_line (c :: s) = ('(l, r) ← take_line s; Some (c :: l, r)).
Proof.
  intros H. destruct c as [|p|p]; [reflexivity| |reflexivity].
  do 4 (destruct p as [p|p|]; try reflexivity). done.
Qed.

Lemma take_line_app l rest : 13 ∉ l -> take_line (l ++ crlf ++ rest) = Some (l, rest).
Proof.
  induction l as [|c l IH]; [done|]. intros H. apply not_elem_of_cons in H as [Hc Hl].
  change ((c :: l) ++ crlf ++ rest) with (c :: (l ++ crlf ++ rest)). rewrite take_line_cons by done. by rewrite IH.
Qed.

Lemma take_line_crlf rest : take_line (crlf ++ rest) = Some ([], rest).
Proof. reflexivity. Qed.

Definition lines_text (ls : list (list Z)) : list Z := mjoin ((fun l => l ++ crlf) <$> ls).

Lemma lines_text_app ls1 ls2 : lines_text (ls1 ++ ls2) = lines_text ls1 ++ lines_text ls2.
Proof. unfold lines_text. by rewrite fmap_app, join_app. Qed.

Definition line_ok (l : list Z) : Prop := l <> [] /\ 13 ∉ l.

Lemma read_head_lines ls rest fuel :
  Forall line_ok ls -> (length ls < fuel)%nat -> read_head fuel (lines_text ls ++ crlf ++ rest) = Some (ls, rest).
Proof.
  intros H. revert fuel. induction H as [|l ls [Hne Hl] Hls IH]; intros [|f] Hf; cbn [length] in Hf; try lia; [done|].
  change (lines_text (l :: ls)) with ((l ++ crlf) ++ lines_text ls). rewrite <- !app_assoc. cbn [read_head].
  rewrite take_line_app by done. cbn [mbind option_bind]. destruct l as [|c l]; [done|]. by rewrite IH by lia.
Qed.

Lemma length_lines_text ls : (length ls <= length (lines_text ls))%nat.
Proof.
  induction ls as [|l ls IH]; [cbn; lia|]. change (lines_text (l :: ls)) with ((l ++ crlf) ++ lines_text ls).
  rewrite !length_app. cbn [length crlf]. lia.
Qed.

Lemma strip_name_neq p d name c l :
  lower c <> lower d -> strip_name (p ++ d :: name) (p ++ c :: l) = None.
Proof.
  intros H. unfold strip_name. rewrite bool_decide_eq_false_2; [done|].
  rewrite length_app, take_app_add. cbn [length take]. rewrite !fmap_app. intros [=]%app_inv_head. done.
Qed.

(** ** Numbers *)

Lemma digits_no_cr l : Forall (fun c => isdigit c = true) l -> 13 ∉ l.
Proof. intros H Hin. rewrite Forall_forall in H. apply H in Hin. done. Qed.

Lemma to_string_no_cr z : 13 ∉ to_string z.
Proof.
  unfold to_string. destruct (Z.ltb_spec z 0).
  - apply not_elem_of_cons. split; [done|]. apply digits_no_cr, dec_digits_digits. lia.
  - apply digits_no_cr, dec_digits_digits. lia.
Qed.

Lemma hex_number_app a l d : 0 <= d < 16 ->
  hex_number a (l ++ [hex_char d]) = (n ← hex_number a l; Some (16 * n + d)).
Proof.
  intros Hd. revert a. induction l as [|c l IH]; intros a; cbn [app hex_number].
  - assert (hex_value (hex_char d) = Some d) as ->.
    { unfold hex_char, hex_value. destruct (Z.ltb_spec d 10).
      - destruct (Z.leb_spec 48 (d + 48)), (Z.leb_spec (d + 48) 57); try lia. cbn. f_equal. lia.
      - destruct (Z.leb_spec 48 (d + 87)), (Z.leb_spec (d + 87) 57), (Z.leb_spec 97 (d + 87)), (Z.leb_spec (d + 87) 102); try lia.
        cbn. f_equal. lia. }
    done.
  - destruct (hex_value c); [|done]. cbn [mbind option_bind]. apply IH.
Qed.

Lemma hex_number_digits f n : 0 <= n < 16 ^ Z.of_nat f -> hex_number 0 (hex_digits f n) = Some n.
Proof.
  revert n. induction f as [|f IH]; intros n Hn; [cbn in *; f_equal; lia|].
  rewrite Nat2Z.inj_succ, Z.pow_succ_r in Hn by lia. cbn [hex_digits].
  destruct (Z.ltb_spec n 16); [exact (hex_number_app 0 [] n (conj (proj1 Hn) H))|].
  rewrite hex_number_app by (apply Z.mod_pos_bound; lia).
  rewrite IH by (split; [apply Z.div_pos; lia | apply Z.div_lt_upper_bound; lia]). cbn [mbind option_bind]. f_equal.
  pose proof (Z.div_mod n 16). lia.
Qed.

Lemma hex_char_not_cr d : hex_char d <> 13 \/ d < 0.
Proof. unfold hex_char. destruct (Z.ltb_spec d 10); lia. Qed.

Lemma hex_digits_no_cr f n : 0 <= n -> 13 ∉ hex_digits f n.
Proof.
  revert n. induction f as [|f IH]; intros n Hn; cbn [hex_digits]; [apply not_elem_of_nil|].
  assert (forall d, 0 <= d -> 13 ∉ [hex_char d]) as Hc.
  { intros d Hd. pose proof (hex_char_not_cr d). apply not_elem_of_cons. split; [lia|apply not_elem_of_nil]. }
  destruct (Z.ltb_spec n 16); [by apply Hc|]. apply not_elem_of_app. split.
  - apply IH, Z.div_pos; lia.
  - apply Hc, Z.mod_pos_bound. lia.
Qed.

(** ** The lines of a response *)

Definition head_lines (keep chunked : bool) (code : Z) (ct : list Z) (len : nat) (hs : list (list Z * list Z)) : list (list Z) :=
  status_line code ::
  (match ct with [] => [] | _ => [lit "Content-Type: " ++ ct] end)
  ++ [lit "Server: Web Server"]
  ++ (if negb chunked && negb (len =? 0)%nat then [lit "Content-Length: " ++ to_string (Z.of_nat len)] else [])
  ++ (if keep && negb chunked
      then [lit "Connection: Keep-Alive"; lit "Keep-Alive: timeout=7200, max=1000000000"] else [lit "Connection: close"])
  ++ (if chunked then [lit "Transfer-Encoding: chunked"] else [])
  ++ (header_line <$> hs).

Lemma response_header_lines keep r hs :
  http_charset r = [] -> serverName r = [] -> http_header_out r = lines_text (header_line <$> hs) ->
  response_header keep r
  = lines_text (head_lines keep (rs_is_chunked r) (http_code r) (http_content_type r) (length (content r)) hs).
Proof.
  intros Hc Hs Ho. unfold response_header, head_lines. rewrite Hc, Hs, Ho.
  change (lines_text (status_line (http_code r) :: ?l)) with ((status_line (http_code r) ++ crlf) ++ lines_text l).
  rewrite !lines_text_app. unfold status_line. rewrite <- !app_assoc. do 5 f_equal.
  assert (forall l, lines_text [l] = l ++ crlf) as H1 by (intros l; unfold lines_text; cbn; by rewrite app_nil_r).
  f_equal; [destruct (http_content_type r); [done|]; by rewrite H1, <- app_assoc|].
  rewrite H1, <- app_assoc. change (lit "Server: Web Server") with (lit "Server: " ++ lit "Web Server"). rewrite <- !app_assoc. do 4 f_equal; [|f_equal].
  - destruct (negb (rs_is_chunked r) && _); [|done]. by rewrite H1, <- app_assoc.
  - by destruct (keep && negb (rs_is_chunked r)).
  - by destruct (rs_is_chunked r).
Qed.

(** A handler's response before anything is written. *)
Record fresh_response (code : Z) (ct : list Z) (hs : list (list Z * list Z)) (r : Response) : Prop := {
  fr_code : http_code r = code;
  fr_ct : http_content_type r = ct;
  fr_content : content r = [];
  fr_charset : http_charset r = [];
  fr_server : serverName r = [];
  fr_out : http_header_out r = lines_text (header_line <$> hs);
  fr_sent : chunked_http_header_sent r = false;
  fr_chunked : rs_is_chunked r = false;
}.

Lemma response_of_fresh code ct hs : Forall header_ok hs -> fresh_response code ct hs (response_of code ct hs).
Proof.
  unfold response_of. induction hs as [|kv hs IH] using rev_ind; intros H; [done|].
  apply Forall_app in H as [H [(_ & Hk & _) _]%Forall_cons]. rewrite foldl_app. cbn [foldl].
  generalize (IH H). generalize (foldl (fun r kv => setHeader kv.1 kv.2 r) (setContentType ct (setStatus code Response_new)) hs).
  intros r Hr. unfold setHeader. rewrite Hk. split; try apply Hr.
  simpl. rewrite (fr_out _ _ _ _ Hr), fmap_app, lines_text_app. unfold lines_text, header_line. cbn. by rewrite app_nil_r, <- !app_assoc.
Qed.

Lemma no_cr s : forallb (fun c => negb (c =? 13)) s = true -> 13 ∉ s.
Proof. intros H Hin. rewrite forallb_forall in H. by apply list_elem_of_In, H in Hin. Qed.

Ltac literal := apply no_cr; vm_compute; reflexivity.

Lemma head_lines_ok keep chunked code ct len hs :
  13 ∉ ct -> Forall header_ok hs -> Forall line_ok (head_lines keep chunked code ct len hs).
Proof.
  intros Hct Hhs. unfold head_lines. repeat apply Forall_app_2 || apply Forall_cons_2; try apply Forall_nil_2.
  - split; [done|]. unfold status_line. rewrite !not_elem_of_app. split_and!; [literal|apply to_string_no_cr|literal|].
    unfold get_name_of_http_code. repeat (destruct (_ =? _); [literal|]). literal.
  - destruct ct; constructor; [|done]. split; [done|]. apply not_elem_of_app. split; [literal|done].
  - split; [done|]. literal.
  - destruct (negb chunked && _); constructor; [|done]. split; [done|]. apply not_elem_of_app.
    split; [literal|apply to_string_no_cr].
  - destruct (keep && negb chunked); repeat constructor; try done; literal.
  - destruct chunked; repeat constructor; try done; literal.
  - apply Forall_fmap. eapply Forall_impl; [exact Hhs|]. intros [k v] (Hcr & _). split; [|done].
    unfold compose, header_line. cbn. by destruct k.
Qed.

Lemma field_app name ls1 ls2 : field name (ls1 ++ ls2) = match field name ls1 with Some x => Some x | None => field name ls2 end.
Proof. unfold field. rewrite omap_app. by destruct (omap (strip_name name) ls1). Qed.

Lemma field_none name ls : Forall (fun l => strip_name name l = None) ls -> field name ls = None.
Proof. unfold field. induction 1 as [|l ls H _ IH]; [done|]. cbn. by rewrite H. Qed.

(** ** What the client makes of it *)

Lemma client_read_head ls rest :
  Forall line_ok ls ->
  client_read (lines_text ls ++ crlf ++ rest)
  = match field (lit "Transfer-Encoding: ") ls, field (lit "Content-Length: ") ls with
    | Some _, _ => '(b, rest') ← dechunk (S (length rest)) rest; Some (ls, b, rest')
    | None, Some n =>
        let k := Z.to_nat (strtol10 n) in
        if (length rest <? k)%nat then None else Some (ls, take k rest, drop k rest)
    | None, None => Some (ls, rest, [])
    end.
Proof.
  intros H. unfold client_read. rewrite read_head_lines; [done|done|].
  rewrite !length_app. pose proof (length_lines_text ls). lia.
Qed.

Lemma user_fields_none name hs :
  (forall kv, header_ok kv -> strip_name name (header_line kv) = None) -> Forall header_ok hs -> field name (header_line <$> hs) = None.
Proof. intros Hn H. apply field_none, Forall_fmap. eapply Forall_impl; [exact H|]. intros kv Hkv. by apply Hn. Qed.

Lemma head_lines_TE keep chunked code ct len hs :
  Forall header_ok hs ->
  field (lit "Transfer-Encoding: ") (head_lines keep chunked code ct len hs) = if chunked then Some (lit "chunked") else None.
Proof.
  intros H. unfold head_lines. change (status_line code :: ?l) with ([status_line code] ++ l). rewrite !field_app.
  rewrite (user_fields_none _ _ (fun kv Hkv => proj1 (proj2 (proj2 Hkv)))) by done.
  assert (forall c l, lower c <> lower 84 -> field (lit "Transfer-Encoding: ") [c :: l] = None) as Hc.
  { intros c l Hne. apply field_none. constructor; [|done]. exact (strip_name_neq [] 84 _ c l Hne). }
  unfold status_line. cbn [lit app]. rewrite Hc by done.
  destruct ct as [|c ct]; [change (field (lit "Transfer-Encoding: ") []) with (@None (list Z))|cbn [lit app]; rewrite Hc by done]; cbv iota;
    (rewrite Hc by done); destruct (negb chunked && _), (keep && negb chunked), chunked;
    cbn [lit app]; rewrite ?Hc by done; reflexivity.
Qed.

Lemma head_lines_CL keep code ct len hs :
  Forall header_ok hs ->
  field (lit "Content-Length: ") (head_lines keep false code ct len hs) =
  if (len =? 0)%nat then None else Some (to_string (Z.of_nat len)).
Proof.
  intros H. unfold head_lines. change (status_line code :: ?l) with ([status_line code] ++ l). rewrite !field_app.
  rewrite (user_fields_none _ _ (fun kv Hkv => proj2 (proj2 (proj2 Hkv)))) by done.
  assert (forall c l, lower c <> lower 67 -> field (lit "Content-Length: ") [c :: l] = None) as Hc.
  { intros c l Hne. apply field_none. constructor; [|done]. exact (strip_name_neq [] 67 _ c l Hne). }
  assert (field (lit "Content-Length: ") [lit "Content-Type: " ++ ct] = None) as Ht.
  { apply field_none. constructor; [|done]. exact (strip_name_neq (lit "Content-") 76 _ 84 _ ltac:(done)). }
  unfold status_line. cbn [app]. change (lit "HTTP/1.1 ") with (72 :: lit "TTP/1.1 "). cbn [app]. rewrite Hc by done.
  assert (field (lit "Content-Length: ") (match ct with [] => [] | _ :: _ => [lit "Content-Type: " ++ ct] end) = None) as ->
    by (destruct ct; [done|exact Ht]).
  change (lit "Server: Web Server") with (83 :: lit "erver: Web Server"). rewrite Hc by done. cbn [negb andb].
  destruct (len =? 0)%nat; [|done]. by destruct (keep && true).
Qed.

Lemma dechunk_chunks ss more fuel :
  Forall (fun s => s <> [] /\ Z.of_nat (length s) < 2 ^ 31) ss -> (length ss < fuel)%nat ->
  dechunk fuel (mjoin (chunk_bytes <$> ss) ++ (lit "0" ++ crlf ++ crlf) ++ more) = Some (mjoin ss, more).
Proof.
  intros H. revert fuel. induction H as [|s ss [Hne Hlen] Hss IH]; intros [|f] Hf; cbn [length] in Hf; try lia; [done|].
  change (mjoin (chunk_bytes <$> s :: ss)) with (chunk_bytes s ++ mjoin (chunk_bytes <$> ss)).
  unfold chunk_bytes at 1. rewrite <- !app_assoc. cbn [dechunk].
  rewrite take_line_app by (apply hex_digits_no_cr; lia). cbn [mbind option_bind].
  rewrite hex_number_digits by (change (16 ^ Z.of_nat 16) with (2 ^ 64); lia). cbn [mbind option_bind].
  destruct (Z.eqb_spec (Z.of_nat (length s)) 0) as [E|_]; [destruct s; [done|cbn in E; lia]|].
  rewrite Nat2Z.id, length_app. destruct (Nat.ltb_spec (length s + length (crlf ++ mjoin (chunk_bytes <$> ss) ++ lit "0" ++ crlf ++ crlf ++ more)) (length s)); [lia|].
  rewrite drop_app_length, take_app_length. rewrite take_line_crlf. cbn [mbind option_bind].
  rewrite <- !app_assoc in IH. rewrite IH by lia. cbn [mbind option_bind]. by rewrite bool_decide_eq_true_2.
Qed.

Lemma length_chunks ss : (length ss <= length (mjoin (chunk_bytes <$> ss)))%nat.
Proof.
  induction ss as [|s ss IH]; [cbn; lia|]. change (mjoin (chunk_bytes <$> s :: ss)) with (chunk_bytes s ++ mjoin (chunk_bytes <$> ss)).
  unfold chunk_bytes at 1. rewrite !length_app. cbn [length crlf]. lia.
Qed.

(** ** Properties *)

Lemma make_response_eq sock keep s r :
  rs_is_chunked r = false ->
  make_response sock keep s r
  = (Ok tt, set_body s false (chunked_http_header_sent r) r,
     [finish sock keep (build_html_response keep (set_body s false (chunked_http_header_sent r) r))]).
Proof. destruct r. cbn [rs_is_chunked]. intros ->. reflexivity. Qed.

Lemma send_chunked_first sock keep s r :
  content r = [] -> chunked_http_header_sent r = false ->
  send_chunked sock keep s r
  = (Ok tt, set_body [] true true r,
     [A_write sock (build_html_response keep (set_body [] true false r)); A_write sock (chunk_bytes s)]).
Proof. destruct r. cbn [content chunked_http_header_sent]. intros -> ->. reflexivity. Qed.

Lemma send_chunked_next sock keep s r :
  content r = [] -> chunked_http_header_sent r = true -> rs_is_chunked r = true ->
  send_chunked sock keep s r = (Ok tt, r, [A_write sock (chunk_bytes s)]).
Proof. destruct r. cbn [content chunked_http_header_sent rs_is_chunked]. intros -> -> ->. reflexivity. Qed.

Lemma foreach_send sock keep ss r :
  content r = [] -> chunked_http_header_sent r = true -> rs_is_chunked r = true ->
  foreach (send_chunked sock keep) ss r = (Ok tt, r, (fun s => A_write sock (chunk_bytes s)) <$> ss).
Proof.
  intros H1 H2 H3. induction ss as [|s ss IH]; [done|]. cbn [foreach]. rewrite M_bind_eq, send_chunked_next, IH by done. done.
Qed.

Lemma written_finish sock keep d : written [finish sock keep d] = d.
Proof. unfold written, finish. destruct keep; cbn; by rewrite app_nil_r. Qed.

Lemma written_chunks sock ss : written ((fun s => A_write sock (chunk_bytes s)) <$> ss) = mjoin (chunk_bytes <$> ss).
Proof. unfold written. by rewrite <- list_fmap_compose. Qed.

Lemma written_app l1 l2 : written (l1 ++ l2) = written l1 ++ written l2.
Proof. unfold written. by rewrite fmap_app, join_app. Qed.

(** The bytes of an answer in chunks. *)
Lemma chunked_answer_eq sock keep s ss r :
  content r = [] -> chunked_http_header_sent r = false ->
  exists r' l, chunked_answer sock keep (s :: ss) r = (Ok tt, r', l)
    /\ written l = build_html_response keep (set_body [] true false r) ++ mjoin (chunk_bytes <$> s :: ss) ++ lit "0" ++ crlf ++ crlf.
Proof.
  intros H1 H2. unfold chunked_answer. cbn [foreach]. rewrite !M_bind_eq, send_chunked_first, foreach_send by done.
  cbv iota beta. eexists _, _. split; [reflexivity|]. rewrite !written_app, written_chunks.
  change (written [A_write sock ?a; A_write sock ?b]) with (a ++ b ++ []).
  rewrite app_nil_r, written_finish. change (mjoin (chunk_bytes <$> s :: ss)) with (chunk_bytes s ++ mjoin (chunk_bytes <$> ss)).
  by rewrite <- !app_assoc.
Qed.



(** An empty body has no length line: on a connection that stays open the client
    takes the next answer for its body. *)
Lemma empty_body_not_delimited sock code ct hs more :
  Forall header_ok hs -> 13 ∉ ct ->
  exists ls, client_read (written (make_response sock true [] (response_of code ct hs)).2 ++ more) = Some (ls, more, []).
Proof.
  intros Hhs Hct. pose proof (response_of_fresh code ct hs Hhs) as Hr. generalize dependent (response_of code ct hs). intros r Hr.
  rewrite make_response_eq by apply Hr. cbn [snd]. rewrite written_finish. unfold build_html_response.
  rewrite (response_header_lines true _ hs) by apply Hr. exists (head_lines true false code ct 0 hs).
  destruct Hr. cbn [rs_is_chunked set_body http_code http_content_type content length]. rewrite fr_code0, fr_ct0, <- !app_assoc.
  rewrite client_read_head by by apply head_lines_ok. by rewrite head_lines_TE, head_lines_CL by done.
Qed.
