(* ===== verification/HttpRequests.v ===== *)
(** What the HTTP service makes of a connection: requests are assembled from the
    callbacks of the parser, however they are cut into reads, and passed on.

    A [message_trace] is what the parser is documented to call for one message:
    the url, names and values in any number of pieces, the head, the body in any
    number of pieces, the end. *)

From Stdlib Require Import ZArith Lia.
From stdpp Require Import base gmap strings numbers list.
From S2P Require Import Prelude StdMap IoBuffer Codec Route CLib Sockaddr Events Service HexUri Config WebSocket Sha1 HttpService.
Open Scope Z_scope.

(** ** Messages *)

Inductive payload : Type :=
| Plain (b : list Z)
| Chunks (bs : list (list Z)).

Record message : Type := mkMessage {
  q_method : Z;
  q_url : list Z;
  q_headers : list (list Z * list Z);
  q_keep : bool;
  q_payload : payload;
}.

(** The bytes [s] in pieces. *)
Definition pieces_of (mk : list Z -> callback) (s : list Z) (cbs : list callback) : Prop :=
  exists ds, cbs = mk <$> ds /\ mjoin ds = s.

Inductive headers_trace : list (list Z * list Z) -> list callback -> Prop :=
| ht_nil : headers_trace [] []
| ht_cons k v hs a b cbs :
    pieces_of on_header_field k a -> pieces_of on_header_value v b -> headers_trace hs cbs ->
    headers_trace ((k, v) :: hs) (a ++ b ++ cbs).

Inductive chunks_trace : list (list Z) -> list callback -> Prop :=
| ct_nil : chunks_trace [] []
| ct_cons b bs a cbs :
    pieces_of on_body b a -> chunks_trace bs cbs ->
    chunks_trace (b :: bs) (on_chunk_header (Z.of_nat (length b)) :: a ++ on_chunk_complete :: cbs).

Definition payload_trace (p : payload) (cbs : list callback) : Prop :=
  match p with
  | Plain b => pieces_of on_body b cbs
  | Chunks bs => exists a, chunks_trace bs a /\ cbs = a ++ [on_chunk_header 0; on_chunk_complete]
  end.

Definition chunked_payload (p : payload) : bool := match p with Plain _ => false | Chunks _ => true end.

Definition message_trace (q : message) (cbs : list callback) : Prop :=
  exists u h b, pieces_of on_url (q_url q) u /\ headers_trace (q_headers q) h /\ payload_trace (q_payload q) b
  /\ cbs = on_message_begin :: u ++ h
           ++ [on_headers_complete (q_keep q) false (chunked_payload (q_payload q)) (q_method q)] ++ b ++ [on_message_complete].

Inductive messages_trace : list message -> list callback -> Prop :=
| mt_nil : messages_trace [] []
| mt_cons q qs a cbs : message_trace q a -> messages_trace qs cbs -> messages_trace (q :: qs) (a ++ cbs).

Definition header_named (kv : list Z * list Z) : Prop := kv.1 <> [] /\ kv.2 <> [].

(** Messages the service handles: every header has a name and a value, a message
    without chunks is a GET or a POST, a chunk is not empty. *)
Definition message_ok (q : message) : Prop :=
  Forall header_named (q_headers q)
  /\ match q_payload q with
     | Plain _ => q_method q = HTTP_GET \/ q_method q = HTTP_POST
     | Chunks bs => Forall (fun b => b <> []) bs /\ Z.of_nat (length bs) < 2 ^ 31
     end.

(** ** What is passed *)

Definition header_table (hs : list (list Z * list Z)) : str_map (list Z) :=
  foldl (fun m kv => map_assign kv.1 kv.2 m) [] hs.

Definition chunk_event (c sock : ptr) (i : nat) (b : list Z) : httpEvent.t :=
  httpEvent.RequestChunkReceived c sock (Z.of_nat i) (Some b).

Definition message_events (sock : ptr) (q : message) (c : ptr) : list httpEvent.t :=
  match q_payload q with
  | Plain _ => [httpEvent.RequestIncoming c sock]
  | Chunks bs => httpEvent.RequestIncoming c sock :: imap (chunk_event c sock) bs
                 ++ [httpEvent.RequestChunkingCompleted c sock (Z.of_nat (length bs))]
  end.

Definition passes (r : route_t) (es : list httpEvent.t) : list action := (fun e => A_pass (mkEvent (Ehttp e) r)) <$> es.

(** ** The request of a socket *)

(** The socket has a request with the context [x] at [c]; addresses from
    [next_obj] on are free. *)
Record at_ctx (sock : ptr) (r : route_t) (s : HttpCore) (rq : Request) (x : HttpContext) : Prop := {
  ac_rq : requests s !! sock = Some rq;
  ac_route : currentEvent rq = r;
  ac_ctx : contexts s !! rq_ctx rq = Some x;
  ac_old : rq_ctx rq < next_obj s;
  ac_free : forall p, next_obj s <= p -> contexts s !! p = None;
}.

Definition upd (rq : Request) (y : HttpContext) (s : HttpCore) : HttpCore :=
  set_contexts (<[rq_ctx rq := y]> (contexts s)) s.

Lemma upd_at sock r s rq x y : at_ctx sock r s rq x -> at_ctx sock r (upd rq y s) rq y.
Proof.
  intros []. split; try done; cbn.
  - by rewrite lookup_insert_eq.
  - intros p Hp. rewrite lookup_insert_ne by (unfold ptr in *; lia). by apply ac_free0.
Qed.

Lemma upd_upd rq y z s : upd rq z (upd rq y s) = upd rq z s.
Proof. unfold upd, set_contexts. cbn. by rewrite insert_insert_eq. Qed.

Lemma upd_same sock r s rq x : at_ctx sock r s rq x -> upd rq x s = s.
Proof. intros []. unfold upd, set_contexts. destruct s. cbn in *. by rewrite insert_id. Qed.

Lemma update_at sock r s rq x f :
  at_ctx sock r s rq x -> update_ctx (rq_ctx rq) f s = (Ok tt, upd rq (f x) s, []).
Proof. intros []. unfold update_ctx, modify, upd. by rewrite (alter_known f _ _ x) by done. Qed.

Lemma the_request_at sock r s rq x : at_ctx sock r s rq x -> the_request sock s = (Ok rq, s, []).
Proof. intros []. unfold the_request. by rewrite ac_rq0. Qed.

Lemma the_ctx_at sock r s rq x : at_ctx sock r s rq x -> the_ctx (rq_ctx rq) s = (Ok x, s, []).
Proof. intros []. unfold the_ctx. by rewrite ac_ctx0. Qed.

(** The pending header has both a name and a value, or neither. *)
Definition matched (x : HttpContext) : Prop :=
  (current_field x = [] /\ current_value x = []) \/ (current_field x <> [] /\ current_value x <> []).

Lemma matched_saved x : matched x -> current_field (field_saved x) = [].
Proof. unfold matched, field_saved. destruct (current_value x) eqn:E; [|done]. intros [[]|[]]; congruence. Qed.

Lemma pass_at e r s : r <> [] -> pass_http e r s = (Ok tt, s, passes r [e]).
Proof. intros Hr. by apply passEvent_ok. Qed.

(** The state after [replace_ctx]. *)
Definition renew_rq (rq : Request) (s : HttpCore) : Request := mkRequest (rq_this rq) (next_obj s) (currentEvent rq).
Definition renew (sock : ptr) (rq : Request) (s : HttpCore) : HttpCore :=
  mkHttp (<[next_obj s := HttpContext_new sock]> (contexts s)) (<[sock := renew_rq rq s]> (requests s)) (next_obj s + 1)
         (bind_addrs s) (socketListener s).

Lemma renew_at sock r s rq x :
  at_ctx sock r s rq x -> at_ctx sock r (renew sock rq s) (renew_rq rq s) (HttpContext_new sock).
Proof.
  intros []. split; try done; cbn.
  - by rewrite lookup_insert_eq.
  - by rewrite lookup_insert_eq.
  - unfold ptr in *. lia.
  - intros p Hp. rewrite lookup_insert_ne by (unfold ptr in *; lia). apply ac_free0. unfold ptr in *. lia.
Qed.

Lemma replace_at sock s rq : replace_ctx sock rq sock s = (Ok tt, renew sock rq s, []).
Proof. reflexivity. Qed.

Lemma passes_app r a b : passes r (a ++ b) = passes r a ++ passes r b.
Proof. apply fmap_app. Qed.

Lemma matched_new sock : matched (HttpContext_new sock).
Proof. by left. Qed.

(** The connection is not upgraded. *)
Definition plain_cb (cb : callback) : Prop := match cb with on_headers_complete _ true _ _ => False | _ => True end.

Record ready (sock : ptr) (r : route_t) (s : HttpCore) (rq : Request) (x : HttpContext) : Prop := {
  rd_rq : requests s !! sock = Some rq;
  rd_route : currentEvent rq = r;
  rd_ctx : contexts s !! rq_ctx rq = Some x;
  rd_ws : isWebSocket x = false;
}.

Lemma ready_upd sock r s rq x f :
  ready sock r s rq x -> (forall y, isWebSocket (f y) = isWebSocket y) ->
  ready sock r (set_contexts (alter f (rq_ctx rq) (contexts s)) s) rq (f x).
Proof. intros [] Hf. split; try done; cbn; [by rewrite lookup_alter_eq, rd_ctx0|by rewrite Hf]. Qed.

Lemma ready_renew sock r s rq x esi :
  ready sock r s rq x ->
  exists rq', ready sock r (snd (fst (replace_ctx sock rq esi s))) rq' (HttpContext_new esi).
Proof. intros []. exists (renew_rq rq s). split; [exact (lookup_insert_eq _ _ _) | done | exact (lookup_insert_eq _ _ _) | done]. Qed.

Lemma pieces_plain mk s cbs : (forall d, plain_cb (mk d)) -> pieces_of mk s cbs -> Forall plain_cb cbs.
Proof. intros Hmk (ds & -> & _). apply Forall_fmap, Forall_forall. intros d _. apply Hmk. Qed.

Ltac plain := eapply pieces_plain; [|eassumption]; done.

Lemma headers_plain hs cbs : headers_trace hs cbs -> Forall plain_cb cbs.
Proof. induction 1; [done|]. repeat apply Forall_app_2; [plain..|done]. Qed.

Lemma chunks_plain bs cbs : chunks_trace bs cbs -> Forall plain_cb cbs.
Proof. induction 1; [done|]. constructor; [done|]. apply Forall_app_2; [plain|by constructor]. Qed.

Lemma messages_plain qs cbs : messages_trace qs cbs -> Forall plain_cb cbs.
Proof.
  induction 1 as [|q qs a cbs (u & h & b & Hu & Hh & Hb & ->) _ IH]; [done|]. apply Forall_app_2; [|done].
  constructor; [done|]. repeat apply Forall_app_2; try (by repeat constructor); [plain|by eapply headers_plain|].
  destruct (q_payload q); [plain|]. destruct Hb as (c & Hc & ->).
  apply Forall_app_2; [eauto using chunks_plain|by repeat constructor].
Qed.

(** A socket that was just accepted, once the route is known. *)
Definition accepted (sock : ptr) (s : HttpCore) : HttpCore := (new_request sock s).1.2.

Definition fresh_from (s : HttpCore) : Prop := forall p, next_obj s <= p -> contexts s !! p = None.

Lemma accepted_at sock r s :
  fresh_from s ->
  let rq := mkRequest (next_obj s + 1) (next_obj s) r in
  at_ctx sock r (set_request sock rq (accepted sock s)) rq (HttpContext_new sock).
Proof.
  intros Hf rq. split; try done.
  - exact (lookup_insert_eq _ _ _).
  - exact (lookup_insert_eq _ _ _).
  - cbn. unfold ptr in *. lia.
  - cbn. intros p Hp. rewrite lookup_insert_ne by (unfold ptr in *; lia). apply Hf. unfold ptr in *. lia.
Qed.

Lemma at_ctx_ready sock r s rq x : at_ctx sock r s rq x -> isWebSocket x = false -> ready sock r s rq x.
Proof. intros []. by split. Qed.

Section Requests.
Context (llhttp_method_name : Z -> list Z).

(** The context that goes with a message. *)
Definition context_of (q : message) (x : HttpContext) : Prop :=
  url x = q_url q /\ headers x = header_table (q_headers q) /\ method_int x = q_method q
  /\ method x = llhttp_method_name (q_method q) /\ keepalive x = q_keep q
  /\ match q_payload q with Plain b => default [] (body x) = b | Chunks _ => True end.

(** ** Runs of callbacks *)

Definition run_cbs (sock : ptr) (cbs : list callback) : M HttpCore unit :=
  foreach (fun cb => _ ← run_callback llhttp_method_name sock cb; mret tt) cbs.

Lemma run_cbs_app sock a b s :
  run_cbs sock (a ++ b) s
  = match run_cbs sock a s with
    | (Ok _, s1, l1) => let '(r, s2, l2) := run_cbs sock b s1 in (r, s2, l1 ++ l2)
    | x => x
    end.
Proof.
  revert s. induction a as [|cb a IH]; intros s; cbn [app].
  - change (run_cbs sock [] s) with (Ok tt, s, @nil action). cbv iota beta. by destruct (run_cbs sock b s) as [[r s2] l2].
  - unfold run_cbs in *. cbn [foreach]. rewrite !(M_bind_eq _ (fun _ => foreach _ _)).
    destruct ((_ ← run_callback llhttp_method_name sock cb; mret tt) s) as [[[[]|e] s1] l1]; [|done].
    rewrite IH. destruct (foreach _ a s1) as [[[[]|e] s2] l2]; [|done]. destruct (foreach _ b s2) as [[r s3] l3]. by rewrite app_assoc.
Qed.

(** ** Callbacks that only fill the context *)

Definition effect (cb : callback) (x : HttpContext) : option HttpContext :=
  match cb with
  | on_message_begin => Some x
  | on_url d => Some (add_url d x)
  | on_header_field d => Some (add_field d x)
  | on_header_value d => Some (add_value d x)
  | on_headers_complete ka false false m => Some (message_known llhttp_method_name ka false m x)
  | on_body d => Some (add_body d x)
  | on_chunk_header len => Some (set_chunk None len (chunkId x) x)
  | _ => None
  end.

Fixpoint effects (cbs : list callback) (x : HttpContext) : option HttpContext :=
  match cbs with
  | [] => Some x
  | cb :: cbs' => y ← effect cb x; effects cbs' y
  end.

Lemma effects_app a b x : effects (a ++ b) x = (y ← effects a x; effects b y).
Proof.
  revert x. induction a as [|cb a IH]; intros x; [done|]. cbn [app effects].
  destruct (effect cb x) as [y|]; [|done]. cbn [mbind option_bind]. apply IH.
Qed.

Lemma run_one sock cb s : run_cbs sock [cb] s = (_ ← run_callback llhttp_method_name sock cb; mret tt) s.
Proof.
  unfold run_cbs. cbn [foreach]. rewrite (M_bind_eq _ (fun _ => mret tt)).
  destruct ((_ ← run_callback llhttp_method_name sock cb; mret tt) s) as [[[[]|e] s1] l1]; [|done].
  cbn. by rewrite app_nil_r.
Qed.

Lemma run_effect sock r s rq x cb y :
  at_ctx sock r s rq x -> effect cb x = Some y -> run_cbs sock [cb] s = (Ok tt, upd rq y s, []).
Proof.
  intros H E. rewrite run_one. unfold run_callback. rewrite !M_bind_eq, (the_request_at _ _ _ _ _ H). cbv zeta.
  destruct cb as [|d|d|d|ka [] [] m|d| |len|]; try discriminate E; injection E as <-;
    rewrite ?M_bind_eq, ?(update_at _ _ _ _ _ _ H); try reflexivity. by rewrite (upd_same _ _ _ _ _ H).
Qed.

Lemma run_effects sock r s rq x cbs y :
  at_ctx sock r s rq x -> effects cbs x = Some y -> run_cbs sock cbs s = (Ok tt, upd rq y s, []).
Proof.
  revert s x. induction cbs as [|cb cbs IH]; intros s x H E; cbn [effects] in E.
  - injection E as <-. by rewrite (upd_same _ _ _ _ _ H).
  - destruct (effect cb x) as [z|] eqn:Ez; [|done]. cbn [mbind option_bind] in E.
    change (cb :: cbs) with ([cb] ++ cbs). rewrite run_cbs_app, (run_effect _ _ _ _ _ _ _ H Ez).
    by rewrite (IH _ _ (upd_at _ _ _ _ _ z H) E), upd_upd.
Qed.

(** ** The pieces of a message *)

Lemma effects_url ds x : effects (on_url <$> ds) x = Some (add_url (mjoin ds) x).
Proof.
  revert x. induction ds as [|d ds IH]; intros x.
  - destruct x. unfold add_url. cbn. by rewrite app_nil_r.
  - cbn [fmap list_fmap effects effect mbind option_bind]. rewrite IH. unfold add_url. cbn. by rewrite app_assoc.
Qed.

Lemma effects_value ds x : effects (on_header_value <$> ds) x = Some (add_value (mjoin ds) x).
Proof.
  revert x. induction ds as [|d ds IH]; intros x.
  - destruct x. unfold add_value, set_fields. cbn. by rewrite app_nil_r.
  - cbn [fmap list_fmap effects effect mbind option_bind]. rewrite IH. unfold add_value, set_fields. cbn. by rewrite app_assoc.
Qed.

Lemma effects_body ds x :
  effects (on_body <$> ds) x
  = Some (set_chunk (match ds with [] => body x | _ => Some (default [] (body x) ++ mjoin ds) end) (chunk_size x) (chunkId x) x).
Proof.
  revert x. induction ds as [|d ds IH]; intros x; [by destruct x|].
  cbn [fmap list_fmap effects effect mbind option_bind]. rewrite IH. unfold add_body, set_chunk. cbn.
  destruct ds; cbn; by rewrite ?app_nil_r, <- ?app_assoc.
Qed.

(** A name in pieces: the first piece stores the header before it. *)
Lemma effects_field ds x :
  ds <> [] ->
  effects (on_header_field <$> ds) x
  = Some (set_fields (current_field (field_saved x) ++ mjoin ds) [] (headers (field_saved x)) x).
Proof.
  assert (forall ds x, current_value x = [] ->
    effects (on_header_field <$> ds) x = Some (set_fields (current_field x ++ mjoin ds) [] (headers x) x)) as Hloop.
  { clear ds x. intros ds. induction ds as [|d ds IH]; intros x Hx.
    - destruct x. cbn in *. subst. unfold set_fields. cbn. by rewrite app_nil_r.
    - cbn [fmap list_fmap effects effect mbind option_bind]. unfold add_field, field_saved. rewrite Hx. cbv zeta. rewrite IH by done.
      unfold set_fields. cbn. by rewrite app_assoc. }
  intros Hd. destruct ds as [|d ds]; [done|]. cbn [fmap list_fmap effects effect mbind option_bind].
  assert (current_value (field_saved x) = []) as Hv by (unfold field_saved; by destruct (current_value x) eqn:E).
  rewrite Hloop; unfold add_field; cbv zeta; rewrite Hv; [|done]. cbn. f_equal.
  unfold field_saved. destruct (current_value x); unfold set_fields; cbn; by rewrite <- ?app_assoc.
Qed.

Lemma matched_known x ka ug m :
  matched x ->
  headers (message_known llhttp_method_name ka ug m x) = headers (field_saved x).
Proof.
  unfold matched, field_saved, message_known. cbn.
  destruct (current_field x) eqn:Ef, (current_value x) eqn:Ev; cbn; rewrite ?Ef, ?Ev; intros [[]|[]]; done || congruence.
Qed.

Lemma effects_headers hs cbs x :
  headers_trace hs cbs -> Forall header_named hs -> matched x ->
  exists f v h, effects cbs x = Some (set_fields f v h x) /\ matched (set_fields f v h x)
    /\ headers (field_saved (set_fields f v h x)) = foldl (fun m kv => map_assign kv.1 kv.2 m) (headers (field_saved x)) hs.
Proof.
  intros Ht. revert x. induction Ht as [|k v hs a b cbs (ds & -> & Hk) (es & -> & Hv) _ IH]; intros x Hn Hm.
  - exists (current_field x), (current_value x), (headers x). by destruct x.
  - apply Forall_cons in Hn as [[Hk1 Hv1] Hn]. cbn [fst snd] in *.
    rewrite effects_app, effects_field by (intros ->; by apply Hk1). cbn [mbind option_bind].
    rewrite matched_saved, effects_app, effects_value, Hk, Hv by done. cbn [mbind option_bind app].
    set (x2 := set_fields k v (headers (field_saved x)) x).
    change (add_value v _) with x2.
    assert (matched x2) as Hm2 by by right.
    destruct (IH x2 Hn Hm2) as (f & w & h & E & Hm3 & Hh). exists f, w, h. split; [exact E|]. split; [exact Hm3|].
    etransitivity; [exact Hh|]. cbn [foldl fst snd]. f_equal. unfold x2, field_saved. cbn. by destruct v.
Qed.

(** The head of a message, up to [on_headers_complete]. *)
Lemma effects_head q u h x :
  pieces_of on_url (q_url q) u -> headers_trace (q_headers q) h -> Forall header_named (q_headers q) ->
  matched x ->
  exists f v t, let y := set_fields f v t (add_url (q_url q) x) in
    effects (on_message_begin :: u ++ h) x = Some y /\ matched y
    /\ headers (field_saved y) = foldl (fun m kv => map_assign kv.1 kv.2 m) (headers (field_saved x)) (q_headers q).
Proof.
  intros (ds & -> & Hu) Hh Hn Hx. cbn [effects effect mbind option_bind]. rewrite effects_app, effects_url, Hu. cbn [mbind option_bind].
  assert (matched (add_url (q_url q) x)) as Hm by exact Hx.
  destruct (effects_headers _ _ _ Hh Hn Hm) as (f & v & t & E & Hm' & Ht). exists f, v, t. split; [exact E|]. split; [exact Hm'|].
  rewrite Ht. f_equal. unfold field_saved, add_url. cbn. by destruct (current_value x).
Qed.

(** ** Callbacks that pass events *)

Lemma run_incoming sock r s rq x :
  at_ctx sock r s rq x -> r <> [] -> is_chunked x = false -> ctx_esi x = sock -> method_int x = HTTP_GET \/ method_int x = HTTP_POST ->
  run_cbs sock [on_message_complete] s
  = (Ok tt, renew sock rq s, passes r [httpEvent.RequestIncoming (rq_ctx rq) sock]).
Proof.
  intros H Hr Hc He Hm. rewrite run_one. unfold run_callback. rewrite !M_bind_eq, (the_request_at _ _ _ _ _ H). cbv zeta.
  rewrite M_bind_eq, (the_ctx_at _ _ _ _ _ H), Hc.
  assert ((method_int x =? HTTP_GET) || (method_int x =? HTTP_POST) = true) as -> by (unfold HTTP_GET, HTTP_POST in *; lia).
  rewrite M_bind_eq, (ac_route _ _ _ _ _ H), (pass_at _ _ _ Hr), M_bind_eq, He, replace_at. reflexivity.
Qed.

Lemma run_completed sock r s rq x :
  at_ctx sock r s rq x -> r <> [] -> is_chunked x = true -> ctx_esi x = sock ->
  run_cbs sock [on_message_complete] s
  = (Ok tt, renew sock rq s, passes r [httpEvent.RequestChunkingCompleted (rq_ctx rq) sock (chunkId x)]).
Proof.
  intros H Hr Hc He. rewrite run_one. unfold run_callback. rewrite !M_bind_eq, (the_request_at _ _ _ _ _ H). cbv zeta.
  rewrite M_bind_eq, (the_ctx_at _ _ _ _ _ H), Hc.
  rewrite M_bind_eq, (ac_route _ _ _ _ _ H), (pass_at _ _ _ Hr), M_bind_eq, He, replace_at. reflexivity.
Qed.

Lemma run_chunked_head sock r s rq x ka m :
  at_ctx sock r s rq x -> r <> [] ->
  run_cbs sock [on_headers_complete ka false true m] s
  = (Ok tt, upd rq (set_is_chunked (message_known llhttp_method_name ka false m x)) s,
     passes r [httpEvent.RequestIncoming (rq_ctx rq) sock]).
Proof.
  intros H Hr. rewrite run_one. unfold run_callback. rewrite !M_bind_eq, (the_request_at _ _ _ _ _ H). cbv zeta.
  rewrite M_bind_eq, (update_at _ _ _ _ _ _ H).
  rewrite M_bind_eq, (update_at _ _ _ _ _ _ (upd_at _ _ _ _ _ _ H)), upd_upd.
  rewrite M_bind_eq, (ac_route _ _ _ _ _ H), (pass_at _ _ _ Hr). reflexivity.
Qed.

Lemma run_chunk_complete sock r s rq x b :
  at_ctx sock r s rq x -> r <> [] -> body x = Some b -> chunk_size x = Z.of_nat (length b) ->
  run_cbs sock [on_chunk_complete] s
  = (Ok tt, upd rq (set_chunk None 0 (cast I32 (chunkId x + 1)) x) s,
     passes r [httpEvent.RequestChunkReceived (rq_ctx rq) sock (chunkId x) (Some b)]).
Proof.
  intros H Hr Hb Hs. rewrite run_one. unfold run_callback. rewrite !M_bind_eq, (the_request_at _ _ _ _ _ H). cbv zeta.
  rewrite M_bind_eq, (the_ctx_at _ _ _ _ _ H), Hb, Hs, Z.eqb_refl. cbn [negb].
  rewrite M_bind_eq, (update_at _ _ _ _ _ _ H), M_bind_eq, (ac_route _ _ _ _ _ H), (pass_at _ _ _ Hr).
  rewrite M_bind_eq, (update_at _ _ _ _ _ _ (upd_at _ _ _ _ _ _ H)), upd_upd. reflexivity.
Qed.

Lemma run_chunk_empty sock r s rq x :
  at_ctx sock r s rq x -> body x = None -> run_cbs sock [on_chunk_complete] s = (Ok tt, s, []).
Proof.
  intros H Hb. rewrite run_one. unfold run_callback. rewrite !M_bind_eq, (the_request_at _ _ _ _ _ H). cbv zeta.
  by rewrite M_bind_eq, (the_ctx_at _ _ _ _ _ H), Hb.
Qed.

Lemma run_chunks sock r s rq x bs cbs i :
  at_ctx sock r s rq x -> r <> [] -> chunks_trace bs cbs -> Forall (fun b => b <> []) bs ->
  chunkId x = Z.of_nat i -> Z.of_nat (i + length bs) < 2 ^ 31 ->
  exists b n, run_cbs sock cbs s
    = (Ok tt, upd rq (set_chunk b n (Z.of_nat (i + length bs)) x) s, passes r (imap (fun j => chunk_event (rq_ctx rq) sock (i + j)) bs)).
Proof.
  intros H Hr Ht. revert s x i H. induction Ht as [|b bs a cbs (ds & -> & Hb) _ IH]; intros s x i H Hne Hi Hl.
  - exists (body x), (chunk_size x). cbn [length imap] in *. rewrite Nat.add_0_r, <- Hi.
    replace (set_chunk (body x) (chunk_size x) (chunkId x) x) with x by by destruct x. by rewrite (upd_same _ _ _ _ _ H).
  - apply Forall_cons in Hne as [Hb0 Hne]. cbn [length] in Hl.
    assert (ds <> []) as Hds by (intros ->; by apply Hb0).
    set (x1 := set_chunk (Some b) (Z.of_nat (length b)) (chunkId x) x).
    assert (effects (on_chunk_header (Z.of_nat (length b)) :: (on_body <$> ds)) x = Some x1) as E.
    { cbn [effects effect mbind option_bind]. rewrite effects_body, Hb. by destruct ds. }
    assert (at_ctx sock r (upd rq x1 s) rq x1) as H1 by by eapply upd_at.
    change (on_chunk_header (Z.of_nat (length b)) :: (on_body <$> ds) ++ on_chunk_complete :: cbs)
      with ((on_chunk_header (Z.of_nat (length b)) :: (on_body <$> ds)) ++ [on_chunk_complete] ++ cbs).
    rewrite run_cbs_app, (run_effects _ _ _ _ _ _ _ H E), run_cbs_app.
    rewrite (run_chunk_complete _ _ _ _ _ b H1) by done.
    set (x2 := set_chunk None 0 (cast I32 (chunkId x1 + 1)) x1).
    assert (chunkId x2 = Z.of_nat (S i)) as Hi2.
    { change (chunkId x2) with (cast I32 (chunkId x + 1)). rewrite cast_id; [lia|]. cbv [in_range is_signed width]. lia. }
    assert (at_ctx sock r (upd rq x2 (upd rq x1 s)) rq x2) as H2 by by eapply upd_at.
    destruct (IH _ _ _ H2 Hne Hi2 ltac:(lia)) as (b' & n & ->).
    exists b', n. rewrite !upd_upd. cbv iota beta. cbn [app length imap]. replace (i + S (length bs))%nat with (S i + length bs)%nat by lia.
    f_equal.
    cbn [passes fmap list_fmap app]. rewrite Nat.add_0_r. change (chunkId x1) with (chunkId x). rewrite Hi. f_equal.
    f_equal. apply imap_ext. intros j y _. cbn. f_equal. lia.
Qed.

(** ** Whole messages *)

(** What a message leaves behind: its context, and a new one in its place. *)
Definition message_done (sock : ptr) (r : route_t) (q : message) (s : HttpCore) (rq : Request) (s' : HttpCore) : Prop :=
  (exists x, contexts s' !! rq_ctx rq = Some x /\ context_of q x)
  /\ (exists rq', rq_ctx rq' = next_obj s /\ at_ctx sock r s' rq' (HttpContext_new sock))
  /\ (forall p, p < next_obj s -> p <> rq_ctx rq -> contexts s' !! p = contexts s !! p).

Lemma renew_done sock r q s rq x y :
  at_ctx sock r s rq x -> context_of q y -> message_done sock r q s rq (renew sock rq (upd rq y s)).
Proof.
  intros H Hq. pose proof (ac_old _ _ _ _ _ H) as Hold. split_and!.
  - exists y. split; [|done]. cbn. rewrite lookup_insert_ne by (unfold ptr in *; lia). by rewrite lookup_insert_eq.
  - exists (renew_rq rq (upd rq y s)). split; [done|]. eapply renew_at, upd_at, H.
  - intros p Hp Hne. cbn. rewrite !lookup_insert_ne by (unfold ptr in *; lia || congruence). done.
Qed.

Lemma run_message sock r s rq q cbs :
  at_ctx sock r s rq (HttpContext_new sock) -> r <> [] -> message_trace q cbs -> message_ok q ->
  exists s', run_cbs sock cbs s = (Ok tt, s', passes r (message_events sock q (rq_ctx rq))) /\ message_done sock r q s rq s'.
Proof.
  intros H Hr (u & h & b & Hu & Hh & Hb & ->) [Hn Hp].
  destruct (effects_head q u h _ Hu Hh Hn (matched_new sock)) as (f & v & t & E & Hm & Ht). cbv zeta in E, Hm, Ht.
  set (x1 := set_fields f v t (add_url (q_url q) (HttpContext_new sock))) in *.
  change (headers (field_saved (HttpContext_new sock))) with (@nil (list Z * list Z)) in Ht.
  pose proof (matched_known x1 (q_keep q) false (q_method q) Hm) as Hk. rewrite Ht in Hk.
  set (x2 := message_known llhttp_method_name (q_keep q) false (q_method q) x1) in *.
  assert (at_ctx sock r (upd rq x1 s) rq x1) as H1 by by eapply upd_at.
  change (on_message_begin :: u ++ h ++ ?z) with ((on_message_begin :: u) ++ h ++ z). rewrite app_assoc.
  change ((on_message_begin :: u) ++ h) with (on_message_begin :: u ++ h). rewrite run_cbs_app, (run_effects _ _ _ _ _ _ _ H E).
  unfold message_events. destruct (q_payload q) as [body|bs] eqn:Epay; cbn [payload_trace chunked_payload] in *.
  - destruct Hb as (ds & -> & Hd).
    set (x3 := set_chunk (match ds with [] => None | _ => Some body end) 0 0 x2).
    assert (effects (on_headers_complete (q_keep q) false false (q_method q) :: (on_body <$> ds)) x1 = Some x3) as E3.
    { cbn [effects effect mbind option_bind]. rewrite effects_body, Hd. by destruct ds. }
    rewrite app_assoc. change ([?a] ++ (on_body <$> ds)) with (a :: (on_body <$> ds)).
    rewrite run_cbs_app, (run_effects _ _ _ _ _ _ _ H1 E3).
    rewrite (run_incoming _ _ _ _ x3) by (done || by eapply upd_at).
    rewrite upd_upd. eexists. split; [reflexivity|]. eapply renew_done; [done|].
    split_and!; try done. rewrite Epay. destruct ds; [by rewrite <- Hd|done].
  - destruct Hb as (a & Ha & ->). destruct Hp as [Hne Hl].
    rewrite run_cbs_app, (run_chunked_head _ _ _ _ _ _ _ H1 Hr). fold x2.
    set (x3 := set_is_chunked x2). assert (at_ctx sock r (upd rq x3 (upd rq x1 s)) rq x3) as H3 by by eapply upd_at.
    rewrite <- app_assoc, run_cbs_app.
    destruct (run_chunks sock r _ rq x3 bs a 0 H3 Hr Ha Hne eq_refl Hl) as (b' & n & ->).
    set (x4 := set_chunk b' n (Z.of_nat (0 + length bs)) x3).
    assert (at_ctx sock r (upd rq x4 (upd rq x3 (upd rq x1 s))) rq x4) as H4 by by eapply upd_at.
    set (x5 := set_chunk None 0 (chunkId x4) x4).
    change ([on_chunk_header 0; on_chunk_complete] ++ [on_message_complete])
      with ([on_chunk_header 0] ++ [on_chunk_complete] ++ [on_message_complete]).
    rewrite run_cbs_app, (run_effect _ _ _ _ _ (on_chunk_header 0) x5 H4 eq_refl).
    assert (at_ctx sock r (upd rq x5 (upd rq x4 (upd rq x3 (upd rq x1 s)))) rq x5) as H5 by by eapply upd_at.
    rewrite run_cbs_app, (run_chunk_empty _ _ _ _ _ H5 eq_refl), (run_completed _ _ _ _ _ H5) by done.
    rewrite !upd_upd. exists (renew sock rq (upd rq x5 s)). split.
    + f_equal. cbn [app]. change (passes r (?e :: ?l)) with (passes r [e] ++ passes r l). by rewrite passes_app.
    + eapply renew_done; [done|]. split_and!; try done. by rewrite Epay.
Qed.

Lemma run_messages sock r s rq qs cbs :
  at_ctx sock r s rq (HttpContext_new sock) -> r <> [] -> messages_trace qs cbs -> Forall message_ok qs ->
  exists cs s', run_cbs sock cbs s = (Ok tt, s', passes r (mjoin (zip_with (message_events sock) qs cs)))
    /\ Forall2 (fun q c => exists x, contexts s' !! c = Some x /\ context_of q x) qs cs
    /\ NoDup cs /\ Forall (fun c => c = rq_ctx rq \/ next_obj s <= c) cs
    /\ (forall p, p < next_obj s -> p <> rq_ctx rq -> contexts s' !! p = contexts s !! p).
Proof.
  intros H Hr Ht. revert s rq H. induction Ht as [|q qs a cbs Ha _ IH]; intros s rq H Hok.
  - exists [], s. by split_and!; constructor.
  - apply Forall_cons in Hok as [Hq Hok]. rewrite run_cbs_app.
    destruct (run_message sock r s rq q a H Hr Ha Hq) as (s1 & -> & (x & Hx & Hc) & (rq1 & Hn & H1) & Hkeep).
    destruct (IH s1 rq1 H1 Hok) as (cs & s2 & -> & Hall & Hnd & Hge & Hkeep2).
    pose proof (ac_old _ _ _ _ _ H) as Hold. pose proof (ac_old _ _ _ _ _ H1) as Hold1. unfold ptr in *.
    assert (Forall (fun c => next_obj s <= c) cs) as Hge' by (eapply Forall_impl; [exact Hge|]; cbv beta; lia).
    exists (rq_ctx rq :: cs), s2. split_and!.
    + cbn [zip_with mjoin list_join]. by rewrite passes_app.
    + constructor; [|done]. exists x. split; [|done]. rewrite Hkeep2; [done|lia..].
    + constructor; [|done]. rewrite Forall_forall in Hge'. intros Hin%Hge'. lia.
    + constructor; [by left|]. eapply Forall_impl; [exact Hge'|]. cbv beta. lia.
    + intros p Hp Hne. rewrite Hkeep2 by lia. by apply Hkeep.
Qed.

(** ** Between reads *)

Lemma ready_run sock r s rq x cb z s' l :
  ready sock r s rq x -> r <> [] -> plain_cb cb -> run_callback llhttp_method_name sock cb s = (Ok z, s', l) ->
  exists rq' x', ready sock r s' rq' x'.
Proof.
  intros H Hr Hp. unfold run_callback. rewrite M_bind_eq. unfold the_request. rewrite (rd_rq _ _ _ _ _ H). cbv zeta.
  assert (forall s, the_ctx (rq_ctx rq) s = match contexts s !! rq_ctx rq with Some x => (Ok x, s, []) | None => (Throw (UB "null HttpContext"), s, []) end) as Hctx by done.
  destruct cb as [|d|d|d|ka ug ch m|d| |len|]; rewrite ?M_bind_eq; unfold update_ctx, modify; cbv iota beta.
  - intros [= _ <- _]. eauto.
  - intros [= _ <- _]. eexists _, _. by apply (ready_upd _ _ _ _ _ (add_url d) H).
  - intros [= _ <- _]. eexists _, _. apply (ready_upd _ _ _ _ _ (add_field d) H). intros y. unfold add_field, field_saved. by destruct (current_value y).
  - intros [= _ <- _]. eexists _, _. by apply (ready_upd _ _ _ _ _ (add_value d) H).
  - destruct ug; [done|]. destruct ch; [|intros [= _ <- _]; eexists _, _; by apply (ready_upd _ _ _ _ _ _ H)].
    rewrite M_bind_eq, M_bind_eq, (rd_route _ _ _ _ _ H), (pass_at _ _ _ Hr). intros [= _ <- _]. eexists _, _.
    refine (ready_upd _ _ _ _ _ set_is_chunked (ready_upd _ _ _ _ _ _ H _) _); done.
  - intros [= _ <- _]. eexists _, _. by apply (ready_upd _ _ _ _ _ (add_body d) H).
  - rewrite Hctx, (rd_ctx _ _ _ _ _ H). destruct (is_chunked x); [|destruct (_ || _); [|intros [= _ <- _]; eauto]];
      rewrite M_bind_eq, (rd_route _ _ _ _ _ H), (pass_at _ _ _ Hr); cbn; intros [= _ <- _];
      destruct (ready_renew _ _ _ _ _ (ctx_esi x) H) as [rq' H']; eexists _, _; exact H'.
  - intros [= _ <- _]. eexists _, _. by apply (ready_upd _ _ _ _ _ _ H).
  - rewrite Hctx, (rd_ctx _ _ _ _ _ H). destruct (body x) as [b|]; [|intros [= _ <- _]; eauto].
    destruct (negb _); [done|]. rewrite M_bind_eq. cbv iota beta. rewrite M_bind_eq, (rd_route _ _ _ _ _ H), (pass_at _ _ _ Hr), M_bind_eq.
    cbv iota beta. intros [= _ <- _]. eexists _, _. refine (ready_upd _ _ _ _ _ (fun x => set_chunk None 0 (chunkId x) x) (ready_upd _ _ _ _ _ _ H _) _); done.
Qed.

Lemma ready_cbs sock r cbs : forall s rq x s' l,
  ready sock r s rq x -> r <> [] -> Forall plain_cb cbs -> run_cbs sock cbs s = (Ok tt, s', l) ->
  exists rq' x', ready sock r s' rq' x'.
Proof.
  induction cbs as [|cb cbs IH]; intros s rq x s' l H Hr Hp.
  - intros [= <- _]. eauto.
  - apply Forall_cons in Hp as [Hcb Hp]. change (cb :: cbs) with ([cb] ++ cbs). rewrite run_cbs_app, run_one, M_bind_eq.
    destruct (run_callback llhttp_method_name sock cb s) as [[[z|e] s1] l1] eqn:E; [|done]. cbv iota beta.
    destruct (ready_run _ _ _ _ _ _ _ _ _ H Hr Hcb E) as (rq1 & x1 & H1). cbn [mret M_ret].
    destruct (run_cbs sock cbs s1) as [[r2 s2] l2] eqn:E2. intros [= -> <- _]. by eapply IH.
Qed.

(** ** Reads *)

Section Reads.
Context {P : Type} (llhttp_init : P) (llhttp_execute : P -> list Z -> list (callback * P) * Z * P).

(** The callbacks of a parser that is given the reads [ds] in turn. *)
Fixpoint parse_reads (p : P) (ds : list (list Z)) : option (list callback) :=
  match ds with
  | [] => Some []
  | d :: ds' =>
      let '(cbs, err, p') := llhttp_execute p d in
      if err =? HPE_OK then rest ← parse_reads p' ds'; Some (cbs.*1 ++ rest) else None
  end.

Definition read (sock : ptr) (r : route_t) (d : list Z) : M Http unit :=
  _ ← on_StreamRead llhttp_init llhttp_execute llhttp_method_name sock r d; mret tt.

Definition reads (sock : ptr) (r : route_t) : list (list Z) -> M Http unit := foreach (read sock r).

(** The callbacks do not see the parser. *)
Lemma run_callbacks_core sock cbs : forall S,
  let '(o, c, l) := run_cbs sock (cbs.*1) (core S) in
  exists ps, run_callbacks (P := P) llhttp_method_name sock cbs S = (o, mkService c ps, l).
Proof.
  induction cbs as [|[cb p] cbs IH]; intros S; [exists (parsers S); by destruct S|].
  unfold run_callbacks in *. cbn [fmap list_fmap fst foreach]. rewrite !M_bind_eq.
  change (cb :: ?l) with ([cb] ++ l). rewrite run_cbs_app, run_one, M_bind_eq. cbn [set_parser modify].
  rewrite (M_bind_eq (on_core _)). unfold on_core at 1. cbn [core].
  destruct (run_callback llhttp_method_name sock cb (core S)) as [[[z|e] c1] l1]; [|by eexists].
  cbv iota beta. cbn [mret M_ret]. rewrite app_nil_r.
  specialize (IH (mkService c1 (<[sock := p]> (parsers S)))). cbn [core] in IH.
  destruct (run_cbs sock (cbs.*1) c1) as [[o2 c2] l2]. destruct IH as [ps E]. exists ps. cbn in *. by rewrite E.
Qed.

(** [currentEvent] is set before the parser runs. *)
Definition at_route (sock : ptr) (r : route_t) (rq : Request) (S : Http (P := P)) : Http :=
  mkService (set_request sock (mkRequest (rq_this rq) (rq_ctx rq) r) (core S)) (parsers S).

Lemma on_StreamRead_eq sock r d S rq x p cbs err p' :
  requests (core S) !! sock = Some rq -> contexts (core S) !! rq_ctx rq = Some x -> isWebSocket x = false ->
  parsers S !! sock = Some p -> llhttp_execute p d = (cbs, err, p') ->
  on_StreamRead llhttp_init llhttp_execute llhttp_method_name sock r d S
  = match run_callbacks llhttp_method_name sock cbs (at_route sock r rq S) with
    | (Ok _, S1, l) => (if err =? HPE_OK then Ok true else Throw (CommonError "Parse error"),
                        mkService (core S1) (<[sock := p']> (parsers S1)), l)
    | (Throw e, S1, l) => (Throw e, S1, l)
    end.
Proof.
  intros Hrq Hx Hw Hp He. destruct S as [c ps]. cbn [core parsers] in *.
  assert (getData llhttp_init sock (mkService c ps) = (Ok rq, mkService c ps, [])) as Hg.
  { cbv [getData add_request on_core mbind M_bind gets id mret M_ret the_request core parsers]. rewrite Hrq. cbv beta iota. by rewrite Hrq. }
  unfold on_StreamRead. rewrite M_bind_eq, Hg, M_bind_eq. unfold on_core at 1, the_ctx at 1. cbn [core parsers].
  rewrite Hx, Hw. rewrite M_bind_eq. unfold on_core at 1, set_currentEvent at 1. cbn [core parsers]. rewrite M_bind_eq.
  unfold the_request at 1. rewrite Hrq. cbv iota beta. cbn [modify app].
  rewrite M_bind_eq. unfold the_parser at 1, gets at 1. cbn [parsers]. rewrite Hp. change (default llhttp_init (Some p)) with p. rewrite He, M_bind_eq.
  unfold at_route. cbn [core parsers].
  destruct (run_callbacks llhttp_method_name sock cbs _) as [[[[]|e] S1] l]; [|done]. cbv iota beta. rewrite M_bind_eq. cbn [set_parser modify].
  destruct (err =? HPE_OK); cbn; by rewrite app_nil_r.
Qed.

Lemma at_route_ready sock r S rq x : ready sock r (core S) rq x -> at_route sock r rq S = S.
Proof.
  intros []. destruct S as [[] ps], rq. unfold at_route, set_request. cbn in *. subst. by rewrite insert_id.
Qed.

Lemma reads_run sock r ds : forall S p rq x cbs s' l,
  ready sock r (core S) rq x -> r <> [] -> parsers S !! sock = Some p -> parse_reads p ds = Some cbs -> Forall plain_cb cbs ->
  run_cbs sock cbs (core S) = (Ok tt, s', l) ->
  exists S', reads sock r ds S = (Ok tt, S', l) /\ core S' = s'.
Proof.
  induction ds as [|d ds IH]; intros S p rq x cbs s' l H Hr Hp E Hpl; cbn [parse_reads] in E.
  - injection E as <-. intros [= <- <-]. by exists S.
  - destruct (llhttp_execute p d) as [[cb err] p'] eqn:Ex. destruct (err =? HPE_OK) eqn:Eerr; [|done].
    destruct (parse_reads p' ds) as [rest|] eqn:Er; [|done]. cbn [mbind option_bind] in E. injection E as <-.
    apply Forall_app in Hpl as [Hp1 Hp2]. rewrite run_cbs_app.
    destruct (run_cbs sock cb.*1 (core S)) as [[[[]|e] s1] l1] eqn:E1; [|done].
    destruct (run_cbs sock rest s1) as [[o2 s2] l2] eqn:E2. intros [= -> -> <-].
    destruct (ready_cbs _ _ _ _ _ _ _ _ H Hr Hp1 E1) as (rq1 & x1 & H1).
    pose proof (run_callbacks_core sock cb S) as Hc. rewrite E1 in Hc. destruct Hc as [ps Hc].
    unfold reads. cbn [foreach]. rewrite M_bind_eq. unfold read at 1. rewrite M_bind_eq.
    rewrite (on_StreamRead_eq _ _ _ _ rq x p cb err p') by (apply H || done).
    rewrite (at_route_ready _ _ _ _ _ H), Hc, Eerr. cbv iota beta. cbn [core parsers mret M_ret].
    destruct (IH (mkService s1 (<[sock := p']> ps)) p' rq1 x1 rest s' l2) as (S' & ES & EC); try done.
    { cbn. by rewrite lookup_insert_eq. }
    exists S'. split; [|done]. unfold reads in ES. rewrite ES. cbn. by rewrite app_nil_r.
Qed.

Lemma read_route sock r d S rq x p :
  requests (core S) !! sock = Some rq -> contexts (core S) !! rq_ctx rq = Some x -> isWebSocket x = false ->
  parsers S !! sock = Some p ->
  read sock r d S = read sock r d (at_route sock r rq S).
Proof.
  intros Hrq Hx Hw Hp. destruct (llhttp_execute p d) as [[cbs err] p'] eqn:E. unfold read. rewrite !M_bind_eq.
  rewrite (on_StreamRead_eq _ _ _ S rq x p cbs err p') by done.
  rewrite (on_StreamRead_eq _ _ _ (at_route sock r rq S) (mkRequest (rq_this rq) (rq_ctx rq) r) x p cbs err p'); try done.
  - replace (at_route sock r (mkRequest (rq_this rq) (rq_ctx rq) r) (at_route sock r rq S)) with (at_route sock r rq S); [done|].
    unfold at_route, set_request. cbn. by rewrite insert_insert_eq.
  - cbn. by rewrite lookup_insert_eq.
Qed.

Lemma on_Accepted_eq sock S :
  requests (core S) !! sock = None ->
  on_Accepted llhttp_init sock S = (Ok true, mkService (accepted sock (core S)) (<[sock := llhttp_init]> (parsers S)), []).
Proof.
  intros H. destruct S as [c ps]. cbv [on_Accepted add_request on_core mbind M_bind gets id mret M_ret core parsers].
  cbn [core] in H. rewrite H. reflexivity.
Qed.

(** The reads of an accepted socket run the callbacks of the parser. *)
Lemma accepted_reads sock r d ds S cbs s' l :
  requests (core S) !! sock = None -> fresh_from (core S) -> r <> [] ->
  parse_reads llhttp_init (d :: ds) = Some cbs -> Forall plain_cb cbs ->
  (let rq := mkRequest (next_obj (core S) + 1) (next_obj (core S)) r in
   run_cbs sock cbs (set_request sock rq (accepted sock (core S))) = (Ok tt, s', l)) ->
  exists S', (_ ← on_Accepted llhttp_init sock; reads sock r (d :: ds)) S = (Ok tt, S', l) /\ core S' = s'.
Proof.
  cbv zeta. set (rq0 := mkRequest (next_obj (core S) + 1) (next_obj (core S)) []).
  intros Hn Hf Hr Hp Hpl Hrun. rewrite M_bind_eq, on_Accepted_eq by done. cbv iota beta.
  set (S1 := mkService (accepted sock (core S)) (<[sock := llhttp_init]> (parsers S))).
  assert (reads sock r (d :: ds) S1 = reads sock r (d :: ds) (at_route sock r rq0 S1)) as ->.
  { unfold reads. cbn [foreach]. rewrite !M_bind_eq. erewrite (read_route sock r d S1 rq0 _ llhttp_init); [reflexivity|..].
    - exact (lookup_insert_eq _ _ _).
    - exact (lookup_insert_eq _ _ _).
    - done.
    - exact (lookup_insert_eq _ _ _). }
  pose proof (accepted_at sock r (core S) Hf) as Hat. cbv zeta in Hat.
  destruct (reads_run sock r (d :: ds) (at_route sock r rq0 S1) llhttp_init _ _ cbs s' l (at_ctx_ready _ _ _ _ _ Hat eq_refl) Hr)
    as (S' & E & EC); try done.
  - exact (lookup_insert_eq _ _ _).
  - exists S'. split; [|done]. rewrite E. done.
Qed.
End Reads.
End Requests.

(** ** Properties *)

(** Requests are assembled and passed on, one by one and in order.  Let the
    parser turn the reads of a new connection, however they are cut, into the
    callbacks of the messages [qs], one after the other.  Then every message gives
    exactly its events, with a context of its own: a GET or POST one
    [RequestIncoming] whose context has the url, the headers (the last value of a
    name), the method, the keep-alive flag and the whole body; a chunked message
    [RequestIncoming] at its head, each chunk with its number, and the end with
    their count. *)
Lemma http_requests_delivered {P : Type} (llhttp_init : P) llhttp_execute llhttp_method_name S sock r ds cbs qs :
  requests (core S) !! sock = None -> fresh_from (core S) -> r <> [] ->
  parse_reads llhttp_execute llhttp_init ds = Some cbs -> messages_trace qs cbs -> Forall message_ok qs ->
  exists cs S',
    (_ ← on_Accepted llhttp_init sock; reads llhttp_method_name llhttp_init llhttp_execute sock r ds) S
    = (Ok tt, S', passes r (mjoin (zip_with (message_events sock) qs cs)))
    /\ NoDup cs
    /\ Forall2 (fun q c => exists x, contexts (core S') !! c = Some x /\ context_of llhttp_method_name q x) qs cs.
Proof.
  intros Hn Hf Hr Hp Ht Hok. destruct ds as [|d ds].
  - injection Hp as <-. inversion Ht as [E|q qs' a rest Hq Hqs Eq Ea]; subst.
    + exists [], (on_Accepted llhttp_init sock S).1.2. rewrite M_bind_eq, on_Accepted_eq by done. by split_and!; constructor.
    + exfalso. apply app_nil in Ea as [-> _]. by destruct Hq as (? & ? & ? & _ & _ & _ & ?).
  - destruct (run_messages llhttp_method_name sock r _ _ qs cbs
      (accepted_at sock r (core S) Hf) Hr Ht Hok)
      as (cs & s' & E & Hall & Hnd & _).
    destruct (accepted_reads llhttp_method_name llhttp_init llhttp_execute sock r d ds S cbs s' _ Hn Hf Hr Hp (messages_plain _ _ Ht) E)
      as (S' & ES & <-). by exists cs, S'.
Qed.

(** A parser that makes the callbacks of a script, one list per read. *)
Definition script_execute (p : list (list callback)) (d : list Z) : list (callback * list (list callback)) * Z * list (list callback) :=
  match p with
  | [] => ([], HPE_OK, [])
  | cbs :: p' => ((fun cb => (cb, p')) <$> cbs, HPE_OK, p')
  end.

Definition demo_get : message := mkMessage HTTP_GET (lit "/ab") [(lit "Host", lit "x")] true (Plain []).
Definition demo_upload : message := mkMessage HTTP_POST (lit "/c") [] true (Chunks [lit "hello"]).
Definition demo_script : list (list callback) :=
  [[on_message_begin; on_url (lit "/a")];
   [on_url (lit "b"); on_header_field (lit "Ho"); on_header_field (lit "st"); on_header_value (lit "x");
    on_headers_complete true false false HTTP_GET; on_message_complete; on_message_begin; on_url (lit "/c")];
   [on_headers_complete true false true HTTP_POST; on_chunk_header 5; on_body (lit "he")];
   [on_body (lit "llo"); on_chunk_complete; on_chunk_header 0; on_chunk_complete; on_message_complete]].
Definition demo_http {P} : Http (P := P) := mkService (mkHttp ∅ ∅ 1 [] 0) ∅.

Lemma demo_trace : messages_trace [demo_get; demo_upload] (mjoin demo_script).
Proof.
  rewrite <- (take_drop 8 (mjoin demo_script)).
  apply (mt_cons demo_get [demo_upload] (take 8 (mjoin demo_script)) (drop 8 (mjoin demo_script))).
  - exists [on_url (lit "/a"); on_url (lit "b")], [on_header_field (lit "Ho"); on_header_field (lit "st"); on_header_value (lit "x")], [].
    split_and!.
    + by exists [lit "/a"; lit "b"].
    + apply (ht_cons _ _ _ [on_header_field (lit "Ho"); on_header_field (lit "st")] [on_header_value (lit "x")] []).
      * by exists [lit "Ho"; lit "st"].
      * by exists [lit "x"].
      * constructor.
    + by exists [].
    + reflexivity.
  - rewrite <- (app_nil_r (drop 8 _)). apply (mt_cons demo_upload [] (drop 8 (mjoin demo_script)) []); [|constructor].
    exists [on_url (lit "/c")], [], [on_chunk_header 5; on_body (lit "he"); on_body (lit "llo"); on_chunk_complete; on_chunk_header 0; on_chunk_complete].
    split_and!.
    + by exists [lit "/c"].
    + constructor.
    + exists [on_chunk_header 5; on_body (lit "he"); on_body (lit "llo"); on_chunk_complete]. split; [|done].
      apply (ct_cons (lit "hello") [] [on_body (lit "he"); on_body (lit "llo")] []); [|constructor]. by exists [lit "he"; lit "llo"].
    + reflexivity.
Qed.

Lemma http_requests_delivered_witness :
  let r := [LOCALSERVICE 1] in
  let run := (_ ← on_Accepted demo_script 7; reads (fun _ => []) demo_script script_execute 7 r [[1]; [2]; [3]; [4]]) in
  (run demo_http).2 = passes r [httpEvent.RequestIncoming 1 7; httpEvent.RequestIncoming 3 7;
                                httpEvent.RequestChunkReceived 3 7 0 (Some (lit "hello")); httpEvent.RequestChunkingCompleted 3 7 1]
  /\ exists cs S', run demo_http = (Ok tt, S', passes r (mjoin (zip_with (message_events 7) [demo_get; demo_upload] cs)))
     /\ NoDup cs
     /\ Forall2 (fun q c => exists x, contexts (core S') !! c = Some x /\ context_of (fun _ => []) q x) [demo_get; demo_upload] cs.
Proof.
  split; [vm_compute; reflexivity|].
  apply (http_requests_delivered demo_script script_execute (fun _ => []) demo_http 7 [LOCALSERVICE 1] [[1]; [2]; [3]; [4]] (mjoin demo_script)).
  - reflexivity.
  - intros p _. apply lookup_empty.
  - done.
  - reflexivity.
  - exact demo_trace.
  - repeat constructor; done.
Defined.

(** ** Upgraded connections *)

Lemma table_sorted hs : map_sorted str_lt (header_table hs).
Proof.
  unfold header_table. assert (map_sorted str_lt (@nil (list Z * list Z))) as H by constructor. revert H.
  generalize (@nil (list Z * list Z)). induction hs as [|kv hs IH]; intros m Hm; [done|]. cbn [foldl]. by apply IH, map_assign_sorted.
Qed.

Lemma header_at_keeps j k h v :
  map_sorted str_lt h -> j <> k -> map_find str_lt j h = Some v -> map_find str_lt j (header_at k h).2 = Some v.
Proof. intros Hs Hne Hv. cbn. by rewrite (map_find_update_ne str_lt). Qed.

Lemma header_at_sorted k h : map_sorted str_lt h -> map_sorted str_lt (header_at k h).2.
Proof. intros Hs. by apply (map_update_sorted str_lt). Qed.

Definition upgrade_trace (q : message) (cbs : list callback) : Prop :=
  exists u h, pieces_of on_url (q_url q) u /\ headers_trace (q_headers q) h
  /\ cbs = (on_message_begin :: u ++ h) ++ [on_headers_complete (q_keep q) true false (q_method q)] ++ [on_message_complete].

Lemma run_upgrade_head name sock r s rq x q ug key :
  at_ctx sock r s rq x -> headers (field_saved x) = header_table (q_headers q) -> matched x ->
  map_find str_lt (lit "Upgrade") (header_table (q_headers q)) = Some ug -> equals_case_insensitive ug (lit "websocket") = true ->
  map_find str_lt (lit "Sec-WebSocket-Key") (header_table (q_headers q)) = Some key ->
  exists h, let y := set_websocket (websocket_buffer x) (set_fields (current_field x) (current_value x) h
                       (message_known name (q_keep q) true (q_method q) x)) in
  run_cbs name sock [on_headers_complete (q_keep q) true false (q_method q)] s
  = (Ok tt, upd rq y s, [A_write sock (switching key)]).
Proof.
  intros H Ht Hm Hug Heq Hkey. set (x2 := message_known name (q_keep q) true (q_method q) x).
  assert (headers x2 = header_table (q_headers q)) as Hh by (rewrite <- Ht; by apply matched_known).
  pose proof (table_sorted (q_headers q)) as Hs.
  set (h1 := (header_at (lit "Upgrade") (headers x2)).2). set (h2 := (header_at (lit "Sec-WebSocket-Version") h1).2).
  exists (header_at (lit "Sec-WebSocket-Key") h2).2. cbv zeta.
  assert (map_find str_lt (lit "Sec-WebSocket-Key") h2 = Some key) as Hk2.
  { apply header_at_keeps; [apply header_at_sorted; by rewrite Hh|done|]. apply header_at_keeps; [by rewrite Hh|done|by rewrite Hh]. }
  rewrite run_one. unfold run_callback. rewrite !M_bind_eq, (the_request_at _ _ _ _ _ H). cbv zeta.
  rewrite M_bind_eq, (update_at _ _ _ _ _ _ H). fold x2. cbv iota beta. rewrite M_bind_eq. unfold upgrade_request.
  rewrite M_bind_eq, (the_ctx_at _ _ _ _ _ (upd_at _ _ _ _ _ x2 H)).
  rewrite (surjective_pairing (header_at (lit "Upgrade") (headers x2))). fold h1. cbv iota beta.
  assert ((header_at (lit "Upgrade") (headers x2)).1 = ug) as -> by (cbn [header_at fst]; by rewrite Hh, Hug).
  rewrite Heq. rewrite (surjective_pairing (header_at (lit "Sec-WebSocket-Version") h1)). fold h2. cbv iota beta.
  rewrite (surjective_pairing (header_at (lit "Sec-WebSocket-Key") h2)). cbv iota beta.
  assert ((header_at (lit "Sec-WebSocket-Key") h2).1 = key) as -> by (cbn [header_at fst]; by rewrite Hk2).
  rewrite M_bind_eq, (update_at _ _ _ _ _ _ (upd_at _ _ _ _ _ x2 H)), upd_upd. reflexivity.
Qed.

Section Upgrade.
Context {P : Type} (llhttp_init : P) (llhttp_execute : P -> list Z -> list (callback * P) * Z * P).
Context (llhttp_method_name : Z -> list Z).

(** The listener logs an exception and goes on with the next event. *)
Definition reads_caught (sock : ptr) (r : route_t) : list (list Z) -> M Http unit :=
  foreach (fun d => try_catch (read llhttp_method_name llhttp_init llhttp_execute sock r d) (mret tt)).

(** A parser that has paused makes no more callbacks. *)
Lemma paused_reads sock r p ds : forall S rq x,
  (forall d, llhttp_execute p d = ([], HPE_PAUSED_UPGRADE, p)) ->
  requests (core S) !! sock = Some rq -> contexts (core S) !! rq_ctx rq = Some x -> isWebSocket x = false -> parsers S !! sock = Some p ->
  exists S', reads_caught sock r ds S = (Ok tt, S', []).
Proof.
  induction ds as [|d ds IH]; intros S rq x Hp Hrq Hx Hw HP; [by exists S|].
  unfold reads_caught. cbn [foreach]. rewrite M_bind_eq. unfold try_catch at 1, read at 1. rewrite M_bind_eq.
  rewrite (on_StreamRead_eq _ _ _ _ _ _ S rq x p [] HPE_PAUSED_UPGRADE p) by done.
  change (run_callbacks llhttp_method_name sock [] ?s) with (Ok tt, s, @nil action). cbv iota beta.
  change (HPE_PAUSED_UPGRADE =? HPE_OK) with false. cbv iota. cbn [catchable].
  destruct (IH (mkService (core (at_route sock r rq S)) (<[sock := p]> (parsers (at_route sock r rq S))))
              (mkRequest (rq_this rq) (rq_ctx rq) r) x) as [S' E]; try done.
  - exact (lookup_insert_eq _ _ _).
  - exact (lookup_insert_eq _ _ _).
  - exists S'. unfold reads_caught in E. cbn [mret M_ret app]. cbv iota beta. by rewrite E.
Qed.
End Upgrade.

(** A WebSocket never gets a frame.  For an upgrade request the parser calls
    [on_headers_complete] and then [on_message_complete] before it pauses with
    [HPE_PAUSED_UPGRADE].  The service answers 101 and marks the context, but
    [on_message_complete] passes the message on as an ordinary GET and puts a new
    context, which is not marked, in its place; the read ends with an exception,
    and every later read goes to the paused parser and ends the same way: nothing
    is passed about the connection any more. *)
Lemma websocket_upgrade_lost {P : Type} (llhttp_init : P) llhttp_execute llhttp_method_name S sock r d cbs p q ug key :
  requests (core S) !! sock = None -> fresh_from (core S) -> r <> [] ->
  llhttp_execute llhttp_init d = (cbs, HPE_PAUSED_UPGRADE, p) -> upgrade_trace q (cbs.*1) ->
  (forall d', llhttp_execute p d' = ([], HPE_PAUSED_UPGRADE, p)) ->
  q_method q = HTTP_GET -> Forall header_named (q_headers q) ->
  map_find str_lt (lit "Upgrade") (header_table (q_headers q)) = Some ug -> equals_case_insensitive ug (lit "websocket") = true ->
  map_find str_lt (lit "Sec-WebSocket-Key") (header_table (q_headers q)) = Some key ->
  exists c x S1,
    (_ ← on_Accepted llhttp_init sock; on_StreamRead llhttp_init llhttp_execute llhttp_method_name sock r d) S
    = (Throw (CommonError "Parse error"), S1, A_write sock (switching key) :: passes r [httpEvent.RequestIncoming c sock])
    /\ contexts (core S1) !! c = Some x /\ isWebSocket x = true
    /\ forall ds, exists S2, reads_caught llhttp_init llhttp_execute llhttp_method_name sock r ds S1 = (Ok tt, S2, []).
Proof.
  intros Hn Hf Hr Hex (u & h & Hu & Hh & Ecbs) Hpause Hm Hhs Hug Heq Hkey.
  set (s := core S) in *. set (rq0 := mkRequest (next_obj s + 1) (next_obj s) []).
  set (S0 := mkService (accepted sock s) (<[sock := llhttp_init]> (parsers S))).
  pose proof (accepted_at sock r s Hf) as H0. cbv zeta in H0. set (rq := mkRequest (next_obj s + 1) (next_obj s) r) in *.
  set (s0 := set_request sock rq (accepted sock s)) in *.
  destruct (effects_head llhttp_method_name q u h _ Hu Hh Hhs (matched_new sock)) as (f & v & t & E & Hmx & Ht). cbv zeta in E, Hmx, Ht.
  set (x1 := set_fields f v t (add_url (q_url q) (HttpContext_new sock))) in *.
  assert (at_ctx sock r (upd rq x1 s0) rq x1) as H1 by by eapply upd_at.
  destruct (run_upgrade_head llhttp_method_name sock r _ rq x1 q ug key H1 Ht Hmx Hug Heq Hkey) as (h3 & E2). cbv zeta in E2.
  set (y := set_websocket _ _) in E2.
  assert (at_ctx sock r (upd rq y (upd rq x1 s0)) rq y) as H2 by by eapply upd_at.
  assert (run_cbs llhttp_method_name sock cbs.*1 s0
          = (Ok tt, renew sock rq (upd rq y s0), A_write sock (switching key) :: passes r [httpEvent.RequestIncoming (rq_ctx rq) sock])) as Erun.
  { rewrite Ecbs, run_cbs_app, (run_effects _ _ _ _ _ _ _ _ H0 E), run_cbs_app, E2.
    rewrite (run_incoming _ _ _ _ _ y H2) by (done || by left). by rewrite !upd_upd. }
  pose proof (run_callbacks_core llhttp_method_name sock cbs (at_route sock r rq0 S0)) as Hc.
  change (core (at_route sock r rq0 S0)) with s0 in Hc. rewrite Erun in Hc. destruct Hc as [ps Hc].
  exists (rq_ctx rq), y, (mkService (renew sock rq (upd rq y s0)) (<[sock := p]> ps)).
  pose proof (renew_at sock r _ _ _ H2) as H3. rewrite upd_upd in H3. split_and!.
  - rewrite M_bind_eq, on_Accepted_eq by done. cbv iota beta. fold s S0.
    rewrite (on_StreamRead_eq _ _ _ _ _ _ S0 rq0 (HttpContext_new sock) llhttp_init cbs HPE_PAUSED_UPGRADE p), Hc;
      [reflexivity|exact (lookup_insert_eq _ _ _)|exact (lookup_insert_eq _ _ _)|done|exact (lookup_insert_eq _ _ _)|done].
  - cbn. rewrite lookup_insert_ne by (unfold ptr in *; lia). exact (lookup_insert_eq _ _ _).
  - done.
  - intros ds. eapply (paused_reads _ _ _ _ _ p ds _ _ _ Hpause).
    + exact (ac_rq _ _ _ _ _ H3).
    + exact (ac_ctx _ _ _ _ _ H3).
    + done.
    + exact (lookup_insert_eq _ _ _).
Qed.

Definition demo_upgrade : message :=
  mkMessage HTTP_GET (lit "/ws") [(lit "Upgrade", lit "WebSocket"); (lit "Sec-WebSocket-Key", lit "dGhlIHNhbXBsZSBub25jZQ==")] true (Plain []).
Definition demo_upgrade_cbs : list callback :=
  [on_message_begin; on_url (lit "/ws"); on_header_field (lit "Upgrade"); on_header_value (lit "WebSocket");
   on_header_field (lit "Sec-WebSocket-Key"); on_header_value (lit "dGhlIHNhbXBsZSBub25jZQ==");
   on_headers_complete true true false HTTP_GET; on_message_complete].
(** Paused once it has seen the request. *)
Definition upgrade_execute (paused : bool) (d : list Z) : list (callback * bool) * Z * bool :=
  (if paused then [] else (fun cb => (cb, false)) <$> demo_upgrade_cbs, HPE_PAUSED_UPGRADE, true).

Lemma websocket_upgrade_lost_witness :
  exists c x S1,
    (_ ← on_Accepted false 7; on_StreamRead false upgrade_execute (fun _ => []) 7 [LOCALSERVICE 1] [0]) demo_http
    = (Throw (CommonError "Parse error"), S1,
       A_write 7 (switching (lit "dGhlIHNhbXBsZSBub25jZQ==")) :: passes [LOCALSERVICE 1] [httpEvent.RequestIncoming c 7])
    /\ contexts (core S1) !! c = Some x /\ isWebSocket x = true
    /\ forall ds, exists S2, reads_caught false upgrade_execute (fun _ => []) 7 [LOCALSERVICE 1] ds S1 = (Ok tt, S2, []).
Proof.
  apply (websocket_upgrade_lost false upgrade_execute (fun _ => []) demo_http 7 [LOCALSERVICE 1] [0]
           ((fun cb => (cb, false)) <$> demo_upgrade_cbs) true demo_upgrade (lit "WebSocket")).
  - reflexivity.
  - intros p _. apply lookup_empty.
  - done.
  - reflexivity.
  - exists [on_url (lit "/ws")], [on_header_field (lit "Upgrade"); on_header_value (lit "WebSocket");
      on_header_field (lit "Sec-WebSocket-Key"); on_header_value (lit "dGhlIHNhbXBsZSBub25jZQ==")]. split_and!.
    + by exists [lit "/ws"].
    + apply (ht_cons _ _ _ [on_header_field (lit "Upgrade")] [on_header_value (lit "WebSocket")]).
      * by exists [lit "Upgrade"].
      * by exists [lit "WebSocket"].
      * apply (ht_cons _ _ _ [on_header_field (lit "Sec-WebSocket-Key")] [on_header_value (lit "dGhlIHNhbXBsZSBub25jZQ==")] []).
        -- by exists [lit "Sec-WebSocket-Key"].
        -- by exists [lit "dGhlIHNhbXBsZSBub25jZQ=="].
        -- constructor.
    + reflexivity.
  - done.
  - done.
  - repeat constructor; done.
  - reflexivity.
  - reflexivity.
  - reflexivity.
Defined.

(** ** Contexts that are not replaced *)

Lemma run_other sock name r s rq x :
  at_ctx sock r s rq x -> is_chunked x = false -> method_int x <> HTTP_GET -> method_int x <> HTTP_POST ->
  run_cbs name sock [on_message_complete] s = (Ok tt, s, []).
Proof.
  intros H Hc Hg Hp. rewrite run_one. unfold run_callback. rewrite !M_bind_eq, (the_request_at _ _ _ _ _ H). cbv zeta.
  rewrite M_bind_eq, (the_ctx_at _ _ _ _ _ H), Hc.
  assert ((method_int x =? HTTP_GET) || (method_int x =? HTTP_POST) = false) as -> by lia. reflexivity.
Qed.

(** A plain message up to its end, from any context. *)
Lemma effects_plain name q cbs b x :
  message_trace q cbs -> q_payload q = Plain b -> Forall header_named (q_headers q) -> matched x -> is_chunked x = false ->
  exists pre y, cbs = pre ++ [on_message_complete] /\ effects name pre x = Some y /\ matched y
    /\ url y = url x ++ q_url q /\ method_int y = q_method q /\ is_chunked y = false /\ ctx_esi y = ctx_esi x
    /\ default [] (body y) = default [] (body x) ++ b.
Proof.
  intros (u & h & bd & Hu & Hh & Hb & ->) Hp Hn Hm Hc. rewrite Hp in *. destruct Hb as (ds & -> & Hd). cbn [chunked_payload].
  destruct (effects_head name q u h x Hu Hh Hn Hm) as (f & v & t & E & Hmx & Ht). cbv zeta in E, Hmx, Ht.
  set (x1 := set_fields f v t (add_url (q_url q) x)) in *.
  eexists ((on_message_begin :: u ++ h) ++ [on_headers_complete (q_keep q) false false (q_method q)] ++ (on_body <$> ds)), _.
  split_and!.
  - by rewrite <- !app_assoc, <- !app_comm_cons, <- app_assoc.
  - rewrite effects_app, E. cbn [mbind option_bind app effects effect]. by rewrite effects_body, Hd.
  - exact Hmx.
  - done.
  - done.
  - done.
  - done.
  - cbn. destruct ds; [|done]. cbn in Hd. subst b. by rewrite app_nil_r.
Qed.

(** A message of another method spoils the next one.  After a message that is
    neither GET nor POST nothing is passed and the context stays: the next message
    is added to it, so the one [RequestIncoming] that follows has the two urls and
    the two bodies run together. *)
Lemma other_method_pollutes_next {P : Type} (llhttp_init : P) llhttp_execute llhttp_method_name S sock r d ds cbs1 cbs2 q1 q2 b1 b2 :
  requests (core S) !! sock = None -> fresh_from (core S) -> r <> [] ->
  parse_reads llhttp_execute llhttp_init (d :: ds) = Some (cbs1 ++ cbs2) ->
  message_trace q1 cbs1 -> message_trace q2 cbs2 -> q_payload q1 = Plain b1 -> q_payload q2 = Plain b2 ->
  q_method q1 <> HTTP_GET -> q_method q1 <> HTTP_POST -> message_ok q2 -> Forall header_named (q_headers q1) ->
  exists c x S',
    (_ ← on_Accepted llhttp_init sock; reads llhttp_method_name llhttp_init llhttp_execute sock r (d :: ds)) S
    = (Ok tt, S', passes r [httpEvent.RequestIncoming c sock])
    /\ contexts (core S') !! c = Some x
    /\ url x = q_url q1 ++ q_url q2 /\ default [] (body x) = b1 ++ b2 /\ method_int x = q_method q2.
Proof.
  intros Hn Hf Hr Hp Ht1 Ht2 Hp1 Hp2 Hg Hpo [Hn2 Hm2] Hn1. rewrite Hp2 in Hm2.
  pose proof (accepted_at sock r (core S) Hf) as H0. cbv zeta in H0.
  set (rq := mkRequest (next_obj (core S) + 1) (next_obj (core S)) r) in *. set (s0 := set_request sock rq (accepted sock (core S))) in *.
  assert (Forall plain_cb (cbs1 ++ cbs2)) as Hpl.
  { apply (messages_plain [q1; q2]). rewrite <- (app_nil_r cbs2). repeat (constructor; [done|]). constructor. }
  destruct (effects_plain llhttp_method_name q1 cbs1 b1 _ Ht1 Hp1 Hn1 (matched_new sock) eq_refl)
    as (pre1 & y1 & -> & E1 & Hm1 & Hu1 & Hme1 & Hc1 & He1 & Hb1).
  destruct (effects_plain llhttp_method_name q2 cbs2 b2 y1 Ht2 Hp2 Hn2 Hm1 Hc1)
    as (pre2 & y2 & -> & E2 & _ & Hu2 & Hme2 & Hc2 & He2 & Hb2).
  assert (at_ctx sock r (upd rq y1 s0) rq y1) as A1 by by eapply upd_at.
  assert (at_ctx sock r (upd rq y2 (upd rq y1 s0)) rq y2) as A2 by by eapply upd_at.
  assert (run_cbs llhttp_method_name sock ((pre1 ++ [on_message_complete]) ++ pre2 ++ [on_message_complete]) s0
          = (Ok tt, renew sock rq (upd rq y2 s0), passes r [httpEvent.RequestIncoming (rq_ctx rq) sock])) as Erun.
  { rewrite !run_cbs_app, (run_effects _ _ _ _ _ _ _ _ H0 E1).
    rewrite (run_other _ _ _ _ _ _ A1) by (done || by rewrite Hme1). cbv iota beta.
    rewrite run_cbs_app, (run_effects _ _ _ _ _ _ _ _ A1 E2).
    rewrite (run_incoming _ _ _ _ _ _ A2) by (done || by rewrite ?He2, ?He1, ?Hme2). by rewrite upd_upd. }
  destruct (accepted_reads llhttp_method_name llhttp_init llhttp_execute sock r d ds S _ _ _ Hn Hf Hr Hp Hpl Erun) as (S' & ES & EC).
  exists (rq_ctx rq), y2, S'. rewrite EC. split_and!; [exact ES| |by rewrite Hu2, Hu1|by rewrite Hb2, Hb1|done].
  pose proof (ac_old _ _ _ _ _ A2). cbn. rewrite lookup_insert_ne by (cbn in *; unfold ptr in *; lia). exact (lookup_insert_eq _ _ _).
Qed.

Definition simple_cbs (m : Z) (u b : list Z) : list callback :=
  [on_message_begin; on_url u; on_headers_complete true false false m; on_body b; on_message_complete].

Lemma simple_trace m u b : message_trace (mkMessage m u [] true (Plain b)) (simple_cbs m u b).
Proof.
  exists [on_url u], [], [on_body b]. split_and!; [|constructor| |reflexivity].
  - exists [u]. split; [done|]. cbn. by rewrite app_nil_r.
  - exists [b]. split; [done|]. cbn. by rewrite app_nil_r.
Qed.

Lemma other_method_pollutes_next_witness :
  let script := [simple_cbs 4 (lit "/a") (lit "x"); simple_cbs HTTP_GET (lit "/b") (lit "y")] in
  exists c x S',
    (_ ← on_Accepted script 7; reads (fun _ => []) script script_execute 7 [LOCALSERVICE 1] [[1]; [2]]) demo_http
    = (Ok tt, S', passes [LOCALSERVICE 1] [httpEvent.RequestIncoming c 7])
    /\ contexts (core S') !! c = Some x
    /\ url x = lit "/a" ++ lit "/b" /\ default [] (body x) = lit "x" ++ lit "y" /\ method_int x = HTTP_GET.
Proof.
  intros script.
  apply (other_method_pollutes_next script script_execute (fun _ => []) demo_http 7 [LOCALSERVICE 1] [1] [[2]]
           (simple_cbs 4 (lit "/a") (lit "x")) (simple_cbs HTTP_GET (lit "/b") (lit "y"))
           (mkMessage 4 (lit "/a") [] true (Plain (lit "x"))) (mkMessage HTTP_GET (lit "/b") [] true (Plain (lit "y")))).
  - reflexivity.
  - intros p _. apply lookup_empty.
  - done.
  - reflexivity.
  - apply simple_trace.
  - apply simple_trace.
  - done.
  - done.
  - done.
  - done.
  - split; [constructor|by left].
  - constructor.
Defined.

(** A header without a value is not stored: its name is put in front of the name
    of the next header. *)
Lemma empty_header_value_merges name sock k1 k2 v a b c :
  k1 <> [] -> k2 <> [] -> v <> [] ->
  pieces_of on_header_field k1 a -> pieces_of on_header_field k2 b -> pieces_of on_header_value v c ->
  exists y, effects name (a ++ b ++ c ++ [on_headers_complete true false false HTTP_GET]) (HttpContext_new sock) = Some y
            /\ headers y = [(k1 ++ k2, v)].
Proof.
  intros H1 H2 Hv (ds1 & -> & E1) (ds2 & -> & E2) (ds3 & -> & E3).
  rewrite effects_app, effects_field by (intros ->; by apply H1). cbn [mbind option_bind].
  rewrite effects_app, effects_field by (intros ->; by apply H2). cbn [mbind option_bind].
  rewrite effects_app, effects_value. cbn [mbind option_bind effects effect]. eexists. split; [reflexivity|].
  rewrite E1, E2, E3. unfold message_known. cbn. destruct k1 as [|k k1]; [done|]. reflexivity.
Qed.
