(* ===== verification/HttpParser.v ===== *)
(** The parser of corelib/llhttp as the HTTP service uses it.

    The callbacks of modules/http/httpService.cpp are recorded in the order of the
    calls, each with the parser object of that moment; what they return to the
    parser is what [run_callback] returns. *)

From Stdlib Require Import ZArith Lia.
From stdpp Require Import base gmap strings numbers list.
From S2P Require Import Prelude StdMap IoBuffer Codec Route CLib Sockaddr Events Service HexUri Config WebSocket Sha1 LlhttpNodes Llhttp LlhttpRun.
From S2P Require HttpService HttpRequests.
Open Scope Z_scope.

Abbreviation callback := HttpService.callback.
Abbreviation parser_obj := (llhttp_t unit).
Definition trace : Type := list (callback * parser_obj).
Abbreviation recorder := (llhttp_t trace).

(** The callbacks of the service, whatever keeps them. *)
Section Settings.
Context {D : Type} (keep : callback -> llhttp_t D -> D).

Definition record_cb (cb : callback) (r : Z) (s : llhttp_t D) : Z * llhttp_t D := (r, set_data (keep cb s) s).

Definition headers_complete_cb (s : llhttp_t D) : callback :=
  HttpService.on_headers_complete (llhttp_should_keep_alive s) (negb (upgrade s =? 0)) (has F_CHUNKED (flags s)) (method s).

(** What [on_headers_complete] of the service returns. *)
Definition headers_complete_answer (s : llhttp_t D) : Z :=
  if has F_CHUNKED (flags s) then 0 else if negb (upgrade s =? 0) then 1 else 0.

(** The settings of [HTTP::Service::Service]. *)
Definition service_settings : llhttp_settings_t D :=
  mkSettings
    (Some (record_cb HttpService.on_message_begin 0))
    (Some (fun s d => record_cb (HttpService.on_url d) 0 s))
    None
    (Some (fun s d => record_cb (HttpService.on_header_field d) 0 s))
    (Some (fun s d => record_cb (HttpService.on_header_value d) 0 s))
    (Some (fun s => record_cb (headers_complete_cb s) (headers_complete_answer s) s))
    (Some (fun s d => record_cb (HttpService.on_body d) 0 s))
    (Some (record_cb HttpService.on_message_complete 0))
    (Some (fun s => record_cb (HttpService.on_chunk_header (content_length s)) 0 s))
    (Some (record_cb HttpService.on_chunk_complete 0))
    None None None None.
End Settings.

Definition keep_trace (cb : callback) (s : recorder) : trace := data s ++ [(cb, set_data tt s)].

Definition settings_at (_ : Z) : llhttp_settings_t trace := service_settings keep_trace.

(** [llhttp_init(&parser, HTTP_REQUEST, &settings)]; the address is not NULL. *)
Definition service_init : parser_obj := llhttp_init tt HTTP_REQUEST 1.

(** [llhttp_execute] of the service; [m] is what the variable match holds at first. *)
Definition service_execute (m : Z) (p : parser_obj) (d : list Z) : trace * Z * parser_obj :=
  match llhttp_execute settings_at m (set_data [] p) d with
  | Some (err, s) => (data s, err, set_data tt s)
  | None => ([], HPE_INTERNAL, p)
  end.

(** ** Cutting *)

Definition span_events (k : span_cb) (d : list Z) : list callback :=
  match k with
  | k_on_url => [HttpService.on_url d]
  | k_on_header_field => [HttpService.on_header_field d]
  | k_on_header_value => [HttpService.on_header_value d]
  | k_on_body => [HttpService.on_body d]
  | k_on_status => []
  end.

Definition pieces (k : span_cb) (ds : list (list Z)) : list callback := mjoin (span_events k <$> ds).

(** The callbacks [y] are those of [x] with the text of a span in any number of
    pieces. *)
Inductive recut : list callback -> list callback -> Prop :=
| recut_nil : recut [] []
| recut_same cb x y : recut x y -> recut (cb :: x) (cb :: y)
| recut_span k ds x y : recut x y -> recut (span_events k (mjoin ds) ++ x) (pieces k ds ++ y).

Lemma recut_app x y x' y' : recut x y -> recut x' y' -> recut (x ++ x') (y ++ y').
Proof.
  induction 1 as [|cb x y H IH|k ds x y H IH]; intros H'; [done|apply recut_same; auto|].
  rewrite <- !app_assoc. apply recut_span. auto.
Qed.

Lemma recut_refl x : recut x x.
Proof. induction x; by constructor. Qed.

Lemma recut_pieces k ds : recut (span_events k (mjoin ds)) (pieces k ds).
Proof. rewrite <- (app_nil_r (span_events _ _)), <- (app_nil_r (pieces _ _)). apply recut_span, recut_nil. Qed.

Lemma pieces_app k ds es : pieces k (ds ++ es) = pieces k ds ++ pieces k es.
Proof. unfold pieces. by rewrite fmap_app, join_app. Qed.

(** What does not depend on where the buffer is. *)
Definition rest {D} (s : llhttp_t D) : llhttp_t unit :=
  set_data tt (set_span_pos0 None (set_error_pos None (set_current s_error s))).

Abbreviation call_r := (call settings_at).
Abbreviation call_span_r := (call_span settings_at).
Abbreviation step_r := (step settings_at).
Abbreviation ends_r := (ends settings_at).
Abbreviation cbs_of s := ((data s).*1).

Lemma call_span_eq k (s : recorder) d :
  settings s <> 0 ->
  exists t, call_span_r k s d = (0, t) /\ rest t = rest s /\ _span_pos0 t = _span_pos0 s /\ _current t = _current s
            /\ cbs_of t = cbs_of s ++ span_events k d.
Proof.
  intros Hs%Z.eqb_neq.
  destruct k; cbv [call_span llhttp__on_url llhttp__on_header_field llhttp__on_header_value llhttp__on_body llhttp__on_status SPAN_CALLBACK_MAYBE];
    rewrite Hs; cbn; eexists; split_and!; try reflexivity; unfold keep_trace; cbn; by rewrite ?fmap_app, ?app_nil_r.
Qed.

Lemma call_eq k m1 m2 (s1 s2 : recorder) :
  rest s1 = rest s2 -> code_match k = false \/ m1 = m2 ->
  let '(v1, t1) := call_r k m1 s1 in
  let '(v2, t2) := call_r k m2 s2 in
  v1 = v2 /\ rest t1 = rest t2 /\ _span_pos0 t1 = _span_pos0 s1 /\ _span_pos0 t2 = _span_pos0 s2
  /\ settings t1 = settings s1 /\ _span_cb0 t1 = _span_cb0 s1 /\ error t1 = error s1
  /\ exists evs, cbs_of t1 = cbs_of s1 ++ evs /\ cbs_of t2 = cbs_of s2 ++ evs /\ (code_calls k = false -> evs = []).
Proof.
  destruct s1, s2. cbn. intros [=]. subst. intros Hm.
  destruct k; (destruct Hm as [Hm|Hm]; [discriminate Hm || clear Hm | subst]); cbn -[mul_add].
  all: try (split_and!; try reflexivity; exists []; rewrite !app_nil_r; by split_and!).
  all: try (destruct (has _ _ && has _ _); cbn; split_and!; try reflexivity; exists []; rewrite !app_nil_r; by split_and!).
  all: try (unfold c_mul_add_content_length, c_mul_add_content_length_1, c_mul_add_status_code; cbn -[mul_add];
    destruct (mul_add _ _ _ _) as [r v]; cbn; split_and!; try reflexivity; exists []; rewrite !app_nil_r; by split_and!).
  all: cbv [llhttp__on_message_complete llhttp__on_header_value_complete llhttp__on_header_field_complete llhttp__on_status_complete
    llhttp__on_chunk_complete llhttp__on_chunk_header llhttp__on_headers_complete llhttp__on_url_complete llhttp__on_message_begin
    CALLBACK_MAYBE]; cbn [Llhttp.settings]; destruct (settings0 =? 0); cbn.
  all: try (split_and!; try reflexivity; exists []; rewrite !app_nil_r; by split_and!).
  all: repeat (split; [reflexivity|]); unfold keep_trace; rewrite !fmap_app; eexists; split; [reflexivity|]; split; [reflexivity|discriminate].
Qed.

Lemma span_text_app x p : span_text (x ++ p) p = x.
Proof.
  unfold span_text. rewrite length_app. replace (length x + length p - length p)%nat with (length x) by lia. by rewrite take_app_length.
Qed.

(** ** One read and the same bytes in two *)

Section Cut.
(** The callbacks of the reads before. *)
Context (pre : list callback).

(** [s1] is at [a ++ b] of a buffer that is read whole, [s2] at [a] of the same
    bytes cut before [b]; the span open is [c]. *)
Definition span_sim (c : option span_cb) (b a : list Z) (s1 s2 : recorder) : Prop :=
  match c with
  | None => _span_pos0 s1 = None /\ _span_pos0 s2 = None /\ recut (cbs_of s1) (pre ++ cbs_of s2)
  | Some k =>
      _span_cb0 s1 = Some k
      /\ exists ds v t, _span_pos0 s1 = Some (mjoin ds ++ v ++ a ++ b) /\ _span_pos0 s2 = Some (v ++ a)
         /\ recut (cbs_of s1) t /\ pre ++ cbs_of s2 = t ++ pieces k ds
  end.

Record cut_sim (b a : list Z) (l : llparse_state) (s1 s2 : recorder) : Prop := {
  cs_rest : rest s1 = rest s2;
  cs_settings : settings s1 <> 0;
  cs_skip : span_skips l = true -> a <> [];
  cs_span : fatal l = false -> span_sim (span_of l) b a s1 s2;
}.

Lemma span_sim_advance c b x a s1 s2 : span_sim c b (x ++ a) s1 s2 -> span_sim c b a s1 s2.
Proof.
  destruct c as [k|]; [|done]. intros (Hk & ds & v & t & H1 & H2 & H3 & H4). split; [done|].
  exists ds, (v ++ x), t. by rewrite H1, H2, <- !app_assoc.
Qed.

(** What [span_sim] sees of the states. *)
Definition seen (s : recorder) := (_span_pos0 s, _span_cb0 s, cbs_of s).

Lemma span_sim_seen c b a s1 s2 t1 t2 : seen t1 = seen s1 -> seen t2 = seen s2 -> span_sim c b a s1 s2 -> span_sim c b a t1 t2.
Proof. intros [= E1 E2 E3] [= E4 E5 E6]. unfold span_sim. by rewrite E1, E2, E3, E4, E6. Qed.

Lemma rest_fields (s1 s2 : recorder) :
  rest s1 = rest s2 ->
  _index s1 = _index s2 /\ content_length s1 = content_length s2 /\ settings s1 = settings s2 /\ _span_cb0 s1 = _span_cb0 s2 /\ error s1 = error s2.
Proof. destruct s1, s2. cbn. by intros [=]. Qed.

Lemma kept_span l l' : span_kept (span_of l) l' = true -> fatal l' = false -> span_of l' = span_of l.
Proof. unfold span_kept. by intros [->|H%span_eqb_eq]%orb_true_iff. Qed.

(** A jump that leaves the span alone. *)
Lemma sim_jump b x a l l' s1 s2 t1 t2 :
  cut_sim b (x ++ a) l s1 s2 -> fatal l = false -> span_kept (span_of l) l' = true -> (span_skips l' = true -> a <> []) ->
  rest t1 = rest t2 -> settings t1 = settings s1 -> seen t1 = seen s1 -> seen t2 = seen s2 -> cut_sim b a l' t1 t2.
Proof.
  intros [Hr Hs _ Hsp] Hf Hk Hp Hrt Hst E1 E2. split; [done|congruence|done|]. intros Hf'. rewrite (kept_span _ _ Hk Hf').
  eapply span_sim_seen; [done..|]. by eapply span_sim_advance, Hsp.
Qed.

(** Sequences across a cut. *)
Lemma match_sequence_cut how seq index a b i :
  match_sequence how seq index a = (kMatchPause, i, []) -> match_sequence how seq index (a ++ b) = match_sequence how seq i b.
Proof.
  revert index. induction a as [|c a IH]; intros index; cbn [match_sequence app]; [by intros [= <-]|].
  destruct (bool_decide _); [destruct (_ =? _)%nat|]; [done|apply IH|done].
Qed.

Lemma match_sequence_app how seq index a b st i p :
  match_sequence how seq index a = (st, i, p) -> st <> kMatchPause ->
  p <> [] /\ match_sequence how seq index (a ++ b) = (st, i, p ++ b) /\ exists x, a = x ++ p.
Proof.
  revert index. induction a as [|c a IH]; intros index; cbn [match_sequence app]; [by intros [= <-]|].
  destruct (bool_decide _); [destruct (_ =? _)%nat|].
  - intros [= <- <- <-] _. split_and!; [done..|]. by exists [].
  - intros H Hst. destruct (IH _ H Hst) as (H1 & H2 & x & ->). split_and!; [done..|]. by exists (c :: x).
  - intros [= <- <- <-] _. split_and!; [done..|]. by exists [].
Qed.

Lemma match_sequence_pause how seq index a i p : match_sequence how seq index a = (kMatchPause, i, p) -> p = [].
Proof.
  revert index. induction a as [|c a IH]; intros index; cbn [match_sequence]; [by intros [= _ <-]|].
  destruct (bool_decide _); [destruct (_ =? _)%nat|]; [done|apply IH|done].
Qed.

Definition match_agree (l : llparse_state) (m1 m2 : Z) : Prop := uses_match l = false \/ m1 = m2.

(** What the whole run does when the cut one does [o]. *)
Definition cut_outcome (b a : list Z) (l : llparse_state) (s1 : recorder) (m1 : Z) (o : outcome) : Prop :=
  match o with
  | Goto l' t2 m2 a' =>
      exists t1 m1', step_r l s1 m1 (a ++ b) = Goto l' t1 m1' (a' ++ b) /\ cut_sim b a' l' t1 t2 /\ match_agree l' m1' m2
  | Return l' t2 =>
      if is_error l'
      then exists t1, step_r l s1 m1 (a ++ b) = Return l' t1 /\ rest t1 = rest t2 /\ _current t1 = _current t2
           /\ (is_error (_current t2) = false -> span_sim None b [] t1 t2)
      else l' = l /\ uses_match l = false /\ exists t1, step_r l s1 m1 (a ++ b) = step_r l t1 m1 b /\ cut_sim b [] l t1 t2
  | Abort_ => True
  end.

Lemma forallb_select {A} (f : A -> bool) c (cases : list (list Z * A)) d :
  forallb f (d :: (snd <$> cases)) = true -> f (select c cases d) = true.
Proof.
  rewrite forallb_forall. intros H. apply H, list_elem_of_In.
  destruct (select_elem c cases d) as [->|(ks & _ & He)]; apply elem_of_cons; [by left|].
  right. apply list_elem_of_fmap. eexists. by split; [|exact He].
Qed.

Lemma cut_follow b x p l e s1 s2 t1 t2 m1 m2 :
  cut_sim b (x ++ p) l s1 s2 -> fatal l = false -> p <> [] ->
  span_kept (span_of l) (edge_target e) = true -> sets_match e || negb (uses_match (edge_target e)) = true ->
  negb (span_skips (edge_target e)) || negb (edge_advances e) = true ->
  rest t1 = rest t2 -> settings t1 = settings s1 -> seen t1 = seen s1 -> seen t2 = seen s2 ->
  match follow e t2 m2 p with
  | Goto l' u2 m2' p' => exists u1 m1', follow e t1 m1 (p ++ b) = Goto l' u1 m1' (p' ++ b) /\ cut_sim b p' l' u1 u2 /\ match_agree l' m1' m2'
  | _ => False
  end.
Proof.
  intros H Hf Hp Hk Hm Hsk Hr Hs E1 E2. destruct e as [adv v l']. cbn in *. exists t1, (default m1 v).
  split; [|split].
  - destruct adv; [|done]. by destruct p.
  - destruct adv; [|by eapply sim_jump]. destruct p as [|c p]; [done|]. cbn [tail].
    eapply (sim_jump b (x ++ [c])); try done; [by rewrite <- app_assoc|]. rewrite orb_false_r in Hsk. apply negb_true_iff in Hsk. congruence.
  - apply orb_true_iff in Hm as [Hm|Hm%negb_true_iff]; [|by left]. right. by destruct v.
Qed.

Lemma follow_outcome (o : outcome) (P : llparse_state -> recorder -> Z -> list Z -> Prop) Q :
  match o with Goto l s m p => P l s m p | _ => False end ->
  match o with Goto l s m p => P l s m p | Return l s => Q l s | Abort_ => True end.
Proof. by destruct o. Qed.

Definition block_cut (n : node) : Prop :=
  forall b a l s1 s2 m1 m2, node_of l = n -> is_error l = false -> cut_sim b a l s1 s2 -> match_agree l m1 m2 ->
  cut_outcome b a l s1 m1 (step_r l s2 m2 a).

(** What is known of the block, and what it does. *)
Ltac at_block :=
  intros b a l s1 s2 m1 m2 En Hl H Hma;
  pose proof (blocks_spans l) as Hsp; pose proof (blocks_match l) as Hm; pose proof (blocks_calls l) as Hcl;
  pose proof (blocks_skip l) as Hsk;
  destruct (rest_fields _ _ (cs_rest _ _ _ _ _ H)) as (Ei & Ec & Es & Ek & _);
  unfold spans_ok in Hsp; unfold match_set in Hm; unfold skips_seen in Hsk; unfold cut_outcome, step;
  rewrite En in Hsp, Hm, Hcl, Hsk; rewrite En;
  try (assert (fatal l = false) as Hfat by (unfold fatal; by rewrite En));
  try (assert (uses_match l = false) as Hum by (unfold uses_match; by rewrite En)).

Lemma cut_switch how cases d : block_cut (Switch how cases d).
Proof.
  at_block.
  destruct a as [|c a].
  - rewrite Hl. split_and!; [done..|]. by exists s1.
  - cbn [app]. apply (forallb_select _ (transform_byte how c)) in Hsp, Hm, Hsk.
    apply follow_outcome. exact (cut_follow b [] (c :: a) l _ s1 s2 s1 s2 m1 m2 H Hfat ltac:(done) Hsp Hm Hsk (cs_rest _ _ _ _ _ H) eq_refl eq_refl eq_refl).
Qed.

Lemma cut_lookup t cases d : block_cut (Lookup t cases d).
Proof.
  at_block.
  destruct a as [|c a].
  - rewrite Hl. split_and!; [done..|]. by exists s1.
  - cbn [app]. apply (forallb_select _ (default 0 (t !! Z.to_nat c))) in Hsp, Hm, Hsk.
    apply follow_outcome. exact (cut_follow b [] (c :: a) l _ s1 s2 s1 s2 m1 m2 H Hfat ltac:(done) Hsp Hm Hsk (cs_rest _ _ _ _ _ H) eq_refl eq_refl eq_refl).
Qed.

Lemma cut_skip n : block_cut (Skip n).
Proof.
  at_block.
  destruct a as [|c a].
  - rewrite Hl. split_and!; [done..|]. by exists s1.
  - cbn [app]. cbn in Hsp, Hm, Hsk. rewrite andb_true_r in Hsp, Hm, Hsk.
    assert (negb (span_skips n) || false = true) as Hsk' by by rewrite orb_false_r.
    exact (cut_follow b [] (c :: a) l (adv n) s1 s2 s1 s2 m1 m2 H Hfat ltac:(done) Hsp Hm Hsk' (cs_rest _ _ _ _ _ H) eq_refl eq_refl eq_refl).
Qed.

Lemma cut_sequence how blob e1 e2 : block_cut (Sequence how blob e1 e2).
Proof.
  at_block.
  destruct a as [|c a]; [rewrite Hl; split_and!; [done..|]; by exists s1|].
  cbn [app]. set (q := c :: a) in *. change (c :: a ++ b) with (q ++ b). rewrite Ei.
  cbn in Hsp, Hm. rewrite !andb_true_r in Hsp, Hm. apply andb_true_iff in Hsp as [Hsp1 Hsp2], Hm as [Hm1 Hm2].
  cbn in Hsk. rewrite andb_true_r in Hsk. apply andb_true_iff in Hsk as [Hsk1 Hsk2].
  destruct (match_sequence how blob (Z.to_nat (_index s2)) q) as [[st i] q'] eqn:Eq.
  assert (rest (set_index (Z.of_nat i) s1) = rest (set_index (Z.of_nat i) s2)) as Hr
    by exact (f_equal (set_index (Z.of_nat i)) (cs_rest _ _ _ _ _ H)).
  destruct st.
  - destruct (match_sequence_app _ _ _ _ b _ _ _ Eq) as (Hq & -> & x & Ex); [done|]. apply follow_outcome.
    rewrite Ex in H. eapply (cut_follow b x q'); try done. apply orb_true_iff. by left.
  - pose proof (match_sequence_pause _ _ _ _ _ _ Eq) as ->. rewrite Hl. split_and!; [done..|].
    exists (set_index (Z.of_nat i) s1). split.
    + rewrite (match_sequence_cut _ _ _ _ b _ Eq). cbn [_index set_index]. rewrite Nat2Z.id.
      destruct b as [|c' b]; [done|]. by destruct (match_sequence how blob i (c' :: b)) as [[[] j] r].
    + split; [done|apply H|by intros ?%skips_kind; rewrite En in *|]. intros _. eapply (span_sim_seen _ _ _ s1 s2); [done..|].
      eapply (span_sim_advance _ _ q). rewrite app_nil_r. by apply H.
  - destruct (match_sequence_app _ _ _ _ b _ _ _ Eq) as (Hq & -> & x & Ex); [done|]. apply follow_outcome.
    rewrite Ex in H. eapply (cut_follow b x q'); try done. apply orb_true_iff. by left.
Qed.

Lemma cut_consume n : block_cut (Consume n).
Proof.
  at_block.
  rewrite length_app, Ec. cbn in Hsp, Hm, Hsk. rewrite !andb_true_r in Hsp, Hm, Hsk.
  assert (forall v, rest (set_content_length v s1) = rest (set_content_length v s2)) as Hr
    by (intros v; exact (f_equal (set_content_length v) (cs_rest _ _ _ _ _ H))).
  destruct (Z.geb_spec (Z.of_nat (length a)) (content_length s2)) as [Ea|Ea].
  - destruct (Z.geb_spec (Z.of_nat (length a + length b)) (content_length s2)); [|lia].
    exists (set_content_length 0 s1), m1. split_and!.
    + f_equal. rewrite drop_app_le by lia. done.
    + rewrite <- (take_drop (Z.to_nat (content_length s2)) a) in H. eapply sim_jump; try done. apply negb_true_iff in Hsk. congruence.
    + left. by apply negb_true_iff.
  - rewrite Hl. split_and!; [done..|]. exists (set_content_length (content_length s2 - Z.of_nat (length a)) s1). split.
    + cbn [content_length set_content_length].
      destruct (Z.geb_spec (Z.of_nat (length a + length b)) (content_length s2)),
        (Z.geb_spec (Z.of_nat (length b)) (content_length s2 - Z.of_nat (length a))); try lia.
      * f_equal. rewrite drop_app_ge by lia. f_equal. lia.
      * f_equal. unfold set_content_length. cbn. f_equal. lia.
    + split; [done|apply H|by intros ?%skips_kind; rewrite En in *|]. intros _. eapply (span_sim_seen _ _ _ s1 s2); [done..|].
      eapply (span_sim_advance _ _ a). rewrite app_nil_r. by apply H.
Qed.

Lemma cut_span_start cb n : block_cut (SpanStart cb n).
Proof.
  at_block.
  apply andb_true_iff in Hsp as [Hl0%span_eqb_eq Hn]. pose proof (cs_span _ _ _ _ _ H Hfat) as Hs. rewrite Hl0 in Hs.
  cbn in Hm, Hsk. rewrite !andb_true_r in Hm, Hsk. apply negb_true_iff in Hm, Hsk.
  destruct a as [|c a]; [rewrite Hl; split_and!; [done..|]; by exists s1|]. cbn [app].
  eexists _, m1. split; [reflexivity|]. split; [|by left]. split.
  - exact (f_equal (set_span_cb0 (Some cb)) (cs_rest _ _ _ _ _ H)).
  - apply H.
  - congruence.
  - intros Hf'. apply orb_true_iff in Hn as [Hn|Hn%span_eqb_eq]; [congruence|]. rewrite Hn. destruct Hs as (_ & _ & Hs).
    split; [done|]. exists [], [], (pre ++ cbs_of s2). by rewrite app_nil_r.
Qed.

Lemma cut_span_end cb e : block_cut (SpanEnd cb e).
Proof.
  at_block.
  destruct e as [ad v n]. apply andb_true_iff in Hsp as [Hl0%span_eqb_eq Hn]. cbn [edge_target] in Hn.
  pose proof (cs_span _ _ _ _ _ H Hfat) as Hs. rewrite Hl0 in Hs. destruct Hs as (Hcb & ds & w & t & E1 & E2 & Hrc & Hd).
  cbn in Hm, Hsk. rewrite !andb_true_r in Hm, Hsk. rewrite E1, E2. cbn [from_option id].
  rewrite (app_assoc (mjoin ds) w), !span_text_app.
  destruct (call_span_eq cb (set_span_pos0 None s1) (mjoin ds ++ w)) as (t1 & -> & Hr1 & Hp1 & _ & Hd1); [apply H|].
  destruct (call_span_eq cb (set_span_pos0 None s2) w) as (t2 & -> & Hr2 & Hp2 & _ & Hd2); [cbn; rewrite <- Es; apply H|].
  cbn [Z.eqb negb]. exists t1, (default m1 v). split; [|split; [split|]].
  - f_equal. destruct ad; [|done]. destruct a; [|done]. exfalso. apply (cs_skip _ _ _ _ _ H); [|done].
    unfold span_skips. rewrite En. by destruct l.
  - rewrite Hr1, Hr2. apply H.
  - apply (f_equal settings) in Hr1. cbn in Hr1. rewrite Hr1. apply H.
  - apply negb_true_iff in Hsk. congruence.
  - intros Hf'. apply orb_true_iff in Hn as [Hn|Hn%span_eqb_eq]; [congruence|]. rewrite Hn. split_and!; [by rewrite Hp1|by rewrite Hp2|].
    rewrite Hd1, Hd2. cbn. rewrite app_assoc, Hd, <- app_assoc. apply recut_app; [done|].
    assert (mjoin ds ++ w = mjoin (ds ++ [w])) as -> by (by rewrite join_app; cbn; rewrite app_nil_r).
    assert (pieces cb ds ++ span_events cb w = pieces cb (ds ++ [w])) as -> by (rewrite pieces_app; unfold pieces; cbn; by rewrite app_nil_r).
    apply recut_pieces.
  - left. by apply negb_true_iff.
Qed.

Lemma cut_invoke f cases d : block_cut (Invoke f cases d).
Proof.
  at_block.
  assert (code_match f = false \/ m1 = m2) as Hma'.
  { destruct Hma as [Hma|]; [|by right]. left. unfold uses_match in Hma. by rewrite En in Hma. }
  pose proof (call_eq f m1 m2 s1 s2 (cs_rest _ _ _ _ _ H) Hma') as Hc.
  destruct (call_r f m1 s1) as [v1 t1], (call_r f m2 s2) as [v2 t2].
  destruct Hc as (-> & Hr & Hp1 & Hp2 & Hst & Hcb & _ & evs & Hd1 & Hd2 & Hev).
  assert (go (select v2 cases d) ∈ node_edges false (Invoke f cases d)) as Hin.
  { destruct (select_elem v2 cases d) as [->|(ks & _ & He)]; apply elem_of_cons; [by left|]. right.
    apply list_elem_of_fmap. eexists. split; [done|]. apply list_elem_of_fmap. eexists. by split; [|exact He]. }
  apply list_elem_of_In in Hin. rewrite forallb_forall in Hsp. apply Hsp in Hin as Hk. rewrite forallb_forall in Hm. apply Hm in Hin as Hm'.
  cbn [edge_target go sets_match orb] in Hk, Hm'. exists t1, m1. split; [done|]. split; [|left; by apply negb_true_iff].
  split; [done|rewrite Hst; apply H| |].
  - intros Hs'. apply orb_true_iff in Hsk as [Hsk|Hsk]; [by apply H|]. rewrite forallb_forall in Hsk. apply Hsk in Hin.
    cbn in Hin. rewrite Hs' in Hin. done.
  - intros Hf'. rewrite (kept_span _ _ Hk Hf'). pose proof (cs_span _ _ _ _ _ H Hfat) as Hs.
    apply orb_true_iff in Hcl as [Hcl%negb_true_iff|Hcl%span_eqb_eq].
    + rewrite (Hev Hcl), app_nil_r in Hd1. rewrite (Hev Hcl), app_nil_r in Hd2. eapply (span_sim_seen _ _ _ s1 s2); [| |done].
      * unfold seen. by rewrite Hp1, Hcb, Hd1.
      * assert (_span_cb0 t2 = _span_cb0 s2) as Hcb2.
         { destruct (rest_fields _ _ Hr) as (_ & _ & _ & E' & _). congruence. }
         unfold seen. by rewrite Hp2, Hcb2, Hd2.
    + rewrite Hcl in *. destruct Hs as (Hs1 & Hs2 & Hs3). split_and!; [congruence..|]. rewrite Hd1, Hd2, app_assoc.
      apply recut_app; [done|apply recut_refl].
Qed.

Lemma cut_fault co r cur : block_cut (Fault co r cur).
Proof.
  at_block.
  cbn [is_error]. eexists. split; [reflexivity|]. split_and!; [|done|].
  - exact (f_equal (fun s => set_reason (Some r) (set_error co s)) (cs_rest _ _ _ _ _ H)).
  - cbn [_current set_current]. intros Hc. assert (span_of l = None) as Hl0.
    { destruct cur; try discriminate Hc; by apply andb_true_iff in Hsp as [?%span_eqb_eq _]. }
    assert (fatal l = false) as Hf' by (unfold fatal; rewrite En; by destruct cur).
    pose proof (cs_span _ _ _ _ _ H Hf') as Hs. rewrite Hl0 in Hs. exact Hs.
Qed.

Lemma step_cut b a l s1 s2 m1 m2 :
  is_error l = false -> cut_sim b a l s1 s2 -> match_agree l m1 m2 ->
  cut_outcome b a l s1 m1 (step_r l s2 m2 a).
Proof.
  destruct (node_of l) eqn:En.
  - by apply cut_switch with (1 := En).
  - by apply cut_lookup with (1 := En).
  - by apply cut_skip with (1 := En).
  - by apply cut_sequence with (1 := En).
  - by apply cut_consume with (1 := En).
  - by apply cut_span_start with (1 := En).
  - by apply cut_span_end with (1 := En).
  - by apply cut_invoke with (1 := En).
  - by apply cut_fault with (1 := En).
  - intros _ _ _. unfold step. by rewrite En.
Qed.

Lemma ends_cut b a l s2 m2 l' t2 :
  ends_r l s2 m2 a l' t2 -> forall s1 m1, is_error l = false -> cut_sim b a l s1 s2 -> match_agree l m1 m2 ->
  if is_error l'
  then exists t1, ends_r l s1 m1 (a ++ b) l' t1 /\ rest t1 = rest t2 /\ _current t1 = _current t2
       /\ (is_error (_current t2) = false -> span_sim None b [] t1 t2)
  else uses_match l' = false
       /\ exists t1 m1', (forall lf tf, ends_r l' t1 m1' b lf tf -> ends_r l s1 m1 (a ++ b) lf tf) /\ cut_sim b [] l' t1 t2.
Proof.
  induction 1 as [l s2 m2 a l' t2 E|l s2 m2 a l1 u2 m2' a' l' t2 E H IH]; intros s1 m1 Hl Hc Hm;
    pose proof (step_cut b a l s1 s2 m1 m2 Hl Hc Hm) as Hs; rewrite E in Hs; cbn [cut_outcome] in Hs.
  - destruct (is_error l') eqn:El.
    + destruct Hs as (t1 & E1 & Hs). exists t1. split; [by apply ends_return|done].
    + destruct Hs as (-> & Hu & t1 & E1 & Hs). split; [done|]. exists t1, m1. split; [|done]. intros lf tf He.
      inversion He as [? ? ? ? ? ? E2|? ? ? ? ? ? ? ? ? ? E2 He2]; subst; [apply ends_return|eapply ends_goto; [|exact He2]]; by rewrite E1.
  - destruct Hs as (u1 & m1' & E1 & Hc' & Hm'). apply step_no_error in E as Hl1. specialize (IH u1 m1' Hl1 Hc' Hm').
    destruct (is_error l').
    + destruct IH as (t1 & He & IH). exists t1. split; [by eapply ends_goto|done].
    + destruct IH as (Hu & t1 & m' & He & IH). split; [done|]. exists t1, m'. split; [|done]. intros lf tf Hf. eapply ends_goto; [done|]. auto.
Qed.
End Cut.

(** ** Reads *)

(** Only a fault makes an error, the callbacks of the service never do. *)
Lemma step_keeps_error l (s : recorder) m p :
  settings s <> 0 ->
  match step_r l s m p with
  | Goto _ t _ _ => error t = error s /\ settings t <> 0
  | Return l' t => is_error l' = false -> error t = error s
  | Abort_ => True
  end.
Proof.
  intros Hs. unfold step. destruct (node_of l) as [how cases d|tb cases d|n|how blob e1 e2|n|cb n|cb e|f cases d|co r cur|]; try done.
  1, 2: destruct p; [done|by destruct (select _ _ _)].
  - by destruct p.
  - destruct p; [done|]. destruct (match_sequence _ _ _ _) as [[[] i] q]; [by destruct e1|done|by destruct e2].
  - by destruct (_ >=? _).
  - by destruct p.
  - destruct e as [a v n].
    destruct (call_span_eq cb (set_span_pos0 None s) (span_text (default p (_span_pos0 s)) p)) as (t & -> & Hr & _); [done|].
    destruct (rest_fields _ _ Hr) as (_ & _ & E1 & _ & E2). cbn in *. by rewrite E1, E2.
  - pose proof (call_eq f m m s s eq_refl (or_intror eq_refl)) as Hc. destruct (call_r f m s) as [v t].
    destruct Hc as (_ & _ & _ & _ & E1 & _ & E2 & _). by rewrite E1.
Qed.

Lemma ends_keeps_error l (s : recorder) m p l' t :
  settings s <> 0 -> is_error l' = false -> ends_r l s m p l' t -> error t = error s.
Proof.
  intros Hs Hl H. induction H as [l s m p l' t E|l s m p l1 s1 m1 p1 l' t E H IH];
    pose proof (step_keeps_error l s m p Hs) as Hk; rewrite E in Hk; [by apply Hk|].
  destruct Hk as [<- Hs1]. auto.
Qed.

(** What [llhttp__internal_execute] does when the run has returned [next]. *)
Definition epilogue (next : llparse_state) (s1 : recorder) : Z * recorder :=
  if is_error next then (error s1, s1)
  else
    let s2 := set_current next s1 in
    match _span_pos0 s2, _span_cb0 s2 with
    | Some start, Some cb =>
        let '(err, s3) := call_span_r cb s2 start in
        if negb (err =? 0) then (err, set_error_pos (Some []) (set_error err s3)) else (0, s3)
    | _, _ => (0, s2)
    end.

Definition restart (s : recorder) (d : list Z) : recorder :=
  match _span_pos0 s with None => s | Some _ => set_span_pos0 (Some d) s end.

(** A parser object between two reads. *)
Record resting (p : parser_obj) : Prop := {
  rs_error : error p = 0;
  rs_current : is_error (_current p) = false;
  rs_settings : settings p <> 0;
  rs_stays : stays settings_at (_current p) (set_data [] p);
  rs_span : match span_of (_current p) with
            | None => _span_pos0 p = None
            | Some k => _span_cb0 p = Some k /\ is_Some (_span_pos0 p)
            end;
}.

Lemma restart_fields s d : rest (restart s d) = rest s /\ _current (restart s d) = _current s /\ cbs_of (restart s d) = cbs_of s.
Proof. unfold restart. by destruct (_span_pos0 s). Qed.

Lemma execute_ends m p d :
  error p = 0 -> is_error (_current p) = false ->
  let s := restart (set_data [] p) d in
  exists l t, ends_r (_current p) s m d l t
  /\ service_execute m p d = (data (epilogue l t).2, (epilogue l t).1, set_data tt (epilogue l t).2).
Proof.
  intros He Hl s. destruct (restart_fields (set_data [] p) d) as (_ & Hc & _). fold s in Hc. cbn in Hc.
  destruct (run_total settings_at m s d) as (l & t & Hr & He'); [by rewrite Hc|]. rewrite Hc in He'. exists l, t. split; [done|].
  unfold service_execute, llhttp_execute, llhttp__internal_execute. cbn [error set_data]. rewrite He. cbn [Z.eqb negb].
  fold (restart (set_data [] p) d). fold s. rewrite Hr. unfold epilogue. destruct (is_error l); [done|].
  cbv zeta. destruct (_span_pos0 (set_current l t)), (_span_cb0 (set_current l t)); try done.
  destruct (call_span_r _ _ _) as [err s3]. by destruct (negb (err =? 0)).
Qed.

(** The reads in turn, up to the first error. *)
Fixpoint feed (m : Z) (p : parser_obj) (ds : list (list Z)) : list callback * Z * parser_obj :=
  match ds with
  | [] => ([], 0, p)
  | d :: ds' =>
      let '(t, err, p') := service_execute m p d in
      if err =? 0 then let '(cbs, e, q) := feed m p' ds' in (t.*1 ++ cbs, e, q) else (t.*1, err, p')
  end.

(** The whole run has the bytes [b] before it where the cut one has none left. *)
Definition boundary (pre : list callback) (b : list Z) (s1 : recorder) (p : parser_obj) : Prop :=
  rest s1 = rest p
  /\ match span_of (_current p) with
     | None => _span_pos0 s1 = None /\ recut (cbs_of s1) pre
     | Some k => exists ds t, _span_pos0 s1 = Some (mjoin ds ++ b) /\ recut (cbs_of s1) t /\ pre = t ++ pieces k ds
     end.

Lemma boundary_read pre d b s1 p :
  resting p -> boundary pre (d ++ b) s1 p -> cut_sim pre b d (_current p) s1 (restart (set_data [] p) d).
Proof.
  intros [He Hc Hs Hst Hsp] [Hr Hb]. destruct (stays_kind _ _ _ Hc Hst) as (_ & Hk & _).
  destruct (restart_fields (set_data [] p) d) as (Hr' & _ & Hd). split.
  - by rewrite Hr'.
  - apply (f_equal settings) in Hr. cbn in Hr. congruence.
  - congruence.
  - intros _. unfold span_sim. rewrite Hd. cbn [data set_data fmap list_fmap]. destruct (span_of (_current p)) as [k|].
    + destruct Hsp as [Hcb [q Hq]], Hb as (ds & t & H1 & H2 & H3). split; [apply (f_equal _span_cb0) in Hr; cbn in Hr; congruence|].
      exists ds, [], t. unfold restart. cbn. rewrite Hq. cbn. by rewrite app_nil_r.
    + destruct Hb as [H1 H2]. unfold restart. cbn. rewrite Hsp. cbn. by rewrite app_nil_r.
Qed.

Lemma epilogue_wait l s :
  is_error l = false -> settings s <> 0 ->
  match span_of l with None => _span_pos0 s = None | Some k => _span_cb0 s = Some k /\ is_Some (_span_pos0 s) end ->
  exists t, epilogue l s = (0, t) /\ rest t = rest s /\ _current t = l /\ _span_pos0 t = _span_pos0 s
  /\ cbs_of t = cbs_of s ++ match span_of l with None => [] | Some k => span_events k (default [] (_span_pos0 s)) end.
Proof.
  intros Hl Hs Hsp. unfold epilogue. rewrite Hl. cbv zeta. cbn [_span_pos0 _span_cb0 set_current]. destruct (span_of l) as [k|].
  - destruct Hsp as [-> [q Hq]]. rewrite Hq. destruct (call_span_eq k (set_current l s) q) as (t & -> & Hr & Hp & Hc & Hd); [done|].
    cbn [Z.eqb negb]. exists t. split; [done|]. split; [by rewrite Hr|]. split; [done|]. split; [by rewrite Hp|by rewrite Hd].
  - rewrite Hsp. eexists. split; [done|]. by rewrite app_nil_r.
Qed.

(** What the whole run and the reads agree on. *)
Definition agree (pre : list callback) (whole : Z * recorder) (cut : list callback * Z * parser_obj) : Prop :=
  let '(e1, u) := whole in
  let '(cbs, e, q) := cut in
  e = e1 /\ rest u = rest q /\ _current u = _current q /\ (is_error (_current q) = false -> recut (cbs_of u) (pre ++ cbs)).

Lemma stays_rest l (s1 s2 : recorder) :
  is_error l = false -> rest s1 = rest s2 -> stays settings_at l s2 -> stays settings_at l s1.
Proof.
  intros Hl Hr Hs m. destruct (rest_fields _ _ Hr) as (_ & Ec & _). destruct (stays_kind _ _ _ Hl Hs) as (_ & _ & Hf).
  specialize (Hs m). revert Hs. unfold step. unfold fatal in Hf.
  destruct (node_of l) as [how cases d|tb cases d|n|how blob e1 e2|n|cb n|cb e|f cases d|co r cur|]; try done.
  - change (Z.of_nat (length [])) with 0. rewrite Ec. destruct (Z.geb_spec 0 (content_length s2)); [done|]. intros _. rewrite Z.sub_0_r, <- Ec.
    by destruct s1.
  - destruct e as [a v n]. destruct (call_span _ _ _ _) as [err t]. destruct (negb _); [|done]. by intros [= <- _].
  - by destruct (call _ _ _ _).
  - by intros [= <- _].
Qed.

(** Nothing is left to read: the whole run waits too, and flushes the span. *)
Lemma boundary_done pre s1 p : resting p -> boundary pre [] s1 p -> agree pre (epilogue (_current p) s1) ([], 0, p).
Proof.
  intros [He Hc Hs Hst Hsp] [Hr Hb].
  assert (_span_cb0 s1 = _span_cb0 p /\ settings s1 <> 0) as [Hcb Hs1].
  { split; [by apply (f_equal _span_cb0) in Hr|]. apply (f_equal settings) in Hr. cbn in Hr. congruence. }
  destruct (epilogue_wait (_current p) s1) as (t & -> & Hrt & Hct & _ & Hd); [done..| |].
  { destruct (span_of (_current p)) as [k|]; [|apply Hb]. destruct Hsp as [Hk _], Hb as (ds & t & -> & _). split; [congruence|done]. }
  split_and!; [done|congruence|done|]. intros _. rewrite Hd, app_nil_r. destruct (span_of (_current p)) as [k|].
  - destruct Hb as (ds & u & -> & Hrc & ->). apply recut_app; [done|]. cbn. rewrite app_nil_r. apply recut_pieces.
  - rewrite app_nil_r. apply Hb.
Qed.

(** The next read starts where the last one ended. *)
Lemma boundary_next pre b l t1 t2 :
  cut_sim pre b [] l t1 t2 -> is_error l = false -> stays settings_at l t2 -> error t2 = 0 ->
  exists u, epilogue l t2 = (0, u) /\ _current u = l /\ resting (set_data tt u) /\ boundary (pre ++ cbs_of u) b t1 (set_data tt u).
Proof.
  intros H Hl Hst He. destruct (stays_kind _ _ _ Hl Hst) as (_ & _ & Hf). pose proof (cs_span _ _ _ _ _ _ H Hf) as Hsp.
  destruct (rest_fields _ _ (cs_rest _ _ _ _ _ _ H)) as (_ & _ & Es & Ek & _).
  assert (settings t2 <> 0) as Hs2 by (rewrite <- Es; apply H).
  destruct (epilogue_wait l t2) as (u & Hu & Hru & Hcu & Hpu & Hdu); [done..| |].
  { destruct (span_of l) as [k|]; [|apply Hsp]. destruct Hsp as (Hk & ds & v & t & _ & -> & _). split; [congruence|done]. }
  destruct (rest_fields _ _ Hru) as (_ & _ & Esu & Eku & Eeu).
  exists u. split; [done|]. split; [done|]. split; [split|split].
  - cbn. congruence.
  - cbn. by rewrite Hcu.
  - cbn. congruence.
  - cbn. rewrite Hcu. eapply (stays_rest l _ t2); [done| |done]. by rewrite <- Hru.
  - cbn. rewrite Hcu, Hpu, Eku. destruct (span_of l) as [k|]; [|apply Hsp].
    destruct Hsp as (Hk & ds & v & t & _ & -> & _). split; [congruence|done].
  - cbn. change (rest t1 = rest u). rewrite Hru. apply H.
  - cbn [_current set_data]. rewrite Hcu. rewrite Hdu. destruct (span_of l) as [k|].
    + destruct Hsp as (Hk & ds & v & t & H1 & H2 & H3 & H4). exists (ds ++ [v]), t. rewrite H2. cbn [default from_option id].
      split_and!; [by rewrite H1, join_app; cbn; rewrite app_nil_r, <- app_assoc|done|].
      rewrite app_assoc, H4, pieces_app, <- app_assoc. unfold pieces at 2. cbn. by rewrite !app_nil_r.
    + rewrite app_nil_r. destruct Hsp as (H1 & _ & H3). by split.
Qed.

Lemma feed_cut m ds : forall pre s1 m1 p lf tf,
  resting p -> boundary pre (mjoin ds) s1 p -> ends_r (_current p) s1 m1 (mjoin ds) lf tf ->
  agree pre (epilogue lf tf) (feed m p ds).
Proof.
  induction ds as [|d ds IH]; intros pre s1 m1 p lf tf Hp Hb He.
  - assert (stays settings_at (_current p) s1) as Hst.
    { eapply stays_rest; [apply Hp| |apply Hp]. destruct Hb as [Hb _]. by rewrite Hb. }
    apply (stays_ends settings_at) in He as [-> ->]; [|done]. by apply boundary_done.
  - cbn [mjoin list_join] in Hb, He. fold (mjoin ds) in Hb, He. pose proof (boundary_read _ _ _ _ _ Hp Hb) as Hc.
    destruct (execute_ends m p d) as (l & t2 & He2 & Ex); [apply Hp..|]. cbn [feed]. rewrite Ex.
    destruct (stays_kind _ _ _ (rs_current _ Hp) (rs_stays _ Hp)) as (Hu & _ & _).
    pose proof (ends_cut pre (mjoin ds) d _ _ _ _ _ He2 s1 m1 (rs_current _ Hp) Hc (or_introl Hu)) as Hcut.
    destruct (is_error l) eqn:El.
    + assert (l = s_error) as -> by (by destruct l). destruct Hcut as (t1 & He1 & Hr & Hcu & Hsp).
      destruct (ends_functional _ _ _ _ _ _ _ _ _ He He1) as [-> ->].
      pose proof (ends_error _ _ _ _ _ _ (rs_current _ Hp) He2) as Hne. apply Z.eqb_neq in Hne. cbn [epilogue is_error fst snd].
      rewrite Hne. destruct (rest_fields _ _ Hr) as (_ & _ & _ & _ & Ee). split_and!; [done|done|done|]. intros Hcur. by apply Hsp.
    + destruct Hcut as (_ & t1 & m1' & Hlift & Hc').
      pose proof (ends_stays _ _ _ _ _ _ _ El He2) as Hst2.
      assert (error t2 = 0) as Het.
      { destruct (restart_fields (set_data [] p) d) as (Hrr & _). destruct (rest_fields _ _ Hrr) as (_ & _ & Es & _ & Ee).
        rewrite (ends_keeps_error _ _ _ _ _ _ ltac:(rewrite Es; apply Hp) El He2), Ee. apply Hp. }
      destruct (boundary_next pre (mjoin ds) l t1 t2 Hc' El Hst2 Het) as (u & Hu' & Hcu & Hrest & Hbd).
      rewrite Hu'. cbn [fst snd Z.eqb]. destruct (run_ends settings_at (S (32 * length (mjoin ds) + rank l (next_space (mjoin ds)))) l t1 m1' (mjoin ds) El ltac:(lia))
        as (l' & t' & _ & He'). destruct (ends_functional _ _ _ _ _ _ _ _ _ He (Hlift _ _ He')) as [-> ->].
      assert (_current (set_data tt u) = l) as Hcu' by done. rewrite <- Hcu' in He'.
      specialize (IH _ _ _ _ _ _ Hrest Hbd He'). destruct (feed m (set_data tt u) ds) as [[cbs e] q].
      destruct (epilogue l' t') as [e1 w]. unfold agree in *. by rewrite app_assoc.
Qed.

Lemma reads_recut m m' p ds :
  resting p ->
  let '(t, e, q) := service_execute m p (mjoin ds) in
  let '(cbs, e', q') := feed m' p ds in
  e' = e /\ rest q = rest q' /\ _current q = _current q' /\ (is_error (_current q') = false -> recut (t.*1) cbs).
Proof.
  intros Hp. destruct (execute_ends m p (mjoin ds)) as (l & t & He & ->); [apply Hp..|]. cbv zeta iota beta.
  set (s1 := restart (set_data [] p) (mjoin ds)) in *.
  assert (boundary [] (mjoin ds) s1 p) as Hb.
  { destruct (restart_fields (set_data [] p) (mjoin ds)) as (Hr & _ & Hd). split; [exact Hr|]. unfold s1. rewrite Hd. unfold restart.
    pose proof (rs_span _ Hp) as Hs. cbn [_span_pos0 set_data]. destruct (span_of (_current p)) as [k|].
    - destruct Hs as [_ [q ->]]. exists [], []. split; [done|]. split; [apply recut_nil|done].
    - rewrite Hs. split; [done|apply recut_nil]. }
  pose proof (feed_cut m' ds [] s1 m p l t Hp Hb He) as Ha. destruct (epilogue l t) as [e1 u], (feed m' p ds) as [[cbs e] q]. exact Ha.
Qed.

(** ** Property *)

(** C10: How the bytes of a connection are cut into reads does not matter to the
    parser.  From any parser object at rest, the reads [ds] in turn and the same
    bytes in one read give the same error and leave the same parser object; unless
    the error is final, they make the same callbacks in the same order, but for the
    text of a span coming in pieces.  The values [m] and [m'] that the
    uninitialised variable match happens to hold do not matter either. *)
Theorem parser_cut_invariant m m' p ds :
  resting p ->
  let '(t, e, q) := service_execute m p (mjoin ds) in
  let '(cbs, e', q') := feed m' p ds in
  e' = e /\ rest q = rest q' /\ _current q = _current q' /\ (is_error (_current q') = false -> recut (t.*1) cbs).
Proof. apply reads_recut. Qed.

(** A parser object that was just initialised is at rest. *)
Lemma init_resting : resting service_init.
Proof. by split. Qed.

Definition demo_wire : list Z :=
  lit "GET /a?b=c HTTP/1.1" ++ [13; 10] ++ lit "Host: x" ++ [13; 10; 13; 10] ++ lit "PO".

Lemma parser_cut_invariant_witness :
  resting service_init
  /\ (feed 0 service_init [take 6 demo_wire; drop 6 demo_wire]).1.1
     = [HttpService.on_message_begin; HttpService.on_url (lit "/a"); HttpService.on_url (lit "?b=c"); HttpService.on_header_field (lit "Host");
        HttpService.on_header_value (lit "x"); HttpService.on_headers_complete true false false 1; HttpService.on_message_complete;
        HttpService.on_message_begin]
  /\ let '(t, e, q) := service_execute 1 service_init (mjoin [take 6 demo_wire; drop 6 demo_wire]) in
     let '(cbs, e', q') := feed 0 service_init [take 6 demo_wire; drop 6 demo_wire] in
     e' = e /\ rest q = rest q' /\ _current q = _current q' /\ (is_error (_current q') = false -> recut (t.*1) cbs).
Proof.
  split; [exact init_resting|]. split; [vm_compute; reflexivity|].
  apply (parser_cut_invariant 1 0 service_init [take 6 demo_wire; drop 6 demo_wire]). exact init_resting.
Defined.
