(* ===== verification/HttpWire.v ===== *)
(** HTTP requests from their bytes: the parser of corelib/llhttp reads the requests
    of a connection and the HTTP service passes them on.

    The runs are followed with a recorder that keeps the callbacks alone. *)

From Stdlib Require Import ZArith Lia.
From stdpp Require Import base gmap strings numbers list.
From S2P Require Import Prelude StdMap IoBuffer Codec Route CLib Sockaddr Events Service HexUri Config WebSocket Sha1 LlhttpNodes Llhttp LlhttpRun.
From S2P Require HttpService HttpResponse HttpRequests.
From S2P Require Import HttpParser.
Open Scope Z_scope.

(** ** The recorder without snapshots *)

Abbreviation plain := (llhttp_t (list callback)).
Definition keep_plain (cb : callback) (s : plain) : list callback := data s ++ [cb].
Definition plain_at (_ : Z) : llhttp_settings_t (list callback) := service_settings keep_plain.

Definition forget (s : recorder) : plain := set_data (cbs_of s) s.

Lemma call_span_forget k s d : call_span plain_at k (forget s) d = ((call_span settings_at k s d).1, forget (call_span settings_at k s d).2).
Proof.
  destruct s. destruct k; cbv [call_span llhttp__on_url llhttp__on_header_field llhttp__on_header_value llhttp__on_body llhttp__on_status
    SPAN_CALLBACK_MAYBE]; cbn [Llhttp.settings forget set_data]; destruct (settings =? 0); cbn; try reflexivity;
    unfold forget, keep_trace, keep_plain; cbn; by rewrite fmap_app.
Qed.

Lemma call_forget k m s : call plain_at k m (forget s) = ((call settings_at k m s).1, forget (call settings_at k m s).2).
Proof.
  destruct s. destruct k; try reflexivity.
  all: cbv [call llhttp__on_message_complete llhttp__on_header_value_complete llhttp__on_header_field_complete llhttp__on_status_complete
    llhttp__on_chunk_complete llhttp__on_chunk_header llhttp__on_headers_complete llhttp__on_url_complete llhttp__on_message_begin
    CALLBACK_MAYBE c_mul_add_content_length c_mul_add_content_length_1 c_mul_add_status_code llhttp__before_headers_complete].
  all: cbn [Llhttp.settings Llhttp.content_length Llhttp.status_code forget set_data].
  all: try (destruct (mul_add _ _ _ _); reflexivity).
  all: try (destruct (settings =? 0); [reflexivity|]; cbn; unfold forget, keep_trace, keep_plain; cbn; by rewrite ?fmap_app).
  cbn. by destruct (has _ _ && has _ _).
Qed.

Definition outcome_forget (o : outcome) : outcome :=
  match o with
  | Goto l s m p => Goto l (forget s) m p
  | Return l s => Return l (forget s)
  | Abort_ => Abort_
  end.

Lemma step_forget l s m p : step plain_at l (forget s) m p = outcome_forget (step settings_at l s m p).
Proof.
  unfold step. destruct (node_of l) as [how cases d|tb cases d|n|how blob e1 e2|n|cb n|cb e|f cases d|co r cur|].
  1, 2: destruct p; [done|by destruct (select _ _ _)].
  - by destruct p.
  - destruct p; [done|]. change (_index (forget s)) with (_index s).
    destruct (match_sequence _ _ _ _) as [[[] i] q]; [by destruct e1|done|by destruct e2].
  - change (content_length (forget s)) with (content_length s). by destruct (_ >=? _).
  - by destruct p.
  - destruct e as [a v n]. change (set_span_pos0 None (forget s)) with (forget (set_span_pos0 None s)).
    rewrite call_span_forget. change (_span_pos0 (forget s)) with (_span_pos0 s).
    destruct (call_span settings_at _ _ _) as [err t]. cbn [fst snd]. by destruct (negb _).
  - rewrite call_forget. by destruct (call settings_at _ _ _).
  - done.
  - done.
Qed.

Lemma ends_forget l s m p l' t : ends plain_at l (forget s) m p l' t -> exists u, ends settings_at l s m p l' u /\ forget u = t.
Proof.
  intros H. remember (forget s) as s' eqn:Es. revert s Es. induction H as [l s' m p l' t E|l s' m p l1 s1 m1 p1 l' t E H IH]; intros s ->;
    rewrite step_forget in E; destruct (step settings_at l s m p) as [l2 s2 m2 p2|l2 s2|] eqn:E2; try discriminate E; cbn in E; injection E; intros; subst.
  - exists s2. split; [by apply ends_return|done].
  - destruct (IH s2 eq_refl) as (u & Hu & <-). exists u. split; [by eapply ends_goto|done].
Qed.

(** ** Steps *)

Abbreviation step_p := (step plain_at).

Inductive reach : llparse_state -> plain -> Z -> list Z -> llparse_state -> plain -> Z -> list Z -> Prop :=
| reach_refl l s m p : reach l s m p l s m p
| reach_step l s m p l1 s1 m1 p1 l' s' m' p' :
    step_p l s m p = Goto l1 s1 m1 p1 -> reach l1 s1 m1 p1 l' s' m' p' -> reach l s m p l' s' m' p'.

Lemma reach_trans l s m p l1 s1 m1 p1 l2 s2 m2 p2 :
  reach l s m p l1 s1 m1 p1 -> reach l1 s1 m1 p1 l2 s2 m2 p2 -> reach l s m p l2 s2 m2 p2.
Proof. induction 1; [done|]. intros. eapply reach_step; [done|auto]. Qed.

Lemma reach_ends l s m p l1 s1 m1 p1 l' t :
  reach l s m p l1 s1 m1 p1 -> ends plain_at l1 s1 m1 p1 l' t -> ends plain_at l s m p l' t.
Proof. induction 1; [done|]. intros. eapply ends_goto; [done|auto]. Qed.

(** The parser gets from one place to another, whatever match holds. *)
Definition gets_to (l : llparse_state) (s : plain) (p : list Z) (l' : llparse_state) (s' : plain) (p' : list Z) : Prop :=
  forall m, exists m', reach l s m p l' s' m' p'.

Lemma gets_refl l s p : gets_to l s p l s p.
Proof. intros m. exists m. apply reach_refl. Qed.

Lemma gets_trans l s p l1 s1 p1 l2 s2 p2 : gets_to l s p l1 s1 p1 -> gets_to l1 s1 p1 l2 s2 p2 -> gets_to l s p l2 s2 p2.
Proof. intros H1 H2 m. destruct (H1 m) as [m1 R1], (H2 m1) as [m2 R2]. exists m2. by eapply reach_trans. Qed.

Lemma gets_step l s p l1 s1 p1 l2 s2 p2 :
  (forall m, exists m1, step_p l s m p = Goto l1 s1 m1 p1) -> gets_to l1 s1 p1 l2 s2 p2 -> gets_to l s p l2 s2 p2.
Proof. intros H1 H2 m. destruct (H1 m) as [m1 E], (H2 m1) as [m2 R]. exists m2. by eapply reach_step. Qed.

Lemma gets_eq l s p l' t t' p' : t = t' -> gets_to l s p l' t p' -> gets_to l s p l' t' p'.
Proof. by intros ->. Qed.

(** A parser of requests in the middle of one. *)
Definition st (span : option (list Z)) (cb : option span_cb) (d : list callback) (cl meth maj min hs upg fin fl : Z) : plain :=
  mkLlhttp 0 span cb 0 None None d s_n_start cl HTTP_REQUEST meth maj min hs 0 upg fin fl 0 1.

Ltac hop := eapply reach_step; [reflexivity|]; cbn [tail].
Ltac arrive := eexists; repeat (first [apply reach_refl | hop]).

(** ** The request line *)

Definition method_ok (m : Z) : Prop := m = HttpService.HTTP_GET \/ m = HttpService.HTTP_POST.
Definition method_text (m : Z) : list Z := lit (default EmptyString (llhttp_method_name m)).

Lemma method_read m cb d cl meth maj min hs upg fin fl p :
  method_ok m ->
  gets_to s_n_start (st None cb d cl meth maj min hs upg fin fl) (method_text m ++ lit " /" ++ p)
          s_n_url_path (st (Some (47 :: p)) (Some k_on_url) (d ++ [HttpService.on_message_begin]) cl m maj min hs upg 2 fl) p.
Proof. intros [-> | ->] mt; arrive. Qed.

Lemma version_read u start cb d cl m maj min hs upg fin fl p :
  method_ok m -> start = u ++ lit " HTTP/1.1" ++ [13; 10] ++ p ->
  forall l, l = s_n_url_path \/ l = s_n_url_query ->
  gets_to l (st (Some start) cb d cl m maj min hs upg fin fl) (lit " HTTP/1.1" ++ [13; 10] ++ p)
          s_n_header_field_start (st None cb (d ++ [HttpService.on_url u]) cl m 1 1 hs upg fin fl) p.
Proof.
  intros Hm Hs l Hl. assert (u = span_text start (lit " HTTP/1.1" ++ [13; 10] ++ p)) as -> by (by rewrite Hs, span_text_app).
  destruct Hm as [-> | ->], Hl as [-> | ->]; intros mt; arrive.
Qed.

(** ** Bytes *)

Lemma byte_check (f : Z -> bool) : forallb f (Z.of_nat <$> seq 0 256) = true -> forall c, 0 <= c < 256 -> f c = true.
Proof.
  rewrite forallb_forall. intros H c Hc. apply H, list_elem_of_In, list_elem_of_fmap. exists (Z.to_nat c). split; [lia|].
  apply elem_of_seq. lia.
Qed.

Definition visible (c : Z) : bool := (33 <=? c) && (c <=? 126) || (128 <=? c) && (c <=? 255).
Definition query_char (c : Z) : bool := visible c && negb (c =? 35).
Definition path_char (c : Z) : bool := query_char c && negb (c =? 63).

Definition table_of (l : llparse_state) : list Z := match node_of l with Lookup t _ _ => t | _ => [] end.

(** A class of bytes that a block skips. *)
Definition skipped_by (l : llparse_state) (f : Z -> bool) : Prop :=
  forall c s m p, f c = true -> step_p l s m (c :: p) = Goto l s m p.

Lemma visible_byte c : visible c = true -> 0 <= c < 256.
Proof. unfold visible. intros [[? ?]%andb_true_iff|[? ?]%andb_true_iff]%orb_true_iff; lia. Qed.

(** A table that has 1 for the bytes of the class. *)
Lemma skips_table l t cases d f :
  node_of l = Lookup t cases d -> select 1 cases d = adv l ->
  (forall c, f c = true -> 0 <= c < 256) ->
  forallb (fun c => negb (f c) || (default 0 (t !! Z.to_nat c) =? 1)) (Z.of_nat <$> seq 0 256) = true ->
  skipped_by l f.
Proof.
  intros En Es Hb H c s m p Hc. pose proof (byte_check _ H c (Hb c Hc)) as Ht. cbn beta in Ht. rewrite Hc in Ht. cbn in Ht.
  apply Z.eqb_eq in Ht. unfold step. rewrite En, Ht, Es. reflexivity.
Qed.

Lemma skips_all l f s w p : skipped_by l f -> Forall (fun c => f c = true) w -> gets_to l s (w ++ p) l s p.
Proof.
  intros H. induction 1 as [|c w Hc _ IH]; [apply gets_refl|]. eapply gets_step; [|exact IH]. intros m. exists m. by apply H.
Qed.

(** ** The target *)

Lemma path_skipped : skipped_by s_n_url_path path_char.
Proof.
  eapply skips_table; [reflexivity|reflexivity| |vm_compute; reflexivity].
  intros c [[H _]%andb_true_iff _]%andb_true_iff. by apply visible_byte.
Qed.

Lemma query_skipped : skipped_by s_n_url_query query_char.
Proof. eapply skips_table; [reflexivity|reflexivity| |vm_compute; reflexivity]. intros c [H _]%andb_true_iff. by apply visible_byte. Qed.

(** A path and, perhaps, a query. *)
Definition target_text (path : list Z) (query : option (list Z)) : list Z :=
  47 :: path ++ match query with None => [] | Some q => 63 :: q end.

Definition target_ok (u : list Z) : Prop :=
  exists path query, u = target_text path query /\ Forall (fun c => path_char c = true) path
  /\ match query with None => True | Some q => Forall (fun c => query_char c = true) q end.

Definition version_line : list Z := lit " HTTP/1.1" ++ [13; 10].

Lemma line_read m u cb d cl meth maj min hs upg fin fl p :
  method_ok m -> target_ok u ->
  gets_to s_n_start (st None cb d cl meth maj min hs upg fin fl) (method_text m ++ lit " " ++ u ++ version_line ++ p)
          s_n_header_field_start
          (st None (Some k_on_url) (d ++ [HttpService.on_message_begin; HttpService.on_url u]) cl m 1 1 hs upg 2 fl) p.
Proof.
  intros Hm (path & query & -> & Hp & Hq). unfold version_line. rewrite <- !app_assoc.
  set (v := lit " HTTP/1.1" ++ [13; 10] ++ p).
  change [HttpService.on_message_begin; ?x] with ([HttpService.on_message_begin] ++ [x]). rewrite (app_assoc d).
  assert (target_text path query ++ v = 47 :: path ++ match query with None => v | Some q => 63 :: q ++ v end) as Ht.
  { unfold target_text. cbn. rewrite <- app_assoc. by destruct query. }
  rewrite Ht. change (lit " " ++ 47 :: ?x) with (lit " /" ++ x). eapply gets_trans; [by apply method_read|].
  eapply gets_trans; [by eapply skips_all; [apply path_skipped|]|]. rewrite <- Ht. destruct query as [q|].
  - eapply (gets_trans _ _ _ s_n_url_query _ (q ++ v)); [intros mt; arrive|].
    eapply gets_trans; [by eapply skips_all; [apply query_skipped|]|]. eapply version_read; [done|reflexivity|by right].
  - eapply version_read; [done|reflexivity|by left].
Qed.

(** ** Header names *)

(** RFC 7230 tchar. *)
Definition token_char (c : Z) : bool :=
  ((48 <=? c) && (c <=? 57)) || ((65 <=? c) && (c <=? 90)) || ((97 <=? c) && (c <=? 122))
  || existsb (Z.eqb c) (lit "!#$%&'*+-.^_`|~").
Abbreviation token w := (Forall (fun c => token_char c = true) w).
Definition lowered (w : list Z) : list Z := transform_byte to_lower <$> w.

Lemma token_byte c : token_char c = true -> 33 <= c < 127 /\ c <> 58.
Proof.
  unfold token_char. intros H. assert (0 <= c < 256 /\ (33 <=? c) && (c <? 127) && negb (c =? 58) = true) as [_ Hc]; [|lia].
  assert (0 <= c < 256) as Hb.
  { apply orb_true_iff in H as [H|H]; [lia|]. apply existsb_exists in H as (k & Hk & ->%Z.eqb_eq).
    pose proof (lit_bytes "!#$%&'*+-.^_`|~") as Hl. rewrite Forall_forall in Hl. apply Hl. by apply list_elem_of_In. }
  split; [done|]. revert H. change (token_char c = true -> (33 <=? c) && (c <? 127) && negb (c =? 58) = true).
  pose proof (byte_check (fun c => negb (token_char c) || ((33 <=? c) && (c <? 127) && negb (c =? 58))) ltac:(vm_compute; reflexivity) c Hb) as H.
  cbn beta in H. intros Ht. by rewrite Ht in H.
Qed.

Lemma general_skipped : skipped_by s_n_header_field_general token_char.
Proof. eapply skips_table; [reflexivity|reflexivity| |vm_compute; reflexivity]. intros c Hc%token_byte. lia. Qed.

Lemma lowered_cons c w : lowered (c :: w) = transform_byte to_lower c :: lowered w.
Proof. done. Qed.

(** A colon that no byte of the sequence is matched by. *)
Lemma match_sequence_name blob w p : forall i,
  58 ∉ blob -> (i < length blob)%nat ->
  (exists w1 c w2, w = w1 ++ c :: w2 /\ lowered (w1 ++ [c]) = drop i blob
     /\ match_sequence to_lower blob i (w ++ 58 :: p) = (kMatchComplete, 0%nat, c :: w2 ++ 58 :: p))
  \/ (exists w1 w2, w = w1 ++ w2 /\ match_sequence to_lower blob i (w ++ 58 :: p) = (kMatchMismatch, 0%nat, w2 ++ 58 :: p))
     /\ forall x, lowered w <> drop i blob ++ x.
Proof.
  induction w as [|c w IH]; intros i Hb Hi; destruct (lookup_lt_is_Some_2 blob i Hi) as [x Hx]; cbn [app match_sequence];
    rewrite (drop_S _ _ _ Hx).
  - right. split; [|done]. exists [], []. split; [done|]. cbn. rewrite bool_decide_eq_false_2; [done|]. intros Hx'.
    apply Hb. by eapply list_elem_of_lookup_2.
  - rewrite Hx. destruct (bool_decide_reflect (Some x = Some (transform_byte to_lower c))) as [[= ->]|Hne].
    + destruct (Nat.eqb_spec (S i) (length blob)) as [He|He].
      * left. exists [], c, w. rewrite drop_ge by lia. done.
      * destruct (IH (S i) Hb ltac:(lia)) as [(w1 & c' & w2 & -> & Hl & ->)|[(w1 & w2 & -> & ->) Hn]].
        -- left. exists (c :: w1), c', w2. cbn [app]. rewrite lowered_cons. by rewrite Hl.
        -- right. split; [by exists (c :: w1), w2|]. intros x. rewrite lowered_cons. intros [= Hn']. by eapply Hn.
    + right. split; [by exists [], (c :: w)|]. intros y. rewrite lowered_cons. intros Hh. apply Hne. symmetry. exact (f_equal head Hh).
Qed.

(** The general case: the header is none the parser looks at. *)
Lemma general_read cb start d cl meth maj min hs upg fin fl w p :
  token w ->
  gets_to s_n_header_field_general (st start cb d cl meth maj min hs upg fin fl) (w ++ 58 :: p)
          s_n_span_end_llhttp__on_header_field_2 (st start cb d cl meth maj min hs upg fin fl) (58 :: p).
Proof. intros Hw. eapply gets_trans; [by eapply skips_all; [apply general_skipped|]|]. intros m. arrive. Qed.

Definition to_general (l : llparse_state) (w : list Z) : Prop :=
  forall cb start d cl meth maj min hs upg fin fl p,
  gets_to l (st start cb d cl meth maj min hs upg fin fl) (w ++ 58 :: p)
          s_n_span_end_llhttp__on_header_field_2 (st start cb d cl meth maj min 0 upg fin fl) (58 :: p).

Definition to_special (l : llparse_state) (w : list Z) (k : Z) : Prop :=
  forall cb start d cl meth maj min hs upg fin fl p,
  gets_to l (st start cb d cl meth maj min hs upg fin fl) (w ++ 58 :: p)
          s_n_span_end_llhttp__on_header_field_1 (st start cb d cl meth maj min k upg fin fl) (58 :: p).

Lemma mismatch_general w : token w -> to_general s_n_invoke_update_header_state_10 w.
Proof. intros Hw cb start d cl meth maj min hs upg fin fl p. eapply gets_trans; [|by apply general_read]. intros m. arrive. Qed.

(** More text after the name of a special header. *)
Lemma colon_general c w : token (c :: w) -> to_general s_n_header_field_colon (c :: w).
Proof.
  intros Hw cb start d cl meth maj min hs upg fin fl p. eapply gets_trans; [|by apply general_read].
  assert (select c [(lit " ", go s_n_invoke_test_lenient_flags_2); (lit ":", go s_n_span_end_llhttp__on_header_field_1)]
            (go s_n_invoke_update_header_state_9) = go s_n_invoke_update_header_state_9) as E.
  { apply Forall_inv, token_byte in Hw. change (lit " ") with [32]. change (lit ":") with [58]. cbn [select existsb]. destruct (Z.eqb_spec c 32); [lia|]. destruct (Z.eqb_spec c 58); [lia|done]. }
  apply (gets_step _ _ _ s_n_invoke_update_header_state_9 (st start cb d cl meth maj min hs upg fin fl) (c :: w ++ 58 :: p)).
  - intros m. exists m. unfold step. change (node_of s_n_header_field_colon) with n_header_field_colon. unfold n_header_field_colon.
    cbn [app transform_byte]. rewrite E. reflexivity.
  - intros m. arrive.
Qed.

Lemma step_sequence l how blob e1 e2 s m p r i q :
  node_of l = Sequence how blob e1 e2 -> p <> [] -> match_sequence how blob (Z.to_nat (_index s)) p = (r, i, q) ->
  step_p l s m p
  = match r with
    | kMatchComplete => follow e1 (set_index (Z.of_nat i) s) m q
    | kMatchPause => Return l (set_index (Z.of_nat i) s)
    | kMatchMismatch => follow e2 (set_index (Z.of_nat i) s) m q
    end.
Proof. intros En Hp Em. unfold step. rewrite En. destruct p; [done|]. rewrite Em. by destruct r. Qed.

(** The whole name has been matched: its code is stored. *)
Lemma stored l blob k s w c w2 p :
  node_of l = Sequence to_lower blob (adv_match k s_n_invoke_store_header_state) (go s_n_invoke_update_header_state_10) ->
  match_sequence to_lower blob 0 (w ++ 58 :: p) = (kMatchComplete, 0%nat, c :: w2) -> _index s = 0 -> 0 <= k < 256 ->
  gets_to l s (w ++ 58 :: p) s_n_header_field_colon (set_header_state k s) w2.
Proof.
  intros En Em Hi Hk m. eexists. eapply reach_step.
  - rewrite (step_sequence _ _ _ _ _ _ _ _ kMatchComplete 0%nat (c :: w2) En); [reflexivity|by destruct w|by rewrite Hi].
  - assert (set_header_state k s = set_header_state (wrapu 8 k) (set_index 0 s)) as ->.
    { unfold wrapu. rewrite Z.mod_small by done. destruct s. cbn in *. by rewrite Hi. }
    eapply reach_step; [reflexivity|]. apply reach_refl.
Qed.

(** The last part of the name of a special header. *)
Lemma name_tail l blob k w :
  node_of l = Sequence to_lower blob (adv_match k s_n_invoke_store_header_state) (go s_n_invoke_update_header_state_10) ->
  58 ∉ blob -> blob <> [] -> 0 <= k < 256 -> token w ->
  if bool_decide (lowered w = blob) then to_special l w k else to_general l w.
Proof.
  intros En Hb Hne Hk Hw. assert (0 < length blob)%nat as Hlen by (destruct blob; [done|cbn; lia]).
  destruct (bool_decide_reflect (lowered w = blob)) as [He|He]; intros cb start d cl meth maj min hs upg fin fl p;
    destruct (match_sequence_name blob w p 0 Hb Hlen) as [(w1 & c & w2 & Ew & Hl & Em)|[(w1 & w2 & Ew & Em) Hn]]; rewrite ?drop_0 in *.
  - assert (w2 = []) as ->.
    { rewrite <- He, Ew in Hl. apply (f_equal length) in Hl. unfold lowered in Hl. rewrite !length_fmap, !length_app in Hl. cbn in Hl.
      destruct w2; [done|cbn in Hl; lia]. }
    eapply gets_trans; [by eapply stored|]. intros m. arrive.
  - destruct (Hn []). by rewrite app_nil_r.
  - destruct w2 as [|c2 w2]; [by subst w|]. eapply gets_trans; [by eapply stored|].
    apply (colon_general c2 w2). rewrite Ew in Hw. apply Forall_app in Hw as [_ Hw]. by apply Forall_inv_tail in Hw.
  - eapply (gets_step _ _ _ s_n_invoke_update_header_state_10 _ (w2 ++ 58 :: p)).
    + intros m. exists m. rewrite (step_sequence _ _ _ _ _ _ _ _ kMatchMismatch 0%nat (w2 ++ 58 :: p) En); [reflexivity|by destruct w|done].
    + apply mismatch_general. rewrite Ew in Hw. by apply Forall_app in Hw as [_ Hw].
Qed.

(** What the blocks from [l] on make of the rest of a name. *)
Definition to_name (l : llparse_state) (w : list Z) (k : Z) : Prop := if k =? 0 then to_general l w else to_special l w k.
Definition names_from (l : llparse_state) (f : list Z -> Z) : Prop := forall w, token w -> to_name l w (f (lowered w)).

Lemma names_tail l blob k :
  node_of l = Sequence to_lower blob (adv_match k s_n_invoke_store_header_state) (go s_n_invoke_update_header_state_10) ->
  58 ∉ blob -> blob <> [] -> 0 < k < 256 -> names_from l (fun n => if bool_decide (n = blob) then k else 0).
Proof.
  intros En Hb Hne Hk w Hw. pose proof (name_tail l blob k w En Hb Hne ltac:(lia) Hw) as H. unfold to_name. destruct (bool_decide _); [|done].
  by destruct (Z.eqb_spec k 0); [lia|].
Qed.

Lemma step_switch l how cases d s m c p :
  node_of l = Switch how cases d -> step_p l s m (c :: p) = follow (select (transform_byte how c) cases d) s m (c :: p).
Proof. intros En. unfold step. by rewrite En. Qed.

(** A block that goes on by the next letter. *)
Lemma names_switch l cases f :
  node_of l = Switch to_lower cases (go s_n_invoke_update_header_state_10) ->
  select 58 cases (go s_n_invoke_update_header_state_10) = go s_n_invoke_update_header_state_10 -> f [] = 0 ->
  (forall x n, match select x cases (go s_n_invoke_update_header_state_10) with
               | Edge true None l' => exists g, names_from l' g /\ f (x :: n) = g n
               | e => e = go s_n_invoke_update_header_state_10 /\ f (x :: n) = 0
               end) ->
  names_from l f.
Proof.
  intros En E58 Hnil Hf [|c w] Hw.
  - cbn [lowered fmap list_fmap]. rewrite Hnil. intros cb start d cl meth maj min hs upg fin fl p.
    eapply gets_step; [|by apply (mismatch_general [])]. intros m. exists m. cbn [app]. rewrite (step_switch _ _ _ _ _ _ _ _ En).
    change (transform_byte to_lower 58) with 58. by rewrite E58.
  - rewrite lowered_cons. specialize (Hf (transform_byte to_lower c) (lowered w)).
    destruct (select (transform_byte to_lower c) cases (go s_n_invoke_update_header_state_10)) as [[] [v|] l'] eqn:Es.
    + by destruct Hf as [Hf _].
    + destruct Hf as (g & Hg & ->). apply Forall_inv_tail in Hw. specialize (Hg w Hw). unfold to_name in *.
      destruct (g (lowered w) =? 0); intros cb start d cl meth maj min hs upg fin fl p; (eapply gets_step; [|apply Hg]);
        intros m; exists m; cbn [app]; rewrite (step_switch _ _ _ _ _ _ _ _ En), Es; reflexivity.
    + by destruct Hf as [Hf _].
    + destruct Hf as [Hf ->]. intros cb start d cl meth maj min hs upg fin fl p. eapply gets_step; [|by apply (mismatch_general (c :: w))].
      intros m. exists m. cbn [app]. rewrite (step_switch _ _ _ _ _ _ _ _ En), Es, Hf. reflexivity.
Qed.

(** A block that goes on after a fixed part. *)
Lemma names_seq l blob l' g :
  node_of l = Sequence to_lower blob (adv l') (go s_n_invoke_update_header_state_10) -> 58 ∉ blob -> blob <> [] -> names_from l' g ->
  names_from l (fun n => if bool_decide (take (length blob) n = blob) then g (drop (length blob) n) else 0).
Proof.
  intros En Hb Hne Hg w Hw. assert (0 < length blob)%nat as Hlen by (destruct blob; [done|cbn; lia]).
  assert (forall p, (exists w1 w2, w = w1 ++ w2 /\ w1 <> [] /\ lowered w1 = blob /\
                       forall s m, _index s = 0 -> step_p l s m (w ++ 58 :: p) = Goto l' s m (w2 ++ 58 :: p))
                    \/ (exists w1 w2, w = w1 ++ w2 /\ (forall x, lowered w <> blob ++ x) /\
                          forall s m, _index s = 0 -> step_p l s m (w ++ 58 :: p) = Goto s_n_invoke_update_header_state_10 s m (w2 ++ 58 :: p)))
    as Hstep.
  { intros p. assert (forall (s : plain), _index s = 0 -> set_index (Z.of_nat 0) s = s) as Hset by (intros [] ?; cbn in *; by subst).
    destruct (match_sequence_name blob w p 0 Hb Hlen) as [(w1 & c & w2 & Ew & Hl & Em)|[(w1 & w2 & Ew & Em) Hn]]; rewrite ?drop_0 in *.
    - left. exists (w1 ++ [c]), w2. rewrite <- app_assoc. split_and!; [done|by destruct w1|done|]. intros s m Hi.
      rewrite (step_sequence _ _ _ _ _ _ _ _ kMatchComplete 0%nat (c :: w2 ++ 58 :: p) En), Hset; [done..|by destruct w|by rewrite Hi].
    - right. exists w1, w2. split_and!; [done..|]. intros s m Hi.
      rewrite (step_sequence _ _ _ _ _ _ _ _ kMatchMismatch 0%nat (w2 ++ 58 :: p) En), Hset; [done..|by destruct w|by rewrite Hi]. }
  unfold to_name. destruct (bool_decide_reflect (take (length blob) (lowered w) = blob)) as [He|He].
  - assert (lowered w = blob ++ drop (length blob) (lowered w)) as Ed by (rewrite <- He at 1; by rewrite take_drop).
    assert (forall w1 w2, w = w1 ++ w2 -> lowered w1 = blob -> drop (length blob) (lowered w) = lowered w2) as Hd.
    { intros w1 w2 -> Hl. unfold lowered in *. rewrite fmap_app, Hl. by rewrite drop_app_length. }
    assert (forall w1 w2, w = w1 ++ w2 -> token w2) as Ht by (intros w1 w2 ->; by apply Forall_app in Hw as [_ Hw]).
    destruct (g (drop (length blob) (lowered w)) =? 0) eqn:Eg; intros cb start d cl meth maj min hs upg fin fl p;
      (destruct (Hstep p) as [(w1 & w2 & Ew & _ & Hl & Hs)|(w1 & w2 & _ & Hn & _)]; [|by destruct (Hn _ Ed)]);
      (eapply gets_step; [intros m; exists m; by apply Hs|]); rewrite (Hd _ _ Ew Hl) in Eg; rewrite ?(Hd _ _ Ew Hl);
      specialize (Hg w2 (Ht _ _ Ew)); unfold to_name in Hg; rewrite Eg in Hg; apply Hg.
  - intros cb start d cl meth maj min hs upg fin fl p. destruct (Hstep p) as [(w1 & w2 & -> & _ & Hl & _)|(w1 & w2 & Ew & _ & Hs)].
    + destruct He. unfold lowered in *. rewrite fmap_app, Hl. by rewrite take_app_length.
    + eapply gets_step; [intros m; exists m; by apply Hs|]. apply mismatch_general. subst w. by apply Forall_app in Hw as [_ Hw].
Qed.

Definition code_after (blob : list Z) (k : Z) (n : list Z) : Z := if bool_decide (n = blob) then k else 0.

Definition code_con (n : list Z) : Z :=
  match n with
  | [] => 0
  | x :: n' => if x =? 110 then code_after (lit "ection") 1 n' else if x =? 116 then code_after (lit "ent-length") 2 n' else 0
  end.

Definition code_name (n : list Z) : Z :=
  match n with
  | [] => 0
  | x :: n' =>
      if x =? 99 then if bool_decide (take 2 n' = lit "on") then code_con (drop 2 n') else 0
      else if x =? 112 then code_after (lit "roxy-connection") 1 n'
      else if x =? 116 then code_after (lit "ransfer-encoding") 3 n'
      else if x =? 117 then code_after (lit "pgrade") 4 n'
      else 0
  end.

Ltac name_edges x :=
  repeat (match goal with |- context [existsb (Z.eqb x) ?l] => let l' := eval vm_compute in l in change l with l' end;
          cbn [existsb orb]; rewrite ?orb_false_r; match goal with |- context [x =? ?k] => destruct (Z.eqb_spec x k) as [-> |] end).

Lemma names_header : names_from s_n_header_field code_name.
Proof.
  assert (forall l blob k, node_of l = Sequence to_lower blob (adv_match k s_n_invoke_store_header_state) (go s_n_invoke_update_header_state_10) ->
    bool_decide ((58 ∉ blob) /\ blob <> [] /\ 0 < k < 256) = true -> names_from l (code_after blob k)) as Ht.
  { intros l blob k En (Hb & Hne & Hk)%bool_decide_eq_true. by apply names_tail. }
  assert (names_from s_n_header_field_2 code_con) as H2.
  { eapply names_switch; [reflexivity..|]. intros x n. cbn [select code_con]. name_edges x.
    - exists (code_after (lit "ection") 1). split; [by eapply Ht|done].
    - exists (code_after (lit "ent-length") 2). split; [by eapply Ht|done].
    - done. }
  eapply names_switch; [reflexivity..|]. intros x n. cbn [select code_name]. name_edges x.
  - assert (58 ∉ lit "on") as Hon by (apply (bool_decide_eq_true_1 _); vm_compute; reflexivity).
    eexists. split; [by apply (names_seq s_n_header_field_1 (lit "on") s_n_header_field_2 code_con eq_refl Hon)|done].
  - exists (code_after (lit "roxy-connection") 1). split; [by eapply Ht|done].
  - exists (code_after (lit "ransfer-encoding") 3). split; [by eapply Ht|done].
  - exists (code_after (lit "pgrade") 4). split; [by eapply Ht|done].
  - done.
Qed.

(** The names the parser looks at, and their codes. *)
Definition name_code (w : list Z) : Z :=
  let n := lowered w in
  if bool_decide (n = lit "connection") || bool_decide (n = lit "proxy-connection") then 1
  else if bool_decide (n = lit "content-length") then 2
  else if bool_decide (n = lit "transfer-encoding") then 3
  else if bool_decide (n = lit "upgrade") then 4
  else 0.

Lemma code_name_spec n :
  code_name n
  = (if bool_decide (n = lit "connection") || bool_decide (n = lit "proxy-connection") then 1
     else if bool_decide (n = lit "content-length") then 2
     else if bool_decide (n = lit "transfer-encoding") then 3
     else if bool_decide (n = lit "upgrade") then 4
     else 0).
Proof.
  destruct (decide (n = lit "connection")) as [->|H1]; [reflexivity|]. rewrite (bool_decide_eq_false_2 _ H1).
  destruct (decide (n = lit "proxy-connection")) as [->|H2]; [reflexivity|]. rewrite (bool_decide_eq_false_2 _ H2). cbn [orb].
  destruct (decide (n = lit "content-length")) as [->|H3]; [reflexivity|]. rewrite (bool_decide_eq_false_2 _ H3).
  destruct (decide (n = lit "transfer-encoding")) as [->|H4]; [reflexivity|]. rewrite (bool_decide_eq_false_2 _ H4).
  destruct (decide (n = lit "upgrade")) as [->|H5]; [reflexivity|]. rewrite (bool_decide_eq_false_2 _ H5).
  assert (forall blob k w, w <> blob -> code_after blob k w = 0) as Hc by (intros; unfold code_after; by rewrite bool_decide_eq_false_2).
  destruct n as [|x n]; [done|]. cbn [code_name].
  destruct (Z.eqb_spec x 99) as [->|]; [|destruct (Z.eqb_spec x 112) as [->|]; [|destruct (Z.eqb_spec x 116) as [->|]; [|destruct (Z.eqb_spec x 117) as [->|]]]];
    try (apply Hc; by intros ->); [|done].
  destruct (bool_decide_reflect (take 2 n = lit "on")) as [Ht|]; [|done].
  rewrite <- (take_drop 2 n), Ht in H1, H3. destruct (drop 2 n) as [|y r]; [done|]. cbn [code_con].
  destruct (Z.eqb_spec y 110) as [->|]; [apply Hc; by intros ->|]. destruct (Z.eqb_spec y 116) as [->|]; [apply Hc; by intros ->|done].
Qed.

(** The blocks for the name of a header find exactly these names, in any case. *)
Lemma name_read w : token w -> to_name s_n_header_field w (name_code w).
Proof. intros Hw. unfold name_code. cbv zeta. rewrite <- code_name_spec. by apply names_header. Qed.

(** ** Header lines *)

Lemma field_read w cb d cl meth maj min hs upg fin fl p :
  token w -> w <> [] ->
  gets_to s_n_header_field_start (st None cb d cl meth maj min hs upg fin fl) (w ++ 58 :: p)
          s_n_header_value_discard_ws
          (st None (Some k_on_header_field) (d ++ [HttpService.on_header_field w]) cl meth maj min (name_code w) upg fin fl) p.
Proof.
  intros Hw Hne. set (q := w ++ 58 :: p).
  assert (gets_to s_n_header_field_start (st None cb d cl meth maj min hs upg fin fl) q
            s_n_header_field (st (Some q) (Some k_on_header_field) d cl meth maj min hs upg fin fl) q) as H1.
  { destruct w as [|c w]; [done|]. apply Forall_inv, token_byte in Hw.
    assert (select c [([10], go s_n_headers_almost_done); ([13], adv s_n_headers_almost_done)] (go s_n_span_start_llhttp__on_header_field)
            = go s_n_span_start_llhttp__on_header_field) as E.
    { cbn [select existsb]. destruct (Z.eqb_spec c 10); [lia|]. destruct (Z.eqb_spec c 13); [lia|done]. }
    eapply gets_step; [intros m; exists m; unfold q; cbn [app]; by rewrite (step_switch s_n_header_field_start _ _ _ _ _ _ _ eq_refl); cbn [transform_byte]; rewrite E|]. intros m. arrive. }
  assert (forall k, gets_to s_n_header_field (st (Some q) (Some k_on_header_field) d cl meth maj min hs upg fin fl) q
                      (if k =? 0 then s_n_span_end_llhttp__on_header_field_2 else s_n_span_end_llhttp__on_header_field_1)
                      (st (Some q) (Some k_on_header_field) d cl meth maj min k upg fin fl) (58 :: p) ->
          gets_to s_n_header_field (st (Some q) (Some k_on_header_field) d cl meth maj min hs upg fin fl) q
            s_n_header_value_discard_ws (st None (Some k_on_header_field) (d ++ [HttpService.on_header_field w]) cl meth maj min k upg fin fl) p) as H2.
  { intros k Hk. eapply gets_trans; [exact Hk|]. assert (w = span_text q (58 :: p)) as Ew by (unfold q; by rewrite span_text_app).
    rewrite Ew. clearbody q. destruct (k =? 0); intros m; arrive. }
  eapply gets_trans; [exact H1|]. apply H2. pose proof (name_read w Hw) as Hn. unfold to_name in Hn.
  destruct (Z.eqb_spec (name_code w) 0) as [E|E]; [rewrite E|]; apply Hn.
Qed.

(** The end of a value, once the parser has seen that no line is folded. *)
Lemma value_end v start hs hs' cb d cl meth maj min upg fin fl fl' c p :
  start = v ++ [13; 10] ++ c :: p -> negb (c =? 9) && negb (c =? 32) = true ->
  (hs = 0 /\ hs' = 0 /\ fl' = fl) \/ (hs = 2 /\ hs' = 2 /\ fl' = fl) \/ (hs = 8 /\ hs' = 8 /\ fl' = Z.lor fl 8) ->
  gets_to s_n_header_value_otherwise (st (Some start) cb d cl meth maj min hs upg fin fl) ([13; 10] ++ c :: p)
          s_n_header_field_start (st None cb (d ++ [HttpService.on_header_value v]) cl meth maj min hs' upg fin fl') (c :: p).
Proof.
  intros Hs Hc Hh. assert (v = span_text start ([13; 10] ++ c :: p)) as -> by (by rewrite Hs, span_text_app).
  assert (select c [([9; 32], go s_n_span_start_llhttp__on_header_value_1)] (go s_n_invoke_load_header_state_3) = go s_n_invoke_load_header_state_3) as E.
  { cbn [select existsb]. apply andb_true_iff in Hc as [->%negb_true_iff ->%negb_true_iff]. done. }
  assert (forall s m, step_p s_n_header_value_lws s m (c :: p) = Goto s_n_invoke_load_header_state_3 s m (c :: p)) as Hlws.
  { intros s m. rewrite (step_switch s_n_header_value_lws _ _ _ _ _ _ _ eq_refl). cbn [transform_byte]. by rewrite E. }
  intros m. eexists. do 3 hop. eapply reach_step; [apply Hlws|].
  destruct Hh as [(-> & -> & ->)|[(-> & -> & ->)|(-> & -> & ->)]]; repeat (first [apply reach_refl | hop]).
Qed.

Definition value_char (c : Z) : bool := (c =? 9) || (c =? 32) || visible c.

(** A value that starts with a visible byte. *)
Definition value_ok (v : list Z) : Prop :=
  Forall (fun c => value_char c = true) v /\ match v with [] => False | c :: _ => visible c = true end.

Definition not_folded (p : list Z) : Prop := exists c q, p = c :: q /\ negb (c =? 9) && negb (c =? 32) = true.

Lemma value_skipped : skipped_by s_n_header_value value_char.
Proof.
  eapply skips_table; [reflexivity|reflexivity| |vm_compute; reflexivity].
  unfold value_char. intros c [[?|?]%orb_true_iff|?%visible_byte]%orb_true_iff; lia.
Qed.

(** The blank after the colon; the span of the value starts at its first byte. *)
Lemma value_start c cb d cl meth maj min hs upg fin fl p :
  visible c = true ->
  gets_to s_n_header_value_discard_ws (st None cb d cl meth maj min hs upg fin fl) (32 :: c :: p)
          s_n_invoke_load_header_state_2 (st (Some (c :: p)) (Some k_on_header_value) d cl meth maj min hs upg fin fl) (c :: p).
Proof.
  intros Hv. assert (select c [([9; 32], adv s_n_header_value_discard_ws); ([10], adv s_n_header_value_discard_lws);
      ([13], adv s_n_header_value_discard_ws_almost_done)] (go s_n_span_start_llhttp__on_header_value_1)
      = go s_n_span_start_llhttp__on_header_value_1) as E.
  { unfold visible in Hv. cbn [select existsb]. destruct (Z.eqb_spec c 9), (Z.eqb_spec c 32), (Z.eqb_spec c 10), (Z.eqb_spec c 13); subst; done. }
  intros m. eexists. hop. eapply reach_step.
  - rewrite (step_switch s_n_header_value_discard_ws _ _ _ _ _ _ _ eq_refl). cbn [transform_byte]. rewrite E. reflexivity.
  - hop. apply reach_refl.
Qed.

Lemma general_value v cb d cl meth maj min upg fin fl p :
  value_ok v -> not_folded p ->
  gets_to s_n_header_value_discard_ws (st None cb d cl meth maj min 0 upg fin fl) (32 :: v ++ [13; 10] ++ p)
          s_n_header_field_start (st None (Some k_on_header_value) (d ++ [HttpService.on_header_value v]) cl meth maj min 0 upg fin fl) p.
Proof.
  intros [Hv Hh] (c & q & -> & Hc). destruct v as [|x v]; [done|]. cbn [app]. eapply gets_trans; [by apply value_start|].
  eapply (gets_trans _ _ _ s_n_header_value); [intros m; arrive|].
  eapply gets_trans; [eapply (skips_all _ _ _ (x :: v)); [apply value_skipped|done]|].
  eapply (gets_trans _ _ _ s_n_header_value_otherwise); [intros m; arrive|].
  apply (value_end (x :: v)); [done|done|by left].
Qed.

(** ** Numbers *)

Lemma mul_add_ok base max m v : 0 < base -> 0 <= v -> 0 <= m -> v * base + m <= max -> mul_add base max m v = (0, v * base + m).
Proof.
  intros Hb Hv Hm Hle. unfold mul_add. assert (v <= max / base) by (apply Z.div_le_lower_bound; lia).
  destruct (Z.gtb_spec v (max / base)); [lia|]. cbv zeta. destruct (Z.geb_spec m 0); [|lia]. by destruct (Z.gtb_spec (v * base) (max - m)); [lia|].
Qed.

Lemma dec_digit_read d span cb evs v meth maj min hs upg fin fl p :
  0 <= d < 10 -> 0 <= v -> v * 10 + d < 2 ^ 64 ->
  gets_to s_n_header_value_content_length (st span cb evs v meth maj min hs upg fin fl) (48 + d :: p)
          s_n_header_value_content_length (st span cb evs (v * 10 + d) meth maj min hs upg fin fl) p.
Proof.
  intros Hd Hv Hlt m. exists d. eapply (reach_step _ _ _ _ s_n_invoke_mul_add_content_length_1 _ d p).
  - assert (d = 0 \/ d = 1 \/ d = 2 \/ d = 3 \/ d = 4 \/ d = 5 \/ d = 6 \/ d = 7 \/ d = 8 \/ d = 9) as Hc by lia.
    repeat destruct Hc as [-> |Hc]; subst; reflexivity.
  - eapply reach_step; [|apply reach_refl]. unfold step. cbn [node_of n_invoke_mul_add_content_length_1 call].
    unfold c_mul_add_content_length_1. cbn [content_length st]. rewrite mul_add_ok by lia. reflexivity.
Qed.

Lemma dec_read f n span cb evs meth maj min hs upg fin fl p :
  0 <= n < 10 ^ Z.of_nat f -> n < 2 ^ 64 ->
  gets_to s_n_header_value_content_length (st span cb evs 0 meth maj min hs upg fin fl) (dec_digits f n ++ p)
          s_n_header_value_content_length (st span cb evs n meth maj min hs upg fin fl) p.
Proof.
  revert n p. induction f as [|f IH]; intros n p Hn Hlt; [change (10 ^ Z.of_nat 0) with 1 in Hn; assert (n = 0) as -> by lia; apply gets_refl|].
  rewrite Nat2Z.inj_succ, Z.pow_succ_r in Hn by lia.
  assert (dec_digits (S f) n = if n <? 10 then [48 + n] else dec_digits f (n / 10) ++ [48 + n mod 10]) as -> by done.
  destruct (Z.ltb_spec n 10).
  - replace (st span cb evs n meth maj min hs upg fin fl) with (st span cb evs (0 * 10 + n) meth maj min hs upg fin fl) by done.
    by apply dec_digit_read; lia.
  - rewrite <- app_assoc. pose proof (Z.div_mod n 10). pose proof (Z.mod_pos_bound n 10).
    assert (0 <= n / 10 < 10 ^ Z.of_nat f) by (split; [apply Z.div_pos; lia|apply Z.div_lt_upper_bound; lia]).
    eapply gets_trans; [apply IH; lia|]. replace n with (n / 10 * 10 + n mod 10) at 3 by lia. apply dec_digit_read; lia.
Qed.

(** A chunk size; the first digit is read by a block of its own. *)
Lemma hex_digit_read l d span cb evs v meth maj min hs upg fin fl p :
  l = s_n_chunk_size_digit \/ l = s_n_chunk_size -> 0 <= d < 16 -> 0 <= v -> v * 16 + d < 2 ^ 64 ->
  gets_to l (st span cb evs v meth maj min hs upg fin fl) (hex_char d :: p)
          s_n_chunk_size (st span cb evs (v * 16 + d) meth maj min hs upg fin fl) p.
Proof.
  intros Hl Hd Hv Hlt m. exists d. eapply (reach_step _ _ _ _ s_n_invoke_mul_add_content_length _ d p).
  - assert (d = 0 \/ d = 1 \/ d = 2 \/ d = 3 \/ d = 4 \/ d = 5 \/ d = 6 \/ d = 7 \/ d = 8 \/ d = 9
            \/ d = 10 \/ d = 11 \/ d = 12 \/ d = 13 \/ d = 14 \/ d = 15) as Hc by lia.
    destruct Hl as [-> | ->]; repeat destruct Hc as [-> |Hc]; subst; reflexivity.
  - eapply reach_step; [|apply reach_refl]. unfold step. cbn [node_of n_invoke_mul_add_content_length call].
    unfold c_mul_add_content_length. cbn [content_length st]. rewrite mul_add_ok by lia. reflexivity.
Qed.

Lemma hex_read f n span cb evs meth maj min hs upg fin fl p :
  0 <= n < 16 ^ Z.of_nat (S f) -> n < 2 ^ 64 ->
  gets_to s_n_chunk_size_digit (st span cb evs 0 meth maj min hs upg fin fl) (HttpResponse.hex_digits (S f) n ++ p)
          s_n_chunk_size (st span cb evs n meth maj min hs upg fin fl) p.
Proof.
  assert (forall n p, 0 <= n < 16 -> n < 2 ^ 64 ->
    gets_to s_n_chunk_size_digit (st span cb evs 0 meth maj min hs upg fin fl) (hex_char n :: p)
            s_n_chunk_size (st span cb evs n meth maj min hs upg fin fl) p) as H1.
  { intros k q Hk Hlt. replace (st span cb evs k meth maj min hs upg fin fl) with (st span cb evs (0 * 16 + k) meth maj min hs upg fin fl) by done.
    apply hex_digit_read; [by left|lia..]. }
  revert n p. induction f as [|f IH]; intros n p Hn Hlt.
  - change (16 ^ Z.of_nat 1) with 16 in Hn. cbn [HttpResponse.hex_digits]. destruct (Z.ltb_spec n 16); [|lia]. by apply H1.
  - rewrite Nat2Z.inj_succ, Z.pow_succ_r in Hn by lia.
    assert (HttpResponse.hex_digits (S (S f)) n
            = if n <? 16 then [hex_char n] else HttpResponse.hex_digits (S f) (n / 16) ++ [hex_char (n mod 16)]) as -> by done.
    destruct (Z.ltb_spec n 16); [apply H1; lia|].
    rewrite <- app_assoc. pose proof (Z.div_mod n 16). pose proof (Z.mod_pos_bound n 16).
    assert (0 <= n / 16 < 16 ^ Z.of_nat (S f)) by (split; [apply Z.div_pos; lia|apply Z.div_lt_upper_bound; lia]).
    eapply gets_trans; [apply IH; lia|]. replace n with (n / 16 * 16 + n mod 16) at 3 by lia. apply hex_digit_read; [by right|lia..].
Qed.

(** ** The framing headers *)

Lemma dec_text n : 0 <= n < 2 ^ 64 -> exists c w, to_string n = c :: w /\ visible c = true.
Proof.
  intros Hn. unfold to_string. destruct (Z.ltb_spec n 0); [lia|]. destruct (dec_digits_cons 19 n ltac:(lia)) as (c & w & E & Hc).
  exists c, w. split; [done|]. unfold isdigit in Hc. unfold visible. apply orb_true_iff. left. lia.
Qed.

Lemma length_value n cb d meth maj min upg fin p :
  0 <= n < 2 ^ 64 -> not_folded p ->
  gets_to s_n_header_value_discard_ws (st None cb d 0 meth maj min 2 upg fin 0) (32 :: to_string n ++ [13; 10] ++ p)
          s_n_header_field_start
          (st None (Some k_on_header_value) (d ++ [HttpService.on_header_value (to_string n)]) n meth maj min 2 upg fin 32) p.
Proof.
  intros Hn (c & q & -> & Hc). destruct (dec_text n Hn) as (x & w & E & Hx). rewrite E. cbn [app]. eapply gets_trans; [by apply value_start|].
  change (x :: w ++ ?r) with ((x :: w) ++ r). rewrite <- E.
  eapply (gets_trans _ _ _ s_n_header_value_content_length); [intros m; arrive|].
  assert (to_string n = dec_digits 20 n) as Et by (unfold to_string; by destruct (Z.ltb_spec n 0); [lia|]).
  rewrite Et. eapply gets_trans; [apply dec_read; [|lia]; split; [lia|]; by eapply Z.lt_trans; [apply Hn|]|].
  eapply (gets_trans _ _ _ s_n_header_value_otherwise); [intros m; arrive|]. rewrite <- Et.
  apply value_end; [done|done|by right; left].
Qed.

Lemma chunked_value cb d cl meth maj min upg fin p :
  not_folded p ->
  gets_to s_n_header_value_discard_ws (st None cb d cl meth maj min 3 upg fin 0) (32 :: lit "chunked" ++ [13; 10] ++ p)
          s_n_header_field_start
          (st None (Some k_on_header_value) (d ++ [HttpService.on_header_value (lit "chunked")]) cl meth maj min 8 upg fin 520) p.
Proof.
  intros (c & q & -> & Hc). eapply gets_trans; [by apply (value_start 99 _ _ _ _ _ _ _ _ _ _ (lit "hunked" ++ [13; 10] ++ c :: q))|].
  eapply (gets_trans _ _ _ s_n_header_value_otherwise); [intros m; arrive|].
  apply (value_end (lit "chunked") _ 8 8 _ _ _ _ _ _ _ _ 512 520); [done|done|by right; right].
Qed.

(** ** The end of the head and the body *)

Definition after_message (cb : option span_cb) (d : list callback) (m hs : Z) : plain := st None cb d 0 m 1 1 hs 0 0 0.

Lemma no_body cb d m hs upg fin p :
  method_ok m ->
  gets_to s_n_header_field_start (st None cb d 0 m 1 1 hs upg fin 0) ([13; 10] ++ p)
          s_n_start (after_message cb (d ++ [HttpService.on_headers_complete true false false m; HttpService.on_message_complete]) m hs) p.
Proof.
  intros Hm. change [?a; HttpService.on_message_complete] with ([a] ++ [HttpService.on_message_complete]). rewrite (app_assoc d).
  destruct Hm as [-> | ->]; intros mt; arrive.
Qed.

Lemma length_body cb d m hs upg fin b p :
  method_ok m -> b <> [] ->
  gets_to s_n_header_field_start (st None cb d (Z.of_nat (length b)) m 1 1 hs upg fin 32) ([13; 10] ++ b ++ p)
          s_n_start (after_message (Some k_on_body)
            (d ++ [HttpService.on_headers_complete true false false m; HttpService.on_body b; HttpService.on_message_complete]) m hs) p.
Proof.
  intros Hm Hb. change [?x; ?y; ?z] with ([x] ++ [y] ++ [z]). rewrite (app_assoc d), (app_assoc (d ++ _)).
  set (d1 := d ++ [HttpService.on_headers_complete true false false m]).
  eapply (gets_trans _ _ _ s_n_consume_content_length_1 (st (Some (b ++ p)) (Some k_on_body) d1 (Z.of_nat (length b)) m 1 1 hs 0 fin 32) (b ++ p)).
  - destruct b as [|c b]; [done|]. cbn [length app]. rewrite Nat2Z.inj_succ. unfold Z.succ.
    assert (exists q, Z.of_nat (length b) + 1 = Zpos q) as [q ->] by (exists (Z.to_pos (Z.of_nat (length b) + 1)); rewrite Z2Pos.id; lia).
    destruct Hm as [-> | ->]; intros mt; arrive.
  - eapply (gets_step _ _ _ s_n_span_end_llhttp__on_body_1 (st (Some (b ++ p)) (Some k_on_body) d1 0 m 1 1 hs 0 fin 32) p).
    + intros mt. exists mt. unfold step. cbn [node_of n_consume_content_length_1 content_length st]. rewrite length_app.
      destruct (Z.geb_spec (Z.of_nat (length b + length p)) (Z.of_nat (length b))); [|lia]. rewrite Nat2Z.id, drop_app_length. reflexivity.
    + assert (b = span_text (b ++ p) p) as E by (by rewrite span_text_app). rewrite E at 2.
      destruct Hm as [-> | ->]; intros mt; arrive.
Qed.

(** ** Chunks *)

Lemma chunked_head cb d cl m hs upg fin p :
  method_ok m ->
  gets_to s_n_header_field_start (st None cb d cl m 1 1 hs upg fin 520) ([13; 10] ++ p)
          s_n_chunk_size_digit (st None cb (d ++ [HttpService.on_headers_complete true false true m]) 0 m 1 1 hs 0 fin 520) p.
Proof. intros [-> | ->] mt; arrive. Qed.

Lemma chunk_read cb d m hs fin b p :
  b <> [] -> Z.of_nat (length b) < 2 ^ 64 ->
  gets_to s_n_chunk_size_digit (st None cb d 0 m 1 1 hs 0 fin 520) (HttpResponse.chunk_bytes b ++ p)
          s_n_chunk_size_digit
          (st None (Some k_on_body) (d ++ [HttpService.on_chunk_header (Z.of_nat (length b)); HttpService.on_body b; HttpService.on_chunk_complete])
              0 m 1 1 hs 0 fin 520) p.
Proof.
  intros Hb Hlt. unfold HttpResponse.chunk_bytes. rewrite <- !app_assoc. eapply gets_trans; [apply (hex_read 15); [|done]; split; [lia|done]|].
  change [?x; ?y; ?z] with ([x] ++ [y] ++ [z]). rewrite (app_assoc d), (app_assoc (d ++ _)).
  set (d1 := d ++ [HttpService.on_chunk_header (Z.of_nat (length b))]). set (q := HttpResponse.crlf ++ p).
  eapply (gets_trans _ _ _ s_n_consume_content_length (st (Some (b ++ q)) (Some k_on_body) d1 (Z.of_nat (length b)) m 1 1 hs 0 fin 520) (b ++ q)).
  - unfold d1. destruct b as [|c b]; [done|]. cbn [length app]. rewrite Nat2Z.inj_succ. unfold Z.succ.
    assert (exists k, Z.of_nat (length b) + 1 = Zpos k) as [k ->] by (exists (Z.to_pos (Z.of_nat (length b) + 1)); rewrite Z2Pos.id; lia).
    intros mt. arrive.
  - eapply (gets_step _ _ _ s_n_span_end_llhttp__on_body (st (Some (b ++ q)) (Some k_on_body) d1 0 m 1 1 hs 0 fin 520) q).
    + intros mt. exists mt. unfold step. cbn [node_of n_consume_content_length content_length st]. rewrite length_app.
      destruct (Z.geb_spec (Z.of_nat (length b + length q)) (Z.of_nat (length b))); [|lia]. rewrite Nat2Z.id, drop_app_length. reflexivity.
    + assert (b = span_text (b ++ q) q) as E by (by rewrite span_text_app). rewrite E at 2. intros mt. arrive.
Qed.

Definition chunk_callbacks (b : list Z) : list callback :=
  [HttpService.on_chunk_header (Z.of_nat (length b)); HttpService.on_body b; HttpService.on_chunk_complete].

Definition chunk_ok (b : list Z) : Prop := b <> [] /\ Z.of_nat (length b) < 2 ^ 64.

Lemma chunks_read bs : forall cb d m hs fin p,
  Forall chunk_ok bs -> exists cb',
  gets_to s_n_chunk_size_digit (st None cb d 0 m 1 1 hs 0 fin 520) (mjoin (HttpResponse.chunk_bytes <$> bs) ++ p)
          s_n_chunk_size_digit (st None cb' (d ++ mjoin (chunk_callbacks <$> bs)) 0 m 1 1 hs 0 fin 520) p.
Proof.
  induction bs as [|b bs IH]; intros cb d m hs fin p Hbs.
  - exists cb. cbn. rewrite app_nil_r. apply gets_refl.
  - apply Forall_cons in Hbs as [[Hb Hlt] Hbs].
    destruct (IH (Some k_on_body) (d ++ chunk_callbacks b) m hs fin p Hbs) as [cb' H]. exists cb'.
    cbn [fmap list_fmap mjoin list_join]. fold (mjoin (M := list) (A := Z)). rewrite <- app_assoc.
    eapply gets_trans; [by apply chunk_read|]. rewrite app_assoc. exact H.
Qed.

Definition last_chunk : list Z := lit "0" ++ [13; 10; 13; 10].

Lemma last_chunk_read cb d m hs fin p :
  method_ok m ->
  gets_to s_n_chunk_size_digit (st None cb d 0 m 1 1 hs 0 fin 520) (last_chunk ++ p)
          s_n_start (after_message cb (d ++ [HttpService.on_chunk_header 0; HttpService.on_chunk_complete; HttpService.on_message_complete]) m hs) p.
Proof.
  intros Hm. change [?x; ?y; ?z] with ([x] ++ [y] ++ [z]). rewrite (app_assoc d), (app_assoc (d ++ _)).
  destruct Hm as [-> | ->]; intros mt; arrive.
Qed.

(** ** Requests *)

Definition header_line (kv : list Z * list Z) : list Z := kv.1 ++ lit ": " ++ kv.2 ++ [13; 10].
Definition header_callbacks (kv : list Z * list Z) : list callback :=
  [HttpService.on_header_field kv.1; HttpService.on_header_value kv.2].

(** A header the parser passes on without looking at it. *)
Definition header_ok (kv : list Z * list Z) : Prop := token kv.1 /\ kv.1 <> [] /\ name_code kv.1 = 0 /\ value_ok kv.2.

Lemma lines_not_folded hs p : Forall header_ok hs -> not_folded p -> not_folded (mjoin (header_line <$> hs) ++ p).
Proof.
  intros Hh Hp. destruct Hh as [|[[|c k] v] hs (Hk & Hne & _) _]; [done|done|]. eexists c, _. split; [reflexivity|].
  apply Forall_inv, token_byte in Hk. lia.
Qed.

Lemma headers_read hs : forall cb d cl m st0 upg fin fl p,
  Forall header_ok hs -> not_folded p -> exists cb' st1,
  gets_to s_n_header_field_start (st None cb d cl m 1 1 st0 upg fin fl) (mjoin (header_line <$> hs) ++ p)
          s_n_header_field_start (st None cb' (d ++ mjoin (header_callbacks <$> hs)) cl m 1 1 st1 upg fin fl) p.
Proof.
  induction hs as [|[k v] hs IH]; intros cb d cl m st0 upg fin fl p Hh Hp.
  - exists cb, st0. cbn. rewrite app_nil_r. apply gets_refl.
  - apply Forall_cons in Hh as [(Hk & Hne & Hc & Hv) Hh]. cbn [fst snd] in *.
    destruct (IH (Some k_on_header_value) (d ++ header_callbacks (k, v)) cl m 0 upg fin fl p Hh Hp) as (cb' & st1 & H). exists cb', st1.
    cbn [fmap list_fmap mjoin list_join]. fold (mjoin (M := list) (A := Z)). unfold header_line at 1. cbn [fst snd]. rewrite <- !app_assoc.
    change (lit ": " ++ ?x) with (58 :: 32 :: x). eapply gets_trans; [by apply field_read|]. rewrite Hc.
    eapply gets_trans; [apply general_value; [done|by apply lines_not_folded]|]. rewrite <- !app_assoc in H |- *. exact H.
Qed.

(** A request as it is written; the framing of the body goes last. *)
Record wire_request : Type := mkWire {
  w_method : Z;
  w_url : list Z;
  w_headers : list (list Z * list Z);
  w_payload : HttpRequests.payload;
}.

Definition framing (p : HttpRequests.payload) : list (list Z * list Z) :=
  match p with
  | HttpRequests.Plain [] => []
  | HttpRequests.Plain b => [(lit "Content-Length", to_string (Z.of_nat (length b)))]
  | HttpRequests.Chunks _ => [(lit "Transfer-Encoding", lit "chunked")]
  end.

Definition payload_bytes (p : HttpRequests.payload) : list Z :=
  match p with
  | HttpRequests.Plain b => b
  | HttpRequests.Chunks bs => mjoin (HttpResponse.chunk_bytes <$> bs) ++ last_chunk
  end.

Definition wire (w : wire_request) : list Z :=
  method_text (w_method w) ++ lit " " ++ w_url w ++ version_line
  ++ mjoin (header_line <$> w_headers w ++ framing (w_payload w)) ++ [13; 10] ++ payload_bytes (w_payload w).

Definition message_of (w : wire_request) : HttpRequests.message :=
  HttpRequests.mkMessage (w_method w) (w_url w) (w_headers w ++ framing (w_payload w)) true (w_payload w).

Definition payload_ok (p : HttpRequests.payload) : Prop :=
  match p with
  | HttpRequests.Plain b => Z.of_nat (length b) < 2 ^ 64
  | HttpRequests.Chunks bs => Forall chunk_ok bs /\ Z.of_nat (length bs) < 2 ^ 31
  end.

Definition request_ok (w : wire_request) : Prop :=
  method_ok (w_method w) /\ target_ok (w_url w) /\ Forall header_ok (w_headers w) /\ payload_ok (w_payload w).

Definition payload_callbacks (p : HttpRequests.payload) : list callback :=
  match p with
  | HttpRequests.Plain [] => []
  | HttpRequests.Plain b => [HttpService.on_body b]
  | HttpRequests.Chunks bs => mjoin (chunk_callbacks <$> bs) ++ [HttpService.on_chunk_header 0; HttpService.on_chunk_complete]
  end.

Definition callbacks (w : wire_request) : list callback :=
  [HttpService.on_message_begin; HttpService.on_url (w_url w)] ++ mjoin (header_callbacks <$> w_headers w ++ framing (w_payload w))
  ++ [HttpService.on_headers_complete true false (HttpRequests.chunked_payload (w_payload w)) (w_method w)]
  ++ payload_callbacks (w_payload w) ++ [HttpService.on_message_complete].

Lemma cr_not_folded p : not_folded ([13; 10] ++ p).
Proof. by exists 13, (10 :: p). Qed.

(** The framing header, the end of the head and the body. *)
Lemma payload_read cb d m hs upg fin w p :
  method_ok m -> payload_ok w -> exists cb' hs',
  gets_to s_n_header_field_start (st None cb d 0 m 1 1 hs upg fin 0) (mjoin (header_line <$> framing w) ++ [13; 10] ++ payload_bytes w ++ p)
          s_n_start
          (after_message cb' (d ++ mjoin (header_callbacks <$> framing w)
             ++ [HttpService.on_headers_complete true false (HttpRequests.chunked_payload w) m]
             ++ payload_callbacks w ++ [HttpService.on_message_complete]) m hs') p.
Proof.
  intros Hm Hw. destruct w as [b|bs]; [destruct (decide (b = [])) as [->|Hb]|].
  - exists cb, hs. by apply no_body.
  - exists (Some k_on_body), 2.
    assert (framing (HttpRequests.Plain b) = [(lit "Content-Length", to_string (Z.of_nat (length b)))]) as -> by by destruct b.
    assert (payload_callbacks (HttpRequests.Plain b) = [HttpService.on_body b]) as -> by by destruct b.
    cbn [fmap list_fmap mjoin list_join]. rewrite !app_nil_r. unfold header_line, header_callbacks. cbn [fst snd]. rewrite <- !app_assoc.
    change (lit ": " ++ ?x) with (58 :: 32 :: x). eapply gets_trans; [apply field_read; [by repeat constructor|done]|].
    eapply gets_trans; [apply length_value; [cbn in Hw; lia|apply cr_not_folded]|].
    eapply gets_eq; [|by apply length_body]. by rewrite <- !app_assoc.
  - destruct Hw as [Hbs _]. cbn [framing fmap list_fmap mjoin list_join payload_bytes payload_callbacks HttpRequests.chunked_payload].
    rewrite !app_nil_r. unfold header_line, header_callbacks. cbn [fst snd]. rewrite <- !app_assoc.
    edestruct (chunks_read bs) as [cb' Hc]; [exact Hbs|]. exists cb', 8.
    change (lit ": " ++ ?x) with (58 :: 32 :: x). eapply gets_trans; [apply field_read; [by repeat constructor|done]|].
    eapply gets_trans; [apply chunked_value, cr_not_folded|]. eapply gets_trans; [by apply chunked_head|].
    eapply gets_trans; [exact Hc|]. eapply gets_eq; [|by apply last_chunk_read]. by rewrite <- !app_assoc.
Qed.

Lemma request_read cb d meth maj min hs upg fin w p :
  request_ok w -> exists cb' hs',
  gets_to s_n_start (st None cb d 0 meth maj min hs upg fin 0) (wire w ++ p)
          s_n_start (after_message cb' (d ++ callbacks w) (w_method w) hs') p.
Proof.
  intros (Hm & Hu & Hh & Hp). unfold wire. rewrite fmap_app, join_app, <- !app_assoc.
  assert (not_folded (mjoin (header_line <$> framing (w_payload w)) ++ [13; 10] ++ payload_bytes (w_payload w) ++ p)) as Hn.
  { destruct (w_payload w) as [[|c b]|bs]; [by exists 13, (10 :: p)|by eexists 67, _|by eexists 84, _]. }
  edestruct (headers_read (w_headers w)) as (cb1 & hs1 & H1); [exact Hh|exact Hn|].
  edestruct payload_read as (cb2 & hs2 & H2); [exact Hm|exact Hp|]. exists cb2, hs2.
  eapply gets_trans; [by apply line_read|]. eapply gets_trans; [exact H1|]. eapply gets_eq; [|exact H2].
  unfold callbacks. by rewrite fmap_app, join_app, <- !app_assoc.
Qed.

Lemma requests_read ws : forall cb d meth maj min hs upg fin,
  Forall request_ok ws -> exists t,
  gets_to s_n_start (st None cb d 0 meth maj min hs upg fin 0) (mjoin (wire <$> ws)) s_n_start t []
  /\ data t = d ++ mjoin (callbacks <$> ws) /\ _span_pos0 t = None.
Proof.
  induction ws as [|w ws IH]; intros cb d meth maj min hs upg fin Hws.
  - eexists. split; [apply gets_refl|]. cbn. by rewrite app_nil_r.
  - apply Forall_cons in Hws as [Hw Hws]. cbn [fmap list_fmap mjoin list_join].
    destruct (request_read cb d meth maj min hs upg fin w (mjoin (wire <$> ws)) Hw) as (cb' & hs' & H).
    destruct (IH cb' (d ++ callbacks w) (w_method w) 1 1 hs' 0 0 Hws) as (t & Ht & Hd & Hs). exists t.
    split; [by eapply gets_trans|]. by rewrite Hd, <- app_assoc.
Qed.

(** The callbacks of the requests, read in one go by a new parser. *)
Lemma wire_parsed m ws :
  Forall request_ok ws ->
  exists t p, service_execute m service_init (mjoin (wire <$> ws)) = (t, 0, p) /\ t.*1 = mjoin (callbacks <$> ws) /\ _current p = s_n_start.
Proof.
  intros Hws. destruct (requests_read ws None [] 0 0 0 0 0 0 Hws) as (t & Ht & Hd & Hs).
  destruct (execute_ends m service_init (mjoin (wire <$> ws))) as (l & u & He & Ex); [done..|].
  destruct (Ht m) as [m' Hr]. assert (ends plain_at s_n_start t m' [] s_n_start t) as Ht' by by apply ends_return.
  pose proof (reach_ends _ _ _ _ _ _ _ _ _ _ Hr Ht') as Hp.
  destruct (ends_forget s_n_start (restart (set_data [] service_init) (mjoin (wire <$> ws))) m _ _ _ Hp) as (u' & Hu & Hf).
  destruct (ends_functional _ _ _ _ _ _ _ _ _ He Hu) as [-> ->].
  exists (data u'), (set_data tt (set_current s_n_start u')). rewrite Ex.
  assert (_span_pos0 u' = None) as Hn by (rewrite <- Hf in Hs; exact Hs). unfold epilogue. cbn [is_error]. cbv zeta. cbn [_span_pos0 set_current].
  rewrite Hn. split_and!; [done| |done]. rewrite <- Hf in Hd. exact Hd.
Qed.

(** ** Messages in pieces *)

Definition recut1 (cb : callback) (y : list callback) : Prop :=
  y = [cb] \/ exists k ds, span_events k (mjoin ds) = [cb] /\ y = pieces k ds.

Lemma recut_parts x y : recut x y -> exists ys, Forall2 recut1 x ys /\ y = mjoin ys.
Proof.
  induction 1 as [|cb x y _ (ys & Hys & ->)|k ds x y _ (ys & Hys & ->)].
  - exists []. by split; [constructor|].
  - exists ([cb] :: ys). split; [|done]. constructor; [by left|done].
  - destruct (span_events k (mjoin ds)) as [|cb [|]] eqn:E.
    + exists ys. split; [done|]. assert (pieces k ds = []) as ->; [|done]. destruct k; try discriminate E. unfold pieces. clear. by induction ds.
    + exists (pieces k ds :: ys). split; [|done]. constructor; [|done]. right. by exists k, ds.
    + by destruct k.
Qed.

Lemma recut_app_inv a b y : recut (a ++ b) y -> exists y1 y2, y = y1 ++ y2 /\ recut a y1 /\ recut b y2.
Proof.
  assert (forall x ys, Forall2 recut1 x ys -> recut x (mjoin ys)) as Hback.
  { induction 1 as [|cb y1 x ys [->|(k & ds & E & ->)] _ IH]; [constructor|by apply recut_same|].
    change (cb :: x) with ([cb] ++ x). rewrite <- E. by apply recut_span. }
  intros (ys & (ya & yb & Ha & Hb & ->)%Forall2_app_inv_l & ->)%recut_parts. exists (mjoin ya), (mjoin yb). by rewrite join_app; auto.
Qed.

Lemma recut_nil_inv y : recut [] y -> y = [].
Proof. intros (ys & H & ->)%recut_parts. by inversion H. Qed.

Lemma recut_one cb y : recut [cb] y -> recut1 cb y.
Proof. intros (ys & H & ->)%recut_parts. inversion H as [|? y1 ? ys' H1 H2]; subst. inversion H2; subst. cbn. by rewrite app_nil_r. Qed.

Lemma recut_cons_inv cb b y : recut (cb :: b) y -> exists y1 y2, y = y1 ++ y2 /\ recut1 cb y1 /\ recut b y2.
Proof. intros (y1 & y2 & -> & H1%recut_one & H2)%(recut_app_inv [cb]). by exists y1, y2. Qed.

(** A callback that is not about a span, and one that is. *)
Lemma recut1_same cb y : (forall k d, span_events k d <> [cb]) -> recut1 cb y -> y = [cb].
Proof. intros H [->|(k & ds & E & _)]; [done|]. by destruct (H k (mjoin ds)). Qed.

Lemma recut1_pieces mk d y :
  (forall k e, span_events k e = [mk d] -> e = d /\ forall ds, pieces k ds = mk <$> ds) -> recut1 (mk d) y -> HttpRequests.pieces_of mk d y.
Proof.
  intros H [->|(k & ds & E & ->)].
  - exists [d]. split; [done|]. cbn. by rewrite app_nil_r.
  - destruct (H _ _ E) as [<- ->]. by exists ds.
Qed.

Lemma pieces_fmap k mk ds : (forall d, span_events k d = [mk d]) -> pieces k ds = mk <$> ds.
Proof.
  intros H. induction ds as [|d ds IH]; [done|]. change (d :: ds) with ([d] ++ ds). rewrite pieces_app, IH. unfold pieces. cbn. by rewrite H.
Qed.

Ltac in_pieces := apply recut1_pieces; [|done]; intros [] e E; try discriminate E; injection E as ->; split; [done|]; intros ds; by apply pieces_fmap.

Lemma headers_recut hs y : recut (mjoin (header_callbacks <$> hs)) y -> HttpRequests.headers_trace hs y.
Proof.
  revert y. induction hs as [|[k v] hs IH]; intros y H.
  - apply recut_nil_inv in H as ->. constructor.
  - cbn [fmap list_fmap mjoin list_join header_callbacks app] in H. apply recut_cons_inv in H as (y1 & y2 & -> & H1 & H2).
    apply recut_cons_inv in H2 as (y3 & y4 & -> & H3 & H4). apply HttpRequests.ht_cons; [in_pieces|in_pieces|]. by apply IH.
Qed.

Ltac same_cb H := apply recut1_same in H as ->; [|by intros []].

Lemma chunks_recut bs y : recut (mjoin (chunk_callbacks <$> bs)) y -> HttpRequests.chunks_trace bs y.
Proof.
  revert y. induction bs as [|b bs IH]; intros y H.
  - apply recut_nil_inv in H as ->. constructor.
  - cbn [fmap list_fmap mjoin list_join chunk_callbacks app] in H. apply recut_cons_inv in H as (y1 & y2 & -> & H1 & H2).
    apply recut_cons_inv in H2 as (y3 & y4 & -> & H3 & H4). apply recut_cons_inv in H4 as (y5 & y6 & -> & H5 & H6). same_cb H1. same_cb H5.
    apply (HttpRequests.ct_cons b bs y3 y6); [in_pieces|]. by apply IH.
Qed.

Lemma payload_recut w y : recut (payload_callbacks w) y -> HttpRequests.payload_trace w y.
Proof.
  destruct w as [b|bs]; cbn [HttpRequests.payload_trace].
  - destruct b as [|c b]; intros H.
    + apply recut_nil_inv in H as ->. by exists [].
    + apply recut_one in H. in_pieces.
  - intros (y1 & y2 & -> & H1 & H2)%recut_app_inv. exists y1. split; [by apply chunks_recut|]. f_equal.
    apply recut_cons_inv in H2 as (y3 & y4 & -> & H3 & H4%recut_one). same_cb H3. by same_cb H4.
Qed.

Lemma message_recut w y : recut (callbacks w) y -> HttpRequests.message_trace (message_of w) y.
Proof.
  unfold callbacks. intros (y1 & y' & -> & H1 & (y2 & y'' & -> & H2 & (y3 & y''' & -> & H3%recut_one & (y4 & y5 & -> & H4 & H5%recut_one)%recut_app_inv)%recut_app_inv)%recut_app_inv)%recut_app_inv.
  apply recut_cons_inv in H1 as (u0 & u & -> & H0 & Hu%recut_one). same_cb H0. same_cb H3. same_cb H5.
  exists u, y2, y4. cbn [message_of HttpRequests.q_url HttpRequests.q_headers HttpRequests.q_payload HttpRequests.q_keep HttpRequests.q_method].
  split_and!; [in_pieces|by apply headers_recut|by apply payload_recut|by rewrite <- !app_assoc].
Qed.

Lemma messages_recut ws y : recut (mjoin (callbacks <$> ws)) y -> HttpRequests.messages_trace (message_of <$> ws) y.
Proof.
  revert y. induction ws as [|w ws IH]; intros y H.
  - apply recut_nil_inv in H as ->. constructor.
  - apply recut_app_inv in H as (y1 & y2 & -> & H1 & H2). apply HttpRequests.mt_cons; [by apply message_recut|by apply IH].
Qed.

(** ** Reads of the service *)

Lemma feed_parse_reads m ds : forall p cbs q,
  feed m p ds = (cbs, 0, q) -> HttpRequests.parse_reads (service_execute m) p ds = Some cbs.
Proof.
  induction ds as [|d ds IH]; intros p cbs q; cbn [feed HttpRequests.parse_reads]; [by intros [= <- _]|].
  destruct (service_execute m p d) as [[t e] p']. change HttpService.HPE_OK with 0. destruct (Z.eqb_spec e 0); [|by intros [= _ -> _]].
  destruct (feed m p' ds) as [[c e'] q'] eqn:E. intros [= <- -> ->]. by rewrite (IH _ _ _ E).
Qed.

Lemma wire_message_ok w : request_ok w -> HttpRequests.message_ok (message_of w).
Proof.
  intros (Hm & _ & Hh & Hp). split.
  - cbn. apply Forall_app_2.
    + eapply Forall_impl; [exact Hh|]. intros [k v] (_ & Hk & _ & _ & Hv). split; [done|]. cbn in *. by intros ->.
    + destruct (w_payload w) as [[|c b]|bs]; [constructor|..]; (constructor; [split; [done|]|constructor]); [|done].
      cbn [snd]. destruct (dec_text (Z.of_nat (length (c :: b)))) as (x & y & -> & _); [|done]. split; [lia|exact Hp].
  - cbn. destruct (w_payload w); [exact Hm|]. destruct Hp as [Hb Hl]. split; [|done]. eapply Forall_impl; [exact Hb|]. by intros b [Hb' _].
Qed.

Definition service_method_name (m : Z) : list Z := method_text m.

(** ** Property *)

(** C9: From the bytes of a connection to the requests of the service, with the
    parser of corelib/llhttp as it is written.  Let the bytes that arrive on a new
    connection be the text of the requests [ws] (GET or POST with a path, a query,
    any headers the parser does not interpret, and a body that is absent, has a
    Content-Length or is chunked), cut into reads [ds] in any way.  Then the
    service passes exactly the events of these requests, in order, each with a
    context of its own that has the url, the headers, the method and the whole
    body; no read fails. *)
Theorem http_bytes_delivered m S sock r ds ws :
  HttpService.requests (HttpService.core S) !! sock = None -> HttpRequests.fresh_from (HttpService.core S) -> r <> [] ->
  mjoin ds = mjoin (wire <$> ws) -> Forall request_ok ws ->
  exists cs S',
    (_ ← HttpService.on_Accepted service_init sock;
     HttpRequests.reads service_method_name service_init (service_execute m) sock r ds) S
    = (Ok tt, S', HttpRequests.passes r (mjoin (zip_with (HttpRequests.message_events sock) (message_of <$> ws) cs)))
    /\ NoDup cs
    /\ Forall2 (fun q c => exists x, HttpService.contexts (HttpService.core S') !! c = Some x
                                     /\ HttpRequests.context_of service_method_name q x) (message_of <$> ws) cs.
Proof.
  intros Hn Hf Hr Hds Hws. destruct (wire_parsed m ws Hws) as (t & p & Ex & Ht & Hc). rewrite <- Hds in Ex.
  pose proof (reads_recut m m service_init ds init_resting) as Hcut. rewrite Ex in Hcut.
  destruct (feed m service_init ds) as [[cbs e] q] eqn:Ef. destruct Hcut as (-> & _ & Hcq & Hrc).
  eapply HttpRequests.http_requests_delivered; [done|done|done|by eapply feed_parse_reads| |].
  - apply messages_recut. rewrite <- Ht. apply Hrc. by rewrite <- Hcq, Hc.
  - apply Forall_fmap. eapply Forall_impl; [exact Hws|]. apply wire_message_ok.
Qed.

Definition demo_requests : list wire_request :=
  [mkWire HttpService.HTTP_GET (lit "/index.html?a=1") [(lit "Host", lit "example.org"); (lit "Content-Type", lit "text/plain")] (HttpRequests.Plain []);
   mkWire HttpService.HTTP_POST (lit "/form") [] (HttpRequests.Plain (lit "x=1&y=2"));
   mkWire HttpService.HTTP_POST (lit "/upload") [] (HttpRequests.Chunks [lit "hello"; lit "world!"])].
Definition demo_stream : list Z := mjoin (wire <$> demo_requests).
Definition demo_cut : list (list Z) := [take 2 demo_stream; take 60 (drop 2 demo_stream); drop 62 demo_stream].

#[export] Instance value_ok_dec v : Decision (value_ok v).
Proof. unfold value_ok. destruct v; apply _. Defined.
#[export] Instance header_ok_dec kv : Decision (header_ok kv).
Proof. unfold header_ok. apply _. Defined.
#[export] Instance payload_ok_dec p : Decision (payload_ok p).
Proof. destruct p; unfold payload_ok, chunk_ok; apply _. Defined.

Lemma demo_requests_ok : Forall request_ok demo_requests.
Proof.
  repeat apply Forall_cons_2; [..|apply Forall_nil_2].
  all: split_and!; [by first [left; done|right; done]| |apply (bool_decide_eq_true_1 _); vm_compute; reflexivity..].
  - by exists (lit "index.html"), (Some (lit "a=1")); split_and!; [|apply (bool_decide_eq_true_1 _); vm_compute; reflexivity..].
  - by exists (lit "form"), None; split_and!; [|apply (bool_decide_eq_true_1 _); vm_compute; reflexivity|].
  - by exists (lit "upload"), None; split_and!; [|apply (bool_decide_eq_true_1 _); vm_compute; reflexivity|].
Qed.

Lemma http_bytes_delivered_witness :
  let r := [LOCALSERVICE 1] in
  let run := (_ ← HttpService.on_Accepted service_init 7;
              HttpRequests.reads service_method_name service_init (service_execute 0) 7 r demo_cut) in
  (run HttpRequests.demo_http).2
  = HttpRequests.passes r [httpEvent.RequestIncoming 1 7; httpEvent.RequestIncoming 3 7; httpEvent.RequestIncoming 4 7;
                           httpEvent.RequestChunkReceived 4 7 0 (Some (lit "hello"));
                           httpEvent.RequestChunkReceived 4 7 1 (Some (lit "world!")); httpEvent.RequestChunkingCompleted 4 7 2]
  /\ exists cs S',
    run HttpRequests.demo_http
    = (Ok tt, S', HttpRequests.passes r (mjoin (zip_with (HttpRequests.message_events 7) (message_of <$> demo_requests) cs)))
    /\ NoDup cs
    /\ Forall2 (fun q c => exists x, HttpService.contexts (HttpService.core S') !! c = Some x
                                     /\ HttpRequests.context_of service_method_name q x) (message_of <$> demo_requests) cs.
Proof.
  split; [vm_compute; reflexivity|].
  apply (http_bytes_delivered 0 HttpRequests.demo_http 7 [LOCALSERVICE 1] demo_cut demo_requests).
  - reflexivity.
  - intros p _. apply lookup_empty.
  - done.
  - vm_compute. reflexivity.
  - exact demo_requests_ok.
Defined.

(** ** The WebSocket handshake *)

(** The handshake of a client, as in RFC 6455, 1.2. *)
Definition handshake_headers : list (list Z * list Z) :=
  [(lit "Host", lit "server.example.com"); (lit "Upgrade", lit "websocket"); (lit "Connection", lit "Upgrade");
   (lit "Sec-WebSocket-Key", lit "dGhlIHNhbXBsZSBub25jZQ=="); (lit "Origin", lit "http://example.com");
   (lit "Sec-WebSocket-Protocol", lit "chat, superchat"); (lit "Sec-WebSocket-Version", lit "13")].
Definition handshake : list Z :=
  lit "GET /chat HTTP/1.1" ++ [13; 10] ++ mjoin (header_line <$> handshake_headers) ++ [13; 10].
Definition handshake_message : HttpRequests.message :=
  HttpRequests.mkMessage HttpService.HTTP_GET (lit "/chat") handshake_headers true (HttpRequests.Plain []).

Lemma headers_callbacks hs : HttpRequests.headers_trace hs (mjoin (header_callbacks <$> hs)).
Proof.
  induction hs as [|[k v] hs IH]; [constructor|]. rewrite join_cons. cbn [header_callbacks fst snd app].
  apply (HttpRequests.ht_cons k v hs [HttpService.on_header_field k] [HttpService.on_header_value v]); [exists [k]|exists [v]|done]; (split; [done|apply app_nil_r]).
Qed.

Lemma paused_execute m (p : parser_obj) d : error p <> 0 -> service_execute m p d = ([], error p, p).
Proof.
  intros H. unfold service_execute, llhttp_execute, llhttp__internal_execute. cbn [error set_data].
  destruct (Z.eqb_spec (error p) 0); [done|]. cbn [negb]. destruct p as [? ? ? ? ? ? []]. reflexivity.
Qed.

Lemma handshake_run : exists cbs p,
  service_execute 0 service_init handshake = (cbs, HPE_PAUSED_UPGRADE, p) /\ error p = HPE_PAUSED_UPGRADE
  /\ cbs.*1 = (HttpService.on_message_begin :: [HttpService.on_url (lit "/chat")] ++ mjoin (header_callbacks <$> handshake_headers))
              ++ [HttpService.on_headers_complete true true false HttpService.HTTP_GET] ++ [HttpService.on_message_complete].
Proof.
  exists (service_execute 0 service_init handshake).1.1, (service_execute 0 service_init handshake).2.
  split_and!; [apply injective_projections; [apply injective_projections|]; vm_compute; reflexivity|vm_compute; reflexivity..].
Qed.

(** The parser as it is written makes what [HttpRequests.websocket_upgrade_lost]
    assumes of it: the handshake is answered with 101, the read ends with an
    exception, and no later byte of the connection has any effect. *)
Lemma handshake_lost S sock r :
  HttpService.requests (HttpService.core S) !! sock = None -> HttpRequests.fresh_from (HttpService.core S) -> r <> [] ->
  exists c x S1,
    (_ ← HttpService.on_Accepted service_init sock;
     HttpService.on_StreamRead service_init (service_execute 0) service_method_name sock r handshake) S
    = (Throw (CommonError "Parse error"), S1,
       A_write sock (HttpService.switching (lit "dGhlIHNhbXBsZSBub25jZQ==")) :: HttpRequests.passes r [httpEvent.RequestIncoming c sock])
    /\ HttpService.contexts (HttpService.core S1) !! c = Some x /\ HttpService.isWebSocket x = true
    /\ forall ds, exists S2, HttpRequests.reads_caught service_init (service_execute 0) service_method_name sock r ds S1 = (Ok tt, S2, []).
Proof.
  intros Hn Hf Hr. destruct handshake_run as (cbs & p & E & Hp & Ht).
  apply (HttpRequests.websocket_upgrade_lost service_init (service_execute 0) service_method_name S sock r handshake cbs p handshake_message
    (lit "websocket") (lit "dGhlIHNhbXBsZSBub25jZQ==") Hn Hf Hr E).
  - exists [HttpService.on_url (lit "/chat")], (mjoin (header_callbacks <$> handshake_headers)).
    split; [exists [lit "/chat"]; split; reflexivity|]. split; [apply headers_callbacks|exact Ht].
  - intros d. rewrite paused_execute by (rewrite Hp; discriminate). rewrite Hp. reflexivity.
  - reflexivity.
  - repeat constructor; discriminate.
  - vm_compute. reflexivity.
  - vm_compute. reflexivity.
  - vm_compute. reflexivity.
Qed.
