(* ===== verification/HttpFraming.v ===== *)
(** * One framing per message

    A message with both a Content-Length and a chunked Transfer-Encoding has two
    lengths, and a proxy and a server that choose differently take different bytes
    for the next request.  The parser of corelib/llhttp refuses such messages: the
    invariant of its blocks that shows it, and the theorem for the HTTP service. *)

From Stdlib Require Import ZArith Lia.
From stdpp Require Import base gmap strings numbers list.
From S2P Require Import Prelude StdMap IoBuffer Codec Route CLib Sockaddr Events Service HexUri Config WebSocket Sha1 LlhttpNodes Llhttp LlhttpRun HttpParser.
From S2P Require HttpService HttpRequests.
Open Scope Z_scope.

(** ** Flags *)

Definition chunked (s : recorder) : bool := Z.testbit (flags s) 3.
Definition with_length (s : recorder) : bool := Z.testbit (flags s) 5.
Definition encoded (s : recorder) : bool := Z.testbit (flags s) 9.

Lemma both_flags f : Z.testbit f 5 = true -> Z.testbit f 9 = true -> Z.land f 544 = 544.
Proof.
  intros H5 H9. apply Z.bits_inj'. intros i Hi. rewrite Z.land_spec. destruct (Z.testbit 544 i) eqn:E; [|apply andb_false_r].
  assert (i < 10) as Hb by (destruct (Z.lt_ge_cases i 10); [done|]; rewrite (testbit_small 544 10 i) in E by lia; done).
  rewrite andb_true_r. assert (i = 5 \/ i = 9) as [-> | ->]; [|done..].
  assert (i = 0 \/ i = 1 \/ i = 2 \/ i = 3 \/ i = 4 \/ i = 5 \/ i = 6 \/ i = 7 \/ i = 8 \/ i = 9) as Hc by lia.
  destruct Hc as [-> |[-> |[-> |[-> |[-> |[-> |[-> |[-> |[-> | ->]]]]]]]]]; auto; discriminate E.
Qed.

(** ** Regions of the parser *)

(** Between the name of a header and the end of its value: where header_state is
    still to be looked at. *)
Definition live (l : llparse_state) : bool :=
  match l with
  | s_n_header_field_colon_discard_ws | s_n_header_value_discard_lws | s_n_header_value_discard_ws_almost_done
      | s_n_header_value_lws | s_n_header_value_almost_done | s_n_header_value_lenient |
      s_n_header_value_otherwise | s_n_header_value_connection_token | s_n_header_value_connection_ws |
      s_n_header_value_connection_1 | s_n_header_value_connection_2 | s_n_header_value_connection_3 |
      s_n_header_value_connection | s_n_header_value_content_length_ws | s_n_header_value_content_length |
      s_n_header_value | s_n_span_start_llhttp__on_header_value_1 | s_n_header_value_discard_ws |
      s_n_invoke_llhttp__on_header_field_complete | s_n_header_field_general_otherwise |
      s_n_header_field_general | s_n_header_field_colon | s_n_invoke_test_lenient_flags_2 |
      s_n_invoke_load_header_state_1 | s_n_invoke_load_header_state | s_n_invoke_load_header_state_3 |
      s_n_span_end_llhttp__on_header_value_1 | s_n_span_end_llhttp__on_header_value_2 |
      s_n_span_end_llhttp__on_header_value_3 | s_n_invoke_test_lenient_flags_3 | s_n_invoke_or_flags_14 |
      s_n_invoke_load_header_state_4 | s_n_invoke_mul_add_content_length_1 | s_n_invoke_or_flags_15 |
      s_n_invoke_test_flags_2 | s_n_invoke_load_header_state_2 | s_n_span_end_llhttp__on_header_field_1 |
      s_n_span_end_llhttp__on_header_field_2 => true
  | _ => false
  end.

(** Inside the value of a Transfer-Encoding, and where F_CHUNKED is set. *)
Definition te_label (l : llparse_state) : bool :=
  match l with
  | s_n_header_value_te_chunked_last | s_n_header_value_te_token_ows | s_n_header_value_te_token |
      s_n_header_value_te_chunked | s_n_invoke_update_header_state_7 | s_n_invoke_and_flags |
      s_n_invoke_or_flags_6 | s_n_invoke_or_flags_10 | s_n_invoke_or_flags_14 => true
  | _ => false
  end.

(** The headers are complete. *)
Definition framed (l : llparse_state) : bool :=
  match l with s_n_invoke_llhttp__before_headers_complete | s_n_invoke_llhttp__on_headers_complete => true | _ => false end.

Definition is_store (l : llparse_state) : bool := match l with s_n_invoke_store_header_state => true | _ => false end.

(** The blocks whose jump depends on what they have tested. *)
Definition tests (l : llparse_state) : bool :=
  match l with
  | s_n_invoke_test_flags_1 | s_n_invoke_test_lenient_flags_1 | s_n_invoke_load_header_state_1
  | s_n_invoke_load_header_state_3 | s_n_invoke_load_header_state_4 => true
  | _ => false
  end.

(** ** What the actions change *)

Definition new_flags (f : llparse_code) (v : Z) : Z :=
  match f with
  | k_or_flags => Z.lor v 128 | k_or_flags_1 => Z.lor v 64 | k_or_flags_3 => Z.lor v 1 | k_or_flags_4 => Z.lor v 2
  | k_or_flags_5 => Z.lor v 4 | k_or_flags_6 => Z.lor v 8 | k_or_flags_15 => Z.lor v 32 | k_or_flags_16 => Z.lor v 512
  | k_or_flags_17 => Z.lor v 16 | k_and_flags => wrapu 16 (Z.land v (-9)) | k_after_message_complete => 0
  | _ => v
  end.

Definition new_header_state (f : llparse_code) (m v : Z) : Z :=
  match f with
  | k_update_header_state => 1 | k_update_header_state_2 => 6 | k_update_header_state_4 => 0 | k_update_header_state_5 => 5
  | k_update_header_state_6 => 7 | k_update_header_state_7 => 8 | k_store_header_state => wrapu 8 m
  | _ => v
  end.

(** The callbacks of a trace, with the parser object they were called with. *)
Definition framing_ok (x : callback * parser_obj) : Prop :=
  match x.1 with
  | HttpService.on_headers_complete _ _ _ _ => has F_CHUNKED (flags x.2) && has F_CONTENT_LENGTH (flags x.2) = false
  | _ => True
  end.

Lemma call_effect f m (s : recorder) :
  let '(r, t) := call_r f m s in
  lenient_flags t = lenient_flags s /\ flags t = new_flags f (flags s) /\ header_state t = new_header_state f m (header_state s)
  /\ (Forall framing_ok (data s) ->
      (f = k_on_headers_complete -> has F_CHUNKED (flags s) && has F_CONTENT_LENGTH (flags s) = false) -> Forall framing_ok (data t)).
Proof.
  destruct s. destruct f; cbn -[mul_add has F_CHUNKED F_CONTENT_LENGTH].
  all: try (split_and!; try reflexivity; intros H _; exact H).
  all: try (destruct (has _ _ && has _ _); cbn; split_and!; try reflexivity; intros H _; exact H).
  all: try (unfold c_mul_add_content_length, c_mul_add_content_length_1, c_mul_add_status_code; cbn -[mul_add];
    destruct (mul_add _ _ _ _) as [r v]; cbn; split_and!; try reflexivity; intros H _; exact H).
  all: cbv [llhttp__on_message_complete llhttp__on_header_value_complete llhttp__on_header_field_complete llhttp__on_status_complete
    llhttp__on_chunk_complete llhttp__on_chunk_header llhttp__on_headers_complete llhttp__on_url_complete llhttp__on_message_begin
    CALLBACK_MAYBE]; cbn [Llhttp.settings]; destruct (settings =? 0); cbn -[has F_CHUNKED F_CONTENT_LENGTH].
  all: split_and!; try reflexivity; try (intros H _; exact H).
  all: intros H Hf; unfold keep_trace; cbn [Llhttp.data]; apply Forall_app; split; [exact H|]; constructor; [|constructor].
  all: first [exact I | exact (Hf eq_refl)].
Qed.

Lemma span_effect k (s : recorder) d :
  let '(r, t) := call_span_r k s d in
  lenient_flags t = lenient_flags s /\ flags t = flags s /\ header_state t = header_state s /\ (Forall framing_ok (data s) -> Forall framing_ok (data t)).
Proof.
  destruct k; cbv [call_span llhttp__on_url llhttp__on_header_field llhttp__on_header_value llhttp__on_body llhttp__on_status SPAN_CALLBACK_MAYBE];
    destruct (settings s =? 0); cbn; split_and!; try reflexivity; try done; intros H; apply Forall_app; split; try done; by constructor.
Qed.

(** ** The invariant *)

Record inv (l : llparse_state) (s : recorder) (m : Z) : Prop := {
  i_lenient : lenient_flags s = 0;
  i_chunked : chunked s = true -> encoded s = true;
  i_live : live l = true -> header_state s = 8 -> encoded s = true;
  i_te : te_label l = true -> encoded s = true;
  i_framed : framed l = true -> with_length s && encoded s = false;
  i_store : is_store l = true -> wrapu 8 m <> 8;
  i_trace : Forall framing_ok (data s)
}.

(** A jump of a block that leaves flags and header_state as they are. *)
Definition plain_jump (l : llparse_state) (e : edge) : bool :=
  match e with
  | Edge _ v t =>
    (negb (live t) || live l) && (negb (te_label t) || te_label l) && negb (framed t)
    && (negb (is_store t) || match v with Some v => negb (wrapu 8 v =? 8) | None => false end)
  end.

Lemma blocks_plain l :
  match node_of l with
  | Invoke _ _ _ => true
  | Switch _ cases otherwise | Lookup _ cases otherwise => forallb (plain_jump l) (otherwise :: (snd <$> cases))
  | Skip n | Consume n | SpanStart _ n => plain_jump l (Edge false None n)
  | Sequence _ _ e1 e2 => plain_jump l e1 && plain_jump l e2
  | SpanEnd _ e => plain_jump l e
  | _ => true
  end = true.
Proof. destruct l; vm_compute; reflexivity. Qed.

Definition is_reset (f : llparse_code) : bool := match f with k_after_message_complete => true | _ => false end.
Definition is_chunked_state (f : llparse_code) : bool := match f with k_update_header_state_7 => true | _ => false end.
Definition sets_header_state (f : llparse_code) : bool :=
  match f with
  | k_update_header_state | k_update_header_state_2 | k_update_header_state_4 | k_update_header_state_5 | k_update_header_state_6 | k_store_header_state => true
  | _ => false
  end.

(** A jump of a block that calls [f]. *)
Definition call_jump (l : llparse_state) (f : llparse_code) (t : llparse_state) : bool :=
  (negb (live t) || sets_header_state f || is_chunked_state f && te_label l
   || live l && negb (is_chunked_state f) && negb (is_reset f))
  && (negb (te_label t) || te_label l && negb (is_reset f) || match f with k_or_flags_16 => true | _ => false end)
  && (negb (framed t) || framed l && match f with k_before_headers_complete => true | _ => false end)
  && negb (is_store t).

Definition call_place (l : llparse_state) (f : llparse_code) : bool :=
  match f with
  | k_or_flags_6 => te_label l
  | k_on_headers_complete => framed l
  | k_store_header_state => is_store l
  | _ => true
  end.

Lemma blocks_call l :
  match node_of l with
  | Invoke f cases d => call_place l f && (tests l || forallb (call_jump l f) (d :: (snd <$> cases)))
  | _ => true
  end = true.
Proof. destruct l; vm_compute; reflexivity. Qed.

Lemma lor_keeps v c i : Z.testbit v i = true -> Z.testbit (Z.lor v c) i = true.
Proof. intros H. by rewrite Z.lor_spec, H. Qed.

Lemma encoded_kept f v : is_reset f = false -> Z.testbit v 9 = true -> Z.testbit (new_flags f v) 9 = true.
Proof.
  intros Hr Hv. destruct f; try discriminate Hr; cbn [new_flags]; try exact Hv; try (by apply lor_keeps).
  unfold wrapu. rewrite Z.mod_pow2_bits_low by lia. by rewrite Z.land_spec, Hv.
Qed.

Lemma chunked_set f v : Z.testbit (new_flags f v) 3 = true -> f = k_or_flags_6 \/ Z.testbit v 3 = true /\ is_reset f = false.
Proof.
  destruct f; cbn [new_flags]; try (by left); try (by right); intros H; right; (split; [|done]);
    try (rewrite Z.lor_spec in H; apply orb_true_iff in H as [H|H]; [done|discriminate H]); try done.
  unfold wrapu in H. rewrite Z.mod_pow2_bits_low in H by lia. rewrite Z.land_spec in H. by apply andb_true_iff in H as [H _].
Qed.

Lemma has_bit v k : 0 <= k -> has (2 ^ k) v = true -> Z.testbit v k = true.
Proof.
  intros Hk H. destruct (Z.testbit v k) eqn:E; [done|]. exfalso. unfold has in H. apply negb_true_iff, Z.eqb_neq in H. apply H.
  apply Z.bits_inj'. intros i Hi. rewrite Z.land_spec, Z.bits_0, Z.pow2_bits_eqb by lia. destruct (Z.eqb_spec k i) as [<-|]; [by rewrite E|apply andb_false_r].
Qed.

(** A chunked message without both headers has no Content-Length. *)
Lemma framing_of (s : recorder) : (chunked s = true -> encoded s = true) -> with_length s && encoded s = false ->
  has F_CHUNKED (flags s) && has F_CONTENT_LENGTH (flags s) = false.
Proof.
  intros Hc He. apply not_true_is_false. intros [H1 H2]%andb_true_iff.
  apply (has_bit _ 3) in H1; [|done]. apply (has_bit _ 5) in H2; [|done]. unfold with_length in He. rewrite H2, (Hc H1) in He. done.
Qed.

(** States that differ in what the invariant does not look at. *)
Definition looked_at (s : recorder) := (lenient_flags s, flags s, header_state s).

Lemma plain_inv l a v t (s s' : recorder) m :
  inv l s m -> plain_jump l (Edge a v t) = true -> looked_at s' = looked_at s -> Forall framing_ok (data s') -> inv t s' (default m v).
Proof.
  intros H Hj [= E1 E2 E3] Ht. unfold plain_jump in Hj. rewrite !andb_true_iff, !orb_true_iff, !negb_true_iff in Hj.
  destruct Hj as [[[Hl Hte] Hf] Hs]. destruct H as [I1 I2 I3 I4 I5 I6 I7]. unfold chunked, with_length, encoded in *. split; unfold chunked, with_length, encoded.
  - by rewrite E1.
  - by rewrite E2.
  - rewrite E2, E3. intros H. destruct Hl as [Hl|Hl]; [congruence|auto].
  - rewrite E2. intros H. destruct Hte as [Hl'|Hl']; [congruence|auto].
  - congruence.
  - intros H. destruct Hs as [Hs|Hs]; [congruence|]. destruct v as [v|]; [|done]. cbn. by apply negb_true_iff, Z.eqb_neq in Hs.
  - done.
Qed.

Lemma select_in {A} c (cases : list (list Z * A)) d : select c cases d ∈ d :: (snd <$> cases).
Proof.
  induction cases as [|[ks e] cases IH]; cbn [select fmap list_fmap]; [by left|]. destruct (existsb _ ks); [right; by left|].
  apply elem_of_cons in IH as [-> |IH]; [by left|]. by do 2 right.
Qed.

Lemma forallb_in {A} (f : A -> bool) l x : forallb f l = true -> x ∈ l -> f x = true.
Proof. intros H Hx. rewrite forallb_forall in H. by apply H, list_elem_of_In. Qed.

Lemma call_inv l f t (s s' : recorder) m :
  inv l s m -> call_jump l f t = true -> call_place l f = true ->
  lenient_flags s' = lenient_flags s -> flags s' = new_flags f (flags s) -> header_state s' = new_header_state f m (header_state s) ->
  Forall framing_ok (data s') -> inv t s' m.
Proof.
  intros [I1 I2 I3 I4 I5 I6 I7] Hj Hp E1 E2 E3 Ht. unfold call_jump in Hj. rewrite !andb_true_iff, !orb_true_iff, !negb_true_iff in Hj.
  destruct Hj as [[[Hl Hte] Hf] Hs]. unfold chunked, with_length, encoded in *. split; unfold chunked, with_length, encoded; rewrite ?E2, ?E3.
  - by rewrite E1.
  - intros H. destruct (chunked_set f _ H) as [-> |[H3 Hr]]; [|by apply encoded_kept; auto]. apply encoded_kept; auto.
  - intros H H8. destruct Hl as [[[Hl|Hl]|Hl]|Hl]; [congruence| | |].
    + exfalso. destruct f; try discriminate Hl; try discriminate H8. by apply (I6 Hp).
    + apply andb_true_iff in Hl as [Hl Hl']. apply encoded_kept; [by destruct f|auto].
    + rewrite !andb_true_iff, !negb_true_iff in Hl. destruct Hl as [[Hl Hc] Hr]. apply encoded_kept; [done|].
      apply I3; [done|]. destruct f; try done; try discriminate H8. by destruct (I6 Hp).
  - intros H. destruct Hte as [[Hte|Hte]|Hte]; [congruence| |].
    + apply andb_true_iff in Hte as [Hte Hr]. apply negb_true_iff in Hr. by apply encoded_kept; auto.
    + destruct f; try discriminate Hte. cbn [new_flags]. by rewrite Z.lor_spec, orb_true_r.
  - intros H. destruct Hf as [Hf|Hf]; [congruence|]. apply andb_true_iff in Hf as [Hf Hb]. destruct f; try discriminate Hb. auto.
  - congruence.
  - done.
Qed.

(** The blocks that test: the header_state 8 is that of a Transfer-Encoding, and
    a message with both headers is an error. *)
Lemma test_inv l f cases d (s : recorder) m :
  tests l = true -> node_of l = Invoke f cases d -> inv l s m ->
  let '(r, t) := call_r f m s in t = s /\ inv (select r cases d) s m.
Proof.
  intros Hl En [I1 I2 I3 I4 I5 I6 I7].
  assert (forall t, live t = false -> te_label t = false -> framed t = false -> is_store t = false -> inv t s m) as Hplain
    by (intros t H1 H2 H3 H4; split; try done; congruence).
  assert (forall c1 c2 c3 c8 d, live l = true -> te_label c8 = true -> framed c8 = false -> is_store c8 = false ->
    forallb (fun t => negb (te_label t) && negb (framed t) && negb (is_store t)) [c1; c2; c3; d] = true ->
    inv (select (header_state s) [([5], c1); ([6], c2); ([7], c3); ([8], c8)] d) s m) as Hload.
  { intros c1 c2 c3 c8 d' Hl' H8 Hf8 Hs8 Hc. destruct (Z.eq_dec (header_state s) 8) as [E8|E8].
    - rewrite E8. cbn. split; try done; [intros _|..]; try congruence; auto.
    - assert (select (header_state s) [([5], c1); ([6], c2); ([7], c3); ([8], c8)] d' ∈ [c1; c2; c3; d']) as Hin.
      { cbn [select existsb]. rewrite !orb_false_r. destruct (Z.eqb_spec (header_state s) 8); [done|]. repeat case_match; set_solver. }
      pose proof (forallb_in _ _ _ Hc Hin) as Ht. cbn beta in Ht. rewrite !andb_true_iff, !negb_true_iff in Ht. destruct Ht as [[Ht1 Ht2] Ht3].
      split; try done; congruence. }
  destruct l; try discriminate Hl; injection En as <- <- <-; (split; [reflexivity|]).
  - (* test_lenient_flags_1 *) cbn [call c_test_lenient_flags_1]. rewrite I1. by apply Hplain.
  - (* test_flags_1 *) destruct (Z.eqb_spec (Z.land (flags s) 544) 544) as [E|E]; [by apply Hplain|].
    assert (with_length s && encoded s = false).
    { apply not_true_is_false. intros [H1 H2]%andb_true_iff. by apply E, both_flags. }
    split; try done.
  - by apply Hload.
  - by apply Hload.
  - by apply Hload.
Qed.

Lemma step_inv l (s : recorder) m p :
  inv l s m ->
  match step_r l s m p with
  | Goto l' s' m' _ => inv l' s' m'
  | Return l' s' => Forall framing_ok (data s') /\ (is_error l' = false -> l' = l /\ looked_at s' = looked_at s)
  | Abort_ => True
  end.
Proof.
  intros H. pose proof (blocks_plain l) as Hp. pose proof (blocks_call l) as Hc. pose proof (i_trace _ _ _ H) as Ht. unfold step.
  destruct (node_of l) as [how cases d|tb cases d|n|how blob e1 e2|n|cb n|cb e|f cases d|co r cur|] eqn:En.
  1, 2: destruct p as [|c p]; [done|];
    match goal with |- context [select ?x ?cs ?o] => pose proof (forallb_in _ _ _ Hp (select_in x cs o)) as Hj; destruct (select x cs o) as [a v t] end;
    by apply (plain_inv l a v t s).
  - destruct p as [|c p]; [done|]. by apply (plain_inv l false None n s).
  - apply andb_true_iff in Hp as [H1 H2]. destruct p as [|c p]; [done|]. destruct (match_sequence _ _ _ _) as [[[] i] q].
    + destruct e1 as [a v t]. by apply (plain_inv l a v t s).
    + done.
    + destruct e2 as [a v t]. by apply (plain_inv l a v t s).
  - destruct (_ >=? _); [|done]. by apply (plain_inv l false None n s).
  - destruct p as [|c p]; [done|]. by apply (plain_inv l false None n s).
  - destruct e as [a v t].
    pose proof (span_effect cb (set_span_pos0 None s) (span_text (default p (_span_pos0 s)) p)) as Hs.
    destruct (call_span_r _ _ _) as [err s1]. destruct Hs as (E1 & E2 & E3 & Hd). specialize (Hd Ht). destruct (negb (err =? 0)); [done|].
    apply (plain_inv l a v t s); try done. unfold looked_at. by rewrite E1, E2, E3.
  - apply andb_true_iff in Hc as [Hpl Hc]. destruct (tests l) eqn:Etl.
    + pose proof (test_inv l f cases d s m Etl En H) as Hi. destruct (call_r f m s) as [r t]. destruct Hi as [-> Hi]. exact Hi.
    + cbn [orb] in Hc. pose proof (call_effect f m s) as Hce. destruct (call_r f m s) as [r t]. destruct Hce as (E1 & E2 & E3 & Hd).
      apply (call_inv l f _ s); try done; [by apply (forallb_in _ _ _ Hc), select_in|].
      apply Hd; [done|]. intros ->. apply framing_of; [apply H|]. by apply (i_framed _ _ _ H).
  - done.
  - done.
Qed.

Lemma ends_inv l (s : recorder) m p l' t :
  ends_r l s m p l' t -> inv l s m ->
  Forall framing_ok (data t) /\ (is_error l' = false -> exists m', inv l' t m').
Proof.
  induction 1 as [l s m p l' t E|l s m p l1 s1 m1 p1 l' t E H IH]; intros Hi; pose proof (step_inv l s m p Hi) as Hs; rewrite E in Hs; [|auto].
  destruct Hs as [Ht Hl]. split; [done|]. intros He. destruct (Hl He) as [-> [= E1 E2 E3]]. exists m. destruct Hi as [I1 I2 I3 I4 I5 I6 I7].
  unfold chunked, with_length, encoded in *. split; unfold chunked, with_length, encoded; rewrite ?E1, ?E2, ?E3; done.
Qed.

(** ** Reads *)

Lemma inv_fields l (s s' : recorder) m m' :
  inv l s m -> looked_at s' = looked_at s -> uses_match l = false -> Forall framing_ok (data s') -> inv l s' m'.
Proof.
  intros [I1 I2 I3 I4 I5 I6 I7] [= E1 E2 E3] Hu Ht. unfold chunked, with_length, encoded in *.
  split; unfold chunked, with_length, encoded; rewrite ?E1, ?E2, ?E3; try done. by destruct l.
Qed.

(** A parser object between two reads, or after an error. *)
Definition ready (p : parser_obj) : Prop :=
  error p <> 0 \/ is_error (_current p) = false /\ forall m, inv (_current p) (set_data [] p) m.

Lemma epilogue_ready l (t : recorder) :
  Forall framing_ok (data t) -> (is_error l = true -> error t <> 0) ->
  (is_error l = false -> uses_match l = false /\ exists m, inv l t m) ->
  Forall framing_ok (data (epilogue l t).2) /\ ready (set_data tt (epilogue l t).2).
Proof.
  intros Ht He Hi. unfold epilogue. destruct (is_error l) eqn:El; [split; [done|by left; apply He]|]. destruct (Hi eq_refl) as [Hu [m Hm]].
  assert (forall s3 : recorder, looked_at s3 = looked_at t -> _current s3 = l -> ready (set_data tt s3)) as Hr.
  { intros s3 E Ec. right. cbn [_current set_data]. rewrite Ec. split; [done|]. intros m'. by apply (inv_fields l t _ m m'). }
  cbv zeta. assert (looked_at (set_current l t) = looked_at t) as Es by done.
  destruct (_span_pos0 (set_current l t)) as [start|]; [|split; [done|by apply Hr]].
  destruct (_span_cb0 (set_current l t)) as [cb|]; [|split; [done|by apply Hr]].
  pose proof (span_effect cb (set_current l t) start) as Hs.
  assert (_current (call_span_r cb (set_current l t) start).2 = l) as Hcur.
  { destruct cb; cbv [call_span llhttp__on_url llhttp__on_header_field llhttp__on_header_value llhttp__on_body llhttp__on_status SPAN_CALLBACK_MAYBE];
      by destruct (settings _ =? 0). }
  destruct (call_span_r cb (set_current l t) start) as [err s3]. destruct Hs as (E1 & E2 & E3 & Hd). specialize (Hd Ht).
  destruct (Z.eqb_spec err 0) as [|Hne]; cbn [negb fst snd].
  - split; [done|]. apply Hr; [|done]. unfold looked_at. by rewrite E1, E2, E3.
  - split; [done|]. left. exact Hne.
Qed.

Lemma execute_ready m p d : ready p ->
  let '(t, _, q) := service_execute m p d in Forall framing_ok t /\ ready q.
Proof.
  intros [He|[Hl Hi]].
  - unfold service_execute, llhttp_execute, llhttp__internal_execute. cbn [error set_data]. destruct (Z.eqb_spec (error p) 0); [done|].
    cbn. split; [constructor|]. by left.
  - destruct (Z.eq_dec (error p) 0) as [He|He].
    2:{ unfold service_execute, llhttp_execute, llhttp__internal_execute. cbn [error set_data]. destruct (Z.eqb_spec (error p) 0); [done|].
        cbn. split; [constructor|]. by left. }
    destruct (execute_ends m p d He Hl) as (l & t & Hends & ->).
    assert (inv (_current p) (restart (set_data [] p) d) m) as Hi0.
    { specialize (Hi m). destruct Hi as [I1 I2 I3 I4 I5 I6 I7]. unfold restart. by destruct (_span_pos0 _). }
    destruct (ends_inv _ _ _ _ _ _ Hends Hi0) as [Ht Hinv]. apply epilogue_ready; [done| |].
    + intros El. assert (l = s_error) as -> by (by destruct l). by eapply ends_error.
    + intros El. split; [|by apply Hinv]. eapply (stays_kind settings_at l t El). by eapply ends_stays.
Qed.

(** The callbacks of all reads, with the parser object each was called with. *)
Fixpoint session (m : Z) (p : parser_obj) (ds : list (list Z)) : trace :=
  match ds with
  | [] => []
  | d :: ds' => let '(t, _, q) := service_execute m p d in t ++ session m q ds'
  end.

Lemma init_ready : ready service_init.
Proof. right. split; [done|]. intros m. by split. Qed.

Lemma session_framing m ds : forall p, ready p -> Forall framing_ok (session m p ds).
Proof.
  induction ds as [|d ds IH]; intros p Hp; [constructor|]. cbn [session]. pose proof (execute_ready m p d Hp) as H.
  destruct (service_execute m p d) as [[t e] q]. destruct H as [Ht Hq]. apply Forall_app. auto.
Qed.

(** ** Property *)

(** C11: A message has one length.  Whatever bytes a client sends, and however they
    are cut into reads, each time the parser tells the HTTP service that the headers
    of a message are complete, that message is not both chunked and of a given
    Content-Length: the service and whatever stands before it cannot take different
    bytes for the end of a request. *)
Theorem request_framing_unambiguous m ds :
  Forall (fun x : callback * parser_obj =>
            match x.1 with
            | HttpService.on_headers_complete _ _ _ _ => has F_CHUNKED (flags x.2) && has F_CONTENT_LENGTH (flags x.2) = false
            | _ => True
            end) (session m service_init ds).
Proof. apply session_framing, init_ready. Qed.

(** What is refused: both headers, in either order, and two Content-Lengths. *)
Definition head_of (hs : list string) : list Z :=
  lit "POST / HTTP/1.1" ++ [13; 10] ++ mjoin ((fun h => lit h ++ [13; 10]) <$> hs) ++ [13; 10].

Lemma both_lengths_refused :
  (service_execute 0 service_init (head_of ["Content-Length: 5"; "Transfer-Encoding: chunked"]%string)).1.2 = HPE_UNEXPECTED_CONTENT_LENGTH
  /\ (service_execute 0 service_init (head_of ["Transfer-Encoding: chunked"; "Content-Length: 5"]%string)).1.2 = HPE_UNEXPECTED_CONTENT_LENGTH
  /\ (service_execute 0 service_init (head_of ["Content-Length: 5"; "Content-Length: 6"]%string)).1.2 = HPE_UNEXPECTED_CONTENT_LENGTH
  /\ (service_execute 0 service_init (head_of ["Transfer-Encoding: chunked"]%string)).1.2 = HPE_OK.
Proof. vm_compute. split_and!; reflexivity. Qed.
