(* ===== verification/WsClient.v ===== *)
(** The WebSocket client: modules/webSocketClient/webSocketClientService.*, against
    the frames of the server ([WebSocket]) and its answer to a handshake
    ([HttpService]).

    [socks] are the sockets by their address; the socket service appends what
    arrives to [inBuffer_] and sends [StreamRead].  The buffer is a [std::string]:
    its terminator may be read, what lies behind it may not ([rd]). *)

From Stdlib Require Import ZArith Lia.
From stdpp Require Import base gmap strings numbers list.
From S2P Require Import Prelude StdMap IoBuffer Codec Route CLib Text Url Sockaddr Events SocketInfo Service WebSocket Sha1 HttpService.
Open Scope Z_scope.

(** [struct state]; [url_original] is never used. *)
Record state : Type := mkState { awaiting_handshake : bool; url : Url }.

Record Wsc : Type := mkWsc {
  states : list (SOCKET_id * state);          (* std::map<SOCKET_id, REF_getter<state>> *)
  socks : gmap ptr epoll_socket_info;
}.

Definition set_states (m : list (SOCKET_id * state)) (s : Wsc) : Wsc := mkWsc m (socks s).
Definition set_sock (esi : ptr) (x : epoll_socket_info) (s : Wsc) : Wsc := mkWsc (states s) (<[esi := x]> (socks s)).

(** [e->esi->...]. *)
Definition the_sock (esi : ptr) : M Wsc epoll_socket_info :=
  x ← gets (fun s => socks s !! esi);
  match x with Some x => mret x | None => throw (UB "e->esi on a null reference") end.

(** [states.find(id)]. *)
Definition the_state (id : SOCKET_id) : M Wsc state :=
  x ← gets (fun s => map_find Z.ltb id (states s));
  match x with Some x => mret x | None => throw (CommonError "if(it==states.end())") end.

Definition set_state (id : SOCKET_id) (st : state) : M Wsc unit := modify (fun s => set_states (map_update Z.ltb id st (fun _ => st) (states s)) s).

(** ** Connecting *)

Section Connect.
Context (inet_pton6 : list Z -> option (list Z)) (getAddrInfo : list Z -> res (list (list Z) * list (list Z))) (inet_addr : list Z -> Z).

(** The scheme decides on TLS and the port. *)
Definition scheme_port (scheme : list Z) : res (bool * Z) :=
  let sc := match scheme with [] => lit "ws" | _ => scheme end in
  if bool_decide (sc = lit "ws") then Ok (false, 80)
  else if bool_decide (sc = lit "wss") then Ok (true, 443)
  else Throw (CommonError "invalid scheme").

(** An entry that is there is kept; [st] is then only the local reference. *)
Definition Connect (socketId : SOCKET_id) (url_ socketDescription : list Z) (route : route_t) : M Wsc bool :=
  known ← gets (fun s => map_find Z.ltb socketId (states s));
  let store u := match known with Some _ => mret tt | None => set_state socketId (mkState false u) end in
  _ ← store (url_of url_);
  u ← lift (lazy_parse (url_of url_));
  _ ← store u;
  '(ssl, iport) ← lift (scheme_port (m_scheme u));
  let iport := match m_port u with [] => iport | p => atoi (c_str p) end in
  sa ← lift (init_host inet_pton6 getAddrInfo inet_addr (m_host u) (cast U16 iport));
  _ ← emit (A_send ServiceEnum.Socket (mkEvent (Esocket (socketEvent.AddToConnectTCP socketId sa socketDescription (mkSECURE ssl [] []))) route));
  mret true.

(** ** Sending *)

Definition send_frame (msg : list Z) : res (list Z) :=
  let size := Z.of_nat (length msg) in
  if size <=? 125 then Ok ([0x81] ++ [size] ++ msg)
  else if size <=? 65535 then Ok ([0x81] ++ [126; Z.land (Z.shiftr size 8) 0xFF; Z.land size 0xFF] ++ msg)
  else Throw (RuntimeError "message too large").

Definition Send (esi : ptr) (msg : list Z) : M Wsc bool :=
  frame ← lift (send_frame msg);
  _ ← the_sock esi;
  _ ← emit (A_write esi frame);
  mret true.

(** ** The handshake *)

Definition crlf : list Z := [13; 10].

(** The request: path and host of the URL, port 80 if it has none. *)
Definition handshake_request (u : Url) : list Z :=
  lit "GET " ++ m_path u ++ lit " HTTP/1.1" ++ crlf
  ++ lit "Host: " ++ (m_host u ++ lit ":" ++ match m_port u with [] => lit "80" | p => p end) ++ crlf
  ++ lit "Upgrade: websocket" ++ crlf ++ lit "Connection: Upgrade" ++ crlf
  ++ lit "Sec-WebSocket-Key: " ++ lit "dGhlIHNhbXBsZSBub25jZQ==" ++ crlf
  ++ lit "Sec-WebSocket-Version: 13" ++ crlf ++ crlf.

Definition Connected (esi : ptr) : M Wsc bool :=
  x ← the_sock esi;
  st ← the_state (id_ x);
  u ← lift (lazy_parse (url st));
  _ ← set_state (id_ x) (mkState (awaiting_handshake st) u);
  _ ← emit (A_write esi (handshake_request u));
  _ ← set_state (id_ x) (mkState true u);
  mret true.

Definition pass_wsc (e : webSocketClientEvent.t) (r : route_t) : M Wsc unit := passEvent_ (mkEvent (Ewsc e) r).

(** ** Reading *)

(** The text up to the empty line, and what is left in the buffer. *)
Definition take_head (data : list Z) : list Z * list Z :=
  match find_sub (crlf ++ crlf) data with
  | Some (head, rest) => (head, rest)
  | None => ([], data)
  end.

Definition contains (needle s : list Z) : bool := match find_sub needle s with Some _ => true | None => false end.

(** The message at the front of the buffer, if it is a text frame; [substr] throws
    when it starts behind the end. *)
Definition take_frame (buffer : list Z) : res (list Z * list Z) :=
  b0 ← rd buffer 0;
  if Z.land b0 0x0F =? 0x01 then
    b1 ← rd buffer 1;
    let payload_length := Z.land b1 0x7F in
    msg ← rd_bytes (Z.to_nat payload_length) buffer 2;
    if Z.of_nat (length buffer) <? 2 + payload_length then Throw (RuntimeError "basic_string::substr")
    else Ok (msg, drop (Z.to_nat (2 + payload_length)) buffer)
  else Ok ([], buffer).

Definition StreamRead (esi : ptr) (r : route_t) : M Wsc bool :=
  x ← the_sock esi;
  st ← the_state (id_ x);
  if awaiting_handshake st then
    let '(head, rest) := take_head (inBuffer_ x) in
    _ ← modify (set_sock esi (set_in x rest));
    if contains (lit "Connection: Upgrade") head then
      _ ← set_state (id_ x) (mkState false (url st));
      _ ← pass_wsc (webSocketClientEvent.Connected esi) r;
      mret true
    else mret true
  else
    '(msg, rest) ← lift (take_frame (inBuffer_ x));
    _ ← modify (set_sock esi (set_in x rest));
    _ ← pass_wsc (webSocketClientEvent.Received esi msg) r;
    mret true.

Definition ConnectFailed (esi : ptr) (r : route_t) : M Wsc bool := _ ← pass_wsc (webSocketClientEvent.ConnectFailed esi) r; mret true.
Definition Disconnected (esi : ptr) (r : route_t) : M Wsc bool := _ ← pass_wsc (webSocketClientEvent.Disconnected esi) r; mret true.
Definition NotifyOutBufferEmpty : M Wsc bool := mret true.
Definition on_startService : M Wsc bool := mret true.

Definition wsc_handleEvent (e : Event) : M Wsc bool :=
  match ev_body e with
  | Esystem systemEvent.startService => on_startService
  | Ewsc (webSocketClientEvent.Connect sid u d) => Connect sid u d (ev_route e)
  | Ewsc (webSocketClientEvent.Send esi msg) => Send esi msg
  | Esocket (socketEvent.Connected esi) => Connected esi
  | Esocket (socketEvent.ConnectFailed esi _ _) => ConnectFailed esi (ev_route e)
  | Esocket (socketEvent.Disconnected esi _) => Disconnected esi (ev_route e)
  | Esocket (socketEvent.NotifyOutBufferEmpty _) => NotifyOutBufferEmpty
  | Esocket (socketEvent.StreamRead esi) => StreamRead esi (ev_route e)
  | _ => mret false
  end.

(** What the socket service does when bytes arrive: they are appended, and the
    client is told. *)
Definition arrive (esi : ptr) (r : route_t) (d : list Z) : M Wsc bool :=
  x ← the_sock esi;
  _ ← modify (set_sock esi (in_append x d));
  wsc_handleEvent (mkEvent (Esocket (socketEvent.StreamRead esi)) r).
End Connect.

(** ** Frames *)

Lemma send_frame_make msg :
  Z.of_nat (length msg) <= 65535 -> send_frame msg = Ok (WebSocket_makeFrame TEXT_FRAME msg).
Proof.
  intros H. unfold send_frame, WebSocket_makeFrame. cbv zeta. destruct (Z.leb_spec (Z.of_nat (length msg)) 125); [done|].
  destruct (Z.leb_spec (Z.of_nat (length msg)) 65535); [|lia]. unfold byte_of. by rewrite Z.shiftr_0_r.
Qed.

Lemma land7F n : 0 <= n < 128 -> Z.land n 0x7F = n.
Proof. intros. change 0x7F with (Z.ones 7). rewrite Z.land_ones by lia. by apply Z.mod_small. Qed.

(** The client's reader on a text frame with a length byte [n]. *)
Lemma take_frame_text n m rest :
  0 <= n < 128 -> length m = Z.to_nat n -> take_frame (0x81 :: n :: m ++ rest) = Ok (m, rest).
Proof.
  intros Hn Hm. unfold take_frame. rewrite (rd_at _ 0 0x81) by done. rewrite res_bind_ok. cbn [Z.land Pos.land Z.eqb Pos.eqb].
  rewrite (rd_at _ 1 n) by done. rewrite res_bind_ok, land7F by done. rewrite <-Hm.
  pose proof (rd_bytes_mid m [0x81; n] rest) as E. cbn [app length] in E. change (Z.of_nat 2) with 2 in E. rewrite E, res_bind_ok.
  destruct (Z.ltb_spec (Z.of_nat (length (0x81 :: n :: m ++ rest))) (2 + n)); [cbn [length] in *; rewrite length_app in *; lia|].
  do 2 f_equal. replace (Z.to_nat (2 + n)) with (S (S (length m))) by lia. cbn [drop]. by rewrite drop_app_length.
Qed.

Lemma take_frame_short msg rest :
  Z.of_nat (length msg) <= 125 -> take_frame (WebSocket_makeFrame TEXT_FRAME msg ++ rest) = Ok (msg, rest).
Proof.
  intros H. unfold WebSocket_makeFrame. cbv zeta. destruct (Z.leb_spec (Z.of_nat (length msg)) 125); [|lia].
  change (([cast U8 TEXT_FRAME] ++ [Z.of_nat (length msg)] ++ msg) ++ rest) with (0x81 :: Z.of_nat (length msg) :: msg ++ rest).
  apply take_frame_text; lia.
Qed.

(** between the client and the server of modules/http, messages of 65535 bytes
    at most are read by the server as the client sent them, and messages of 125
    bytes at most by the client as the server sent them, whatever follows the frame;
    longer messages [Send] refuses. *)
Lemma wsc_frames_roundtrip (msg rest : list Z) :
  (Z.of_nat (length msg) <= 65535 -> exists f b, send_frame msg = Ok f /\ WebSocket_getFrame f = Ok (TEXT_FRAME, msg, b))
  /\ (Z.of_nat (length msg) <= 125 -> take_frame (WebSocket_makeFrame TEXT_FRAME msg ++ rest) = Ok (msg, rest))
  /\ (65535 < Z.of_nat (length msg) -> send_frame msg = Throw (RuntimeError "message too large")).
Proof.
  split_and!.
  - intros H. destruct (proj2 (frame_roundtrip [0; 0; 0; 0] msg eq_refl ltac:(unfold frame_max; lia))) as [b Hb].
    exists (WebSocket_makeFrame TEXT_FRAME msg), b. split; [by apply send_frame_make|done].
  - apply take_frame_short.
  - intros H. unfold send_frame. cbv zeta. destruct (Z.leb_spec (Z.of_nat (length msg)) 125); [lia|].
    destruct (Z.leb_spec (Z.of_nat (length msg)) 65535); [lia|done].
Qed.

(** a server message of 126 to 65535 bytes is misread.  The client takes the
    length byte 126 for the length: the message it passes is the two bytes of the
    real length and the first 124 bytes, and the other bytes are left to be read as
    the next frame. *)
Lemma wsc_long_message_misread (msg rest : list Z) :
  126 <= Z.of_nat (length msg) <= 65535 ->
  take_frame (WebSocket_makeFrame TEXT_FRAME msg ++ rest)
  = Ok ([byte_of (Z.of_nat (length msg)) 1; byte_of (Z.of_nat (length msg)) 0] ++ take 124 msg, drop 124 msg ++ rest).
Proof.
  intros H. unfold WebSocket_makeFrame. cbv zeta. destruct (Z.leb_spec (Z.of_nat (length msg)) 125); [lia|].
  destruct (Z.leb_spec (Z.of_nat (length msg)) 65535); [|lia]. set (hi := byte_of _ 1). set (lo := byte_of _ 0).
  replace (([cast U8 TEXT_FRAME] ++ [126; hi; lo] ++ msg) ++ rest) with (0x81 :: 126 :: (hi :: lo :: take 124 msg) ++ (drop 124 msg ++ rest)).
  - apply (take_frame_text 126 (hi :: lo :: take 124 msg)); [lia|]. change (S (S (length (take 124 msg))) = 126%nat). rewrite length_take. lia.
  - cbn [app]. rewrite (app_assoc (take 124 msg)), take_drop. done.
Qed.

Lemma wsc_long_message_misread_witness :
  take_frame (WebSocket_makeFrame TEXT_FRAME (repeat 7 126) ++ []) = Ok ([0; 126] ++ repeat 7 124, [7; 7]).
Proof. apply (wsc_long_message_misread (repeat 7 126) []). rewrite repeat_length. lia. Defined.

Lemma wsc_frames_roundtrip_witness :
  (exists f b, send_frame (repeat 7 200) = Ok f /\ WebSocket_getFrame f = Ok (TEXT_FRAME, repeat 7 200, b))
  /\ take_frame (WebSocket_makeFrame TEXT_FRAME (lit "hi") ++ [1; 2]) = Ok (lit "hi", [1; 2]).
Proof. split; [apply (wsc_frames_roundtrip (repeat 7 200) []) | apply (wsc_frames_roundtrip (lit "hi") [1; 2])]; by vm_compute. Defined.

(** ** The search for the empty line *)

Lemma find_sub_app d s e u v : find_sub d s = Some (u, v) -> find_sub d (s ++ e) = Some (u, v ++ e).
Proof.
  revert u v. induction s as [|c s IH]; intros u v.
  - cbn [find_sub]. case_bool_decide as E; [|done]. intros [= <- <-]. rewrite take_nil in E. subst d. cbn [length drop app].
    destruct e; done.
  - cbn [find_sub app]. case_bool_decide as E.
    + intros [= <- <-]. rewrite bool_decide_true.
      * assert (length d <= length (c :: s))%nat by (rewrite <-E at 1; rewrite length_take; lia).
        change (c :: s ++ e) with ((c :: s) ++ e). by rewrite drop_app_le.
      * assert (length d <= length (c :: s))%nat by (rewrite <-E at 1; rewrite length_take; lia).
        change (c :: s ++ e) with ((c :: s) ++ e). by rewrite take_app_le.
    + destruct (find_sub d s) as [[u' v']|] eqn:F; [|done]. intros [= <- <-]. specialize (IH u' v' eq_refl).
      rewrite IH. rewrite bool_decide_false; [done|]. intros E'. apply E.
      assert (length d <= length (c :: s))%nat.
      { clear -F. revert u' v' F. induction s as [|x s IH]; intros u v; cbn [find_sub].
        - case_bool_decide as E; [|done]. rewrite take_nil in E. subst d. cbn. lia.
        - case_bool_decide as E.
          + intros _. rewrite <-E. rewrite length_take. cbn. lia.
          + destruct (find_sub d s) as [[u' v']|]; [|done]. intros _. specialize (IH _ _ eq_refl). cbn in *. lia. }
      change (c :: s ++ e) with ((c :: s) ++ e) in E'. by rewrite take_app_le in E'.
Qed.

(** A text that ends at the first occurrence has none in its proper prefixes. *)
Lemma find_sub_prefix d s e u : find_sub d (s ++ e) = Some (u, []) -> e <> [] -> find_sub d s = None.
Proof.
  intros H He. destruct (find_sub d s) as [[u' v']|] eqn:E; [|done]. apply (find_sub_app _ _ e) in E. rewrite E in H.
  injection H as _ H. by apply app_eq_nil in H as [_ ?].
Qed.

Definition no_cr (s : list Z) : Prop := Forall (fun c => c <> 13) s.

Lemma find_crlf_skip s t u v : no_cr s -> find_sub (crlf ++ crlf) t = Some (u, v) -> find_sub (crlf ++ crlf) (s ++ t) = Some (s ++ u, v).
Proof.
  intros Hs Ht. induction Hs as [|c s Hc Hs IH]; [done|]. cbn [app find_sub]. rewrite IH.
  rewrite bool_decide_false; [done|]. unfold crlf. cbn. intros [= ? _]. done.
Qed.

(** A line ended by CR LF that another character follows. *)
Lemma find_crlf_line s c t u v :
  no_cr s -> c <> 13 -> find_sub (crlf ++ crlf) (c :: t) = Some (u, v) ->
  find_sub (crlf ++ crlf) (s ++ crlf ++ c :: t) = Some (s ++ crlf ++ u, v).
Proof.
  intros Hs Hc Ht. apply find_crlf_skip; [done|]. unfold crlf in *. cbn [app] in *. cbn [find_sub]. cbn [find_sub] in Ht. rewrite Ht.
  rewrite !bool_decide_false; [done|..]; cbn; intros [=]; done.
Qed.

Lemma base64_no_cr n s : (length s <= n)%nat -> no_cr (base64_encode s).
Proof.
  assert (forall i, table_at B64chars i <> 13) as H.
  { intros i. unfold table_at. destruct (B64chars !! Z.to_nat i) as [c|] eqn:E; [|done]. cbn. apply list_elem_of_lookup_2 in E.
    assert (forallb (fun c => negb (c =? 13)) B64chars = true) as F by (by vm_compute). rewrite forallb_forall in F.
    apply list_elem_of_In in E. apply F in E. intros ->. done. }
  revert s. induction n as [|n IH]; intros s Hn; destruct s as [|a [|b [|c s]]]; cbn in Hn; try lia; unfold no_cr in *; cbn [base64_encode]; try constructor.
  all: unfold sextets; cbn; repeat (apply Forall_cons; split); try apply H; try done; try apply Forall_nil_2. apply IH. lia.
Qed.

(** The server's answer is taken for a handshake, whatever the key was. *)
Lemma switching_head key : exists head, take_head (switching key) = (head, []) /\ find_sub (crlf ++ crlf) (switching key) = Some (head, []) /\ contains (lit "Connection: Upgrade") head = true.
Proof.
  assert (find_sub (crlf ++ crlf) (switching key)
    = Some (lit "HTTP/1.1 101 Switching Protocols" ++ crlf ++ lit "Upgrade: websocket" ++ crlf ++ lit "Connection: Upgrade" ++ crlf ++ lit "Sec-WebSocket-Accept: " ++ calc_key_answer key, [])) as E.
  { unfold switching. fold crlf. 
    apply find_crlf_line; [by repeat (constructor; [done|])|done|]. apply (find_crlf_line (lit "Upgrade: websocket")); [by repeat (constructor; [done|])|done|].
    apply (find_crlf_line (lit "Connection: Upgrade")); [by repeat (constructor; [done|])|done|].
    change (lit "Sec-WebSocket-Accept: " ++ calc_key_answer key) with (lit "Sec-WebSocket-Accept: " ++ (calc_key_answer key)).
    apply (find_crlf_skip (lit "Sec-WebSocket-Accept: ")); [by repeat (constructor; [done|])|].
    rewrite <-(app_nil_r (calc_key_answer key)) at 2. apply find_crlf_skip; [by eapply base64_no_cr|done]. }
  eexists. unfold take_head. rewrite E. split_and!; [done|done|]. unfold contains. by vm_compute.
Qed.

(** ** A session *)

Section Session.
Context (inet_pton6 : list Z -> option (list Z)) (getAddrInfo : list Z -> res (list (list Z) * list (list Z))) (inet_addr : list Z -> Z).
Abbreviation arrive_ := (arrive inet_pton6 getAddrInfo inet_addr).

(** Reads one after the other. *)
Definition arrivals (esi : ptr) (r : route_t) : list (list Z) -> M Wsc unit := foreach (fun d => _ ← arrive_ esi r d; mret tt).

(** The socket [esi] with its buffer, and what the service knows of it. *)
Definition at_socket (s : Wsc) (esi : ptr) (x : epoll_socket_info) (st : state) : Prop :=
  socks s !! esi = Some x /\ map_find Z.ltb (id_ x) (states s) = Some st /\ map_sorted Z.ltb (states s).

(** The state with the buffer and the entry of the socket replaced. *)
Definition upd (s : Wsc) (esi : ptr) (x : epoll_socket_info) (st : state) : Wsc :=
  mkWsc (map_update Z.ltb (id_ x) st (fun _ => st) (states s)) (<[esi := x]> (socks s)).

Lemma the_sock_ok s esi x : socks s !! esi = Some x -> the_sock esi s = (Ok x, s, []).
Proof. intros H. unfold the_sock. rewrite M_bind_eq. unfold gets. by rewrite H. Qed.

Lemma the_state_ok s id st : map_find Z.ltb id (states s) = Some st -> the_state id s = (Ok st, s, []).
Proof. intros H. unfold the_state. rewrite M_bind_eq. unfold gets. by rewrite H. Qed.

(** A read up to the choice between handshake and frames. *)
Lemma arrive_eq s esi x st r d :
  at_socket s esi x st ->
  arrive_ esi r d s = StreamRead esi r (set_sock esi (in_append x d) s)
  /\ at_socket (set_sock esi (in_append x d) s) esi (in_append x d) st.
Proof.
  intros (Hx & Hst & Hm). split.
  - unfold arrive. rewrite (M_bind_silent _ _ _ _ _ (the_sock_ok _ _ _ Hx)). rewrite (M_bind_silent (modify _) _ _ tt _ eq_refl). done.
  - split_and!; [apply lookup_insert_eq|done|done].
Qed.

Lemma arrive_frame s esi x st r d msg rest :
  at_socket s esi x st -> awaiting_handshake st = false -> r <> [] -> take_frame (inBuffer_ x ++ d) = Ok (msg, rest) ->
  arrive_ esi r d s = (Ok true, set_sock esi (set_in x rest) s, [A_pass (mkEvent (Ewsc (webSocketClientEvent.Received esi msg)) r)]).
Proof.
  intros Hat Ha Hr Hf. destruct (arrive_eq s esi x st r d Hat) as [-> (Hx & Hst & _)]. unfold StreamRead.
  rewrite (M_bind_silent _ _ _ _ _ (the_sock_ok _ _ _ Hx)), (M_bind_silent _ _ _ _ _ (the_state_ok _ _ _ Hst)), Ha.
  cbn [inBuffer_ in_append set_in]. rewrite Hf. rewrite (M_bind_silent (lift _) _ _ (msg, rest) _ eq_refl).
  rewrite (M_bind_silent (modify _) _ _ tt _ eq_refl). unfold pass_wsc. rewrite M_bind_eq, passEvent_ok by done.
  cbn [mret M_ret app]. unfold set_sock. cbn [socks states]. by rewrite insert_insert_eq.
Qed.

Lemma arrive_head s esi x st r d head rest :
  at_socket s esi x st -> awaiting_handshake st = true -> r <> [] -> take_head (inBuffer_ x ++ d) = (head, rest) ->
  arrive_ esi r d s =
    if contains (lit "Connection: Upgrade") head
    then (Ok true, upd s esi (set_in x rest) (mkState false (url st)), [A_pass (mkEvent (Ewsc (webSocketClientEvent.Connected esi)) r)])
    else (Ok true, set_sock esi (set_in x rest) s, []).
Proof.
  intros Hat Ha Hr Hf. destruct (arrive_eq s esi x st r d Hat) as [-> (Hx & Hst & _)]. unfold StreamRead.
  rewrite (M_bind_silent _ _ _ _ _ (the_sock_ok _ _ _ Hx)), (M_bind_silent _ _ _ _ _ (the_state_ok _ _ _ Hst)), Ha.
  cbn [inBuffer_ in_append set_in]. rewrite Hf. rewrite (M_bind_silent (modify _) _ _ tt _ eq_refl). destruct (contains _ head).
  - unfold set_state. rewrite (M_bind_silent (modify _) _ _ tt _ eq_refl). unfold pass_wsc. rewrite M_bind_eq, passEvent_ok by done.
    cbn [mret M_ret app]. unfold set_sock, set_states, upd. cbn [socks states]. by rewrite insert_insert_eq.
  - cbn [mret M_ret]. unfold set_sock. cbn [socks states]. by rewrite insert_insert_eq.
Qed.

Lemma at_set_sock s esi x st i : at_socket s esi x st -> at_socket (set_sock esi (set_in x i) s) esi (set_in x i) st.
Proof. intros (Hx & Hst & Hm). split_and!; [apply lookup_insert_eq|done|done]. Qed.

Lemma at_upd s esi x st i st' : at_socket s esi x st -> at_socket (upd s esi (set_in x i) st') esi (set_in x i) st'.
Proof.
  intros (Hx & Hst & Hm). unfold upd. split_and!; cbn [socks states]; [apply lookup_insert_eq| |by apply map_update_sorted; [apply _|]].
  change (map_find Z.ltb (id_ x) (map_update Z.ltb (id_ x) st' (fun _ => st') (states s)) = Some st'). by rewrite (map_find_update_eq Z.ltb).
Qed.

Lemma arrivals_cons esi r d ds s s' l s'' l' :
  arrive_ esi r d s = (Ok true, s', l) -> arrivals esi r ds s' = (Ok tt, s'', l') -> arrivals esi r (d :: ds) s = (Ok tt, s'', l ++ l').
Proof.
  intros H H'. unfold arrivals in *. rewrite foreach_cons, !M_bind_eq, H. cbn [mret M_ret]. by rewrite H', app_nil_r.
Qed.

(** The rest of the server's answer, in any pieces. *)
Lemma handshake_arrivals esi r key ds : forall s x st,
  at_socket s esi x st -> awaiting_handshake st = true -> r <> [] -> ds <> [] -> Forall (fun d => d <> []) ds ->
  inBuffer_ x ++ mjoin ds = switching key ->
  exists s' , arrivals esi r ds s = (Ok tt, s', [A_pass (mkEvent (Ewsc (webSocketClientEvent.Connected esi)) r)])
    /\ at_socket s' esi (set_in x []) (mkState false (url st)).
Proof.
  destruct (switching_head key) as (head & Eh & Ef & Ec).
  induction ds as [|d ds IH]; intros s x st Hat Ha Hr Hne Hds E; [done|]. inversion_clear Hds as [|? ? Hd Hds']. change (mjoin (d :: ds)) with (d ++ mjoin ds) in E.
  destruct ds as [|d' ds].
  - change (mjoin []) with (@nil Z) in E. rewrite app_nil_r in E.
    assert (take_head (inBuffer_ x ++ d) = (head, [])) as Et by (by rewrite E).
    exists (upd s esi (set_in x []) (mkState false (url st))). split; [|by eapply at_upd].
    eapply (arrivals_cons _ _ _ _ _ _ [_] _ []); [|done]. rewrite (arrive_head _ _ _ _ _ _ _ _ Hat Ha Hr Et), Ec. done.
  - rewrite app_assoc in E.
    assert (take_head (inBuffer_ x ++ d) = ([], inBuffer_ x ++ d)) as Et.
    { unfold take_head. rewrite (find_sub_prefix _ _ (mjoin (d' :: ds)) head); [done|by rewrite E|].
      inversion_clear Hds' as [|? ? Hd' _]. intros H. by apply app_eq_nil in H as [? _]. }
    destruct (IH (set_sock esi (set_in x (inBuffer_ x ++ d)) s) (set_in x (inBuffer_ x ++ d)) st) as (s' & Hs' & Hat'); [by apply at_set_sock|done..|].
    exists s'. split; [|exact Hat']. eapply (arrivals_cons _ _ _ _ _ _ []); [|exact Hs'].
    by rewrite (arrive_head _ _ _ _ _ _ _ _ Hat Ha Hr Et).
Qed.

Lemma frame_arrivals esi r msgs : forall s x st,
  at_socket s esi x st -> awaiting_handshake st = false -> r <> [] -> inBuffer_ x = [] ->
  Forall (fun m => Z.of_nat (length m) <= 125) msgs ->
  exists s', arrivals esi r (WebSocket_makeFrame TEXT_FRAME <$> msgs) s
      = (Ok tt, s', (fun m => A_pass (mkEvent (Ewsc (webSocketClientEvent.Received esi m)) r)) <$> msgs)
    /\ at_socket s' esi x st.
Proof.
  induction msgs as [|m msgs IH]; intros s x st Hat Ha Hr Hb Hm; [by exists s|]. inversion_clear Hm as [|? ? Hm1 Hm2].
  assert (take_frame (inBuffer_ x ++ WebSocket_makeFrame TEXT_FRAME m) = Ok (m, [])) as Ef.
  { rewrite Hb, <-(app_nil_r (WebSocket_makeFrame TEXT_FRAME m)). by apply take_frame_short. }
  pose proof (arrive_frame _ _ _ _ _ _ _ _ Hat Ha Hr Ef) as Hs.
  assert (set_in x [] = x) as Ex by (destruct x; cbn in *; by subst). rewrite Ex in Hs.
  destruct (IH (set_sock esi x s) x st) as (s' & Hs' & Hat'); [rewrite <-Ex; by apply at_set_sock|done..|].
  exists s'. split; [|done]. rewrite !fmap_cons. by eapply (arrivals_cons _ _ _ _ _ _ [_]).
Qed.

Lemma arrivals_app esi r ds ds' s s1 l1 s2 l2 :
  arrivals esi r ds s = (Ok tt, s1, l1) -> arrivals esi r ds' s1 = (Ok tt, s2, l2) -> arrivals esi r (ds ++ ds') s = (Ok tt, s2, l1 ++ l2).
Proof.
  revert s s1 l1. induction ds as [|d ds IH]; intros s s1 l1 H H'; [by injection H as -> <-|].
  unfold arrivals in *. rewrite foreach_cons, !M_bind_eq in H. destruct (arrive_ esi r d s) as [[[b|e] sa] la] eqn:E; [|done].
  cbn [mret M_ret] in H. destruct (foreach _ ds sa) as [[r0 sb] lb] eqn:Eb. injection H as -> -> <-.
  rewrite <-app_comm_cons, foreach_cons, !M_bind_eq, E. cbn [mret M_ret]. rewrite (IH sa s1 lb Eb H'), app_nil_r, <-app_assoc. done.
Qed.


(** a frame that is not text (a ping, a close, a part of a fragmented message)
    stays at the front of the buffer for good: every later read passes an empty
    message on, and what arrives is never read. *)
Lemma wsc_control_frame_jams esi r b t ds : forall s x st,
  at_socket s esi x st -> awaiting_handshake st = false -> r <> [] -> inBuffer_ x = b :: t -> Z.land b 0x0F <> 1 ->
  exists s', arrivals esi r ds s = (Ok tt, s', (fun _ => A_pass (mkEvent (Ewsc (webSocketClientEvent.Received esi [])) r)) <$> ds)
    /\ at_socket s' esi (set_in x (b :: t ++ mjoin ds)) st.
Proof.
  revert t. induction ds as [|d ds IH]; intros t s x st Hat Ha Hr Hb Hn.
  - exists s. split; [done|]. change (mjoin []) with (@nil Z). rewrite app_nil_r, <-Hb. by destruct x.
  - assert (take_frame (inBuffer_ x ++ d) = Ok ([], inBuffer_ x ++ d)) as Ef.
    { unfold take_frame. rewrite Hb. rewrite (rd_at _ 0 b) by done. rewrite res_bind_ok. by destruct (Z.eqb_spec (Z.land b 15) 1). }
    pose proof (arrive_frame _ _ _ _ _ _ _ _ Hat Ha Hr Ef) as Hs.
    destruct (IH (t ++ d) (set_sock esi (set_in x (inBuffer_ x ++ d)) s) (set_in x (inBuffer_ x ++ d)) st) as (s' & Hs' & Hat');
      [by apply at_set_sock|done|done|by cbn; rewrite Hb|done|].
    exists s'. split; [by eapply (arrivals_cons _ _ _ _ _ _ [_])|].
    change (mjoin (d :: ds)) with (d ++ mjoin ds). by rewrite (app_assoc t).
Qed.

(** Frames that arrive together are passed on one per read: the second waits for the
    next bytes. *)
Lemma wsc_coalesced_frame_waits esi r m1 m2 s x st :
  at_socket s esi x st -> awaiting_handshake st = false -> r <> [] -> inBuffer_ x = [] -> Z.of_nat (length m1) <= 125 ->
  arrive_ esi r (WebSocket_makeFrame TEXT_FRAME m1 ++ WebSocket_makeFrame TEXT_FRAME m2) s
  = (Ok true, set_sock esi (set_in x (WebSocket_makeFrame TEXT_FRAME m2)) s, [A_pass (mkEvent (Ewsc (webSocketClientEvent.Received esi m1)) r)]).
Proof. intros Hat Ha Hr Hb Hm. eapply arrive_frame; try done. rewrite Hb. by apply take_frame_short. Qed.
End Session.

(** ** Concrete sessions *)

Definition no_resolver (h : list Z) : res (list (list Z) * list (list Z)) := Ok ([h], []).

Definition sample_url : Url := mkUrl (lit "ws") [] (lit "h") (lit "8080") (lit "/chat") [] [] 0 [] true false.
Definition sample_wsc (buf : list Z) (waiting : bool) : Wsc :=
  mkWsc [(7, mkState waiting sample_url)] {[5 := set_in (esi_new STREAMTYPE_CONNECTED 7 3 []) buf]}.
Definition sample_key : list Z := lit "dGhlIHNhbXBsZSBub25jZQ==".


Lemma wsc_control_frame_jams_witness :
  exists s', arrivals (fun _ => None) no_resolver (fun _ => 0) 5 [LOCALSERVICE 1] [WebSocket_makeFrame TEXT_FRAME (lit "a")] (sample_wsc [0x89; 0] false)
    = (Ok tt, s', [A_pass (mkEvent (Ewsc (webSocketClientEvent.Received 5 [])) [LOCALSERVICE 1])]).
Proof.
  destruct (wsc_control_frame_jams (fun _ => None) no_resolver (fun _ => 0) 5 [LOCALSERVICE 1] 0x89 [0] [WebSocket_makeFrame TEXT_FRAME (lit "a")]
    (sample_wsc [0x89; 0] false) (set_in (esi_new STREAMTYPE_CONNECTED 7 3 []) [0x89; 0]) (mkState false sample_url)) as (s' & H & _);
    [split_and!; by vm_compute|done|done|done|done|]. by exists s'.
Defined.

(** From the URL to the socket service and the request.  A URL without a path gives
    a request line without one. *)
Lemma connect_and_request :
  let H := wsc_handleEvent (fun _ => None) no_resolver (fun _ => 0x0100007f) in
  let s0 := mkWsc [] {[5 := esi_new STREAMTYPE_CONNECTED 7 3 []]} in
  let '(r1, s1, l1) := H (mkEvent (Ewsc (webSocketClientEvent.Connect 7 (lit "ws://h:8080") (lit "d"))) [LOCALSERVICE 1]) s0 in
  r1 = Ok true
  /\ l1 = [A_send ServiceEnum.Socket (mkEvent (Esocket (socketEvent.AddToConnectTCP 7 (Sa4 (htons 8080) 0x0100007f) (lit "d") (mkSECURE false [] []))) [LOCALSERVICE 1])]
  /\ let '(r2, s2, l2) := H (mkEvent (Esocket (socketEvent.Connected 5)) [LOCALSERVICE 1]) s1 in
     r2 = Ok true
     /\ l2 = [A_write 5 (lit "GET  HTTP/1.1" ++ crlf ++ lit "Host: h:8080" ++ crlf ++ lit "Upgrade: websocket" ++ crlf ++ lit "Connection: Upgrade" ++ crlf
                         ++ lit "Sec-WebSocket-Key: " ++ sample_key ++ crlf ++ lit "Sec-WebSocket-Version: 13" ++ crlf ++ crlf)]
     /\ awaiting_handshake <$> map_find Z.ltb 7 (states s2) = Some true.
Proof. vm_compute. done. Qed.
