(* ===== verification/Telnet.v ===== *)
(** The telnet service: modules/telnet/telnetService.{h,cpp}.

    A session edits one line with the keys of a terminal; ENTER runs it against
    the tree of directories and commands that services have registered.  Nodes
    are shared objects and are in a heap.  A session is reached only through the
    map of the service, so the map holds its fields.  The POSIX regular
    expressions of [paramMatch] are a parameter. *)

From Stdlib Require Import ZArith Lia.
From stdpp Require Import base gmap strings numbers list.
From S2P Require Import Prelude StdMap IoBuffer Codec Route CLib Text Sockaddr Config Events Service.
Open Scope Z_scope.

(** ** The terminal *)

Definition esc (s : string) : list Z := 27 :: lit s.

Definition attribute_reset : list Z := esc "[0m".
Definition attribute_bright : list Z := esc "[1m".
Definition erase_line : list Z := esc "[2K".
Definition cursor_up : list Z := esc "[A".
Definition cursor_down : list Z := esc "[B".
Definition cursor_forward (n : Z) : list Z := esc "[" ++ to_string n ++ lit "C".
Definition cursor_back_n (n : Z) : list Z := esc "[" ++ to_string n ++ lit "D".
Definition cursor_back : list Z := esc "[D".
Definition erase : list Z := esc "[P".
Definition insert_mode : list Z := esc "[4h".
Definition replace_mode : list Z := esc "[4l".

Definition TKEY_F (n : nat) : list Z :=
  match n with
  | 1 => esc "OP" | 2 => esc "OQ" | 3 => esc "OR" | 4 => esc "OS"
  | 5 => esc "[15~" | 6 => esc "[17~" | 7 => esc "[18~" | 8 => esc "[19~"
  | 9 => esc "[20~" | 10 => esc "[21~" | 11 => esc "[23~" | _ => esc "[24~"
  end%nat.
Definition TKEY_ESC : list Z := [27].
Definition TKEY_TAB : list Z := [9].
Definition TKEY_UP : list Z := esc "[A".
Definition TKEY_DOWN : list Z := esc "[B".
Definition TKEY_RIGHT : list Z := esc "[C".
Definition TKEY_LEFT : list Z := esc "[D".
Definition TKEY_HOME : list Z := esc "OH".
Definition TKEY_END : list Z := esc "OF".
Definition TKEY_HOME2 : list Z := esc "[1~".
Definition TKEY_INSERT : list Z := esc "[2~".
Definition TKEY_DELETE : list Z := esc "[3~".
Definition TKEY_END2 : list Z := esc "[4~".
Definition TKEY_PGUP : list Z := esc "[5~".
Definition TKEY_PGDN : list Z := esc "[6~".
Definition TKEY_BS1 : list Z := [8].
Definition TKEY_BS2 : list Z := [127].

Definition IAC : Z := 255.
Definition DONT : Z := 254.
Definition DO : Z := 253.
Definition WONT : Z := 252.
Definition WILL : Z := 251.
Definition SB : Z := 250.
Definition SE : Z := 240.
Definition TELOPT_NAWS : Z := 31.
Definition TELOPT_LINEMODE : Z := 34.
Definition LM_SLC : Z := 3.
Definition SLC_SYNCH : Z := 1.
Definition SLC_FORW2 : Z := 18.

(** ** Sessions *)

Record Session : Type := mkSession {
  mx_defaultNode : ptr;
  mx_current_command_line : list Z;
  mx_command_history : list (list Z);
  curpos : Z;
  command_history_pos : Z;
  insertMode : bool;
  width : Z;
  height : Z;
  s_esi : ptr;
}.

Definition Session_new (N esi : ptr) : Session := mkSession N [] [] 0 0 true 80 25 esi.

Definition set_line (l : list Z) (c : Z) (s : Session) : Session :=
  mkSession (mx_defaultNode s) l (mx_command_history s) c (command_history_pos s) (insertMode s) (width s) (height s) (s_esi s).
Definition set_history (h : list (list Z)) (p : Z) (s : Session) : Session :=
  mkSession (mx_defaultNode s) (mx_current_command_line s) h (curpos s) p (insertMode s) (width s) (height s) (s_esi s).
Definition set_insertMode (b : bool) (s : Session) : Session :=
  mkSession (mx_defaultNode s) (mx_current_command_line s) (mx_command_history s) (curpos s) (command_history_pos s) b (width s) (height s) (s_esi s).
Definition set_window (w h : Z) (s : Session) : Session :=
  mkSession (mx_defaultNode s) (mx_current_command_line s) (mx_command_history s) (curpos s) (command_history_pos s) (insertMode s) w h (s_esi s).
Definition set_node (n : ptr) (s : Session) : Session :=
  mkSession n (mx_current_command_line s) (mx_command_history s) (curpos s) (command_history_pos s) (insertMode s) (width s) (height s) (s_esi s).

(** [s.substr(pos, n)]. *)
Definition substr (s : list Z) (pos n : Z) : list Z := take (Z.to_nat n) (drop (Z.to_nat pos) s).

Definition size (s : list Z) : Z := Z.of_nat (length s).

(** The line without the character at the cursor. *)
Definition cut_at (l : list Z) (c : Z) : list Z := substr l 0 c ++ substr l (c + 1) (size l - c - 1).

Definition on_TKEY_BS (s : Session) : bool * Session :=
  if 0 <? curpos s then
    let c := curpos s - 1 in
    if c <? size (mx_current_command_line s)
    then (true, set_line (cut_at (mx_current_command_line s) c) c s)
    else (false, set_line (mx_current_command_line s) c s)
  else (false, s).

(** ** Completion *)

Fixpoint strmax (a b : list Z) : nat :=
  match a, b with
  | x :: a', y :: b' => if x =? y then S (strmax a' b') else O
  | _, _ => O
  end.

Definition starts_with (templ s : list Z) : bool := bool_decide (take (length templ) s = templ).

Definition getAutoAppendString (v : list (list Z)) (templ : list Z) : list Z :=
  match List.filter (starts_with templ) v with
  | [] => []
  | m :: vm =>
      let max := fold_left (fun acc s => Nat.min acc (strmax m s)) (m :: vm) (length m) in
      take (max - length templ) (drop (length templ) m)
  end.

(** ** Options of the connection *)

(** [popprint2]. *)
Definition pop2 (chars : list Z) : list Z := drop 2 chars.

(** The [LM_SLC] triples, up to IAC SE or the end of the read. *)
Fixpoint slc_loop (fuel : nat) (chars : list Z) : list Z :=
  match fuel with
  | O => chars
  | S f =>
      match chars with
      | [] => []
      | c :: cs =>
          if (c =? IAC) && bool_decide (head cs = Some SE) then drop 1 cs
          else slc_loop f (if (SLC_SYNCH <=? c) && (c <=? SLC_FORW2) then pop2 cs else cs)
      end
  end.

Definition naws_byte (i : nat) (chars : list Z) : Z := default 0 (chars !! i).

(** One subnegotiation: what is left of the read, and the session. *)
Definition subnegotiation (chars : list Z) (W : Session) : list Z * Session :=
  match chars with
  | [] => ([], W)
  | cmd3 :: cs =>
      if cmd3 =? TELOPT_LINEMODE then
        match cs with
        | [] => ([], W)
        | cmd4 :: cs' => (if cmd4 =? LM_SLC then slc_loop (S (length cs')) cs' else cs', W)
        end
      else if cmd3 =? TELOPT_NAWS then
        (drop 4 cs, set_window (Z.lor (Z.shiftl (naws_byte 0 cs) 8) (naws_byte 1 cs))
                               (Z.lor (Z.shiftl (naws_byte 2 cs) 8) (naws_byte 3 cs)) W)
      else (cs, W)
  end.

(** The loop over the commands at the start of a read; each takes a byte or more. *)
Fixpoint iac_loop (fuel : nat) (chars : list Z) (W : Session) : list Z * Session :=
  match fuel with
  | O => (chars, W)
  | S f =>
      match chars with
      | c :: cs =>
          if negb (c =? IAC) then (chars, W)
          else
            match cs with
            | [] => ([], W)
            | cmd2 :: cs' =>
                if (cmd2 =? WILL) || (cmd2 =? WONT) || (cmd2 =? DONT) || (cmd2 =? DO) then iac_loop f (drop 1 cs') W
                else if cmd2 =? SB then let '(cs'', W') := subnegotiation cs' W in iac_loop f cs'' W'
                else iac_loop f cs' W
            end
      | [] => ([], W)
      end
  end.

(** ** The tree of commands *)

Record Command : Type := mkCommand { dstService : route_t; cmd_re : list Z; c_help : list Z }.

Record Node : Type := mkNode {
  n_name : list Z;
  n_help : list Z;
  n_parent : ptr;                             (* 0 for none *)
  m_children : str_map ptr;
  m_commands : str_map Command;
}.

Record Telnet : Type := mkTelnet {
  nodes : gmap ptr Node;
  next_node : ptr;
  m_root : ptr;
  sessions : gmap SOCKET_id Session;
  m_deviceName : list Z;
}.

Definition telnet_new : Telnet :=
  mkTelnet {[1 := mkNode [] (lit "Top level commands") 0 [] []]} 2 1 ∅ [].

Definition set_nodes (n : gmap ptr Node) (s : Telnet) : Telnet := mkTelnet n (next_node s) (m_root s) (sessions s) (m_deviceName s).
Definition set_sessions (m : gmap SOCKET_id Session) (s : Telnet) : Telnet :=
  mkTelnet (nodes s) (next_node s) (m_root s) m (m_deviceName s).
Definition set_deviceName (d : list Z) (s : Telnet) : Telnet := mkTelnet (nodes s) (next_node s) (m_root s) (sessions s) d.

Definition the_node (n : ptr) : M Telnet Node :=
  fun s => match nodes s !! n with Some x => (Ok x, s, []) | None => (Throw (UB "null Telnet::Node"), s, []) end.

Definition new_node (x : Node) : M Telnet ptr :=
  fun s => (Ok (next_node s),
            mkTelnet (<[next_node s := x]> (nodes s)) (next_node s + 1) (m_root s) (sessions s) (m_deviceName s), []).

Definition update_node (n : ptr) (f : Node -> Node) : M Telnet unit :=
  modify (fun s => set_nodes (alter f n (nodes s)) s).

Definition getSubDir (n : ptr) (dir : list Z) : M Telnet ptr :=
  x ← the_node n; mret (default 0 (map_find str_lt dir (m_children x))).

(** [map::insert] keeps a child that is there. *)
Definition addChildNode (n : ptr) (section : list Z) (c : ptr) : M Telnet unit :=
  update_node n (fun x => mkNode (n_name x) (n_help x) (n_parent x) (map_insert str_lt section c (m_children x)) (m_commands x)).

Definition addCommand (n : ptr) (cmd : list Z) (c : Command) : M Telnet unit :=
  update_node n (fun x => mkNode (n_name x) (n_help x) (n_parent x) (m_children x)
                                 (map_insert str_lt cmd c (map_erase str_lt cmd (m_commands x)))).

(** The names from the node up to the root; a parent is older than its child, so
    as many steps as there are nodes are enough. *)
Fixpoint path_names (fuel : nat) (nodes : gmap ptr Node) (n : ptr) : list (list Z) :=
  match fuel with
  | O => []
  | S f => match nodes !! n with
           | Some x => n_name x :: (if n_parent x =? 0 then [] else path_names f nodes (n_parent x))
           | None => []
           end
  end.

Definition path_of (s : Telnet) (n : ptr) : list Z := join (lit "/") (path_names (S (base.size (nodes s))) (nodes s) n).

Fixpoint find_dir (n : ptr) (d : list (list Z)) : M Telnet ptr :=
  match d with
  | [] => mret n
  | x :: d' => c ← getSubDir n x; if c =? 0 then throw (CommonError "cannot find subdir") else find_dir c d'
  end.

Definition registerDirectory (d : list (list Z)) (name help : list Z) : M Telnet unit :=
  s ← gets id;
  n ← find_dir (m_root s) d;
  p ← new_node (mkNode name help n [] []);
  addChildNode n name p.

Definition registerCommand (d : list (list Z)) (cmd help : list Z) (dst : route_t) : M Telnet unit :=
  s ← gets id;
  n ← find_dir (m_root s) d;
  '(_, r) ← lift (pop_back dst);
  addCommand n cmd (mkCommand r cmd help).

Fixpoint register_dirs (dbase d : list (list Z)) : M Telnet unit :=
  match d with
  | [] => mret tt
  | x :: d' => _ ← registerDirectory dbase x (lit "Directory"); register_dirs (dbase ++ [x]) d'
  end.

Definition on_RegisterCommand (directory cmd help : list Z) (route : route_t) : M Telnet bool :=
  let d := splitString (lit "/") directory in
  _ ← register_dirs [] d;
  _ ← registerCommand d cmd help route;
  mret true.

(** ** The service *)

Section Service.
(** [regcomp] and [regexec]: [None] for a bad expression, otherwise the length of
    the first match, if there is one. *)
Context (regmatch : list Z -> list Z -> option (option Z)).
Context (esi_id : ptr -> SOCKET_id).

Definition paramMatch (regexp cmd : list Z) : res bool :=
  match regmatch (c_str regexp) (c_str cmd) with
  | None => Throw (CommonError "regex")
  | Some None => Ok false
  | Some (Some matchlen) => Ok (matchlen =? size cmd)
  end.

Definition write (esi : ptr) (d : list Z) : M Telnet unit := emit (A_write esi d).

Definition promptString (s : Telnet) (W : Session) : list Z :=
  m_deviceName s ++ lit ":" ++ path_of s (mx_defaultNode W) ++ lit "$ ".

Definition prompt (W : Session) (esi : ptr) : M Telnet unit :=
  s ← gets id; write esi (promptString s W).

(** The session of the socket is changed in place. *)
Definition put (sid : SOCKET_id) (W : Session) : M Telnet unit :=
  modify (fun s => set_sessions (<[sid := W]> (sessions s)) s).

Definition bright (s : list Z) : list Z := attribute_bright ++ s ++ attribute_reset.

Definition crlf : list Z := [13; 10].

Definition help_page (W : Session) (esi : ptr) : M Telnet unit :=
  s ← gets id;
  x ← the_node (mx_defaultNode W);
  let path := path_of s (mx_defaultNode W) in
  _ ← write esi (lit "Commands in '" ++ (match path with [] => lit "/" | _ => path end) ++ lit "'" ++ crlf ++ crlf);
  _ ← write esi (bright (lit "help") ++ lit " - display this page" ++ crlf);
  _ ← write esi (bright (lit "quit") ++ lit " - quit console" ++ crlf);
  _ ← write esi (bright (lit "..") ++ lit " - go to parent directory" ++ crlf);
  _ ← foreach (fun i => c ← the_node i.2; write esi (bright (n_name c) ++ lit " - " ++ n_help c ++ crlf)) (m_children x);
  _ ← foreach (fun i => write esi (bright (cmd_re i.2) ++ lit " - " ++ c_help i.2 ++ crlf)) (m_commands x);
  prompt W esi.

(** The first registered command that matches the whole line. *)
Fixpoint match_command (cmd : list Z) (l : str_map Command) : res (option Command) :=
  match l with
  | [] => Ok None
  | (_, c) :: l' => b ← paramMatch (cmd_re c) cmd; if b : bool then Ok (Some c) else match_command cmd l'
  end.

Definition run_command (esi : ptr) (W : Session) (cmd : list Z) : M Telnet unit :=
  s ← gets id;
  x ← the_node (mx_defaultNode W);
  o ← lift (match_command cmd (m_commands x));
  match o with
  | Some c => passEvent_ (mkEvent (Etelnet (telnetEvent.CommandEntered (esi_id esi) cmd (path_of s (mx_defaultNode W)))) (dstService c))
  | None =>
      _ ← (match cmd with [] => mret tt | _ => write esi (cmd ++ lit ": invalid command" ++ crlf) end);
      prompt W esi
  end.

(** ENTER.  The line is taken, [curpos] stays where it was. *)
Definition processCommand (esi : ptr) (W0 : Session) : M Telnet unit :=
  _ ← write esi crlf;
  let cmd := mx_current_command_line W0 in
  let W := set_history (mx_command_history W0 ++ [cmd]) 0 (set_line [] (curpos W0) W0) in
  _ ← put (esi_id esi) W;
  match splitString [32; 9] cmd with
  | [] => run_command esi W cmd
  | t :: _ =>
      let low := strlower t in
      if bool_decide (low = lit "quit") then emit (A_write_and_close esi crlf)
      else if bool_decide (low = lit "ls") || bool_decide (low = lit "help") then help_page W esi
      else if bool_decide (low = lit "cd") then run_command esi W cmd
      else if bool_decide (t = lit "..") then
        x ← the_node (mx_defaultNode W);
        let W' := if n_parent x =? 0 then W else set_node (n_parent x) W in
        _ ← put (esi_id esi) W'; prompt W' esi
      else
        n ← getSubDir (mx_defaultNode W) t;
        if n =? 0 then run_command esi W cmd
        else let W' := set_node n W in _ ← put (esi_id esi) W'; prompt W' esi
  end.

(** *** Keys *)

Definition key_delete (esi : ptr) (W : Session) : M Telnet unit :=
  if curpos W <? size (mx_current_command_line W) then
    _ ← put (esi_id esi) (set_line (cut_at (mx_current_command_line W) (curpos W)) (curpos W) W);
    write esi erase
  else mret tt.

(** [cp % width] with a width of 0 is undefined. *)
Definition key_left (esi : ptr) (W : Session) : M Telnet unit :=
  let cp := curpos W in
  if 0 <? cp then
    _ ← put (esi_id esi) (set_line (mx_current_command_line W) (cp - 1) W);
    if width W =? 0 then throw (UB "cp % 0")
    else if Z.rem cp (width W) =? 0 then write esi (cursor_up ++ cursor_forward (width W - 1))
    else write esi TKEY_LEFT
  else mret tt.

Definition key_right (esi : ptr) (W : Session) : M Telnet unit :=
  if curpos W <? size (mx_current_command_line W) then
    let cp := curpos W + 1 in
    _ ← put (esi_id esi) (set_line (mx_current_command_line W) cp W);
    if width W =? 0 then throw (UB "cp % 0")
    else if Z.rem cp (width W) =? 0 then write esi (cursor_down ++ cursor_back_n (width W - 1))
    else write esi TKEY_RIGHT
  else mret tt.

Definition redraw (W : Session) (esi : ptr) (cmd : list Z) : M Telnet unit :=
  s ← gets id;
  _ ← write esi (erase_line ++ cursor_back_n (size (promptString s W) + curpos W + 100));
  _ ← prompt W esi;
  write esi cmd.

(** Past either end of the history an empty line is shown and the line is kept. *)
Definition key_history (esi : ptr) (W : Session) (next : Z) : M Telnet unit :=
  let h := mx_command_history W in
  match h with
  | [] => mret tt
  | _ =>
      let idx := Z.of_nat (length h) + command_history_pos W + next in
      if (0 <=? idx) && (idx <? Z.of_nat (length h)) then
        let cmd := default [] (h !! Z.to_nat idx) in
        let W' := set_history h (command_history_pos W + next) (set_line cmd (size cmd) W) in
        _ ← put (esi_id esi) W'; redraw W' esi cmd
      else
        let W' := set_line (mx_current_command_line W) 0 W in
        _ ← put (esi_id esi) W'; redraw W' esi []
  end.

Definition key_esc (W : Session) (esi : ptr) : M Telnet unit :=
  s ← gets id;
  _ ← write esi (erase_line ++ cursor_back_n (size (promptString s W) + curpos W + 100));
  prompt W esi.

Definition key_tab (esi : ptr) (W : Session) : M Telnet unit :=
  x ← the_node (mx_defaultNode W);
  s ← gets id;
  let names := (m_commands x).*1 ++ ((fun i => default [] (n_name <$> nodes s !! i.2)) <$> m_children x) in
  let append := getAutoAppendString names (mx_current_command_line W) in
  _ ← write esi append;
  put (esi_id esi) (set_line (mx_current_command_line W ++ append) (curpos W + size append) W).

Definition key_char (esi : ptr) (W : Session) (c : Z) : M Telnet unit :=
  let l := mx_current_command_line W in
  let p := if curpos W <? 0 then 0 else if size l <? curpos W then size l else curpos W in
  let l' := if insertMode W then substr l 0 p ++ [c] ++ substr l p (size l - p)
            else if p =? size l then l ++ [c] else <[Z.to_nat p := c]> l in
  _ ← put (esi_id esi) (set_line l' (p + 1) W);
  write esi [c].

(** What is left of a read after the commands is taken as one key; of a longer
    text only the first character counts. *)
Definition key (esi : ptr) (W : Session) (out : list Z) : M Telnet unit :=
  if existsb (fun n => bool_decide (out = TKEY_F n)) (seq 1 12) then mret tt
  else if bool_decide (out = TKEY_INSERT) then
    let m := negb (insertMode W) in
    _ ← put (esi_id esi) (set_insertMode m W); write esi (if m then insert_mode else replace_mode)
  else if bool_decide (out = TKEY_BS1) || bool_decide (out = TKEY_BS2) then
    let '(ok, W') := on_TKEY_BS W in
    _ ← put (esi_id esi) W'; if ok : bool then write esi (cursor_back ++ erase) else mret tt
  else if bool_decide (out = TKEY_DELETE) then key_delete esi W
  else if bool_decide (out = TKEY_END) || bool_decide (out = TKEY_END2) then mret tt
  else if bool_decide (out = TKEY_HOME) || bool_decide (out = TKEY_HOME2) then mret tt
  else if bool_decide (out = TKEY_LEFT) then key_left esi W
  else if bool_decide (out = TKEY_RIGHT) then key_right esi W
  else if bool_decide (out = TKEY_UP) then key_history esi W (-1)
  else if bool_decide (out = TKEY_DOWN) then key_history esi W 1
  else if bool_decide (out = TKEY_PGDN) || bool_decide (out = TKEY_PGUP) then mret tt
  else if bool_decide (out = TKEY_ESC) then key_esc W esi
  else if bool_decide (out = TKEY_TAB) then key_tab esi W
  else match out with
       | [] => mret tt
       | c :: _ =>
           if c =? 3 then emit (A_write_and_close esi (lit "^C" ++ crlf))
           else if c =? 9 then mret tt
           else if c =? 13 then processCommand esi W
           else key_char esi W c
       end.

(** *** Events *)

Definition on_StreamRead (esi : ptr) (data : list Z) : M Telnet bool :=
  s ← gets id;
  match sessions s !! esi_id esi with
  | None => mret true
  | Some W0 =>
      let '(out, W) := iac_loop (S (length data)) data W0 in
      _ ← put (esi_id esi) W;
      _ ← key esi W out;
      mret true
  end.

Definition on_Accepted (esi : ptr) : M Telnet bool :=
  s ← gets id;
  let c := Session_new (m_root s) esi in
  _ ← (match sessions s !! esi_id esi with Some _ => mret tt | None => put (esi_id esi) c end);
  _ ← write esi ([255; 253; 34; 255; 251; 1] ++ insert_mode);
  _ ← write esi [IAC; DO; TELOPT_NAWS];
  _ ← prompt c esi;
  mret true.

(** [W->esi] is read before [W] is tested. *)
Definition on_Reply (socketId : SOCKET_id) (buffer : list Z) : M Telnet bool :=
  s ← gets id;
  match sessions s !! socketId with
  | None => throw (UB "W->esi of a null session")
  | Some W =>
      let buf := mjoin ((fun c => if c =? 10 then [13; 10] else [c]) <$> buffer) in
      _ ← write (s_esi W) (bright (buf ++ crlf));
      _ ← prompt W (s_esi W);
      mret true
  end.

Definition on_delete (esi : ptr) : M Telnet bool :=
  _ ← modify (fun s => set_sessions (delete (esi_id esi) (sessions s)) s); mret true.

Definition telnet_DoListen (newid : SOCKET_id) (sa : msockaddr_in) (deviceName : list Z) : M Telnet bool :=
  _ ← modify (set_deviceName deviceName);
  _ ← emit (A_send ServiceEnum.Socket
              (mkEvent (Esocket (socketEvent.AddToListenTCP newid sa (lit "TELNET") false (mkSECURE false [] [])))
                       [LOCALSERVICE ServiceEnum.Telnet]));
  mret true.

Definition telnet_handleEvent (inBuffer : ptr -> list Z) (newid : SOCKET_id) (e : Event) : M Telnet bool :=
  match ev_body e with
  | Esocket (socketEvent.NotifyOutBufferEmpty _) => mret true
  | Esocket (socketEvent.Disaccepted esi _) => on_delete esi
  | Esocket (socketEvent.Disconnected esi _) => on_delete esi
  | Esocket (socketEvent.Accepted esi) => on_Accepted esi
  | Esocket (socketEvent.StreamRead esi) => on_StreamRead esi (inBuffer esi)
  | Esocket (socketEvent.NotifyBindAddress _ _ _) => mret true
  | Etelnet (telnetEvent.RegisterCommand d c h) => on_RegisterCommand d c h (ev_route e)
  | Etelnet (telnetEvent.Reply sid buf) => on_Reply sid buf
  | Etelnet (telnetEvent.DoListen sa name) => telnet_DoListen newid sa name
  | Esystem systemEvent.startService => mret true
  | _ => mret false
  end.
End Service.
