(* ===== verification/TelnetEdit.v ===== *)
(** The line editor of the telnet service, against a zipper and against the
    terminal that shows the line. *)

From Stdlib Require Import ZArith Lia.
From stdpp Require Import base gmap strings numbers list.
From S2P Require Import Prelude StdMap IoBuffer Codec Route CLib Text Sockaddr Config Events Service Telnet.
Open Scope Z_scope.

(** ** A terminal

    One row of a VT100 with the sequences the service writes: cursor left and
    right by a count, delete a character, erase the line, insert and replace
    mode. *)

Inductive parse : Type := Ground | Esc | Csi (n : Z).

Record term : Type := mkTerm { row : list Z; col : nat; ins : bool; ps : parse }.

Definition put_char (c : Z) (t : term) : term :=
  let r := row t ++ replicate (col t - length (row t)) 32 in
  mkTerm (take (col t) r ++ [c] ++ drop (if ins t then col t else S (col t)) r) (S (col t)) (ins t) Ground.

Definition csi (n c : Z) (t : term) : term :=
  if c =? 68 then mkTerm (row t) (col t - Z.to_nat (Z.max 1 n)) (ins t) Ground
  else if c =? 67 then mkTerm (row t) (col t + Z.to_nat (Z.max 1 n)) (ins t) Ground
  else if c =? 80 then mkTerm (take (col t) (row t) ++ drop (S (col t)) (row t)) (col t) (ins t) Ground
  else if (c =? 75) && (n =? 2) then mkTerm [] (col t) (ins t) Ground
  else if (c =? 104) && (n =? 4) then mkTerm (row t) (col t) true Ground
  else if (c =? 108) && (n =? 4) then mkTerm (row t) (col t) false Ground
  else mkTerm (row t) (col t) (ins t) Ground.

Definition term_byte (t : term) (c : Z) : term :=
  match ps t with
  | Ground => if c =? 27 then mkTerm (row t) (col t) (ins t) Esc else put_char c t
  | Esc => mkTerm (row t) (col t) (ins t) (if c =? 91 then Csi 0 else Ground)
  | Csi n => if isdigit c then mkTerm (row t) (col t) (ins t) (Csi (10 * n + (c - 48))) else csi n c t
  end.

Definition feed (t : term) (d : list Z) : term := fold_left term_byte d t.

(** What is written to the socket [esi]. *)
Definition sent (esi : ptr) (l : list action) : list Z :=
  mjoin ((fun a => match a with A_write q d => if q =? esi then d else [] | _ => [] end) <$> l).

(** ** A zipper *)

Inductive edit : Type := EChar (c : Z) | EBackspace | EDelete | ELeft | ERight | EInsert.

Record zipper : Type := mkZip { before : list Z; after : list Z; inserting : bool }.

Definition zip_step (z : zipper) (k : edit) : zipper :=
  match k with
  | EChar c => mkZip (before z ++ [c]) (if inserting z then after z else tail (after z)) (inserting z)
  | EBackspace => mkZip (removelast (before z)) (after z) (inserting z)
  | EDelete => mkZip (before z) (tail (after z)) (inserting z)
  | ELeft => match list.last (before z) with
             | Some c => mkZip (removelast (before z)) (c :: after z) (inserting z)
             | None => z
             end
  | ERight => match after z with
              | c :: a => mkZip (before z ++ [c]) a (inserting z)
              | [] => z
              end
  | EInsert => mkZip (before z) (after z) (negb (inserting z))
  end.

Definition key_bytes (k : edit) : list Z :=
  match k with
  | EChar c => [c]
  | EBackspace => TKEY_BS2
  | EDelete => TKEY_DELETE
  | ELeft => TKEY_LEFT
  | ERight => TKEY_RIGHT
  | EInsert => TKEY_INSERT
  end.

Definition edit_ok (k : edit) : Prop := match k with EChar c => 32 <= c < 127 | _ => True end.

(** The session holds the line of the zipper. *)
Definition holds (W : Session) (z : zipper) : Prop :=
  mx_current_command_line W = before z ++ after z /\ curpos W = size (before z) /\ insertMode W = inserting z.

(** The terminal shows the prompt, the line, and the cursor where it is. *)
Definition shows (p : list Z) (z : zipper) (t : term) : Prop :=
  row t = p ++ before z ++ after z /\ col t = (length p + length (before z))%nat /\ ins t = inserting z /\ ps t = Ground.

(** ** Strings *)

Lemma substr_before b a : substr (b ++ a) 0 (size b) = b.
Proof. unfold substr, size. by rewrite drop_0, Nat2Z.id, take_app_length. Qed.

Lemma substr_after b a : substr (b ++ a) (size b) (size (b ++ a) - size b) = a.
Proof.
  unfold substr, size. rewrite Nat2Z.id, drop_app_length, length_app.
  replace (Z.to_nat _) with (length a) by lia. by rewrite take_ge.
Qed.

Lemma cut_at_zip b c a : cut_at (b ++ c :: a) (size b) = b ++ a.
Proof.
  unfold cut_at. rewrite substr_before. f_equal. unfold substr, size. rewrite length_app. cbn [length].
  replace (Z.to_nat (Z.of_nat (length b) + 1)) with (length b + 1)%nat by lia. rewrite drop_app_add. cbn [drop].
  replace (Z.to_nat (Z.of_nat (length b + S (length a)) - Z.of_nat (length b) - 1)) with (length a) by lia. by rewrite take_ge.
Qed.

Lemma last_split {A} (l : list A) x : list.last l = Some x -> l = removelast l ++ [x].
Proof. intros H. apply last_Some in H as [l' ->]. by rewrite removelast_last. Qed.

Lemma size_snoc b c : size (b ++ [c]) = size b + 1.
Proof. unfold size. rewrite length_app. cbn [length]. lia. Qed.

(** ** One key *)

Section Edit.
Context (regmatch : list Z -> list Z -> option (option Z)) (esi_id : ptr -> SOCKET_id).

Lemma iac_none c cs W f : c <> IAC -> iac_loop (S f) (c :: cs) W = (c :: cs, W).
Proof. intros H. cbn [iac_loop]. destruct (Z.eqb_spec c IAC); done. Qed.

Lemma key_printable esi W c : 32 <= c < 127 -> key regmatch esi_id esi W [c] = key_char esi_id esi W c.
Proof.
  intros H. unfold key. cbn [existsb seq].
  repeat (rewrite bool_decide_eq_false_2 by (intros [=]; lia)). cbn [orb].
  destruct (Z.eqb_spec c 3), (Z.eqb_spec c 9), (Z.eqb_spec c 13); done || lia.
Qed.

Definition put_session (sid : SOCKET_id) (W : Session) (s : Telnet) : Telnet := set_sessions (<[sid := W]> (sessions s)) s.

Lemma put_put sid W W' s : put_session sid W' (put_session sid W s) = put_session sid W' s.
Proof. unfold put_session, set_sessions. cbn. by rewrite insert_insert_eq. Qed.

Lemma put_same sid W s : sessions s !! sid = Some W -> put_session sid W s = s.
Proof. intros H. unfold put_session, set_sessions. destruct s. cbn in *. by rewrite insert_id. Qed.

Lemma on_StreamRead_key esi s W c cs :
  sessions s !! esi_id esi = Some W -> c <> IAC ->
  on_StreamRead regmatch esi_id esi (c :: cs) s
  = match key regmatch esi_id esi W (c :: cs) s with
    | (Ok _, s1, l) => (Ok true, s1, l)
    | (Throw e, s1, l) => (Throw e, s1, l)
    end.
Proof.
  intros HW Hc. unfold on_StreamRead. rewrite M_bind_eq. cbn [gets id]. rewrite HW, iac_none by done.
  rewrite M_bind_eq. change (put (esi_id esi) W s) with (Ok tt, put_session (esi_id esi) W s, @nil action).
  rewrite (put_same _ _ _ HW). cbv iota beta. rewrite M_bind_eq.
  destruct (key regmatch esi_id esi W (c :: cs) s) as [[[[]|e] s1] l]; cbn; by rewrite ?app_nil_r.
Qed.

(** The effect of a key: the session it leaves and what it writes. *)
Definition key_does (k : edit) (W W' : Session) (d : list Z) : Prop :=
  forall s, sessions s !! esi_id (s_esi W) = Some W ->
  exists l, on_StreamRead regmatch esi_id (s_esi W) (key_bytes k) s = (Ok true, put_session (esi_id (s_esi W)) W' s, l)
            /\ sent (s_esi W) l = d.

Lemma sent_write esi d : sent esi [A_write esi d] = d.
Proof. unfold sent. cbn. by rewrite Z.eqb_refl, app_nil_r. Qed.

Lemma does_write k W W' d :
  (forall s, key regmatch esi_id (s_esi W) W (key_bytes k) s = (Ok tt, put_session (esi_id (s_esi W)) W' s, [A_write (s_esi W) d])) ->
  head (key_bytes k) <> Some IAC -> key_bytes k <> [] -> key_does k W W' d.
Proof.
  intros Hk Hh Hne s HW. destruct (key_bytes k) as [|c cs] eqn:E; [done|].
  rewrite (on_StreamRead_key _ _ W), Hk; [|done|cbn in Hh; congruence]. eexists. split; [reflexivity|]. apply sent_write.
Qed.

Lemma does_nothing k W :
  (forall s, sessions s !! esi_id (s_esi W) = Some W -> key regmatch esi_id (s_esi W) W (key_bytes k) s = (Ok tt, s, [])) ->
  head (key_bytes k) <> Some IAC -> key_bytes k <> [] -> key_does k W W [].
Proof.
  intros Hk Hh Hne s HW. destruct (key_bytes k) as [|c cs] eqn:E; [done|].
  rewrite (on_StreamRead_key _ _ W), Hk; [|done|done|cbn in Hh; congruence]. eexists. split; [by rewrite (put_same _ _ _ HW)|done].
Qed.

Lemma char_does W z c :
  holds W z -> 32 <= c < 127 ->
  exists W', key_does (EChar c) W W' [c] /\ holds W' (zip_step z (EChar c)) /\ width W' = width W /\ s_esi W' = s_esi W.
Proof.
  intros (Hl & Hc & Hi) Hp.
  exists (set_line (before z ++ [c] ++ (if inserting z then after z else tail (after z))) (size (before z) + 1) W). split_and!; [|split_and!|done..].
  - apply does_write; [|unfold IAC; cbn; congruence || (intros [=]; lia)|done]. intros s.
    cbn [key_bytes]. rewrite key_printable by done. unfold key_char. rewrite Hl, Hc, Hi.
    assert (size (before z ++ after z) = size (before z) + size (after z)) as Hs by (unfold size; rewrite length_app; lia).
    assert (0 <= size (before z) /\ 0 <= size (after z)) as Hpos by (unfold size; lia).
    destruct (Z.ltb_spec (size (before z)) 0), (Z.ltb_spec (size (before z ++ after z)) (size (before z))); try lia.
    rewrite M_bind_eq. unfold put, modify, write, emit. cbv iota beta. f_equal. f_equal. f_equal. f_equal. f_equal. f_equal.
    destruct (inserting z).
    + by rewrite substr_before, substr_after.
    + destruct (after z) as [|a az] eqn:Ea.
      * rewrite app_nil_r in *. rewrite Z.eqb_refl. by rewrite app_nil_r.
      * destruct (Z.eqb_spec (size (before z)) (size (before z ++ a :: az))) as [E|_]; [unfold size in *; cbn [length] in *; lia|].
        unfold size. rewrite Nat2Z.id, insert_app_r_alt, Nat.sub_diag by lia. done.
  - cbn. by rewrite <- app_assoc.
  - cbn. by rewrite size_snoc.
  - done.
Qed.

(** The line with room for one more character before the width. *)
Definition fits (W : Session) (z : zipper) : Prop := size (before z) + size (after z) + 1 < width W.

Lemma size_pos l : 0 <= size l.
Proof. unfold size. lia. Qed.

Lemma size_app a b : size (a ++ b) = size a + size b.
Proof. unfold size. rewrite length_app. lia. Qed.

Lemma rem_inside cp w : 0 < cp < w -> (w =? 0) = false /\ (Z.rem cp w =? 0) = false.
Proof. intros H. rewrite Z.rem_small by lia. lia. Qed.

Ltac key_side := cbn [key_bytes]; (done || discriminate).

Lemma backspace_eq esi W :
  key regmatch esi_id esi W TKEY_BS2
  = (let '(ok, W') := on_TKEY_BS W in _ ← put (esi_id esi) W'; if ok : bool then write esi (cursor_back ++ erase) else mret tt).
Proof. reflexivity. Qed.

Lemma backspace_does W z :
  holds W z ->
  exists W', key_does EBackspace W W' (match before z with [] => [] | _ => cursor_back ++ erase end)
             /\ holds W' (zip_step z EBackspace) /\ width W' = width W /\ s_esi W' = s_esi W.
Proof.
  destruct z as [bz a i]. unfold holds. cbn [before after inserting zip_step]. intros (Hl & Hc & Hi).
  destruct (list.last bz) as [c|] eqn:El.
  - apply last_Some in El as [b ->]. rewrite removelast_last. rewrite size_snoc in Hc. pose proof (size_pos b). pose proof (size_pos a).
    exists (set_line (b ++ a) (size b) W). split_and!; try done.
    replace (match b ++ [c] with [] => [] | _ => cursor_back ++ erase end) with (cursor_back ++ erase) by by destruct b.
    apply does_write; [|key_side..]. intros s. cbn [key_bytes]. rewrite backspace_eq. unfold on_TKEY_BS. rewrite Hc, Hl.
    destruct (Z.ltb_spec 0 (size b + 1)); [|lia]. replace (size b + 1 - 1) with (size b) by lia.
    rewrite <- app_assoc. cbn [app]. rewrite cut_at_zip.
    destruct (Z.ltb_spec (size b) (size (b ++ c :: a))) as [|Hge]; [done|]. rewrite size_app in Hge. unfold size in Hge. cbn [length] in Hge. lia.
  - apply last_None in El as ->. exists W. split_and!; try done.
    apply does_nothing; [|key_side..]. intros s HW. cbn [key_bytes]. rewrite backspace_eq. unfold on_TKEY_BS. rewrite Hc.
    change (0 <? size []) with false. cbv iota beta. rewrite M_bind_eq.
    change (put ?sid W s) with (Ok tt, put_session sid W s, @nil action). rewrite (put_same _ _ _ HW). done.
Qed.

Lemma delete_does W z :
  holds W z ->
  exists W', key_does EDelete W W' (match after z with [] => [] | _ => erase end)
             /\ holds W' (zip_step z EDelete) /\ width W' = width W /\ s_esi W' = s_esi W.
Proof.
  destruct z as [b a i]. unfold holds. cbn [before after inserting zip_step]. intros (Hl & Hc & Hi).
  destruct a as [|c a]; cbn [tail].
  - exists W. split_and!; try done. apply does_nothing; [|key_side..]. intros s _. cbn [key_bytes].
    change (key regmatch esi_id ?esi W TKEY_DELETE s) with (key_delete esi_id esi W s). unfold key_delete. rewrite Hc, Hl, app_nil_r, Z.ltb_irrefl. done.
  - exists (set_line (b ++ a) (size b) W). split_and!; try done. apply does_write; [|key_side..]. intros s. cbn [key_bytes].
    change (key regmatch esi_id ?esi W TKEY_DELETE s) with (key_delete esi_id esi W s). unfold key_delete. rewrite Hc, Hl, cut_at_zip.
    destruct (Z.ltb_spec (size b) (size (b ++ c :: a))) as [|Hge]; [done|]. rewrite size_app in Hge. unfold size in Hge. cbn [length] in Hge. lia.
Qed.

Lemma left_does W z :
  holds W z -> fits W z ->
  exists W', key_does ELeft W W' (match before z with [] => [] | _ => TKEY_LEFT end)
             /\ holds W' (zip_step z ELeft) /\ width W' = width W /\ s_esi W' = s_esi W.
Proof.
  destruct z as [bz a i]. unfold holds, fits. cbn [before after inserting zip_step]. intros (Hl & Hc & Hi) Hf.
  destruct (list.last bz) as [c|] eqn:El.
  - apply last_Some in El as [b ->]. rewrite removelast_last. rewrite size_snoc in *. pose proof (size_pos b). pose proof (size_pos a).
    exists (set_line (b ++ c :: a) (size b) W). split_and!; try done.
    replace (match b ++ [c] with [] => [] | _ => TKEY_LEFT end) with TKEY_LEFT by by destruct b.
    apply does_write; [|key_side..]. intros s. cbn [key_bytes].
    change (key regmatch esi_id ?esi W TKEY_LEFT s) with (key_left esi_id esi W s). unfold key_left. rewrite Hc, Hl, <- app_assoc. cbn [app].
    destruct (rem_inside (size b + 1) (width W) ltac:(lia)) as [-> ->].
    destruct (Z.ltb_spec 0 (size b + 1)); [|lia]. replace (size b + 1 - 1) with (size b) by lia. done.
  - apply last_None in El as ->. exists W. split_and!; try done. apply does_nothing; [|key_side..]. intros s _. cbn [key_bytes].
    change (key regmatch esi_id ?esi W TKEY_LEFT s) with (key_left esi_id esi W s). unfold key_left. by rewrite Hc.
Qed.

Lemma right_does W z :
  holds W z -> fits W z ->
  exists W', key_does ERight W W' (match after z with [] => [] | _ => TKEY_RIGHT end)
             /\ holds W' (zip_step z ERight) /\ width W' = width W /\ s_esi W' = s_esi W.
Proof.
  destruct z as [b a i]. unfold holds, fits. cbn [before after inserting zip_step]. intros (Hl & Hc & Hi) Hf.
  destruct a as [|c a].
  - exists W. split_and!; try done. apply does_nothing; [|key_side..]. intros s _. cbn [key_bytes].
    change (key regmatch esi_id ?esi W TKEY_RIGHT s) with (key_right esi_id esi W s). unfold key_right. rewrite Hc, Hl, app_nil_r, Z.ltb_irrefl. done.
  - pose proof (size_pos b). pose proof (size_pos a). assert (size (c :: a) = 1 + size a) as Hs by (unfold size; cbn [length]; lia).
    exists (set_line ((b ++ [c]) ++ a) (size (b ++ [c])) W). split_and!; try done. apply does_write; [|key_side..]. intros s. cbn [key_bytes].
    change (key regmatch esi_id ?esi W TKEY_RIGHT s) with (key_right esi_id esi W s). unfold key_right. rewrite Hc, Hl, size_snoc, <- app_assoc. cbn [app].
    destruct (rem_inside (size b + 1) (width W) ltac:(lia)) as [-> ->].
    destruct (Z.ltb_spec (size b) (size (b ++ c :: a))) as [|Hge]; [done|]. rewrite size_app in Hge. lia.
Qed.

Lemma insert_does W z :
  holds W z ->
  exists W', key_does EInsert W W' (if inserting z then replace_mode else insert_mode)
             /\ holds W' (zip_step z EInsert) /\ width W' = width W /\ s_esi W' = s_esi W.
Proof.
  destruct z as [b a i]. unfold holds. cbn [before after inserting zip_step]. intros (Hl & Hc & Hi).
  exists (set_insertMode (negb i) W). split_and!; try done. apply does_write; [|key_side..]. intros s. cbn [key_bytes].
  change (key regmatch esi_id ?esi W TKEY_INSERT s)
    with ((let m := negb (insertMode W) in _ ← put (esi_id esi) (set_insertMode m W); write esi (if m then insert_mode else replace_mode)) s).
  rewrite Hi. by destruct i.
Qed.

(** ** The terminal follows *)

Lemma take_shown (p b a : list Z) : take (length p + length b) (p ++ b ++ a) = p ++ b.
Proof. rewrite app_assoc, <- length_app. by rewrite take_app_length. Qed.

Lemma drop_shown (p b a : list Z) n : drop (n + (length p + length b)) (p ++ b ++ a) = drop n a.
Proof. rewrite app_assoc, <- length_app, Nat.add_comm. by rewrite drop_app_add. Qed.

Lemma shows_char p z t c : shows p z t -> 32 <= c < 127 -> shows p (zip_step z (EChar c)) (feed t [c]).
Proof.
  destruct z as [b a i], t as [r cl n q]. unfold shows, feed. cbn. intros (-> & -> & -> & ->) Hc.
  unfold term_byte. cbn [ps row col ins]. destruct (Z.eqb_spec c 27); [lia|]. unfold put_char. cbn [row col ins ps].
  rewrite !length_app. replace (_ - _)%nat with 0%nat by lia. cbn [replicate]. rewrite app_nil_r, take_shown.
  split_and!; [|cbn; lia|done|done]. rewrite <- !app_assoc. do 3 f_equal.
  destruct i; [exact (drop_shown p b a 0)|]. etransitivity; [exact (drop_shown p b a 1)|]. by destruct a.
Qed.

Lemma feed_app t a b : feed t (a ++ b) = feed (feed t a) b.
Proof. apply fold_left_app. Qed.

Lemma feed_back r c i : feed (mkTerm r c i Ground) cursor_back = mkTerm r (c - 1) i Ground.
Proof. reflexivity. Qed.

Lemma feed_left r c i : feed (mkTerm r c i Ground) TKEY_LEFT = mkTerm r (c - 1) i Ground.
Proof. reflexivity. Qed.

Lemma feed_right r c i : feed (mkTerm r c i Ground) TKEY_RIGHT = mkTerm r (c + 1) i Ground.
Proof. reflexivity. Qed.

Lemma feed_erase r c i : feed (mkTerm r c i Ground) erase = mkTerm (take c r ++ drop (S c) r) c i Ground.
Proof. reflexivity. Qed.

Lemma erase_shown (p b a : list Z) c : take (length p + length b) (p ++ b ++ c :: a) ++ drop (S (length p + length b)) (p ++ b ++ c :: a) = p ++ b ++ a.
Proof. rewrite take_shown, <- app_assoc. do 2 f_equal. exact (drop_shown p b (c :: a) 1). Qed.

Lemma shows_backspace p z t :
  shows p z t -> shows p (zip_step z EBackspace) (feed t (match before z with [] => [] | _ => cursor_back ++ erase end)).
Proof.
  destruct z as [bz a i], t as [r cl n q]. unfold shows. cbn [before after inserting zip_step row col ins ps]. intros (-> & -> & -> & ->).
  destruct (list.last bz) as [c|] eqn:El; [|by apply last_None in El as ->].
  apply last_Some in El as [b ->]. rewrite removelast_last.
  replace (match b ++ [c] with [] => [] | _ => cursor_back ++ erase end) with (cursor_back ++ erase) by by destruct b.
  rewrite feed_app, feed_back, feed_erase, length_app, <- app_assoc. cbn [app length row col ins ps].
  replace (length p + (length b + 1) - 1)%nat with (length p + length b)%nat by lia. by rewrite erase_shown.
Qed.

Lemma shows_delete p z t :
  shows p z t -> shows p (zip_step z EDelete) (feed t (match after z with [] => [] | _ => erase end)).
Proof.
  destruct z as [b a i], t as [r cl n q]. unfold shows. cbn [before after inserting zip_step row col ins ps]. intros (-> & -> & -> & ->).
  destruct a as [|c a]; [done|]. rewrite feed_erase. cbn [tail row col ins ps]. by rewrite erase_shown.
Qed.

Lemma shows_left p z t :
  shows p z t -> shows p (zip_step z ELeft) (feed t (match before z with [] => [] | _ => TKEY_LEFT end)).
Proof.
  destruct z as [bz a i], t as [r cl n q]. unfold shows. cbn [before after inserting zip_step row col ins ps]. intros (-> & -> & -> & ->).
  destruct (list.last bz) as [c|] eqn:El; [|by apply last_None in El as ->].
  apply last_Some in El as [b ->]. rewrite removelast_last.
  replace (match b ++ [c] with [] => [] | _ => TKEY_LEFT end) with TKEY_LEFT by by destruct b.
  rewrite feed_left, length_app. cbn [length before after inserting row col ins ps]. rewrite <- app_assoc. split_and!; [done|lia|done..].
Qed.

Lemma shows_right p z t :
  shows p z t -> shows p (zip_step z ERight) (feed t (match after z with [] => [] | _ => TKEY_RIGHT end)).
Proof.
  destruct z as [b a i], t as [r cl n q]. unfold shows. cbn [before after inserting zip_step row col ins ps]. intros (-> & -> & -> & ->).
  destruct a as [|c a]; [done|]. rewrite feed_right. cbn [before after inserting row col ins ps].
  rewrite length_app, <- app_assoc. split_and!; [done|cbn; lia|done..].
Qed.

Lemma shows_insert p z t :
  shows p z t -> shows p (zip_step z EInsert) (feed t (if inserting z then replace_mode else insert_mode)).
Proof.
  destruct z as [b a i], t as [r cl n q]. unfold shows. cbn [before after inserting zip_step row col ins ps]. intros (-> & -> & -> & ->).
  by destruct i.
Qed.

Lemma key_step W z k :
  holds W z -> fits W z -> edit_ok k ->
  exists W' d, key_does k W W' d /\ holds W' (zip_step z k) /\ width W' = width W /\ s_esi W' = s_esi W
               /\ forall p t, shows p z t -> shows p (zip_step z k) (feed t d).
Proof.
  intros Hh Hf Hk. destruct k as [c| | | | |].
  - destruct (char_does W z c Hh Hk) as (W' & ? & ? & ? & ?). exists W', [c]. split_and!; try done. intros p t Ht. by apply shows_char.
  - destruct (backspace_does W z Hh) as (W' & ? & ? & ? & ?). eexists W', _. split_and!; try done. intros p t Ht. by apply shows_backspace.
  - destruct (delete_does W z Hh) as (W' & ? & ? & ? & ?). eexists W', _. split_and!; try done. intros p t Ht. by apply shows_delete.
  - destruct (left_does W z Hh Hf) as (W' & ? & ? & ? & ?). eexists W', _. split_and!; try done. intros p t Ht. by apply shows_left.
  - destruct (right_does W z Hh Hf) as (W' & ? & ? & ? & ?). eexists W', _. split_and!; try done. intros p t Ht. by apply shows_right.
  - destruct (insert_does W z Hh) as (W' & ? & ? & ? & ?). eexists W', _. split_and!; try done. intros p t Ht. by apply shows_insert.
Qed.

Lemma sent_app esi l l' : sent esi (l ++ l') = sent esi l ++ sent esi l'.
Proof. unfold sent. by rewrite fmap_app, join_app. Qed.

Lemma zip_step_grows z k :
  size (before (zip_step z k)) + size (after (zip_step z k)) <= size (before z) + size (after z) + 1.
Proof.
  destruct z as [b a i]. destruct k as [c| | | | |]; cbn [zip_step before after inserting]; rewrite ?size_snoc.
  - destruct i, a; unfold size; cbn [length tail]; lia.
  - destruct (list.last b) as [x|] eqn:E; [|apply last_None in E as ->; cbn; lia].
    apply last_Some in E as [b' ->]. rewrite removelast_last, size_snoc. lia.
  - destruct a; unfold size; cbn [length tail]; lia.
  - destruct (list.last b) as [x|] eqn:E; [|cbn [before after]; lia].
    apply last_Some in E as [b' ->]. rewrite removelast_last, size_snoc. unfold size. cbn [before after length]. lia.
  - destruct a; cbn [before after]; rewrite ?size_snoc; unfold size; cbn [length]; lia.
  - lia.
Qed.

(** The keys as they arrive, each in a read of its own. *)
Definition type_keys (newid : SOCKET_id) (rt : route_t) (esi : ptr) (ks : list edit) : M Telnet unit :=
  foreach (fun k => _ ← telnet_handleEvent regmatch esi_id (fun _ => key_bytes k) newid
                              (mkEvent (Esocket (socketEvent.StreamRead esi)) rt); mret tt) ks.

Lemma type_one newid rt W W' d k ks s :
  key_does k W W' d -> sessions s !! esi_id (s_esi W) = Some W ->
  exists l, sent (s_esi W) l = d
  /\ type_keys newid rt (s_esi W) (k :: ks) s
     = (let '(r, s2, l2) := type_keys newid rt (s_esi W) ks (put_session (esi_id (s_esi W)) W' s) in (r, s2, l ++ l2)).
Proof.
  intros Hk HW. destruct (Hk s HW) as (l & He & Hd). exists l. split; [done|].
  unfold type_keys. cbn [foreach]. rewrite !M_bind_eq.
  change (telnet_handleEvent _ _ _ _ _ s) with (on_StreamRead regmatch esi_id (s_esi W) (key_bytes k) s).
  rewrite He. cbn. by rewrite app_nil_r.
Qed.

End Edit.


(** A window of width 0, which the client may report, makes LEFT divide by
    zero. *)
Lemma naws_zero_width_UB regmatch esi_id esi s W h1 h2 :
  sessions s !! esi_id esi = Some W -> 0 < curpos W ->
  let read d := on_StreamRead regmatch esi_id esi d in
  exists s', (_ ← read [IAC; SB; TELOPT_NAWS; 0; 0; h1; h2; IAC; SE]; read TKEY_LEFT) s = (Throw (UB "cp % 0"), s', []).
Proof.
  intros HW Hc read. rewrite M_bind_eq. subst read. set (W' := set_window 0 (Z.lor (Z.shiftl h1 8) h2) W).
  replace (on_StreamRead _ _ _ [IAC; _; _; _; _; _; _; _; _] s) with (Ok true, put_session (esi_id esi) W' s, @nil action).
  2:{ unfold on_StreamRead. rewrite M_bind_eq. cbn [gets id]. by rewrite HW. }
  cbv beta iota. change (TKEY_LEFT) with (27 :: [91; 68]).
  rewrite (on_StreamRead_key _ _ _ _ W'); [|exact (lookup_insert_eq _ _ _)|done].
  change (key regmatch esi_id esi W' [27; 91; 68] ?s) with (key_left esi_id esi W' s). unfold key_left.
  change (curpos W') with (curpos W). destruct (Z.ltb_spec 0 (curpos W)); [|lia]. eexists. reflexivity.
Qed.

Lemma naws_zero_width_UB_witness :
  let W := set_line [97] 1 (Session_new 1 7) in
  let read d := on_StreamRead (fun _ _ => None) id 7 d in
  exists s', (_ ← read [IAC; SB; TELOPT_NAWS; 0; 0; 0; 24; IAC; SE]; read TKEY_LEFT) (set_sessions {[7 := W]} telnet_new)
             = (Throw (UB "cp % 0"), s', []).
Proof. intros W. apply (naws_zero_width_UB _ _ _ _ W); [reflexivity|cbn; lia]. Defined.
