(* ===== verification/TelnetCommands.v ===== *)
(** The commands of the telnet service: completion, registration, ENTER and the
    reply. *)

From Stdlib Require Import ZArith Lia.
From stdpp Require Import base gmap strings numbers list.
From S2P Require Import Prelude StdMap IoBuffer Codec Route CLib Text Sockaddr Config Events Service Telnet TelnetEdit.
Open Scope Z_scope.

(** ** Completion *)

Lemma starts_with_prefix t s : starts_with t s = true <-> t `prefix_of` s.
Proof.
  unfold starts_with. rewrite bool_decide_eq_true. split.
  - intros H. exists (drop (length t) s). rewrite <- H at 1. by rewrite take_drop.
  - intros [k ->]. by rewrite take_app_length.
Qed.

Lemma strmax_prefix a b n : (n <= strmax a b)%nat <-> (n <= length a)%nat /\ take n a `prefix_of` b.
Proof.
  revert b n. induction a as [|x a IH]; intros [|y b] n; cbn.
  - split; [intros H; replace n with O by lia; split; [lia|apply prefix_nil]|lia].
  - split; [intros H; replace n with O by lia; split; [lia|apply prefix_nil]|lia].
  - split; [intros H; replace n with O by lia; split; [lia|apply prefix_nil]|].
    intros [_ H]. destruct n; [lia|]. by apply prefix_nil_not in H.
  - destruct n as [|n]; [split; [intros _; split; [lia|apply prefix_nil]|lia]|].
    destruct (Z.eqb_spec x y) as [->|Hne].
    + rewrite <- Nat.succ_le_mono, IH. cbn. split; intros [H1 H2]; (split; [lia|]);
        [by apply prefix_cons|by eapply prefix_cons_inv_2].
    + split; [lia|]. intros [_ H]. cbn in H. by apply prefix_cons_inv_1 in H.
Qed.

Lemma fold_min_le (f : list Z -> nat) l acc n :
  (n <= fold_left (fun a s => Nat.min a (f s)) l acc <-> n <= acc /\ Forall (fun s => n <= f s) l)%nat.
Proof.
  revert acc. induction l as [|s l IH]; intros acc; cbn; [by split; [intros H; split; [done|constructor]|intros []]|].
  rewrite IH, Forall_cons. rewrite Nat.min_glb_iff. tauto.
Qed.

(** TAB completes to the longest text that all the candidates share: what is
    appended extends the line to a prefix of every command and directory name
    that starts with the line, every common prefix of them is a prefix of the
    completed line, and with no candidate nothing is appended. *)
Lemma completion_longest_common_prefix v templ :
  let c := List.filter (starts_with templ) v in
  let line := templ ++ getAutoAppendString v templ in
  (c = [] -> line = templ)
  /\ Forall (fun s => line `prefix_of` s) c
  /\ (c <> [] -> forall q, Forall (fun s => q `prefix_of` s) c -> q `prefix_of` line).
Proof.
  intros c line. subst line. unfold getAutoAppendString. fold c.
  assert (Forall (fun s => templ `prefix_of` s) c) as Hc.
  { apply Forall_forall. intros s Hs. apply list_elem_of_In, filter_In in Hs as [_ Hs]. by apply starts_with_prefix. }
  clearbody c. destruct c as [|m vm]; [split_and!; by rewrite ?app_nil_r|].
  set (max := fold_left _ (m :: vm) (length m)).
  pose proof (fold_min_le (strmax m) (m :: vm) (length m)) as Hmax. fold max in Hmax.
  assert (length templ <= max)%nat as Ht.
  { apply Hmax. assert (templ `prefix_of` m) as Hm by by inversion Hc. destruct Hm as [k Hk]. split; [rewrite Hk, length_app; lia|].
    eapply Forall_impl; [exact Hc|]. intros s Hs. apply strmax_prefix. rewrite Hk, length_app, take_app_length. split; [lia|done]. }
  assert (templ ++ take (max - length templ) (drop (length templ) m) = take max m) as ->.
  { inversion Hc as [|? ? [k Hk] _]; subst. rewrite drop_app_length. rewrite take_app. by rewrite (take_ge templ) by lia. }
  split_and!; [done| |].
  - destruct (proj1 (Hmax max) (le_n _)) as [_ Hall].
    eapply Forall_impl; [exact Hall|]. intros s Hs. by apply strmax_prefix in Hs as [_ Hs].
  - intros _ q Hq. assert (length q <= max)%nat as Hl.
    { apply Hmax. inversion Hq as [|? ? [k Hk] _]; subst. split; [rewrite length_app; lia|].
      eapply Forall_impl; [exact Hq|]. intros s Hs. apply strmax_prefix. rewrite length_app, take_app_length. split; [lia|done]. }
    inversion Hq as [|? ? [k Hk] _]; subst. exists (take (max - length q) k). rewrite take_app. by rewrite (take_ge q) by lia.
Qed.

(** ** The tree *)

(** The node that a path leads to. *)
Fixpoint walk (h : gmap ptr Node) (n : ptr) (ds : list (list Z)) : option ptr :=
  match ds with
  | [] => Some n
  | t :: ds' => x ← h !! n; c ← map_find str_lt t (m_children x); walk h c ds'
  end.

Definition node_wf (h : gmap ptr Node) (n : ptr) (x : Node) : Prop :=
  map_sorted str_lt (m_children x) /\ map_sorted str_lt (m_commands x)
  /\ forall t c, map_find str_lt t (m_children x) = Some c ->
     n < c /\ exists y, h !! c = Some y /\ n_name y = t /\ n_parent y = n.

Record tree_wf (s : Telnet) : Prop := {
  wf_root : exists x, nodes s !! m_root s = Some x /\ n_name x = [] /\ n_parent x = 0;
  wf_dom : forall n, is_Some (nodes s !! n) <-> 1 <= n < next_node s;
  wf_size : Z.of_nat (base.size (nodes s)) = next_node s - 1;
  wf_node : forall n x, nodes s !! n = Some x -> node_wf (nodes s) n x;
}.

Lemma walk_app h n a b : walk h n (a ++ b) = m ← walk h n a; walk h m b.
Proof.
  revert n. induction a as [|t a IH]; intros n; cbn; [done|].
  destruct (h !! n) as [x|]; cbn; [|done]. destruct (map_find str_lt t (m_children x)); cbn; [apply IH|done].
Qed.

Lemma walk_in s n ds m : tree_wf s -> is_Some (nodes s !! n) -> walk (nodes s) n ds = Some m -> is_Some (nodes s !! m).
Proof.
  intros Hwf. revert n. induction ds as [|t ds IH]; intros n Hn; cbn; [by intros [= <-]|].
  destruct Hn as [x Hx]. rewrite Hx. cbn. destruct (map_find str_lt t (m_children x)) as [c|] eqn:Ec; cbn; [|done].
  apply IH. destruct (wf_node s Hwf n x Hx) as (_ & _ & H). destruct (H t c Ec) as (_ & y & Hy & _). by eexists.
Qed.

Lemma find_dir_walk s n ds m :
  tree_wf s -> is_Some (nodes s !! n) -> walk (nodes s) n ds = Some m -> find_dir n ds s = (Ok m, s, []).
Proof.
  intros Hwf. revert n. induction ds as [|t ds IH]; intros n Hn; cbn -[getSubDir]; [by intros [= <-]|].
  pose proof (proj1 (wf_dom s Hwf n) Hn) as Hpos. destruct Hn as [x Hx]. rewrite Hx. cbn -[getSubDir].
  destruct (map_find str_lt t (m_children x)) as [c|] eqn:Ec; cbn -[getSubDir]; [|done]. intros Hw.
  destruct (wf_node s Hwf n x Hx) as (_ & _ & H). destruct (H t c Ec) as (Hlt & y & Hy & _).
  rewrite M_bind_eq. replace (getSubDir n t s) with (Ok c, s, @nil action).
  2:{ unfold getSubDir. rewrite M_bind_eq. unfold the_node. rewrite Hx. cbn. by rewrite Ec. }
  destruct (Z.eqb_spec c 0); [lia|]. rewrite (IH c) by (done || by eexists). done.
Qed.

(** A walk only depends on the nodes it can meet. *)
Lemma walk_agree s h n ds :
  tree_wf s -> is_Some (nodes s !! n) -> (forall m, is_Some (nodes s !! m) -> h !! m = nodes s !! m) ->
  walk h n ds = walk (nodes s) n ds.
Proof.
  intros Hwf Hn Hag. revert n Hn. induction ds as [|t ds IH]; intros n Hn; cbn; [done|].
  rewrite Hag by done. destruct Hn as [x Hx]. rewrite Hx. cbn.
  destruct (map_find str_lt t (m_children x)) as [c|] eqn:Ec; cbn; [|done]. apply IH.
  destruct (wf_node s Hwf n x Hx) as (_ & _ & H). destruct (H t c Ec) as (_ & y & Hy & _). by eexists.
Qed.

(** *** Registration *)

Definition same_id (h h' : gmap ptr Node) : Prop :=
  forall c y, h !! c = Some y -> exists y', h' !! c = Some y' /\ n_name y' = n_name y /\ n_parent y' = n_parent y.

Lemma node_wf_mono h h' n x : same_id h h' -> node_wf h n x -> node_wf h' n x.
Proof.
  intros Hid (H1 & H2 & H3). split_and!; [done..|]. intros t c Hc. destruct (H3 t c Hc) as (Hlt & y & Hy & <- & <-).
  split; [done|]. destruct (Hid c y Hy) as (y' & ? & ? & ?). by exists y'.
Qed.

Definition with_child (name : list Z) (p : ptr) (x : Node) : Node :=
  mkNode (n_name x) (n_help x) (n_parent x) (map_insert str_lt name p (m_children x)) (m_commands x).

(** The service with a new directory under [n]. *)
Definition dir_added (n : ptr) (name help : list Z) (s : Telnet) : Telnet :=
  mkTelnet (alter (with_child name (next_node s)) n (<[next_node s := mkNode name help n [] []]> (nodes s)))
           (next_node s + 1) (m_root s) (sessions s) (m_deviceName s).

Lemma registerDirectory_ok s d n name help :
  tree_wf s -> walk (nodes s) (m_root s) d = Some n -> registerDirectory d name help s = (Ok tt, dir_added n name help s, []).
Proof.
  intros Hwf Hw. unfold registerDirectory. rewrite M_bind_eq. cbn [gets id]. rewrite M_bind_eq.
  destruct (wf_root s Hwf) as (r & Hr & _). by rewrite (find_dir_walk s _ _ n) by (done || by eexists).
Qed.

Lemma alter_size (f : Node -> Node) n (h : gmap ptr Node) : base.size (alter f n h) = base.size h.
Proof. by rewrite <- !size_dom, (dom_alter_L f). Qed.

Section Added.
Context (s : Telnet) (n : ptr) (x : Node) (name help : list Z).
Context (Hwf : tree_wf s) (Hx : nodes s !! n = Some x).
Let p : ptr := next_node s.
Let s' : Telnet := dir_added n name help s.

Lemma added_old_fresh : n < p /\ nodes s !! p = None.
Proof.
  split; [apply (wf_dom s Hwf); by eexists|]. destruct (nodes s !! p) eqn:E; [|done].
  assert (1 <= p < next_node s) by (apply (wf_dom s Hwf); by eexists). unfold p in *. lia.
Qed.

Lemma added_new : nodes s' !! p = Some (mkNode name help n [] []).
Proof.
  destruct added_old_fresh as [Hlt _]. unfold s', dir_added. cbn [nodes]. rewrite lookup_alter_ne by (unfold p, ptr in *; lia).
  apply lookup_insert_eq.
Qed.

Lemma added_at : nodes s' !! n = Some (with_child name p x).
Proof.
  destruct added_old_fresh as [Hlt _]. unfold s', dir_added. cbn [nodes].
  rewrite lookup_alter_eq, lookup_insert_ne by (unfold p, ptr in *; lia). by rewrite Hx.
Qed.

Lemma added_else m : m <> n -> m <> p -> nodes s' !! m = nodes s !! m.
Proof. intros H1 H2. unfold s', dir_added. cbn [nodes]. by rewrite lookup_alter_ne, lookup_insert_ne by done. Qed.

Lemma added_same_id : same_id (nodes s) (nodes s').
Proof.
  intros c y Hy. destruct added_old_fresh as [_ Hf]. destruct (decide (c = n)) as [->|Hne].
  - rewrite added_at. replace y with x by congruence. by eexists.
  - rewrite added_else by (done || congruence). by exists y.
Qed.

Lemma added_node_wf m y : nodes s' !! m = Some y -> node_wf (nodes s') m y.
Proof.
  destruct added_old_fresh as [Hlt Hf]. destruct (decide (m = p)) as [->|Hp]; [rewrite added_new; intros [= <-]; by split_and!|].
  destruct (decide (m = n)) as [->|Hn].
  - rewrite added_at. intros [= <-]. destruct (node_wf_mono _ _ _ _ added_same_id (wf_node s Hwf n x Hx)) as (H1 & H2 & H3).
    split_and!; [by apply (map_insert_sorted str_lt)|done|]. intros t c. cbn [with_child m_children].
    destruct (decide (t = name)) as [->|Ht].
    + rewrite (map_find_insert_eq str_lt) by done. intros [= <-].
      destruct (map_find str_lt name (m_children x)) as [c|] eqn:Ec; cbn; [by apply H3|].
      split; [done|]. exists (mkNode name help n [] []). split; [apply added_new|done].
    + rewrite (map_find_insert_ne str_lt) by done. apply H3.
  - rewrite added_else by done. intros Hy. apply (node_wf_mono (nodes s)); [apply added_same_id|by apply (wf_node s Hwf)].
Qed.

Lemma dir_added_wf : tree_wf s'.
Proof.
  destruct added_old_fresh as [Hlt Hf]. split.
  - destruct (wf_root s Hwf) as (r & Hr & Hn & Hp). destruct (added_same_id _ _ Hr) as (r' & ? & ? & ?).
    exists r'. split_and!; [done|congruence..].
  - intros m. unfold s', dir_added. cbn [nodes next_node]. rewrite lookup_alter_is_Some. fold p.
    destruct (decide (m = p)) as [->|Hne].
    + rewrite lookup_insert_eq. split; [|by eexists]. intros _. pose proof (proj1 (wf_dom s Hwf n) ltac:(by eexists)). unfold p in *. lia.
    + rewrite lookup_insert_ne by done. rewrite (wf_dom s Hwf m). fold p. unfold p, ptr in *. lia.
  - unfold s', dir_added. cbn [nodes next_node]. rewrite alter_size, map_size_insert_None by done. pose proof (wf_size s Hwf). lia.
  - exact added_node_wf.
Qed.
End Added.

Lemma map_insert_found {V} k (v w : V) (m : str_map V) : map_find str_lt k m = Some w -> map_insert str_lt k v m = m.
Proof.
  induction m as [|[k' v'] m IH]; cbn; [done|]. destruct (str_lt k' k); [intros H; by rewrite IH|].
  by destruct (str_lt k k').
Qed.

Lemma walk_added s n x name help a ds b :
  tree_wf s -> nodes s !! n = Some x -> is_Some (nodes s !! a) ->
  walk (nodes s) a ds = Some b -> walk (nodes (dir_added n name help s)) a ds = Some b.
Proof.
  intros Hwf Hx. revert a. induction ds as [|t ds IH]; intros a Ha; cbn [walk]; [done|].
  destruct Ha as [y Hy]. rewrite Hy. cbn [mbind option_bind]. destruct (map_find str_lt t (m_children y)) as [c|] eqn:Ec; cbn [mbind option_bind]; [|done]. intros Hw.
  destruct (wf_node s Hwf a y Hy) as (Hso & _ & H). destruct (H t c Ec) as (_ & z & Hz & _).
  assert (walk (nodes (dir_added n name help s)) c ds = Some b) as Hc by (apply IH; [by eexists|done]).
  destruct (added_old_fresh s n x Hwf Hx) as [Hlt Hf].
  destruct (decide (a = n)) as [->|Hne].
  - rewrite (added_at s n x) by done. replace y with x in * by congruence. cbn [mbind option_bind with_child m_children].
    destruct (decide (t = name)) as [->|Ht].
    + by rewrite (map_find_insert_eq str_lt), Ec by done.
    + by rewrite (map_find_insert_ne str_lt), Ec by done.
  - rewrite added_else, Hy by congruence. cbn [mbind option_bind]. by rewrite Ec.
Qed.

Lemma walk_new s n x d name help :
  tree_wf s -> nodes s !! n = Some x -> walk (nodes s) (m_root s) d = Some n ->
  walk (nodes (dir_added n name help s)) (m_root s) (d ++ [name])
  = Some (default (next_node s) (map_find str_lt name (m_children x))).
Proof.
  intros Hwf Hx Hw. destruct (wf_root s Hwf) as (r & Hr & _).
  rewrite walk_app, (walk_added s n x name help _ _ n) by (done || by eexists). cbn [mbind option_bind walk].
  rewrite (added_at s n x) by done. cbn [mbind option_bind with_child m_children]. destruct (wf_node s Hwf n x Hx) as (Hso & _). by rewrite (map_find_insert_eq str_lt).
Qed.

(** A directory that is there is left as it is. *)
Lemma dir_there s n x name help c :
  tree_wf s -> nodes s !! n = Some x -> map_find str_lt name (m_children x) = Some c ->
  forall m, is_Some (nodes s !! m) -> nodes (dir_added n name help s) !! m = nodes s !! m.
Proof.
  intros Hwf Hx Hc m Hm. destruct (added_old_fresh s n x Hwf Hx) as [Hlt Hf].
  destruct (decide (m = n)) as [->|Hne].
  - rewrite (added_at s n x) by done. unfold with_child. rewrite (map_insert_found _ _ c) by done. rewrite Hx. by destruct x.
  - apply added_else; [done|]. intros ->. rewrite Hf in Hm. by destruct Hm.
Qed.

Definition same_rest (s s' : Telnet) : Prop :=
  m_root s' = m_root s /\ sessions s' = sessions s /\ m_deviceName s' = m_deviceName s.

(** The directory that [register_dirs] leaves: the one that was there, untouched,
    or an empty one. *)
Definition dir_ready (s s1 : Telnet) (n : ptr) (d : list (list Z)) (n1 : ptr) : Prop :=
  match walk (nodes s) n d with
  | Some m => n1 = m /\ nodes s1 !! m = nodes s !! m
  | None => exists x, nodes s1 !! n1 = Some x /\ m_children x = [] /\ m_commands x = []
  end.

Lemma register_dirs_ok d : forall s dbase n,
  tree_wf s -> walk (nodes s) (m_root s) dbase = Some n ->
  exists s1 n1, register_dirs dbase d s = (Ok tt, s1, []) /\ tree_wf s1 /\ same_rest s s1
                /\ walk (nodes s1) (m_root s1) (dbase ++ d) = Some n1 /\ dir_ready s s1 n d n1.
Proof.
  induction d as [|t d IH]; intros s dbase n Hwf Hw.
  { exists s, n. rewrite app_nil_r. done. }
  assert (is_Some (nodes s !! n)) as [x Hx].
  { destruct (wf_root s Hwf) as (r & Hr & _). apply (walk_in s (m_root s) dbase); [done|by eexists|done]. }
  cbn [register_dirs]. rewrite M_bind_eq, (registerDirectory_ok s dbase n) by done. cbv beta iota.
  pose proof (dir_added_wf s n x t (lit "Directory") Hwf Hx) as Hwf'. set (s' := dir_added n t (lit "Directory") s) in *.
  destruct (IH s' (dbase ++ [t]) _ Hwf' (walk_new s n x dbase t _ Hwf Hx Hw)) as (s1 & n1 & -> & Hwf1 & (? & ? & ?) & Hw1 & Hd1).
  exists s1, n1. rewrite <- app_assoc in Hw1. split_and!; try done. unfold dir_ready in *. cbn [walk]. rewrite Hx. cbn [mbind option_bind].
  destruct (map_find str_lt t (m_children x)) as [c|] eqn:Ec; cbn [mbind option_bind default id] in *.
  - pose proof (dir_there s n x t (lit "Directory") c Hwf Hx Ec) as Hag. fold s' in Hag.
    destruct (wf_node s Hwf n x Hx) as (_ & _ & Hch). destruct (Hch t c Ec) as (_ & y & Hy & _).
    cbn [id] in Hd1. rewrite (walk_agree s) in Hd1 by (done || by eexists).
    destruct (walk (nodes s) c d) as [m|] eqn:Em; [|done]. destruct Hd1 as [-> Hd1]. split; [done|].
    rewrite Hd1. apply Hag. eapply walk_in; [done| |exact Em]. by eexists.
  - destruct d as [|t' d]; cbn [walk] in Hd1; unfold s' in Hd1; rewrite (added_new s n x) in Hd1 by done.
    + destruct Hd1 as [-> Hd1]. by eexists.
    + done.
Qed.

Definition with_command (cmd : list Z) (c : Command) (x : Node) : Node :=
  mkNode (n_name x) (n_help x) (n_parent x) (m_children x) (map_insert str_lt cmd c (map_erase str_lt cmd (m_commands x))).

Definition command_added (n : ptr) (cmd : list Z) (c : Command) (s : Telnet) : Telnet :=
  set_nodes (alter (with_command cmd c) n (nodes s)) s.

Lemma command_lookup n cmd c s m :
  nodes (command_added n cmd c s) !! m = if decide (m = n) then with_command cmd c <$> nodes s !! m else nodes s !! m.
Proof.
  unfold command_added. cbn. destruct (decide (m = n)) as [->|Hne]; [apply lookup_alter_eq|by apply lookup_alter_ne].
Qed.

Lemma command_added_wf n cmd c s : tree_wf s -> tree_wf (command_added n cmd c s).
Proof.
  intros Hwf.
  assert (same_id (nodes s) (nodes (command_added n cmd c s))) as Hid.
  { intros m y Hy. rewrite command_lookup, Hy. destruct (decide (m = n)); by eexists. }
  split.
  - destruct (wf_root s Hwf) as (r & Hr & Hn & Hp). destruct (Hid _ _ Hr) as (r' & ? & ? & ?). exists r'. split_and!; [done|congruence..].
  - intros m. unfold command_added. cbn [nodes next_node set_nodes]. rewrite lookup_alter_is_Some. apply (wf_dom s Hwf).
  - unfold command_added. cbn [nodes next_node set_nodes]. rewrite alter_size. apply (wf_size s Hwf).
  - intros m y. rewrite command_lookup. destruct (nodes s !! m) as [x|] eqn:Ex; [|by destruct (decide (m = n))].
    pose proof (node_wf_mono _ _ _ _ Hid (wf_node s Hwf m x Ex)) as (H1 & H2 & H3).
    destruct (decide (m = n)); cbn; intros [= <-]; [|done]. split_and!; [done| |done].
    cbn. by apply (map_insert_sorted str_lt), (map_erase_sorted str_lt).
Qed.

Lemma walk_command n cmd c s a ds : walk (nodes (command_added n cmd c s)) a ds = walk (nodes s) a ds.
Proof.
  revert a. induction ds as [|t ds IH]; intros a; cbn [walk]; [done|]. rewrite command_lookup.
  destruct (nodes s !! a) as [x|]; destruct (decide (a = n)); cbn [fmap option_fmap option_map mbind option_bind with_command m_children]; try done;
    destruct (map_find str_lt t (m_children x)); cbn [mbind option_bind]; done.
Qed.

(** Paths are given from the directory up to the root. *)
Lemma path_names_walk s ds : forall n m f,
  tree_wf s -> is_Some (nodes s !! n) -> walk (nodes s) n ds = Some m -> (Z.to_nat m <= f)%nat ->
  exists f', (Z.to_nat n <= f')%nat /\ path_names f (nodes s) m = rev ds ++ path_names f' (nodes s) n.
Proof.
  induction ds as [|t ds IH] using rev_ind; intros n m f Hwf Hn Hw Hf.
  { injection Hw as <-. by exists f. }
  rewrite walk_app in Hw. destruct (walk (nodes s) n ds) as [k|] eqn:Ek; cbn [mbind option_bind walk] in Hw; [|done].
  destruct (walk_in s n ds k Hwf Hn Ek) as [x Hx]. rewrite Hx in Hw. cbn [mbind option_bind] in Hw.
  destruct (map_find str_lt t (m_children x)) as [c|] eqn:Ec; [|done]. injection Hw as <-.
  destruct (wf_node s Hwf k x Hx) as (_ & _ & H). destruct (H t c Ec) as (Hlt & y & Hy & Hnm & Hpa).
  assert (1 <= k) as Hk by (apply (wf_dom s Hwf); by eexists).
  destruct f as [|f]; [unfold ptr in *; lia|]. cbn [path_names]. rewrite Hy, Hnm, Hpa. destruct (Z.eqb_spec k 0); [lia|].
  destruct (IH n k f Hwf Hn Ek ltac:(unfold ptr in *; lia)) as (f' & Hf' & ->). exists f'. split; [done|]. by rewrite rev_app_distr.
Qed.

Lemma path_of_walk s ds n :
  tree_wf s -> walk (nodes s) (m_root s) ds = Some n -> path_of s n = join (lit "/") (rev ds ++ [[]]).
Proof.
  intros Hwf Hw. destruct (wf_root s Hwf) as (r & Hr & Hnm & Hpa).
  assert (is_Some (nodes s !! n)) as Hn by (eapply walk_in; [done| |exact Hw]; by eexists).
  apply (wf_dom s Hwf) in Hn. pose proof (wf_size s Hwf).
  destruct (path_names_walk s ds (m_root s) n (S (base.size (nodes s))) Hwf ltac:(by eexists) Hw ltac:(unfold ptr in *; lia)) as (f & Hf & E).
  assert (1 <= m_root s) by (apply (wf_dom s Hwf); by eexists).
  unfold path_of. rewrite E. destruct f as [|f]; [unfold ptr in *; lia|]. cbn [path_names]. by rewrite Hr, Hnm, Hpa.
Qed.

(** ** Lines *)

Definition builtins : list (list Z) := [lit "quit"; lit "ls"; lit "help"; lit "cd"].

Definition word_ok (t : list Z) : Prop := (strlower t ∉ builtins) /\ (t <> lit "..").

Definition dir_name (t : list Z) : Prop := (t <> []) /\ Forall (fun c => (32 < c < 127) /\ (c <> 47)) t /\ word_ok t.

(** The events passed on. *)
Definition passed (l : list action) : list Event := omap (fun a => match a with A_pass e => Some e | _ => None end) l.

Lemma passed_app a b : passed (a ++ b) = passed a ++ passed b.
Proof. apply omap_app. Qed.

(** Each character in a read of its own, then ENTER. *)
Definition line_keys (l : list Z) : list (list Z) := ((fun c => [c]) <$> l) ++ [[13]].

Section Commands.
Context (regmatch : list Z -> list Z -> option (option Z)) (esi_id : ptr -> SOCKET_id) (esi : ptr).

Definition read_all (newid : SOCKET_id) (rt : route_t) (ds : list (list Z)) : M Telnet unit :=
  foreach (fun d => _ ← telnet_handleEvent regmatch esi_id (fun _ => d) newid
                              (mkEvent (Esocket (socketEvent.StreamRead esi)) rt); mret tt) ds.

(** The line is [l] and what is typed goes to its end. *)
Definition at_end (W : Session) (n : ptr) (l : list Z) : Prop :=
  mx_current_command_line W = l /\ mx_defaultNode W = n /\ size l <= curpos W.

Lemma append_char W n l c s :
  at_end W n l ->
  exists W', at_end W' n (l ++ [c]) /\ key_char esi_id esi W c s = (Ok tt, put_session (esi_id esi) W' s, [A_write esi [c]]).
Proof.
  intros (Hl & Hn & Hc). exists (set_line (l ++ [c]) (size l + 1) W). split; [by split_and!; cbn; rewrite ?size_snoc|].
  unfold key_char. rewrite Hl. pose proof (size_pos l). destruct (Z.ltb_spec (curpos W) 0); [lia|].
  replace (if size l <? curpos W then size l else curpos W) with (size l) by (destruct (Z.ltb_spec (size l) (curpos W)); lia).
  rewrite Z.eqb_refl. replace (substr l 0 (size l) ++ [c] ++ substr l (size l) (size l - size l)) with (l ++ [c]).
  - by destruct (insertMode W).
  - pose proof (substr_before l []) as E1. pose proof (substr_after l []) as E2. rewrite app_nil_r in E1, E2. by rewrite E1, E2.
Qed.

Lemma read_one newid rt c cs ds W s :
  sessions s !! esi_id esi = Some W -> c <> IAC ->
  read_all newid rt ((c :: cs) :: ds) s
  = match key regmatch esi_id esi W (c :: cs) s with
    | (Ok _, s1, l1) => let '(r, s2, l2) := read_all newid rt ds s1 in (r, s2, l1 ++ l2)
    | (Throw e, s1, l1) => (Throw e, s1, l1)
    end.
Proof.
  intros HW Hc. unfold read_all. cbn [foreach]. rewrite !M_bind_eq.
  change (telnet_handleEvent _ _ _ _ _ s) with (on_StreamRead regmatch esi_id esi (c :: cs) s).
  rewrite (on_StreamRead_key _ _ _ _ W) by done.
  destruct (key regmatch esi_id esi W (c :: cs) s) as [[[[]|e] s1] l]; cbn; by rewrite ?app_nil_r.
Qed.

Lemma type_line newid rt cs ds : forall W n l s,
  sessions s !! esi_id esi = Some W -> at_end W n l -> Forall (fun c => 32 <= c < 127) cs ->
  exists W' l0, at_end W' n (l ++ cs) /\ passed l0 = []
  /\ read_all newid rt (((fun c => [c]) <$> cs) ++ ds) s
     = (let '(r, s2, l2) := read_all newid rt ds (put_session (esi_id esi) W' s) in (r, s2, l0 ++ l2)).
Proof.
  induction cs as [|c cs IH]; intros W n l s HW Ha Hcs.
  { exists W, []. rewrite app_nil_r, (put_same _ _ _ HW). split_and!; [done..|]. cbn [fmap list_fmap app]. by destruct (read_all newid rt ds s) as [[]]. }
  apply Forall_cons in Hcs as [Hc Hcs]. rewrite fmap_cons, <- app_comm_cons.
  rewrite (read_one _ _ _ _ _ W) by (done || unfold IAC; lia). rewrite key_printable by done.
  destruct (append_char W n l c s Ha) as (W1 & Ha1 & ->).
  destruct (IH W1 n (l ++ [c]) (put_session (esi_id esi) W1 s)) as (W2 & l2 & Ha2 & Hp2 & E); [exact (lookup_insert_eq _ _ _)|done..|].
  exists W2, (A_write esi [c] :: l2). rewrite <- app_assoc in Ha2. split_and!; [done..|].
  rewrite E, put_put. by destruct (read_all newid rt ds (put_session (esi_id esi) W2 s)) as [[]].
Qed.

Lemma key_enter W s : key regmatch esi_id esi W [13] s = processCommand regmatch esi_id esi W s.
Proof. reflexivity. Qed.

(** ENTER takes the line. *)
Definition taken (W : Session) : Session :=
  set_history (mx_command_history W ++ [mx_current_command_line W]) 0 (set_line [] (curpos W) W).

Lemma at_end_taken W n l : at_end W n l -> at_end (taken W) n [].
Proof. intros (Hl & Hn & Hc). split_and!; [done..|]. cbn. pose proof (size_pos l). unfold size at 1. cbn. lia. Qed.

Lemma processCommand_word W s t ts :
  splitString [32; 9] (mx_current_command_line W) = t :: ts -> word_ok t ->
  processCommand regmatch esi_id esi W s
  = (let '(r, s', l) := (n ← getSubDir (mx_defaultNode W) t;
                         if n =? 0 then run_command regmatch esi_id esi (taken W) (mx_current_command_line W)
                         else let W' := set_node n (taken W) in _ ← put (esi_id esi) W'; prompt W' esi)
                        (put_session (esi_id esi) (taken W) s) in
     (r, s', A_write esi crlf :: l)).
Proof.
  intros Ht [Hb Hd]. unfold processCommand. rewrite M_bind_eq. cbn [write emit]. rewrite M_bind_eq.
  change (put _ _ s) with (Ok tt, put_session (esi_id esi) (taken W) s, @nil action). cbv beta iota. rewrite Ht.
  unfold builtins in Hb. rewrite !not_elem_of_cons in Hb. destruct Hb as (H1 & H2 & H3 & H4 & _).
  cbv zeta. rewrite !bool_decide_eq_false_2 by done. cbn [orb]. fold (taken W). change (mx_defaultNode (taken W)) with (mx_defaultNode W).
  by match goal with |- context [?m (put_session (esi_id esi) (taken W) s)] => destruct (m (put_session (esi_id esi) (taken W) s)) as [[]] end.
Qed.

Lemma enter_dir W n x t c s :
  at_end W n t -> dir_name t -> nodes s !! n = Some x -> map_find str_lt t (m_children x) = Some c -> c <> 0 ->
  exists W' l, at_end W' c [] /\ passed l = []
               /\ processCommand regmatch esi_id esi W s = (Ok tt, put_session (esi_id esi) W' s, l).
Proof.
  intros Ha Hd Hx Hc Hne. pose proof Ha as (Hl & Hn & _). destruct Hd as (Hne' & Hch & Hw).
  exists (set_node c (taken W)). eexists. split_and!; [by destruct (at_end_taken _ _ _ Ha) as (? & ? & ?)|..].
  2:{ rewrite (processCommand_word _ _ t []); [|rewrite Hl|done].
      - rewrite <- (put_put (esi_id esi) (taken W) (set_node c (taken W)) s). rewrite M_bind_eq.
        replace (getSubDir _ t _) with (Ok c, put_session (esi_id esi) (taken W) s, @nil action).
        + destruct (Z.eqb_spec c 0); [done|]. reflexivity.
        + unfold getSubDir. rewrite M_bind_eq. unfold the_node. cbn [put_session set_sessions nodes]. rewrite Hn, Hx. cbn. by rewrite Hc.
      - apply (splitString_join [32; 9] 32 [t]); [by left|]. constructor; [|done]. split; [done|].
        eapply Forall_impl; [exact Hch|]. intros y [Hy _]. rewrite !not_elem_of_cons. split_and!; [lia..|apply not_elem_of_nil]. }
  done.
Qed.

(** The other commands of a directory do not match the line. *)
Definition only_match (re line : list Z) (m : str_map Command) : Prop :=
  Forall (fun e => e.1 = re \/ regmatch (c_str (cmd_re e.2)) (c_str line) = Some None) m.

Lemma match_registered re help r line (m : str_map Command) :
  map_sorted str_lt m -> only_match re line m -> regmatch (c_str re) (c_str line) = Some (Some (size line)) ->
  let c := mkCommand r re help in
  match_command regmatch line (map_insert str_lt re c (map_erase str_lt re m)) = Ok (Some c).
Proof.
  intros Hs Hm Hre c.
  assert (forall m', match_command regmatch line ((re, c) :: m') = Ok (Some c)) as Hhd.
  { intros m'. cbn. unfold paramMatch. cbn. rewrite Hre. cbn. by rewrite Z.eqb_refl. }
  induction m as [|[k v] m IH]; [apply Hhd|]. destruct Hs as [Hk Hs]. apply Forall_cons in Hm as [Hv Hm]. cbn in *.
  destruct (str_lt k re) eqn:E1; cbn.
  - rewrite E1. destruct Hv as [->|Hv]; [by rewrite lt_irrefl in E1|]. cbn. unfold paramMatch at 1. rewrite Hv. cbn. by apply IH.
  - destruct (str_lt re k) eqn:E2.
    + cbn. rewrite E1, E2. apply Hhd.
    + assert (re = k) as <- by (by apply lt_total). destruct m as [|[k2 v2] m]; [apply Hhd|].
      apply Forall_cons in Hk as [Hk _]. cbn in *. rewrite (lt_asym _ _ _ Hk), Hk. apply Hhd.
Qed.

Lemma enter_command W n x t ts re help r m line s :
  at_end W n line -> splitString [32; 9] line = t :: ts -> word_ok t ->
  nodes s !! n = Some x -> map_find str_lt t (m_children x) = None ->
  m_commands x = map_insert str_lt re (mkCommand r re help) (map_erase str_lt re m) ->
  map_sorted str_lt m -> only_match re line m -> regmatch (c_str re) (c_str line) = Some (Some (size line)) -> r <> [] ->
  processCommand regmatch esi_id esi W s
  = (Ok tt, put_session (esi_id esi) (taken W) s,
     [A_write esi crlf; A_pass (mkEvent (Etelnet (telnetEvent.CommandEntered (esi_id esi) line (path_of s n))) r)]).
Proof.
  intros (Hl & Hn & _) Ht Hw Hx Hc Hcm Hs Hm Hre Hr. rewrite (processCommand_word _ _ t ts) by (done || by rewrite Hl).
  rewrite Hl, Hn, M_bind_eq. replace (getSubDir n t _) with (Ok 0, put_session (esi_id esi) (taken W) s, @nil action).
  2:{ unfold getSubDir. rewrite M_bind_eq. unfold the_node. cbn [put_session set_sessions nodes]. rewrite Hx. cbn. by rewrite Hc. }
  cbn [Z.eqb]. unfold run_command. rewrite M_bind_eq. cbn [gets id]. rewrite M_bind_eq. unfold the_node.
  cbn [put_session set_sessions nodes]. change (mx_defaultNode (taken W)) with (mx_defaultNode W). rewrite Hn, Hx. rewrite M_bind_eq.
  unfold lift. rewrite Hcm, match_registered by done. cbv beta iota. by rewrite passEvent_ok.
Qed.

Lemma dir_printable t : dir_name t -> Forall (fun c => 32 <= c < 127) t.
Proof. intros (_ & H & _). eapply Forall_impl; [exact H|]. cbn. lia. Qed.

Lemma tree_wf_put sid W s : tree_wf s -> tree_wf (put_session sid W s).
Proof. intros [H1 H2 H3 H4]. by split. Qed.

Lemma enter_dirs newid rt rest ds : forall W n m s,
  tree_wf s -> is_Some (nodes s !! n) -> sessions s !! esi_id esi = Some W -> at_end W n [] ->
  walk (nodes s) n ds = Some m -> Forall dir_name ds ->
  exists W' l0, at_end W' m [] /\ passed l0 = []
  /\ read_all newid rt (mjoin (line_keys <$> ds) ++ rest) s
     = (let '(r, s2, l2) := read_all newid rt rest (put_session (esi_id esi) W' s) in (r, s2, l0 ++ l2)).
Proof.
  induction ds as [|t ds IH]; intros W n m s Hwf Hn HW Ha Hwk Hds.
  { injection Hwk as <-. exists W, []. rewrite (put_same _ _ _ HW). split_and!; [done..|]. change (mjoin (line_keys <$> []) ++ rest) with rest. by destruct (read_all newid rt rest s) as [[]]. }
  apply Forall_cons in Hds as [Ht Hds]. cbn [walk] in Hwk. pose proof (proj1 (wf_dom s Hwf n) Hn) as Hpos. destruct Hn as [x Hx].
  rewrite Hx in Hwk. cbn [mbind option_bind] in Hwk. destruct (map_find str_lt t (m_children x)) as [c|] eqn:Ec; [|done].
  destruct (wf_node s Hwf n x Hx) as (_ & _ & Hch). destruct (Hch t c Ec) as (Hlt & y & Hy & _).
  change (mjoin (line_keys <$> t :: ds)) with ((((fun c => [c]) <$> t) ++ [[13]]) ++ mjoin (line_keys <$> ds)). rewrite <- !app_assoc.
  destruct (type_line newid rt t ([[13]] ++ mjoin (line_keys <$> ds) ++ rest) W n [] s HW Ha (dir_printable t Ht)) as (W1 & l1 & Ha1 & Hp1 & ->).
  rewrite <- app_comm_cons. rewrite (read_one _ _ _ _ _ W1); [|exact (lookup_insert_eq _ _ _)|done]. rewrite key_enter.
  destruct (enter_dir W1 n x t c (put_session (esi_id esi) W1 s) Ha1 Ht Hx Ec ltac:(lia)) as (W2 & l2 & Ha2 & Hp2 & ->). rewrite put_put.
  destruct (IH W2 c m (put_session (esi_id esi) W2 s)) as (W3 & l3 & Ha3 & Hp3 & E);
    [by apply tree_wf_put|by eexists|exact (lookup_insert_eq _ _ _)|done..|].
  exists W3, (l1 ++ l2 ++ l3). rewrite !passed_app, Hp1, Hp2, Hp3. split_and!; [done..|].
  rewrite app_nil_l, E, put_put. destruct (read_all newid rt rest (put_session (esi_id esi) W3 s)) as [[]]. by rewrite <- !app_assoc.
Qed.

Lemma register_ok newid s ds re help r hop :
  tree_wf s -> Forall dir_name ds ->
  exists s1 n1, telnet_handleEvent regmatch esi_id (fun _ => []) newid
                  (mkEvent (Etelnet (telnetEvent.RegisterCommand (join (lit "/") ds) re help)) (r ++ [hop])) s
                = (Ok true, command_added n1 re (mkCommand r re help) s1, [])
                /\ tree_wf s1 /\ same_rest s s1 /\ walk (nodes s1) (m_root s1) ds = Some n1 /\ dir_ready s s1 (m_root s) ds n1.
Proof.
  intros Hwf Hds. destruct (register_dirs_ok ds s [] (m_root s) Hwf eq_refl) as (s1 & n1 & E & Hwf1 & Hsr & Hw1 & Hd). cbn [app] in Hw1.
  exists s1, n1. split_and!; try done. change (telnet_handleEvent _ _ _ _ _ s) with (on_RegisterCommand (join [47] ds) re help (r ++ [hop]) s).
  unfold on_RegisterCommand. change (lit "/") with [47]. rewrite (splitString_join [47] 47 ds).
  2:{ by left. }
  2:{ eapply Forall_impl; [exact Hds|]. intros t (Hne & Ht & _). split; [done|]. eapply Forall_impl; [exact Ht|].
      intros c [_ Hc]. rewrite not_elem_of_cons. split; [done|apply not_elem_of_nil]. }
  rewrite M_bind_eq, E. cbv beta iota. rewrite M_bind_eq. unfold registerCommand. rewrite M_bind_eq. cbn [gets id]. rewrite M_bind_eq.
  destruct (wf_root s1 Hwf1) as (x & Hx & _). rewrite (find_dir_walk s1 (m_root s1) ds n1) by (done || by eexists). cbv beta iota.
  rewrite M_bind_eq. unfold lift, pop_back. rewrite last_snoc, removelast_last. reflexivity.
Qed.

End Commands.

Lemma telnet_new_wf ss : tree_wf (set_sessions ss telnet_new).
Proof.
  assert (forall n, nodes telnet_new !! n = if decide (n = 1) then Some (mkNode [] (lit "Top level commands") 0 [] []) else None) as Hn.
  { intros n. cbn. destruct (decide (n = 1)) as [->|Hne]; [apply lookup_singleton_eq|by apply lookup_singleton_ne]. }
  split.
  - by eexists.
  - intros n. change (nodes (set_sessions ss telnet_new)) with (nodes telnet_new). rewrite Hn. cbn.
    destruct (decide (n = 1)) as [->|Hne]; (split; [|try by eexists]); [lia|by intros []|unfold ptr in *; lia].
  - reflexivity.
  - intros n x. change (nodes (set_sessions ss telnet_new)) with (nodes telnet_new). rewrite Hn.
    case_decide; [|done]. intros Hx. injection Hx as <-. by split_and!.
Qed.


(** ** Where the terminal and the service disagree *)

(** A reply for a user who has left dereferences a null session. *)
Lemma reply_after_disconnect regmatch esi_id ib newid esi reason buf rt rt' s :
  exists s', (_ ← telnet_handleEvent regmatch esi_id ib newid (mkEvent (Esocket (socketEvent.Disaccepted esi reason)) rt);
              telnet_handleEvent regmatch esi_id ib newid (mkEvent (Etelnet (telnetEvent.Reply (esi_id esi) buf)) rt')) s
             = (Throw (UB "W->esi of a null session"), s', []).
Proof.
  exists (set_sessions (delete (esi_id esi) (sessions s)) s). rewrite M_bind_eq.
  change (telnet_handleEvent _ _ _ _ _ s) with (Ok true, set_sessions (delete (esi_id esi) (sessions s)) s, @nil action).
  cbn [telnet_handleEvent ev_body]. unfold on_Reply.
  rewrite M_bind_eq. cbn [gets id set_sessions sessions]. rewrite lookup_delete_eq. reflexivity.
Qed.

(** DOWN past the end of the history shows an empty line and keeps the old one. *)
Lemma history_end_keeps_line regmatch esi_id esi W s :
  mx_command_history W <> [] -> command_history_pos W = 0 ->
  exists l, key regmatch esi_id esi W TKEY_DOWN s
            = (Ok tt, put_session (esi_id esi) (set_line (mx_current_command_line W) 0 W) s,
               l ++ [A_write esi (promptString s (set_line (mx_current_command_line W) 0 W)); A_write esi []]).
Proof.
  intros Hh Hp. change (key regmatch esi_id esi W TKEY_DOWN s) with (key_history esi_id esi W 1 s). unfold key_history.
  destruct (mx_command_history W) as [|h hs] eqn:E; [done|]. rewrite Hp.
  destruct (Z.ltb_spec (Z.of_nat (length (h :: hs)) + 0 + 1) (Z.of_nat (length (h :: hs)))); [lia|]. rewrite andb_false_r.
  by eexists [_].
Qed.

(** Of several characters in one read only the first is taken. *)
Lemma coalesced_characters_lost regmatch esi_id esi W c d cs s :
  32 <= c < 127 -> key regmatch esi_id esi W (c :: d :: cs) s = key_char esi_id esi W c s.
Proof.
  intros H. unfold key. cbn [existsb seq].
  repeat (rewrite bool_decide_eq_false_2 by (intros [=]; lia)). cbn [orb].
  destruct (Z.eqb_spec c 3), (Z.eqb_spec c 9), (Z.eqb_spec c 13); done || lia.
Qed.
