(* ===== verification/Oscar.v ===== *)
(** The packet service: modules/oscar/oscarService.cpp.

    A packet on the wire is a start byte, the length as a packed number and the
    bytes.  [sendPacketPlain] builds it in a stack array through [oBuf];
    [on_StreamRead] cuts the packets out of the socket's in buffer and passes
    one event per packet up the route.

    [pass] stands for [passEvent] of the instance: [None] when it returns,
    [Some what] when it throws, which closes the socket. *)

From Stdlib Require Import ZArith Lia.
From stdpp Require Import base list strings numbers gmap.
From S2P Require Import Prelude StdMap IoBuffer Codec OBuf Route CLib Sockaddr Events SocketInfo Service.
Open Scope Z_scope.

Definition SB_SINGLEPACKET : Z := 1.

(** The state of the service. *)
Record Oscar : Type := mkOscar { maxPacketSize : Z; socketListener : ptr }.

(** ** Sending *)

(** [char b[bs]] holds whatever the stack held: [stack]. *)
Definition sendPacketPlain (stack : nat -> list Z) (startByte : Z) (esi : ptr) (o : option (list Z))
  : res (list action) :=
  if negb (is_valid esi) then Throw (CommonError "if(!esi.valid())")
  else match o with
       | None => Throw (UB "o->container on a null reference")
       | Some c =>
           let bs := (length c + 256)%nat in
           O2 ← ob_put_8 (oBuf_new (stack bs) bs) startByte;
           O2 ← ob_refbuffer O2 (Some c);
           Ok [A_write esi (ob_asString O2)]
       end.

(** ** Receiving *)

Inductive oscar_frame : Type :=
| NeedMore
| TooBig
| Frame (start_byte : Z) (req : list Z) (data : list Z).

(** One round of the loop up to the switch, under the buffer's lock: [Frame]
    carries what stays in the buffer. *)
Definition oscar_read_one (maxPacketSize : Z) (data : list Z) : oscar_frame :=
  if (length data =? 0)%nat then NeedMore
  else
    let b := inBuffer_new data in
    match get_8_nothrow b with
    | (None, _) => NeedMore
    | (Some start_byte, b) =>
        match get_PN_nothrow b with
        | (None, _) => NeedMore
        | (Some len, b) =>
            if maxPacketSize <? len then TooBig
            else if Z.of_nat (remains b) <? len then NeedMore
            else match unpack_nothrow b len with
                 | (None, _) => NeedMore
                 | (Some req, b) =>
                     Frame start_byte req
                       (if (remains b =? 0)%nat then []
                        else drop (length data - remains b) data)
                 end
        end
    end.

(** The event for a packet, by the kind of the socket. *)
Definition oscar_packet_event (ty : STREAMTYPE) (esi : ptr) (req : list Z) (r : route_t) : Event :=
  if decide (ty = STREAMTYPE_CONNECTED)
  then mkEvent (Eoscar (oscarEvent.PacketOnConnector esi (Some req))) r
  else mkEvent (Eoscar (oscarEvent.PacketOnAcceptor esi (Some req))) r.

Section StreamRead.
Context (pass : Event -> option (list Z)).
Context (svc : Oscar) (esi : ptr) (ty : STREAMTYPE) (r : route_t).

(** The loop of [on_StreamRead] on the in buffer [data]. *)
Fixpoint oscar_loop (fuel : nat) (data : list Z) : res (list Z * list action) :=
  match fuel with
  | O => Throw OutOfFuel
  | S f =>
      match oscar_read_one (maxPacketSize svc) data with
      | NeedMore | TooBig => Ok (data, [])
      | Frame start_byte req data' =>
          if start_byte =? SB_SINGLEPACKET then
            let e := oscar_packet_event ty esi req r in
            match pass e with
            | Some what => Ok (data', [A_pass e; A_close esi what])
            | None => '(d, acts) ← oscar_loop f data'; Ok (d, A_pass e :: acts)
            end
          else Ok (data', [A_close esi (lit "oscar: invalid start byte")])
      end
  end.

(** Every round takes at least the start byte and one byte of length. *)
Definition on_StreamRead (s : epoll_socket_info) : res (epoll_socket_info * list action) :=
  '(d, acts) ← oscar_loop (S (length (inBuffer_ s))) (inBuffer_ s);
  Ok (set_in s d, acts).
End StreamRead.

(** ** handleEvent *)

(** The service with the sockets it sees, by their address. *)
Definition sockets : Type := gmap Z epoll_socket_info.

Definition oscar_handleEvent (stack : nat -> list Z) (getService : SERVICE_id -> ptr)
  (pass : Event -> option (list Z)) (svc : Oscar) (socks : sockets) (e : Event)
  : res (handled (Oscar * sockets)) :=
  let r := ev_route e in
  match ev_body e with
  | Esocket (socketEvent.Accepted esi) =>
      Ok (true, (svc, socks), [A_pass (mkEvent (Eoscar (oscarEvent.Accepted esi)) r)])
  | Esocket (socketEvent.StreamRead esi) =>
      match socks !! esi with
      | None => Throw (UB "evt->esi on a null reference")
      | Some s =>
          '(s', acts) ← on_StreamRead pass svc esi (streamType_ s) r s;
          Ok (true, (svc, <[esi := s']> socks), acts)
      end
  | Esocket (socketEvent.Connected esi) =>
      Ok (true, (svc, socks), [A_pass (mkEvent (Eoscar (oscarEvent.Connected esi)) r)])
  | Esocket (socketEvent.NotifyBindAddress addr d rebind) =>
      Ok (true, (svc, socks), [A_pass (mkEvent (Eoscar (oscarEvent.NotifyBindAddress addr d rebind)) r)])
  | Esocket (socketEvent.NotifyOutBufferEmpty esi) =>
      Ok (true, (svc, socks), [A_pass (mkEvent (Eoscar (oscarEvent.NotifyOutBufferEmpty esi)) r)])
  | Esocket (socketEvent.ConnectFailed esi addr _) =>
      Ok (true, (svc, socks), [A_pass (mkEvent (Eoscar (oscarEvent.ConnectFailed esi addr)) r)])
  | Eoscar (oscarEvent.SendPacket esi buf) =>
      acts ← sendPacketPlain stack SB_SINGLEPACKET esi buf; Ok (true, (svc, socks), acts)
  | Eoscar (oscarEvent.AddToListenTCP sid addr d secure) =>
      Ok (true, (svc, socks), [A_sendListener (socketListener svc)
                        (mkEvent (Esocket (socketEvent.AddToListenTCP sid addr d false secure)) r)])
  | Eoscar (oscarEvent.Connect sid addr d secure) =>
      Ok (true, (svc, socks), [A_sendListener (socketListener svc)
                        (mkEvent (Esocket (socketEvent.AddToConnectTCP sid addr d secure)) r)])
  | Esystem systemEvent.startService =>
      Ok (true, (mkOscar (maxPacketSize svc) (getService ServiceEnum.Socket), socks), [])
  | Esocket (socketEvent.Disaccepted esi reason) =>
      Ok (true, (svc, socks), [A_pass (mkEvent (Eoscar (oscarEvent.Disaccepted esi reason)) r)])
  | Esocket (socketEvent.Disconnected esi reason) =>
      Ok (true, (svc, socks), [A_pass (mkEvent (Eoscar (oscarEvent.Disconnected esi reason)) r)])
  | _ => Ok (false, (svc, socks), [])
  end.

(** ** The wire form *)

(** A packet as the sender lays it out. *)
Definition oscar_frame_bytes (sb : Z) (p : list Z) : list Z :=
  sb :: c_enc refbuffer_codec (Some p).

Lemma refbuffer_str_enc p : str_dom p -> c_enc refbuffer_codec (Some p) = str_enc p.
Proof. intros Hd. rewrite refbuffer_enc, wrapu_small by (unfold str_dom in Hd; lia). done. Qed.

(** The array [sendPacketPlain] declares always suffices. *)
Lemma sendPacketPlain_ok stack sb esi c :
  (forall n, length (stack n) = n) -> is_valid esi = true ->
  sendPacketPlain stack sb esi (Some c) = Ok [A_write esi (oscar_frame_bytes sb c)].
Proof.
  intros Hst He. unfold sendPacketPlain. rewrite He. cbn [negb].
  set (bs := (length c + 256)%nat).
  pose proof (oBuf_new_rel (stack bs)) as H0. rewrite Hst in H0.
  destruct (ob_put_8_fits bs [] _ sb H0) as (o1 & -> & H1); [cbn; lia|].
  rewrite res_bind_ok.
  assert (length (c_enc refbuffer_codec (Some c)) <= 10 + length c)%nat as Hl.
  { rewrite refbuffer_enc, length_app.
    pose proof (pn_enc_length 9 (wrapu 64 (Z.of_nat (length c)))).
    unfold pn_bytes, put_PN_start. lia. }
  destruct (ob_refbuffer_fits bs _ o1 (Some c) H1) as (o2 & -> & (_ & _ & E & _)); [cbn; lia|].
  rewrite res_bind_ok, E. reflexivity.
Qed.

(** ** Cutting the stream *)

(** [oscar_read_one] on the bytes. *)
Lemma oscar_read_one_spec max d :
  oscar_read_one max d =
    match d with
    | [] => NeedMore
    | sb :: d1 =>
        match pn_decode 0 d1 with
        | None => NeedMore
        | Some (len, n) =>
            if max <? len then TooBig
            else if Z.of_nat (length (drop n d1)) <? len then NeedMore
            else Frame sb (take (Z.to_nat len) (drop n d1)) (drop (Z.to_nat len) (drop n d1))
        end
    end.
Proof.
  destruct d as [|sb d1]; [done|]. unfold oscar_read_one. cbn [length Nat.eqb].
  rewrite get_8_nothrow_spec. change (rest (inBuffer_new (sb :: d1))) with (sb :: d1). cbv beta iota zeta.
  rewrite get_PN_nothrow_spec.
  assert (rest (advance (inBuffer_new (sb :: d1)) 1) = d1) as -> by reflexivity.
  destruct (pn_decode 0 d1) as [[len n]|] eqn:E; [|done].
  destruct (max <? len); [done|].
  set (b := advance (advance (inBuffer_new (sb :: d1)) 1) n).
  assert (rest b = drop n d1) as Hr by (subst b; by rewrite rest_advance).
  rewrite <- length_rest, Hr. destruct (Z.ltb_spec (Z.of_nat (length (drop n d1))) len) as [|Hlen]; [done|].
  unfold unpack_nothrow. rewrite <- length_rest, Hr.
  destruct (Z.ltb_spec (Z.of_nat (length (drop n d1))) len); [lia|]. f_equal.
  rewrite remains_advance, <- length_rest, Hr. apply pn_decode_len in E.
  pose proof (length_drop d1 n). cbn [length].
  destruct (Nat.eqb_spec (length (drop n d1) - Z.to_nat len) 0) as [E0|E0].
  - symmetry. apply drop_ge. lia.
  - rewrite drop_drop.
    replace (S (length d1) - (length (drop n d1) - Z.to_nat len))%nat
      with (S (n + Z.to_nat len)) by lia. done.
Qed.

(** What is decided on a prefix stays decided. *)
Lemma oscar_read_one_app max d x :
  match oscar_read_one max d with
  | NeedMore => True
  | TooBig => oscar_read_one max (d ++ x) = TooBig
  | Frame sb p d' => oscar_read_one max (d ++ x) = Frame sb p (d' ++ x)
  end.
Proof.
  rewrite !oscar_read_one_spec. destruct d as [|sb d1]; [done|]. cbn [app].
  destruct (pn_decode 0 d1) as [[len n]|] eqn:E; [|done].
  rewrite (pn_decode_app _ _ x _ _ E). apply pn_decode_len in E.
  destruct (max <? len); [done|].
  destruct (Z.ltb_spec (Z.of_nat (length (drop n d1))) len); [done|].
  rewrite drop_app_le, length_app by lia.
  destruct (Z.ltb_spec (Z.of_nat (length (drop n d1) + length x)) len); [lia|].
  rewrite take_app_le, drop_app_le by lia. done.
Qed.

Lemma oscar_read_one_shrinks max d sb p d' :
  oscar_read_one max d = Frame sb p d' -> (length d' < length d)%nat.
Proof.
  rewrite oscar_read_one_spec. destruct d as [|c d1]; [done|].
  destruct (pn_decode 0 d1) as [[len n]|]; [|done].
  destruct (max <? len); [done|]. destruct (_ <? len); [done|].
  intros [= _ _ <-]. rewrite !length_drop. cbn [length]. lia.
Qed.

(** The packets at the front of a buffer and what follows them. *)
Inductive oscar_cuts (max : Z) : list Z -> list (list Z) -> list Z -> Prop :=
| cut_stop d : oscar_read_one max d = NeedMore -> oscar_cuts max d [] d
| cut_frame d p d' ps l :
    oscar_read_one max d = Frame SB_SINGLEPACKET p d' ->
    oscar_cuts max d' ps l -> oscar_cuts max d (p :: ps) l.

Lemma oscar_cuts_split max d x ps m :
  oscar_cuts max (d ++ x) ps m ->
  exists ps1 ps2 l, oscar_cuts max d ps1 l /\ oscar_cuts max (l ++ x) ps2 m /\ ps = ps1 ++ ps2.
Proof.
  remember (d ++ x) as dx eqn:Hdx. intros H; revert d Hdx.
  induction H as [dx H|dx p d' ps l Hf H IH]; intros d ->;
    pose proof (oscar_read_one_app max d x) as Hs;
    destruct (oscar_read_one max d) as [| |sb q d2] eqn:E; try congruence.
  - exists [], [], d. repeat split; by constructor.
  - exists [], (p :: ps), d. split; [by constructor|]. split; [|done]. by econstructor.
  - rewrite Hf in Hs. injection Hs as <- <- ->.
    destruct (IH d2 eq_refl) as (ps1 & ps2 & l0 & H1 & H2 & ->).
    exists (p :: ps1), ps2, l0. split; [by econstructor|]. done.
Qed.

Lemma oscar_read_frame max p x :
  str_dom p -> Z.of_nat (length p) <= max ->
  oscar_read_one max (oscar_frame_bytes SB_SINGLEPACKET p ++ x) = Frame SB_SINGLEPACKET p x.
Proof.
  intros Hd Hm. rewrite oscar_read_one_spec. unfold oscar_frame_bytes. cbn [app].
  rewrite refbuffer_str_enc by done. unfold str_enc. rewrite <- app_assoc.
  rewrite pn_decode_enc by (unfold str_dom in Hd; lia).
  destruct (Z.ltb_spec max (Z.of_nat (length p))); [lia|].
  rewrite drop_app_length, length_app.
  destruct (Z.ltb_spec (Z.of_nat (length p + length x)) (Z.of_nat (length p))); [lia|].
  by rewrite Nat2Z.id, take_app_length, drop_app_length.
Qed.

(** A stream of packets, each within the limit. *)
Definition oscar_stream (ps : list (list Z)) : list Z :=
  mjoin (oscar_frame_bytes SB_SINGLEPACKET <$> ps).

Definition oscar_packets_ok (max : Z) (ps : list (list Z)) : Prop :=
  Forall (fun p => str_dom p /\ Z.of_nat (length p) <= max) ps.

Lemma oscar_cuts_stream max ps : oscar_packets_ok max ps -> oscar_cuts max (oscar_stream ps) ps [].
Proof.
  induction 1 as [|p ps [Hd Hl] _ IH]; [by constructor|].
  unfold oscar_stream. rewrite join_cons.
  econstructor; [by apply oscar_read_frame | exact IH].
Qed.

Section Reassembly.
Context (svc : Oscar) (esi : ptr) (ty : STREAMTYPE) (r : route_t).
Context (pass : Event -> option (list Z)) (Hpass : forall e, pass e = None).

Definition oscar_pass (p : list Z) : action := A_pass (oscar_packet_event ty esi p r).

Lemma oscar_loop_cuts fuel d ps l :
  oscar_cuts (maxPacketSize svc) d ps l -> (length d < fuel)%nat ->
  oscar_loop pass svc esi ty r fuel d = Ok (l, oscar_pass <$> ps).
Proof.
  intros H; revert fuel; induction H as [d H|d p d' ps l Hf H IH]; intros [|fuel] Hlt; try lia.
  - cbn [oscar_loop]. by rewrite H.
  - cbn [oscar_loop]. rewrite Hf. cbn [Z.eqb SB_SINGLEPACKET Pos.eqb]. rewrite Hpass.
    apply oscar_read_one_shrinks in Hf. rewrite IH by lia. done.
Qed.

(** The socket thread appends a chunk and raises [StreamRead]. *)
Definition oscar_feed (s : epoll_socket_info) (chunk : list Z) : res (epoll_socket_info * list action) :=
  on_StreamRead pass svc esi ty r (in_append s chunk).

Fixpoint oscar_feed_all (s : epoll_socket_info) (chunks : list (list Z))
  : res (epoll_socket_info * list action) :=
  match chunks with
  | [] => Ok (s, [])
  | c :: cs =>
      '(s, a1) ← oscar_feed s c; '(s, a2) ← oscar_feed_all s cs; Ok (s, a1 ++ a2)
  end.

Lemma oscar_feed_all_cuts chunks s ps m :
  oscar_read_one (maxPacketSize svc) (inBuffer_ s) = NeedMore ->
  oscar_cuts (maxPacketSize svc) (inBuffer_ s ++ mjoin chunks) ps m ->
  exists s', oscar_feed_all s chunks = Ok (s', oscar_pass <$> ps) /\ inBuffer_ s' = m.
Proof.
  revert s ps; induction chunks as [|c cs IH]; intros s ps Hn H.
  - change (mjoin []) with (@nil Z) in H. rewrite app_nil_r in H. exists s.
    destruct H; [done | congruence].
  - change (mjoin (c :: cs)) with (c ++ mjoin cs) in H. rewrite app_assoc in H.
    apply oscar_cuts_split in H as (ps1 & ps2 & l & H1 & H2 & ->).
    cbn [oscar_feed_all]. unfold oscar_feed, on_StreamRead. cbn [inBuffer_ in_append set_in].
    rewrite (oscar_loop_cuts _ _ _ _ H1) by lia. rewrite !res_bind_ok.
    assert (oscar_read_one (maxPacketSize svc) l = NeedMore) as Hl
      by (clear -H1; induction H1; done).
    destruct (IH (set_in (in_append s c) l) ps2 Hl H2) as (s' & E & Hm).
    unfold in_append in *. cbn [inBuffer_ set_in] in *. rewrite E, res_bind_ok.
    exists s'. split; [by rewrite fmap_app | done].
Qed.
End Reassembly.

(** A packet above the limit is never removed: every later read of the socket
    stops at the same place. *)
Lemma oscar_too_big_stuck pass svc esi ty r s :
  oscar_read_one (maxPacketSize svc) (inBuffer_ s) = TooBig ->
  forall x, on_StreamRead pass svc esi ty r (in_append s x) = Ok (in_append s x, []).
Proof.
  intros H x. unfold on_StreamRead. cbn [inBuffer_ in_append set_in].
  pose proof (oscar_read_one_app (maxPacketSize svc) (inBuffer_ s) x) as E. rewrite H in E.
  cbn [oscar_loop]. rewrite E, res_bind_ok. done.
Qed.

(** ** Properties *)

(** C3: Packets framed by [sendPacketPlain] and written to a socket one after the
    other are passed on by the receiving Oscar service one event each, in order
    and unchanged, however the stream is cut into reads; nothing stays in the
    buffer. *)
Theorem oscar_reassembly stack svc from esi ty r pass s ps chunks :
  (forall n, length (stack n) = n) -> is_valid from = true ->
  (forall e, pass e = None) -> inBuffer_ s = [] ->
  oscar_packets_ok (maxPacketSize svc) ps ->
  exists written,
    Forall2 (fun p w => sendPacketPlain stack SB_SINGLEPACKET from (Some p) = Ok [A_write from w]) ps written
    /\ (mjoin chunks = mjoin written ->
        exists s', oscar_feed_all svc esi ty r pass s chunks
                   = Ok (s', (fun p => A_pass (oscar_packet_event ty esi p r)) <$> ps)
                   /\ inBuffer_ s' = []).
Proof.
  intros Hst Hfrom Hpass Hin Hps. exists (oscar_frame_bytes SB_SINGLEPACKET <$> ps). split.
  - clear Hps. induction ps as [|p ps IH]; [constructor|]. constructor; [by apply sendPacketPlain_ok | exact IH].
  - intros Hch. apply (oscar_feed_all_cuts svc esi ty r pass Hpass); rewrite Hin; [reflexivity|].
    rewrite app_nil_l, Hch. by apply oscar_cuts_stream.
Qed.

Lemma oscar_reassembly_witness :
  exists written,
    Forall2 (fun p w => sendPacketPlain (fun n => repeat 0 n) SB_SINGLEPACKET 9 (Some p) = Ok [A_write 9 w])
            [[1; 2]; [3]] written
    /\ (mjoin [[1]; [2; 1; 2; 1]; [1; 3]] = mjoin written ->
        exists s', oscar_feed_all (mkOscar 100 0) 4 STREAMTYPE_CONNECTED [] (fun _ => None)
                     (esi_new STREAMTYPE_CONNECTED 1 5 []) [[1]; [2; 1; 2; 1]; [1; 3]]
                   = Ok (s', (fun p => A_pass (oscar_packet_event STREAMTYPE_CONNECTED 4 p [])) <$> [[1; 2]; [3]])
                   /\ inBuffer_ s' = []).
Proof.
  apply (oscar_reassembly (fun n => repeat 0 n) (mkOscar 100 0) 9 4 STREAMTYPE_CONNECTED [] (fun _ => None)
           (esi_new STREAMTYPE_CONNECTED 1 5 []) [[1; 2]; [3]] [[1]; [2; 1; 2; 1]; [1; 3]]);
    [intros n; apply repeat_length | reflexivity | reflexivity | reflexivity |].
  repeat constructor; vm_compute; congruence.
Defined.

(** The array [sendPacketPlain] declares for the frame, 256 bytes more than
    the packet, is large enough for every packet: the call writes inside it and
    hands the start byte, the length and the packet to the socket. *)
Lemma sendPacketPlain_fits stack sb esi c :
  (forall n, length (stack n) = n) -> is_valid esi = true ->
  sendPacketPlain stack sb esi (Some c) = Ok [A_write esi (sb :: c_enc refbuffer_codec (Some c))].
Proof. apply sendPacketPlain_ok. Qed.

Lemma sendPacketPlain_fits_witness :
  sendPacketPlain (fun n => repeat 170 n) 1 8 (Some (repeat 5 300))
  = Ok [A_write 8 (1 :: c_enc refbuffer_codec (Some (repeat 5 300)))].
Proof.
  apply (sendPacketPlain_fits (fun n => repeat 170 n) 1 8 (repeat 5 300)); [intros n; apply repeat_length | reflexivity].
Defined.

(** A packet longer than [maxPacketSize] is never taken out of the socket's
    buffer and the socket is not closed: every later read stops at it again,
    passes nothing on and leaves the buffer growing. *)
Lemma oversized_packet_blocks pass svc esi ty r s p rest_ :
  str_dom p -> maxPacketSize svc < Z.of_nat (length p) ->
  inBuffer_ s = oscar_frame_bytes SB_SINGLEPACKET p ++ rest_ ->
  forall x, on_StreamRead pass svc esi ty r (in_append s x) = Ok (in_append s x, []).
Proof.
  intros Hd Hm Hs. apply oscar_too_big_stuck. rewrite Hs, oscar_read_one_spec. unfold oscar_frame_bytes. cbn [app].
  rewrite refbuffer_str_enc by done. unfold str_enc. rewrite <- app_assoc, pn_decode_enc by (unfold str_dom in Hd; lia).
  by rewrite (proj2 (Z.ltb_lt _ _) Hm).
Qed.

Lemma oversized_packet_blocks_witness :
  on_StreamRead (fun _ => None) (mkOscar 2 0) 4 STREAMTYPE_ACCEPTED []
    (in_append (set_in (esi_new STREAMTYPE_ACCEPTED 1 5 []) [1; 3; 7; 7; 7]) [8; 9])
  = Ok (in_append (set_in (esi_new STREAMTYPE_ACCEPTED 1 5 []) [1; 3; 7; 7; 7]) [8; 9], []).
Proof.
  apply (oversized_packet_blocks (fun _ => None) (mkOscar 2 0) 4 STREAMTYPE_ACCEPTED []
           (set_in (esi_new STREAMTYPE_ACCEPTED 1 5 []) [1; 3; 7; 7; 7]) [7; 7; 7] []);
    [by vm_compute | reflexivity | by vm_compute].
Defined.
