(* ===== verification/Listener.v ===== *)
(** Listeners, the queues between services: corelib/eventDeque.*,
    listenerBuffered1Thread.*, listenerBufferedNThread.*, listenerPolled.*,
    listenerSimple.*.

    The buffered listeners are a step relation over the queue and the workers,
    at the granularity of the queue's mutex: a step is either what a thread does
    while it holds the mutex, or an access that takes no lock ([deinit] writes
    the termination flags without it).  A worker that found the queue empty
    holds the mutex until [m_cond.wait] releases it ([AboutToWait]).  One worker
    is [ListenerBuffered1Thread], several are [ListenerBufferedNThread].

    [handleEvent] of the service is its effect on the log [handled_]: an
    exception in it is caught by [processEvent] and the worker goes on. *)

From Stdlib Require Import ZArith Lia.
From stdpp Require Import base list strings numbers relations.
From S2P Require Import Prelude StdMap Route Events.
Open Scope nat_scope.

Section Listener.
Context {E : Type}.

(** Where a worker is.  [Top] is the start of its loop, [Enter] the call of
    [pop] after the tests at the top.  [Batch] holds what [pop] returned and the loop has not
    handled yet; [None] is the null reference [deinit] pushes. *)
Inductive wpc : Type :=
| Top | Enter | AboutToWait | Waiting | Woken | Batch (l : list (option E)) | Exited.

Record qstate : Type := mkQ {
  container_ : list (option E);     (* EventDeque::container *)
  q_terminating : bool;             (* EventDeque::m_isTerminating *)
  l_terminating : bool;             (* the listener's m_isTerminating *)
  l_valid : bool;                   (* m_container.valid() *)
  workers : list wpc;
  signals : nat;                    (* m_cond.signal calls still to be made *)
  dpc : nat;                        (* how far deinit has got *)
  handled_ : list E;                (* events handled, oldest first *)
  pushed_ : list E;                 (* events accepted by listenToEvent *)
  dropped_ : list E;                (* events thrown away by deinit *)
}.

Definition listener_new (n : nat) : qstate :=
  mkQ [] false false true (repeat Top n) 0 0 [] [] [].

Definition set_worker (s : qstate) (i : nat) (w : wpc) : qstate :=
  mkQ (container_ s) (q_terminating s) (l_terminating s) (l_valid s)
      (<[i := w]> (workers s)) (signals s) (dpc s) (handled_ s) (pushed_ s) (dropped_ s).

Definition is_waiting (w : wpc) : bool := match w with Waiting => true | _ => false end.
Definition holds_mutex (w : wpc) : bool := match w with AboutToWait => true | _ => false end.
Definition mutex_free (s : qstate) : bool := forallb (fun w => negb (holds_mutex w)) (workers s).

(** [m_cond.broadcast]. *)
Definition wake_all (l : list wpc) : list wpc :=
  (fun w => if is_waiting w then Woken else w) <$> l.

Definition somes (l : list (option E)) : list E := omap id l.

(** [EventDeque::push] under the mutex; its [signal] is a later step. *)
Definition push (s : qstate) (e : option E) (d : nat) : qstate :=
  mkQ (container_ s ++ [e]) (q_terminating s) (l_terminating s) (l_valid s)
      (workers s) (S (signals s)) d (handled_ s)
      (pushed_ s ++ match e with Some x => [x] | None => [] end) (dropped_ s).

(** [std::move(container)]: the worker takes everything. *)
Definition pop_take (s : qstate) (i : nat) : qstate :=
  mkQ [] (q_terminating s) (l_terminating s) (l_valid s)
      (<[i := Batch (container_ s)]> (workers s)) (signals s) (dpc s)
      (handled_ s) (pushed_ s) (dropped_ s).

Definition set_flags (s : qstate) (qt lt lv : bool) (d : nat) : qstate :=
  mkQ (container_ s) qt lt lv (workers s) (signals s) d (handled_ s) (pushed_ s) (dropped_ s).

Definition broadcast (s : qstate) (d : nat) : qstate :=
  mkQ (container_ s) (q_terminating s) (l_terminating s) (l_valid s)
      (wake_all (workers s)) (signals s) d (handled_ s) (pushed_ s) (dropped_ s).

(** [EventDeque::clear]. *)
Definition clear (s : qstate) (d : nat) : qstate :=
  mkQ [] (q_terminating s) (l_terminating s) (l_valid s)
      (wake_all (workers s)) (signals s) d (handled_ s) (pushed_ s)
      (dropped_ s ++ somes (container_ s)).

Inductive qstep : qstate -> qstate -> Prop :=
(* listenToEvent *)
| S_listen s e :
    l_valid s = true -> mutex_free s = true -> qstep s (push s (Some e) (dpc s))
| S_signal s n i :
    signals s = S n -> workers s !! i = Some Waiting ->
    qstep s (mkQ (container_ s) (q_terminating s) (l_terminating s) (l_valid s)
                 (<[i := Woken]> (workers s)) n (dpc s) (handled_ s) (pushed_ s) (dropped_ s))
| S_signal_none s n :
    signals s = S n -> existsb is_waiting (workers s) = false ->
    qstep s (mkQ (container_ s) (q_terminating s) (l_terminating s) (l_valid s)
                 (workers s) n (dpc s) (handled_ s) (pushed_ s) (dropped_ s))
(* worker: top of its loop *)
| S_top_exit s i :
    workers s !! i = Some Top -> l_terminating s = true \/ l_valid s = false ->
    qstep s (set_worker s i Exited)
| S_top_enter s i :
    workers s !! i = Some Top -> l_terminating s = false -> l_valid s = true ->
    qstep s (set_worker s i Enter)
(* pop *)
| S_pop_term s i w :
    workers s !! i = Some w -> w = Enter \/ w = Woken -> mutex_free s = true ->
    q_terminating s = true -> qstep s (set_worker s i Top)
| S_pop_wait s i w :
    workers s !! i = Some w -> w = Enter \/ w = Woken -> mutex_free s = true ->
    q_terminating s = false -> container_ s = [] ->
    qstep s (set_worker s i AboutToWait)
| S_pop_take s i w :
    workers s !! i = Some w -> w = Enter \/ w = Woken -> mutex_free s = true ->
    q_terminating s = false -> container_ s <> [] -> qstep s (pop_take s i)
| S_wait s i :
    workers s !! i = Some AboutToWait -> qstep s (set_worker s i Waiting)
(* worker: the loop over what pop returned *)
| S_handle s i e l :
    workers s !! i = Some (Batch (Some e :: l)) ->
    qstep s (mkQ (container_ s) (q_terminating s) (l_terminating s) (l_valid s)
                 (<[i := Batch l]> (workers s)) (signals s) (dpc s)
                 (handled_ s ++ [e]) (pushed_ s) (dropped_ s))
| S_null s i l :
    workers s !! i = Some (Batch (None :: l)) ->
    qstep s (mkQ (container_ s) (q_terminating s) (l_terminating s) (l_valid s)
                 (<[i := Exited]> (workers s)) (signals s) (dpc s)
                 (handled_ s) (pushed_ s) (dropped_ s ++ somes l))
| S_batch_end s i :
    workers s !! i = Some (Batch []) -> qstep s (set_worker s i Top)
(* deinit *)
| D_null s : dpc s = 0 ->
    qstep s (set_flags s (q_terminating s) (l_terminating s) false 1)
| D_clear s : dpc s = 1 -> mutex_free s = true -> qstep s (clear s 2)
| D_push s : dpc s = 2 -> mutex_free s = true -> qstep s (push s None 3)
| D_lterm s : dpc s = 3 -> qstep s (set_flags s (q_terminating s) true (l_valid s) 4)
| D_qterm s : dpc s = 4 -> qstep s (set_flags s true (l_terminating s) (l_valid s) 5)
| D_bcast1 s : dpc s = 5 -> qstep s (broadcast s 6)
| D_bcast2 s : dpc s = 6 -> qstep s (broadcast s 7).

(** A spurious wakeup, which POSIX allows. *)
Inductive spurious : qstate -> qstate -> Prop :=
| S_spurious s i :
    workers s !! i = Some Waiting -> spurious s (set_worker s i Woken).

Definition lstep (s s' : qstate) : Prop := qstep s s' \/ spurious s s'.

(** ListenerSimple and ListenerPolled, which have no thread of their own. *)

(** [ListenerSimple::listenToEvent]: the event is handled in the caller. *)
Definition simple_listenToEvent (h : E -> res bool) (e : option E) : list E * res unit :=
  match e with
  | None => ([], Ok tt)
  | Some x =>
      match h x with
      | Ok _ => ([x], Ok tt)
      | Throw ex => ([x], if catchable ex then Ok tt else Throw ex)
      end
  end.

(** [ListenerPolled]: [listenToEvent] appends, [poll] empties the queue and
    handles what it took. *)
Definition polled_listenToEvent (q : list E) (e : E) : list E := q ++ [e].
Definition polled_poll (q : list E) : list E * list E := ([], q).

(** ** No event is lost or handled twice *)

Definition in_flight (w : wpc) : list E := match w with Batch l => somes l | _ => [] end.

Definition all_in_flight (s : qstate) : list E := mjoin (in_flight <$> workers s).

Definition accounted (s : qstate) : Prop :=
  handled_ s ++ all_in_flight s ++ somes (container_ s) ++ dropped_ s ≡ₚ pushed_ s.

Lemma in_flight_insert ws i w w' :
  ws !! i = Some w ->
  mjoin (in_flight <$> <[i := w']> ws) ++ in_flight w ≡ₚ mjoin (in_flight <$> ws) ++ in_flight w'.
Proof.
  intros Hi. pose proof (lookup_lt_Some _ _ _ Hi) as Hlt.
  rewrite <- (take_drop_middle ws i w Hi) at 2. rewrite insert_take_drop by done.
  rewrite !fmap_app. cbn [fmap list_fmap]. rewrite !join_app. cbn [mjoin list_join].
  solve_Permutation.
Qed.

Lemma in_flight_same ws i w w' :
  ws !! i = Some w -> in_flight w' = in_flight w ->
  mjoin (in_flight <$> <[i := w']> ws) = mjoin (in_flight <$> ws).
Proof.
  intros Hi Hw. f_equal. rewrite list_fmap_insert, Hw. apply list_insert_id.
  by rewrite list_lookup_fmap, Hi.
Qed.

Lemma in_flight_wake ws : in_flight <$> wake_all ws = in_flight <$> ws.
Proof.
  unfold wake_all. rewrite <- list_fmap_compose. apply list_fmap_ext.
  intros i w _. by destruct w.
Qed.

Lemma somes_app l1 l2 : somes (l1 ++ l2) = somes l1 ++ somes l2.
Proof. apply omap_app. Qed.

Lemma accounted_new n : accounted (listener_new n).
Proof.
  unfold accounted, all_in_flight. cbn.
  assert (mjoin (in_flight <$> repeat (@Top) n) = []) as ->; [|done].
  induction n; done.
Qed.

Lemma accounted_same s s' :
  handled_ s' = handled_ s -> all_in_flight s' = all_in_flight s ->
  container_ s' = container_ s -> dropped_ s' = dropped_ s -> pushed_ s' = pushed_ s ->
  accounted s -> accounted s'.
Proof. unfold accounted. by intros -> -> -> -> ->. Qed.

Lemma accounted_move s i w :
  workers s !! i = Some w -> in_flight w = [] -> forall w', in_flight w' = [] ->
  accounted s -> accounted (set_worker s i w').
Proof.
  intros Hi Hw w' Hw'. apply accounted_same; try done.
  unfold all_in_flight. cbn. by apply (in_flight_same _ _ w); [|congruence].
Qed.

Lemma accounted_step s s' : lstep s s' -> accounted s -> accounted s'.
Proof.
  intros [Hs|Hs] Ha.
  2: { destruct Hs. by eapply accounted_move. }
  destruct Hs; try (eapply accounted_move; [eassumption|destruct_or?; subst; done..]);
    try (revert Ha; apply accounted_same; done).
  - unfold accounted, all_in_flight in *. cbn [handled_ container_ dropped_ pushed_ workers push].
    rewrite <- Ha, somes_app. cbn. solve_Permutation.
  - unfold accounted, all_in_flight in *. cbn [handled_ container_ dropped_ pushed_ workers pop_take].
    rewrite <- Ha. pose proof (in_flight_insert _ _ _ (Batch (container_ s)) H) as Hp.
    assert (in_flight w = []) as Hw by (destruct_or?; by subst).
    rewrite Hw, app_nil_r in Hp. rewrite Hp. cbn. solve_Permutation.
  - unfold accounted, all_in_flight in *. cbn [handled_ container_ dropped_ pushed_ workers].
    rewrite <- Ha. pose proof (in_flight_insert _ _ _ (Batch l) H) as Hp. cbn [in_flight] in Hp.
    cbn [somes omap list_omap id] in Hp. unfold somes in *. cbn in Hp.
    revert Hp. generalize (mjoin (in_flight <$> <[i:=Batch l]> (workers s))).
    generalize (mjoin (in_flight <$> workers s)). intros A B Hp.
    assert (e :: B ≡ₚ A) as HA.
    { apply (Permutation_app_inv_r (omap id l)). rewrite <- Hp. solve_Permutation. }
    rewrite <- HA. solve_Permutation.
  - unfold accounted, all_in_flight in *. cbn [handled_ container_ dropped_ pushed_ workers].
    rewrite <- Ha. pose proof (in_flight_insert _ _ _ (@Exited) H) as Hp. cbn [in_flight] in Hp.
    change (somes (None :: l)) with (somes l) in Hp. rewrite app_nil_r in Hp.
    rewrite <- Hp. solve_Permutation.
  - unfold accounted, all_in_flight in *. cbn [handled_ container_ dropped_ pushed_ workers clear].
    rewrite in_flight_wake, <- Ha. cbn. solve_Permutation.
  - unfold accounted, all_in_flight in *. cbn [handled_ container_ dropped_ pushed_ workers push].
    rewrite <- Ha, somes_app. cbn. by rewrite !app_nil_r.
  - revert Ha. apply accounted_same; try done. unfold all_in_flight. cbn. by rewrite in_flight_wake.
  - revert Ha. apply accounted_same; try done. unfold all_in_flight. cbn. by rewrite in_flight_wake.
Qed.

Lemma accounted_reachable n s : rtc lstep (listener_new n) s -> accounted s.
Proof.
  intros H. pose proof (accounted_new n) as H0. revert H0.
  induction H; eauto using accounted_step.
Qed.

(** ** One worker: order *)

(** No event follows the null reference in what a worker has taken. *)
Definition null_last (l : list (option E)) : Prop :=
  forall a b, l = a ++ None :: b -> somes b = [].

Lemma null_last_tail x l : null_last (x :: l) -> null_last l.
Proof. intros H a b ->. by apply (H (x :: a)). Qed.

Lemma null_last_somes l : Forall is_Some l -> null_last l.
Proof.
  intros H a b ->. apply Forall_app in H as [_ H]. apply Forall_cons in H as [H _].
  by destruct H.
Qed.

Lemma null_last_none l : somes l = [] -> null_last l.
Proof. intros H a b ->. rewrite somes_app in H. by apply app_eq_nil in H as [_ ?]. Qed.

(** With a single worker the events are handled in the order they came in,
    and what [deinit] throws away is at the end. *)
Definition fifo (s : qstate) (w : wpc) : Prop :=
  workers s = [w]
  /\ handled_ s ++ in_flight w ++ somes (container_ s) ++ dropped_ s = pushed_ s
  /\ (l_valid s = true -> dpc s = 0)
  /\ (dpc s <= 1 -> dropped_ s = [] /\ Forall is_Some (container_ s))
  /\ (2 <= dpc s -> somes (container_ s) = [])
  /\ match w with Batch l => null_last l | _ => True end.

(** Once the null reference is in the queue, the worker cannot sleep on. *)
Definition awake (s : qstate) (w : wpc) : Prop :=
  3 <= dpc s ->
  match w with
  | AboutToWait => False
  | Waiting => 0 < signals s /\ container_ s <> []
  | Enter | Woken => container_ s <> []
  | _ => True
  end.

Lemma singleton_lookup (w w' : wpc) i : [w] !! i = Some w' -> i = 0 /\ w' = w.
Proof. destruct i; cbn; [by intros [= ->] | done]. Qed.

Lemma container_taken s : fifo s (@Enter) \/ fifo s (@Woken) -> null_last (container_ s).
Proof.
  intros Hf. destruct (decide (dpc s <= 1)) as [H1|H1].
  - apply null_last_somes. destruct Hf as [Hf|Hf]; by apply Hf.
  - apply null_last_none. destruct Hf as [Hf|Hf]; apply Hf; lia.
Qed.

Ltac one_worker :=
  repeat match goal with
         | Hw : workers ?s = [_], H : workers ?s !! _ = Some _ |- _ =>
             rewrite Hw in H; apply singleton_lookup in H as [-> ?]; simplify_eq
         | H : _ \/ _ |- _ => destruct H; simplify_eq
         end.

(** A step that leaves the queue and the logs alone. *)
Lemma fifo_quiet s w s' w' :
  fifo s w -> workers s' = [w'] -> in_flight w' = in_flight w ->
  match w' with Batch l => null_last l | _ => True end ->
  handled_ s' = handled_ s -> container_ s' = container_ s -> dropped_ s' = dropped_ s ->
  pushed_ s' = pushed_ s -> (l_valid s' = true -> l_valid s = true) ->
  dpc s' = dpc s \/ (dpc s = 0 /\ dpc s' = 1 /\ l_valid s' = false)
    \/ (2 <= dpc s /\ dpc s' = S (dpc s)) ->
  exists w', fifo s' w'.
Proof.
  intros (Hw & Hq & Hv & H1 & H2 & Hb) Hw' Hi Hb' Hh Hc Hd Hp Hl Hdpc. exists w'. unfold fifo.
  rewrite Hh, Hc, Hd, Hp, Hi. split_and!; try done.
  - intros H. specialize (Hv (Hl H)). destruct Hdpc as [->|[(_ & _ & Hx)|[Hx _]]]; [done|congruence|lia].
  - intros H. apply H1. lia.
  - intros H. apply H2. lia.
Qed.

Ltac quiet Hf := eapply fifo_quiet; [exact Hf|cbn; try reflexivity..]; auto.

Lemma fifo_take s : fifo s (@Enter) \/ fifo s (@Woken) -> exists w', fifo (pop_take s 0) w'.
Proof.
  intros Hf. pose proof (container_taken s Hf) as Hn. exists (Batch (container_ s)).
  destruct Hf as [(Hw & Hq & Hv & H1 & H2 & _)|(Hw & Hq & Hv & H1 & H2 & _)]; unfold fifo; cbn;
    rewrite Hw; split_and!; try done; intros Hd; (split; [by apply H1 | constructor]).
Qed.

Lemma fifo_listen s w e : l_valid s = true -> fifo s w -> fifo (push s (Some e) (dpc s)) w.
Proof.
  intros Hl (Hw & Hq & Hv & H1 & H2 & Hb). specialize (Hv Hl).
  destruct H1 as [Hd Hc]; [lia|]. unfold fifo. cbn. rewrite Hv. split_and!; try done; try lia.
  - rewrite <- Hq, somes_app, Hd. cbn. by rewrite !app_nil_r, <- !app_assoc.
  - intros _. split; [done|]. apply Forall_app. split; [done|]. by repeat constructor.
Qed.

Lemma fifo_push_null s w : dpc s = 2 -> fifo s w -> fifo (push s None 3) w.
Proof.
  intros Hd2 (Hw & Hq & Hv & H1 & H2 & Hb). unfold fifo. cbn. rewrite somes_app, !app_nil_r.
  split_and!; try done; try lia.
  - intros Hl. specialize (Hv Hl). lia.
  - intros _. apply H2. lia.
Qed.

Lemma fifo_clear s w : dpc s = 1 -> fifo s w -> exists w', fifo (clear s 2) w'.
Proof.
  intros Hd1 (Hw & Hq & Hv & H1 & H2 & Hb). exists (if is_waiting w then Woken else w).
  destruct H1 as [Hd Hc]; [lia|]. unfold fifo. cbn. rewrite Hw. cbn.
  assert (in_flight (if is_waiting w then Woken else w) = in_flight w) as -> by by destruct w.
  rewrite Hd in *. rewrite app_nil_r in Hq. split_and!; try done; try lia.
  - intros Hl. specialize (Hv Hl). lia.
  - by destruct w.
Qed.

Lemma fifo_broadcast s w d :
  5 <= dpc s -> d = S (dpc s) -> fifo s w -> exists w', fifo (broadcast s d) w'.
Proof.
  intros H5 -> Hf. pose proof Hf as (Hw & _ & _ & _ & _ & Hb).
  eapply (fifo_quiet _ _ _ (if is_waiting w then Woken else w) Hf); try done; cbn.
  - by rewrite Hw.
  - by destruct w.
  - by destruct w.
  - right. right. lia.
Qed.

Lemma fifo_step s s' w : lstep s s' -> fifo s w -> exists w', fifo s' w'.
Proof.
  intros Hs Hf. pose proof Hf as (Hw & Hq & Hv & H1 & H2 & Hb).
  destruct Hs as [Hs|Hs]; destruct Hs; one_worker; try (by quiet Hf; cbn; rewrite ?Hw).
  - exists w. by apply fifo_listen.
  - apply fifo_take. by left.
  - apply fifo_take. by right.
  - exists (Batch l). unfold fifo. cbn. rewrite Hw. cbn in Hq.
    split_and!; try done; [|by eapply null_last_tail].
    by rewrite <- Hq, <- !app_assoc.
  - exists Exited. unfold fifo. cbn. rewrite Hw. cbn in Hq. rewrite (Hb [] l eq_refl) in *.
    unfold somes in Hq. cbn in Hq. rewrite app_nil_r.
    pose proof (Hb [] l eq_refl) as Hn. unfold somes in Hn. rewrite Hn in Hq. by split_and!.
  - by eapply fifo_clear.
  - exists w. by apply fifo_push_null.
  - quiet Hf. lia.
  - quiet Hf. lia.
  - by eapply fifo_broadcast; [..|exact Hf]; lia.
  - by eapply fifo_broadcast; [..|exact Hf]; lia.
Qed.

Lemma mutex_free_one s w : workers s = [w] -> mutex_free s = true -> w <> AboutToWait.
Proof. unfold mutex_free. intros -> H ->. done. Qed.

Lemma awake_broadcast s w d :
  workers s = [w] -> 3 <= dpc s -> awake s w -> exists w', workers (broadcast s d) = [w'] /\ awake (broadcast s d) w'.
Proof.
  intros Hw H3 Ha. exists (if is_waiting w then Woken else w). cbn. rewrite Hw. split; [done|].
  intros _. specialize (Ha H3). cbn. destruct w; cbn; try done. by destruct Ha.
Qed.

Lemma awake_step s s' w :
  lstep s s' -> fifo s w -> awake s w -> exists w', workers s' = [w'] /\ awake s' w'.
Proof.
  intros Hs (Hw & _ & Hv & _) Ha.
  destruct Hs as [Hs|Hs]; destruct Hs; one_worker;
    try (by eexists; split; [by cbn; rewrite Hw|]; intros H3; cbn in *; try (specialize (Ha H3)); try lia; try done).
  - exists w. split; [done|]. intros H3. cbn in H3. specialize (Hv H). lia.
  - eexists. split; [by cbn; rewrite Hw|]. intros H3. cbn in *. by destruct (Ha H3).
  - exists w. split; [done|]. intros H3. cbn in *. specialize (Ha H3). destruct w; try done.
    by rewrite Hw in H0.
  - eexists. split; [by cbn; rewrite Hw|]. intros H3. cbn in *. specialize (Hv H1). lia.
  - eexists. split; [by cbn; rewrite Hw|]. intros H4. cbn in *. by destruct (Ha H4).
  - eexists. split; [by cbn; rewrite Hw|]. intros H4. cbn in *. by destruct (Ha H4).
  - eexists. split; [by cbn; rewrite Hw|]. done.
  - eexists. split; [by cbn; rewrite Hw|]. done.
  - exists w. split; [done|]. intros _. cbn. pose proof (mutex_free_one s w Hw H0).
    destruct w; try done; try split; try lia; intros E0; by apply app_eq_nil in E0 as [_ ?].
  - exists w. split; [done|]. intros H3. cbn in *. apply Ha. lia.
  - exists w. split; [done|]. intros H3. cbn in *. apply Ha. lia.
  - apply awake_broadcast with w; [done|lia|done].
  - apply awake_broadcast with w; [done|lia|done].
  - eexists. split; [by cbn; rewrite Hw|]. intros H3. cbn in *. by destruct (Ha H3).
Qed.

Lemma one_worker_reachable s :
  rtc lstep (listener_new 1) s -> exists w, fifo s w /\ awake s w.
Proof.
  intros H. assert (exists w, fifo (listener_new 1) w /\ awake (listener_new 1) w) as H0.
  { exists Top. unfold fifo, awake. cbn. by split_and!. }
  revert H0. induction H as [|s1 s2 s3 Hs _ IH]; [done|]. intros (w & Hf & Ha). apply IH.
  destruct (fifo_step _ _ _ Hs Hf) as (w1 & Hf1).
  destruct (awake_step _ _ _ Hs Hf Ha) as (w2 & Hw2 & Ha2).
  assert (w1 = w2) as -> by (destruct Hf1 as [Hw1 _]; congruence). by exists w2.
Qed.

Lemma one_worker_progress s w :
  fifo s w -> awake s w -> dpc s = 7 -> w <> Exited -> exists s', qstep s s'.
Proof.
  intros (Hw & _ & Hv & _) Ha Hd Hx. specialize (Ha ltac:(lia)).
  assert (workers s !! 0 = Some w) as Hi by by rewrite Hw.
  assert (w <> AboutToWait -> mutex_free s = true) as Hm.
  { intros Hn. unfold mutex_free. rewrite Hw. by destruct w. }
  destruct w as [| | | | |[|[e|] l]|]; try done.
  - eexists. eapply S_top_exit; [done|]. right. destruct (l_valid s); [|done].
    specialize (Hv eq_refl). lia.
  - destruct (q_terminating s) eqn:Hq; eexists.
    + eapply S_pop_term; eauto.
    + eapply S_pop_take; eauto.
  - destruct Ha as [Hs _]. destruct (signals s) as [|n] eqn:En; [lia|]. eexists. by eapply S_signal.
  - destruct (q_terminating s) eqn:Hq; eexists.
    + eapply S_pop_term; eauto.
    + eapply S_pop_take; eauto.
  - eexists. by eapply S_batch_end.
  - eexists. by eapply S_handle.
  - eexists. by eapply S_null.
Qed.

(** The state two workers can end in: one has taken the null reference, the
    other went to sleep after the last broadcast. *)
Definition sleeper : qstate := mkQ [] true true false [Exited; Waiting] 0 7 [] [] [].

Lemma sleeper_stuck s' : ~ qstep sleeper s'.
Proof.
  intros H. inversion H; subst; cbn in *; try discriminate; try lia;
    destruct_or?; subst;
    repeat match goal with
           | H : [_; _] !! ?i = Some _ |- _ => destruct i as [|[|?]]; cbn in H; try discriminate
           end.
Qed.

Lemma sleeper_reachable : rtc lstep (listener_new 2) sleeper.
Proof.
  unfold sleeper, listener_new. cbn [repeat].
  eapply rtc_l; [left; by apply (S_top_enter _ 0)|]. cbn.
  eapply rtc_l; [left; by apply (S_top_enter _ 1)|]. cbn.
  eapply rtc_l; [left; by eapply (S_pop_wait _ 0); [reflexivity|left; reflexivity|..]|]. cbn.
  eapply rtc_l; [left; by apply (S_wait _ 0)|]. cbn.
  eapply rtc_l; [left; by apply D_null|]. cbn.
  eapply rtc_l; [left; by apply D_clear|]. cbn.
  eapply rtc_l; [left; by apply D_push|]. cbn.
  eapply rtc_l; [left; by eapply (S_pop_take _ 0); [reflexivity|right; reflexivity|..]|]. cbn.
  eapply rtc_l; [left; by eapply (S_null _ 0)|]. cbn.
  eapply rtc_l; [left; by eapply S_signal_none|]. cbn.
  eapply rtc_l; [left; by apply D_lterm|]. cbn.
  eapply rtc_l; [left; by eapply (S_pop_wait _ 1); [reflexivity|left; reflexivity|..]|]. cbn.
  eapply rtc_l; [left; by apply D_qterm|]. cbn.
  eapply rtc_l; [left; by apply D_bcast1|]. cbn.
  eapply rtc_l; [left; by apply D_bcast2|]. cbn.
  eapply rtc_l; [left; by apply (S_wait _ 1)|]. cbn. apply rtc_refl.
Qed.
End Listener.

(** ** After deinit *)

Section Deinit.
Context {E : Type}.
Implicit Types s : qstate (E := E).

Definition deinit_flags (s : qstate (E := E)) : Prop :=
  (4 <= dpc s -> l_terminating s = true) /\ (5 <= dpc s -> q_terminating s = true)
  /\ (1 <= dpc s -> l_valid s = false).

Lemma deinit_flags_step s s' : lstep s s' -> deinit_flags s -> deinit_flags s'.
Proof.
  intros [Hs|Hs] (H1 & H2 & H3); unfold deinit_flags; destruct Hs; cbn; split_and!; try done; try lia; intros;
    try (apply H1; lia); try (apply H2; lia); try (apply H3; lia).
Qed.

(** How many steps a worker and the pending signals have left. *)
Definition weight (w : wpc (E := E)) : nat :=
  match w with
  | Exited => 0 | Top => 1 | Enter | Woken => 2 | Waiting => 3 | AboutToWait => 4
  | Batch l => 2 + length l
  end.

Definition work_left (s : qstate (E := E)) : nat := signals s + sum_list (weight <$> workers s).

Lemma sum_insert (ws : list (wpc (E := E))) i w w' :
  ws !! i = Some w ->
  sum_list (weight <$> <[i := w']> ws) + weight w = sum_list (weight <$> ws) + weight w'.
Proof.
  revert i. induction ws as [|x ws IH]; intros [|i] Hi; cbn in *; try done.
  - simplify_eq. lia.
  - rewrite <- Nat.add_assoc. setoid_rewrite (IH i Hi). lia.
Qed.

Lemma work_decreases s s' :
  deinit_flags s -> dpc s = 7 -> lstep s s' -> dpc s' = 7 /\ work_left s' < work_left s.
Proof.
  intros (H1 & H2 & H3) Hd Hs.
  specialize (H1 ltac:(lia)). specialize (H2 ltac:(lia)). specialize (H3 ltac:(lia)).
  destruct Hs as [Hs|Hs]; destruct Hs; try congruence; unfold work_left; cbn; (split; [lia|]);
    try match goal with
        | H : workers ?s !! ?i = Some ?w |- context [<[?i := ?w']> _] =>
            pose proof (sum_insert (workers s) i w w' H) as Hsum; cbn [weight length] in Hsum
        end; try lia.
  destruct_or!; subst; cbn [weight] in Hsum; lia.
Qed.

Lemma deinit_bounded n s s' :
  deinit_flags s -> dpc s = 7 -> nsteps lstep n s s' -> n <= work_left s.
Proof.
  intros Hf Hd H. induction H as [s|n s1 s2 s3 Hs H IH]; [lia|].
  destruct (work_decreases s1 s2 Hf Hd Hs) as [Hd2 Hw].
  specialize (IH (deinit_flags_step _ _ Hs Hf) Hd2). lia.
Qed.

Lemma deinit_flags_reachable n s : rtc lstep (listener_new n) s -> deinit_flags s.
Proof.
  intros H. assert (deinit_flags (listener_new n)) as H0 by (unfold deinit_flags; cbn; split_and!; lia).
  revert H0. induction H; eauto using deinit_flags_step.
Qed.
End Deinit.

(** ** Properties *)

(** C5: For a listener with any number of worker threads, in every interleaving
    with its producers, with [deinit] and with spurious wakeups, each event
    accepted by [listenToEvent] is in exactly one place: handled once, taken by
    a worker, in the queue, or thrown away by [deinit]. *)
Theorem listener_no_event_lost {E} n (s : qstate (E := E)) :
  rtc lstep (listener_new n) s ->
  handled_ s ++ all_in_flight s ++ somes (container_ s) ++ dropped_ s ≡ₚ pushed_ s.
Proof. apply accounted_reachable. Qed.

Lemma listener_no_event_lost_witness :
  let s := mkQ [] false false true [Batch []] 1 0 [5] [5] [] in
  handled_ s ++ all_in_flight s ++ somes (container_ s) ++ dropped_ s ≡ₚ pushed_ s.
Proof.
  intros s. apply (listener_no_event_lost 1 s).
  eapply rtc_l; [left; by apply (S_listen _ 5)|]. cbn.
  eapply rtc_l; [left; by apply (S_top_enter _ 0)|]. cbn.
  eapply rtc_l; [left; by eapply (S_pop_take _ 0); [reflexivity|left; reflexivity|..]|]. cbn.
  eapply rtc_l; [left; by eapply (S_handle _ 0)|]. cbn. apply rtc_refl.
Defined.

(** A listener with one worker thread handles the events in the order
    [listenToEvent] accepted them, and none that came after one it dropped. *)
Lemma listener_one_thread_fifo {E} (s : qstate (E := E)) :
  rtc lstep (listener_new 1) s -> handled_ s `prefix_of` pushed_ s.
Proof.
  intros H. destruct (one_worker_reachable s H) as (w & (_ & <- & _) & _). by eexists.
Qed.

Lemma listener_one_thread_fifo_witness : [5] `prefix_of` [5; 6].
Proof.
  apply (listener_one_thread_fifo (mkQ [] false false true [Batch [Some 6]] 2 0 [5] [5; 6] [])).
  eapply rtc_l; [left; by apply (S_listen _ 5)|]. cbn.
  eapply rtc_l; [left; by apply (S_listen _ 6)|]. cbn.
  eapply rtc_l; [left; by apply (S_top_enter _ 0)|]. cbn.
  eapply rtc_l; [left; by eapply (S_pop_take _ 0); [reflexivity|left; reflexivity|..]|]. cbn.
  eapply rtc_l; [left; by eapply (S_handle _ 0)|]. cbn. apply rtc_refl.
Defined.

(** C26: Once [deinit] of a listener with one worker has made its last call, the
    number of steps left is bounded, and the system stops only when the worker
    has exited: the join in [deinit] returns. *)
Theorem listener_one_thread_deinit {E} (s : qstate (E := E)) :
  rtc lstep (listener_new 1) s -> dpc s = 7 ->
  (forall n s', nsteps lstep n s s' -> n <= work_left s)
  /\ ((forall s', ~ qstep s s') -> workers s = [Exited]).
Proof.
  intros H Hd. pose proof (deinit_flags_reachable 1 s H) as Hf. split.
  { intros n s'. by apply deinit_bounded. }
  intros Hstuck. destruct (one_worker_reachable s H) as (w & Hq & Ha).
  assert (w = Exited \/ w <> Exited) as [->|Hne] by (destruct w; [right; discriminate..|by left]); [apply Hq|].
  destruct (one_worker_progress s w Hq Ha Hd Hne) as (s' & Hs'). by destruct (Hstuck s').
Qed.

Lemma listener_one_thread_deinit_witness :
  let s := mkQ (E := Event) [None] true true false [Top] 1 7 [] [] [] in
  (forall n s', nsteps lstep n s s' -> n <= work_left s)
  /\ ((forall s', ~ qstep s s') -> workers s = [Exited]).
Proof.
  intros s. apply (listener_one_thread_deinit s); [|reflexivity].
  eapply rtc_l; [left; by apply D_null|]. cbn. eapply rtc_l; [left; by apply D_clear|]. cbn.
  eapply rtc_l; [left; by apply D_push|]. cbn. eapply rtc_l; [left; by apply D_lterm|]. cbn.
  eapply rtc_l; [left; by apply D_qterm|]. cbn. eapply rtc_l; [left; by apply D_bcast1|]. cbn.
  eapply rtc_l; [left; by apply D_bcast2|]. cbn. apply rtc_refl.
Defined.

(** C27: With two worker threads (the same code, [ListenerBufferedNThread]) there
    is an interleaving in which [deinit] has made its last call and one worker
    sleeps in [m_cond.wait] for good: no step is possible and the worker has not
    exited, so the join in [deinit] never returns. *)
Theorem listener_two_threads_deadlock :
  exists s : qstate (E := Event),
    rtc lstep (listener_new 2) s /\ dpc s = 7 /\ workers s = [Exited; Waiting] /\ forall s', ~ qstep s s'.
Proof.
  exists sleeper. split; [apply sleeper_reachable|]. split; [done|]. split; [done|]. apply sleeper_stuck.
Qed.
