(* ===== verification/Timer.v ===== *)
(** The timer service: modules/timer/timerService.cpp and timerService.h.

    A task is an object shared by reference between the map of deadlines and the
    batch the worker is delivering: tasks live in [heap] and are named by their
    index, so that [erased] set through one reference is seen through the other.
    [mx_nexts] maps a deadline in microseconds to the tasks due then.

    [tstep] interleaves the service's handlers, the worker's steps and the
    clock.  The worker takes the whole batch of the first deadline under the
    mutex ([worker_pop]) and delivers its tasks one at a time without it
    ([worker_fire]).

    A [double] number of seconds is a rational; [deadline] computes the sum
    exactly and truncates it to [int64_t] as the conversion does. *)

From Stdlib Require Import ZArith QArith Lia.
From stdpp Require Import base list strings numbers relations.
From S2P Require Import Prelude StdMap Route CLib Sockaddr Events Service.
Open Scope Z_scope.

Inductive TYP : Type := TYPE_ALARM | TYPE_TIMER.

#[export] Instance TYP_eq_dec : EqDecision TYP.
Proof. solve_decision. Defined.

Record task : Type := mkTask {
  type : TYP;
  tid : Z;
  data : list Z;
  cookie : ptr;
  t_route : route_t;
  period_real : Q;
  erased : bool;
}.

Definition set_erased (t : task) : task :=
  mkTask (type t) (tid t) (data t) (cookie t) (t_route t) (period_real t) true.

Record Timer : Type := mkTimer {
  heap : list task;
  mx_nexts : list (Z * list nat);
  batch : list nat;                 (* itSecondCopy from the current index on *)
  now : Z;                          (* the clock getNow reads *)
  terminating : bool;
  fired : list (nat * Z);           (* which task ticked and when, oldest first *)
}.

Definition timer_new (t0 : Z) : Timer := mkTimer [] [] [] t0 false [].

(** [getNow() + secs*1000000] stored in an [int64_t]. *)
Definition deadline (t0 : Z) (secs : Q) : Z :=
  let q := (inject_Z t0 + secs * inject_Z 1000000)%Q in
  Z.quot (Qnum q) (Zpos (Qden q)).

(** [mx_nexts[tb].push_back(t)]. *)
Definition schedule (m : list (Z * list nat)) (tb : Z) (i : nat) : list (Z * list nat) :=
  map_update Z.ltb tb [] (fun l => l ++ [i]) m.

Definition add_task (s : Timer) (ty : TYP) (tid : Z) (d : list Z) (c : ptr) (r : route_t) (secs : Q) : Timer :=
  let t := mkTask ty tid d c r secs false in
  mkTimer (heap s ++ [t]) (schedule (mx_nexts s) (deadline (now s) secs) (length (heap s)))
          (batch s) (now s) (terminating s) (fired s).

(** The test of the stop handlers on a task [x] found in [mx_nexts]. *)
Definition matches (ty : TYP) (tid0 : Z) (d : list Z) (r : route_t) (x : task) : bool :=
  bool_decide (data x = d) && route_eqb (t_route x) r && (tid x =? tid0)
  && bool_decide (type x = ty).

(** The tasks [mx_nexts] refers to. *)
Definition scheduled (m : list (Z * list nat)) : list nat := mjoin (snd <$> m).

(** [x->erased=true] through a reference. *)
Definition erase_at (h : list task) (i : nat) : list task := alter set_erased i h.

Definition erase_if (p : task -> bool) (h : list task) (i : nat) : list task :=
  match h !! i with
  | Some x => if p x then erase_at h i else h
  | None => h
  end.

(** The two nested loops over [mx_nexts]. *)
Definition erase_matching (p : task -> bool) (s : Timer) : Timer :=
  mkTimer (fold_left (erase_if p) (scheduled (mx_nexts s)) (heap s))
          (mx_nexts s) (batch s) (now s) (terminating s) (fired s).

Definition on_SetTimer (s : Timer) (tid : Z) (d : list Z) (c : ptr) (secs : Q) (r : route_t) : bool * Timer :=
  if terminating s then (false, s) else (true, add_task s TYPE_TIMER tid d c r secs).

Definition on_SetAlarm (s : Timer) (tid : Z) (d : list Z) (c : ptr) (secs : Q) (r : route_t) : bool * Timer :=
  if terminating s then (false, s) else (true, add_task s TYPE_ALARM tid d c r secs).

Definition on_StopTimer (s : Timer) (tid : Z) (d : list Z) (r : route_t) : bool * Timer :=
  if terminating s then (false, s) else (true, erase_matching (matches TYPE_TIMER tid d r) s).

Definition on_StopAlarm (s : Timer) (tid : Z) (d : list Z) (r : route_t) : bool * Timer :=
  if terminating s then (false, s) else (true, erase_matching (matches TYPE_ALARM tid d r) s).

Definition on_ResetAlarm (s : Timer) (tid : Z) (d : list Z) (c : ptr) (secs : Q) (r : route_t) : bool * Timer :=
  if terminating s then (false, s)
  else (true, add_task (erase_matching (matches TYPE_ALARM tid d r) s) TYPE_ALARM tid d c r secs).

(** [on_startService] only starts the worker thread. *)
Definition timer_handleEvent (s : Timer) (e : Event) : bool * Timer :=
  let r := ev_route e in
  match ev_body e with
  | Etimer (timerEvent.SetTimer i d c secs) => on_SetTimer s i d c secs r
  | Etimer (timerEvent.SetAlarm i d c secs) => on_SetAlarm s i d c secs r
  | Etimer (timerEvent.ResetAlarm i d c secs) => on_ResetAlarm s i d c secs r
  | Etimer (timerEvent.StopTimer i d) => on_StopTimer s i d r
  | Etimer (timerEvent.StopAlarm i d) => on_StopAlarm s i d r
  | Esystem systemEvent.startService => (true, s)
  | _ => (false, s)
  end.

Definition timer_deinit (s : Timer) : Timer :=
  mkTimer (heap s) [] (batch s) (now s) true (fired s).

(** ** The worker *)

(** The part of the inner loop under the mutex: take the first deadline's batch
    when it is due; otherwise wait (a timed wait, or, when the map is empty, no
    wait at all) and go round again. *)
Definition worker_pop (s : Timer) : Timer :=
  match mx_nexts s with
  | (itFirst, itSecond) :: rest =>
      if now s <? itFirst then s
      else mkTimer (heap s) (map_erase Z.ltb itFirst (mx_nexts s)) itSecond (now s) (terminating s) (fired s)
  | [] => s
  end.

(** The tick a task sends. *)
Definition tick_event (t : task) : res Event :=
  r ← poppedFrontRoute (t_route t);
  Ok (mkEvent (Etimer match type t with
                      | TYPE_TIMER => timerEvent.TickTimer (tid t) (data t) (cookie t)
                      | TYPE_ALARM => timerEvent.TickAlarm (tid t) (data t) (cookie t)
                      end) r).

(** One round of the delivery loop.  [pass] tells whether [passEvent] throws;
    an exception leaves the loop and with it the rest of the batch. *)
Definition worker_fire (pass : Event -> bool) (s : Timer) : Timer * list action :=
  match batch s with
  | [] => (s, [])
  | i :: rest =>
      if terminating s then (mkTimer (heap s) (mx_nexts s) [] (now s) true (fired s), [])
      else match heap s !! i with
           | None => (s, [])
           | Some t =>
               if erased t
               then (mkTimer (heap s) (mx_nexts s) rest (now s) (terminating s) (fired s), [])
               else match tick_event t with
                    | Throw _ => (mkTimer (heap s) (mx_nexts s) [] (now s) (terminating s) (fired s), [])
                    | Ok e =>
                        if pass e
                        then (match type t with
                              | TYPE_TIMER =>
                                  mkTimer (heap s) (schedule (mx_nexts s) (deadline (now s) (period_real t)) i)
                                          rest (now s) (terminating s) (fired s ++ [(i, now s)])
                              | TYPE_ALARM =>
                                  mkTimer (erase_at (heap s) i) (mx_nexts s)
                                          rest (now s) (terminating s) (fired s ++ [(i, now s)])
                              end, [A_pass e])
                        else (mkTimer (heap s) (mx_nexts s) [] (now s) (terminating s) (fired s ++ [(i, now s)]), [A_pass e])
                    end
           end
  end.

(** The system: a handler runs, the worker advances, time passes. *)
Inductive tstep : Timer -> Timer -> Prop :=
| T_event s e : tstep s (snd (timer_handleEvent s e))
| T_pop s : batch s = [] -> terminating s = false -> tstep s (worker_pop s)
| T_fire pass s : batch s <> [] -> tstep s (fst (worker_fire pass s))
| T_clock s n : now s <= n -> tstep s (mkTimer (heap s) (mx_nexts s) (batch s) n (terminating s) (fired s))
| T_deinit s : tstep s (timer_deinit s).

(** ** Facts on the map of deadlines *)

Lemma scheduled_schedule m tb i : scheduled (schedule m tb i) ≡ₚ i :: scheduled m.
Proof.
  unfold scheduled, schedule. induction m as [|[k l] m IH]; cbn; [done|].
  destruct (k <? tb); cbn.
  - rewrite IH. solve_Permutation.
  - destruct (tb <? k); cbn; [done|]. solve_Permutation.
Qed.

Lemma erase_first k (l : list nat) m : map_erase Z.ltb k ((k, l) :: m) = m.
Proof. cbn. by rewrite Z.ltb_irrefl. Qed.

Lemma erase_if_length p h i : length (erase_if p h i) = length h.
Proof. unfold erase_if, erase_at. destruct (h !! i) as [x|]; [|done]. destruct (p x); [|done]. apply length_alter. Qed.

Lemma erase_all_length p l h : length (fold_left (erase_if p) l h) = length h.
Proof. revert h; induction l as [|i l IH]; intros h; cbn; [done|]. by rewrite IH, erase_if_length. Qed.

(** The stop loops change nothing but the flag. *)
Definition same_task (t t' : task) : Prop :=
  type t' = type t /\ tid t' = tid t /\ data t' = data t /\ cookie t' = cookie t
  /\ t_route t' = t_route t /\ period_real t' = period_real t
  /\ (erased t = true -> erased t' = true).

Lemma same_task_refl t : same_task t t.
Proof. by repeat split. Qed.

Lemma same_task_trans a b c : same_task a b -> same_task b c -> same_task a c.
Proof. unfold same_task. intuition congruence. Qed.

Lemma same_task_erased t : same_task t (set_erased t).
Proof. by repeat split. Qed.

(** A predicate that does not look at the flag. *)
Definition flagless (p : task -> bool) : Prop := forall t t', same_task t t' -> p t' = p t.

Lemma matches_flagless ty i d r : flagless (matches ty i d r).
Proof. intros t t' (H1 & H2 & H3 & _ & H5 & _). unfold matches. by rewrite H1, H2, H3, H5. Qed.

Lemma erase_if_lookup p h i j t :
  h !! j = Some t ->
  exists t', erase_if p h i !! j = Some t' /\ same_task t t'
             /\ (i = j -> p t = true -> erased t' = true).
Proof.
  intros Hj. unfold erase_if, erase_at. destruct (h !! i) as [x|] eqn:Hi.
  2: { exists t. split; [done|]. split; [apply same_task_refl|]. intros ->. congruence. }
  destruct (decide (i = j)) as [->|Hn].
  - simplify_eq. destruct (p t) eqn:Hp.
    + exists (set_erased t). rewrite list_lookup_alter, decide_True by done. rewrite Hj.
      split; [done|]. split; [apply same_task_erased | done].
    + exists t. split; [done|]. split; [apply same_task_refl | done].
  - exists t. split; [|split; [apply same_task_refl | done]].
    destruct (p x); [|done]. by rewrite list_lookup_alter_ne.
Qed.

Lemma erase_all_lookup p l h j t :
  flagless p -> h !! j = Some t ->
  exists t', fold_left (erase_if p) l h !! j = Some t' /\ same_task t t'
             /\ (j ∈ l -> p t = true -> erased t' = true).
Proof.
  intros Hp; revert h t; induction l as [|i l IH]; intros h t Hj; cbn [fold_left].
  - exists t. split; [done|]. split; [apply same_task_refl|]. by intros ?%not_elem_of_nil.
  - destruct (erase_if_lookup p h i j t Hj) as (t1 & H1 & Hs1 & He1).
    destruct (IH _ _ H1) as (t2 & H2 & Hs2 & He2). exists t2. split; [done|].
    split; [by eapply same_task_trans|]. intros Hin Hpt. apply elem_of_cons in Hin as [->|Hin].
    + by apply Hs2, He1.
    + apply He2; [done|]. by rewrite (Hp t t1 Hs1).
Qed.

Lemma erase_all_lookup_inv p l h j t' :
  flagless p -> fold_left (erase_if p) l h !! j = Some t' ->
  exists t, h !! j = Some t /\ same_task t t' /\ (j ∈ l -> p t = true -> erased t' = true).
Proof.
  intros Hp Hj. destruct (h !! j) as [t|] eqn:E.
  - destruct (erase_all_lookup p l h j t Hp E) as (t2 & H2 & Hs & He). exists t. by simplify_eq.
  - apply lookup_ge_None in E. apply lookup_lt_Some in Hj. rewrite erase_all_length in Hj. lia.
Qed.

(** ** Invariant *)

Definition pending (s : Timer) : list nat := batch s ++ scheduled (mx_nexts s).

Record timer_inv (s : Timer) : Prop := {
  ti_sorted : map_sorted Z.ltb (mx_nexts s);
  ti_nodup : NoDup (pending s);
  ti_bound : Forall (fun i => (i < length (heap s))%nat) (pending s);
  ti_fired_bound : Forall (fun i => (i < length (heap s))%nat) (fst <$> fired s);
  ti_alarm : forall i t, heap s !! i = Some t -> type t = TYPE_ALARM ->
    i ∈ (fst <$> fired s) -> i ∉ pending s;
  ti_once : forall i t, heap s !! i = Some t -> type t = TYPE_ALARM ->
    (length (filter (fun x => x = i) (fst <$> fired s)) <= 1)%nat;
}.

Definition same_types (h h' : list task) : Prop :=
  length h' = length h
  /\ forall i t', h' !! i = Some t' -> exists t, h !! i = Some t /\ type t = type t'.

Lemma same_types_refl h : same_types h h.
Proof. split; [done|]. eauto. Qed.

Lemma same_types_erase_all p l h : flagless p -> same_types h (fold_left (erase_if p) l h).
Proof.
  intros Hp. split; [apply erase_all_length|]. intros i t' Hi.
  destruct (erase_all_lookup_inv p l h i t' Hp Hi) as (t & Ht & Hs & _). exists t. split; [done|].
  symmetry. apply Hs.
Qed.

Lemma same_types_erase_at h i : same_types h (erase_at h i).
Proof.
  unfold erase_at. split; [apply length_alter|]. intros j t' Hj. rewrite list_lookup_alter in Hj.
  destruct (decide (i = j)) as [->|]; [|eauto].
  destruct (h !! j) as [t|]; [|done]. cbn in Hj. simplify_eq. by exists t.
Qed.

(** A step after which no more tasks are pending and nothing has ticked. *)
Lemma timer_inv_quiet s s' :
  timer_inv s -> map_sorted Z.ltb (mx_nexts s') -> NoDup (pending s') ->
  (forall i, i ∈ pending s' -> i ∈ pending s) -> same_types (heap s) (heap s') ->
  fired s' = fired s -> timer_inv s'.
Proof.
  intros [H1 H2 H3 H4 H5 H6] Hs Hn Hsub [Hl Ht] Hf. split; try done.
  - apply Forall_forall. intros i Hi. rewrite Hl. rewrite Forall_forall in H3. by apply H3, Hsub.
  - by rewrite Hf, Hl.
  - rewrite Hf. intros i t' Hi Hty Hin Hp. destruct (Ht i t' Hi) as (t & Hit & E).
    apply (H5 i t Hit); [congruence | done | by apply Hsub].
  - rewrite Hf. intros i t' Hi Hty. destruct (Ht i t' Hi) as (t & Hit & E).
    apply (H6 i t Hit). congruence.
Qed.

(** A step in which the first task of the batch ticks. *)
Lemma timer_inv_tick s s' i rest t :
  timer_inv s -> batch s = i :: rest -> heap s !! i = Some t ->
  map_sorted Z.ltb (mx_nexts s') -> NoDup (pending s') ->
  (forall j, j ∈ pending s' -> j ∈ pending s) -> (type t = TYPE_ALARM -> i ∉ pending s') ->
  same_types (heap s) (heap s') -> fired s' = fired s ++ [(i, now s)] -> timer_inv s'.
Proof.
  intros [H1 H2 H3 H4 H5 H6] Hb Hi Hs Hn Hsub Hal [Hl Ht] Hf.
  assert (i ∈ pending s) as Hip by (unfold pending; rewrite Hb; apply elem_of_cons; by left).
  split; try done.
  - apply Forall_forall. intros j Hj. rewrite Hl. rewrite Forall_forall in H3. by apply H3, Hsub.
  - rewrite Hf, Hl, fmap_app. apply Forall_app. split; [done|]. repeat constructor. cbn.
    by eapply lookup_lt_Some.
  - rewrite Hf, fmap_app. intros j t' Hj Hty Hin Hp. destruct (Ht j t' Hj) as (u & Hju & E).
    apply elem_of_app in Hin as [Hin|Hin].
    + apply (H5 j u Hju); [congruence | done | by apply Hsub].
    + cbn in Hin. apply list_elem_of_singleton in Hin as ->. simplify_eq. by apply Hal; [congruence|].
  - rewrite Hf, fmap_app. intros j t' Hj Hty. destruct (Ht j t' Hj) as (u & Hju & E).
    specialize (H6 j u Hju ltac:(congruence)). rewrite filter_app, length_app. cbn [fmap list_fmap fst].
    destruct (decide (i = j)) as [->|Hne].
    + simplify_eq. rewrite filter_cons_True by done. cbn.
      assert (filter (fun x => x = j) (fst <$> fired s) = []) as ->; [|cbn; lia].
      destruct (filter _ _) as [|y l] eqn:Ef; [done|]. exfalso.
      assert (y ∈ filter (fun x => x = j) (fst <$> fired s)) as Hy by (rewrite Ef; apply elem_of_cons; by left).
      apply list_elem_of_filter in Hy as [-> Hy]. apply (H5 j t Hi); [congruence | done | done].
    + rewrite filter_cons_False by done. cbn. lia.
Qed.

Lemma schedule_sorted m tb i : map_sorted Z.ltb m -> map_sorted Z.ltb (schedule m tb i).
Proof. intros. by apply (map_update_sorted Z.ltb). Qed.

Lemma timer_inv_add s ty i d c r secs : timer_inv s -> timer_inv (add_task s ty i d c r secs).
Proof.
  intros [H1 H2 H3 H4 H5 H6]. unfold add_task. set (n := length (heap s)).
  assert (forall m, batch s ++ scheduled (schedule (mx_nexts s) m n) ≡ₚ n :: pending s) as Hp.
  { intros m. rewrite scheduled_schedule. unfold pending. solve_Permutation. }
  assert (n ∉ pending s) as Hn.
  { intros Hin. rewrite Forall_forall in H3. specialize (H3 n Hin). subst n. lia. }
  assert (n ∉ (fst <$> fired s)) as Hnf.
  { intros Hin. rewrite Forall_forall in H4. specialize (H4 n Hin). subst n. lia. }
  assert (forall k t, (heap s ++ [mkTask ty i d c r secs false]) !! k = Some t ->
          heap s !! k = Some t \/ k = n) as Hk.
  { intros k t Hk. apply lookup_app_Some in Hk as [Hk|[Hk1 Hk]]; [by left|].
    right. destruct (k - length (heap s))%nat eqn:E0; [subst n; lia | done]. }
  split; unfold pending; cbn [mx_nexts batch heap fired].
  - by apply schedule_sorted.
  - rewrite Hp. by constructor.
  - rewrite Hp. constructor; rewrite length_app; cbn; [subst n; lia|].
    eapply Forall_impl; [exact H3|]. cbn. lia.
  - eapply Forall_impl; [exact H4|]. cbn. rewrite length_app. lia.
  - intros k t Hkt Hty Hin. rewrite Hp. apply not_elem_of_cons.
    destruct (Hk k t Hkt) as [Hk'| ->]; [|done]. split; [|by eapply H5]. intros ->. done.
  - intros k t Hkt Hty. destruct (Hk k t Hkt) as [Hk'| ->]; [by eapply H6|].
    assert (filter (fun x => x = n) (fst <$> fired s) = []) as ->; [|cbn; lia].
    destruct (filter _ _) as [|y l] eqn:Ef; [done|]. exfalso.
    assert (y ∈ filter (fun x => x = n) (fst <$> fired s)) as Hy by (rewrite Ef; apply elem_of_cons; by left).
    by apply list_elem_of_filter in Hy as [-> Hy].
Qed.

Lemma timer_inv_erase p s : flagless p -> timer_inv s -> timer_inv (erase_matching p s).
Proof.
  intros Hp H. apply (timer_inv_quiet s); try done; [apply H|apply H|]. by apply same_types_erase_all.
Qed.

Lemma timer_inv_event s e : timer_inv s -> timer_inv (snd (timer_handleEvent s e)).
Proof.
  intros H. unfold timer_handleEvent. destruct (ev_body e) as [[]| | | | |x| | | | | | | |]; try done.
  destruct x; try done;
    unfold on_StopTimer, on_StopAlarm, on_SetTimer, on_SetAlarm, on_ResetAlarm;
    destruct (terminating s); cbn [snd]; try done;
    eauto using timer_inv_add, timer_inv_erase, matches_flagless.
Qed.

Lemma timer_inv_pop s : batch s = [] -> timer_inv s -> timer_inv (worker_pop s).
Proof.
  intros Hb H. unfold worker_pop. destruct (mx_nexts s) as [|[k l] m] eqn:E; [done|].
  destruct (now s <? k); [done|]. rewrite erase_first.
  pose proof (ti_sorted _ H) as Hs. rewrite E in Hs.
  assert (pending s = l ++ scheduled m) as Hp by (unfold pending; by rewrite Hb, E).
  apply (timer_inv_quiet s); try done; [apply Hs|..].
  - unfold pending. cbn [batch mx_nexts]. rewrite <- Hp. apply H.
  - unfold pending at 1. cbn [batch mx_nexts]. by rewrite <- Hp.
  - apply same_types_refl.
Qed.

Lemma timer_inv_fire pass s : batch s <> [] -> timer_inv s -> timer_inv (fst (worker_fire pass s)).
Proof.
  intros Hb H. unfold worker_fire. destruct (batch s) as [|i rest] eqn:E; [done|].
  assert (pending s = i :: rest ++ scheduled (mx_nexts s)) as Hp by (unfold pending; by rewrite E).
  pose proof (ti_nodup _ H) as Hn. rewrite Hp in Hn. apply NoDup_cons in Hn as [Hi Hn].
  assert (NoDup (scheduled (mx_nexts s))) as Hn2 by (by apply NoDup_app in Hn as (_ & _ & ?)).
  assert (i ∉ scheduled (mx_nexts s)) as Hi2 by (intros ?; apply Hi, elem_of_app; by right).
  pose proof (ti_sorted _ H) as Hs.
  destruct (terminating s).
  { apply (timer_inv_quiet s); try done; [|apply same_types_refl].
    cbn. intros j Hj. rewrite Hp. apply elem_of_cons. right. apply elem_of_app. by right. }
  destruct (heap s !! i) as [t|] eqn:Et; [|done].
  destruct (erased t).
  { apply (timer_inv_quiet s); try done; [|apply same_types_refl].
    cbn. intros j Hj. rewrite Hp. apply elem_of_cons. by right. }
  destruct (tick_event t) as [e|x].
  2: { apply (timer_inv_quiet s); try done; [|apply same_types_refl].
       cbn. intros j Hj. rewrite Hp. apply elem_of_cons. right. apply elem_of_app. by right. }
  destruct (pass e); cbn [fst].
  2: { apply (timer_inv_tick s _ i rest t); try done; [|apply same_types_refl].
       cbn. intros j Hj. rewrite Hp. apply elem_of_cons. right. apply elem_of_app. by right. }
  destruct (type t) eqn:Ety.
  - apply (timer_inv_tick s _ i rest t); try done; [|apply same_types_erase_at].
    cbn. intros j Hj. rewrite Hp. apply elem_of_cons. by right.
  - assert (forall k, rest ++ scheduled (schedule (mx_nexts s) k i) ≡ₚ i :: rest ++ scheduled (mx_nexts s)) as Hq.
    { intros k. rewrite scheduled_schedule. solve_Permutation. }
    apply (timer_inv_tick s _ i rest t); try done.
    + by apply schedule_sorted.
    + unfold pending. cbn [batch mx_nexts]. rewrite Hq. by constructor.
    + unfold pending at 1. cbn [batch mx_nexts]. intros j. by rewrite Hq, Hp.
    + congruence.
    + apply same_types_refl.
Qed.

Lemma timer_inv_step s s' : tstep s s' -> timer_inv s -> timer_inv s'.
Proof.
  intros Hs H. destruct Hs as [s e|s Hb _|pass s Hb|s n _|s].
  - by apply timer_inv_event.
  - by apply timer_inv_pop.
  - by apply timer_inv_fire.
  - apply (timer_inv_quiet s); try done; [apply H|apply H|apply same_types_refl].
  - apply (timer_inv_quiet s); try done; [| |apply same_types_refl].
    + pose proof (ti_nodup _ H) as Hn. unfold pending in *. cbn. rewrite app_nil_r.
      by apply NoDup_app in Hn as (? & _ & _).
    + unfold pending. cbn. intros i. rewrite app_nil_r, elem_of_app. by left.
Qed.

Lemma timer_inv_new t0 : timer_inv (timer_new t0).
Proof.
  split; cbn; [done | by apply NoDup_nil | constructor | constructor | |];
    intros i t Hi; by rewrite lookup_nil in Hi.
Qed.

Lemma timer_inv_reachable t0 s : rtc tstep (timer_new t0) s -> timer_inv s.
Proof.
  intros H. pose proof (timer_inv_new t0) as H0. revert H0. induction H; eauto using timer_inv_step.
Qed.

(** ** Stopping *)

(** No pending task satisfies [p] and is still to tick. *)
Definition silent (p : task -> bool) (s : Timer) : Prop :=
  forall i t, i ∈ pending s -> heap s !! i = Some t -> p t = true -> erased t = true.

(** The task an event makes the service create. *)
Definition event_task (e : Event) : option task :=
  match ev_body e with
  | Etimer (timerEvent.SetTimer i d c secs) => Some (mkTask TYPE_TIMER i d c (ev_route e) secs false)
  | Etimer (timerEvent.SetAlarm i d c secs) => Some (mkTask TYPE_ALARM i d c (ev_route e) secs false)
  | Etimer (timerEvent.ResetAlarm i d c secs) => Some (mkTask TYPE_ALARM i d c (ev_route e) secs false)
  | _ => None
  end.

Definition creates (p : task -> bool) (e : Event) : bool :=
  match event_task e with Some t => p t | None => false end.

(** The steps of [tstep] in which no event creates a task of [p]. *)
Inductive tstep_without (p : task -> bool) : Timer -> Timer -> Prop :=
| TW_event s e : creates p e = false -> tstep_without p s (snd (timer_handleEvent s e))
| TW_pop s : batch s = [] -> terminating s = false -> tstep_without p s (worker_pop s)
| TW_fire pass s : batch s <> [] -> tstep_without p s (fst (worker_fire pass s))
| TW_clock s n : now s <= n ->
    tstep_without p s (mkTimer (heap s) (mx_nexts s) (batch s) n (terminating s) (fired s))
| TW_deinit s : tstep_without p s (timer_deinit s).

Definition heap_le (h h' : list task) : Prop :=
  forall i t, h !! i = Some t -> exists t', h' !! i = Some t' /\ same_task t t'.

Lemma heap_le_refl h : heap_le h h.
Proof. intros i t H. exists t. split; [done | apply same_task_refl]. Qed.

Lemma heap_le_trans a b c : heap_le a b -> heap_le b c -> heap_le a c.
Proof.
  intros H1 H2 i t Hi. destruct (H1 i t Hi) as (t1 & Hi1 & S1). destruct (H2 i t1 Hi1) as (t2 & Hi2 & S2).
  exists t2. split; [done|]. by eapply same_task_trans.
Qed.

Lemma heap_le_erase_all p l h : flagless p -> heap_le h (fold_left (erase_if p) l h).
Proof. intros Hp i t Hi. destruct (erase_all_lookup p l h i t Hp Hi) as (t' & ? & ? & _). eauto. Qed.

Lemma heap_le_app h t : heap_le h (h ++ [t]).
Proof. intros i u Hi. exists u. split; [by apply lookup_app_l_Some | apply same_task_refl]. Qed.

Lemma heap_le_erase_at h i : heap_le h (erase_at h i).
Proof.
  intros j t Hj. unfold erase_at. rewrite list_lookup_alter. destruct (decide (i = j)) as [->|].
  - rewrite Hj. eexists. split; [done | apply same_task_erased].
  - exists t. split; [done | apply same_task_refl].
Qed.

(** What a step leaves behind for [p]: [s] is still silent and whatever ticked
    was not of [p]. *)
Definition quiet_to (p : task -> bool) (s s' : Timer) : Prop :=
  silent p s' /\ heap_le (heap s) (heap s') /\ timer_inv s'
  /\ exists new, fired s' = fired s ++ new
     /\ Forall (fun x => exists t, heap s' !! fst x = Some t /\ p t = false) new.

Lemma quiet_to_still p s s' :
  flagless p -> silent p s -> timer_inv s' ->
  (forall i, i ∈ pending s' -> i ∈ pending s \/ exists t, heap s' !! i = Some t /\ p t = false) ->
  (forall i t', heap s' !! i = Some t' -> (exists t, heap s !! i = Some t /\ same_task t t') \/ p t' = false) ->
  heap_le (heap s) (heap s') -> fired s' = fired s -> quiet_to p s s'.
Proof.
  intros Hp Hs Hi' Hsub Hh Hle Hf. split; [|split; [done|split; [done|]]].
  - intros i t' Hi Hlk Hpt. destruct (Hh i t' Hlk) as [(t & Ht & Hst)|?]; [|congruence].
    destruct (Hsub i Hi) as [Hin|(u & Hu & Hpu)]; [|congruence].
    apply Hst. apply (Hs i t Hin Ht). by rewrite <- (Hp t t' Hst).
  - exists []. by rewrite app_nil_r.
Qed.

Lemma quiet_add p s ty i d c r secs :
  flagless p -> silent p s -> timer_inv s -> p (mkTask ty i d c r secs false) = false ->
  quiet_to p s (add_task s ty i d c r secs).
Proof.
  intros Hp Hs Hi Hnew. apply quiet_to_still; try done; [by apply timer_inv_add|..].
  - intros j Hj. unfold pending, add_task in *. cbn [batch mx_nexts heap] in *.
    rewrite scheduled_schedule in Hj.
    assert (j = length (heap s) \/ j ∈ batch s ++ scheduled (mx_nexts s)) as [->|Hj']
      by (rewrite elem_of_app, elem_of_cons in Hj; rewrite elem_of_app; tauto).
    + right. eexists. split; [|exact Hnew]. by rewrite lookup_app_r, Nat.sub_diag by lia.
    + by left.
  - intros j t' Hj. unfold add_task in Hj. cbn [heap] in Hj. apply lookup_app_Some in Hj as [Hj|[_ Hj]].
    + left. exists t'. split; [done | apply same_task_refl].
    + right. destruct (j - length (heap s))%nat; cbn in Hj; by simplify_eq.
  - apply heap_le_app.
Qed.

Lemma quiet_erase p q s :
  flagless p -> flagless q -> silent p s -> timer_inv s -> quiet_to p s (erase_matching q s).
Proof.
  intros Hp Hq Hs Hi. apply quiet_to_still; try done.
  - by apply timer_inv_erase.
  - intros i. by left.
  - intros i t' Hi'. left. destruct (erase_all_lookup_inv q _ _ i t' Hq Hi') as (t & ? & ? & _). eauto.
  - by apply heap_le_erase_all.
Qed.

Lemma quiet_to_trans p a b c : flagless p -> quiet_to p a b -> quiet_to p b c -> quiet_to p a c.
Proof.
  intros Hp (_ & Hab & _ & n1 & F1 & A1) (Hc & Hbc & Ic & n2 & F2 & A2). split; [done|].
  split; [by eapply heap_le_trans|]. split; [done|]. exists (n1 ++ n2). rewrite F2, F1, app_assoc.
  split; [done|]. apply Forall_app. split; [|done]. eapply Forall_impl; [exact A1|].
  intros x (t & Ht & Hpt). destruct (Hbc _ _ Ht) as (t' & Ht' & Hs). exists t'. split; [done|].
  by rewrite (Hp _ _ Hs).
Qed.

Lemma quiet_refl p s : flagless p -> silent p s -> timer_inv s -> quiet_to p s s.
Proof.
  intros. apply quiet_to_still; try done; [by left| |apply heap_le_refl].
  intros i t' Hi. left. exists t'. split; [done | apply same_task_refl].
Qed.

Lemma quiet_event p s e :
  flagless p -> creates p e = false -> silent p s -> timer_inv s ->
  quiet_to p s (snd (timer_handleEvent s e)).
Proof.
  intros Hp Hc Hs Hi. pose proof (quiet_refl p s Hp Hs Hi) as Hr.
  unfold timer_handleEvent, creates, event_task in *.
  destruct (ev_body e) as [[]| | | | |x| | | | | | | |]; try done.
  destruct x; try done;
    unfold on_StopTimer, on_StopAlarm, on_SetTimer, on_SetAlarm, on_ResetAlarm;
    destruct (terminating s); cbn [snd]; try done;
    auto using quiet_add, quiet_erase, matches_flagless.
  eapply quiet_to_trans; [done | by apply quiet_erase; [..|apply matches_flagless| |]|].
  assert (quiet_to p s (erase_matching (matches TYPE_ALARM tid0 data0 (ev_route e)) s)) as (Hs1 & _ & Hi1 & _)
    by (apply quiet_erase; auto using matches_flagless).
  by apply quiet_add.
Qed.

Lemma quiet_pop p s :
  flagless p -> batch s = [] -> silent p s -> timer_inv s -> quiet_to p s (worker_pop s).
Proof.
  intros Hp Hb Hs Hi. pose proof (timer_inv_pop s Hb Hi) as Hi'. unfold worker_pop in *.
  destruct (mx_nexts s) as [|[k l] m] eqn:E; [by apply quiet_refl|].
  destruct (now s <? k); [by apply quiet_refl|]. rewrite erase_first in *.
  apply quiet_to_still; try done; [| |apply heap_le_refl].
  - intros i Hin. left. unfold pending in *. cbn [batch mx_nexts] in Hin. by rewrite Hb, E.
  - intros i t' Hit. left. exists t'. split; [done | apply same_task_refl].
Qed.

Lemma quiet_tick p s s' i t :
  flagless p -> silent p s -> timer_inv s' -> heap s !! i = Some t -> p t = false ->
  (forall j, j ∈ pending s' -> j ∈ pending s) ->
  (forall j t', heap s' !! j = Some t' -> exists t, heap s !! j = Some t /\ same_task t t') ->
  heap_le (heap s) (heap s') -> fired s' = fired s ++ [(i, now s)] -> quiet_to p s s'.
Proof.
  intros Hp Hs Hi' Hit Hpt Hsub Hh Hle Hf. split; [|split; [done|split; [done|]]].
  - intros j t' Hj Hlk Hpt'. destruct (Hh j t' Hlk) as (u & Hu & Hst).
    apply Hst. apply (Hs j u (Hsub j Hj) Hu). by rewrite <- (Hp u t' Hst).
  - exists [(i, now s)]. split; [done|]. repeat constructor. cbn [fst].
    destruct (Hle i t Hit) as (t' & Ht' & Hst). exists t'. split; [done|]. by rewrite (Hp t t' Hst).
Qed.

Lemma erase_at_inv h i j t' :
  erase_at h i !! j = Some t' -> exists t, h !! j = Some t /\ same_task t t'.
Proof.
  unfold erase_at. rewrite list_lookup_alter. destruct (decide (i = j)) as [->|].
  - destruct (h !! j) as [t|]; [|done]. cbn. intros [= <-]. exists t. split; [done | apply same_task_erased].
  - intros Hj. exists t'. split; [done | apply same_task_refl].
Qed.

Lemma quiet_fire p pass s :
  flagless p -> batch s <> [] -> silent p s -> timer_inv s -> quiet_to p s (fst (worker_fire pass s)).
Proof.
  intros Hp Hb Hs Hi. pose proof (timer_inv_fire pass s Hb Hi) as Hi'. unfold worker_fire in *.
  destruct (batch s) as [|i rest] eqn:E; [done|].
  assert (i ∈ pending s) as Hip by (unfold pending; rewrite E; apply elem_of_cons; by left).
  assert (forall l j, l = rest \/ l = [] -> j ∈ l ++ scheduled (mx_nexts s) -> j ∈ pending s) as Hsub.
  { intros l j Hl Hj. unfold pending. rewrite E. cbn [app]. apply elem_of_cons. right.
    destruct Hl as [->| ->]; [done|]. apply elem_of_app. by right. }
  assert (forall j t', heap s !! j = Some t' ->
          (exists t, heap s !! j = Some t /\ same_task t t') \/ p t' = false) as Hh.
  { intros j t' Hj. left. exists t'. split; [done | apply same_task_refl]. }
  destruct (terminating s).
  { apply quiet_to_still; try done; [|apply heap_le_refl]. intros j Hj. left. by apply (Hsub [] j); [right|]. }
  destruct (heap s !! i) as [t|] eqn:Et; [|by apply quiet_refl].
  destruct (erased t) eqn:Ee.
  { apply quiet_to_still; try done; [|apply heap_le_refl]. intros j Hj. left. by apply (Hsub rest j); [left|]. }
  assert (p t = false) as Hpt.
  { destruct (p t) eqn:Hpt; [|done]. rewrite (Hs i t Hip Et Hpt) in Ee. done. }
  destruct (tick_event t) as [e|x].
  2: { apply quiet_to_still; try done; [|apply heap_le_refl]. intros j Hj. left. by apply (Hsub [] j); [right|]. }
  assert (forall j t', heap s !! j = Some t' -> exists u, heap s !! j = Some u /\ same_task u t') as Hh2.
  { intros j t' Hj. exists t'. split; [done | apply same_task_refl]. }
  destruct (pass e); cbn [fst] in *.
  2: { apply (quiet_tick p s _ i t); try done; [|apply heap_le_refl]. intros j Hj. by apply (Hsub [] j); [right|]. }
  destruct (type t).
  - apply (quiet_tick p s _ i t); try done; [|apply erase_at_inv|apply heap_le_erase_at].
    intros j Hj. by apply (Hsub rest j); [left|].
  - apply (quiet_tick p s _ i t); try done; [|apply heap_le_refl].
    intros j. unfold pending at 1. cbn [batch mx_nexts]. rewrite scheduled_schedule.
    rewrite elem_of_app, elem_of_cons. intros [Hj|[->|Hj]]; [|done|]; apply (Hsub rest j); [by left| |by left|];
      apply elem_of_app; [by left | by right].
Qed.

Lemma quiet_step p s s' :
  flagless p -> tstep_without p s s' -> silent p s -> timer_inv s -> quiet_to p s s'.
Proof.
  intros Hp Hst Hs Hi. destruct Hst as [s e Hc|s Hb _|pass s Hb|s n Hn|s].
  - by apply quiet_event.
  - by apply quiet_pop.
  - by apply quiet_fire.
  - apply quiet_to_still; try done; [| by left| |apply heap_le_refl].
    + by apply (timer_inv_step s); [constructor|].
    + intros i t' Hit. left. exists t'. split; [done | apply same_task_refl].
  - apply quiet_to_still; try done; [| | |apply heap_le_refl].
    + apply (timer_inv_step s); [constructor|done].
    + intros i Hin. left. unfold pending in *. cbn in Hin. rewrite app_nil_r in Hin. apply elem_of_app. by left.
    + intros i t' Hit. left. exists t'. split; [done | apply same_task_refl].
Qed.

Lemma quiet_run p s s' :
  flagless p -> rtc (tstep_without p) s s' -> silent p s -> timer_inv s -> quiet_to p s s'.
Proof.
  intros Hp H. induction H as [s|s1 s2 s3 Hst _ IH]; intros Hs Hi; [by apply quiet_refl|].
  pose proof (quiet_step p s1 s2 Hp Hst Hs Hi) as H12.
  eapply quiet_to_trans; [done | exact H12 |]. apply IH; apply H12.
Qed.

(** What [on_StopTimer] and [on_StopAlarm] establish, provided the worker is
    not just delivering a task of that name. *)
Lemma silent_after_stop p s :
  flagless p -> (forall i t, i ∈ batch s -> heap s !! i = Some t -> p t = true -> erased t = true) ->
  silent p (erase_matching p s).
Proof.
  intros Hp Hb i t' Hin Hi Hpt. cbn [heap erase_matching] in Hi.
  destruct (erase_all_lookup_inv p _ _ i t' Hp Hi) as (t & Ht & Hs & He).
  rewrite (Hp t t' Hs) in Hpt. unfold pending in Hin. cbn [batch mx_nexts erase_matching] in Hin.
  apply elem_of_app in Hin as [Hin|Hin]; [|by apply He]. apply Hs. by apply (Hb i t).
Qed.

(** ** Properties *)

Open Scope Z_scope.

(** C4: In every interleaving of the handlers, the worker, the clock and
    [deinit], an alarm ticks at most once, and once it has ticked it is not
    pending any more. *)
Theorem alarm_ticks_at_most_once t0 s i t :
  rtc tstep (timer_new t0) s -> heap s !! i = Some t -> type t = TYPE_ALARM ->
  (length (filter (fun x => x = i) (fst <$> fired s)) <= 1)%nat
  /\ (i ∈ (fst <$> fired s) -> i ∉ pending s).
Proof.
  intros Hr Hi Ht. pose proof (timer_inv_reachable t0 s Hr) as Hs.
  split; [by apply (ti_once s Hs i t) | by apply (ti_alarm s Hs i t)].
Qed.

(** An alarm that is due at once, for the examples. *)
Definition alarm0 : Event :=
  mkEvent (Etimer (timerEvent.SetAlarm 7 [] 0 0%Q)) [LOCALSERVICE 1; LOCALSERVICE 2].
Definition stop0 : Event :=
  mkEvent (Etimer (timerEvent.StopAlarm 7 [])) [LOCALSERVICE 1; LOCALSERVICE 2].
Definition set_alarm0 : Timer := snd (timer_handleEvent (timer_new 0) alarm0).
Definition popped_alarm0 : Timer := worker_pop set_alarm0.
Definition fired_alarm0 : Timer := fst (worker_fire (fun _ => true) popped_alarm0).

Lemma popped_alarm0_reachable : rtc tstep (timer_new 0) popped_alarm0.
Proof.
  eapply rtc_l; [apply (T_event _ alarm0)|]. eapply rtc_l; [by apply T_pop|]. apply rtc_refl.
Qed.

Lemma alarm_ticks_at_most_once_witness :
  (length (filter (fun x => x = 0%nat) (fst <$> fired fired_alarm0)) <= 1)%nat
  /\ (0%nat ∈ (fst <$> fired fired_alarm0) -> 0%nat ∉ pending fired_alarm0).
Proof.
  apply (alarm_ticks_at_most_once 0 fired_alarm0 0 (set_erased (mkTask TYPE_ALARM 7 [] 0 [LOCALSERVICE 1; LOCALSERVICE 2] 0%Q false)));
    [|reflexivity..].
  eapply rtc_r; [apply popped_alarm0_reachable|]. by apply T_fire.
Defined.

(** C23: When [StopTimer] or [StopAlarm] is handled while the worker is not
    delivering a batch, no task with that type, number, data and route ticks
    from then on, as long as none is set anew. *)
Theorem stopped_task_is_silent t0 s s' (ty : TYP) tid d r :
  rtc tstep (timer_new t0) s -> batch s = [] -> terminating s = false ->
  let stop := match ty with
              | TYPE_TIMER => timerEvent.StopTimer tid d
              | TYPE_ALARM => timerEvent.StopAlarm tid d
              end in
  rtc (tstep_without (matches ty tid d r)) (snd (timer_handleEvent s (mkEvent (Etimer stop) r))) s' ->
  exists new, fired s' = fired s ++ new
    /\ Forall (fun x => exists t, heap s' !! fst x = Some t /\ matches ty tid d r t = false) new.
Proof.
  intros Hr Hb Ht stop H. pose proof (timer_inv_reachable t0 s Hr) as Hi.
  assert (snd (timer_handleEvent s (mkEvent (Etimer stop) r)) = erase_matching (matches ty tid d r) s) as E.
  { subst stop. destruct ty; cbn [timer_handleEvent ev_body ev_route]; unfold on_StopTimer, on_StopAlarm; by rewrite Ht. }
  rewrite E in H. pose proof (matches_flagless ty tid d r) as Hp.
  assert (silent (matches ty tid d r) (erase_matching (matches ty tid d r) s)) as Hsil.
  { apply silent_after_stop; [done|]. rewrite Hb. by intros i t Hin%not_elem_of_nil. }
  destruct (quiet_run _ _ _ Hp H Hsil (timer_inv_erase _ _ Hp Hi)) as (_ & _ & _ & new & Hn & Hf).
  exists new. split; [exact Hn | exact Hf].
Qed.

Lemma stopped_task_is_silent_witness :
  exists new, fired (snd (timer_handleEvent set_alarm0 stop0)) = fired set_alarm0 ++ new
    /\ Forall (fun x => exists t, heap (snd (timer_handleEvent set_alarm0 stop0)) !! fst x = Some t
                 /\ matches TYPE_ALARM 7 [] [LOCALSERVICE 1; LOCALSERVICE 2] t = false) new.
Proof.
  apply (stopped_task_is_silent 0 set_alarm0 (snd (timer_handleEvent set_alarm0 stop0)) TYPE_ALARM 7 []
           [LOCALSERVICE 1; LOCALSERVICE 2]); [|reflexivity..|apply rtc_refl].
  eapply rtc_l; [apply (T_event _ alarm0)|]. apply rtc_refl.
Defined.

(** [StopAlarm] looks only at the tasks in [mx_nexts], so it misses one the
    worker has already taken: there is a run in which the handler of [StopAlarm]
    returns true and the alarm it names ticks afterwards. *)
Lemma stop_misses_taken_alarm :
  exists s s', rtc tstep (timer_new 0) s /\ fst (timer_handleEvent s stop0) = true /\ fired s = []
    /\ tstep (snd (timer_handleEvent s stop0)) s' /\ fired s' = [(0%nat, 0)]
    /\ exists t, heap s' !! 0%nat = Some t /\ matches TYPE_ALARM 7 [] (ev_route stop0) t = true.
Proof.
  exists popped_alarm0, (fst (worker_fire (fun _ => true) (snd (timer_handleEvent popped_alarm0 stop0)))).
  split; [apply popped_alarm0_reachable|]. split; [done|]. split; [done|].
  split; [by apply T_fire|]. split; [done|]. eexists. by split; vm_compute.
Qed.

(** The worker takes a batch exactly when some deadline has passed, and then
    the one with the earliest deadline, leaving the others scheduled. *)
Lemma worker_takes_earliest_due s :
  map_sorted Z.ltb (mx_nexts s) ->
  ((forall k l, (k, l) ∈ mx_nexts s -> now s < k) -> worker_pop s = s)
  /\ ((exists k l, (k, l) ∈ mx_nexts s /\ k <= now s) ->
      exists k l m, mx_nexts s = (k, l) :: m /\ k <= now s /\ batch (worker_pop s) = l
        /\ mx_nexts (worker_pop s) = m /\ Forall (fun e => k < fst e) m).
Proof.
  unfold worker_pop. intros Hs. destruct (mx_nexts s) as [|[k l] m] eqn:E.
  - split; [done|]. by intros (k & l & H%not_elem_of_nil & _).
  - destruct Hs as [Hk Hs]. split.
    + intros H. specialize (H k l (list_elem_of_here _ _)). by rewrite (proj2 (Z.ltb_lt _ _) H).
    + intros (k' & l' & Hin & Hle).
      assert (Forall (fun e => k < fst e) m) as Hk' by (eapply Forall_impl; [exact Hk|]; intros e; apply Z.ltb_lt).
      assert (k <= k') as Hkk.
      { apply elem_of_cons in Hin as [[= -> ->]|Hin]; [lia|]. rewrite Forall_forall in Hk'.
        specialize (Hk' _ Hin). cbn in Hk'. lia. }
      exists k, l, m. rewrite (proj2 (Z.ltb_ge _ _)) by lia. cbn [batch mx_nexts]. rewrite erase_first.
      split; [done|]. split; [lia|]. done.
Qed.

Lemma worker_takes_earliest_due_witness :
  ((forall k l, (k, l) ∈ mx_nexts set_alarm0 -> now set_alarm0 < k) -> worker_pop set_alarm0 = set_alarm0)
  /\ ((exists k l, (k, l) ∈ mx_nexts set_alarm0 /\ k <= now set_alarm0) ->
      exists k l m, mx_nexts set_alarm0 = (k, l) :: m /\ k <= now set_alarm0 /\ batch (worker_pop set_alarm0) = l
        /\ mx_nexts (worker_pop set_alarm0) = m /\ Forall (fun e => k < fst e) m).
Proof. apply (worker_takes_earliest_due set_alarm0). vm_compute. repeat constructor. Defined.
