(* ===== verification/Rpc.v ===== *)
(** The RPC service: modules/rpc/rpcService.cpp and rpcService.h.

    It carries events between nodes: an event sent to an address is packed with
    the destination service ('s'), an event on its way back along its route is
    packed alone ('p').  The receiver of an 's' packet appends to the event's
    route the socket it came by and the destination, so that [passEvent] finds
    its way back.

    Sessions are objects shared by reference: they live in [sess], and the two
    maps hold indices into it.  The attributes of a socket that the service
    reads ([id_], [request_for_connect_]) are arguments; so is the number
    [getNewSocketId] returns. *)

From Stdlib Require Import ZArith QArith Lia.
From stdpp Require Import base list strings numbers.
From S2P Require Import Prelude StdMap IoBuffer Codec Route CLib Sockaddr Events EventCodec Service.
Open Scope Z_scope.

Record Session : Type := mkSession {
  socketId : SOCKET_id;
  s_esi : ptr;
  outCache : list (list Z);
}.

Record Rpc : Type := mkRpc {
  sess : list Session;
  sa2sess : list (msockaddr_in * nat);
  sock2sess : list (SOCKET_id * nat);
  passCache : list (SOCKET_id * list (list Z));
  subscribers : list route_t;
  bindAddr_mainSH : list msockaddr_in;
  myOscarListener : ptr;
  this : ptr;                       (* dynamic_cast<ListenerBase*>(this) *)
  secure : SECURE;
  reg : registry;                   (* the event constructors unpackEvent uses *)
}.

Definition rpc_new (self : ptr) (r : registry) : Rpc :=
  mkRpc [] [] [] [] [] [] 0 self (mkSECURE false [] []) r.

Definition set_sess (f : list Session -> list Session) (s : Rpc) : Rpc :=
  mkRpc (f (sess s)) (sa2sess s) (sock2sess s) (passCache s) (subscribers s) (bindAddr_mainSH s)
        (myOscarListener s) (this s) (secure s) (reg s).
Definition set_sa2sess (f : list (msockaddr_in * nat) -> list (msockaddr_in * nat)) (s : Rpc) : Rpc :=
  mkRpc (sess s) (f (sa2sess s)) (sock2sess s) (passCache s) (subscribers s) (bindAddr_mainSH s)
        (myOscarListener s) (this s) (secure s) (reg s).
Definition set_sock2sess (f : list (SOCKET_id * nat) -> list (SOCKET_id * nat)) (s : Rpc) : Rpc :=
  mkRpc (sess s) (sa2sess s) (f (sock2sess s)) (passCache s) (subscribers s) (bindAddr_mainSH s)
        (myOscarListener s) (this s) (secure s) (reg s).
Definition set_passCache (f : list (SOCKET_id * list (list Z)) -> list (SOCKET_id * list (list Z))) (s : Rpc) : Rpc :=
  mkRpc (sess s) (sa2sess s) (sock2sess s) (f (passCache s)) (subscribers s) (bindAddr_mainSH s)
        (myOscarListener s) (this s) (secure s) (reg s).
Definition set_subscribers (f : list route_t -> list route_t) (s : Rpc) : Rpc :=
  mkRpc (sess s) (sa2sess s) (sock2sess s) (passCache s) (f (subscribers s)) (bindAddr_mainSH s)
        (myOscarListener s) (this s) (secure s) (reg s).
Definition set_bindAddr (f : list msockaddr_in -> list msockaddr_in) (s : Rpc) : Rpc :=
  mkRpc (sess s) (sa2sess s) (sock2sess s) (passCache s) (subscribers s) (f (bindAddr_mainSH s))
        (myOscarListener s) (this s) (secure s) (reg s).
Definition set_oscar (l : ptr) (s : Rpc) : Rpc :=
  mkRpc (sess s) (sa2sess s) (sock2sess s) (passCache s) (subscribers s) (bindAddr_mainSH s)
        l (this s) (secure s) (reg s).
Definition set_reg (r : registry) (s : Rpc) : Rpc :=
  mkRpc (sess s) (sa2sess s) (sock2sess s) (passCache s) (subscribers s) (bindAddr_mainSH s)
        (myOscarListener s) (this s) (secure s) r.

Definition session_set_esi (e : ptr) (x : Session) : Session := mkSession (socketId x) e (outCache x).
Definition session_set_cache (c : list (list Z)) (x : Session) : Session := mkSession (socketId x) (s_esi x) c.

(** [S->...] on a valid reference. *)
Definition deref (i : nat) : M Rpc Session :=
  o ← gets (fun s => sess s !! i);
  match o with Some x => mret x | None => throw (UB "null Session") end.

Definition oscar_send (i : nat) (p : list Z) : M Rpc unit :=
  x ← deref i; l ← gets myOscarListener; me ← gets this;
  emit (A_sendListener l (mkEvent (Eoscar (oscarEvent.SendPacket (s_esi x) (Some p))) (route_of_listener me))).

Section Rpc.
Context (ntop : list Z -> list Z) (pton : list Z -> option (list Z)).
Context (registerPluginDLL : list Z -> registry -> registry).
(** The socket's identifier and the address it was to be connected to. *)
Context (esi_id : ptr -> SOCKET_id) (request_for_connect : ptr -> option msockaddr_in).

Definition flushOutCache (i : nat) : M Rpc unit :=
  x ← deref i;
  let d := outCache x in
  _ ← modify (set_sess (alter (session_set_cache []) i));
  foreach (fun p =>
    y ← deref i;
    if negb (is_valid (s_esi y)) then throw (CommonError "if(!S->esi.valid())")
    else oscar_send i p) d.

(** [addSendPacket]: with a null [S] the branch that caches dereferences it. *)
Definition addSendPacket (S : option nat) (P : list Z) : M Rpc unit :=
  match S with
  | None => throw (UB "S->outCache_ on a null reference")
  | Some i =>
      x ← deref i;
      if negb (is_valid (s_esi x))
      then modify (set_sess (alter (fun y => session_set_cache (outCache y ++ [P]) y) i))
      else
        _ ← flushOutCache i;
        y ← deref i;
        if negb (is_valid (s_esi y)) then throw (CommonError "if(!S->esi.valid())")
        else oscar_send i P
  end.

(** [new Session(sockId, esi)]. *)
Definition new_session (sid : SOCKET_id) (esi : ptr) : M Rpc nat :=
  i ← gets (fun s => length (sess s));
  _ ← modify (set_sess (fun l => l ++ [mkSession sid esi []]));
  mret i.

Definition unpack_event (b : inBuffer) : M Rpc (option Event * inBuffer) :=
  r ← gets reg;
  '(e, b', r') ← lift (unpackEvent ntop pton registerPluginDLL r b);
  _ ← modify (set_reg r');
  mret (e, b').

(** One event per subscriber, built first and passed afterwards. *)
Definition notify (mk : route_t -> Event) : M Rpc unit :=
  subs ← gets subscribers;
  foreach passEvent_ (mk <$> subs).

Definition on_Connected (esi : ptr) : M Rpc bool :=
  match request_for_connect esi with
  | None => throw (CommonError "if(!E->esi->request_for_connect.has_value())")
  | Some a =>
      it ← gets (fun s => map_find msa_lt a (sa2sess s));
      match it with
      | None => throw (CommonError "2cannot find RPC session on connected")
      | Some i =>
          _ ← notify (fun r => mkEvent (Erpc (rpcEvent.Connected esi msa_default)) r);
          _ ← modify (set_sess (alter (session_set_esi esi) i));
          _ ← flushOutCache i;
          mret true
      end
  end.

Definition DIR_PASS : Z := 112.   (* 'p' *)
Definition DIR_SEND : Z := 115.   (* 's' *)

Definition on_PacketOnAcceptor (esi : ptr) (buf : option (list Z)) : M Rpc bool :=
  try_catch
    (match buf with
     | None => throw (UB "inBuffer over a null reference")
     | Some p =>
         '(direction, b) ← lift (in_int I32 (inBuffer_new p));
         if direction =? DIR_PASS then
           '(e, b) ← unpack_event b;
           match e with
           | None => mret true
           | Some e =>
               '(r, rt) ← lift (pop_back (ev_route e));
               match r with
               | LOCALSERVICE id =>
                   _ ← emit (A_send id (mkEvent (Erpc (rpcEvent.IncomingOnAcceptor esi (with_route e rt))) []));
                   mret true
               | _ => throw (CommonError "!(r->type==Route::LOCALSERVICE)")
               end
           end
         else if direction =? DIR_SEND then
           '(dst, b) ← lift (in_int I32 b);
           '(e, b) ← unpack_event b;
           match e with
           | None => mret true
           | Some e =>
               let rt := push_back (push_back (ev_route e) (REMOTEADDR (esi_id esi))) (LOCALSERVICE dst) in
               _ ← emit (A_send dst (mkEvent (Erpc (rpcEvent.IncomingOnAcceptor esi (with_route e rt))) []));
               mret true
           end
         else mret true
     end)
    (_ ← emit (A_close esi (lit "broken packet in RPC")); mret true).

Definition on_PacketOnConnector (esi : ptr) (buf : option (list Z)) : M Rpc bool :=
  try_catch
    (match buf with
     | None => throw (UB "inBuffer over a null reference")
     | Some p =>
         '(direction, b) ← lift (in_int I32 (inBuffer_new p));
         if direction =? DIR_PASS then
           '(e, b) ← unpack_event b;
           match e with
           | None => mret true
           | Some e =>
               '(r, rt) ← lift (pop_back (ev_route e));
               match r with
               | LOCALSERVICE id =>
                   match request_for_connect esi with
                   | None => throw (CommonError "if(!E->esi->request_for_connect_.has_value())")
                   | Some a =>
                       _ ← emit (A_send id (mkEvent (Erpc (rpcEvent.IncomingOnConnector esi a (with_route e rt))) []));
                       mret true
                   end
               | _ => throw (CommonError "!(r->type==Route::LOCALSERVICE)")
               end
           end
         else if direction =? DIR_SEND then
           '(dst, b) ← lift (in_int I32 b);
           '(e, b) ← unpack_event b;
           match e with
           | None => mret true
           | Some e =>
               let rt := push_back (push_back (ev_route e) (REMOTEADDR (esi_id esi))) (LOCALSERVICE dst) in
               match request_for_connect esi with
               | None => throw (CommonError "if(!E->esi->request_for_connect.valid())")
               | Some a =>
                   _ ← emit (A_send dst (mkEvent (Erpc (rpcEvent.IncomingOnConnector esi a (with_route e rt))) []));
                   mret true
               end
           end
         else throw (CommonError "invalid direction")
     end)
    (_ ← emit (A_close esi (lit "broken packet int RPC")); mret true).

Definition on_PassPacket (socketIdTo : SOCKET_id) (e : Event) : M Rpc bool :=
  o ← lift (packEvent ntop pton (out_int outBuffer_new DIR_PASS) e);
  S ← gets (fun s => map_find Z.ltb socketIdTo (sock2sess s));
  match S with
  | Some i => _ ← addSendPacket (Some i) (container o); mret true
  | None =>
      _ ← modify (set_passCache (map_update Z.ltb socketIdTo [] (fun d => d ++ [container o])));
      mret true
  end.

Definition on_SendPacket (newId : SOCKET_id) (addressTo : msockaddr_in) (destination : SERVICE_id) (ev : Event)
  : M Rpc bool :=
  S ← gets (fun s => map_find msa_lt addressTo (sa2sess s));
  i ← match S with
      | Some i => mret i
      | None =>
          i ← new_session newId 0;
          _ ← modify (set_sa2sess (map_insert msa_lt addressTo i));
          l ← gets myOscarListener; me ← gets this; sec ← gets secure;
          _ ← emit (A_sendListener l (mkEvent (Eoscar (oscarEvent.Connect newId addressTo (lit "RPC") sec))
                                              (route_of_listener me)));
          mret i
      end;
  o ← lift (packEvent ntop pton (out_int (out_int outBuffer_new DIR_SEND) destination) ev);
  _ ← addSendPacket (Some i) (container o);
  mret true.

Definition on_Accepted (esi : ptr) : M Rpc bool :=
  i ← new_session (esi_id esi) esi;
  _ ← modify (set_sock2sess (map_insert Z.ltb (esi_id esi) i));
  d ← gets (fun s => default [] (map_find Z.ltb (esi_id esi) (passCache s)));
  _ ← modify (set_passCache (map_erase Z.ltb (esi_id esi)));
  _ ← foreach (fun dd => addSendPacket (Some i) dd) d;
  _ ← notify (fun r => mkEvent (Erpc (rpcEvent.Accepted esi)) r);
  mret true.

(** [flushAll]: the sessions of both maps once each, in the order of their
    addresses, here of their creation. *)
Definition flushAll : M Rpc unit :=
  s ← gets (fun s => fold_left (fun acc i => set_insert Nat.ltb i acc)
                       ((snd <$> sock2sess s) ++ (snd <$> sa2sess s)) []);
  foreach (fun i => x ← deref i; if negb (is_valid (s_esi x)) then mret tt else flushOutCache i) s.

Definition on_NotifyBindAddress (addr : msockaddr_in) : M Rpc bool :=
  _ ← modify (set_bindAddr (fun l => set_insert msa_lt addr l));
  _ ← flushAll;
  mret true.

Definition rpc_DoListen (newid : SOCKET_id) (addr : msockaddr_in) (sec : SECURE) : M Rpc bool :=
  l ← gets myOscarListener; me ← gets this;
  _ ← emit (A_sendListener l (mkEvent (Eoscar (oscarEvent.AddToListenTCP newid addr (lit "RPC") sec))
                                      (route_of_listener me)));
  mret true.

Definition rpc_on_startService (getService : SERVICE_id -> ptr) : M Rpc bool :=
  _ ← modify (set_oscar (getService ServiceEnum.Oscar)); mret true.

Definition on_UnsubscribeNotifications (r : route_t) : M Rpc bool :=
  _ ← modify (set_subscribers (set_erase route_lt r)); mret true.

Definition on_SubscribeNotifications (r : route_t) : M Rpc bool :=
  r' ← lift (poppedFrontRoute r);
  _ ← modify (set_subscribers (set_insert route_lt r')); mret true.

Definition on_ConnectFailed (esi : ptr) (addr : msockaddr_in) : M Rpc bool :=
  match request_for_connect esi with
  | None => throw (CommonError "if(!e->esi->request_for_connect.valid())")
  | Some a =>
      _ ← modify (set_sa2sess (map_erase msa_lt a));
      _ ← notify (fun r => mkEvent (Erpc (rpcEvent.ConnectFailed addr)) r);
      mret true
  end.

(** The optional is tested only when there is a subscriber. *)
Definition on_Disconnected (esi : ptr) (reason : list Z) : M Rpc bool :=
  subs ← gets subscribers;
  match request_for_connect esi, subs with
  | None, _ :: _ => throw (CommonError "if(!e->esi->request_for_connect.valid())")
  | None, [] => throw (UB "dereference of an empty optional")
  | Some a, _ =>
      _ ← notify (fun r => mkEvent (Erpc (rpcEvent.Disconnected esi a reason)) r);
      _ ← modify (set_sa2sess (map_erase msa_lt a));
      mret true
  end.

Definition on_Disaccepted (esi : ptr) (reason : list Z) : M Rpc bool :=
  _ ← notify (fun r => mkEvent (Erpc (rpcEvent.Disaccepted esi reason)) r);
  _ ← modify (set_sock2sess (map_erase Z.ltb (esi_id esi)));
  mret true.

Definition rpc_handleEvent (getService : SERVICE_id -> ptr) (newId : SOCKET_id) (e : Event) : M Rpc bool :=
  match ev_body e with
  | Etimer (timerEvent.TickAlarm _ _ _) => mret true
  | Etimer (timerEvent.TickTimer _ _ _) => mret true
  | Eoscar (oscarEvent.PacketOnAcceptor esi buf) => on_PacketOnAcceptor esi buf
  | Eoscar (oscarEvent.PacketOnConnector esi buf) => on_PacketOnConnector esi buf
  | Eoscar (oscarEvent.Connected esi) => on_Connected esi
  | Eoscar (oscarEvent.Accepted esi) => on_Accepted esi
  | Eoscar (oscarEvent.NotifyBindAddress addr _ _) => on_NotifyBindAddress addr
  | Eoscar (oscarEvent.NotifyOutBufferEmpty _) => mret true
  | Eoscar (oscarEvent.ConnectFailed esi addr) => on_ConnectFailed esi addr
  | Esystem systemEvent.startService => rpc_on_startService getService
  | Erpc (rpcEvent.PassPacket sid ev) => on_PassPacket sid ev
  | Erpc (rpcEvent.SendPacket addr dst ev) => on_SendPacket newId addr dst ev
  | Erpc rpcEvent.SubscribeNotifications => on_SubscribeNotifications (ev_route e)
  | Erpc rpcEvent.UnsubscribeNotifications => on_UnsubscribeNotifications (ev_route e)
  | Erpc (rpcEvent.DoListen addr sec) => rpc_DoListen newId addr sec
  | Eoscar (oscarEvent.Disconnected esi reason) => on_Disconnected esi reason
  | Eoscar (oscarEvent.Disaccepted esi reason) => on_Disaccepted esi reason
  | _ => mret false
  end.
End Rpc.

(** ** The bytes of a packet *)

Section Packets.
Context (ntop : list Z -> list Z) (pton : list Z -> option (list Z)) `{!InetText ntop pton}.
Context (registerPluginDLL : list Z -> registry -> registry).
Context (esi_id : ptr -> SOCKET_id) (request_for_connect : ptr -> option msockaddr_in).

#[local] Abbreviation EV := (ev_enc ntop pton).
#[local] Abbreviation INT := (c_enc (int_codec I32)).

Definition packet_send (dst : SERVICE_id) (e : Event) : list Z := INT DIR_SEND ++ INT dst ++ EV e.
Definition packet_pass (e : Event) : list Z := INT DIR_PASS ++ EV e.

Lemma pack_send dst e :
  body_dom ntop pton (ev_body e) ->
  exists o, packEvent ntop pton (out_int (out_int outBuffer_new DIR_SEND) dst) e = Ok o
            /\ container o = packet_send dst e.
Proof.
  intros Hd. destruct (packEvent_app ntop pton (out_int (out_int outBuffer_new DIR_SEND) dst) e Hd) as (o & E & Ho).
  exists o. split; [done|]. rewrite Ho, !(c_put_app (c := int_codec I32)).
  unfold packet_send. cbn [container outBuffer_new]. by rewrite app_nil_l, <- !app_assoc.
Qed.

Lemma pack_pass e :
  body_dom ntop pton (ev_body e) ->
  exists o, packEvent ntop pton (out_int outBuffer_new DIR_PASS) e = Ok o
            /\ container o = packet_pass e.
Proof.
  intros Hd. destruct (packEvent_app ntop pton (out_int outBuffer_new DIR_PASS) e Hd) as (o & E & Ho).
  exists o. split; [done|]. rewrite Ho, (c_put_app (c := int_codec I32)).
  unfold packet_pass. cbn [container outBuffer_new]. by rewrite app_nil_l.
Qed.

(** The receiver knows the class of the event. *)
Definition knows (r : registry) (e : Event) : Prop :=
  m_isTerminating r = false
  /\ exists k, class_of (ev_body e) = Some k
               /\ map_find Z.ltb (ev_id e) (event_constructors r) = Some k.

Lemma set_reg_same s : set_reg (reg s) s = s.
Proof. by destruct s. Qed.

Lemma unpack_event_enc s e b tl :
  knows (reg s) e -> ev_portable ntop pton e -> rest b = EV e ++ tl ->
  unpack_event ntop pton registerPluginDLL b s = (Ok (Some e, advance b (length (EV e))), s, []).
Proof.
  intros (Ht & k & Hk & Hf) Hp Hr. unfold unpack_event. rewrite M_bind_eq. cbn [gets].
  rewrite M_bind_eq. unfold lift.
  rewrite (unpackEvent_enc ntop pton registerPluginDLL (reg s) e k b tl Ht Hp Hk Hf Hr).
  rewrite M_bind_eq. unfold modify. rewrite set_reg_same. reflexivity.
Qed.

Lemma read_int {B} (f : Z * inBuffer -> M Rpc B) s b v tl :
  in_range I32 v -> rest b = INT v ++ tl ->
  (lift (in_int I32 b) ≫= f) s = f (v, advance b (length (INT v))) s
  /\ rest (advance b (length (INT v))) = tl.
Proof.
  intros Hv Hr. rewrite M_bind_eq. unfold lift.
  change (in_int I32 b) with (c_get (int_codec I32) b).
  rewrite (c_get_put (c := int_codec I32) v b tl Hv Hr).
  rewrite rest_advance, Hr, drop_app_length. split; [|reflexivity].
  destruct (f _ s) as [[r s2] l2]. reflexivity.
Qed.

Lemma dirs_range : in_range I32 DIR_PASS /\ in_range I32 DIR_SEND.
Proof. by vm_compute. Qed.

Lemma bind_unpack_event {B} (f : option Event * inBuffer -> M Rpc B) s e b tl :
  knows (reg s) e -> ev_portable ntop pton e -> rest b = EV e ++ tl ->
  (unpack_event ntop pton registerPluginDLL b ≫= f) s = f (Some e, advance b (length (EV e))) s.
Proof.
  intros Hk Hp Hr. rewrite M_bind_eq, (unpack_event_enc s e b tl Hk Hp Hr).
  destruct (f _ s) as [[r s2] l2]. reflexivity.
Qed.

(** ** Receiving *)

Definition arrived (e : Event) (sid : SOCKET_id) (dst : SERVICE_id) : Event :=
  with_route e (push_back (push_back (ev_route e) (REMOTEADDR sid)) (LOCALSERVICE dst)).

Lemma accept_send s esi dst e :
  in_range I32 dst -> knows (reg s) e -> ev_portable ntop pton e ->
  on_PacketOnAcceptor ntop pton registerPluginDLL esi_id esi (Some (packet_send dst e)) s
  = (Ok true, s, [A_send dst (mkEvent (Erpc (rpcEvent.IncomingOnAcceptor esi (arrived e (esi_id esi) dst))) [])]).
Proof.
  intros Hd Hk Hp. unfold on_PacketOnAcceptor, try_catch, packet_send.
  match goal with |- context [(lift (in_int I32 ?b) ≫= ?f) s] =>
    destruct (read_int f s b DIR_SEND _ (proj2 dirs_range) eq_refl) as [-> Hr] end.
  cbv beta iota. change (DIR_SEND =? DIR_PASS) with false. change (DIR_SEND =? DIR_SEND) with true. cbv iota.
  match goal with |- context [(lift (in_int I32 ?b) ≫= ?f) s] =>
    destruct (read_int f s b dst _ Hd Hr) as [-> Hr2] end.
  cbv beta iota.
  match goal with |- context [(unpack_event _ _ _ ?b ≫= ?f) s] =>
    rewrite (bind_unpack_event f s e b [] Hk Hp (eq_trans Hr2 (eq_sym (app_nil_r _)))) end.
  reflexivity.
Qed.

Lemma connect_pass s esi a svc e e0 :
  request_for_connect esi = Some a -> knows (reg s) e -> ev_portable ntop pton e ->
  ev_route e = push_back e0 (LOCALSERVICE svc) ->
  on_PacketOnConnector ntop pton registerPluginDLL esi_id request_for_connect esi (Some (packet_pass e)) s
  = (Ok true, s, [A_send svc (mkEvent (Erpc (rpcEvent.IncomingOnConnector esi a (with_route e e0))) [])]).
Proof.
  intros Ha Hk Hp Hrt. unfold on_PacketOnConnector, try_catch, packet_pass.
  match goal with |- context [(lift (in_int I32 ?b) ≫= ?f) s] =>
    destruct (read_int f s b DIR_PASS _ (proj1 dirs_range) eq_refl) as [-> Hr] end.
  cbv beta iota. change (DIR_PASS =? DIR_PASS) with true. cbv iota.
  match goal with |- context [(unpack_event _ _ _ ?b ≫= ?f) s] =>
    rewrite (bind_unpack_event f s e b [] Hk Hp (eq_trans Hr (eq_sym (app_nil_r _)))) end.
  cbv beta iota. rewrite M_bind_eq. unfold lift. rewrite Hrt, pop_push, Ha. reflexivity.
Qed.
End Packets.

(** ** Sessions: nothing is lost or reordered *)

(** The packet handed to the Oscar service for a session. *)
Definition oscar_packet (s : Rpc) (esi : ptr) (p : list Z) : action :=
  A_sendListener (myOscarListener s)
    (mkEvent (Eoscar (oscarEvent.SendPacket esi (Some p))) (route_of_listener (this s))).

(** The packets among the calls of a handler. *)
Definition packet_of (a : action) : option (list Z) :=
  match a with
  | A_sendListener _ (mkEvent (Eoscar (oscarEvent.SendPacket _ (Some p))) _) => Some p
  | _ => None
  end.

Lemma packets_of_oscar s esi (d : list (list Z)) : omap packet_of (oscar_packet s esi <$> d) = d.
Proof. induction d as [|p d IH]; [done|]. cbn. by rewrite IH. Qed.

Definition set_session (i : nat) (x : Session) (s : Rpc) : Rpc := set_sess (alter (fun _ => x) i) s.

Lemma deref_ok i s x : sess s !! i = Some x -> deref i s = (Ok x, s, []).
Proof. intros H. unfold deref, gets. rewrite M_bind_eq, H. done. Qed.

Lemma oscar_send_ok i s x p :
  sess s !! i = Some x -> oscar_send i p s = (Ok tt, s, [oscar_packet s (s_esi x) p]).
Proof. intros H. unfold oscar_send. rewrite M_bind_eq, (deref_ok i s x H). reflexivity. Qed.

Lemma foreach_send_ok i s x d :
  sess s !! i = Some x -> is_valid (s_esi x) = true ->
  foreach (fun p => y ← deref i;
                    if negb (is_valid (s_esi y)) then throw (CommonError "if(!S->esi.valid())")
                    else oscar_send i p) d s
  = (Ok tt, s, oscar_packet s (s_esi x) <$> d).
Proof.
  intros Hi Hv. induction d as [|p d IH]; [done|]. cbn [foreach].
  rewrite M_bind_eq, M_bind_eq, (deref_ok i s x Hi), Hv. cbn [negb].
  rewrite (oscar_send_ok i s x p Hi). cbn [app]. by rewrite IH.
Qed.

Lemma alter_const_lookup (l : list Session) i f x :
  l !! i = Some x -> alter f i l !! i = Some (f x).
Proof. intros H. by rewrite list_lookup_alter, decide_True, H by done. Qed.

Lemma flushOutCache_ok i s x :
  sess s !! i = Some x -> is_valid (s_esi x) = true ->
  flushOutCache i s = (Ok tt, set_sess (alter (session_set_cache []) i) s,
                       oscar_packet s (s_esi x) <$> outCache x).
Proof.
  intros Hi Hv. unfold flushOutCache. rewrite M_bind_eq, (deref_ok i s x Hi). cbv zeta.
  rewrite M_bind_eq. unfold modify.
  assert (sess (set_sess (alter (session_set_cache []) i) s) !! i = Some (session_set_cache [] x)) as Hi'
    by (by apply alter_const_lookup).
  rewrite (foreach_send_ok i _ _ (outCache x) Hi' Hv). reflexivity.
Qed.

(** The state and the packets after [addSendPacket]. *)
Lemma addSendPacket_ok i s x P :
  sess s !! i = Some x ->
  exists s', addSendPacket (Some i) P s
             = (Ok tt, s', if is_valid (s_esi x) then oscar_packet s (s_esi x) <$> (outCache x ++ [P]) else [])
    /\ sess s' !! i = Some (session_set_cache (if is_valid (s_esi x) then [] else outCache x ++ [P]) x)
    /\ sa2sess s' = sa2sess s /\ subscribers s' = subscribers s.
Proof.
  intros Hi. unfold addSendPacket. rewrite M_bind_eq, (deref_ok i s x Hi).
  destruct (is_valid (s_esi x)) eqn:Hv; cbn [negb].
  - rewrite M_bind_eq, (flushOutCache_ok i s x Hi Hv).
    set (s1 := set_sess _ s).
    assert (sess s1 !! i = Some (session_set_cache [] x)) as Hi1 by (by apply alter_const_lookup).
    rewrite M_bind_eq, (deref_ok i s1 _ Hi1). cbn [s_esi session_set_cache]. rewrite Hv. cbn [negb].
    rewrite (oscar_send_ok i s1 _ P Hi1). exists s1. split; [|done].
    rewrite fmap_app. reflexivity.
  - eexists. split; [reflexivity|]. split; [|done].
    cbn [sess set_sess]. rewrite (alter_const_lookup _ _ _ x Hi). done.
Qed.

Lemma foreach_pass_ok {S} (s : S) (l : list Event) :
  Forall (fun e => ev_route e <> []) l -> foreach passEvent_ l s = (Ok tt, s, A_pass <$> l).
Proof.
  induction 1 as [|e l He _ IH]; [done|]. cbn [foreach].
  by rewrite M_bind_eq, passEvent_ok, IH.
Qed.

Definition subscribers_ok (s : Rpc) : Prop := Forall (fun r => r <> []) (subscribers s).

Lemma notify_ok s b :
  subscribers_ok s ->
  notify (fun r => mkEvent b r) s = (Ok tt, s, A_pass <$> ((fun r => mkEvent b r) <$> subscribers s)).
Proof.
  intros H. unfold notify. rewrite M_bind_eq. cbn [gets]. rewrite foreach_pass_ok; [done|].
  apply Forall_fmap. exact H.
Qed.

Lemma packets_of_pass (l : list Event) : omap packet_of (A_pass <$> l) = [].
Proof. induction l; done. Qed.

Section Fifo.
Context (ntop : list Z -> list Z) (pton : list Z -> option (list Z)) `{!InetText ntop pton}.
Context (request_for_connect : ptr -> option msockaddr_in).

(** What happens to the session of an address: events are sent there and the
    connection comes up, in any order. *)
Inductive session_op : Type :=
| Op_send (newId : SOCKET_id) (dst : SERVICE_id) (ev : Event)
| Op_connected (esi : ptr).

Definition run_op (a : msockaddr_in) (op : session_op) : M Rpc bool :=
  match op with
  | Op_send n dst ev => on_SendPacket ntop pton n a dst ev
  | Op_connected esi => on_Connected request_for_connect esi
  end.

Definition run_ops (a : msockaddr_in) (ops : list session_op) : M Rpc unit :=
  foreach (fun op => _ ← run_op a op; mret tt) ops.

Definition op_ok (a : msockaddr_in) (op : session_op) : Prop :=
  match op with
  | Op_send _ _ ev => body_dom ntop pton (ev_body ev)
  | Op_connected esi => is_valid esi = true /\ request_for_connect esi = Some a
  end.

Definition op_packets (op : session_op) : list (list Z) :=
  match op with
  | Op_send _ dst ev => [packet_send ntop pton dst ev]
  | Op_connected _ => []
  end.

(** The address has session [i], which caches [c]. *)
Definition has_session (a : msockaddr_in) (i : nat) (c : list (list Z)) (s : Rpc) : Prop :=
  map_find msa_lt a (sa2sess s) = Some i /\ subscribers_ok s
  /\ exists x, sess s !! i = Some x /\ outCache x = c.

Lemma run_op_fifo a i op s c :
  op_ok a op -> has_session a i c s ->
  exists s' acts c', run_op a op s = (Ok true, s', acts) /\ has_session a i c' s'
    /\ omap packet_of acts ++ c' = c ++ op_packets op.
Proof.
  intros Hop (Hm & Hsub & x & Hx & Hc). destruct op as [n dst ev|esi]; cbn [run_op op_packets] in *.
  - unfold on_SendPacket. rewrite M_bind_eq. cbn [gets]. rewrite Hm, M_bind_eq. cbn [mret M_ret].
    rewrite M_bind_eq. unfold lift.
    destruct (pack_send ntop pton dst ev Hop) as (o & -> & Ho). rewrite Ho, M_bind_eq.
    destruct (addSendPacket_ok i s x (packet_send ntop pton dst ev) Hx) as (s' & -> & Hi' & Hsa & Hsb).
    eexists s', _, _. split; [reflexivity|]. split.
    + split; [by rewrite Hsa|]. split; [unfold subscribers_ok; by rewrite Hsb|]. eexists. split; [exact Hi'|]. reflexivity.
    + cbn [app outCache session_set_cache]. rewrite !app_nil_r, Hc.
      destruct (is_valid (s_esi x)); [|done]. by rewrite packets_of_oscar, app_nil_r.
  - destruct Hop as [Hv Ha]. unfold on_Connected. rewrite Ha, M_bind_eq. cbn [gets]. rewrite Hm.
    rewrite M_bind_eq, notify_ok by done. rewrite M_bind_eq. unfold modify.
    set (s1 := set_sess _ s).
    assert (sess s1 !! i = Some (session_set_esi esi x)) as Hi1 by (by apply alter_const_lookup).
    rewrite M_bind_eq, (flushOutCache_ok i s1 _ Hi1 Hv).
    eexists _, _, []. split; [reflexivity|]. split.
    + split; [done|]. split; [done|]. eexists. split; [by apply alter_const_lookup|]. done.
    + rewrite !app_nil_r. cbn [app]. rewrite omap_app, packets_of_pass, packets_of_oscar. done.
Qed.

Lemma run_ops_fifo a i ops s c :
  Forall (op_ok a) ops -> has_session a i c s ->
  exists s' acts c', run_ops a ops s = (Ok tt, s', acts) /\ has_session a i c' s'
    /\ omap packet_of acts ++ c' = c ++ mjoin (op_packets <$> ops).
Proof.
  intros Hops; revert s c; induction Hops as [|op ops Hop _ IH]; intros s c Hs.
  - exists s, [], c. cbn. by rewrite app_nil_r.
  - destruct (run_op_fifo a i op s c Hop Hs) as (s1 & a1 & c1 & E1 & Hs1 & P1).
    destruct (IH s1 c1 Hs1) as (s2 & a2 & c2 & E2 & Hs2 & P2). unfold run_ops in *.
    cbn [foreach]. rewrite M_bind_eq, M_bind_eq, E1. cbn [mret M_ret]. rewrite E2.
    eexists s2, _, c2. split; [reflexivity|]. split; [done|].
    rewrite app_nil_r, omap_app, <- app_assoc, P2, app_assoc, P1, <- app_assoc.
    by rewrite join_cons.
Qed.
End Fifo.

(** ** Subscriptions *)

(** The handler of [UnsubscribeNotifications] removes another route than the
    handler of [SubscribeNotifications] inserted for the same request. *)
Lemma subscribe_unsubscribe s r x :
  set_sorted route_lt (subscribers s) ->
  (_ ← on_SubscribeNotifications (push_back r x); on_UnsubscribeNotifications (push_back r x)) s
  = (Ok true, set_subscribers (fun l => set_erase route_lt (push_back r x) (set_insert route_lt r l)) s, [])
  /\ set_count route_lt r (set_erase route_lt (push_back r x) (set_insert route_lt r (subscribers s))) = true.
Proof.
  intros Hs. split.
  - rewrite M_bind_eq. unfold on_SubscribeNotifications, poppedFrontRoute. rewrite M_bind_eq.
    unfold lift. rewrite pop_push. reflexivity.
  - assert (r <> push_back r x) as Hne.
    { unfold push_back. intros E. apply (f_equal length) in E. rewrite length_app in E. cbn in E. lia. }
    pose proof (set_insert_sorted route_lt r _ Hs) as Hs2.
    rewrite (set_count_erase_ne route_lt _ _ _ Hs2 Hne). by apply (set_count_insert_eq route_lt).
Qed.

(** ** Properties *)


Definition log_event : Event := mkEvent (Elogger (loggerEvent.LogMessage [1] [2; 3])) [LOCALSERVICE 5].

Definition client_waiting : Rpc :=
  mkRpc [mkSession 40 0 []] [(Sa4 1 1, 0%nat)] [] [] [] [] 70 71 (mkSECURE false [] [])
        (registerAll regEvents_logger (mkRegistry [] [] false)).

Lemma log_event_dom : body_dom hex_ntop hex_pton (ev_body log_event).
Proof. by vm_compute. Qed.


(** A subscriber that subscribes and then unsubscribes with the same request
    stays subscribed: [on_SubscribeNotifications] stores the route with its last
    hop taken off, [on_UnsubscribeNotifications] erases the whole route. *)
Lemma unsubscribe_keeps_subscriber s r x :
  set_sorted route_lt (subscribers s) ->
  exists s', (_ ← on_SubscribeNotifications (push_back r x); on_UnsubscribeNotifications (push_back r x)) s
             = (Ok true, s', [])
             /\ set_count route_lt r (subscribers s') = true.
Proof.
  intros Hs. destruct (subscribe_unsubscribe s r x Hs) as [E Hc]. eexists. split; [exact E | exact Hc].
Qed.

Lemma unsubscribe_keeps_subscriber_witness :
  exists s', (_ ← on_SubscribeNotifications (push_back [LOCALSERVICE 1] (LOCALSERVICE 2));
              on_UnsubscribeNotifications (push_back [LOCALSERVICE 1] (LOCALSERVICE 2))) client_waiting
             = (Ok true, s', [])
             /\ set_count route_lt [LOCALSERVICE 1] (subscribers s') = true.
Proof. apply (unsubscribe_keeps_subscriber client_waiting [LOCALSERVICE 1] (LOCALSERVICE 2)). exact I. Defined.

