(* ===== verification/Instance.v ===== *)
(** The instance (main/CInstance.cpp): the services it runs, created on demand,
    and the delivery of events to them.

    The objects are numbered by their addresses.  [delivered] records every
    [listenToEvent] call in program order; what a listener does with its queue
    is the matter of the Listener file.  The definitions are those of one
    caller; [Module Race] is the interleaving of several callers that need the
    same service. *)

From Stdlib Require Import ZArith Lia.
From stdpp Require Import base strings numbers list.
From S2P Require Import Prelude StdMap IoBuffer Codec Route CLib Sockaddr Events Service.
Open Scope Z_scope.

(** What a static [construct] does: it allocates an object, which is a
    [ListenerBase] or not, or throws. *)
Inductive constructor : Type :=
| constructs (listener : bool)
| construct_throws (e : exn).

(** [Utils_local]: the constructors registered and the plugin that declares
    each service. *)
Record Utils_local : Type := mkLocals {
  service_constructors : list (SERVICE_id * constructor);
  pluginInfo_services : list (SERVICE_id * list Z);
}.

Record CInstance : Type := mkInstance {
  services : list (SERVICE_id * ptr);
  m_terminating : bool;
  config_z : bool;                      (* a configuration has been set *)
  locals : Utils_local;
  next_object : ptr;                    (* the address [new] returns next *)
  listeners : list ptr;                 (* live objects that are ListenerBase *)
  delivered : list (ptr * Event);
}.

Definition set_services (f : list (SERVICE_id * ptr) -> list (SERVICE_id * ptr)) (s : CInstance) : CInstance :=
  mkInstance (f (services s)) (m_terminating s) (config_z s) (locals s) (next_object s) (listeners s) (delivered s).
Definition set_locals (l : Utils_local) (s : CInstance) : CInstance :=
  mkInstance (services s) (m_terminating s) (config_z s) l (next_object s) (listeners s) (delivered s).
Definition set_listeners (f : list ptr -> list ptr) (s : CInstance) : CInstance :=
  mkInstance (services s) (m_terminating s) (config_z s) (locals s) (next_object s) (f (listeners s)) (delivered s).
Definition add_object (listener : bool) (s : CInstance) : CInstance :=
  mkInstance (services s) (m_terminating s) (config_z s) (locals s) (next_object s + 1)
             (if listener then next_object s :: listeners s else listeners s) (delivered s).
Definition add_delivery (d : ptr * Event) (s : CInstance) : CInstance :=
  mkInstance (services s) (m_terminating s) (config_z s) (locals s) (next_object s) (listeners s) (delivered s ++ [d]).

Definition NULL : ptr := 0.

(** The constructor of [CInstance], [setConfig] once it is called. *)
Definition CInstance_new (l : Utils_local) (first : ptr) : CInstance :=
  mkInstance [] false false l first [] [].
Definition setConfig (s : CInstance) : CInstance :=
  mkInstance (services s) (m_terminating s) true (locals s) (next_object s) (listeners s) (delivered s).

(** [l->listenToEvent(e)]. *)
Definition listenToEvent (l : ptr) (e : Event) : M CInstance unit :=
  live ← gets (fun s => bool_decide (l ∈ listeners s));
  if live : bool then modify (add_delivery (l, e)) else throw (UB "call through a dangling ListenerBase*").

(** [dynamic_cast<ListenerBase *>(u)]. *)
Definition as_listener (u : ptr) : M CInstance ptr :=
  gets (fun s => if bool_decide (u ∈ listeners s) then u else NULL).

Definition startService : Event := mkEvent (Esystem systemEvent.startService) [].

Section Instance.
(** [dlopen] of a plugin, whose initialiser registers its services. *)
Context (registerPluginDLL : list Z -> Utils_local -> res Utils_local).

(** The constructor of a service, the plugin loaded when it is not there. *)
Definition find_service_constructor (sid : SERVICE_id) : M CInstance constructor :=
  l ← gets locals;
  match map_find Z.ltb sid (service_constructors l) with
  | Some c => mret c
  | None =>
      match map_find Z.ltb sid (pluginInfo_services l) with
      | None | Some [] => throw (CommonError "cannot find plugin for service")
      | Some pn =>
          l' ← lift (registerPluginDLL pn l);
          _ ← modify (set_locals l');
          match map_find Z.ltb sid (service_constructors l') with
          | None => throw (CommonError "cannot load service ServiceId")
          | Some c => mret c
          end
      end
  end.

(** [u = constr(sid, name, this)]. *)
Definition call_constructor (c : constructor) : M CInstance ptr :=
  match c with
  | construct_throws e => throw e
  | constructs b => u ← gets next_object; _ ← modify (add_object b); mret u
  end.

Definition initService (sid : SERVICE_id) : M CInstance ptr :=
  t ← gets m_terminating;
  if t : bool then mret NULL
  else
    i ← gets (fun s => map_find Z.ltb sid (services s));
    match i with
    | Some u => mret u
    | None =>
        constr ← find_service_constructor sid;
        t ← gets m_terminating;
        if t : bool then mret NULL
        else
          cfg ← gets config_z;
          if negb cfg then throw (CommonError "if(!config_z)")
          else
            u ← call_constructor constr;
            _ ← modify (set_services (map_insert Z.ltb sid u));
            t ← gets m_terminating;
            if t : bool then mret NULL
            else
              try_catch
                (if u =? NULL then throw (CommonError "if(!u)")
                 else
                   l ← as_listener u;
                   if l =? NULL then throw (CommonError "if(!l)")
                   else _ ← listenToEvent l startService; mret u)
                (mret NULL)
    end.

Definition getServiceNoCreate (svs : SERVICE_id) : M CInstance ptr :=
  gets (fun s => default NULL (map_find Z.ltb svs (services s))).

Definition getServiceOrCreate (svs : SERVICE_id) : M CInstance ptr :=
  t ← gets m_terminating;
  if t : bool then mret NULL
  else
    u ← getServiceNoCreate svs;
    u ← (if u =? NULL then initService svs else mret u);
    if u =? NULL then throw (CommonError "cannot find service") else mret u.

Definition forwardEvent (svs : SERVICE_id) (e : Event) : M CInstance unit :=
  t ← gets m_terminating;
  if t : bool then mret tt
  else
    try_catch
      (u ← getServiceNoCreate svs;
       u ← (if u =? NULL
            then u ← initService svs;
                 if u =? NULL then throw (CommonError "Service not registered") else mret u
            else mret u);
       l ← as_listener u;
       if l =? NULL then throw (CommonError "if(!l)") else listenToEvent l e)
      (mret tt).

(** [passEvent]: towards the consumer, by the last hop of the route. *)
Definition passEvent (e : Event) : M CInstance unit :=
  t ← gets m_terminating;
  if t : bool then mret tt
  else
    '(r, rt) ← lift (pop_back (ev_route e));
    let e' := with_route e rt in
    match r with
    | LOCALSERVICE id => forwardEvent id e'
    | LISTENER id => listenToEvent id e'
    | OBJECTHANDLER_POLLED _ => forwardEvent ServiceEnum.ObjectProxyPolled (with_route e' (push_back rt r))
    | OBJECTHANDLER_THREADED _ => forwardEvent ServiceEnum.ObjectProxyThreaded (with_route e' (push_back rt r))
    | REMOTEADDR addr => forwardEvent ServiceEnum.RPC (mkEvent (Erpc (rpcEvent.PassPacket addr e')) [])
    | SOCKETROUTE _ | THREAD _ => throw (CommonError "passEvent: invalid route type")
    end.

(** [sendEvent]: towards the server. *)
Definition sendEvent (svs : SERVICE_id) (e : Event) : M CInstance unit :=
  t ← gets m_terminating;
  if t : bool then mret tt
  else forwardEvent svs (with_route e (push_back (ev_route e) (LOCALSERVICE svs))).

Definition sendEvent_addr (addr : msockaddr_in) (svs : SERVICE_id) (e : Event) : M CInstance unit :=
  forwardEvent ServiceEnum.RPC (mkEvent (Erpc (rpcEvent.SendPacket addr svs e)) []).

Definition sendEvent_listener (l : ptr) (e : Event) : M CInstance unit :=
  listenToEvent l (with_route e (push_back (ev_route e) (LISTENER l))).

(** The address is built from its text as [msockaddr_in::init] does. *)
Definition sendEvent_host (init : list Z -> res msockaddr_in) (dstHost : list Z) (dstService : SERVICE_id)
  (e : Event) : M CInstance unit :=
  t ← gets m_terminating;
  if t : bool then mret tt
  else if bool_decide (dstHost = lit "local") then sendEvent dstService e
  else try_catch (sa ← lift (init dstHost); sendEvent_addr sa dstService e) (mret tt).

(** [initServices]: the names of the [Start] entry of the configuration, in
    the order of a set; a name that is not registered ends the loop. *)
Fixpoint start_services (serviceIdByName : list Z -> option SERVICE_id) (run : list (list Z)) : M CInstance unit :=
  match run with
  | [] => mret tt
  | i :: run' =>
      t ← gets m_terminating;
      if t : bool then mret tt
      else match serviceIdByName i with
           | None => mret tt
           | Some sid => _ ← getServiceOrCreate sid; start_services serviceIdByName run'
           end
  end.

Definition initServices (serviceIdByName : list Z -> option SERVICE_id) (get_stringset : list (list Z))
  : M CInstance unit :=
  t ← gets m_terminating;
  if t : bool then mret tt
  else
    cfg ← gets config_z;
    if negb cfg then throw (UB "config_z->get_stringset on a null pointer")
    else start_services serviceIdByName get_stringset.

(** [deinitServices]: the map is emptied, every object destroyed. *)
Definition deinitServices : M CInstance unit :=
  svs ← gets services;
  _ ← modify (set_services (fun _ => []));
  modify (set_listeners (filter (fun p => p ∉ (snd <$> svs)))).
End Instance.

(** ** Each service is one object, and startService is its first event *)

(** What the listener at [u] has received. *)
Definition inbox (u : ptr) (s : CInstance) : list Event :=
  snd <$> filter (fun d => d.1 = u) (delivered s).

Record instance_inv (s : CInstance) : Prop := {
  ii_sorted : map_sorted Z.ltb (services s);
  ii_next : 0 < next_object s;
  ii_fresh : Forall (fun u => 0 < u < next_object s) (snd <$> services s);
  ii_distinct : NoDup (snd <$> services s);
  ii_listeners : Forall (fun u => 0 < u < next_object s) (listeners s);
  ii_delivered : Forall (fun d => d.1 < next_object s) (delivered s);
  ii_started : Forall (fun u => u ∈ listeners s -> head (inbox u s) = Some startService) (snd <$> services s);
}.

Definition preserves {A} (m : M CInstance A) : Prop :=
  forall s, instance_inv s -> instance_inv (m s).1.2.

Lemma preserves_ret {A} (a : A) : preserves (mret a).
Proof. by intros s. Qed.

Lemma preserves_throw {A} e : preserves (throw (A := A) e).
Proof. by intros s. Qed.

Lemma preserves_gets {A} (f : CInstance -> A) : preserves (gets f).
Proof. by intros s. Qed.

Lemma preserves_lift {A} (r : res A) : preserves (lift r).
Proof. by intros s. Qed.

Lemma preserves_bind {A B} (m : M CInstance A) (f : A -> M CInstance B) :
  preserves m -> (forall a, preserves (f a)) -> preserves (m ≫= f).
Proof.
  intros Hm Hf s Hs. rewrite M_bind_eq. specialize (Hm s Hs).
  destruct (m s) as [[[a|e] s1] l1]; [|done]. specialize (Hf a s1 Hm).
  by destruct (f a s1) as [[r s2] l2].
Qed.

Lemma preserves_try {A} (m h : M CInstance A) : preserves m -> preserves h -> preserves (try_catch m h).
Proof.
  intros Hm Hh s Hs. unfold try_catch. specialize (Hm s Hs).
  destruct (m s) as [[[a|e] s1] l1]; [done|]. specialize (Hh s1 Hm).
  destruct (catchable e); [|done]. by destruct (h s1) as [[r s2] l2].
Qed.

Lemma preserves_if {A} (b : bool) (m h : M CInstance A) : preserves m -> preserves h -> preserves (if b then m else h).
Proof. by destruct b. Qed.

Create HintDb instance.
#[export] Hint Resolve preserves_ret preserves_throw preserves_gets preserves_lift preserves_bind
  preserves_try preserves_if : instance.

Lemma inbox_snoc u l e s :
  inbox u (add_delivery (l, e) s) = inbox u s ++ (if bool_decide (l = u) then [e] else []).
Proof.
  unfold inbox. cbn [delivered add_delivery]. rewrite filter_app, fmap_app. f_equal.
  case_bool_decide as E; [rewrite filter_cons_True by done | rewrite filter_cons_False by done]; done.
Qed.

Lemma preserves_listen l e : preserves (listenToEvent l e).
Proof.
  intros s Hs. unfold listenToEvent. rewrite M_bind_eq. cbn [gets].
  case_bool_decide as Hl; [|done]. destruct Hs as [H1 H2 H3 H4 H5 H6 H7].
  cbn [modify fst snd]. split; cbn [services next_object listeners delivered add_delivery]; try done.
  - rewrite Forall_app. split; [done|]. apply Forall_singleton. cbn.
    rewrite Forall_forall in H5. specialize (H5 l Hl). lia.
  - eapply Forall_impl; [exact H7|]. intros u Hu Hin. rewrite inbox_snoc.
    specialize (Hu Hin). destruct (inbox u s); [done|exact Hu].
Qed.

Lemma preserves_locals l : preserves (modify (set_locals l)).
Proof. intros s [H1 H2 H3 H4 H5 H6 H7]. by split. Qed.

(** The tail of [initService], from the construction to startService. *)
Definition start_new (sid : SERVICE_id) (b : bool) (s : CInstance) : CInstance :=
  let u := next_object s in
  let s1 := set_services (map_insert Z.ltb sid u) (add_object b s) in
  if b then add_delivery (u, startService) s1 else s1.

Lemma map_insert_snd_Permutation (m : list (SERVICE_id * ptr)) k v :
  map_sorted Z.ltb m -> map_find Z.ltb k m = None ->
  snd <$> map_insert Z.ltb k v m ≡ₚ v :: (snd <$> m).
Proof.
  induction m as [|[j w] m IH]; simpl; intros Hs Hf; [done|].
  destruct Hs as [Hj Hs]. destruct (j <? k) eqn:E1; simpl.
  - rewrite (IH Hs Hf). apply Permutation_swap.
  - by destruct (k <? j) eqn:E2.
Qed.

Lemma inbox_fresh u s : instance_inv s -> next_object s <= u -> inbox u s = [].
Proof.
  intros Hs Hu. unfold inbox. pose proof (ii_delivered s Hs) as H.
  induction (delivered s) as [|d l IH]; [done|]. inversion_clear H as [|? ? Hd Hl].
  rewrite filter_cons_False by (intros <-; exact (Z.lt_irrefl _ (Z.lt_le_trans _ _ _ Hd Hu))). by apply IH.
Qed.

Lemma start_new_inv sid b s :
  instance_inv s -> map_find Z.ltb sid (services s) = None -> instance_inv (start_new sid b s).
Proof.
  intros Hs Hf. pose proof (inbox_fresh (next_object s) s Hs ltac:(lia)) as Hin.
  assert (Hne : next_object s ∉ listeners s).
  { intros H. pose proof (ii_listeners s Hs) as Hl. rewrite Forall_forall in Hl.
    specialize (Hl _ H). lia. }
  destruct Hs as [H1 H2 H3 H4 H5 H6 H7]. unfold start_new.
  assert (E : forall u, inbox u (set_services (map_insert Z.ltb sid (next_object s)) (add_object b s)) = inbox u s) by done.
  pose proof (map_insert_snd_Permutation (services s) sid (next_object s) H1 Hf) as HP.
  assert (F3 : Forall (fun u => 0 < u < next_object s + 1) (snd <$> map_insert Z.ltb sid (next_object s) (services s))).
  { rewrite HP. constructor; [lia|]. eapply Forall_impl; [exact H3|]. intros ? Hx; unfold ptr in *; cbn in Hx |- *; lia. }
  assert (F4 : NoDup (snd <$> map_insert Z.ltb sid (next_object s) (services s))).
  { rewrite HP. constructor; [|done]. intros H. rewrite Forall_forall in H3. specialize (H3 _ H). lia. }
  assert (F5 : Forall (fun u => 0 < u < next_object s + 1) (listeners s))
    by (eapply Forall_impl; [exact H5|]; intros ? Hx; unfold ptr in *; cbn in Hx |- *; lia).
  assert (F6 : Forall (fun d : ptr * Event => d.1 < next_object s + 1) (delivered s))
    by (eapply Forall_impl; [exact H6|]; intros ? Hx; unfold ptr in *; cbn in Hx |- *; lia).
  assert (F7 : Forall (fun u => u <> next_object s) (snd <$> services s))
    by (eapply Forall_impl; [exact H3|]; intros ? Hx; unfold ptr in *; cbn in Hx |- *; lia).
  pose proof (map_insert_sorted Z.ltb sid (next_object s) (services s) H1) as F1.
  destruct b; split; cbn [services add_delivery set_services add_object next_object listeners delivered];
    try done; try lia.
  - constructor; [lia|done].
  - rewrite Forall_app. split; [done|]. apply Forall_singleton. cbn. lia.
  - rewrite HP. constructor.
    + intros _. rewrite inbox_snoc, E, Hin. by rewrite bool_decide_true.
    + eapply Forall_impl; [exact (proj2 (Forall_and _ _) (conj H7 F7))|]. intros u [Hu Hn] Hel.
      rewrite inbox_snoc, E, bool_decide_false, app_nil_r by congruence. apply Hu.
      apply elem_of_cons in Hel as [?|?]; [congruence|done].
  - rewrite HP. constructor; [done|]. eapply Forall_impl; [exact H7|]. intros u Hu Hel. rewrite E. by apply Hu.
Qed.

(** The whole of [initService], once the constructor is found. *)
Lemma initService_tail sid c s :
  next_object s <> NULL -> next_object s ∉ listeners s -> m_terminating s = false ->
  (u ← call_constructor c;
   _ ← modify (set_services (map_insert Z.ltb sid u));
   t ← gets m_terminating;
   if t : bool then mret NULL
   else try_catch
          (if u =? NULL then throw (CommonError "if(!u)")
           else l ← as_listener u;
                if l =? NULL then throw (CommonError "if(!l)")
                else _ ← listenToEvent l startService; mret u)
          (mret NULL)) s
  = match c with
    | construct_throws e => (Throw e, s, [])
    | constructs true => (Ok (next_object s), start_new sid true s, [])
    | constructs false => (Ok NULL, start_new sid false s, [])
    end.
Proof.
  intros Hn Hf Ht. apply Z.eqb_neq in Hn. destruct c as [b|e]; [|done].
  unfold start_new, try_catch, listenToEvent, as_listener, call_constructor, gets, modify, throw.
  repeat (rewrite M_bind_eq; cbn -[Z.eqb map_insert]).
  rewrite Ht. cbn -[Z.eqb map_insert]. rewrite Hn.
  repeat (rewrite M_bind_eq; cbn -[Z.eqb map_insert]). destruct b.
  - rewrite bool_decide_true by apply list_elem_of_here. rewrite Hn.
    repeat (rewrite M_bind_eq; cbn -[Z.eqb map_insert]).
    by rewrite bool_decide_true by apply list_elem_of_here.
  - by rewrite bool_decide_false.
Qed.

Lemma next_object_new s : instance_inv s -> next_object s <> NULL /\ next_object s ∉ listeners s.
Proof.
  intros Hs. pose proof (ii_next s Hs). split; [unfold NULL; lia|]. intros H1.
  pose proof (ii_listeners s Hs) as Hl. rewrite Forall_forall in Hl. specialize (Hl _ H1). cbn in Hl. lia.
Qed.

Section Facts.
Context (registerPluginDLL : list Z -> Utils_local -> res Utils_local).

Lemma preserves_find sid : preserves (find_service_constructor registerPluginDLL sid).
Proof.
  unfold find_service_constructor. apply preserves_bind; [apply preserves_gets|]. intros l.
  destruct (map_find Z.ltb sid (service_constructors l)); [apply preserves_ret|].
  destruct (map_find Z.ltb sid (pluginInfo_services l)) as [[|x pn]|]; [apply preserves_throw| |apply preserves_throw].
  apply preserves_bind; [apply preserves_lift|]. intros l'.
  apply preserves_bind; [apply preserves_locals|]. intros _.
  destruct (map_find Z.ltb sid _); auto with instance.
Qed.

(** The search for the constructor changes nothing but the registry. *)
Lemma find_frame sid s r s' l :
  find_service_constructor registerPluginDLL sid s = (r, s', l) ->
  l = [] /\ s' = set_locals (locals s') s.
Proof.
  unfold find_service_constructor, gets, lift, modify, throw. rewrite M_bind_eq.
  destruct s as [sv t c lo n li de]. cbn [locals].
  destruct (map_find Z.ltb sid (service_constructors lo)); [by intros [= <- <- <-]|].
  destruct (map_find Z.ltb sid (pluginInfo_services lo)) as [[|x pn]|]; [by intros [= <- <- <-]| |by intros [= <- <- <-]].
  rewrite M_bind_eq. destruct (registerPluginDLL _ lo) as [lo'|e]; [|by intros [= <- <- <-]].
  rewrite M_bind_eq. destruct (map_find Z.ltb sid _); by intros [= <- <- <-].
Qed.

Lemma preserves_initService sid : preserves (initService registerPluginDLL sid).
Proof.
  intros s Hs. unfold initService. rewrite M_bind_eq. cbn [gets].
  destruct (m_terminating s) eqn:Ht; [done|]. rewrite M_bind_eq. cbn [gets].
  destruct (map_find Z.ltb sid (services s)) as [u|] eqn:Hf; [done|].
  rewrite M_bind_eq. pose proof (preserves_find sid s Hs) as Hs1.
  destruct (find_service_constructor registerPluginDLL sid s) as [[[c|e] s1] l1] eqn:E; [|done].
  destruct (find_frame _ _ _ _ _ E) as [-> E1]. cbn [fst snd] in Hs1.
  assert (Ht1 : m_terminating s1 = false) by (rewrite E1; exact Ht).
  assert (Hf1 : map_find Z.ltb sid (services s1) = None) by (rewrite E1; exact Hf).
  rewrite M_bind_eq. cbn [gets]. rewrite Ht1, M_bind_eq. cbn [gets].
  destruct (config_z s1); cbn [negb]; [|done].
  destruct (next_object_new s1 Hs1) as [Hn Hl]. rewrite (initService_tail sid c s1 Hn Hl Ht1).
  destruct c as [[]|e]; cbn [fst snd]; [by apply start_new_inv..|done].
Qed.

Lemma preserves_forwardEvent svs e : preserves (forwardEvent registerPluginDLL svs e).
Proof.
  unfold forwardEvent, getServiceNoCreate, as_listener.
  pose proof preserves_listen. pose proof preserves_initService.
  repeat (first [apply preserves_bind; [|intros ?] | apply preserves_if | apply preserves_try]; auto with instance).
Qed.
End Facts.

#[export] Hint Resolve preserves_listen preserves_initService preserves_forwardEvent : instance.

Section Ops.
Context (registerPluginDLL : list Z -> Utils_local -> res Utils_local).

Ltac preserve := auto with instance; repeat (first [apply preserves_bind; [|intros ?] | apply preserves_if | apply preserves_try];
                         auto with instance).

Lemma preserves_getServiceOrCreate svs : preserves (getServiceOrCreate registerPluginDLL svs).
Proof. unfold getServiceOrCreate, getServiceNoCreate. preserve. Qed.

Lemma preserves_passEvent e : preserves (passEvent registerPluginDLL e).
Proof.
  unfold passEvent. preserve. destruct a0 as [r rt]. destruct r; auto with instance.
Qed.

Lemma preserves_sendEvent svs e : preserves (sendEvent registerPluginDLL svs e).
Proof. unfold sendEvent. preserve. Qed.

Lemma preserves_sendEvent_addr a svs e : preserves (sendEvent_addr registerPluginDLL a svs e).
Proof. apply preserves_forwardEvent. Qed.

Lemma preserves_sendEvent_listener l e : preserves (sendEvent_listener l e).
Proof. apply preserves_listen. Qed.

Lemma preserves_sendEvent_host init h svs e : preserves (sendEvent_host registerPluginDLL init h svs e).
Proof.
  pose proof preserves_sendEvent. pose proof preserves_sendEvent_addr. unfold sendEvent_host. preserve.
Qed.

Lemma preserves_start_services byName run : preserves (start_services registerPluginDLL byName run).
Proof.
  pose proof preserves_getServiceOrCreate. induction run as [|i run IH]; cbn [start_services]; preserve.
  destruct (byName i); preserve.
Qed.

Lemma preserves_initServices byName run : preserves (initServices registerPluginDLL byName run).
Proof. pose proof preserves_start_services. unfold initServices. preserve. Qed.

Lemma preserves_deinitServices : preserves deinitServices.
Proof.
  intros s [H1 H2 H3 H4 H5 H6 H7]. unfold deinitServices, gets, modify.
  rewrite M_bind_eq, M_bind_eq. cbn [fst snd].
  split; cbn [services set_listeners set_services next_object listeners delivered]; try done; try by constructor.
  rewrite Forall_forall in H5 |- *. intros x [_ Hx]%list_elem_of_filter. auto.
Qed.
End Ops.

(** ** Delivery *)

Section Delivery.
Context (registerPluginDLL : list Z -> Utils_local -> res Utils_local).

(** [sid] runs as the listener [u]. *)
Definition runs (s : CInstance) (sid : SERVICE_id) (u : ptr) : Prop :=
  map_find Z.ltb sid (services s) = Some u /\ u ∈ listeners s /\ u <> NULL.

(** [sid] can be constructed without loading a plugin. *)
Definition startable (s : CInstance) (sid : SERVICE_id) : Prop :=
  config_z s = true /\ map_find Z.ltb sid (services s) = None
  /\ map_find Z.ltb sid (service_constructors (locals s)) = Some (constructs true).

Lemma listen_ok l e s : l ∈ listeners s -> listenToEvent l e s = (Ok tt, add_delivery (l, e) s, []).
Proof. intros H. unfold listenToEvent. rewrite M_bind_eq. cbn [gets]. by rewrite bool_decide_true. Qed.

Lemma forward_running s sid u e :
  m_terminating s = false -> runs s sid u ->
  forwardEvent registerPluginDLL sid e s = (Ok tt, add_delivery (u, e) s, []).
Proof.
  intros Ht (Hf & Hl & Hn). apply Z.eqb_neq in Hn.
  unfold forwardEvent, getServiceNoCreate, try_catch, as_listener. rewrite !M_bind_eq. cbn [gets].
  rewrite Ht, M_bind_eq. cbn [gets]. rewrite Hf. cbn [from_option id]. rewrite Hn, M_bind_eq. cbn [mret M_ret].
  rewrite M_bind_eq. cbn [gets]. rewrite bool_decide_true by done. rewrite Hn. by rewrite listen_ok.
Qed.

Lemma start_new_runs s sid :
  instance_inv s -> startable s sid -> runs (start_new sid true s) sid (next_object s).
Proof.
  intros Hs (Hc & Hf & _). split; [|split].
  - exact (eq_trans (map_find_insert_eq Z.ltb sid (next_object s) (services s) (ii_sorted s Hs))
             ltac:(by rewrite Hf)).
  - apply list_elem_of_here.
  - apply (next_object_new s Hs).
Qed.

Lemma initService_startable s sid :
  instance_inv s -> m_terminating s = false -> startable s sid ->
  initService registerPluginDLL sid s = (Ok (next_object s), start_new sid true s, []).
Proof.
  intros Hs Ht (Hc & Hf & Hk). destruct (next_object_new s Hs) as [Hn Hl].
  unfold initService. rewrite M_bind_eq. cbn [gets]. rewrite Ht, M_bind_eq. cbn [gets]. rewrite Hf.
  rewrite M_bind_eq. unfold find_service_constructor. rewrite M_bind_eq. cbn [gets]. rewrite Hk. cbn [mret M_ret].
  rewrite M_bind_eq. cbn [gets]. rewrite Ht, M_bind_eq. cbn [gets]. rewrite Hc. cbn [negb].
  by rewrite (initService_tail sid (constructs true) s Hn Hl Ht).
Qed.

Lemma forward_startable s sid e :
  instance_inv s -> m_terminating s = false -> startable s sid ->
  forwardEvent registerPluginDLL sid e s
  = (Ok tt, add_delivery (next_object s, e) (start_new sid true s), []).
Proof.
  intros Hs Ht Hst. pose proof (start_new_runs s sid Hs Hst) as (_ & Hl & Hn). apply Z.eqb_neq in Hn.
  destruct Hst as (Hc & Hf & Hk).
  unfold forwardEvent, getServiceNoCreate, try_catch, as_listener. rewrite !M_bind_eq. cbn [gets].
  rewrite Ht, M_bind_eq. cbn [gets]. rewrite Hf. cbn [from_option id]. change (NULL =? NULL) with true. cbv iota.
  rewrite M_bind_eq, M_bind_eq, initService_startable by done. rewrite Hn. cbn [mret M_ret].
  rewrite M_bind_eq. cbn [gets]. rewrite bool_decide_true by done. rewrite Hn. by rewrite listen_ok.
Qed.
End Delivery.

(** ** Sequences of calls *)

Inductive inst_op : Type :=
| Op_pass (e : Event)
| Op_send (svs : SERVICE_id) (e : Event)
| Op_sendAddr (addr : msockaddr_in) (svs : SERVICE_id) (e : Event)
| Op_sendListener (l : ptr) (e : Event)
| Op_sendHost (host : list Z) (svs : SERVICE_id) (e : Event)
| Op_forward (svs : SERVICE_id) (e : Event)
| Op_getService (svs : SERVICE_id)
| Op_initServices (run : list (list Z))
| Op_deinitServices.

Section Runs.
Context (registerPluginDLL : list Z -> Utils_local -> res Utils_local).
Context (init : list Z -> res msockaddr_in) (serviceIdByName : list Z -> option SERVICE_id).

Definition do_op (o : inst_op) (s : CInstance) : CInstance :=
  match o with
  | Op_pass e => (passEvent registerPluginDLL e s).1.2
  | Op_send svs e => (sendEvent registerPluginDLL svs e s).1.2
  | Op_sendAddr a svs e => (sendEvent_addr registerPluginDLL a svs e s).1.2
  | Op_sendListener l e => (sendEvent_listener l e s).1.2
  | Op_sendHost h svs e => (sendEvent_host registerPluginDLL init h svs e s).1.2
  | Op_forward svs e => (forwardEvent registerPluginDLL svs e s).1.2
  | Op_getService svs => (getServiceOrCreate registerPluginDLL svs s).1.2
  | Op_initServices run => (initServices registerPluginDLL serviceIdByName run s).1.2
  | Op_deinitServices => (deinitServices s).1.2
  end.

Definition do_ops (l : list inst_op) (s : CInstance) : CInstance := fold_left (fun s o => do_op o s) l s.

Lemma do_op_inv o s : instance_inv s -> instance_inv (do_op o s).
Proof.
  destruct o; cbn [do_op]; [apply preserves_passEvent | apply preserves_sendEvent | apply preserves_sendEvent_addr
    | apply preserves_sendEvent_listener | apply preserves_sendEvent_host | apply preserves_forwardEvent
    | apply preserves_getServiceOrCreate | apply preserves_initServices | apply preserves_deinitServices].
Qed.

Lemma do_ops_inv l s : instance_inv s -> instance_inv (do_ops l s).
Proof. revert s. induction l as [|o l IH]; cbn; intros s Hs; [done|]. by apply IH, do_op_inv. Qed.

Lemma new_inv lo first : 0 < first -> instance_inv (CInstance_new lo first).
Proof. intros H. split; cbn; try done; try by constructor. Qed.
End Runs.

Lemma map_find_elem (k : SERVICE_id) (v : ptr) m : map_find Z.ltb k m = Some v -> (k, v) ∈ m.
Proof.
  induction m as [|[j w] m IH]; cbn; [done|].
  destruct (Z.ltb_spec j k); [intros E; apply list_elem_of_further; auto|].
  destruct (Z.ltb_spec k j); [done|]. intros [= ->]. assert (k = j) as -> by lia. apply list_elem_of_here.
Qed.

(** ** Several callers at once

    Threads that call [forwardEvent] for one service which is constructible.
    [initService] runs under a mutex of the service, but the map is published
    before startService is delivered, and [forwardEvent] reads the map without
    that mutex. *)
Module Race.

Inductive pc : Type :=
| Look (e : Event)                 (* about to read the map *)
| Enter (e : Event)                (* in initService, waiting for the mutex *)
| Check (e : Event)                (* mutex held, about to look in the map again *)
| Publish (u : ptr) (e : Event)    (* constructed, about to insert *)
| Start (u : ptr) (e : Event)      (* inserted, about to deliver startService *)
| Leave (u : ptr) (e : Event)      (* about to release the mutex *)
| Deliver (u : ptr) (e : Event)    (* about to call listenToEvent(e) *)
| Done.

Record rstate : Type := mkR {
  threads : list pc;
  service : option ptr;            (* services[sid] *)
  mutex : option nat;              (* the thread inside initService *)
  made : list ptr;                 (* what the constructor returned so far *)
  log : list (ptr * Event);
}.

Definition at_pc (i : nat) (p : pc) (s : rstate) : list pc := <[i := p]> (threads s).

(** One step of thread [i]; [None] when it cannot move. *)
Definition rstep (i : nat) (s : rstate) : option rstate :=
  match threads s !! i with
  | Some (Look e) =>
      match service s with
      | Some u => Some (mkR (at_pc i (Deliver u e) s) (service s) (mutex s) (made s) (log s))
      | None => Some (mkR (at_pc i (Enter e) s) (service s) (mutex s) (made s) (log s))
      end
  | Some (Enter e) =>
      match mutex s with
      | None => Some (mkR (at_pc i (Check e) s) (service s) (Some i) (made s) (log s))
      | Some _ => None
      end
  | Some (Check e) =>
      match service s with
      | Some u => Some (mkR (at_pc i (Leave u e) s) (service s) (mutex s) (made s) (log s))
      | None =>
          let u := 1 + Z.of_nat (length (made s)) in
          Some (mkR (at_pc i (Publish u e) s) (service s) (mutex s) (made s ++ [u]) (log s))
      end
  | Some (Publish u e) =>
      Some (mkR (at_pc i (Start u e) s) (Some (default u (service s))) (mutex s) (made s) (log s))
  | Some (Start u e) =>
      Some (mkR (at_pc i (Leave u e) s) (service s) (mutex s) (made s) (log s ++ [(u, startService)]))
  | Some (Leave u e) => Some (mkR (at_pc i (Deliver u e) s) (service s) None (made s) (log s))
  | Some (Deliver u e) => Some (mkR (at_pc i Done s) (service s) (mutex s) (made s) (log s ++ [(u, e)]))
  | Some Done | None => None
  end.

Definition rinit (es : list Event) : rstate := mkR (Look <$> es) None None [] [].

Inductive reachable (es : list Event) : rstate -> Prop :=
| r_init : reachable es (rinit es)
| r_step s i s' : reachable es s -> rstep i s = Some s' -> reachable es s'.

(** The thread that holds the mutex is the one inside. *)
Definition inside (p : pc) : bool :=
  match p with Check _ | Publish _ _ | Start _ _ | Leave _ _ => true | _ => false end.

Definition pc_ok (s : rstate) (p : pc) : Prop :=
  match p with
  | Publish u _ => made s = [u] /\ service s = None
  | Start u _ => made s = [u] /\ service s = Some u
  | Leave u _ | Deliver u _ => service s = Some u
  | _ => True
  end.

Record rinv (s : rstate) : Prop := {
  ri_mutex : forall i p, threads s !! i = Some p -> inside p = true -> mutex s = Some i;
  ri_pc : forall i p, threads s !! i = Some p -> pc_ok s p;
  ri_made : match service s with
            | Some u => made s = [u]
            | None => made s = [] \/ exists i u e, threads s !! i = Some (Publish u e) /\ made s = [u]
            end;
}.

Lemma rinit_inv es : rinv (rinit es).
Proof.
  split; cbn; [| |by left]; intros i p Hi; apply list_lookup_fmap_Some in Hi as (e & -> & _); done.
Qed.

Lemma at_pc_lookup i p s j q :
  at_pc i p s !! j = Some q -> (j = i /\ q = p) \/ (j <> i /\ threads s !! j = Some q).
Proof. unfold at_pc. intros [(-> & -> & _)|[Hne Hj]]%list_lookup_insert_Some; [by left | by right]. Qed.

Lemma at_pc_self i p q s : threads s !! i = Some q -> at_pc i p s !! i = Some p.
Proof. intros H. apply list_lookup_insert_eq. by eapply lookup_lt_Some. Qed.

Lemma outside i s j q :
  rinv s -> mutex s = Some i -> j <> i -> threads s !! j = Some q -> inside q = false.
Proof.
  intros Hs Hm Hne Hj. destruct (inside q) eqn:E; [|done]. pose proof (ri_mutex s Hs j q Hj E). congruence.
Qed.

Lemma pc_ok_outside s s' q :
  inside q = false -> pc_ok s q -> service s = None \/ service s' = service s -> pc_ok s' q.
Proof. destruct q; cbn; intros ? Hq [H|H]; try done; congruence. Qed.

(** A step that leaves the service and the objects alone. *)
Lemma step_quiet i p p' s mx lg :
  rinv s -> threads s !! i = Some p ->
  (forall u e, p <> Publish u e) ->
  (inside p' = true -> mx = Some i) ->
  pc_ok s p' ->
  (forall j q, j <> i -> threads s !! j = Some q -> inside q = true -> mx = Some j) ->
  rinv (mkR (at_pc i p' s) (service s) mx (made s) lg).
Proof.
  intros [Hm Hp Hd] Hi Hnp Hin Hok Hot. split; cbn.
  - intros j q [[-> ->]|[Hne Hj]]%at_pc_lookup; [done | by apply Hot].
  - intros j q [[-> ->]|[Hne Hj]]%at_pc_lookup; [|specialize (Hp _ _ Hj)]; [destruct p' | destruct q]; done.
  - destruct (service s); [done|]. destruct Hd as [?|(j & u & e & Hj & He)]; [by left|right].
    exists j, u, e. split; [|done]. unfold at_pc. rewrite list_lookup_insert_ne; [done|]. intros ->. naive_solver.
Qed.

Lemma step_check i e s :
  rinv s -> threads s !! i = Some (Check e) -> service s = None -> made s = [].
Proof.
  intros Hs Hi Hn. pose proof (ri_made s Hs) as Hd. rewrite Hn in Hd.
  destruct Hd as [?|(j & u & e' & Hj & _)]; [done|].
  pose proof (ri_mutex s Hs _ _ Hi eq_refl). pose proof (ri_mutex s Hs _ _ Hj eq_refl). simplify_eq.
Qed.

Lemma rstep_inv i s s' : rinv s -> rstep i s = Some s' -> rinv s'.
Proof.
  intros Hs H. unfold rstep in H. destruct (threads s !! i) as [p|] eqn:Hi; [|done].
  pose proof (ri_mutex s Hs _ _ Hi) as Hm. pose proof (ri_pc s Hs _ _ Hi) as Hp.
  assert (Hot : forall j q, j <> i -> threads s !! j = Some q -> inside q = true -> mutex s = Some j)
    by (intros j q _; apply (ri_mutex s Hs)).
  destruct p as [e|e|e|u e|u e|u e|u e|]; cbn in Hm, Hp; [..|done].
  - destruct (service s) eqn:E; injection H as <-; rewrite <- E; by eapply step_quiet.
  - destruct (mutex s) eqn:E; [done|]. injection H as <-. eapply step_quiet; try done.
    intros j q Hne Hj Hq. by specialize (Hot j q Hne Hj Hq).
  - specialize (Hm eq_refl). destruct (service s) as [u|] eqn:E; injection H as <-.
    { rewrite <- E. by eapply step_quiet. }
    pose proof (step_check i e s Hs Hi E) as Em. rewrite Em. split; cbn.
    + intros j q [[-> ->]|[Hne Hj]]%at_pc_lookup; eauto.
    + intros j q [[-> ->]|[Hne Hj]]%at_pc_lookup; [done|].
      eapply pc_ok_outside; [by eapply outside|by eapply (ri_pc s Hs)|by left].
    + right. eexists i, _, _. split; [by eapply at_pc_self|done].
  - specialize (Hm eq_refl). destruct Hp as [Em E]. rewrite E in H. injection H as <-. cbn. split; cbn.
    + intros j q [[-> ->]|[Hne Hj]]%at_pc_lookup; eauto.
    + intros j q [[-> ->]|[Hne Hj]]%at_pc_lookup; [done|].
      eapply pc_ok_outside; [by eapply outside|by eapply (ri_pc s Hs)|by left].
    + done.
  - destruct Hp as [Em E]. injection H as <-. by eapply step_quiet.
  - specialize (Hm eq_refl). injection H as <-. eapply step_quiet; try done.
    intros j q Hne Hj Hq. specialize (Hot j q Hne Hj Hq). congruence.
  - injection H as <-. by eapply step_quiet.
Qed.

Lemma reachable_inv es s : reachable es s -> rinv s.
Proof. induction 1; [apply rinit_inv | by eapply rstep_inv]. Qed.

Definition steps (l : list nat) (s : rstate) : option rstate :=
  foldl (fun o i => s ← o; rstep i s) (Some s) l.

Lemma steps_reachable es l s s' : reachable es s -> steps l s = Some s' -> reachable es s'.
Proof.
  revert s. unfold steps. induction l as [|i l IH]; intros s Hr; cbn; [by intros [= <-]|].
  destruct (rstep i s) as [s1|] eqn:E.
  - apply IH. by eapply r_step.
  - clear IH. intros H. exfalso. induction l; cbn in H; auto; done.
Qed.
End Race.

(** ** Properties *)

(** C7: Whatever calls are made of the instance one after the other, the first
    event a service's listener receives is startService, and no two services
    share an object. *)
Theorem service_started_first registerPluginDLL init byName lo first ops sid u :
  0 < first ->
  let s := do_ops registerPluginDLL init byName ops (setConfig (CInstance_new lo first)) in
  map_find Z.ltb sid (services s) = Some u ->
  (u ∈ listeners s -> head (inbox u s) = Some startService)
  /\ forall sid', map_find Z.ltb sid' (services s) = Some u -> sid' = sid.
Proof.
  intros H0 s Hf.
  assert (Hs : instance_inv s).
  { apply do_ops_inv. destruct (new_inv lo first H0) as [H1 H2 H3 H4 H5 H6 H7]. by split. }
  clearbody s. pose proof (map_find_elem _ _ _ Hf) as Hin. split.
  - pose proof (ii_started s Hs) as H. rewrite Forall_forall in H. apply H.
    apply (list_elem_of_fmap_2 snd _ (sid, u) Hin).
  - intros sid' Hf'. pose proof (map_find_elem _ _ _ Hf') as Hin'. pose proof (ii_distinct s Hs) as Hd.
    apply list_elem_of_lookup in Hin as [i Hi], Hin' as [j Hj].
    assert (i = j) as ->; [|congruence].
    apply (NoDup_lookup _ i j u Hd); rewrite list_lookup_fmap; [refine (eq_trans (f_equal _ Hi) _)
      | refine (eq_trans (f_equal _ Hj) _)]; reflexivity.
Qed.

Definition locals0 : Utils_local := mkLocals [(5, constructs true); (6, constructs true)] [].
Definition ping : Event := mkEvent (Ehttp httpEvent.GetBindPortsREQ) [LOCALSERVICE 5].

Lemma service_started_first_witness :
  let s := do_ops (fun _ l => Ok l) (fun _ => Throw BadAlloc) (fun _ => None) [Op_send 6 ping; Op_send 5 ping]
             (setConfig (CInstance_new locals0 1)) in
  (1 ∈ listeners s -> head (inbox 1 s) = Some startService)
  /\ forall sid', map_find Z.ltb sid' (services s) = Some 1 -> sid' = 6.
Proof.
  apply (service_started_first (fun _ l => Ok l) (fun _ => Throw BadAlloc) (fun _ => None) locals0 1
           [Op_send 6 ping; Op_send 5 ping] 6 1); [lia | by vm_compute].
Defined.

(** C25: A request sent to a service that is not running yet starts it: the new
    object receives startService and then the request, whose route ends with
    the service itself.  The reply the service passes back with that route less
    its last hop reaches the sender, with the route the sender's request came
    with. *)
Theorem request_starts_service_and_reply_returns registerPluginDLL s caller callee uc b rb rt :
  instance_inv s -> m_terminating s = false -> caller <> callee ->
  runs s caller uc -> startable s callee ->
  let ud := next_object s in
  let req := mkEvent b (push_back rt (LOCALSERVICE caller)) in
  let s1 := (sendEvent registerPluginDLL callee req s).1.2 in
  let got := with_route req (push_back (ev_route req) (LOCALSERVICE callee)) in
  sendEvent registerPluginDLL callee req s = (Ok tt, s1, [])
  /\ delivered s1 = delivered s ++ [(ud, startService); (ud, got)]
  /\ exists back, poppedFrontRoute (ev_route got) = Ok back
     /\ passEvent registerPluginDLL (mkEvent rb back) s1 = (Ok tt, add_delivery (uc, mkEvent rb rt) s1, []).
Proof.
  intros Hs Ht Hne Hc Hst ud req s1 got.
  assert (Es : sendEvent registerPluginDLL callee req s
               = (Ok tt, add_delivery (ud, got) (start_new callee true s), [])).
  { unfold sendEvent. rewrite M_bind_eq. cbn [gets]. rewrite Ht.
    refine (eq_trans (f_equal (fun x : res unit * CInstance * list action => let '(r, s2, l2) := x in (r, s2, [] ++ l2))
              (forward_startable registerPluginDLL s callee got Hs Ht Hst)) _). reflexivity. }
  assert (E1 : s1 = add_delivery (ud, got) (start_new callee true s)) by (subst s1; by rewrite Es).
  clearbody s1. subst s1. split; [exact Es|]. split.
  { cbn [delivered add_delivery start_new set_services add_object]. by rewrite <- app_assoc. }
  exists (push_back rt (LOCALSERVICE caller)). split.
  { subst got. unfold poppedFrontRoute. cbn [ev_route with_route req]. by rewrite pop_push. }
  destruct Hc as (Hf & Hl & Hn).
  assert (Hrun : runs (add_delivery (ud, got) (start_new callee true s)) caller uc).
  { split; [|split; [apply list_elem_of_further; exact Hl|exact Hn]].
    exact (eq_trans (map_find_insert_ne Z.ltb callee caller (next_object s) (services s) (ii_sorted s Hs) Hne) Hf). }
  unfold passEvent. rewrite M_bind_eq. cbn [gets].
  change (m_terminating (add_delivery (ud, got) (start_new callee true s))) with (m_terminating s). rewrite Ht.
  rewrite M_bind_eq. cbn [ev_route]. unfold lift. rewrite pop_push. cbv beta iota zeta.
  rewrite (forward_running registerPluginDLL (add_delivery (ud, got) (start_new callee true s)) caller uc _ Ht Hrun).
  reflexivity.
Qed.

(** An instance that runs service 5 only. *)
Definition inst0 : CInstance := do_ops (fun _ l => Ok l) (fun _ => Throw BadAlloc) (fun _ => None)
  [Op_getService 5] (setConfig (CInstance_new locals0 1)).

Lemma request_starts_service_and_reply_returns_witness :
  let req := mkEvent (Ehttp httpEvent.GetBindPortsREQ) (push_back [] (LOCALSERVICE 5)) in
  let s1 := (sendEvent (fun _ l => Ok l) 6 req inst0).1.2 in
  let got := with_route req (push_back (ev_route req) (LOCALSERVICE 6)) in
  sendEvent (fun _ l => Ok l) 6 req inst0 = (Ok tt, s1, [])
  /\ delivered s1 = delivered inst0 ++ [(2, startService); (2, got)]
  /\ exists back, poppedFrontRoute (ev_route got) = Ok back
     /\ passEvent (fun _ l => Ok l) (mkEvent (Ehttp (httpEvent.GetBindPortsRSP [])) back) s1
        = (Ok tt, add_delivery (1, mkEvent (Ehttp (httpEvent.GetBindPortsRSP [])) []) s1, []).
Proof.
  apply (request_starts_service_and_reply_returns (fun _ l => Ok l) inst0 5 6 1
           (Ehttp httpEvent.GetBindPortsREQ) (Ehttp (httpEvent.GetBindPortsRSP [])) []);
    [|reflexivity|discriminate|..].
  - apply do_ops_inv. destruct (new_inv locals0 1 ltac:(lia)) as [H1 H2 H3 H4 H5 H6 H7]. by split.
  - split; [reflexivity|]. split; [apply list_elem_of_here|discriminate].
  - by split_and!.
Defined.

(** A name of the [Start] list that is not registered ends [initServices]:
    the services named after it are not started. *)
Lemma unknown_name_ends_start registerPluginDLL byName bad run s :
  byName bad = None -> config_z s = true ->
  initServices registerPluginDLL byName (bad :: run) s = (Ok tt, s, []).
Proof.
  intros Hb Hc. unfold initServices. rewrite M_bind_eq. cbn [gets].
  destruct (m_terminating s) eqn:Ht; [done|]. rewrite M_bind_eq. cbn [gets]. rewrite Hc. cbn [negb start_services].
  rewrite M_bind_eq. cbn [gets]. rewrite Ht, Hb. reflexivity.
Qed.

Lemma unknown_name_ends_start_witness :
  initServices (fun _ l => Ok l) (fun n => if bool_decide (n = [65]) then None else Some 6) [[65]; [82]] inst0
  = (Ok tt, inst0, []).
Proof.
  apply (unknown_name_ends_start (fun _ l => Ok l) (fun n => if bool_decide (n = [65]) then None else Some 6)
           [65] [[82]] inst0); reflexivity.
Defined.

(** C28: However many threads forward events to a service that is not running
    yet, in every interleaving its constructor is called at most once, and every
    event is delivered to the object it made. *)
Theorem one_object_per_service es s :
  Race.reachable es s ->
  (length (Race.made s) <= 1)%nat
  /\ forall i u e, Race.threads s !! i = Some (Race.Deliver u e) -> Race.made s = [u].
Proof.
  intros H. pose proof (Race.reachable_inv es s H) as Hs. split.
  - pose proof (Race.ri_made s Hs) as Hm. destruct (Race.service s); [by rewrite Hm|].
    destruct Hm as [->|(i & u & e & _ & ->)]; cbn; lia.
  - intros i u e Hi. pose proof (Race.ri_pc s Hs i _ Hi) as Hp. cbn in Hp.
    pose proof (Race.ri_made s Hs) as Hm. by rewrite Hp in Hm.
Qed.

Lemma one_object_per_service_witness :
  let s := Race.mkR [Race.Publish 1 ping; Race.Enter ping] None (Some 0%nat) [1] [] in
  (length (Race.made s) <= 1)%nat
  /\ forall i u e, Race.threads s !! i = Some (Race.Deliver u e) -> Race.made s = [u].
Proof.
  intros s. apply (one_object_per_service [ping; ping] s).
  apply (Race.steps_reachable [ping; ping] [0; 1; 0; 0]%nat (Race.rinit [ping; ping])); [constructor | reflexivity].
Defined.

(** With two threads there is an interleaving in which the service's first
    event is not startService: the service is found in the map by the second
    thread before the first one has delivered startService. *)
Lemma event_before_startService e1 e2 :
  exists s, Race.reachable [e1; e2] s /\ Race.log s = [(1, e2); (1, startService)].
Proof.
  exists (Race.mkR [Race.Leave 1 e1; Race.Done] (Some 1) (Some 0%nat) [1] [(1, e2); (1, startService)]).
  split; [|reflexivity].
  apply (Race.steps_reachable [e1; e2] [0; 0; 0; 0; 1; 1; 0]%nat (Race.rinit [e1; e2])); [constructor | reflexivity].
Qed.
