(* ===== verification/ObjectProxy.v ===== *)
(** Object handlers (corelib/objectHandler.cpp) and the proxy services that
    deliver the answers to them (modules/objectProxy/objectProxyService.cpp).

    A handler is known by its address; the set of live handlers is a
    [std::set<void *>].  The event an RPC answer arrives in
    ([IncomingOnConnector]) holds the answer itself, [ez->e]: the proxy
    overwrites the route of the outer event with the inner one's. *)

From Stdlib Require Import ZArith Lia.
From stdpp Require Import base strings numbers list.
From S2P Require Import Prelude StdMap IoBuffer Codec Route CLib Sockaddr Events Service Instance.
Open Scope Z_scope.

Inductive proxy_kind : Type := Polled | Threaded.

Record ObjectProxy : Type := mkProxy {
  kind : proxy_kind;
  serviceId : SERVICE_id;
  mx_handlers : list ptr;
}.

(** [ObjectProxyPolled] and [ObjectProxyThreaded] as [construct] makes them. *)
Definition proxy_new (k : proxy_kind) (svs : SERVICE_id) : ObjectProxy := mkProxy k svs [].

Definition addObjectHandler (h : ptr) (p : ObjectProxy) : ObjectProxy :=
  mkProxy (kind p) (serviceId p) (set_insert Z.ltb h (mx_handlers p)).
Definition removeObjectHandler (h : ptr) (p : ObjectProxy) : ObjectProxy :=
  mkProxy (kind p) (serviceId p) (set_erase Z.ltb h (mx_handlers p)).

(** What [handleEvent] comes to: it returns without calling a handler, or it
    calls [OH->OH_handleObjectEvent(e)]. *)
Inductive proxy_out : Type :=
| Returns (b : bool)
| Calls (oh : ptr) (e : Event).

(** The object named by a hop of the proxy's own kind. *)
Definition own_hop (k : proxy_kind) (r : Route) : option ptr :=
  match k, r with
  | Polled, OBJECTHANDLER_POLLED a => Some a
  | Threaded, OBJECTHANDLER_THREADED a => Some a
  | _, _ => None
  end.

(** [e->route = ez->e->route] when the event carries an RPC answer. *)
Definition adopt_route (e : Event) : Event :=
  match ev_body e with
  | Erpc (rpcEvent.IncomingOnConnector _ _ inner) => with_route e (ev_route inner)
  | _ => e
  end.

(** [ez->e->route = e->route], which only the threaded proxy does. *)
Definition give_route (e : Event) : Event :=
  match ev_body e with
  | Erpc (rpcEvent.IncomingOnConnector esi a inner) =>
      mkEvent (Erpc (rpcEvent.IncomingOnConnector esi a (with_route inner (ev_route e)))) (ev_route e)
  | _ => e
  end.

Definition proxy_handleEvent (p : ObjectProxy) (e : Event) : res proxy_out :=
  match ev_body e with
  | Esystem systemEvent.startService => Ok (Returns true)
  | Erpc (rpcEvent.IncomingOnAcceptor _ _) => Throw (CommonError "rpcIncomingOnAcceptor here")
  | _ =>
      let e := adopt_route e in
      '(r, rt) ← pop_back (ev_route e);
      let e := with_route e rt in
      match own_hop (kind p) r with
      | None => Ok (Returns true)
      | Some a =>
          if set_count Z.ltb a (mx_handlers p)
          then Ok (Calls a (match kind p with Threaded => give_route e | Polled => e end))
          else Ok (Returns false)
      end
  end.

(** [sendObjectRequest]: the proxy's own hop goes on the route first. *)
Definition object_request (p : ObjectProxy) (e : Event) : Event :=
  with_route e (push_back (ev_route e) (LOCALSERVICE (serviceId p))).

Definition sendObjectRequest_addr (p : ObjectProxy) (addr : msockaddr_in) (dst : SERVICE_id) (e : Event) : action :=
  A_sendAddr addr dst (object_request p e).
Definition sendObjectRequest (p : ObjectProxy) (dst : SERVICE_id) (e : Event) : action :=
  A_send dst (object_request p e).

(** [ObjectHandlerPolled::sendEvent(string, ...)] and the threaded one, which
    calls itself again for a host that is not local: [fuel] bounds the calls,
    and [None] is the bound exceeded. *)
Definition polled_sendEvent (init : list Z -> res msockaddr_in) (p : ObjectProxy) (dstHost : list Z)
  (dst : SERVICE_id) (e : Event) : list action :=
  if bool_decide (dstHost = lit "local") then [sendObjectRequest p dst e]
  else match init dstHost with
       | Ok sa => [sendObjectRequest_addr p sa dst e]
       | Throw _ => []
       end.

Fixpoint threaded_sendEvent (fuel : nat) (p : ObjectProxy) (dstHost : list Z) (dst : SERVICE_id) (e : Event)
  : option (list action) :=
  match fuel with
  | O => None
  | S n =>
      if bool_decide (dstHost = lit "local") then Some [sendObjectRequest p dst e]
      else threaded_sendEvent n p dstHost dst e
  end.

(** ** Facts *)

Definition handler_hop (k : proxy_kind) (a : ptr) : Route :=
  match k with Polled => OBJECTHANDLER_POLLED a | Threaded => OBJECTHANDLER_THREADED a end.

Lemma own_hop_eq k a : own_hop k (handler_hop k a) = Some a.
Proof. by destruct k. Qed.

(** An answer that is not an RPC event reaches its handler with the hop of the
    handler taken off. *)
Lemma proxy_local p a b rt :
  set_count Z.ltb a (mx_handlers p) = true ->
  match b with Esystem _ | Erpc _ => False | _ => True end ->
  proxy_handleEvent p (mkEvent b (push_back rt (handler_hop (kind p) a))) = Ok (Calls a (mkEvent b rt)).
Proof.
  intros Hc Hb. unfold proxy_handleEvent.
  destruct b; try done; cbn [ev_body]; unfold adopt_route; cbn [ev_body ev_route];
    rewrite pop_push, res_bind_ok, own_hop_eq, Hc; by destruct (kind p).
Qed.

(** An RPC answer: the inner event as the handler sees it. *)
Lemma proxy_remote p a esi ad b rt r0 :
  set_count Z.ltb a (mx_handlers p) = true ->
  proxy_handleEvent p
    (mkEvent (Erpc (rpcEvent.IncomingOnConnector esi ad (mkEvent b (push_back rt (handler_hop (kind p) a))))) r0)
  = Ok (Calls a (mkEvent (Erpc (rpcEvent.IncomingOnConnector esi ad
                   (mkEvent b (match kind p with Threaded => rt | Polled => push_back rt (handler_hop Polled a) end)))) rt)).
Proof.
  intros Hc. unfold proxy_handleEvent. cbn [ev_body]. unfold adopt_route. cbn [ev_body ev_route with_route].
  rewrite pop_push, res_bind_ok, own_hop_eq, Hc. by destruct (kind p).
Qed.

Lemma removed_handler p a b rt :
  set_sorted Z.ltb (mx_handlers p) ->
  match b with Esystem _ | Erpc _ => False | _ => True end ->
  proxy_handleEvent (removeObjectHandler a p) (mkEvent b (push_back rt (handler_hop (kind p) a))) = Ok (Returns false).
Proof.
  intros Hs Hb. unfold proxy_handleEvent.
  destruct b; try done; cbn [ev_body]; unfold adopt_route; cbn [ev_body ev_route kind removeObjectHandler mx_handlers];
    rewrite pop_push, res_bind_ok, own_hop_eq, (set_count_erase_eq Z.ltb a (mx_handlers p) Hs); reflexivity.
Qed.

Lemma threaded_never fuel p h dst e : h <> lit "local" -> threaded_sendEvent fuel p h dst e = None.
Proof. intros H. induction fuel as [|n IH]; cbn; [done|]. by rewrite bool_decide_false. Qed.

(** ** Properties *)

(** An RPC answer routed to a live handler is given to that handler by both
    proxies.  The threaded one also takes the handler's hop off the route of the
    answer inside, so that the answer can be passed on; the polled one leaves it
    there, so that passing the answer on leads back to the same handler. *)
Lemma rpc_answer_reaches_handler p a esi ad b rt r0 :
  set_count Z.ltb a (mx_handlers p) = true ->
  exists inner,
    proxy_handleEvent p
      (mkEvent (Erpc (rpcEvent.IncomingOnConnector esi ad (mkEvent b (push_back rt (handler_hop (kind p) a))))) r0)
    = Ok (Calls a (mkEvent (Erpc (rpcEvent.IncomingOnConnector esi ad (mkEvent b inner))) rt))
    /\ match kind p with
       | Threaded => inner = rt
       | Polled => pop_back inner = Ok (OBJECTHANDLER_POLLED a, rt)
       end.
Proof.
  intros Hc. eexists. split; [exact (proxy_remote p a esi ad b rt r0 Hc)|].
  destruct (kind p); [apply pop_push | reflexivity].
Qed.

Lemma rpc_answer_reaches_handler_witness :
  exists inner,
    proxy_handleEvent (addObjectHandler 33 (proxy_new Polled 9))
      (mkEvent (Erpc (rpcEvent.IncomingOnConnector 4 msa_default
                 (mkEvent (Ehttp httpEvent.GetBindPortsREQ) (push_back [LOCALSERVICE 1] (handler_hop Polled 33))))) [])
    = Ok (Calls 33 (mkEvent (Erpc (rpcEvent.IncomingOnConnector 4 msa_default
                 (mkEvent (Ehttp httpEvent.GetBindPortsREQ) inner))) [LOCALSERVICE 1]))
    /\ pop_back inner = Ok (OBJECTHANDLER_POLLED 33, [LOCALSERVICE 1]).
Proof.
  apply (rpc_answer_reaches_handler (addObjectHandler 33 (proxy_new Polled 9)) 33 4 msa_default
           (Ehttp httpEvent.GetBindPortsREQ) [LOCALSERVICE 1] []). reflexivity.
Defined.

(** An event for a handler that has been removed is dropped and no dead
    handler is called. *)
Lemma removed_handler_not_called p a b rt :
  set_sorted Z.ltb (mx_handlers p) ->
  match b with Esystem _ | Erpc _ => False | _ => True end ->
  proxy_handleEvent (removeObjectHandler a p) (mkEvent b (push_back rt (handler_hop (kind p) a))) = Ok (Returns false).
Proof. apply removed_handler. Qed.

Lemma removed_handler_not_called_witness :
  proxy_handleEvent (removeObjectHandler 33 (addObjectHandler 33 (proxy_new Threaded 9)))
    (mkEvent (Ehttp httpEvent.GetBindPortsREQ) (push_back [] (OBJECTHANDLER_THREADED 33))) = Ok (Returns false).
Proof.
  apply (removed_handler_not_called (addObjectHandler 33 (proxy_new Threaded 9)) 33 (Ehttp httpEvent.GetBindPortsREQ) []);
    [by repeat constructor | exact I].
Defined.

(** [ObjectHandlerThreaded::sendEvent] with a host that is not "local" calls
    itself with the same arguments: no number of calls is enough for it to
    return, while the polled handler sends the request. *)
Lemma threaded_send_never_returns init p h dst e :
  h <> lit "local" ->
  (forall fuel, threaded_sendEvent fuel p h dst e = None)
  /\ forall sa, init h = Ok sa -> polled_sendEvent init p h dst e = [sendObjectRequest_addr p sa dst e].
Proof.
  intros Hh. split; [intros fuel; by apply threaded_never|].
  intros sa Hi. unfold polled_sendEvent. by rewrite bool_decide_false, Hi.
Qed.

Lemma threaded_send_never_returns_witness :
  (forall fuel, threaded_sendEvent fuel (proxy_new Threaded 9) (lit "h:1") 7 (mkEvent (Ehttp httpEvent.GetBindPortsREQ) []) = None)
  /\ forall sa, (fun _ => Ok msa_default) (lit "h:1") = Ok sa ->
     polled_sendEvent (fun _ => Ok msa_default) (proxy_new Threaded 9) (lit "h:1") 7 (mkEvent (Ehttp httpEvent.GetBindPortsREQ) [])
     = [sendObjectRequest_addr (proxy_new Threaded 9) sa 7 (mkEvent (Ehttp httpEvent.GetBindPortsREQ) [])].
Proof.
  apply (threaded_send_never_returns (fun _ => Ok msa_default) (proxy_new Threaded 9) (lit "h:1") 7
           (mkEvent (Ehttp httpEvent.GetBindPortsREQ) [])). discriminate.
Defined.
