(* ===== verification/Cluster.v ===== *)
(** Two nodes: a request sent by [sendEvent(addr, service, e)] on one of them
    and its answer by [passEvent] on the other, through the RPC service
    (modules/rpc/rpcService.cpp), the Oscar service and the instance
    (main/CInstance.cpp). *)

From Stdlib Require Import ZArith Lia.
From stdpp Require Import base strings numbers list.
From S2P Require Import Prelude StdMap IoBuffer Codec OBuf Route CLib Sockaddr Events EventCodec.
From S2P Require Import SocketInfo Service Oscar Rpc Instance.
Open Scope Z_scope.

(** ** One packet over a socket *)

(** The frame of [p] handed to the socket by one Oscar service is passed on as
    that packet by the other, however the stream is cut into reads. *)
Definition carried (svc : Oscar) (esi : ptr) (ty : STREAMTYPE) (r : route_t) (p : list Z) : Prop :=
  forall pass chunks s,
    (forall e, pass e = None) -> inBuffer_ s = [] ->
    mjoin chunks = oscar_frame_bytes SB_SINGLEPACKET p ->
    exists s', oscar_feed_all svc esi ty r pass s chunks = Ok (s', [A_pass (oscar_packet_event ty esi p r)])
               /\ inBuffer_ s' = [].

Lemma packet_carried svc esi ty r p :
  str_dom p -> Z.of_nat (length p) <= maxPacketSize svc -> carried svc esi ty r p.
Proof.
  intros Hd Hl pass chunks s Hpass Hin Hch.
  destruct (oscar_feed_all_cuts svc esi ty r pass Hpass chunks s [p] []) as (s' & E & Hs').
  - rewrite Hin. reflexivity.
  - rewrite Hin, Hch. cbn [app].
    replace (oscar_frame_bytes SB_SINGLEPACKET p) with (oscar_stream [p])
      by (unfold oscar_stream; rewrite join_cons, join_nil, app_nil_r; reflexivity).
    apply oscar_cuts_stream. constructor; [done|constructor].
  - by exists s'.
Qed.

(** ** The sessions of the RPC service that are up *)

(** Session [i] is connected by the socket [esi] and has nothing waiting. *)
Definition session_up (s : Rpc) (i : nat) (esi : ptr) : Prop :=
  exists x, sess s !! i = Some x /\ s_esi x = esi /\ is_valid esi = true /\ outCache x = [].

Section Cluster.
Context (ntop : list Z -> list Z) (pton : list Z -> option (list Z)) `{!InetText ntop pton}.
Context (registerPluginDLL : list Z -> registry -> registry).
Context (loadService : list Z -> Utils_local -> res Utils_local).
Context (esi_id : ptr -> SOCKET_id) (request_for_connect : ptr -> option msockaddr_in).

Lemma addSend_up s i esi P :
  session_up s i esi -> exists s', addSendPacket (Some i) P s = (Ok tt, s', [oscar_packet s esi P]).
Proof.
  intros (x & Hx & <- & Hv & Hc). destruct (addSendPacket_ok i s x P Hx) as (s' & E & _).
  rewrite Hv, Hc in E. by exists s'.
Qed.

Lemma send_up s i esi newId addr dst q :
  map_find msa_lt addr (sa2sess s) = Some i -> session_up s i esi -> body_dom ntop pton (ev_body q) ->
  exists s', on_SendPacket ntop pton newId addr dst q s
             = (Ok true, s', [oscar_packet s esi (packet_send ntop pton dst q)]).
Proof.
  intros Hm Hup Hd. unfold on_SendPacket. rewrite M_bind_eq. cbn [gets]. rewrite Hm, M_bind_eq.
  cbn [mret M_ret]. rewrite M_bind_eq. unfold lift.
  destruct (pack_send ntop pton dst q Hd) as (o & -> & ->). rewrite M_bind_eq.
  destruct (addSend_up s i esi (packet_send ntop pton dst q) Hup) as (s' & ->).
  exists s'. reflexivity.
Qed.

Lemma pass_up s i esi sid e :
  map_find Z.ltb sid (sock2sess s) = Some i -> session_up s i esi -> body_dom ntop pton (ev_body e) ->
  exists s', on_PassPacket ntop pton sid e s = (Ok true, s', [oscar_packet s esi (packet_pass ntop pton e)]).
Proof.
  intros Hm Hup Hd. unfold on_PassPacket. rewrite M_bind_eq. unfold lift.
  destruct (pack_pass ntop pton e Hd) as (o & -> & Ho). rewrite M_bind_eq. cbn [gets]. rewrite Hm, M_bind_eq.
  rewrite Ho. destruct (addSend_up s i esi (packet_pass ntop pton e) Hup) as (s' & ->).
  exists s'. reflexivity.
Qed.

(** The answer a service builds for the request it got. *)
Definition answer (q : Event) (rb : event_body) : res Event :=
  rt ← poppedFrontRoute (ev_route q); Ok (mkEvent rb rt).

Lemma answer_arrived q sid dst rb :
  answer (arrived q sid dst) rb = Ok (mkEvent rb (push_back (ev_route q) (REMOTEADDR sid))).
Proof. unfold answer, arrived, poppedFrontRoute. cbn [ev_route with_route]. by rewrite pop_push. Qed.

Lemma pass_remote s u rb rt sid :
  m_terminating s = false -> runs s ServiceEnum.RPC u ->
  passEvent loadService (mkEvent rb (push_back rt (REMOTEADDR sid))) s
  = (Ok tt, add_delivery (u, mkEvent (Erpc (rpcEvent.PassPacket sid (mkEvent rb rt))) []) s, []).
Proof.
  intros Ht Hr. unfold passEvent. rewrite M_bind_eq. cbn [gets]. rewrite Ht, M_bind_eq.
  cbn [ev_route]. unfold lift. rewrite pop_push. cbv beta iota zeta.
  rewrite (forward_running loadService s ServiceEnum.RPC u _ Ht Hr). reflexivity.
Qed.
End Cluster.

(** ** Properties *)

(** C1: Remote request and reply.  A service of the client sends a request to a
    service of the server by address; the connection is up on both sides.  The
    client's RPC hands one packet to Oscar; however its bytes are cut into
    reads, the server's RPC gets it and sends the request to the service asked
    for, with the way back on its route.  The answer the service passes along
    that route goes to the server's RPC, travels as one packet, and the client's
    RPC sends it to the service that asked, with the rest of its route as it was
    when the request left. *)
Theorem rpc_request_reply
  ntop pton `{!InetText ntop pton} registerPluginDLL loadService esi_id request_for_connect
  (cs cs2 ss : Rpc) (inst : CInstance) (co so : Oscar) u i j ce se addr newId svc dst qb rb q0 rc rs :
  let q := mkEvent qb (push_back q0 (LOCALSERVICE svc)) in
  let a := mkEvent rb (push_back q0 (LOCALSERVICE svc)) in
  let p := packet_send ntop pton dst q in
  let p' := packet_pass ntop pton a in
  (* the sessions *)
  map_find msa_lt addr (sa2sess cs) = Some i -> session_up cs i ce ->
  map_find Z.ltb (esi_id se) (sock2sess ss) = Some j -> session_up ss j se ->
  request_for_connect ce = Some addr ->
  (* the events can be packed, the classes are registered, the packets fit *)
  in_range I32 dst -> ev_portable ntop pton q -> ev_portable ntop pton a ->
  knows (reg ss) q -> knows (reg cs2) a ->
  str_dom p -> Z.of_nat (length p) <= maxPacketSize so ->
  str_dom p' -> Z.of_nat (length p') <= maxPacketSize co ->
  (* the server's instance runs its RPC service *)
  m_terminating inst = false -> runs inst ServiceEnum.RPC u ->
  exists cs' ss' reply,
    on_SendPacket ntop pton newId addr dst q cs = (Ok true, cs', [oscar_packet cs ce p])
    /\ carried so se STREAMTYPE_ACCEPTED rs p
    /\ on_PacketOnAcceptor ntop pton registerPluginDLL esi_id se (Some p) ss
       = (Ok true, ss, [A_send dst (mkEvent (Erpc (rpcEvent.IncomingOnAcceptor se (arrived q (esi_id se) dst))) [])])
    /\ answer (arrived q (esi_id se) dst) rb = Ok reply
    /\ passEvent loadService reply inst
       = (Ok tt, add_delivery (u, mkEvent (Erpc (rpcEvent.PassPacket (esi_id se) a)) []) inst, [])
    /\ on_PassPacket ntop pton (esi_id se) a ss = (Ok true, ss', [oscar_packet ss se p'])
    /\ carried co ce STREAMTYPE_CONNECTED rc p'
    /\ on_PacketOnConnector ntop pton registerPluginDLL esi_id request_for_connect ce (Some p') cs2
       = (Ok true, cs2, [A_send svc (mkEvent (Erpc (rpcEvent.IncomingOnConnector ce addr (mkEvent rb q0))) [])]).
Proof.
  intros q a p p' Hci Hcup Hsj Hsup Hreq Hdst Hq Ha Hkq Hka Hdp Hlp Hdp' Hlp' Ht Hu.
  destruct (send_up ntop pton cs i ce newId addr dst q Hci Hcup (proj2 Hq)) as (cs' & E1).
  destruct (pass_up ntop pton ss j se (esi_id se) a Hsj Hsup (proj2 Ha)) as (ss' & E2).
  exists cs', ss', (mkEvent rb (push_back (ev_route q) (REMOTEADDR (esi_id se)))).
  split; [exact E1|]. split; [by apply packet_carried|].
  split; [by apply accept_send|]. split; [apply answer_arrived|].
  split; [by apply pass_remote|]. split; [exact E2|]. split; [by apply packet_carried|].
  exact (connect_pass ntop pton registerPluginDLL esi_id request_for_connect cs2 ce addr svc a q0 Hreq Hka Ha eq_refl).
Qed.

(** Two nodes that run the error dispatcher, the logger and HTTP. *)
Definition client0 : Rpc :=
  mkRpc [mkSession 40 88 []] [(Sa4 1 1, 0%nat)] [] [] [] [] 70 71 (mkSECURE false [] []) registry_modules.
Definition server0 : Rpc :=
  mkRpc [mkSession 50 99 []] [] [(50, 0%nat)] [] [] [] 80 81 (mkSECURE false [] []) registry_modules.
Definition node0 : CInstance :=
  mkInstance [(ServiceEnum.RPC, 81)] false true (mkLocals [] []) 100 [81] [].

Lemma rpc_request_reply_witness :
  let q := mkEvent (Ehttp httpEvent.GetBindPortsREQ) (push_back [] (LOCALSERVICE 21)) in
  let a := mkEvent (Ehttp (httpEvent.GetBindPortsRSP [Sa4 20480 16777343])) (push_back [] (LOCALSERVICE 21)) in
  let p := packet_send hex_ntop hex_pton 31 q in
  let p' := packet_pass hex_ntop hex_pton a in
  exists cs' ss' reply,
    on_SendPacket hex_ntop hex_pton 60 (Sa4 1 1) 31 q client0 = (Ok true, cs', [oscar_packet client0 88 p])
    /\ carried (mkOscar 1000 0) 99 STREAMTYPE_ACCEPTED [] p
    /\ on_PacketOnAcceptor hex_ntop hex_pton (fun _ r => r) (fun _ => 50) 99 (Some p) server0
       = (Ok true, server0, [A_send 31 (mkEvent (Erpc (rpcEvent.IncomingOnAcceptor 99 (arrived q 50 31))) [])])
    /\ answer (arrived q 50 31) (ev_body a) = Ok reply
    /\ passEvent (fun _ l => Ok l) reply node0
       = (Ok tt, add_delivery (81, mkEvent (Erpc (rpcEvent.PassPacket 50 a)) []) node0, [])
    /\ on_PassPacket hex_ntop hex_pton 50 a server0 = (Ok true, ss', [oscar_packet server0 99 p'])
    /\ carried (mkOscar 1000 0) 88 STREAMTYPE_CONNECTED [] p'
    /\ on_PacketOnConnector hex_ntop hex_pton (fun _ r => r) (fun _ => 50) (fun _ => Some (Sa4 1 1)) 88 (Some p') client0
       = (Ok true, client0, [A_send 21 (mkEvent (Erpc (rpcEvent.IncomingOnConnector 88 (Sa4 1 1) (mkEvent (ev_body a) []))) [])]).
Proof.
  apply (rpc_request_reply hex_ntop hex_pton (fun _ r => r) (fun _ l => Ok l) (fun _ => 50) (fun _ => Some (Sa4 1 1))
           client0 client0 server0 node0 (mkOscar 1000 0) (mkOscar 1000 0) 81 0 0 88 99 (Sa4 1 1) 60 21 31
           (Ehttp httpEvent.GetBindPortsREQ) (Ehttp (httpEvent.GetBindPortsRSP [Sa4 20480 16777343])) [] [] []);
    try reflexivity.
  - by eexists.
  - by eexists.
  - vm_compute. intuition congruence.
  - split; [|exact I]. split; [|by vm_compute].
    constructor; [split; [vm_compute; intuition congruence | intros p; discriminate]|constructor].
  - split; [|apply ports_rsp_portable]. split; [|by vm_compute].
    constructor; [split; [vm_compute; intuition congruence | intros p; discriminate]|constructor].
  - split; [reflexivity|]. exists K_GetBindPortsREQ. split; [reflexivity | by vm_compute].
  - split; [reflexivity|]. exists K_GetBindPortsRSP. split; [reflexivity | by vm_compute].
  - by vm_compute.
  - by vm_compute.
  - split; [by vm_compute|]. split; [apply list_elem_of_here|discriminate].
Defined.
