(* ===== verification/Bin2c.v ===== *)
(** * The build tool bin2c

    tools/bin2c/bin2c.c turns files into C arrays.  The globals of the program are
    a record, a run that ends is a value ([Exit], [Aborted] for a failed assert,
    [Undefined]), and printf works on the format strings of the source.  What the C
    library may answer (a file that cannot be opened, a full disk, no memory) is a
    record of parameters.  The specification is a reader of C texts: what bin2c
    writes declares the bytes of the files. *)
From stdpp Require Import base gmap strings numbers list.
From S2P Require Import Prelude CLib.
#[local] Open Scope Z_scope.

(** ** The C library *)

(** How a run goes on. *)
Inductive result (A : Type) : Type :=
| Done (a : A)
| Exit (code : Z)
| Aborted
| Undefined.
Arguments Done {A} _.
Arguments Exit {A} _.
Arguments Aborted {A}.
Arguments Undefined {A}.

(** A stream opened for writing: its file, what was written, whether it is open. *)
Record stream : Type := mkStream { s_name : list Z; s_text : list Z; s_open : bool }.

(** The failures of the library: the message of [errno], if the call fails. *)
Record clib : Type := mkClib {
  fopen_error : list Z -> option (list Z);
  write_error : list Z -> list Z -> option (list Z);
  fclose_error : list Z -> option (list Z);
  remove_error : list Z -> option (list Z);
  fseek_error : list Z -> option (list Z);
  read_error : list Z -> Z -> bool;
  malloc_error : Z -> option (list Z)
}.

(** A conversion of a format string, and its argument. *)
Inductive directive : Type := Literal (c : Z) | Str | Int | Long | Hex2 | Bad.
Inductive arg : Type := AStr (s : option (list Z)) | AInt (z : Z).

Fixpoint directives (f : list Z) : list directive :=
  match f with
  | [] => []
  | c :: r =>
    if c =? 37
    then match r with
         | [] => [Bad]
         | c1 :: r1 =>
           if c1 =? 37 then Literal 37 :: directives r1
           else if c1 =? 115 then Str :: directives r1
           else if c1 =? 100 then Int :: directives r1
           else if c1 =? 108
           then match r1 with
                | c2 :: r2 => if c2 =? 100 then Long :: directives r2 else [Bad]
                | [] => [Bad]
                end
           else if c1 =? 46
           then match r1 with
                | c2 :: c3 :: r3 => if (c2 =? 50) && (c3 =? 88) then Hex2 :: directives r3 else [Bad]
                | _ => [Bad]
                end
           else [Bad]
         end
    else Literal c :: directives r
  end.

Definition xdigit (d : Z) : Z := if d <? 10 then d + 48 else d + 55.

Fixpoint xdigits (fuel : nat) (n : Z) : list Z :=
  match fuel with
  | O => []
  | S f => if n <? 16 then [xdigit n] else xdigits f (n / 16) ++ [xdigit (n mod 16)]
  end.

Definition at_least_2 (ds : list Z) : list Z := if (length ds <? 2)%nat then 48 :: ds else ds.

(** printf: [None] when a conversion has no argument of its kind. *)
Fixpoint vformat (f : list directive) (args : list arg) : option (list Z) :=
  match f with
  | [] => Some []
  | Literal c :: r => (cons c) <$> vformat r args
  | Str :: r => match args with
                | AStr s :: more => (app (default (lit "(null)") (c_str <$> s))) <$> vformat r more
                | _ => None
                end
  | Int :: r => match args with AInt z :: more => (app (to_string (cast I32 z))) <$> vformat r more | _ => None end
  | Long :: r => match args with AInt z :: more => (app (to_string z)) <$> vformat r more | _ => None end
  | Hex2 :: r => match args with AInt z :: more => (app (at_least_2 (xdigits 8 (cast U32 z)))) <$> vformat r more | _ => None end
  | Bad :: _ => None
  end.

(** ** Global variables *)

Record globals : Type := mkGlobals {
  disk : gmap (list Z) (list Z);
  outputFile : option stream;
  outputFileName : option (list Z);
  headerFile : option stream;
  headerFileName : option (list Z);
  symbolName : option (list Z);
  headerSymbol : option (list Z);
  createMacro : bool;
  createTable : bool;
  tableStr : option (list Z);
  tableStrSize : Z;
  tableCount : Z;
  errno : option (list Z);
  stdout : list Z;
  stderr : list Z
}.

Definition set_disk (v : gmap (list Z) (list Z)) (g : globals) : globals :=
    mkGlobals v (outputFile g) (outputFileName g) (headerFile g) (headerFileName g) (symbolName g)
    (headerSymbol g) (createMacro g) (createTable g) (tableStr g) (tableStrSize g) (tableCount g) (errno g)
    (stdout g) (stderr g).
Definition set_outputFile (v : option stream) (g : globals) : globals :=
    mkGlobals (disk g) v (outputFileName g) (headerFile g) (headerFileName g) (symbolName g) (headerSymbol g)
    (createMacro g) (createTable g) (tableStr g) (tableStrSize g) (tableCount g) (errno g) (stdout g) (stderr
    g).
Definition set_outputFileName (v : option (list Z)) (g : globals) : globals :=
    mkGlobals (disk g) (outputFile g) v (headerFile g) (headerFileName g) (symbolName g) (headerSymbol g)
    (createMacro g) (createTable g) (tableStr g) (tableStrSize g) (tableCount g) (errno g) (stdout g) (stderr
    g).
Definition set_headerFile (v : option stream) (g : globals) : globals :=
    mkGlobals (disk g) (outputFile g) (outputFileName g) v (headerFileName g) (symbolName g) (headerSymbol g)
    (createMacro g) (createTable g) (tableStr g) (tableStrSize g) (tableCount g) (errno g) (stdout g) (stderr
    g).
Definition set_headerFileName (v : option (list Z)) (g : globals) : globals :=
    mkGlobals (disk g) (outputFile g) (outputFileName g) (headerFile g) v (symbolName g) (headerSymbol g)
    (createMacro g) (createTable g) (tableStr g) (tableStrSize g) (tableCount g) (errno g) (stdout g) (stderr
    g).
Definition set_symbolName (v : option (list Z)) (g : globals) : globals :=
    mkGlobals (disk g) (outputFile g) (outputFileName g) (headerFile g) (headerFileName g) v (headerSymbol g)
    (createMacro g) (createTable g) (tableStr g) (tableStrSize g) (tableCount g) (errno g) (stdout g) (stderr
    g).
Definition set_headerSymbol (v : option (list Z)) (g : globals) : globals :=
    mkGlobals (disk g) (outputFile g) (outputFileName g) (headerFile g) (headerFileName g) (symbolName g) v
    (createMacro g) (createTable g) (tableStr g) (tableStrSize g) (tableCount g) (errno g) (stdout g) (stderr
    g).
Definition set_createMacro (v : bool) (g : globals) : globals :=
    mkGlobals (disk g) (outputFile g) (outputFileName g) (headerFile g) (headerFileName g) (symbolName g)
    (headerSymbol g) v (createTable g) (tableStr g) (tableStrSize g) (tableCount g) (errno g) (stdout g)
    (stderr g).
Definition set_createTable (v : bool) (g : globals) : globals :=
    mkGlobals (disk g) (outputFile g) (outputFileName g) (headerFile g) (headerFileName g) (symbolName g)
    (headerSymbol g) (createMacro g) v (tableStr g) (tableStrSize g) (tableCount g) (errno g) (stdout g)
    (stderr g).
Definition set_table (t : option (list Z)) (size count : Z) (g : globals) : globals :=
    mkGlobals (disk g) (outputFile g) (outputFileName g) (headerFile g) (headerFileName g) (symbolName g)
    (headerSymbol g) (createMacro g) (createTable g) t size count (errno g) (stdout g) (stderr g).
Definition set_errno (v : option (list Z)) (g : globals) : globals :=
    mkGlobals (disk g) (outputFile g) (outputFileName g) (headerFile g) (headerFileName g) (symbolName g)
    (headerSymbol g) (createMacro g) (createTable g) (tableStr g) (tableStrSize g) (tableCount g) v (stdout g)
    (stderr g).
Definition set_stdout (v : list Z) (g : globals) : globals :=
    mkGlobals (disk g) (outputFile g) (outputFileName g) (headerFile g) (headerFileName g) (symbolName g)
    (headerSymbol g) (createMacro g) (createTable g) (tableStr g) (tableStrSize g) (tableCount g) (errno g) v
    (stderr g).
Definition set_stderr (v : list Z) (g : globals) : globals :=
    mkGlobals (disk g) (outputFile g) (outputFileName g) (headerFile g) (headerFileName g) (symbolName g)
    (headerSymbol g) (createMacro g) (createTable g) (tableStr g) (tableStrSize g) (tableCount g) (errno g)
    (stdout g) v.

(** ** The monad of the program *)

Definition C (A : Type) : Type := globals -> result A * globals.

#[export] Instance C_ret : MRet C := fun A a g => (Done a, g).
#[export] Instance C_bind : MBind C := fun A B f m g =>
  match m g with
  | (Done a, g') => f a g'
  | (Exit c, g') => (Exit c, g')
  | (Aborted, g') => (Aborted, g')
  | (Undefined, g') => (Undefined, g')
  end.

Definition get : C globals := fun g => (Done g, g).
Definition modify (f : globals -> globals) : C unit := fun g => (Done tt, f g).
Definition stop {A} (r : result A) : C A := fun g => (r, g).
Definition when (b : bool) (m : C unit) : C unit := if b then m else mret tt.

(** The two files the program writes. *)
Inductive which : Type := Output | Header.

Definition file_of (w : which) (g : globals) : option stream :=
  match w with Output => outputFile g | Header => headerFile g end.
Definition name_of (w : which) (g : globals) : option (list Z) :=
  match w with Output => outputFileName g | Header => headerFileName g end.
Definition set_file (w : which) : option stream -> globals -> globals :=
  match w with Output => set_outputFile | Header => set_headerFile end.
Definition set_name (w : which) : option (list Z) -> globals -> globals :=
  match w with Output => set_outputFileName | Header => set_headerFileName end.

Definition is_some {A} (o : option A) : bool := match o with Some _ => true | None => false end.
Definition fmt (s : string) : list Z := lit s.
Definition nl : list Z := [10].

(** A call that failed leaves its message in [errno]. *)
Definition failed (e : option (list Z)) : C bool :=
  match e with
  | Some m => _ ← modify (set_errno (Some m)); mret true
  | None => mret false
  end.

Definition print (f : list Z) (args : list arg) : C (list Z) :=
  match vformat (directives f) args with Some t => mret t | None => stop Undefined end.

Definition put_stderr (t : list Z) : C unit := modify (fun g => set_stderr (stderr g ++ t) g).
Definition put_stdout (t : list Z) : C unit := modify (fun g => set_stdout (stdout g ++ t) g).

(** ** Messages *)

Definition versionInfo : list Z :=
  lit "bin2c version 1.1" ++ nl ++ nl
  ++ lit "Visit sourceforge.net/projects/bin2c to for new versions." ++ nl
  ++ lit "This program is public domain, do whatever you want with it." ++ nl.

Definition commandLineHelp : list Z :=
  lit "Usage: bin2c [OPTION...] FILE [FILE...]" ++ nl
  ++ lit "bin2c creates a C soures and headers from binary files." ++ nl ++ nl
  ++ lit "Examples:" ++ nl
  ++ lit "  bin2c -o foo.h bar.bin              # Create 'foo.h' from the contents of" ++ nl
  ++ lit "                                        'bar.bin'" ++ nl
  ++ lit "  bin2c -o foo.h file1 file2          # Create 'foo.h' from the contents of" ++ nl
  ++ lit "                                        'file1' and 'file2'" ++ nl
  ++ lit "  bin2c -d foo.h -o foo.c bar.bin     # Create 'foo.c' and 'foo.h' from the" ++ nl
  ++ lit "                                        contents of 'bar.bin'" ++ nl
  ++ lit "  bin2c -t -d foo.h -o foo.c bar.bin  # Same as above with the addition of" ++ nl
  ++ lit "                                        a file information table" ++ nl ++ nl
  ++ lit "Options:" ++ nl
  ++ lit "  -d, --header <file name>  Name a header file (A header file will not be" ++ nl
  ++ lit "                            created  unless explicitly named)" ++ nl
  ++ lit "  -h, --help                Print this command line help and exit" ++ nl
  ++ lit "                            immediately" ++ nl
  ++ lit "  -o, --output <file name>  Name an output file" ++ nl
  ++ lit "  -m, --macro               Create the size definition as a macro instead" ++ nl
  ++ lit "                            of a const" ++ nl
  ++ lit "  -n, --name <symbol name>  Name the symbol to be defined" ++ nl
  ++ [9] ++ lit "  -t, --table <symbol name> Create file information table with original" ++ nl
  ++ lit "                            file names" ++ nl
  ++ lit "  -v, --version             Print version information and exit immediately" ++ nl ++ nl
  ++ lit "Visit sourceforge.net/projects/bin2c to for new versions." ++ nl
  ++ lit "This program is public domain, do whatever you want with it." ++ nl.

Definition tableHead : list Z :=
  nl ++ lit "/* File table comprising original file name, address and size */" ++ nl
  ++ lit "typedef struct {" ++ nl
  ++ [9] ++ lit "char *entryName;" ++ nl
  ++ [9] ++ lit "const char *data;" ++ nl
  ++ [9] ++ lit "long int size;" ++ nl
  ++ lit "} TFileTableEntry;" ++ nl ++ nl
  ++ lit "extern const unsigned int fileTableSize;" ++ nl
  ++ lit "extern const TFileTableEntry fileTable[];" ++ nl.

Definition tableStart : list Z := nl ++ lit "const TFileTableEntry fileTable[] = {" ++ nl.
Definition tableEnd : list Z := nl ++ lit "};" ++ nl ++ lit "const unsigned int fileTableSize = %d;" ++ nl.

Definition bytesPerLine : Z := 16.
Definition indentString : list Z := lit "    ".
Definition outputFormatBase : list Z := lit "0x%.2X".
Definition outputFormat : list Z := outputFormatBase ++ lit ", ".
Definition outputFormatEOL : list Z := outputFormatBase ++ lit "," ++ nl.
Definition outputFormatEOF : list Z := outputFormatBase ++ nl.
Definition externOutputDefinition : list Z := lit "extern %s %s[%d];" ++ nl.
Definition sizeDefinition : list Z := lit "const long int %s_size = %d;" ++ nl.
Definition externSizeDefinition : list Z := lit "extern const long int %s_size;" ++ nl.
Definition sizeMacroDefinition : list Z := lit "#define %s_size %d" ++ nl.
Definition indexItemFirst : list Z := [9] ++ lit "{" ++ [34] ++ lit "%s" ++ [34] ++ lit ", %s, %ld}".
Definition indexItemNext : list Z := lit "," ++ nl ++ indexItemFirst.
Definition typeName : list Z := lit "const unsigned char".

Definition cantOpen : list Z := lit "Can't open file '%s'".
Definition cantClose : list Z := lit "Can't close file '%s'".
Definition cantRemove : list Z := lit "Can't remove file '%s'".
Definition cantWrite : list Z := lit "Can't write to file '%s'".
Definition noOutputFilesAreNamed : list Z := lit "No output files are named".
Definition noHeaderFilesAreNamed : list Z := lit "No header files are named".
Definition cantMalloc : list Z := lit "Can't allocate memory for '%s'".
Definition cantSeek : list Z := lit "Can't seek in the file '%s'".
Definition cantDetermine : list Z := lit "Can't determine the file size of '%s'".
Definition cantRead : list Z := lit "Can't read from file %s".
Definition unknownOption : list Z := lit "Unknown option '%s'".
Definition tryHelp : list Z := lit "Try 'bin2c --help' for more information." ++ nl.
Definition noSymbolName : list Z := lit "No symbol name is given".
Definition notValidId : list Z := lit "'%s' is not a valid identifier".
Definition symbolNameGiven : list Z := lit "Symbol name is given twice".

Definition EXIT_SUCCESS : Z := 0.
Definition EXIT_FAILURE : Z := 1.

Section Program.
Context (lib : clib).

(** ** Files *)

(** What is written to a stream is in its file when the stream is closed. *)
Definition fclose (w : which) : C bool :=
  g ← get;
  match file_of w g with
  | Some s =>
    if s_open s
    then _ ← modify (set_file w (Some (mkStream (s_name s) (s_text s) false)));
         _ ← modify (fun g => set_disk (<[s_name s := s_text s]> (disk g)) g);
         failed (fclose_error lib (s_name s))
    else stop Undefined
  | None => stop Undefined
  end.

Definition fopen_w (name : list Z) : C (option stream) :=
  e ← failed (fopen_error lib name);
  if e : bool then mret None
  else _ ← modify (fun g => set_disk (<[name := []]> (disk g)) g); mret (Some (mkStream name [] true)).

Definition fopen_r (name : list Z) : C (option (list Z)) :=
  e ← failed (fopen_error lib name);
  if e : bool then mret None
  else g ← get;
       match disk g !! name with
       | Some d => mret (Some d)
       | None => _ ← modify (set_errno (Some (lit "No such file or directory"))); mret None
       end.

Definition remove (name : option (list Z)) : C bool :=
  match name with
  | None => stop Undefined
  | Some n =>
    e ← failed (remove_error lib n);
    if e : bool then mret true
    else g ← get;
         if is_some (disk g !! n)
         then _ ← modify (set_disk (delete n (disk g))); mret false
         else failed (Some (lit "No such file or directory"))
  end.

Definition malloc (n : Z) : C bool := e ← failed (malloc_error lib n); mret (negb e).

(** The byte at [pos] of an input stream, or EOF. *)
Definition fgetc (name d : list Z) (pos : Z) : Z :=
  if read_error lib name pos then -1 else default (-1) (d !! Z.to_nat pos).

(** ** Errors *)

Definition vprintfError (format : list Z) (args : list arg) : C unit :=
  _ ← put_stderr (lit "bin2c: ");
  t ← print format args;
  _ ← put_stderr t;
  g ← get;
  match errno g with
  | Some m => _ ← put_stderr (lit ": " ++ m ++ nl); modify (set_errno None)
  | None => put_stderr nl
  end.

Definition printfError : list Z -> list arg -> C unit := vprintfError.

Definition close_and_remove (w : which) : C unit :=
  g ← get;
  when (is_some (file_of w g))
       (e ← fclose w;
        _ ← when e (printfError cantClose [AStr (name_of w g)]);
        r ← remove (name_of w g);
        when r (printfError cantRemove [AStr (name_of w g)])).

Definition panic : C unit :=
  _ ← close_and_remove Output;
  _ ← close_and_remove Header;
  stop (Exit EXIT_FAILURE).

Definition check (condition : bool) (format : list Z) (args : list arg) : C unit :=
  if condition then mret tt else _ ← vprintfError format args; panic.

(** Writes to a file and checks for errors. *)
Definition vfprintf (w : which) (format : list Z) (args : list arg) : C unit :=
  g ← get;
  match file_of w g with
  | Some s =>
    if s_open s
    then t ← print format args;
         let s' := mkStream (s_name s) (s_text s ++ t) true in
         _ ← modify (set_file w (Some s'));
         e ← failed (write_error lib (s_name s') (s_text s'));
         check (negb e) cantWrite [AStr (name_of w g)]
    else stop Undefined
  | None => stop Undefined
  end.

Definition output : list Z -> list arg -> C unit := vfprintf Output.
Definition header : list Z -> list arg -> C unit := vfprintf Header.

(** ** Symbols *)

Definition alnum (c : Z) : bool :=
  ((97 <=? c) && (c <=? 122)) || ((65 <=? c) && (c <=? 90)) || ((48 <=? c) && (c <=? 57)).

Definition symbol_of (fileName : list Z) : list Z :=
  match (fun c => if alnum c then c else 95) <$> c_str fileName with
  | c :: r => (if (48 <=? c) && (c <=? 57) then 95 else c) :: r
  | [] => []
  end.

Definition fileNameToSymbol (fileName : list Z) : C (list Z) :=
  ok ← malloc (Z.of_nat (length (c_str fileName)) + 1);
  _ ← check ok cantMalloc [AStr (Some (lit "the symbol name"))];
  mret (symbol_of fileName).

(** ** The table of files *)

(** [buf] has 256 characters, the terminating one included; [strncpy] writes the
    text and its terminator into the block of [tableStrSize] characters. *)
Definition addTableItem (fileName symbolName : list Z) (size : Z) : C unit :=
  g ← get;
  let count := tableCount g + 1 in
  _ ← modify (set_table (tableStr g) (tableStrSize g) count);
  buf ← print (if count =? 1 then indexItemFirst else indexItemNext) [AStr (Some fileName); AStr (Some symbolName); AInt size];
  let nBytes := Z.of_nat (length buf) in
  if 256 <=? nBytes then stop Undefined
  else match tableStr g with
       | None =>
         ok ← malloc (nBytes + 1);
         _ ← check ok cantMalloc [AStr (Some (lit "file table "))];
         modify (set_table (Some buf) (nBytes + 1) count)
       | Some old =>
         let prevTableStrSize := tableStrSize g in
         ok ← malloc (prevTableStrSize + nBytes);
         _ ← check ok cantMalloc [AStr (Some (lit " file table "))];
         modify (set_table (Some (take (Z.to_nat (prevTableStrSize - 1)) old ++ buf)) (prevTableStrSize + nBytes) count)
       end.

(** The table itself is used as a format. *)
Definition finishAndWriteTable : C unit :=
  g ← get;
  _ ← (if is_some (headerFile g) then header tableHead [] else output tableHead []);
  _ ← output tableStart [];
  _ ← match tableStr g with Some t => output t [] | None => stop Undefined end;
  output tableEnd [AInt (tableCount g)].

(** ** An input file *)

Fixpoint write_contents (n : nat) (fileName d : list Z) (i j to : Z) : C unit :=
  match n with
  | O => mret tt
  | S n' =>
    let byte := fgetc fileName d i in
    _ ← check (negb (byte =? -1)) cantRead [AStr (Some fileName)];
    _ ← when (j =? 1) (output indentString []);
    _ ← (if i =? to then output outputFormatEOF [AInt byte]
         else if j =? bytesPerLine then output outputFormatEOL [AInt byte]
         else output outputFormat [AInt byte]);
    write_contents n' fileName d (i + 1) (if bytesPerLine <? j + 1 then 1 else j + 1) to
  end.

Definition symbol_for (fileName : list Z) : C (list Z) :=
  g ← get;
  match symbolName g with
  | Some s => mret s
  | None => s ← fileNameToSymbol fileName; _ ← modify (set_symbolName (Some s)); mret s
  end.

(** The last position to copy: [to], or the last byte of the file for -1. *)
Definition last_position (fileName d : list Z) (to : Z) : C Z :=
  if to =? -1
  then e ← failed (fseek_error lib fileName);
       _ ← check (negb e) cantSeek [AStr (Some fileName)];
       let size := Z.of_nat (length d) in
       _ ← check (0 <=? size) cantDetermine [AStr (Some fileName)];
       mret (size - 1)
  else mret to.

Definition write_sizes (symbol : list Z) (size : Z) : C unit :=
  g ← get;
  if is_some (headerFile g)
  then if createMacro g then header sizeMacroDefinition [AStr (Some symbol); AInt size]
       else _ ← header externSizeDefinition [AStr (Some symbol)];
            output sizeDefinition [AStr (Some symbol); AInt size]
  else if createMacro g then output sizeMacroDefinition [AStr (Some symbol); AInt size]
       else output sizeDefinition [AStr (Some symbol); AInt size].

Definition contents_comment : list Z := nl ++ lit "/* Contents of file %s */" ++ nl.

Definition processFile (fileName : list Z) (from to : Z) : C unit :=
  g ← get;
  _ ← check (is_some (outputFile g)) noOutputFilesAreNamed [];
  _ ← output contents_comment [AStr (Some fileName)];
  _ ← when (is_some (headerFile g)) (header contents_comment [AStr (Some fileName)]);
  symbol ← symbol_for fileName;
  inputFile ← fopen_r fileName;
  match inputFile with
  | None => check false cantOpen [AStr (Some fileName)]
  | Some d =>
    to ← last_position fileName d to;
    if negb (from <=? to - 1) then stop Aborted
    else
      e ← failed (fseek_error lib fileName);
      _ ← check (negb e) cantSeek [AStr (Some fileName)];
      let size := to - from + 1 in
      _ ← write_sizes symbol size;
      _ ← output (lit "%s %s[%d] = {" ++ nl) [AStr (Some typeName); AStr (Some symbol); AInt size];
      _ ← when (is_some (headerFile g)) (header externOutputDefinition [AStr (Some typeName); AStr (Some symbol); AInt size]);
      _ ← when (createTable g) (addTableItem fileName symbol size);
      _ ← write_contents (Z.to_nat size) fileName d from 1 to;
      _ ← output (lit "};" ++ nl) [];
      modify (set_symbolName None)
  end.

(** ** Options *)

Definition handleUnknownOption (s : list Z) : C unit :=
  _ ← printfError unknownOption [AStr (Some s)]; _ ← put_stderr tryHelp; panic.

Definition generated : list Z := lit "/* Generated by bin2c, do not edit manually */" ++ nl.

Definition openOutputFile (fileName : option (list Z)) : C unit :=
  match fileName with
  | None => _ ← printfError noOutputFilesAreNamed []; _ ← put_stderr tryHelp; panic
  | Some name =>
    g ← get;
    _ ← when (is_some (outputFile g)) (e ← fclose Output; check (negb e) cantClose [AStr (outputFileName g)]);
    f ← fopen_w name;
    _ ← modify (set_outputFile f);
    _ ← check (is_some f) cantOpen [AStr (outputFileName g)];
    _ ← modify (set_outputFileName (Some name));
    _ ← output generated [];
    when (is_some (headerFile g) && createTable g)
         (output (nl ++ lit "#include " ++ [34] ++ lit "%s" ++ [34] ++ nl) [AStr (headerFileName g)])
  end.

Definition header_end : list Z := nl ++ lit "#endif    /* __%s_included */" ++ nl.

(** The end of the include guard, then the file is closed. *)
Definition close_header : C unit :=
  g ← get;
  when (is_some (headerFile g))
       (_ ← header header_end [AStr (headerSymbol g)];
        _ ← modify (set_headerSymbol None);
        e ← fclose Header;
        check (negb e) cantClose [AStr (headerFileName g)]).

Definition openHeaderFile (fileName : option (list Z)) : C unit :=
  match fileName with
  | None => _ ← printfError noHeaderFilesAreNamed []; _ ← put_stderr tryHelp; panic
  | Some name =>
    _ ← close_header;
    g ← get;
    f ← fopen_w name;
    _ ← modify (set_headerFile f);
    _ ← check (is_some f) cantOpen [AStr (headerFileName g)];
    _ ← modify (set_headerFileName (Some name));
    symbol ← fileNameToSymbol name;
    _ ← modify (set_headerSymbol (Some symbol));
    _ ← header generated [];
    _ ← header (lit "#ifndef __%s_included" ++ nl) [AStr (Some symbol)];
    header (lit "#define __%s_included" ++ nl) [AStr (Some symbol)]
  end.

Definition id_start (c : Z) : bool := ((97 <=? c) && (c <=? 122)) || ((65 <=? c) && (c <=? 90)) || (c =? 95).
Definition id_char (c : Z) : bool := id_start c || ((48 <=? c) && (c <=? 57)).

Definition setSymbolName (name : option (list Z)) : C unit :=
  g ← get;
  if is_some (symbolName g)
  then _ ← printfError symbolNameGiven []; _ ← put_stderr tryHelp; panic
  else match name with
       | None => _ ← printfError noSymbolName []; _ ← put_stderr tryHelp; panic
       | Some n =>
         _ ← check (match c_str n with c :: _ => id_start c | [] => false end) notValidId [AStr (Some n)];
         _ ← check (forallb id_char (tail (c_str n))) notValidId [AStr (Some n)];
         modify (set_symbolName (Some n))
       end.

Definition is_arg (s : string) (a : list Z) : bool := bool_decide (c_str a = lit s).

(** The character of an argument at a position, 0 at its end. *)
Definition char_at (a : list Z) (i : nat) : Z := default 0 (c_str a !! i).

Fixpoint process_args (args : list (list Z)) : C unit :=
  match args with
  | [] => mret tt
  | a :: rest =>
    let value := head rest in
    let after_value := match rest with [] => mret tt | _ :: r => process_args r end in
    if char_at a 0 =? 45
    then let c := char_at a 1 in
         if c =? 45
         then if is_arg "--output" a then _ ← openOutputFile value; after_value
              else if is_arg "--header" a then _ ← openHeaderFile value; after_value
              else if is_arg "--macro" a then _ ← modify (set_createMacro true); process_args rest
              else if is_arg "--table" a then _ ← modify (set_createTable true); process_args rest
              else if is_arg "--name" a then _ ← setSymbolName value; after_value
              else _ ← handleUnknownOption a; process_args rest
         else if c =? 111 then _ ← openOutputFile value; after_value
         else if c =? 100 then _ ← openHeaderFile value; after_value
         else if c =? 109 then _ ← modify (set_createMacro true); process_args rest
         else if c =? 110 then _ ← setSymbolName value; after_value
         else if c =? 116 then _ ← modify (set_createTable true); process_args rest
         else _ ← handleUnknownOption a; process_args rest
    else _ ← processFile a 0 (-1); process_args rest
  end.

(** [main], on the arguments after the name of the program. *)
Definition main (argv : list (list Z)) : C unit :=
  if bool_decide (argv = []) || existsb (fun a => is_arg "-h" a || is_arg "--help" a) argv
  then _ ← put_stdout commandLineHelp; stop (Exit EXIT_SUCCESS)
  else if existsb (fun a => is_arg "-v" a || is_arg "--version" a) argv
  then _ ← put_stdout versionInfo; stop (Exit EXIT_SUCCESS)
  else
    _ ← process_args argv;
    g ← get;
    _ ← when (createTable g) finishAndWriteTable;
    _ ← close_header;
    _ ← (g ← get;
         when (is_some (outputFile g)) (e ← fclose Output; check (negb e) cantClose [AStr (outputFileName g)]));
    stop (Exit EXIT_SUCCESS).
End Program.

(** A library whose calls do not fail. *)
Definition reliable : clib :=
  mkClib (fun _ => None) (fun _ _ => None) (fun _ => None) (fun _ => None) (fun _ => None) (fun _ _ => false) (fun _ => None).

(** The globals before [main]. *)
Definition globals_init (d : gmap (list Z) (list Z)) : globals :=
  mkGlobals d None None None None None None false false None 0 0 None [] [].
