(* ===== verification/Bin2cText.v ===== *)
(** * What bin2c writes, read as C

    A scanner and a reader for declarations of C, made from the rules of the
    language and not from bin2c, and the theorem that the files written by
    [Bin2c.main] declare the bytes of the input files. *)
From stdpp Require Import base gmap strings numbers list.
From S2P Require Import Prelude CLib HexUri Bin2c.
#[local] Open Scope Z_scope.

(** ** Tokens of C *)

Inductive token : Type :=
| Tid (s : list Z)
| Tnum (n : Z)
| Tstr (s : list Z)
| Tpunct (c : Z)
| Tdirective (line : list Z).

(** The state of the scanner: between tokens, inside one, or in a comment. *)
Inductive scanner : Type :=
| Start
| In_id (s : list Z)
| In_num (s : list Z)
| In_str (s : list Z)
| In_escape (s : list Z)
| Slash
| In_comment
| Star
| In_directive (s : list Z).

Definition start_step (c : Z) : list token * scanner :=
  if isspace c then ([], Start)
  else if id_start c then ([], In_id [c])
  else if isdigit c then ([], In_num [c])
  else if c =? 34 then ([], In_str [])
  else if c =? 47 then ([], Slash)
  else if c =? 35 then ([], In_directive [])
  else ([Tpunct c], Start).

(** The value of a constant: hexadecimal, octal or decimal. *)
Definition number (s : list Z) : Z :=
  match s with
  | 48 :: 120 :: r => scan_hex 0 r
  | 48 :: r => foldl (fun a c => 8 * a + (c - 48)) 0 r
  | _ => scan_digits 0 s
  end.

Definition then_start (t : token) (c : Z) : list token * scanner :=
  let '(ts, st) := start_step c in (t :: ts, st).

Definition scan_step (st : scanner) (c : Z) : list token * scanner :=
  match st with
  | Start => start_step c
  | In_id s => if id_char c then ([], In_id (s ++ [c])) else then_start (Tid s) c
  | In_num s => if id_char c then ([], In_num (s ++ [c])) else then_start (Tnum (number s)) c
  | In_str s => if c =? 34 then ([Tstr s], Start) else if c =? 92 then ([], In_escape s) else ([], In_str (s ++ [c]))
  | In_escape s => ([], In_str (s ++ [c]))
  | Slash => if c =? 42 then ([], In_comment) else then_start (Tpunct 47) c
  | In_comment => if c =? 42 then ([], Star) else ([], In_comment)
  | Star => if c =? 47 then ([], Start) else if c =? 42 then ([], Star) else ([], In_comment)
  | In_directive s => if c =? 10 then ([Tdirective s], Start) else ([], In_directive (s ++ [c]))
  end.

Fixpoint scan (st : scanner) (text : list Z) : list token * scanner :=
  match text with
  | [] => ([], st)
  | c :: r => let '(t1, st1) := scan_step st c in let '(t2, st2) := scan st1 r in (t1 ++ t2, st2)
  end.

(** ** Declarations *)

(** The declarations of a file: up to a semicolon outside braces, or a directive. *)
Fixpoint split_decls (cur : list token) (depth : nat) (ts : list token) : option (list (list token)) :=
  match ts with
  | [] => match cur with [] => Some [] | _ => None end
  | Tdirective l :: r => match cur with [] => cons [Tdirective l] <$> split_decls [] 0 r | _ => None end
  | Tpunct c :: r =>
    if c =? 123 then split_decls (cur ++ [Tpunct c]) (S depth) r
    else if c =? 125 then match depth with O => None | S d => split_decls (cur ++ [Tpunct c]) d r end
    else if (c =? 59) && (depth =? 0)%nat then cons cur <$> split_decls [] 0 r
    else split_decls (cur ++ [Tpunct c]) depth r
  | t :: r => split_decls (cur ++ [t]) depth r
  end.

Inductive decl : Type :=
| Directive (line : list Z)
| Constant (type_ : list (list Z)) (name : list Z) (value : Z)
| Array (type_ : list (list Z)) (name : list Z) (size : Z) (elements : list Z)
| Extern (type_ : list (list Z)) (name : list Z) (size : option Z)
| Table (type_ : list (list Z)) (name : list Z) (rows : list (list Z * list Z * Z))
| Other (ts : list token).

(** The words before the name of a declaration. *)
Fixpoint words (ts : list token) : list (list Z) * list token :=
  match ts with
  | Tid s :: r => let '(w, r') := words r in (s :: w, r')
  | _ => ([], ts)
  end.

(** An initialiser: numbers with commas between them, closed by a brace. *)
Fixpoint elements (ts : list token) : option (list Z) :=
  match ts with
  | [Tpunct 125] => Some []
  | Tnum n :: Tpunct 44 :: r => cons n <$> elements r
  | [Tnum n; Tpunct 125] => Some [n]
  | _ => None
  end.

Fixpoint rows (ts : list token) : option (list (list Z * list Z * Z)) :=
  match ts with
  | [Tpunct 125] => Some []
  | Tpunct 123 :: Tstr f :: Tpunct 44 :: Tid s :: Tpunct 44 :: Tnum n :: Tpunct 125 :: Tpunct 44 :: r => cons (f, s, n) <$> rows r
  | [Tpunct 123; Tstr f; Tpunct 44; Tid s; Tpunct 44; Tnum n; Tpunct 125; Tpunct 125] => Some [(f, s, n)]
  | _ => None
  end.

Definition read_decl (ts : list token) : option decl :=
  match ts with
  | [Tdirective l] => Some (Directive l)
  | _ =>
    let '(w, r) := words ts in
    let type_ := removelast w in
    let name := List.last w [] in
    match r with
    | [] => match type_ with e :: t => if bool_decide (e = lit "extern") then Some (Extern t name None) else Some (Other ts) | [] => None end
    | [Tpunct 91; Tnum n; Tpunct 93] => match type_ with e :: t => if bool_decide (e = lit "extern") then Some (Extern t name (Some n)) else Some (Other ts) | [] => None end
    | [Tpunct 61; Tnum n] => Some (Constant type_ name n)
    | Tpunct 91 :: Tnum n :: Tpunct 93 :: Tpunct 61 :: Tpunct 123 :: r' => Array type_ name n <$> elements r'
    | Tpunct 91 :: Tpunct 93 :: Tpunct 61 :: Tpunct 123 :: r' => Table type_ name <$> rows r'
    | _ => Some (Other ts)
    end
  end.

(** The declarations of a C text. *)
Definition read_C (text : list Z) : option (list decl) :=
  match scan Start text with
  | (ts, Start) => ds ← split_decls [] 0 ts; mapM read_decl ds
  | _ => None
  end.

(** ** Scanning, piece by piece *)

Lemma scan_app st a b t1 st1 t2 st2 :
  scan st a = (t1, st1) -> scan st1 b = (t2, st2) -> scan st (a ++ b) = (t1 ++ t2, st2).
Proof.
  revert st t1. induction a as [|c a IH]; intros st t1 Ha Hb; cbn [scan app] in *; [by injection Ha as <- <-|].
  destruct (scan_step st c) as [u st']. destruct (scan st' a) as [v st''] eqn:E. injection Ha as <- <-.
  by rewrite (IH _ _ E Hb), (assoc app).
Qed.

Definition identifier (s : list Z) : Prop := (exists c r, s = c :: r /\ id_start c = true) /\ Forall (fun c => id_char c = true) s.

Lemma scan_id p s : Forall (fun c => id_char c = true) s -> scan (In_id p) s = ([], In_id (p ++ s)).
Proof.
  intros H. revert p. induction H as [|c s Hc _ IH]; intros p; cbn [scan scan_step]; [by rewrite app_nil_r|].
  rewrite Hc, IH. cbn [app]. by rewrite <- (assoc app).
Qed.

Lemma id_start_not_space c : id_start c = true -> isspace c = false.
Proof. unfold id_start, isspace. lia. Qed.

Lemma scan_identifier s : identifier s -> scan Start s = ([], In_id s).
Proof.
  intros [(c & r & -> & Hc) Hs]. cbn [scan scan_step]. unfold start_step. rewrite (id_start_not_space _ Hc), Hc.
  inversion Hs; subst. by rewrite scan_id.
Qed.

Lemma scan_num p s : Forall (fun c => id_char c = true) s -> scan (In_num p) s = ([], In_num (p ++ s)).
Proof.
  intros H. revert p. induction H as [|c s Hc _ IH]; intros p; cbn [scan scan_step]; [by rewrite app_nil_r|].
  rewrite Hc, IH. cbn [app]. by rewrite <- (assoc app).
Qed.

Lemma isdigit_scanned c : isdigit c = true -> isspace c = false /\ id_start c = false /\ id_char c = true.
Proof. unfold isdigit, id_char, id_start, isspace. lia. Qed.

Lemma scan_digits_of s : s <> [] -> Forall (fun c => isdigit c = true) s -> scan Start s = ([], In_num s).
Proof.
  intros Hn H. destruct s as [|c s]; [done|]. inversion H as [|? ? Hc Hs]; subst.
  destruct (isdigit_scanned c Hc) as (H1 & H2 & _). cbn [scan scan_step]. unfold start_step. rewrite H1, H2, Hc.
  rewrite scan_num; [done|]. eapply Forall_impl; [exact Hs|]. intros x Hx. by apply isdigit_scanned.
Qed.

Lemma dec_digits_lead f n : 0 < n < 10 ^ Z.of_nat f -> exists c l, dec_digits f n = c :: l /\ c <> 48.
Proof.
  revert n. induction f as [|f IH]; intros n Hn; [change (10 ^ Z.of_nat 0) with 1 in Hn; lia|].
  rewrite Nat2Z.inj_succ, Z.pow_succ_r in Hn by lia. unfold dec_digits; fold dec_digits. destruct (Z.ltb_spec n 10).
  - exists (48 + n), []. split; [done|lia].
  - destruct (IH (n / 10)) as (c & l & -> & Hc); [split; [apply Z.div_str_pos; lia|apply Z.div_lt_upper_bound; lia]|].
    by exists c, (l ++ [48 + n mod 10]).
Qed.

Lemma scan_to_string n : 0 < n < 2 ^ 31 -> exists s, scan Start (to_string n) = ([], In_num s) /\ number s = n.
Proof.
  intros Hn. exists (to_string n). unfold to_string. destruct (Z.ltb_spec n 0); [lia|].
  assert (n < 10 ^ Z.of_nat 20) as Hb by (eapply Z.lt_trans; [apply Hn|done]).
  destruct (dec_digits_lead 20 n) as (c & l & E & Hc); [lia|]. split.
  - apply scan_digits_of; [by rewrite E|]. apply dec_digits_digits. lia.
  - rewrite <- (scan_dec_digits 20 n) at 2 by lia. rewrite E. unfold number. repeat case_match; simplify_eq; done.
Qed.

(** ** The bytes of an array *)

Definition byte_text (b : Z) : list Z := lit "0x" ++ [xdigit (b / 16); xdigit (b mod 16)].

Lemma hex2_byte b : is_byte b -> at_least_2 (xdigits 8 (cast U32 b)) = [xdigit (b / 16); xdigit (b mod 16)].
Proof.
  intros Hb. unfold is_byte in Hb. rewrite cast_id by (cbv [in_range is_signed width]; lia). cbn [xdigits].
  destruct (Z.ltb_spec b 16).
  - unfold at_least_2. cbn [length Nat.ltb Nat.leb]. by rewrite Z.div_small, Z.mod_small by lia.
  - destruct (Z.ltb_spec (b / 16) 16) as [_|H1]; [done|]. pose proof (Z.div_lt_upper_bound b 16 16). lia.
Qed.

Definition byte_scans (b : Z) : bool :=
  match scan Start (byte_text b) with
  | ([], In_num s) => number s =? b
  | _ => false
  end.

Lemma all_bytes_scan : forallb byte_scans (seqZ 0 256) = true.
Proof. vm_compute. reflexivity. Qed.

Lemma scan_byte b : is_byte b -> exists s, scan Start (byte_text b) = ([], In_num s) /\ number s = b.
Proof.
  intros Hb. pose proof all_bytes_scan as H. rewrite forallb_forall in H.
  specialize (H b ltac:(apply list_elem_of_In, elem_of_seqZ; unfold is_byte in Hb; lia)). unfold byte_scans in H.
  destruct (scan Start (byte_text b)) as [[|] []]; try done. eexists; split; [done|lia].
Qed.

(** ** Declarations, piece by piece *)

Definition declares (text : list Z) (ds : list decl) : Prop :=
  exists ts us, scan Start text = (ts, Start)
    /\ (forall r, split_decls [] 0 (ts ++ r) = app us <$> split_decls [] 0 r) /\ mapM read_decl us = Some ds.

Lemma declares_nil : declares [] [].
Proof. exists [], []. split_and!; [done| |done]. intros r. cbn [app]. by destruct (split_decls [] 0 r). Qed.

Lemma declares_app t1 t2 d1 d2 : declares t1 d1 -> declares t2 d2 -> declares (t1 ++ t2) (d1 ++ d2).
Proof.
  intros (a1 & u1 & Ha1 & Hs1 & Hm1) (a2 & u2 & Ha2 & Hs2 & Hm2). exists (a1 ++ a2), (u1 ++ u2). split_and!.
  - by eapply scan_app.
  - intros r. rewrite <- (assoc app), Hs1, Hs2. destruct (split_decls [] 0 r); cbn; [by rewrite (assoc app)|done].
  - apply mapM_Some. apply mapM_Some in Hm1, Hm2. by apply Forall2_app.
Qed.

Lemma declares_join {A} (f : A -> list Z) (h : A -> list decl) l :
  (forall x, x ∈ l -> declares (f x) (h x)) -> declares (mjoin (f <$> l)) (mjoin (h <$> l)).
Proof.
  induction l as [|x l IH]; intros H; [apply declares_nil|]. rewrite !join_cons. apply declares_app; [apply H; left|].
  apply IH. intros y Hy. apply H. by right.
Qed.

Lemma declares_read t ds : declares t ds -> read_C t = Some ds.
Proof.
  intros (ts & us & Hs & Hd & Hm). unfold read_C. rewrite Hs. specialize (Hd []). rewrite app_nil_r in Hd. rewrite Hd.
  cbn [split_decls fmap option_fmap option_map mbind option_bind]. by rewrite app_nil_r, Hm.
Qed.

(** One declaration: tokens without braces or semicolons, a closing semicolon. *)
Definition flat (t : token) : bool :=
  match t with
  | Tdirective _ => false
  | Tpunct c => negb (c =? 123) && negb (c =? 125) && negb (c =? 59)
  | _ => true
  end.

Lemma split_flat ts : Forall (fun t => flat t = true) ts ->
  forall cur depth r, split_decls cur depth (ts ++ r) = split_decls (cur ++ ts) depth r.
Proof.
  induction 1 as [|t ts Ht _ IH]; intros cur depth r; [by rewrite app_nil_r|]. cbn [app]. rewrite (cons_middle t), (assoc app), <- IH.
  destruct t; cbn [split_decls]; try done. cbn [flat] in Ht.
  destruct (Z.eqb_spec c 123), (Z.eqb_spec c 125), (Z.eqb_spec c 59); try done; by subst.
Qed.

Lemma declares_one text ts d :
  scan Start text = (ts ++ [Tpunct 59], Start) -> Forall (fun t => flat t = true) ts -> read_decl ts = Some d -> declares text [d].
Proof.
  intros Hs Hf Hd. exists (ts ++ [Tpunct 59]), [ts]. split_and!; [done| |cbn; by rewrite Hd].
  intros r. rewrite <- (assoc app), split_flat by done. cbn. by destruct (split_decls [] 0 r).
Qed.

Lemma declares_directive l : Forall (fun c => c <> 10) l -> declares (lit "#" ++ l ++ nl) [Directive l].
Proof.
  intros Hl. exists [Tdirective l], [[Tdirective l]]. split_and!; [| |done].
  - assert (forall p, scan (In_directive p) (l ++ nl) = ([Tdirective (p ++ l)], Start)) as H;
      [|by eapply (scan_app _ (lit "#") _ [] (In_directive [])); [|apply (H [])]].
    induction Hl as [|c l Hc _ IH]; intros p; cbn [app scan scan_step nl]; [by rewrite app_nil_r|].
    destruct (Z.eqb_spec c 10); [done|]. rewrite IH. cbn [app]. by rewrite <- (assoc app).
  - intros r. cbn. by destruct (split_decls [] 0 r).
Qed.

(** ** Comments *)

(** A text that does not close the comment it is in. *)
Fixpoint comment_ok (s : list Z) : bool :=
  match s with
  | c :: r => negb ((c =? 42) && (match r with d :: _ => d =? 47 | [] => false end)) && comment_ok r
  | [] => true
  end.

Definition in_comment (st : scanner) (s : list Z) : Prop :=
  st = In_comment \/ st = Star /\ (match s with 47 :: _ => false | _ => true end) = true.

Lemma scan_comment s : comment_ok s = true ->
  forall st, in_comment st s -> exists st', scan st s = ([], st') /\ (st' = In_comment \/ st' = Star).
Proof.
  induction s as [|c s IH]; intros Hs st Hst.
  - exists st. split; [done|]. destruct Hst as [->|[-> _]]; auto.
  - cbn [comment_ok] in Hs. apply andb_true_iff in Hs as [Hc Hs].
    assert (exists st', scan_step st c = ([], st') /\ in_comment st' s) as (st' & E & Hst').
    { destruct (Z.eqb_spec c 42) as [->|Hne].
      - exists Star. split; [by destruct Hst as [->|[-> _]]|]. right. split; [done|]. destruct s as [|d s]; [done|].
        cbn in Hc. destruct (Z.eqb_spec d 47); [done|]. repeat case_match; congruence.
      - exists In_comment. split; [|by left]. destruct Hst as [->|[-> Hn]]; cbn [scan_step].
        + destruct (Z.eqb_spec c 42); [done|]. done.
        + destruct (Z.eqb_spec c 47) as [->|]; [done|]. by destruct (Z.eqb_spec c 42). }
    destruct (IH Hs st' Hst') as (st'' & E' & H'). exists st''. cbn [scan]. by rewrite E, E'.
Qed.

Definition comment_text (f : list Z) : list Z := nl ++ lit "/* Contents of file " ++ f ++ lit " */" ++ nl.

Lemma declares_comment f : comment_ok f = true -> declares (comment_text f) [].
Proof.
  intros Hf. exists [], []. split_and!; [|intros r; cbn [app]; by destruct (split_decls [] 0 r)|done].
  unfold comment_text. rewrite (assoc app nl). eapply (scan_app _ _ _ [] In_comment []); [reflexivity|].
  destruct (scan_comment f Hf In_comment (or_introl eq_refl)) as (st & E & Hst).
  eapply (scan_app _ _ _ [] st []); [exact E|]. by destruct Hst as [-> | ->].
Qed.

(** ** Sizes and arrays *)

Definition chars (ws : list string) : list (list Z) := lit <$> ws.
Definition size_name (symbol : list Z) : list Z := symbol ++ lit "_size".
Definition size_text (symbol : list Z) (n : Z) : list Z := lit "const long int " ++ size_name symbol ++ lit " = " ++ to_string n ++ lit ";" ++ nl.

Lemma scan_eq st text ts ts' st' : scan st text = (ts, st') -> ts = ts' -> scan st text = (ts', st').
Proof. by intros H <-. Qed.

(** Scans a text of known pieces, one after the other. *)
Ltac scan_piece H := eapply scan_app; [exact H|].
Ltac scan_lit := eapply scan_app; [reflexivity|].

Lemma identifier_app s r : identifier s -> Forall (fun c => id_char c = true) r -> identifier (s ++ r).
Proof. intros [(c & l & -> & Hc) Hs] Hr. split; [by exists c, (l ++ r)|by apply Forall_app]. Qed.

Lemma identifier_size s : identifier s -> identifier (size_name s).
Proof. intros H. apply identifier_app; [done|]. by repeat constructor. Qed.

Lemma declares_size symbol n : identifier symbol -> 0 < n < 2 ^ 31 ->
  declares (size_text symbol n) [Constant (chars ["const"; "long"; "int"]%string) (size_name symbol) n].
Proof.
  intros Hid Hn. destruct (scan_to_string n Hn) as (s & Hs & <-).
  eapply (declares_one _ ([Tid (lit "const"); Tid (lit "long"); Tid (lit "int"); Tid (size_name symbol); Tpunct 61; Tnum (number s)])).
  - unfold size_text. eapply scan_eq; [scan_lit; scan_piece (scan_identifier _ (identifier_size _ Hid)); scan_lit; scan_piece Hs; reflexivity|reflexivity].
  - by repeat constructor.
  - reflexivity.
Qed.

Lemma declares_extern_size symbol : identifier symbol ->
  declares (lit "extern const long int " ++ size_name symbol ++ lit ";" ++ nl) [Extern (chars ["const"; "long"; "int"]%string) (size_name symbol) None].
Proof.
  intros Hid. eapply (declares_one _ ([Tid (lit "extern"); Tid (lit "const"); Tid (lit "long"); Tid (lit "int"); Tid (size_name symbol)])).
  - eapply scan_eq; [scan_lit; scan_piece (scan_identifier _ (identifier_size _ Hid)); reflexivity|reflexivity].
  - by repeat constructor.
  - reflexivity.
Qed.

Definition byte_type : list (list Z) := chars ["const"; "unsigned"; "char"]%string.
Definition extern_text (symbol : list Z) (n : Z) : list Z :=
  lit "extern const unsigned char " ++ symbol ++ lit "[" ++ to_string n ++ lit "];" ++ nl.

Lemma declares_extern symbol n : identifier symbol -> 0 < n < 2 ^ 31 -> declares (extern_text symbol n) [Extern byte_type symbol (Some n)].
Proof.
  intros Hid Hn. destruct (scan_to_string n Hn) as (s & Hs & <-).
  eapply (declares_one _ ([Tid (lit "extern"); Tid (lit "const"); Tid (lit "unsigned"); Tid (lit "char"); Tid symbol; Tpunct 91; Tnum (number s); Tpunct 93])).
  - unfold extern_text. eapply scan_eq; [scan_lit; scan_piece (scan_identifier _ Hid); scan_lit; scan_piece Hs; reflexivity|reflexivity].
  - by repeat constructor.
  - reflexivity.
Qed.

(** The lines of an array: [j] is the column of the next byte. *)
Fixpoint bytes_text (j : Z) (bs : list Z) : list Z :=
  match bs with
  | [] => []
  | b :: r =>
    (if j =? 1 then indentString else []) ++ byte_text b
    ++ (match r with [] => nl | _ => if j =? bytesPerLine then lit "," ++ nl else lit ", " end)
    ++ bytes_text (if bytesPerLine <? j + 1 then 1 else j + 1) r
  end.

Definition array_text (symbol : list Z) (bs : list Z) : list Z :=
  lit "const unsigned char " ++ symbol ++ lit "[" ++ to_string (Z.of_nat (length bs)) ++ lit "] = {" ++ nl ++ bytes_text 1 bs ++ lit "};" ++ nl.

Fixpoint bytes_tokens (bs : list Z) : list token :=
  match bs with
  | [] => []
  | [b] => [Tnum b]
  | b :: r => Tnum b :: Tpunct 44 :: bytes_tokens r
  end.

Lemma scan_bytes bs : bs <> [] -> Forall is_byte bs -> forall j, scan Start (bytes_text j bs) = (bytes_tokens bs, Start).
Proof.
  intros Hn H. induction H as [|b bs Hb Hbs IH]; [done|]. intros j. cbn [bytes_text].
  destruct (scan_byte b Hb) as (s & Hs & Hv). eapply (scan_app _ _ _ [] Start); [by destruct (j =? 1)|].
  eapply (scan_app _ _ _ []); [exact Hs|]. destruct bs as [|b' bs].
  - rewrite <- Hv. by eapply (scan_app _ _ _ [Tnum (number s)] Start []).
  - rewrite <- Hv. apply (scan_app _ _ _ [Tnum (number s); Tpunct 44] Start (bytes_tokens (b' :: bs))); [|by apply IH].
    by destruct (j =? bytesPerLine).
Qed.

Lemma elements_bytes bs : bs <> [] -> elements (bytes_tokens bs ++ [Tpunct 125]) = Some bs.
Proof.
  induction bs as [|b bs IH]; [done|]. intros _. destruct bs as [|b' bs]; [done|].
  change (elements (bytes_tokens (b :: b' :: bs) ++ [Tpunct 125])) with (cons b <$> elements (bytes_tokens (b' :: bs) ++ [Tpunct 125])).
  by rewrite IH.
Qed.

Lemma bytes_tokens_flat bs : Forall (fun t => flat t = true) (bytes_tokens bs).
Proof. induction bs as [|b [|b' bs] IH]; [constructor|by repeat constructor|by do 2 (constructor; [done|])]. Qed.

Lemma declares_array symbol bs : identifier symbol -> bs <> [] -> Forall is_byte bs -> Z.of_nat (length bs) < 2 ^ 31 ->
  declares (array_text symbol bs) [Array byte_type symbol (Z.of_nat (length bs)) bs].
Proof.
  intros Hid Hn Hb Hl. assert (0 < Z.of_nat (length bs) < 2 ^ 31) as H by (destruct bs; [done|cbn [length] in *; lia]).
  destruct (scan_to_string _ H) as (s & Hs & Hv).
  set (hd := [Tid (lit "const"); Tid (lit "unsigned"); Tid (lit "char"); Tid symbol; Tpunct 91; Tnum (number s); Tpunct 93; Tpunct 61]).
  exists (hd ++ [Tpunct 123] ++ bytes_tokens bs ++ [Tpunct 125] ++ [Tpunct 59]), [hd ++ [Tpunct 123] ++ bytes_tokens bs ++ [Tpunct 125]]. split_and!.
  - unfold array_text. eapply scan_eq. { scan_lit. scan_piece (scan_identifier _ Hid). scan_lit. scan_piece Hs. rewrite (assoc app (lit "] = {")).
    eapply (scan_app _ _ _ [Tnum (number s); Tpunct 93; Tpunct 61; Tpunct 123]); [reflexivity|].
    eapply scan_app; [by apply scan_bytes|]. reflexivity. }
    reflexivity.
  - intros r. rewrite <- (assoc app hd), (split_flat hd) by by repeat constructor. cbn [app split_decls Z.eqb Pos.eqb]. rewrite <- (assoc app).
    rewrite split_flat by apply bytes_tokens_flat. cbn. by destruct (split_decls [] 0 r).
  - change (mapM read_decl [hd ++ [Tpunct 123] ++ bytes_tokens bs ++ [Tpunct 125]])
      with (d ← (Array byte_type symbol (number s) <$> elements (bytes_tokens bs ++ [Tpunct 125])); Some [d]).
    by rewrite elements_bytes, Hv.
Qed.

(** ** The table of files *)

(** A file name that can stand in a string of C and in a format. *)
Definition quote_ok (f : list Z) : Prop := Forall (fun c => c <> 34 /\ c <> 92 /\ c <> 10 /\ c <> 37) f.

Definition item_text (x : list Z * list Z * Z) : list Z :=
  [9] ++ lit "{" ++ [34] ++ x.1.1 ++ [34] ++ lit ", " ++ x.1.2 ++ lit ", " ++ to_string x.2 ++ lit "}".

Fixpoint items_text (l : list (list Z * list Z * Z)) : list Z :=
  match l with
  | [] => []
  | [x] => item_text x
  | x :: r => item_text x ++ lit "," ++ nl ++ items_text r
  end.

Definition row_ok (x : list Z * list Z * Z) : Prop := quote_ok x.1.1 /\ identifier x.1.2 /\ 0 < x.2 < 2 ^ 31.

Definition row_tokens (x : list Z * list Z * Z) : list token :=
  [Tpunct 123; Tstr x.1.1; Tpunct 44; Tid x.1.2; Tpunct 44; Tnum x.2; Tpunct 125].

Fixpoint rows_tokens (l : list (list Z * list Z * Z)) : list token :=
  match l with
  | [] => []
  | [x] => row_tokens x
  | x :: r => row_tokens x ++ [Tpunct 44] ++ rows_tokens r
  end.

Lemma scan_string f : quote_ok f -> forall p, scan (In_str p) f = ([], In_str (p ++ f)).
Proof.
  induction 1 as [|c f (H1 & H2 & _) _ IH]; intros p; cbn [scan scan_step]; [by rewrite app_nil_r|].
  destruct (Z.eqb_spec c 34), (Z.eqb_spec c 92); try done. rewrite IH. cbn [app]. by rewrite <- (assoc app).
Qed.

Lemma scan_item x : row_ok x -> scan Start (item_text x) = (row_tokens x, Start).
Proof.
  destruct x as [[f s] n]. intros (Hf & Hid & Hn). destruct (scan_to_string n Hn) as (v & Hv & <-). cbn [fst snd] in *.
  eapply scan_eq; [|reflexivity]. unfold item_text. cbn [fst snd].
  apply (scan_app _ _ _ [] Start [Tpunct 123; Tstr f; Tpunct 44; Tid s; Tpunct 44; Tnum (number v); Tpunct 125]); [done|].
  apply (scan_app _ _ _ [Tpunct 123] Start [Tstr f; Tpunct 44; Tid s; Tpunct 44; Tnum (number v); Tpunct 125]); [done|].
  eapply (scan_app _ _ _ [] (In_str [])); [done|].
  eapply (scan_app _ _ _ []); [exact (scan_string f Hf [])|].
  eapply (scan_app _ _ _ [Tstr f] Start); [done|].
  eapply (scan_app _ _ _ [Tpunct 44] Start); [done|].
  eapply (scan_app _ _ _ []); [exact (scan_identifier s Hid)|].
  eapply (scan_app _ _ _ [Tid s; Tpunct 44] Start); [done|].
  eapply (scan_app _ _ _ []); [exact Hv|done].
Qed.

Lemma scan_items l : Forall row_ok l -> scan Start (items_text l) = (rows_tokens l, Start).
Proof.
  induction 1 as [|x l Hx Hl IH]; [done|]. destruct l as [|y l]; [by apply scan_item|].
  change (items_text (x :: y :: l)) with (item_text x ++ (lit "," ++ nl) ++ items_text (y :: l)).
  change (rows_tokens (x :: y :: l)) with (row_tokens x ++ [Tpunct 44] ++ rows_tokens (y :: l)).
  eapply scan_app; [by apply scan_item|]. by eapply scan_app; [reflexivity|].
Qed.

Lemma split_rows l cur r : split_decls cur 1 (rows_tokens l ++ r) = split_decls (cur ++ rows_tokens l) 1 r.
Proof.
  revert cur. induction l as [|x l IH]; intros cur; [by rewrite app_nil_r|].
  assert (forall cur r, split_decls cur 1 (row_tokens x ++ r) = split_decls (cur ++ row_tokens x) 1 r) as Hrow.
  { intros cur' r'. cbn [row_tokens app split_decls Z.eqb Pos.eqb andb Nat.eqb]. by rewrite <- !(assoc app). }
  destruct l as [|y l]; [apply Hrow|].
  change (rows_tokens (x :: y :: l)) with (row_tokens x ++ [Tpunct 44] ++ rows_tokens (y :: l)).
  rewrite <- !(assoc app), Hrow. cbn [app split_decls Z.eqb Pos.eqb andb]. rewrite IH. by rewrite <- !(assoc app).
Qed.

Lemma rows_of_tokens l : l <> [] -> rows (rows_tokens l ++ [Tpunct 125]) = Some l.
Proof.
  induction l as [|[[f s] n] l IH]; [done|]. intros _. destruct l as [|y l]; [done|].
  change (rows (rows_tokens ((f, s, n) :: y :: l) ++ [Tpunct 125])) with (cons (f, s, n) <$> rows (rows_tokens (y :: l) ++ [Tpunct 125])).
  by rewrite IH.
Qed.

Definition table_text (l : list (list Z * list Z * Z)) : list Z :=
  tableStart ++ items_text l ++ nl ++ lit "};" ++ nl
  ++ lit "const unsigned int fileTableSize = " ++ to_string (Z.of_nat (length l)) ++ lit ";" ++ nl.

Lemma declares_table l : l <> [] -> Forall row_ok l -> Z.of_nat (length l) < 2 ^ 31 ->
  declares (table_text l)
    [Table (chars ["const"; "TFileTableEntry"]%string) (lit "fileTable") l;
     Constant (chars ["const"; "unsigned"; "int"]%string) (lit "fileTableSize") (Z.of_nat (length l))].
Proof.
  intros Hn Hl Hk. unfold table_text. rewrite (assoc app nl), (assoc app (_ ++ _) nl), (assoc app (items_text l)), (assoc app tableStart).
  apply (declares_app _ _ [_] [_]).
  - set (hd := [Tid (lit "const"); Tid (lit "TFileTableEntry"); Tid (lit "fileTable"); Tpunct 91; Tpunct 93; Tpunct 61]).
    exists (hd ++ [Tpunct 123] ++ rows_tokens l ++ [Tpunct 125; Tpunct 59]), [hd ++ [Tpunct 123] ++ rows_tokens l ++ [Tpunct 125]]. split_and!.
    + eapply scan_eq; [eapply scan_app; [reflexivity|]; eapply scan_app; [by apply scan_items|reflexivity]|reflexivity].
    + intros r. rewrite <- (assoc app hd), (split_flat hd) by by repeat constructor.
      cbn [app split_decls Z.eqb Pos.eqb]. rewrite <- (assoc app). rewrite split_rows. cbn. by destruct (split_decls [] 0 r).
    + change (mapM read_decl [hd ++ [Tpunct 123] ++ rows_tokens l ++ [Tpunct 125]])
        with (d ← (Table (chars ["const"; "TFileTableEntry"]%string) (lit "fileTable") <$> rows (rows_tokens l ++ [Tpunct 125])); Some [d]).
      by rewrite rows_of_tokens.
  - assert (0 < Z.of_nat (length l) < 2 ^ 31) as H by (destruct l; [done|cbn [length] in *; lia]).
    destruct (scan_to_string _ H) as (s & Hs & Hv).
    eapply (declares_one _ ([Tid (lit "const"); Tid (lit "unsigned"); Tid (lit "int"); Tid (lit "fileTableSize"); Tpunct 61; Tnum (number s)])).
    + eapply scan_eq; [scan_lit; scan_piece Hs; reflexivity|reflexivity].
    + by repeat constructor.
    + by rewrite <- Hv.
Qed.
