(* ===== verification/Bin2cRun.v ===== *)
(** * Runs of bin2c

    What [Bin2c.main] does with a command line of options and files when the C
    library does not fail, and the theorem that the files it writes, read as C,
    declare the bytes of the files it was given. *)
From stdpp Require Import base gmap strings numbers list.
From S2P Require Import Prelude CLib Bin2c Bin2cText.
#[local] Open Scope Z_scope.

Record works (lib : clib) : Prop := {
  w_fopen : forall n, fopen_error lib n = None;
  w_write : forall n t, write_error lib n t = None;
  w_fclose : forall n, fclose_error lib n = None;
  w_fseek : forall n, fseek_error lib n = None;
  w_read : forall n p, read_error lib n p = false;
  w_malloc : forall n, malloc_error lib n = None
}.

Lemma reliable_works : works reliable.
Proof. by split. Qed.

(** The table: its text, the size of its block and the number of its items. *)
Definition table_state : Type := option (list Z) * Z * Z.

(** A state in which maybe an output file and maybe a header are open, with the
    texts written to them. *)
Definition gst (d : gmap (list Z) (list Z)) (out h : option (list Z * list Z)) (sym : option (list Z)) (mac tab : bool)
    (tb : table_state) : globals :=
  mkGlobals d ((fun x => mkStream x.1 x.2 true) <$> out) (fst <$> out) ((fun x => mkStream x.1 x.2 true) <$> h) (fst <$> h) sym
    ((fun x => symbol_of x.1) <$> h) mac tab tb.1.1 tb.1.2 tb.2 None [] [].

(** An output file is open. *)
Definition st (d : gmap (list Z) (list Z)) (o ot : list Z) : option (list Z * list Z) -> option (list Z) -> bool -> bool -> table_state -> globals :=
  gst d (Some (o, ot)).

(** Adds to the text of the header, when there is one. *)
Definition hdr_add (t : list Z) (h : option (list Z * list Z)) : option (list Z * list Z) := (fun x => (x.1, x.2 ++ t)) <$> h.

Section Runs.
Context (lib : clib) (Hlib : works lib).

Lemma C_bind_eq {A B} (m : C A) (f : A -> C B) g :
  (m ≫= f) g = match m g with
               | (Done a, g') => f a g' | (Exit c, g') => (Exit c, g') | (Aborted, g') => (Aborted, g') | (Undefined, g') => (Undefined, g')
               end.
Proof. done. Qed.

Lemma C_seq {A B} (m : C A) (f : A -> C B) g a g' : m g = (Done a, g') -> (m ≫= f) g = f a g'.
Proof. intros E. by rewrite C_bind_eq, E. Qed.

Lemma output_ok f args t d o ot h sym mac tab tb :
  vformat (directives f) args = Some t -> output lib f args (st d o ot h sym mac tab tb) = (Done tt, st d o (ot ++ t) h sym mac tab tb).
Proof.
  intros E. unfold output, vfprintf. rewrite C_bind_eq. cbn [get file_of st gst outputFile fmap option_fmap option_map s_open]. rewrite C_bind_eq. unfold print. rewrite E.
  cbn [mret C_ret]. rewrite C_bind_eq. cbn [modify]. rewrite C_bind_eq. cbn [s_name s_text fst snd]. by rewrite (w_write _ Hlib).
Qed.

Lemma header_gst f args t d out h sym mac tab tb :
  is_some h = true ->
  vformat (directives f) args = Some t -> header lib f args (gst d out h sym mac tab tb) = (Done tt, gst d out (hdr_add t h) sym mac tab tb).
Proof.
  intros Hh E. destruct h as [[hn ht]|]; [|done].
  unfold header, vfprintf. rewrite C_bind_eq. cbn [get file_of gst headerFile fmap option_fmap option_map s_open]. rewrite C_bind_eq. unfold print. rewrite E.
  cbn [mret C_ret]. rewrite C_bind_eq. cbn [modify]. rewrite C_bind_eq. cbn [s_name s_text fst snd]. by rewrite (w_write _ Hlib).
Qed.

Lemma header_ok f args t d o ot h sym mac tab tb :
  is_some h = true ->
  vformat (directives f) args = Some t -> header lib f args (st d o ot h sym mac tab tb) = (Done tt, st d o ot (hdr_add t h) sym mac tab tb).
Proof. apply header_gst. Qed.

(** A message for the header, when there is one. *)
Lemma when_header_ok f args t d o ot h sym mac tab tb :
  vformat (directives f) args = Some t ->
  when (is_some h) (header lib f args) (st d o ot h sym mac tab tb) = (Done tt, st d o ot (hdr_add t h) sym mac tab tb).
Proof. intros E. destruct h as [[hn ht]|]; [by apply header_ok|done]. Qed.

Lemma malloc_ok n g : malloc lib n g = (Done true, g).
Proof. unfold malloc. rewrite C_bind_eq. by rewrite (w_malloc _ Hlib). Qed.

(** ** The texts *)

Lemma comment_format f : no_nul f -> vformat (directives contents_comment) [AStr (Some f)] = Some (comment_text f).
Proof.
  intros H. transitivity (Some (comment_text (c_str f))); [reflexivity|]. by rewrite c_str_id.
Qed.

Definition macro_line (s : list Z) (n : Z) : list Z := lit "define " ++ size_name s ++ lit " " ++ to_string n.
Definition macro_text (s : list Z) (n : Z) : list Z := lit "#" ++ macro_line s n ++ nl.
Definition extern_size_text (s : list Z) : list Z := lit "extern const long int " ++ size_name s ++ lit ";" ++ nl.

Lemma identifier_no_nul s : identifier s -> no_nul s.
Proof. intros [_ H]. eapply Forall_impl; [exact H|]. intros c Hc ->. done. Qed.

Lemma cast_size n : 0 < n < 2 ^ 31 -> cast I32 n = n.
Proof. intros H. apply cast_id. cbv [in_range is_signed width]. lia. Qed.

Ltac format_text := rewrite ?c_str_id, ?cast_size by first [assumption | by apply identifier_no_nul]; reflexivity.

Lemma size_format s n : identifier s -> 0 < n < 2 ^ 31 ->
  vformat (directives sizeDefinition) [AStr (Some s); AInt n] = Some (size_text s n).
Proof.
  intros Hs Hn. transitivity (Some (lit "const long int " ++ c_str s ++ lit "_size" ++ lit " = " ++ to_string (cast I32 n) ++ lit ";" ++ nl)); [reflexivity|].
  unfold size_text, size_name. rewrite <- (assoc app). format_text.
Qed.

Lemma macro_format s n : identifier s -> 0 < n < 2 ^ 31 ->
  vformat (directives sizeMacroDefinition) [AStr (Some s); AInt n] = Some (macro_text s n).
Proof.
  intros Hs Hn. transitivity (Some (lit "#" ++ lit "define " ++ c_str s ++ lit "_size" ++ lit " " ++ to_string (cast I32 n) ++ nl)); [reflexivity|].
  unfold macro_text, macro_line, size_name. rewrite <- !(assoc app). format_text.
Qed.

Lemma extern_size_format s : identifier s -> vformat (directives externSizeDefinition) [AStr (Some s)] = Some (extern_size_text s).
Proof.
  intros Hs. transitivity (Some (lit "extern const long int " ++ c_str s ++ lit "_size" ++ lit ";" ++ nl)); [reflexivity|].
  unfold extern_size_text, size_name. rewrite <- !(assoc app). format_text.
Qed.

Lemma extern_format s n : identifier s -> 0 < n < 2 ^ 31 ->
  vformat (directives externOutputDefinition) [AStr (Some typeName); AStr (Some s); AInt n] = Some (extern_text s n).
Proof.
  intros Hs Hn. transitivity (Some (lit "extern const unsigned char " ++ c_str s ++ lit "[" ++ to_string (cast I32 n) ++ lit "];" ++ nl)); [reflexivity|].
  unfold extern_text. format_text.
Qed.

Definition array_head (s : list Z) (n : Z) : list Z := lit "const unsigned char " ++ s ++ lit "[" ++ to_string n ++ lit "] = {" ++ nl.

Lemma array_format s n : identifier s -> 0 < n < 2 ^ 31 ->
  vformat (directives (lit "%s %s[%d] = {" ++ nl)) [AStr (Some typeName); AStr (Some s); AInt n] = Some (array_head s n).
Proof.
  intros Hs Hn. transitivity (Some (lit "const unsigned char " ++ c_str s ++ lit "[" ++ to_string (cast I32 n) ++ lit "] = {" ++ nl)); [reflexivity|].
  unfold array_head. format_text.
Qed.

Lemma plain_format t : Forall (fun c => c <> 37) t -> vformat (directives t) [] = Some t.
Proof.
  induction 1 as [|c l Hc _ IH]; [done|]. cbn [directives]. destruct (Z.eqb_spec c 37); [done|]. cbn [vformat]. by rewrite IH.
Qed.

Lemma byte_format tail b : is_byte b -> Forall (fun c => c <> 37) tail ->
  vformat (directives (outputFormatBase ++ tail)) [AInt b] = Some (byte_text b ++ tail).
Proof.
  intros Hb Ht. transitivity (app (lit "0x" ++ at_least_2 (xdigits 8 (cast U32 b))) <$> vformat (directives tail) []).
  { change (directives (outputFormatBase ++ tail)) with (Literal 48 :: Literal 120 :: Hex2 :: directives tail). cbn [vformat fmap option_fmap option_map].
    by destruct (vformat (directives tail) []). }
  by rewrite hex2_byte, plain_format by done.
Qed.

(** ** The contents of a file *)

Lemma fgetc_at f pre b bs : fgetc lib f (pre ++ b :: bs) (Z.of_nat (length pre)) = b.
Proof. unfold fgetc. by rewrite (w_read _ Hlib), Nat2Z.id, lookup_app_r, Nat.sub_diag by lia. Qed.

Lemma write_contents_ok f bs : Forall is_byte bs ->
  forall pre j to d o ot h sym mac tab tb, to = Z.of_nat (length pre + length bs) - 1 ->
  write_contents lib (length bs) f (pre ++ bs) (Z.of_nat (length pre)) j to (st d o ot h sym mac tab tb)
  = (Done tt, st d o (ot ++ bytes_text j bs) h sym mac tab tb).
Proof.
  induction 1 as [|b bs Hb Hbs IH]; intros pre j to d o ot h sym mac tab tb Hto; [by cbn; rewrite app_nil_r|].
  cbn [length] in Hto. cbn [length write_contents bytes_text]. rewrite fgetc_at.
  replace (negb (b =? -1)) with true by (unfold is_byte in Hb; lia). rewrite C_bind_eq. cbn [check mret C_ret]. cbv beta.
  erewrite (C_seq _ _ _ tt (st d o (ot ++ (if j =? 1 then indentString else [])) h sym mac tab tb));
    [|destruct (j =? 1); [by apply output_ok|by rewrite app_nil_r]].
  erewrite (C_seq _ _ _ tt (st d o ((ot ++ (if j =? 1 then indentString else [])) ++ byte_text b
      ++ match bs with [] => nl | _ => if j =? bytesPerLine then lit "," ++ nl else lit ", " end) h sym mac tab tb)).
  2:{ replace (Z.of_nat (length pre) =? to) with (match bs with [] => true | _ => false end) by (destruct bs; cbn [length] in *; lia).
      destruct bs; [|destruct (j =? bytesPerLine)]; apply output_ok, byte_format; try done; repeat constructor; done. }
  rewrite (cons_middle b pre bs), (assoc app pre).
  replace (Z.of_nat (length pre) + 1) with (Z.of_nat (length (pre ++ [b]))) by (rewrite length_app; cbn [length]; lia).
  rewrite IH by (rewrite length_app; cbn [length]; lia). by rewrite <- !(assoc app).
Qed.

(** ** The table *)

Definition table_of (l : list (list Z * list Z * Z)) : table_state :=
  match l with
  | [] => (None, 0, 0)
  | _ => (Some (items_text l), Z.of_nat (length (items_text l)) + 1, Z.of_nat (length l))
  end.

Lemma items_text_snoc l x : l <> [] -> items_text (l ++ [x]) = items_text l ++ lit "," ++ nl ++ item_text x.
Proof.
  induction l as [|y l IH]; [done|]. intros _. destruct l as [|z l]; [done|].
  change (items_text ((y :: z :: l) ++ [x])) with (item_text y ++ lit "," ++ nl ++ items_text ((z :: l) ++ [x])).
  change (items_text (y :: z :: l)) with (item_text y ++ lit "," ++ nl ++ items_text (z :: l)).
  rewrite IH by done. by rewrite <- !(assoc app).
Qed.

Lemma item_format f s n : no_nul f -> identifier s ->
  vformat (directives indexItemFirst) [AStr (Some f); AStr (Some s); AInt n] = Some (item_text (f, s, n))
  /\ vformat (directives indexItemNext) [AStr (Some f); AStr (Some s); AInt n] = Some (lit "," ++ nl ++ item_text (f, s, n)).
Proof.
  intros Hf Hs. split.
  - transitivity (Some (item_text (c_str f, c_str s, n))); [reflexivity|]. format_text.
  - transitivity (Some (lit "," ++ nl ++ item_text (c_str f, c_str s, n))); [reflexivity|]. format_text.
Qed.

Lemma addTableItem_ok f s n l d o ot h sym mac tab :
  no_nul f -> identifier s -> (length (item_text (f, s, n)) < 254)%nat ->
  addTableItem lib f s n (st d o ot h sym mac tab (table_of l)) = (Done tt, st d o ot h sym mac tab (table_of (l ++ [(f, s, n)]))).
Proof.
  intros Hf Hs Hl. destruct (item_format f s n Hf Hs) as [E1 E2]. unfold addTableItem. rewrite C_bind_eq. cbn [get].
  rewrite C_bind_eq. cbn [modify]. destruct l as [|x l].
  - cbn [st gst table_of fst snd tableCount tableStr tableStrSize]. change (0 + 1 =? 1) with true. cbv iota. rewrite C_bind_eq. unfold print. rewrite E1. cbn [mret C_ret].
    destruct (Z.leb_spec 256 (Z.of_nat (length (item_text (f, s, n))))); [lia|].
    rewrite C_bind_eq, malloc_ok. rewrite C_bind_eq. reflexivity.
  - cbn [st gst table_of fst snd tableCount tableStr tableStrSize].
    destruct (Z.eqb_spec (Z.of_nat (length (x :: l)) + 1) 1) as [H|_]; [cbn [length] in H; lia|].
    rewrite C_bind_eq. unfold print. rewrite E2. cbn [mret C_ret].
    destruct (Z.leb_spec 256 (Z.of_nat (length (lit "," ++ nl ++ item_text (f, s, n))))) as [H|_]; [cbn [app length nl lit] in H; lia|].
    rewrite C_bind_eq, malloc_ok. rewrite C_bind_eq. cbn [check mret C_ret modify set_table].
    rewrite take_ge by lia. change ((x :: l) ++ [(f, s, n)]) with (x :: l ++ [(f, s, n)]). unfold st, gst, set_table. cbn [table_of fst snd].
    change (x :: l ++ [(f, s, n)]) with ((x :: l) ++ [(f, s, n)]). rewrite items_text_snoc by done.
    assert (forall a b : list Z, Z.of_nat (length (a ++ b)) + 1 = Z.of_nat (length a) + 1 + Z.of_nat (length b)) as -> by (intros; rewrite length_app; lia).
    assert (Z.of_nat (length ((x :: l) ++ [(f, s, n)])) = Z.of_nat (length (x :: l)) + 1) as -> by (rewrite length_app; cbn [length]; lia).
    done.
Qed.

(** ** An input file *)

Lemma fileNameToSymbol_ok f g : fileNameToSymbol lib f g = (Done (symbol_of f), g).
Proof. unfold fileNameToSymbol. rewrite C_bind_eq, malloc_ok, C_bind_eq. reflexivity. Qed.

Lemma symbol_for_ok f d o ot h sym mac tab tb :
  symbol_for lib f (st d o ot h sym mac tab tb)
  = (Done (default (symbol_of f) sym), st d o ot h (Some (default (symbol_of f) sym)) mac tab tb).
Proof.
  unfold symbol_for. rewrite C_bind_eq. cbn [get st gst symbolName]. destruct sym as [s|]; [done|].
  by rewrite C_bind_eq, fileNameToSymbol_ok, C_bind_eq.
Qed.

(** The texts about the size, in the output and in the header. *)
Definition size_out (mac hdr : bool) (s : list Z) (n : Z) : list Z :=
  if mac then (if hdr then [] else macro_text s n) else size_text s n.
Definition size_hdr (mac : bool) (s : list Z) (n : Z) : list Z := if mac then macro_text s n else extern_size_text s.

Lemma hdr_add_app t1 t2 h : hdr_add t2 (hdr_add t1 h) = hdr_add (t1 ++ t2) h.
Proof. destruct h as [[hn ht]|]; [|done]. cbn. by rewrite (assoc app). Qed.

Lemma hdr_add_some t h : is_some (hdr_add t h) = is_some h.
Proof. by destruct h. Qed.

Lemma hdr_file_some d o ot h sym mac tab tb : is_some (headerFile (st d o ot h sym mac tab tb)) = is_some h.
Proof. by destruct h. Qed.

Lemma write_sizes_ok s n d o ot h sym mac tab tb : identifier s -> 0 < n < 2 ^ 31 ->
  write_sizes lib s n (st d o ot h sym mac tab tb)
  = (Done tt, st d o (ot ++ size_out mac (is_some h) s n) (hdr_add (size_hdr mac s n) h) sym mac tab tb).
Proof.
  intros Hs Hn. unfold write_sizes. rewrite C_bind_eq. cbn [get]. cbv beta iota zeta. rewrite hdr_file_some. cbn [createMacro st gst].
  destruct h as [x|]; cbn [is_some size_out]; destruct mac; cbn [size_out size_hdr].
  - rewrite app_nil_r. by apply header_ok, macro_format.
  - erewrite C_seq by (apply header_ok; [done|by apply extern_size_format]). by apply output_ok, size_format.
  - by apply output_ok, macro_format.
  - by apply output_ok, size_format.
Qed.

Definition file_out (mac hdr : bool) (f s bs : list Z) : list Z :=
  comment_text f ++ size_out mac hdr s (Z.of_nat (length bs)) ++ array_text s bs.
Definition file_hdr (mac : bool) (f s bs : list Z) : list Z :=
  comment_text f ++ size_hdr mac s (Z.of_nat (length bs)) ++ extern_text s (Z.of_nat (length bs)).

(** A file that bin2c takes: of two bytes at least, and with a name that can be
    written where the table has it. *)
Definition input_ok (tab : bool) (f s bs : list Z) : Prop :=
  no_nul f /\ f <> [] /\ identifier s /\ Forall is_byte bs /\ (2 <= length bs)%nat /\ Z.of_nat (length bs) < 2 ^ 31
  /\ comment_ok f = true /\ (tab = true -> quote_ok f /\ (length f + length s <= 220)%nat).

Lemma dec_digits_length fuel n : (length (dec_digits fuel n) <= fuel)%nat.
Proof.
  revert n. induction fuel as [|fuel IH]; intros n; [done|]. unfold dec_digits; fold dec_digits. destruct (n <? 10); [cbn; lia|].
  rewrite length_app. specialize (IH (n / 10)). cbn [length]. lia.
Qed.

Lemma item_length f s n : 0 < n < 2 ^ 31 -> (length f + length s <= 220)%nat -> (length (item_text (f, s, n)) < 254)%nat.
Proof.
  intros Hn Hl. unfold item_text, to_string. cbn [fst snd]. destruct (Z.ltb_spec n 0); [lia|]. pose proof (dec_digits_length 20 n).
  rewrite !length_app. cbn [length lit]. lia.
Qed.

Lemma fopen_r_ok f bs g : disk g !! f = Some bs -> fopen_r lib f g = (Done (Some bs), g).
Proof.
  intros H. unfold fopen_r. rewrite C_bind_eq, (w_fopen _ Hlib). cbn [failed mret C_ret]. rewrite C_bind_eq. cbn [get]. by rewrite H.
Qed.

Lemma seek_ok f g : failed (fseek_error lib f) g = (Done false, g).
Proof. by rewrite (w_fseek _ Hlib). Qed.

Lemma last_position_ok f bs g : last_position lib f bs (-1) g = (Done (Z.of_nat (length bs) - 1), g).
Proof.
  unfold last_position. cbn [Z.eqb Pos.eqb]. rewrite (C_seq _ _ _ _ _ (seek_ok f g)). rewrite C_bind_eq. cbn [check negb mret C_ret].
  cbv beta iota zeta. destruct (Z.leb_spec 0 (Z.of_nat (length bs))); [|lia]. by rewrite C_bind_eq.
Qed.

Lemma processFile_ok f bs d o ot h sym mac tab l :
  d !! f = Some bs -> input_ok tab f (default (symbol_of f) sym) bs ->
  let s := default (symbol_of f) sym in
  processFile lib f 0 (-1) (st d o ot h sym mac tab (table_of l))
  = (Done tt, st d o (ot ++ file_out mac (is_some h) f s bs) (hdr_add (file_hdr mac f s bs) h) None mac tab
                (table_of (if tab then l ++ [(f, s, Z.of_nat (length bs))] else l))).
Proof.
  intros Hd Hok. cbv zeta. set (s := default (symbol_of f) sym) in *. destruct Hok as (Hnul & Hne & Hs & Hb & H2 & Hl & Hc & Hq).
  assert (2 <= Z.of_nat (length bs) < 2 ^ 31) as Hn2 by lia. set (n := Z.of_nat (length bs)) in *. assert (0 < n < 2 ^ 31) as Hn by (clearbody n; lia).
  unfold processFile. rewrite C_bind_eq. cbn [get]. cbv beta iota zeta. rewrite hdr_file_some. cbn [st gst outputFile createTable is_some check fmap option_fmap option_map].
  rewrite C_bind_eq. cbn [mret C_ret].
  erewrite C_seq by (by apply output_ok, comment_format).
  erewrite C_seq by (by apply when_header_ok, comment_format).
  erewrite C_seq by (apply symbol_for_ok). change (default (symbol_of f) sym) with s.
  erewrite C_seq by (by apply fopen_r_ok). cbv beta iota.
  erewrite C_seq by apply last_position_ok. cbv beta iota zeta. change (Z.of_nat (length bs)) with n.
  destruct (Z.leb_spec 0 (n - 1 - 1)) as [_|]; [|clearbody n; lia]. cbn [negb].
  erewrite C_seq by apply seek_ok. rewrite C_bind_eq. cbn [check negb mret C_ret].
  replace (n - 1 - 0 + 1) with n by lia.
  erewrite C_seq by (by apply write_sizes_ok).
  erewrite C_seq by (by apply output_ok, array_format).
  rewrite <- (hdr_add_some (comment_text f) h) at 1. rewrite <- (hdr_add_some (size_hdr mac s n)) at 1.
  erewrite C_seq by (by apply when_header_ok, extern_format).
  erewrite (C_seq _ _ _ tt (st d o _ _ (Some s) mac tab (table_of (if tab then l ++ [(f, s, n)] else l)))).
  2:{ destruct tab; [|done]. destruct (Hq eq_refl) as [_ Hlen]. by apply addTableItem_ok; [| |apply item_length]. }
  replace (Z.to_nat n) with (length bs) by (unfold n; lia).
  erewrite C_seq by (apply (write_contents_ok f bs Hb [] 1); cbn [length Nat.add]; unfold n; lia).
  erewrite C_seq by (by apply output_ok). cbn [modify].
  rewrite hdr_add_some, !hdr_add_app. unfold file_out, file_hdr, array_text, array_head. by rewrite <- !(assoc app).
Qed.

(** ** The command line *)

Record job : Type := mkJob { j_name : option (list Z); j_file : list Z; j_bytes : list Z }.

Definition j_symbol (j : job) : list Z := default (symbol_of (j_file j)) (j_name j).
Definition job_args (j : job) : list (list Z) := match j_name j with Some s => [lit "-n"; s; j_file j] | None => [j_file j] end.
Definition job_row (j : job) : list Z * list Z * Z := (j_file j, j_symbol j, Z.of_nat (length (j_bytes j))).

(** A name that is not taken for an option. *)
Definition plain_arg (a : list Z) : Prop := no_nul a /\ head a <> Some 45.

Definition job_ok (tab : bool) (j : job) : Prop :=
  plain_arg (j_file j) /\ input_ok tab (j_file j) (j_symbol j) (j_bytes j).

Lemma plain_char a : plain_arg a -> (char_at a 0 =? 45) = false.
Proof.
  intros [H1 H2]. unfold char_at. rewrite c_str_id by done. destruct a as [|c a]; [done|]. cbn in *. destruct (Z.eqb_spec c 45); [by subst|done].
Qed.

Lemma setSymbolName_ok s d o ot h mac tab tb : identifier s ->
  setSymbolName lib (Some s) (st d o ot h None mac tab tb) = (Done tt, st d o ot h (Some s) mac tab tb).
Proof.
  intros Hs. pose proof (identifier_no_nul s Hs) as Hn. destruct Hs as [(c & r & -> & Hc) Hs]. unfold setSymbolName.
  rewrite C_bind_eq. cbn [get st gst symbolName is_some]. rewrite (c_str_id _ Hn), Hc. cbn [tail]. rewrite C_bind_eq. cbn [check mret C_ret].
  inversion Hs as [|? ? _ Hr]; subst. assert (forallb id_char r = true) as ->
    by (apply forallb_forall; intros x Hx; rewrite Forall_forall in Hr; by apply Hr, list_elem_of_In).
  by rewrite C_bind_eq.
Qed.

Lemma process_jobs js d o h mac tab :
  Forall (fun j => d !! j_file j = Some (j_bytes j) /\ job_ok tab j) js ->
  forall ot ht l,
  process_args lib (mjoin (job_args <$> js)) (st d o ot (hdr_add ht h) None mac tab (table_of l))
  = (Done tt, st d o (ot ++ mjoin ((fun j => file_out mac (is_some h) (j_file j) (j_symbol j) (j_bytes j)) <$> js))
                (hdr_add (ht ++ mjoin ((fun j => file_hdr mac (j_file j) (j_symbol j) (j_bytes j)) <$> js)) h) None mac tab
                (table_of (if tab then l ++ (job_row <$> js) else l))).
Proof.
  induction 1 as [|j js [Hd [Ha Hj]] _ IH]; intros ot ht l.
  - cbn. rewrite !app_nil_r. by destruct tab.
  - rewrite !join_cons.
    assert (forall sym rest, j_symbol j = default (symbol_of (j_file j)) sym ->
      process_args lib (j_file j :: rest) (st d o ot (hdr_add ht h) sym mac tab (table_of l))
      = process_args lib rest (st d o (ot ++ file_out mac (is_some h) (j_file j) (j_symbol j) (j_bytes j))
          (hdr_add (ht ++ file_hdr mac (j_file j) (j_symbol j) (j_bytes j)) h) None mac tab
          (table_of (if tab then l ++ [job_row j] else l)))) as Hfile.
    { intros sym rest Es. cbn [process_args]. rewrite (plain_char _ Ha). unfold job_row. rewrite Es in *.
      erewrite C_seq by (by apply processFile_ok). by rewrite hdr_add_some, hdr_add_app. }
    assert (process_args lib (job_args j ++ mjoin (job_args <$> js)) (st d o ot (hdr_add ht h) None mac tab (table_of l))
      = process_args lib (mjoin (job_args <$> js)) (st d o (ot ++ file_out mac (is_some h) (j_file j) (j_symbol j) (j_bytes j))
          (hdr_add (ht ++ file_hdr mac (j_file j) (j_symbol j) (j_bytes j)) h) None mac tab
          (table_of (if tab then l ++ [job_row j] else l)))) as ->.
    { unfold job_args. destruct (j_name j) as [s|] eqn:En; cbn [app]; [|apply Hfile; unfold j_symbol; by rewrite En].
      transitivity ((_ ← setSymbolName lib (Some s); process_args lib (j_file j :: mjoin (job_args <$> js))) (st d o ot (hdr_add ht h) None mac tab (table_of l)));
        [reflexivity|].
      erewrite C_seq by (apply setSymbolName_ok; unfold input_ok, j_symbol in Hj; rewrite En in Hj; apply Hj).
      apply Hfile. unfold j_symbol. by rewrite En. }
    rewrite IH. rewrite <- !(assoc app). destruct tab; [|done]. rewrite <- (assoc app). done.
Qed.

(** ** Options *)

Definition guard_text (h : list Z) : list Z :=
  generated ++ (lit "#" ++ (lit "ifndef __" ++ symbol_of h ++ lit "_included") ++ nl)
  ++ (lit "#" ++ (lit "define __" ++ symbol_of h ++ lit "_included") ++ nl).
Definition include_line (h : list Z) : list Z := lit "include " ++ [34] ++ h ++ [34].
Definition include_text (h : list Z) : list Z := nl ++ lit "#" ++ include_line h ++ nl.
Definition endif_line (h : list Z) : list Z := lit "endif    /* __" ++ symbol_of h ++ lit "_included */".
Definition endif_text (h : list Z) : list Z := nl ++ lit "#" ++ endif_line h ++ nl.

Lemma symbol_no_nul f : no_nul (symbol_of f).
Proof.
  unfold symbol_of. assert (no_nul ((fun c => if alnum c then c else 95) <$> c_str f)) as H.
  { apply Forall_fmap, Forall_forall. intros c _. cbn. destruct (alnum c) eqn:E; [|done]. intros ->. done. }
  destruct (_ <$> _) as [|c r]; [constructor|]. inversion H; subst. constructor; [|done]. by destruct (_ && _).
Qed.

Lemma fopen_w_ok n g : fopen_w lib n g = (Done (Some (mkStream n [] true)), set_disk (<[n := []]> (disk g)) g).
Proof. unfold fopen_w. rewrite C_bind_eq, (w_fopen _ Hlib). reflexivity. Qed.

Lemma guard_format s : no_nul s ->
  vformat (directives (lit "#ifndef __%s_included" ++ nl)) [AStr (Some s)] = Some (lit "#" ++ (lit "ifndef __" ++ s ++ lit "_included") ++ nl)
  /\ vformat (directives (lit "#define __%s_included" ++ nl)) [AStr (Some s)] = Some (lit "#" ++ (lit "define __" ++ s ++ lit "_included") ++ nl)
  /\ vformat (directives header_end) [AStr (Some s)] = Some (nl ++ lit "#" ++ (lit "endif    /* __" ++ s ++ lit "_included */") ++ nl).
Proof.
  intros H. pose proof (c_str_id s H) as E. rewrite <- !(assoc app). split_and!.
  - transitivity (Some (lit "#" ++ lit "ifndef __" ++ c_str s ++ lit "_included" ++ nl)); [reflexivity|by rewrite E].
  - transitivity (Some (lit "#" ++ lit "define __" ++ c_str s ++ lit "_included" ++ nl)); [reflexivity|by rewrite E].
  - transitivity (Some (nl ++ lit "#" ++ lit "endif    /* __" ++ c_str s ++ lit "_included */" ++ nl)); [reflexivity|by rewrite E].
Qed.

Lemma generated_format : vformat (directives generated) [] = Some generated.
Proof. reflexivity. Qed.

Lemma openHeaderFile_ok h d mac tab tb :
  openHeaderFile lib (Some h) (gst d None None None mac tab tb)
  = (Done tt, gst (<[h := []]> d) None (Some (h, guard_text h)) None mac tab tb).
Proof.
  unfold openHeaderFile. erewrite (C_seq (close_header lib)) by reflexivity. rewrite C_bind_eq. cbn [get].
  erewrite C_seq by apply fopen_w_ok. rewrite C_bind_eq. cbn [modify]. rewrite C_bind_eq. cbn [check is_some mret C_ret].
  rewrite C_bind_eq. cbn [modify]. erewrite C_seq by apply fileNameToSymbol_ok. rewrite C_bind_eq. cbn [modify].
  change (set_headerSymbol _ _) with (gst (<[h := []]> d) None (Some (h, [])) None mac tab tb).
  destruct (guard_format _ (symbol_no_nul h)) as (E1 & E2 & _). erewrite C_seq by (by apply header_gst, generated_format).
  erewrite C_seq by (by apply header_gst, E1). erewrite header_gst; [|done|exact E2]. rewrite !hdr_add_app.
  unfold hdr_add, guard_text. cbn [fmap option_fmap option_map fst snd]. reflexivity.
Qed.

Definition include_for (tab : bool) (h : option (list Z)) : list Z :=
  match h with Some n => if tab then include_text n else [] | None => [] end.

Lemma include_format n : no_nul n ->
  vformat (directives (nl ++ lit "#include " ++ [34] ++ lit "%s" ++ [34] ++ nl)) [AStr (Some n)] = Some (include_text n).
Proof.
  intros H. transitivity (Some (nl ++ lit "#" ++ include_line (c_str n) ++ nl)); [|by rewrite c_str_id].
  unfold include_line. rewrite <- !(assoc app). reflexivity.
Qed.

Lemma openOutputFile_ok o h d mac tab tb : (forall x, h = Some x -> no_nul x.1) ->
  openOutputFile lib (Some o) (gst d None h None mac tab tb)
  = (Done tt, st (<[o := []]> d) o (generated ++ include_for tab (fst <$> h)) h None mac tab tb).
Proof.
  intros Hh. unfold openOutputFile. rewrite C_bind_eq. cbn [get]. erewrite (C_seq (when _ _)) by reflexivity.
  erewrite C_seq by apply fopen_w_ok. rewrite C_bind_eq. cbn [modify]. rewrite C_bind_eq. cbn [check is_some mret C_ret].
  rewrite C_bind_eq. cbn [modify].
  change (set_outputFileName _ _) with (st (<[o := []]> d) o [] h None mac tab tb).
  erewrite C_seq by apply output_ok, generated_format. rewrite app_nil_l.
  destruct h as [[hn ht]|]; cbn [gst headerFile createTable headerFileName fmap option_fmap option_map is_some andb include_for fst];
    [|by rewrite app_nil_r].
  destruct tab; cbn [when]; [|by rewrite app_nil_r]. apply output_ok, include_format. by apply (Hh (hn, ht)).
Qed.

Record options : Type := mkOptions { o_macro : bool; o_table : bool; o_header : option (list Z); o_output : list Z }.

Definition option_args (o : options) : list (list Z) :=
  (if o_macro o then [lit "-m"] else []) ++ (if o_table o then [lit "-t"] else [])
  ++ (match o_header o with Some h => [lit "-d"; h] | None => [] end) ++ [lit "-o"; o_output o].

Definition command (o : options) (js : list job) : list (list Z) := option_args o ++ mjoin (job_args <$> js).

Definition guard_for (h : option (list Z)) : list Z := match h with Some n => guard_text n | None => [] end.
Definition opened (o : options) (d : gmap (list Z) (list Z)) : gmap (list Z) (list Z) :=
  <[o_output o := []]> (match o_header o with Some h => <[h := []]> d | None => d end).
Definition hdr_of (o : options) : option (list Z * list Z) := (fun h => (h, [])) <$> o_header o.

Lemma process_options o d rest : (forall h, o_header o = Some h -> no_nul h) ->
  process_args lib (option_args o ++ rest) (globals_init d)
  = process_args lib rest (st (opened o d) (o_output o) (generated ++ include_for (o_table o) (o_header o))
      (hdr_add (guard_for (o_header o)) (hdr_of o)) None (o_macro o) (o_table o) (table_of [])).
Proof.
  intros Hh. destruct o as [mac tab h out]. unfold option_args, opened, hdr_of. cbn [o_macro o_table o_header o_output] in *.
  assert (forall g, process_args lib ((if mac then [lit "-m"] else []) ++ g) (globals_init d) = process_args lib g (gst d None None None mac false (table_of []))) as Hm
    by (intros g; by destruct mac).
  assert (forall g, process_args lib ((if tab then [lit "-t"] else []) ++ g) (gst d None None None mac false (table_of []))
                    = process_args lib g (gst d None None None mac tab (table_of []))) as Ht by (intros g; by destruct tab).
  rewrite <- !(assoc app), Hm, Ht. destruct h as [h|]; cbn [app guard_for fmap option_fmap option_map hdr_add fst snd].
  - transitivity ((_ ← openHeaderFile lib (Some h); process_args lib (lit "-o" :: out :: rest)) (gst d None None None mac tab (table_of []))); [reflexivity|].
    erewrite C_seq by apply openHeaderFile_ok.
    transitivity ((_ ← openOutputFile lib (Some out); process_args lib rest) (gst (<[h := []]> d) None (Some (h, guard_text h)) None mac tab (table_of []))); [reflexivity|].
    erewrite C_seq by (apply openOutputFile_ok; intros x [= <-]; by apply Hh). done.
  - transitivity ((_ ← openOutputFile lib (Some out); process_args lib rest) (gst d None None None mac tab (table_of []))); [reflexivity|].
    by erewrite C_seq by (by apply openOutputFile_ok).
Qed.

(** ** The end of the program *)

Definition close_files : C unit :=
  _ ← close_header lib;
  _ ← (g ← get; when (is_some (outputFile g)) (e ← fclose lib Output; check lib (negb e) cantClose [AStr (outputFileName g)]));
  stop (Exit EXIT_SUCCESS).

Definition closed_disk (d : gmap (list Z) (list Z)) (o ot : list Z) (h : option (list Z * list Z)) : gmap (list Z) (list Z) :=
  <[o := ot]> (match h with Some (hn, ht) => <[hn := ht ++ endif_text hn]> d | None => d end).

Lemma fclose_ok w s g : file_of w g = Some s -> s_open s = true ->
  fclose lib w g = (Done false, set_disk (<[s_name s := s_text s]> (disk g)) (set_file w (Some (mkStream (s_name s) (s_text s) false)) g)).
Proof.
  intros Hf Ho. unfold fclose. rewrite C_bind_eq. cbn [get]. rewrite Hf, Ho. rewrite C_bind_eq. cbn [modify]. rewrite C_bind_eq. cbn [modify].
  rewrite (w_fclose _ Hlib). by destruct w.
Qed.

Lemma close_header_ok d o ot h sym mac tab tb :
  exists g, close_header lib (st d o ot h sym mac tab tb) = (Done tt, g)
    /\ disk g = match h with Some (hn, ht) => <[hn := ht ++ endif_text hn]> d | None => d end
    /\ outputFile g = Some (mkStream o ot true) /\ stderr g = [].
Proof.
  unfold close_header. rewrite C_bind_eq. cbn [get]. rewrite hdr_file_some. destruct h as [[hn ht]|]; cbn [is_some when]; [|by eexists].
  change (headerSymbol (st d o ot (Some (hn, ht)) sym mac tab tb)) with (Some (symbol_of hn)).
  destruct (guard_format _ (symbol_no_nul hn)) as (_ & _ & E). erewrite C_seq by (by apply header_ok, E).
  rewrite C_bind_eq. cbn [modify]. erewrite C_seq by (by eapply fclose_ok). by eexists.
Qed.

Lemma close_files_ok d o ot h sym mac tab tb :
  exists g, close_files (st d o ot h sym mac tab tb) = (Exit EXIT_SUCCESS, g) /\ disk g = closed_disk d o ot h /\ stderr g = [].
Proof.
  unfold close_files. destruct (close_header_ok d o ot h sym mac tab tb) as (g & E & Hd & Ho & He).
  rewrite (C_seq _ _ _ _ _ E). rewrite C_bind_eq, C_bind_eq. cbn [get]. rewrite Ho. cbn [is_some when].
  erewrite C_seq by (by eapply fclose_ok). cbn [check negb mret C_ret stop s_name s_text]. eexists. split; [done|].
  split; [cbn; by rewrite Hd|exact He].
Qed.

(** The table ends the output. *)
Definition table_out (hdr : bool) (l : list (list Z * list Z * Z)) : list Z := (if hdr then [] else tableHead) ++ table_text l.

Lemma no_percent_items l : Forall row_ok l -> Forall (fun c => c <> 37) (items_text l).
Proof.
  intros H. assert (forall x, row_ok x -> Forall (fun c => c <> 37) (item_text x)) as Hx.
  { intros [[f s] n] (Hf & Hs & Hn). unfold item_text. cbn [fst snd] in *.
    assert (Forall (fun c => c <> 37) f) by (eapply Forall_impl; [exact Hf|]; tauto).
    assert (Forall (fun c => c <> 37) s) by (eapply Forall_impl; [apply Hs|]; by intros c Hc ->).
    assert (Forall (fun c => c <> 37) (to_string n)).
    { unfold to_string. destruct (Z.ltb_spec n 0); [lia|]. eapply Forall_impl; [apply dec_digits_digits; lia|]. by intros c Hc ->. }
    repeat apply Forall_app_2; try done; repeat constructor; done. }
  induction H as [|x l H0 _ IH]; [constructor|]. destruct l as [|y l]; [by apply Hx|].
  change (items_text (x :: y :: l)) with (item_text x ++ lit "," ++ nl ++ items_text (y :: l)).
  apply Forall_app_2; [by apply Hx|]. do 2 (apply Forall_app_2; [by repeat constructor|]). exact IH.
Qed.

Lemma finishAndWriteTable_ok l d o ot h sym mac tab : l <> [] -> Forall row_ok l -> Z.of_nat (length l) < 2 ^ 31 ->
  finishAndWriteTable lib (st d o ot h sym mac tab (table_of l))
  = (Done tt, st d o (ot ++ table_out (is_some h) l) (hdr_add tableHead h) sym mac tab (table_of l)).
Proof.
  intros Hn Hl Hk. unfold finishAndWriteTable. rewrite C_bind_eq. cbn [get]. rewrite hdr_file_some.
  assert ((if is_some h then header lib tableHead [] else output lib tableHead []) (st d o ot h sym mac tab (table_of l))
    = (Done tt, st d o (ot ++ (if is_some h then [] else tableHead)) (hdr_add tableHead h) sym mac tab (table_of l))) as E.
  { destruct h as [x|]; cbn [is_some]; [rewrite app_nil_r; apply header_ok; [done|reflexivity]|apply output_ok; reflexivity]. }
  rewrite (C_seq _ _ _ _ _ E).
  erewrite C_seq by (apply (output_ok _ _ tableStart); reflexivity).
  assert (tableStr (st d o ot h sym mac tab (table_of l)) = Some (items_text l) /\ tableCount (st d o ot h sym mac tab (table_of l)) = Z.of_nat (length l))
    as [-> ->] by (by destruct l).
  erewrite C_seq by (apply output_ok, plain_format, no_percent_items, Hl).
  rewrite (output_ok _ _ (nl ++ lit "};" ++ nl ++ lit "const unsigned int fileTableSize = " ++ to_string (Z.of_nat (length l)) ++ lit ";" ++ nl)).
  - unfold table_out, table_text. by rewrite <- !app_assoc.
  - transitivity (Some (nl ++ lit "};" ++ nl ++ lit "const unsigned int fileTableSize = " ++ to_string (cast I32 (Z.of_nat (length l))) ++ lit ";" ++ nl)); [reflexivity|].
    rewrite cast_size; [done|]. destruct l; [done|cbn [length] in *; lia].
Qed.

(** ** The whole run *)

Record command_ok (o : options) (d : gmap (list Z) (list Z)) (js : list job) : Prop := {
  co_output : plain_arg (o_output o);
  co_header : forall h, o_header o = Some h -> plain_arg h /\ h <> o_output o /\ Forall (fun c => c <> 10) h;
  co_jobs : Forall (fun j => j_file j <> o_output o /\ o_header o <> Some (j_file j) /\ d !! j_file j = Some (j_bytes j)
                             /\ job_ok (o_table o) j) js;
  co_table : o_table o = true -> js <> [] /\ Z.of_nat (length js) < 2 ^ 31
}.

Definition job_out (o : options) (j : job) : list Z := file_out (o_macro o) (is_some (o_header o)) (j_file j) (j_symbol j) (j_bytes j).
Definition job_hdr (o : options) (j : job) : list Z := file_hdr (o_macro o) (j_file j) (j_symbol j) (j_bytes j).

Definition out_text (o : options) (js : list job) : list Z :=
  (generated ++ include_for (o_table o) (o_header o)) ++ mjoin (job_out o <$> js)
  ++ (if o_table o then table_out (is_some (o_header o)) (job_row <$> js) else []).
Definition hdr_text (o : options) (js : list job) (h : list Z) : list Z :=
  (guard_text h ++ mjoin (job_hdr o <$> js) ++ (if o_table o then tableHead else [])) ++ endif_text h.

Ltac listed := apply (bool_decide_eq_true_1 _); vm_compute; reflexivity.

(** Arguments that [main] does not take for -h or -v. *)
Lemma command_flags o d js s : command_ok o d js -> s ∈ ["-h"; "--help"; "-v"; "--version"]%string ->
  Forall (fun a => is_arg s a = false) (command o js).
Proof.
  intros [Ho Hh Hj _] Hs.
  assert (forall a, (char_at a 0 =? 45) = false -> is_arg s a = false) as Hp.
  { intros a Ha. unfold is_arg. apply bool_decide_eq_false_2. intros E. unfold char_at in Ha. rewrite E in Ha.
    repeat (apply elem_of_cons in Hs as [-> |Hs]; [done|]). by apply elem_of_nil in Hs. }
  assert (forall t, t ∈ ["-m"; "-t"; "-d"; "-o"; "-n"]%string -> is_arg s (lit t) = false) as Ht.
  { intros t H. repeat (apply elem_of_cons in H as [-> |H]; [by repeat (apply elem_of_cons in Hs as [-> |Hs]; [reflexivity|]); apply elem_of_nil in Hs|]).
    by apply elem_of_nil in H. }
  assert (forall a, plain_arg a -> is_arg s a = false) as Hpl by (intros a Ha; by apply Hp, plain_char).
  unfold command, option_args. repeat apply Forall_app_2.
  - destruct (o_macro o); repeat constructor. apply Ht. listed.
  - destruct (o_table o); repeat constructor. apply Ht. listed.
  - destruct (o_header o) as [h|]; repeat constructor; [apply Ht; listed|]. apply Hpl, Hh. done.
  - repeat constructor; [apply Ht; listed|by apply Hpl].
  - apply Forall_join. apply Forall_fmap. eapply Forall_impl; [exact Hj|]. intros j (_ & _ & _ & Ha & Hi). cbn. unfold job_args.
    destruct (j_name j) as [n|] eqn:En; repeat constructor; try (by apply Hpl); [apply Ht; listed|].
    unfold input_ok, j_symbol in Hi. rewrite En in Hi. change (default (symbol_of (j_file j)) (Some n)) with n in Hi. destruct Hi as (_ & _ & Hid & _). pose proof (identifier_no_nul n Hid) as Hn.
    apply Hp. destruct Hid as [(c & r & -> & Hc) _]. unfold char_at. rewrite (c_str_id _ Hn). change ((c =? 45) = false).
    apply Z.eqb_neq. intros ->. discriminate Hc.
Qed.

Lemma existsb_false {A} (f : A -> bool) l : Forall (fun a => f a = false) l -> existsb f l = false.
Proof. induction 1 as [|x l Hx _ IH]; [done|]. cbn [existsb]. by rewrite Hx, IH. Qed.

Lemma command_main o d js : command_ok o d js ->
  main lib (command o js)
  = (_ ← process_args lib (command o js); g ← get; _ ← when (createTable g) (finishAndWriteTable lib); close_files).
Proof.
  intros Hok. unfold main.
  assert (forall s t, s ∈ ["-h"; "--help"; "-v"; "--version"]%string -> t ∈ ["-h"; "--help"; "-v"; "--version"]%string ->
    existsb (fun a => is_arg s a || is_arg t a) (command o js) = false) as H.
  { intros s t Hs Ht. apply existsb_false. pose proof (command_flags _ _ _ _ Hok Hs) as H1. pose proof (command_flags _ _ _ _ Hok Ht) as H2.
    apply Forall_forall. intros a Ha. rewrite Forall_forall in H1, H2. by rewrite H1, H2. }
  rewrite !H by listed. rewrite bool_decide_eq_false_2; [done|]. unfold command, option_args. intros E. 
  apply (f_equal length) in E. rewrite !length_app in E. cbn [length] in E. lia.
Qed.

Lemma job_row_ok tab j : job_ok tab j -> tab = true -> row_ok (job_row j).
Proof. intros (_ & _ & _ & Hs & _ & H2 & Hl & _ & Hq) Ht. destruct (Hq Ht) as [Hf _]. split_and!; cbn [job_row fst snd]; [done|done|lia|done]. Qed.

Lemma main_ok o d js : command_ok o d js ->
  exists g, main lib (command o js) (globals_init d) = (Exit EXIT_SUCCESS, g) /\ stderr g = []
    /\ disk g = <[o_output o := out_text o js]> (match o_header o with Some h => <[h := hdr_text o js h]> (opened o d) | None => opened o d end).
Proof.
  intros Hok. rewrite (command_main _ _ _ Hok). destruct Hok as [Ho Hh Hj Ht].
  rewrite C_bind_eq. unfold command. rewrite process_options by (intros h E; apply Hh, E).
  rewrite process_jobs.
  2:{ eapply Forall_impl; [exact Hj|]. intros j (H1 & H2 & Hd & Hjo). split; [|done]. unfold opened. rewrite lookup_insert_ne by done.
      destruct (o_header o) as [h|]; [|done]. rewrite lookup_insert_ne; [done|]. congruence. }
  rewrite C_bind_eq. cbn [get]. cbv beta iota.
  replace (is_some (hdr_of o)) with (is_some (o_header o)) by (unfold hdr_of; by destruct (o_header o)).
  set (ot := (generated ++ _) ++ _). set (ht := guard_for _ ++ _).
  assert (exists tb, when (createTable (st (opened o d) (o_output o) ot (hdr_add ht (hdr_of o)) None (o_macro o) (o_table o)
        (table_of (if o_table o then [] ++ (job_row <$> js) else [])))) (finishAndWriteTable lib)
      (st (opened o d) (o_output o) ot (hdr_add ht (hdr_of o)) None (o_macro o) (o_table o) (table_of (if o_table o then [] ++ (job_row <$> js) else [])))
    = (Done tt, st (opened o d) (o_output o) (ot ++ (if o_table o then table_out (is_some (o_header o)) (job_row <$> js) else []))
        (hdr_add (ht ++ (if o_table o then tableHead else [])) (hdr_of o)) None (o_macro o) (o_table o) tb)) as [tb E].
  { cbn [createTable st gst]. destruct (o_table o) eqn:Et; cbn [when]; [|by rewrite !app_nil_r; eexists].
    destruct (Ht eq_refl) as [Hne Hlen]. eexists. rewrite finishAndWriteTable_ok.
    - rewrite hdr_add_some, hdr_add_app. replace (is_some (hdr_of o)) with (is_some (o_header o)) by (unfold hdr_of; by destruct (o_header o)). done.
    - cbn [app]. by destruct js.
    - cbn [app]. apply Forall_fmap. eapply Forall_impl; [exact Hj|]. intros j (_ & _ & _ & Hjo). by apply (job_row_ok true).
    - cbn [app]. by rewrite length_fmap. }
  erewrite C_seq by exact E.
  destruct (close_files_ok (opened o d) (o_output o) (ot ++ (if o_table o then table_out (is_some (o_header o)) (job_row <$> js) else []))
    (hdr_add (ht ++ (if o_table o then tableHead else [])) (hdr_of o)) None (o_macro o) (o_table o) tb) as (g & Eg & Hd & He).
  exists g. split; [exact Eg|]. split; [exact He|]. rewrite Hd. unfold closed_disk, hdr_of, out_text, hdr_text, job_out, job_hdr, ot, ht.
  destruct (o_header o) as [h|]; cbn [hdr_add fmap option_fmap option_map fst snd]; [|by rewrite <- !app_assoc].
  cbn [guard_for]. rewrite app_nil_l. by rewrite <- !app_assoc.
Qed.
End Runs.

(** ** What the files declare *)

Definition size_decl (mac : bool) (s : list Z) (n : Z) : decl :=
  if mac then Directive (macro_line s n) else Constant (chars ["const"; "long"; "int"]%string) (size_name s) n.
Definition size_extern (mac : bool) (s : list Z) (n : Z) : decl :=
  if mac then Directive (macro_line s n) else Extern (chars ["const"; "long"; "int"]%string) (size_name s) None.

(** The array of a file and its size; with a header, a size that is a macro is
    defined there. *)
Definition job_decls (o : options) (j : job) : list decl :=
  let n := Z.of_nat (length (j_bytes j)) in
  (if o_macro o && is_some (o_header o) then [] else [size_decl (o_macro o) (j_symbol j) n])
  ++ [Array byte_type (j_symbol j) n (j_bytes j)].

Definition job_externs (o : options) (j : job) : list decl :=
  let n := Z.of_nat (length (j_bytes j)) in
  [size_extern (o_macro o) (j_symbol j) n; Extern byte_type (j_symbol j) (Some n)].

(** The type of the table and the declarations of its variables. *)
Definition table_decls : list decl :=
  [Other [Tid (lit "typedef"); Tid (lit "struct"); Tpunct 123; Tid (lit "char"); Tpunct 42; Tid (lit "entryName"); Tpunct 59;
          Tid (lit "const"); Tid (lit "char"); Tpunct 42; Tid (lit "data"); Tpunct 59;
          Tid (lit "long"); Tid (lit "int"); Tid (lit "size"); Tpunct 59; Tpunct 125; Tid (lit "TFileTableEntry")];
   Extern (chars ["const"; "unsigned"; "int"]%string) (lit "fileTableSize") None;
   Other [Tid (lit "extern"); Tid (lit "const"); Tid (lit "TFileTableEntry"); Tid (lit "fileTable"); Tpunct 91; Tpunct 93]].

Definition table_data (rows : list (list Z * list Z * Z)) : list decl :=
  [Table (chars ["const"; "TFileTableEntry"]%string) (lit "fileTable") rows;
   Constant (chars ["const"; "unsigned"; "int"]%string) (lit "fileTableSize") (Z.of_nat (length rows))].

Definition out_decls (o : options) (js : list job) : list decl :=
  (match o_header o with Some h => if o_table o then [Directive (include_line h)] else [] | None => [] end)
  ++ mjoin (job_decls o <$> js)
  ++ (if o_table o then (if is_some (o_header o) then [] else table_decls) ++ table_data (job_row <$> js) else []).

Definition hdr_decls (o : options) (js : list job) (h : list Z) : list decl :=
  [Directive (lit "ifndef __" ++ symbol_of h ++ lit "_included"); Directive (lit "define __" ++ symbol_of h ++ lit "_included")]
  ++ mjoin (job_externs o <$> js) ++ (if o_table o then table_decls else []) ++ [Directive (endif_line h)].

(** A concrete text is read by computation. *)
Ltac declares_concrete ts us :=
  exists ts, us; split_and!; [vm_compute; reflexivity|intros ?r; cbn; by destruct (split_decls [] 0 _)|vm_compute; reflexivity].

Lemma declares_generated : declares generated [].
Proof. declares_concrete (@nil token) (@nil (list token)). Qed.

Lemma declares_nl : declares nl [].
Proof. declares_concrete (@nil token) (@nil (list token)). Qed.

Lemma declares_tableHead : declares tableHead table_decls.
Proof.
  set (ts := (scan Start tableHead).1). set (us := default [] (split_decls [] 0 ts)). vm_compute in ts, us.
  declares_concrete ts us.
Qed.

Lemma symbol_no_newline f : Forall (fun c => c <> 10) (symbol_of f).
Proof.
  unfold symbol_of. assert (Forall (fun c => c <> 10) ((fun c => if alnum c then c else 95) <$> c_str f)) as H.
  { apply Forall_fmap, Forall_forall. intros c _. cbn. destruct (alnum c) eqn:E; [|done]. intros ->. done. }
  destruct (_ <$> _) as [|c r]; [constructor|]. inversion H; subst. constructor; [|done]. by destruct (_ && _).
Qed.

Lemma identifier_no_newline s : identifier s -> Forall (fun c => c <> 10) s.
Proof. intros [_ H]. eapply Forall_impl; [exact H|]. by intros c Hc ->. Qed.

Lemma to_string_no_newline n : 0 < n -> Forall (fun c => c <> 10) (to_string n).
Proof.
  intros H. unfold to_string. destruct (Z.ltb_spec n 0); [lia|]. eapply Forall_impl; [apply dec_digits_digits; lia|]. by intros c Hc ->.
Qed.

Ltac no_newline := repeat apply Forall_app_2; try done; try (by repeat constructor).

Lemma declares_macro s n : identifier s -> 0 < n -> declares (macro_text s n) [Directive (macro_line s n)].
Proof.
  intros Hs Hn. apply declares_directive. pose proof (identifier_no_newline s Hs). pose proof (to_string_no_newline n Hn).
  unfold macro_line, size_name. no_newline.
Qed.

Lemma declares_job_out o j : job_ok (o_table o) j -> declares (job_out o j) (job_decls o j).
Proof.
  intros (_ & _ & _ & Hs & Hb & H2 & Hl & Hc & _). unfold job_out, job_decls, file_out. cbv zeta.
  apply (declares_app _ _ []); [by apply declares_comment|]. apply declares_app.
  - unfold size_out, size_decl. destruct (o_macro o), (is_some (o_header o)); cbn [andb].
    + apply declares_nil.
    + apply declares_macro; [done|lia].
    + apply declares_size; [done|lia].
    + apply declares_size; [done|lia].
  - apply declares_array; try done. intros E. rewrite E in H2. cbn [length] in H2. lia.
Qed.

Lemma declares_job_hdr o j : job_ok (o_table o) j -> declares (job_hdr o j) (job_externs o j).
Proof.
  intros (_ & _ & _ & Hs & Hb & H2 & Hl & Hc & _). unfold job_hdr, job_externs, file_hdr. cbv zeta.
  apply (declares_app _ _ []); [by apply declares_comment|]. apply (declares_app _ _ [_] [_]); [|apply declares_extern; [done|lia]].
  unfold size_hdr, size_extern. destruct (o_macro o); [apply declares_macro; [done|lia]|by apply declares_extern_size].
Qed.

Lemma declares_out o d js : command_ok o d js -> declares (out_text o js) (out_decls o js).
Proof.
  intros [Ho Hh Hj Ht]. assert (Forall (job_ok (o_table o)) js) as Hjs by (eapply Forall_impl; [exact Hj|]; by intros j (_ & _ & _ & H)).
  unfold out_text, out_decls. apply declares_app; [apply (declares_app _ _ []); [apply declares_generated|]|apply declares_app].
  - unfold include_for. destruct (o_header o) as [h|]; [|apply declares_nil]. destruct (o_table o); [|apply declares_nil].
    apply (declares_app _ _ []); [apply declares_nl|]. apply declares_directive. destruct (Hh h eq_refl) as (_ & _ & H). unfold include_line. no_newline.
  - apply declares_join. intros j Hin. apply declares_job_out. rewrite Forall_forall in Hjs. by apply Hjs.
  - destruct (o_table o) eqn:Et; [|apply declares_nil]. destruct (Ht eq_refl) as [Hne Hlen]. apply declares_app.
    + destruct (is_some (o_header o)); [apply declares_nil|apply declares_tableHead].
    + apply declares_table; [by destruct js| |by rewrite length_fmap]. apply Forall_fmap. eapply Forall_impl; [exact Hjs|].
      intros j H. by apply (job_row_ok true).
Qed.

Lemma declares_hdr o d js h : command_ok o d js -> declares (hdr_text o js h) (hdr_decls o js h).
Proof.
  intros [Ho Hh Hj Ht]. assert (Forall (job_ok (o_table o)) js) as Hjs by (eapply Forall_impl; [exact Hj|]; by intros j (_ & _ & _ & H)).
  unfold hdr_text, hdr_decls. rewrite <- !app_assoc. pose proof (symbol_no_newline h).
  apply declares_app; [|apply declares_app; [|apply declares_app]].
  - apply (declares_app _ _ []); [apply declares_generated|]. apply (declares_app _ _ [_] [_]); apply declares_directive; no_newline.
  - apply declares_join. intros j Hin. apply declares_job_hdr. rewrite Forall_forall in Hjs. by apply Hjs.
  - destruct (o_table o); [apply declares_tableHead|apply declares_nil].
  - apply (declares_app _ _ []); [apply declares_nl|]. apply declares_directive. unfold endif_line. no_newline.
Qed.

(** ** Properties *)

(** C35: What bin2c writes is the data it was given.  For a command line of options
    (-m, -t, -d header, -o output, in this order) and input files of two bytes at
    least, each with or without a symbol name of its own, the program ends with
    success and without a message, and leaves every file but its output and its
    header as it was.  The output, read by the rules of C, declares for each file
    in turn its size and an array of exactly its bytes, under the symbol given or
    made from the name of the file, and with -t the table of all files; the header
    declares the same symbols between its include guards. *)
Theorem bin2c_roundtrip lib o d js :
  works lib -> command_ok o d js ->
  exists g,
    main lib (command o js) (globals_init d) = (Exit EXIT_SUCCESS, g) /\ stderr g = []
    /\ disk g !! o_output o ≫= read_C = Some (out_decls o js)
    /\ (forall h, o_header o = Some h -> disk g !! h ≫= read_C = Some (hdr_decls o js h))
    /\ (forall n, n <> o_output o -> o_header o <> Some n -> disk g !! n = d !! n).
Proof.
  intros Hlib Hok. destruct (main_ok lib Hlib o d js Hok) as (g & E & He & Hd). exists g. split; [done|]. split; [done|].
  rewrite Hd. clear Hd. split_and!.
  - rewrite lookup_insert_eq. cbn. eapply declares_read, declares_out, Hok.
  - intros h Eh. destruct (co_header _ _ _ Hok h Eh) as (_ & Hne & _). rewrite Eh, lookup_insert_ne, lookup_insert_eq by done. cbn.
    eapply declares_read, declares_hdr, Hok.
  - intros n Hn Hh. rewrite lookup_insert_ne by done. unfold opened. destruct (o_header o) as [h|].
    + rewrite !lookup_insert_ne by congruence. done.
    + by rewrite lookup_insert_ne.
Qed.

Definition demo_disk : gmap (list Z) (list Z) :=
  {[ lit "img/logo.png" := seqZ 100 18; lit "2nd" := [0; 255]; lit "notes" := lit "keep" ]}.
Definition demo_options : options := mkOptions false true (Some (lit "data.h")) (lit "data.c").
Definition demo_jobs : list job := [mkJob None (lit "img/logo.png") (seqZ 100 18); mkJob (Some (lit "second")) (lit "2nd") [0; 255]].

#[export] Instance identifier_dec s : Decision (identifier s).
Proof.
  refine (cast_if (decide (match s with c :: _ => id_start c | [] => false end = true /\ Forall (fun c => id_char c = true) s))).
  - destruct a as [H1 H2]. split; [|done]. destruct s as [|c r]; [done|by exists c, r].
  - intros [(c & r & -> & Hc) H]. by apply n.
Defined.

Lemma bin2c_roundtrip_witness :
  exists g,
    main reliable (command demo_options demo_jobs) (globals_init demo_disk) = (Exit EXIT_SUCCESS, g) /\ stderr g = []
    /\ disk g !! lit "data.c" ≫= read_C = Some (out_decls demo_options demo_jobs)
    /\ (forall h, Some (lit "data.h") = Some h -> disk g !! h ≫= read_C = Some (hdr_decls demo_options demo_jobs h))
    /\ (forall n, n <> lit "data.c" -> Some (lit "data.h") <> Some n -> disk g !! n = demo_disk !! n).
Proof.
  apply (bin2c_roundtrip reliable demo_options demo_disk demo_jobs reliable_works). split.
  - apply (bool_decide_eq_true_1 _). vm_compute. reflexivity.
  - intros h [= <-]. apply (bool_decide_eq_true_1 _). vm_compute. reflexivity.
  - apply (bool_decide_eq_true_1 _). vm_compute. reflexivity.
  - intros _. split; [done|reflexivity].
Defined.

(** ** Where bin2c fails *)

(** A file of one byte, or an empty one, stops the program at its assertion. *)
Lemma short_file_aborts lib f bs d o ot h sym mac tab tb :
  works lib -> no_nul f -> d !! f = Some bs -> (length bs < 2)%nat ->
  (processFile lib f 0 (-1) (st d o ot h sym mac tab tb)).1 = Aborted.
Proof.
  intros Hlib Hf Hd Hl. unfold processFile. rewrite C_bind_eq. cbn [get]. cbv beta iota zeta. rewrite hdr_file_some.
  cbn [st gst outputFile createTable is_some check fmap option_fmap option_map]. rewrite C_bind_eq. cbn [mret C_ret].
  erewrite C_seq by (by apply output_ok, comment_format). erewrite C_seq by (by apply when_header_ok, comment_format).
  erewrite C_seq by (by apply symbol_for_ok). erewrite C_seq by (by apply fopen_r_ok). cbv beta iota.
  erewrite C_seq by (by apply last_position_ok). cbv beta iota zeta. destruct (Z.leb_spec 0 (Z.of_nat (length bs) - 1 - 1)); [lia|done].
Qed.

Definition outcome_of (lib : clib) (argv : list string) (d : gmap (list Z) (list Z)) : result unit := (main lib (lit <$> argv) (globals_init d)).1.

(** With -t and no input file the table is a null pointer, used as a format; without
    an output file the table goes to a null stream. *)
Lemma empty_table_UB d :
  outcome_of reliable ["-t"; "-o"; "a.c"]%string d = Undefined /\ outcome_of reliable ["-t"]%string d = Undefined.
Proof. split; reflexivity. Qed.

(** The table is a format: a percent sign in the name of a file is a conversion. *)
Lemma percent_in_table_UB :
  outcome_of reliable ["-t"; "-o"; "a.c"; "50%s"]%string {[lit "50%s" := [1; 2]]} = Undefined
  /\ outcome_of reliable ["-o"; "a.c"; "50%s"]%string {[lit "50%s" := [1; 2]]} = Exit EXIT_SUCCESS.
Proof. split; vm_compute; reflexivity. Qed.

(** A path of 250 characters overflows the buffer of a table item. *)
Lemma long_name_overflows :
  let f := replicate 250 97 in
  (main reliable [lit "-t"; lit "-o"; lit "a.c"; f] (globals_init {[f := [1; 2]]})).1 = Undefined.
Proof. vm_compute. reflexivity. Qed.

(** An output that cannot be opened is reported under the name of the one before. *)
Lemma wrong_name_reported :
  let lib := mkClib (fun n => if bool_decide (n = lit "b.c") then Some (lit "Permission denied") else None) (fun _ _ => None)
                    (fun _ => None) (fun _ => None) (fun _ => None) (fun _ _ => false) (fun _ => None) in
  let r := main lib (lit <$> ["-o"; "a.c"; "x"; "-o"; "b.c"; "x"]%string) (globals_init {[lit "x" := [1; 2]]}) in
  r.1 = Exit EXIT_FAILURE /\ stderr r.2 = lit "bin2c: Can't open file 'a.c': Permission denied" ++ nl.
Proof. split; vm_compute; reflexivity. Qed.

(** When the output cannot be closed it is closed a second time. *)
Lemma close_error_UB :
  let lib := mkClib (fun _ => None) (fun _ _ => None) (fun _ => Some (lit "No space left on device")) (fun _ => None)
                    (fun _ => None) (fun _ _ => false) (fun _ => None) in
  outcome_of lib ["-o"; "a.c"; "x"]%string {[lit "x" := [1; 2]]} = Undefined.
Proof. vm_compute. reflexivity. Qed.
